(* ===== verification/_CoqProject ===== *)
-Q . S2P
Prelude.v
Params.v
CString.v
Locks.v
Kalloc.v
Bio.v
Log.v
Crash.v
Reserve.v
Block.v
Balloc.v
Inode.v
Bmap.v
Content.v
LogSpace.v
Itrunc.v
Dir.v
Icache.v
Pipe.v
Path.v
Namei.v
Syscall.v
Cipher.v
File.v
Sysfile.v
FileProps.v
Image.v
FsTheorems.v
Grep.v
Umalloc.v
Printf.v
Sh.v
Runcmd.v
Vm.v
VmUser.v
VmCopy.v
Proc.v
ProcInv.v
ProcSys.v
ProcMem.v
ProcBoot.v
Exec.v
ExecMem.v
ExecLoad.v
ExecFs.v
ExecStack.v
ExecArgs.v
ExecProps.v
ExecDemo.v
Mkfs.v
MkfsFile.v
MkfsInv.v
MkfsRun.v
MkfsTree.v
MkfsProps.v
Kbd.v
Console.v
ConsoleProps.v
ConsoleSys.v
