(* ===== verification/Prelude.v ===== *)
(** * A verification library for RAF-OS-xv6

    RAF-OS-xv6 is a teaching operating system for x86 (a fork of xv6), with its
    user programs and tools.  This library translates the parts of it named
    below into executable definitions and proves that they do what they are
    for.  A definition has the name of the C function it translates, or, where
    it is one loop or one critical section of a function, a name after it; the
    definitions that stand for code come before the lemmas of their file.

    ** The program and its models

    - [Params]: the constants and macros of the headers under [kernel/].
    - [CString]: [kernel/string.c] and the string functions of [user/ulib.c].
    - [Locks]: [kernel/spinlock.c] on several cpus with their interrupt flags;
      [acquire] and [release] are lists of atomic sections, run in a row or
      interleaved; [kernel/sleeplock.c].
    - [Kalloc]: the page allocator [kernel/kalloc.c], its free list threaded
      through the free pages.
    - [Bio]: the buffer cache [kernel/bio.c] over the disk [kernel/memide.c].
    - [Log], [Crash], [Reserve]: the write-ahead log [kernel/log.c]; what a crash
      leaves and recovery makes of it; how [begin_op] reserves log space.
    - [Block]: the interface through which [kernel/fs.c] reaches the disk, as a
      class of operations with laws, and the log over the buffer cache as its
      instance.  The file system is proved against the laws.
    - [Balloc], [Inode], [Bmap], [Content], [LogSpace], [Itrunc], [Dir],
      [Icache], [Path], [Namei]: the layers of [kernel/fs.c]: free map, inodes,
      block tree (11 direct, one indirect, one doubly indirect), file contents,
      the log space that a write takes, truncation, directories, the table of
      inodes, path names.
    - [Pipe], [File], [Syscall], [Cipher], [Sysfile]: [kernel/pipe.c],
      [kernel/file.c], the argument checks of [kernel/syscall.c], and the system
      calls of [kernel/sysfile.c] with the encryption of this fork.
    - [FileProps], [Image], [FsTheorems]: writing files across transactions and
      crashes; a small disk image for the examples; the file system's theorems.
    - [Vm], [VmUser], [VmCopy]: the page tables of [kernel/vm.c], as words in the
      pages of [Kalloc].
    - [Proc], [ProcInv], [ProcSys], [ProcMem], [ProcBoot]: [kernel/proc.c].  The
      process table is a list of records; what a function does under
      [ptable.lock] is one definition, and [ProcInv.pstep] interleaves these on
      any number of cpus.
    - [Exec]: [kernel/exec.c], [loaduvm] of [kernel/vm.c] and [sys_exec];
      [ExecMem], [ExecLoad], [ExecFs], [ExecStack], [ExecArgs], [ExecProps] build
      its theorems, from user memory as one list of bytes to the whole call;
      [ExecDemo] runs the program of the image.
    - [Mkfs]: [tools/mkfs.c]; [MkfsFile], [MkfsInv], [MkfsRun], [MkfsTree],
      [MkfsProps] show that its image is the file system of [Namei] and [ExecFs].
    - [Kbd], [Console]: [kernel/kbd.c] and [kernel/console.c], with [uartputc];
      [ConsoleProps] relates the ring buffer to an editor on lists, [ConsoleSys]
      has the readers that sleep and the way of a line from the keyboard.
    - [Grep], [Umalloc], [Printf], [Sh], [Runcmd]: [user/grep.c],
      [user/umalloc.c], [user/printf.c] with the [cprintf] of
      [kernel/console.c], and the parser and [runcmd] of [user/sh.c].

    Kernel code is in the monad [M St A] of this file: a function takes the
    state and returns a result and the new state ([Ret]), panics with the
    message of the source ([Panic]), or would sleep or spin ([Block]).  [lift]
    runs the code of one component in the state of another: [kstate] of [File]
    holds the file system, the pages, the files and the pipes, and [kern] of
    [Proc] holds that and the process table.  C integers are [Z]; the functions
    [u8], [u16], [u32], [s8], [s16], [s32] reduce to a width where the source can
    wrap.  A pointer is an address for pages and user memory, and an index for
    buffers, inodes, files and processes.  Memory is bytes.

    ** What is proved

    - Crashes: a transaction is all or nothing after any crash and any number
      of crashes during recovery ([Crash]), and so is each chunk of a [write]
      ([FsTheorems.filewrite_crash_atomic]); the log does not overflow under any
      interleaving of operations within their limit ([Reserve]).
    - Files: [bmap], [writei], [readi], [itrunc], [iput], [balloc], [bfree],
      [ialloc], [dirlink], [dirlookup], [namex] and [filewrite] against the
      contents of files and the tree of directories ([FsTheorems]).
    - Processes: the process table in every reachable state
      ([ProcSys.process_table_sound]), and the isolation of their memory
      ([ProcBoot.process_isolation]), from the state that [userinit] makes.
    - Programs: [exec] starts the program that the file holds, with the
      arguments where [main] looks for them, or leaves the process as it was
      ([ExecProps.exec_correct], [ExecArgs.exec_arguments]).
    - Images: the kernel boots from what [mkfs] writes and finds every file
      ([MkfsProps.mkfs_correct]).
    - The console: line editing, wakeups, and lines from the keyboard to a
      process ([ConsoleSys]).
    - Memory: [kalloc] refines a stack of pages; [allocuvm] and [copyuvm] map
      exactly the pages they should and give everything back when they fail.
    - Concurrency: mutual exclusion of spin locks, pipes as queues without lost
      wakeups, the buffer cache as a transparent memory.
    - User programs: the shell's parser inverts the text of a command, [runcmd]
      connects the descriptors as the command says, [malloc] hands out disjoint
      blocks, [grep] prints the matching lines, [printf] prints the numbers.

    The panics that a theorem allows are in its statement, each with the
    condition under which it can happen; where one is left without a condition,
    it is a full buffer cache or log ([res_panic]) in code that is shown for a
    transaction in any state, or a full inode table.

    Some theorems show where the code falls short of what it is for; they are
    about [begin_op]'s reservation, killed writers of pipes, the keys of the
    cipher and [kill] of pid 0.

    ** Fuel and bounds

    A loop that is not structural has fuel, given where the loop is called, and
    the theorems prove the result of the whole loop: the size in pages for the
    loops of [kernel/vm.c], the number of bytes for [filewrite], [readi],
    [writei] and [piperead], the length of the text for paths, patterns and
    command lines, the number of headers for [malloc] and [free].  The page
    counts in the theorems on processes assume 1030 free pages at boot, which is
    one directory with all its tables, and [nextpid] below [2 ^ 31 - 1].

    ** Not modelled

    Device registers, interrupt controllers and assembly ([kernel/lapic.c],
    [kernel/ioapic.c], [kernel/uart.c], [kernel/ide.c], [kernel/mp.c],
    [kernel/swtch.S], [kernel/trapasm.S], [kernel/entry.S], the boot loader) have
    no state that the C code above them can observe other than by I/O.
    [consoleinit] and [panic] of [kernel/console.c],
    [kernel/trap.c], [kernel/sysproc.c] and the small user
    programs are not modelled.  The table of device drivers [devsw], the symbols
    [end] and [data] of the linker script and the memory that [sbrk] grants are
    parameters. *)

From stdpp Require Export base list numbers strings gmap.
From Stdlib Require Export ZArith Lia ZifyNat ZifyBool.

#[export] Set Default Goal Selector "!".

Ltac Zify.zify_post_hook ::= Z.div_mod_to_equations.

(** ** Machine integers

    A C integer is a [Z]; the wrap-around of its width is written out where
    the source relies on it. *)

Section machine_integers.
Local Open Scope Z_scope.

(** [uchar], [ushort], [uint]: reduction modulo the width. *)
Definition u8 (z : Z) : Z := z mod 2 ^ 8.
Definition u16 (z : Z) : Z := z mod 2 ^ 16.
Definition u32 (z : Z) : Z := z mod 2 ^ 32.

(** [char], [short], [int]: two's complement. *)
Definition s8 (z : Z) : Z := (z + 2 ^ 7) mod 2 ^ 8 - 2 ^ 7.
Definition s16 (z : Z) : Z := (z + 2 ^ 15) mod 2 ^ 16 - 2 ^ 15.
Definition s32 (z : Z) : Z := (z + 2 ^ 31) mod 2 ^ 32 - 2 ^ 31.

(** A list of bytes. *)
Definition is_byte (b : Z) : Prop := 0 <= b < 256.
Definition bytes (l : list Z) : Prop := Forall is_byte l.

Lemma u32_small z : 0 <= z < 2 ^ 32 -> u32 z = z.
Proof. intros. unfold u32. by rewrite Z.mod_small. Qed.

Lemma u32_range z : 0 <= u32 z < 2 ^ 32.
Proof. unfold u32. lia. Qed.

Lemma u8_range z : 0 <= u8 z < 256.
Proof. unfold u8. lia. Qed.

Lemma u8_small z : 0 <= z < 256 -> u8 z = z.
Proof. unfold u8. lia. Qed.

Lemma s16_small z : - 2 ^ 15 <= z < 2 ^ 15 -> s16 (z mod 2 ^ 16) = z.
Proof. unfold s16. lia. Qed.

Lemma s32_small z : - 2 ^ 31 <= z < 2 ^ 31 -> s32 z = z.
Proof. unfold s32. lia. Qed.

Lemma u8_is_byte z : is_byte (u8 z).
Proof. apply u8_range. Qed.

Lemma u8_s8 z : u8 (s8 z) = u8 z.
Proof. unfold u8, s8. lia. Qed.

Lemma s8_ascii z : 0 <= z < 128 -> s8 z = z.
Proof. unfold s8. lia. Qed.
End machine_integers.

(** ** The kernel monad

    Kernel code runs on a state [St] and ends in one of three ways: it returns,
    it calls [panic] (which halts the machine), or it blocks: the process
    goes to sleep (or spins) with the state as it left it. *)

Inductive outcome (St A : Type) : Type :=
| Ret (a : A) (s : St)
| Panic (msg : string)
| Block (s : St).
Arguments Ret {St A} a s.
Arguments Panic {St A} msg.
Arguments Block {St A} s.

Definition M (St A : Type) : Type := St -> outcome St A.

Section monad.
Context {St : Type}.

Definition ret {A} (a : A) : M St A := fun s => Ret a s.
Definition bind {A B} (m : M St A) (k : A -> M St B) : M St B :=
  fun s => match m s with
           | Ret a s' => k a s'
           | Panic msg => Panic msg
           | Block s' => Block s'
           end.
Definition panic {A} (msg : string) : M St A := fun _ => Panic msg.
Definition block {A} : M St A := fun s => Block s.
Definition gets {A} (f : St -> A) : M St A := fun s => Ret (f s) s.
Definition modify (f : St -> St) : M St unit := fun s => Ret tt (f s).
Definition when (c : bool) (m : M St unit) : M St unit := if c then m else ret tt.

(** A [for] loop over the elements of a list whose body may leave the loop
    with a value ([Some]: [break] or [return]). *)
Fixpoint scan {X R} (body : X -> M St (option R)) (l : list X) : M St (option R) :=
  match l with
  | [] => ret None
  | x :: l' => bind (body x) (fun r => match r with
                                       | Some _ => ret r
                                       | None => scan body l'
                                       end)
  end.

(** A [for] loop without early exit. *)
Fixpoint each {X} (body : X -> M St unit) (l : list X) : M St unit :=
  match l with
  | [] => ret tt
  | x :: l' => bind (body x) (fun _ => each body l')
  end.
End monad.

Declare Scope kmonad_scope.
Delimit Scope kmonad_scope with K.
Notation "x <- m ;; k" := (bind m (fun x => k))
  (at level 100, m at next level, right associativity) : kmonad_scope.
Notation "m ;; k" := (bind m (fun _ => k))
  (at level 100, right associativity) : kmonad_scope.

(** ** Weakest preconditions

    [wp E m Q s]: run from [s], [m] does not block; it returns with [Q], or it
    panics with a message in [E].  [E] names the resource panics that are
    allowed (out of disk blocks, no free buffer, ...); [nopanic] allows none. *)

Definition nopanic (msg : string) : Prop := False.

Definition wp {St A} (E : string -> Prop) (m : M St A) (Q : A -> St -> Prop) (s : St) : Prop :=
  match m s with
  | Ret a s' => Q a s'
  | Panic msg => E msg
  | Block _ => False
  end.

Section wp_rules.
Context {St : Type}.
Implicit Types (E : string -> Prop) (s : St).

Lemma wp_ret {A} E (a : A) (Q : A -> St -> Prop) s : Q a s -> wp E (ret a) Q s.
Proof. done. Qed.

Lemma wp_bind {A B} E (m : M St A) (k : A -> M St B) Q s :
  wp E m (fun a s' => wp E (k a) Q s') s -> wp E (bind m k) Q s.
Proof. unfold wp, bind. by destruct (m s). Qed.

Lemma wp_bind_assoc {A B C} E (m : M St A) (n : M St B) (k : M St C) Q s :
  wp E (bind (bind m (fun _ => n)) (fun _ => k)) Q s ->
  wp E (bind m (fun _ => bind n (fun _ => k))) Q s.
Proof. unfold wp, bind. destruct (m s) as [a s'| |]; done. Qed.

Lemma wp_assoc {A B C} E (m : M St A) (k : A -> M St B) (n : B -> M St C) Q s :
  wp E (bind (bind m k) n) Q s -> wp E (bind m (fun a => bind (k a) n)) Q s.
Proof. unfold wp, bind. by destruct (m s). Qed.

Lemma wp_bind_assoc3 {A B C D} E (m : M St A) (n : M St B) (p : M St C) (k : M St D) Q s :
  wp E (bind (bind m (fun _ => bind n (fun _ => p))) (fun _ => k)) Q s ->
  wp E (bind m (fun _ => bind n (fun _ => bind p (fun _ => k)))) Q s.
Proof.
  unfold wp, bind. destruct (m s) as [a s'| |]; try done. destruct (n s') as [b s''| |]; done.
Qed.

(** Two results at once. *)
Lemma wp_bind2 {A B C} E (m : M St A) (n : A -> M St B) (k : A -> B -> M St C) Q s :
  wp E (bind m (fun a => bind (n a) (fun b => ret (a, b)))) (fun '(a, b) s' => wp E (k a b) Q s') s ->
  wp E (bind m (fun a => bind (n a) (fun b => k a b))) Q s.
Proof. unfold wp, bind, ret. destruct (m s) as [a s'| |]; try done. by destruct (n a s'). Qed.

Lemma wp_mono {A} (E E' : string -> Prop) (m : M St A) (Q Q' : A -> St -> Prop) s :
  wp E m Q s -> (forall msg, E msg -> E' msg) -> (forall a s', Q a s' -> Q' a s') ->
  wp E' m Q' s.
Proof. unfold wp. destruct (m s); eauto. Qed.

Lemma wp_post {A} E (m : M St A) (Q Q' : A -> St -> Prop) s :
  wp E m Q s -> (forall a s', Q a s' -> Q' a s') -> wp E m Q' s.
Proof. intros. eapply wp_mono; eauto. Qed.

Lemma wp_gets {A} E (f : St -> A) (Q : A -> St -> Prop) s : Q (f s) s -> wp E (gets f) Q s.
Proof. done. Qed.

Lemma wp_modify E (f : St -> St) (Q : unit -> St -> Prop) s : Q tt (f s) -> wp E (modify f) Q s.
Proof. done. Qed.

Lemma wp_panic {A} E msg (Q : A -> St -> Prop) s : E msg -> wp E (panic msg) Q s.
Proof. done. Qed.

Lemma wp_when E (c : bool) (m : M St unit) (Q : unit -> St -> Prop) s :
  (c = true -> wp E m Q s) -> (c = false -> Q tt s) -> wp E (when c m) Q s.
Proof. destruct c; unfold when; [auto | intros _ HQ; by apply wp_ret, HQ]. Qed.

(** Loop rules: [I i] holds before iteration [i]. *)
Lemma wp_scan {X R} E (body : X -> M St (option R)) (Q : option R -> St -> Prop) l :
  forall (I : nat -> St -> Prop) s,
  I 0 s ->
  (forall i x s', l !! i = Some x -> I i s' ->
     wp E (body x) (fun r s'' => if r is Some _ then Q r s'' else I (S i) s'') s') ->
  (forall s', I (length l) s' -> Q None s') ->
  wp E (scan body l) Q s.
Proof.
  induction l as [|x l IH]; intros I s HI Hbody Hend; simpl.
  - by apply wp_ret, Hend.
  - apply wp_bind. eapply wp_post; [by apply (Hbody 0%nat)|].
    intros [r|] s' Hr; [by apply wp_ret|].
    apply (IH (fun i => I (S i)) s' Hr); [|done].
    intros i y s'' Hy. by apply (Hbody (S i)).
Qed.

Lemma wp_each {X} E (body : X -> M St unit) (Q : unit -> St -> Prop) l :
  forall (I : nat -> St -> Prop) s,
  I 0 s ->
  (forall i x s', l !! i = Some x -> I i s' -> wp E (body x) (fun _ => I (S i)) s') ->
  (forall s', I (length l) s' -> Q tt s') ->
  wp E (each body l) Q s.
Proof.
  induction l as [|x l IH]; intros I s HI Hbody Hend; simpl.
  - by apply wp_ret, Hend.
  - apply wp_bind. eapply wp_post; [by apply (Hbody 0%nat)|].
    intros [] s' Hr. apply (IH (fun i => I (S i)) s' Hr); [|done].
    intros i y s'' Hy. by apply (Hbody (S i)).
Qed.
End wp_rules.

(** A run that cannot panic returns. *)
Lemma wp_nopanic_run {St A} (m : M St A) Q s : wp nopanic m Q s -> exists a s', m s = Ret a s' /\ Q a s'.
Proof. unfold wp. destruct (m s); [eauto|done|done]. Qed.

(** Running a [bind] whose first half is known. *)
Lemma bind_Ret {St A B} (m : M St A) (k : A -> M St B) s a s' :
  m s = Ret a s' -> bind m k s = k a s'.
Proof. unfold bind. by intros ->. Qed.

Lemma bind_Panic {St A B} (m : M St A) (k : A -> M St B) s msg :
  m s = Panic msg -> bind m k s = Panic msg.
Proof. unfold bind. by intros ->. Qed.

Lemma gets_bind {St A B} (f : St -> A) (k : A -> M St B) s : bind (gets f) k s = k (f s) s.
Proof. done. Qed.

Lemma modify_bind {St B} (f : St -> St) (k : unit -> M St B) s : bind (modify f) k s = k tt (f s).
Proof. done. Qed.

Lemma ret_bind {St A B} (a : A) (k : A -> M St B) s : bind (ret a) k s = k a s.
Proof. done. Qed.

(** One step of symbolic execution through the monad's structure. *)
Ltac wp_step :=
  lazymatch goal with
  | |- wp _ (bind _ _) _ _ => apply wp_bind
  | |- wp _ (ret _) _ _ => apply wp_ret
  | |- wp _ (gets _) _ _ => apply wp_gets
  | |- wp _ (modify _) _ _ => apply wp_modify
  | |- wp _ (panic _) _ _ => apply wp_panic
  end.
Ltac run_steps := rewrite ?gets_bind, ?modify_bind, ?ret_bind.
Ltac wp_steps := repeat (wp_step; cbv beta).

(** ** Array slices

    [sub l i n]: the [n] elements of [l] from index [i]; [splice l i l']: [l]
    with [l'] copied over it from index [i] (a [memmove] into an array). *)

Section slices.
Context {A : Type}.
Implicit Types (l : list A) (i n : nat).

Definition sub l i n : list A := take n (drop i l).
Definition splice l i (l' : list A) : list A := take i l ++ l' ++ drop (i + length l') l.

Lemma length_sub l i n : (i + n <= length l)%nat -> length (sub l i n) = n.
Proof. intros. unfold sub. rewrite length_take, length_drop. lia. Qed.

Lemma length_splice l i l' : (i + length l' <= length l)%nat -> length (splice l i l') = length l.
Proof. intros. unfold splice. rewrite !length_app, length_take, length_drop. lia. Qed.

Lemma lookup_sub l i n j : (j < n)%nat -> sub l i n !! j = l !! (i + j)%nat.
Proof. intros. unfold sub. by rewrite lookup_take_lt, lookup_drop. Qed.

Lemma lookup_splice_in l i l' j :
  (i + length l' <= length l)%nat -> (j < length l')%nat -> splice l i l' !! (i + j)%nat = l' !! j.
Proof.
  intros. unfold splice. rewrite lookup_app_r by (rewrite length_take; lia).
  rewrite length_take, lookup_app_l by lia. f_equal. lia.
Qed.

Lemma lookup_splice_out l i l' j :
  (i + length l' <= length l)%nat -> (j < i \/ i + length l' <= j)%nat ->
  splice l i l' !! j = l !! j.
Proof.
  intros Hl [Hj|Hj]; unfold splice.
  - rewrite lookup_app_l by (rewrite length_take; lia). by apply lookup_take_lt.
  - rewrite lookup_app_r by (rewrite length_take; lia).
    rewrite length_take, lookup_app_r by lia. rewrite lookup_drop. f_equal. lia.
Qed.

Lemma sub_splice_eq l i l' :
  (i + length l' <= length l)%nat -> sub (splice l i l') i (length l') = l'.
Proof.
  intros. unfold sub, splice. rewrite drop_app_length' by (rewrite length_take; lia).
  by apply take_app_length.
Qed.

Lemma sub_splice_ne l i l' j n :
  (i + length l' <= length l)%nat -> (j + n <= i \/ i + length l' <= j)%nat ->
  sub (splice l i l') j n = sub l j n.
Proof.
  intros Hl Hj. apply list_eq. intros k. destruct (decide (k < n)%nat).
  - rewrite !lookup_sub by done. apply lookup_splice_out; lia.
  - unfold sub. rewrite !lookup_take_ge by lia. done.
Qed.

Lemma sub_app_l l l' : sub (l ++ l') 0 (length l) = l.
Proof. unfold sub. rewrite drop_0. apply take_app_length. Qed.

Lemma sub_app_r l l' i n : sub (l ++ l') (length l + i) n = sub l' i n.
Proof. unfold sub. by rewrite drop_app_add. Qed.

Lemma sub_add l i n m : sub l i n ++ sub l (i + n) m = sub l i (n + m).
Proof. unfold sub. rewrite <- drop_drop. apply take_take_drop. Qed.

Lemma splice_splice l a b i : (i <= length l)%nat -> splice (splice l i a) (i + length a) b = splice l i (a ++ b).
Proof.
  intros Ho. unfold splice. rewrite (app_assoc (take i l) a).
  rewrite take_app_le by (rewrite length_app, length_take; lia).
  rewrite take_ge by (rewrite length_app, length_take; lia). rewrite <- !app_assoc. do 3 f_equal.
  rewrite drop_app_ge by (rewrite length_take; lia). rewrite length_take, Nat.min_l by lia.
  rewrite drop_app_ge by lia. rewrite drop_drop, length_app. f_equal. lia.
Qed.

Lemma splice_nil l i : splice l i [] = l.
Proof. unfold splice. rewrite Nat.add_0_r. apply take_drop. Qed.

(** A slice that contains the part written. *)
Lemma sub_splice_in l b i n j : (j <= i)%nat -> (i + length b <= j + n)%nat -> (j + n <= length l)%nat ->
  sub (splice l i b) j n = splice (sub l j n) (i - j) b.
Proof.
  intros H1 H2 H3. assert (Hs : length (sub l j n) = n) by (apply length_sub; lia).
  apply list_eq. intros x. destruct (decide (x < n)%nat) as [Hx|Hx].
  - rewrite lookup_sub by done. destruct (decide (i <= j + x < i + length b)%nat) as [Hi|Hi].
    + replace (j + x)%nat with (i + (j + x - i))%nat by lia. rewrite lookup_splice_in by lia.
      replace x with ((i - j) + (j + x - i))%nat at 2 by lia. rewrite lookup_splice_in by (rewrite ?Hs; lia). done.
    + rewrite !lookup_splice_out by (rewrite ?Hs; lia). by rewrite lookup_sub.
  - rewrite !lookup_ge_None_2; [done| |]; [rewrite length_splice; rewrite ?Hs; lia|]. rewrite length_sub; [lia|]. rewrite length_splice; lia.
Qed.

Lemma splice_sub l i n : (i + n <= length l)%nat -> splice l i (sub l i n) = l.
Proof.
  intros. unfold splice. rewrite length_sub by done. unfold sub.
  by rewrite <- drop_drop, !take_drop.
Qed.
End slices.

(** ** Little-endian encoding of machine words in byte arrays *)

Section little_endian.
Local Open Scope Z_scope.

Fixpoint le_bytes (n : nat) (z : Z) : list Z :=
  match n with
  | O => []
  | S n' => z mod 256 :: le_bytes n' (z / 256)
  end.

Fixpoint le_val (l : list Z) : Z :=
  match l with
  | [] => 0
  | b :: l' => b + 256 * le_val l'
  end.

(** The [i]-th [uint] of a byte array, read and written. *)
Definition get32 (d : list Z) (i : nat) : Z := le_val (sub d (4 * i) 4).
Definition set32 (d : list Z) (i : nat) (v : Z) : list Z := splice d (4 * i) (le_bytes 4 v).

Lemma length_le_bytes n z : length (le_bytes n z) = n.
Proof. revert z. induction n; intros; simpl; auto. Qed.

Lemma bytes_le_bytes n z : bytes (le_bytes n z).
Proof.
  revert z. induction n; intros; simpl; constructor; [unfold is_byte; lia|]. apply IHn.
Qed.

Lemma le_val_bytes n z : le_val (le_bytes n z) = z mod 256 ^ Z.of_nat n.
Proof.
  revert z. induction n as [|n IH]; intros z; [simpl; by rewrite Z.mod_1_r|].
  cbn [le_bytes le_val]. rewrite IH, Nat2Z.inj_succ, Z.pow_succ_r by lia.
  rewrite Z.rem_mul_r by lia. lia.
Qed.

Lemma le_val_range l : bytes l -> 0 <= le_val l < 256 ^ Z.of_nat (length l).
Proof.
  induction 1 as [|b l Hb Hl IH]; [done|].
  cbn [le_val length]. rewrite Nat2Z.inj_succ, Z.pow_succ_r by lia.
  unfold is_byte in Hb. nia.
Qed.

Lemma le_bytes_val l : bytes l -> le_bytes (length l) (le_val l) = l.
Proof.
  induction 1 as [|b l Hb Hl IH]; [done|]. cbn [length le_val le_bytes].
  unfold is_byte in Hb. f_equal; [lia|].
  replace ((b + 256 * le_val l) / 256) with (le_val l) by lia. done.
Qed.

Lemma length_set32 d i v : (4 * i + 4 <= length d)%nat -> length (set32 d i v) = length d.
Proof. intros. apply length_splice. rewrite length_le_bytes. lia. Qed.

Lemma get_set32_eq d i v :
  (4 * i + 4 <= length d)%nat -> 0 <= v < 2 ^ 32 -> get32 (set32 d i v) i = v.
Proof.
  intros Hl Hv. unfold get32, set32.
  replace 4%nat with (length (le_bytes 4 v)) at 3 by apply length_le_bytes.
  rewrite sub_splice_eq by (rewrite length_le_bytes; lia).
  rewrite le_val_bytes. apply Z.mod_small. lia.
Qed.

Lemma get_set32_ne d i j v :
  (4 * i + 4 <= length d)%nat -> i <> j -> get32 (set32 d i v) j = get32 d j.
Proof.
  intros Hl Hij. unfold get32, set32. f_equal.
  apply sub_splice_ne; rewrite length_le_bytes; lia.
Qed.

Lemma get32_range d i :
  bytes d -> (4 * i + 4 <= length d)%nat -> 0 <= get32 d i < 2 ^ 32.
Proof.
  intros Hd Hl. unfold get32.
  assert (bytes (sub d (4 * i) 4)) as Hs by (apply Forall_take, Forall_drop, Hd).
  apply le_val_range in Hs. rewrite length_sub in Hs by lia. lia.
Qed.

Lemma bytes_splice d i l : bytes d -> bytes l -> bytes (splice d i l).
Proof.
  intros Hd Hl. unfold splice, bytes. rewrite !Forall_app.
  split; [by apply Forall_take|]. split; [done|]. by apply Forall_drop.
Qed.

Lemma bytes_set32 d i v : bytes d -> bytes (set32 d i v).
Proof. intros. apply bytes_splice; [done|]. apply bytes_le_bytes. Qed.

Lemma get32_replicate n i : get32 (replicate n 0) i = 0.
Proof.
  unfold get32, sub. rewrite drop_replicate, take_replicate.
  induction (4 `min` (n - 4 * i))%nat as [|k IH]; [done|]. simpl. rewrite IH. done.
Qed.
End little_endian.

#[global] Arguments replicate : simpl never.
#[global] Arguments sub : simpl never.
#[global] Arguments splice : simpl never.
#[global] Arguments le_bytes : simpl never.
#[global] Arguments get32 : simpl never.
#[global] Arguments set32 : simpl never.

Create HintDb xv6.
#[export] Hint Resolve u8_is_byte bytes_le_bytes bytes_splice bytes_set32 : xv6.

Create Rewrite HintDb len.
#[export] Hint Rewrite @length_le_bytes @length_app @length_take @length_drop
  @length_replicate @length_insert @length_seqZ @length_fmap : len.

(** ** Running a component's code inside a larger state *)

Section lift.
Context {St T : Type} (get : T -> St) (put : St -> T -> T).

Definition lift {A} (m : M St A) : M T A :=
  fun t => match m (get t) with
           | Ret a s => Ret a (put s t)
           | Panic msg => Panic msg
           | Block s => Block (put s t)
           end.

Lemma wp_lift {A} E (m : M St A) (Q : A -> T -> Prop) t :
  wp E m (fun a s => Q a (put s t)) (get t) -> wp E (lift m) Q t.
Proof. unfold wp, lift. by destruct (m (get t)). Qed.

(** Consecutive steps of the component. *)
Context (get_put : forall s t, get (put s t) = s) (put_put : forall s s' t, put s (put s' t) = put s t).

Lemma wp_lift2 {A B} E (m : M St A) (n : M St B) (Q : B -> T -> Prop) t :
  wp E (bind m (fun _ => n)) (fun a s => Q a (put s t)) (get t) ->
  wp E (bind (lift m) (fun _ => lift n)) Q t.
Proof.
  unfold wp, lift, bind. destruct (m (get t)) as [a s| |]; try done. rewrite get_put.
  destruct (n s); try done. by rewrite put_put.
Qed.

Lemma wp_lift3 {A B C} E (m : M St A) (n : M St B) (p : M St C) (Q : C -> T -> Prop) t :
  wp E (bind m (fun _ => bind n (fun _ => p))) (fun a s => Q a (put s t)) (get t) ->
  wp E (bind (lift m) (fun _ => bind (lift n) (fun _ => lift p))) Q t.
Proof.
  unfold wp, lift, bind. destruct (m (get t)) as [a s| |]; try done. rewrite get_put.
  destruct (n s) as [b s'| |]; try done. rewrite get_put. destruct (p s'); try done. by rewrite !put_put.
Qed.
End lift.
