(* ===== verification/Params.v ===== *)
(** * Constants and layout macros of the kernel headers

    [kernel/param.h], [kernel/fs.h], [kernel/stat.h], [kernel/fcntl.h],
    [kernel/mmu.h] and [kernel/memlayout.h].  [plia] is [lia] with the
    constants unfolded. *)

From S2P Require Import Prelude.
Local Open Scope Z_scope.

(** param.h *)
Definition NPROC : Z := 64.
Definition KSTACKSIZE : Z := 4096.
Definition NCPU : Z := 8.
Definition NOFILE : Z := 16.
Definition NFILE : Z := 100.
Definition NINODE : Z := 50.
Definition NDEV : Z := 10.
Definition ROOTDEV : Z := 1.
Definition MAXARG : Z := 32.
Definition MAXOPBLOCKS : Z := 10.
Definition LOGSIZE : Z := MAXOPBLOCKS * 3.
Definition NBUF : Z := MAXOPBLOCKS * 3.
Definition FSSIZE : Z := 20000.

(** fs.h *)
Definition ROOTINO : Z := 1.
Definition BSIZE : Z := 512.
Definition NDIRECT : Z := 11.
Definition NINDIRECT : Z := BSIZE / 4.
Definition NDINDIRECT : Z := NINDIRECT * NINDIRECT.
Definition MAXFILE : Z := NDIRECT + NINDIRECT + NDINDIRECT.
(** [sizeof(struct dinode)] = 4 shorts, a uint and [NDIRECT+2] uints. *)
Definition sizeof_dinode : Z := 4 * 2 + 4 + (NDIRECT + 2) * 4.
Definition IPB : Z := BSIZE / sizeof_dinode.
Definition BPB : Z := BSIZE * 8.
Definition DIRSIZ : Z := 14.
Definition sizeof_dirent : Z := 2 + DIRSIZ.

(** stat.h *)
Definition T_DIR : Z := 1.
Definition T_FILE : Z := 2.
Definition T_DEV : Z := 3.

(** fcntl.h *)
Definition O_RDONLY : Z := 0.
Definition O_WRONLY : Z := 1.
Definition O_RDWR : Z := 2.
Definition O_CREATE : Z := 0x200.

(** memlayout.h *)
Definition EXTMEM : Z := 0x100000.
Definition PHYSTOP : Z := 0xE000000.
Definition DEVSPACE : Z := 0xFE000000.
Definition KERNBASE : Z := 0x80000000.
Definition KERNLINK : Z := KERNBASE + EXTMEM.
Definition V2P (a : Z) : Z := u32 (a - KERNBASE).
Definition P2V (a : Z) : Z := u32 (a + KERNBASE).

(** mmu.h *)
Definition PGSIZE : Z := 4096.
Definition NPDENTRIES : Z := 1024.
Definition NPTENTRIES : Z := 1024.
Definition PTXSHIFT : Z := 12.
Definition PDXSHIFT : Z := 22.
Definition PDX (va : Z) : Z := Z.land (Z.shiftr (u32 va) PDXSHIFT) 0x3FF.
Definition PTX (va : Z) : Z := Z.land (Z.shiftr (u32 va) PTXSHIFT) 0x3FF.
Definition PGADDR (d t o : Z) : Z :=
  u32 (Z.lor (Z.lor (Z.shiftl d PDXSHIFT) (Z.shiftl t PTXSHIFT)) o).
Definition PGROUNDUP (sz : Z) : Z := Z.land (u32 (sz + PGSIZE - 1)) (u32 (Z.lnot (PGSIZE - 1))).
Definition PGROUNDDOWN (a : Z) : Z := Z.land (u32 a) (u32 (Z.lnot (PGSIZE - 1))).
Definition PTE_P : Z := 0x001.
Definition PTE_W : Z := 0x002.
Definition PTE_U : Z := 0x004.
Definition PTE_ADDR (pte : Z) : Z := Z.land (u32 pte) (u32 (Z.lnot 0xFFF)).
Definition PTE_FLAGS (pte : Z) : Z := Z.land (u32 pte) 0xFFF.

Ltac unfold_params :=
  unfold NBUF, LOGSIZE, MAXFILE, NDINDIRECT, NINDIRECT, IPB, BPB, sizeof_dirent, sizeof_dinode,
    KERNLINK, NPROC, KSTACKSIZE, NCPU, NOFILE, NFILE, NINODE, NDEV, ROOTDEV, MAXARG,
    MAXOPBLOCKS, FSSIZE, ROOTINO, BSIZE, NDIRECT, DIRSIZ, T_DIR, T_FILE, T_DEV,
    O_RDONLY, O_WRONLY, O_RDWR, O_CREATE, EXTMEM, PHYSTOP, DEVSPACE, KERNBASE,
    PGSIZE, NPDENTRIES, NPTENTRIES, PTXSHIFT, PDXSHIFT, PTE_P, PTE_W, PTE_U in *.
Ltac eval_params :=
  change NBUF with 30 in *; change LOGSIZE with 30 in *; change NINDIRECT with 128 in *;
  change NDINDIRECT with 16384 in *; change MAXFILE with 16523 in *; change IPB with 8 in *;
  change BPB with 4096 in *; change sizeof_dirent with 16 in *; change sizeof_dinode with 64 in *.
Ltac plia := eval_params; unfold_params; lia.

(** The mask macros are the arithmetic ones. *)
Lemma land_pgmask z : 0 <= z < 2 ^ 32 -> Z.land z (u32 (Z.lnot (PGSIZE - 1))) = z - z mod 4096.
Proof.
  intros Hz. replace (u32 (Z.lnot (PGSIZE - 1))) with (Z.ldiff (Z.ones 32) (Z.ones 12)) by reflexivity.
  assert (Z.land z (Z.ldiff (Z.ones 32) (Z.ones 12)) = Z.ldiff (Z.land z (Z.ones 32)) (Z.ones 12)) as ->.
  { apply Z.bits_inj'. intros n Hn. rewrite Z.land_spec, !Z.ldiff_spec, Z.land_spec. by rewrite andb_assoc. }
  rewrite Z.land_ones by lia. rewrite Z.mod_small by lia.
  rewrite Z.ldiff_ones_r by lia. rewrite Z.shiftr_div_pow2, Z.shiftl_mul_pow2 by lia.
  change (2 ^ 12) with 4096. lia.
Qed.

Lemma PGROUNDDOWN_spec a : 0 <= a < 2 ^ 32 -> PGROUNDDOWN a = a - a mod 4096.
Proof. intros. unfold PGROUNDDOWN. rewrite u32_small by done. by apply land_pgmask. Qed.

Lemma PGROUNDUP_spec a : 0 <= a <= 2 ^ 32 - 4096 -> PGROUNDUP a = (a + 4095) / 4096 * 4096.
Proof.
  intros. unfold PGROUNDUP. rewrite u32_small by plia. rewrite land_pgmask by plia. plia.
Qed.

Lemma PTE_ADDR_spec a : 0 <= a < 2 ^ 32 -> PTE_ADDR a = a - a mod 4096.
Proof. intros. unfold PTE_ADDR. rewrite u32_small by done. by apply land_pgmask. Qed.

Lemma PTE_FLAGS_spec a : 0 <= a < 2 ^ 32 -> PTE_FLAGS a = a mod 4096.
Proof.
  intros. unfold PTE_FLAGS. rewrite u32_small by done. change 0xFFF with (Z.ones 12).
  by rewrite Z.land_ones.
Qed.

Lemma PDX_spec va : 0 <= va < 2 ^ 32 -> PDX va = va / 2 ^ 22.
Proof.
  intros. unfold PDX. rewrite u32_small by done. change 0x3FF with (Z.ones 10).
  rewrite Z.land_ones, Z.shiftr_div_pow2 by plia. unfold PDXSHIFT.
  rewrite Z.mod_small; lia.
Qed.

Lemma PTX_spec va : 0 <= va < 2 ^ 32 -> PTX va = va / 2 ^ 12 mod 1024.
Proof.
  intros. unfold PTX. rewrite u32_small by done. change 0x3FF with (Z.ones 10).
  rewrite Z.land_ones, Z.shiftr_div_pow2 by plia. done.
Qed.
