(* ===== verification/CString.v ===== *)
(** * Memory and string routines ([kernel/string.c], [user/ulib.c])

    The [mem*] routines work on a flat memory, so that overlapping regions are
    what they are; the [str*] routines read their arguments as byte lists, with
    a NUL after the last byte. *)

From S2P Require Import Prelude.
Local Open Scope Z_scope.

Definition mem : Type := Z -> Z.
Definition store (m : mem) (a x : Z) : mem := fun b => if b =? a then x else m b.

(** [stosb], [stosl]: [cnt] bytes, or 32-bit little-endian words. *)
Fixpoint stosb (m : mem) (dst x : Z) (cnt : nat) : mem :=
  match cnt with
  | O => m
  | S cnt' => stosb (store m dst (u8 x)) (dst + 1) x cnt'
  end.

Definition store32 (m : mem) (a x : Z) : mem :=
  store (store (store (store m a (u8 x)) (a + 1) (u8 (Z.shiftr x 8)))
               (a + 2) (u8 (Z.shiftr x 16))) (a + 3) (u8 (Z.shiftr x 24)).

Fixpoint stosl (m : mem) (dst x : Z) (cnt : nat) : mem :=
  match cnt with
  | O => m
  | S cnt' => stosl (store32 m dst x) (dst + 4) x cnt'
  end.

Definition memset (m : mem) (dst c n : Z) : mem :=
  if (dst mod 4 =? 0) && (n mod 4 =? 0) then
    let c := Z.land c 255 in
    stosl m dst (Z.lor (Z.lor (Z.lor (Z.shiftl c 24) (Z.shiftl c 16)) (Z.shiftl c 8)) c)
      (Z.to_nat (n / 4))
  else stosb m dst c (Z.to_nat n).

(** The two loops of [memmove]. *)
Fixpoint copy_up (m : mem) (d s : Z) (n : nat) : mem :=
  match n with
  | O => m
  | S n' => copy_up (store m d (m s)) (d + 1) (s + 1) n'
  end.

Fixpoint copy_down (m : mem) (d s : Z) (n : nat) : mem :=   (* *--d = *--s *)
  match n with
  | O => m
  | S n' => copy_down (store m (d - 1) (m (s - 1))) (d - 1) (s - 1) n'
  end.

Definition memmove (m : mem) (dst src n : Z) : mem :=
  if (src <? dst) && (dst <? src + n)
  then copy_down m (dst + n) (src + n) (Z.to_nat n)
  else copy_up m dst src (Z.to_nat n).

Definition memcpy (m : mem) (dst src n : Z) : mem := memmove m dst src n.

Fixpoint memcmp_loop (m : mem) (s1 s2 : Z) (n : nat) : Z :=
  match n with
  | O => 0
  | S n' => if negb (m s1 =? m s2) then m s1 - m s2 else memcmp_loop m (s1 + 1) (s2 + 1) n'
  end.
Definition memcmp (m : mem) (v1 v2 n : Z) : Z := memcmp_loop m v1 v2 (Z.to_nat n).

(** [memmove] of the user library: one loop only. *)
Definition umemmove (m : mem) (dst src n : Z) : mem := copy_up m dst src (Z.to_nat n).

(** ** Strings *)

Definition chd (s : list Z) : Z := default 0 (head s).    (* *s *)

Fixpoint strncmp (p q : list Z) (n : nat) : Z :=
  match n with
  | O => 0
  | S n' => if negb (chd p =? 0) && (chd p =? chd q) then strncmp (tail p) (tail q) n'
            else chd p - chd q
  end.

(** [strcmp], on the first string's length and one more. *)
Fixpoint strcmp (p q : list Z) : Z :=
  match p with
  | [] => 0 - chd q
  | c :: p' => if negb (c =? 0) && (c =? chd q) then strcmp p' (tail q) else c - chd q
  end.

(** The [n] bytes [strncpy] stores. *)
Fixpoint strncpy (t : list Z) (n : nat) : list Z :=
  match n with
  | O => []
  | S n' => if chd t =? 0 then 0 :: replicate n' 0 else chd t :: strncpy (tail t) n'
  end.

(** The bytes [safestrcpy] stores, for [n > 0]. *)
Fixpoint safestrcpy (t : list Z) (n : nat) : list Z :=
  match n with
  | O => []
  | S O => [0]
  | S n' => if chd t =? 0 then [0; 0] else chd t :: safestrcpy (tail t) n'
  end.

Fixpoint strlen (s : list Z) : Z :=
  match s with
  | [] => 0
  | c :: s' => if c =? 0 then 0 else 1 + strlen s'
  end.

Fixpoint strchr (s : list Z) (c : Z) : option (list Z) :=
  match s with
  | [] => None
  | x :: s' => if x =? 0 then None else if x =? c then Some s else strchr s' c
  end.

Fixpoint atoi_loop (s : list Z) (n : Z) : Z :=
  match s with
  | c :: s' => if (48 <=? c) && (c <=? 57) then atoi_loop s' (s32 (n * 10 + c - 48)) else n
  | [] => n
  end.
Definition atoi (s : list Z) : Z := atoi_loop s 0.

(** ** Memory *)

Lemma store_eq m a x : store m a x a = x.
Proof. unfold store. by rewrite Z.eqb_refl. Qed.

Lemma store_ne m a x b : b <> a -> store m a x b = m b.
Proof. intros H. unfold store. by rewrite (proj2 (Z.eqb_neq b a) H). Qed.

Lemma stosb_spec cnt : forall m dst x a,
  stosb m dst x cnt a = if decide (dst <= a < dst + Z.of_nat cnt) then u8 x else m a.
Proof.
  induction cnt as [|cnt IH]; intros m dst x a; cbn [stosb].
  - rewrite decide_False by lia. done.
  - rewrite IH. repeat case_decide; try lia.
    + replace a with dst by lia. apply store_eq.
    + apply store_ne. lia.
Qed.

Lemma stosl_spec cnt : forall m dst x c a,
  (forall k, 0 <= k < 4 -> u8 (Z.shiftr x (8 * k)) = c) ->
  stosl m dst x cnt a = if decide (dst <= a < dst + 4 * Z.of_nat cnt) then c else m a.
Proof.
  induction cnt as [|cnt IH]; intros m dst x c a Hx; cbn [stosl].
  - rewrite decide_False by lia. done.
  - rewrite (IH _ _ _ c) by done. unfold store32.
    pose proof (Hx 0 ltac:(lia)) as H0. pose proof (Hx 1 ltac:(lia)) as H1.
    pose proof (Hx 2 ltac:(lia)) as H2. pose proof (Hx 3 ltac:(lia)) as H3.
    rewrite Z.mul_0_r, Z.shiftr_0_r in H0. rewrite Z.mul_1_r in H1.
    change (8 * 2) with 16 in H2. change (8 * 3) with 24 in H3. rewrite H0, H1, H2, H3.
    unfold store. repeat case_decide; try lia;
      repeat (let E := fresh in destruct (a =? _) eqn:E; [apply Z.eqb_eq in E|apply Z.eqb_neq in E]); lia || done.
Qed.

(** The word [stosl] stores has the byte four times. *)
Lemma splat_bytes c k : 0 <= c < 256 -> 0 <= k < 4 ->
  u8 (Z.shiftr (Z.lor (Z.lor (Z.lor (Z.shiftl c 24) (Z.shiftl c 16)) (Z.shiftl c 8)) c) (8 * k)) = c.
Proof.
  intros Hc Hk. unfold u8. apply Z.bits_inj'. intros i Hi.
  assert (forall j, 8 <= j -> Z.testbit c j = false) as Hhi.
  { intros j Hj. rewrite <- (Z.mod_small c (2 ^ 8)) by lia. apply Z.mod_pow2_bits_high. lia. }
  destruct (decide (i < 8)) as [Hlt|Hge].
  - rewrite Z.mod_pow2_bits_low, Z.shiftr_spec, !Z.lor_spec by lia. rewrite !Z.shiftl_spec by lia.
    assert (k = 0 \/ k = 1 \/ k = 2 \/ k = 3) as [-> | [-> | [-> | ->]]] by lia.
    + replace (i + 8 * 0) with i by lia. rewrite !(Z.testbit_neg_r c) by lia. done.
    + rewrite (Hhi (i + 8 * 1)), !(Z.testbit_neg_r c (i + 8 * 1 - _)) by lia.
      replace (i + 8 * 1 - 8) with i by lia. by rewrite orb_false_r.
    + rewrite (Hhi (i + 8 * 2)), (Hhi (i + 8 * 2 - 8)), !(Z.testbit_neg_r c (i + 8 * 2 - 24)) by lia.
      replace (i + 8 * 2 - 16) with i by lia. by rewrite !orb_false_r.
    + rewrite (Hhi (i + 8 * 3)), (Hhi (i + 8 * 3 - 8)), (Hhi (i + 8 * 3 - 16)) by lia.
      replace (i + 8 * 3 - 24) with i by lia. by rewrite !orb_false_r.
  - rewrite Z.mod_pow2_bits_high, Hhi by lia. done.
Qed.

Lemma copy_up_spec n : forall m d s a,
  d <= s \/ s + Z.of_nat n <= d ->
  copy_up m d s n a = if decide (d <= a < d + Z.of_nat n) then m (s + (a - d)) else m a.
Proof.
  induction n as [|n IH]; intros m d s a Hd; cbn [copy_up].
  - rewrite decide_False by lia. done.
  - rewrite IH by lia. repeat case_decide; try lia.
    + rewrite store_ne by lia. f_equal. lia.
    + replace a with d by lia. rewrite store_eq. f_equal. lia.
    + apply store_ne. lia.
Qed.

Lemma copy_down_spec n : forall m d s a,
  s <= d ->
  copy_down m d s n a = if decide (d - Z.of_nat n <= a < d) then m (s - (d - a)) else m a.
Proof.
  induction n as [|n IH]; intros m d s a Hd; cbn [copy_down].
  - rewrite decide_False by lia. done.
  - rewrite IH by lia. repeat case_decide; try lia.
    + rewrite store_ne by lia. f_equal. lia.
    + replace a with (d - 1) by lia. rewrite store_eq. f_equal. lia.
    + apply store_ne. lia.
Qed.

(** C35: [memmove] and [memset] of the kernel.  [memmove] copies the old contents
    of the source, whether or not the regions overlap; [memset] fills the
    region with the low byte of its argument on both of its paths. *)
Theorem memmove_memset_correct m dst src c n :
  0 <= n ->
  (forall a, memmove m dst src n a = if decide (dst <= a < dst + n) then m (src + (a - dst)) else m a) /\
  (forall a, memset m dst c n a = if decide (dst <= a < dst + n) then u8 c else m a).
Proof.
  intros Hn. split; intros a.
  - unfold memmove. destruct (_ && _) eqn:E; [apply andb_prop in E as [E1 E2]|apply andb_false_iff in E].
    + rewrite copy_down_spec by lia. rewrite Z2Nat.id by done. repeat case_decide; try lia.
      f_equal. lia.
    + rewrite copy_up_spec by lia. rewrite Z2Nat.id by done. repeat case_decide; try lia; done.
  - unfold memset. destruct (_ && _) eqn:E; [apply andb_prop in E as [E1 E2]|].
    + assert (Z.land c 255 = u8 c) as -> by apply (Z.land_ones c 8 ltac:(lia)).
      rewrite (stosl_spec _ _ _ _ (u8 c)) by (intros k Hk; apply splat_bytes; [apply u8_range|done]).
      repeat case_decide; try lia; done.
    + rewrite stosb_spec, Z2Nat.id by done. done.
Qed.

Lemma memmove_memset_correct_witness :
  let m := fun a => a in
  memmove m 12 10 5 13 = 11 /\ memset m 8 (256 + 7) 8 15 = 7 /\ memset m 9 7 3 11 = 7.
Proof.
  split; [|split]; [rewrite (proj1 (memmove_memset_correct _ 12 10 0 5 ltac:(lia)))
                   |rewrite (proj2 (memmove_memset_correct _ 8 0 (256 + 7) 8 ltac:(lia)))
                   |rewrite (proj2 (memmove_memset_correct _ 9 0 7 3 ltac:(lia)))]; reflexivity.
Defined.

(** The user library's [memmove] is right only when the destination is not
    inside the source's tail. *)
Lemma umemmove_spec m dst src n a :
  0 <= n -> dst <= src \/ src + n <= dst ->
  umemmove m dst src n a = if decide (dst <= a < dst + n) then m (src + (a - dst)) else m a.
Proof. intros Hn Hd. unfold umemmove. rewrite copy_up_spec by lia. by rewrite Z2Nat.id. Qed.

Lemma umemmove_overlap : umemmove (fun a => a) 1 0 3 3 = 0 /\ memmove (fun a => a) 1 0 3 3 = 2.
Proof. split; reflexivity. Qed.

(** ** Strings *)

(** The string stored in at most [n] bytes. *)
Fixpoint cstr (n : nat) (s : list Z) : list Z :=
  match n with
  | O => []
  | S n' => if chd s =? 0 then [] else chd s :: cstr n' (tail s)
  end.

Lemma cstr_terminated n l junk :
  Forall (fun c => c <> 0) l -> (length l <= n)%nat -> cstr n (l ++ 0 :: junk) = l.
Proof.
  intros Hl. revert n. induction Hl as [|c l H _ IH]; intros [|n] Hn; cbn in *; try done; [lia|].
  rewrite (proj2 (Z.eqb_neq c 0) H). f_equal. apply IH. lia.
Qed.

Lemma strncmp_eq n : forall p q, strncmp p q n = 0 <-> cstr n p = cstr n q.
Proof.
  induction n as [|n IH]; intros p q; cbn [strncmp cstr]; [done|].
  destruct (chd p =? 0) eqn:Ep; cbn [negb andb].
  - apply Z.eqb_eq in Ep. rewrite Ep. destruct (chd q =? 0) eqn:Eq; [apply Z.eqb_eq in Eq|apply Z.eqb_neq in Eq].
    + rewrite Eq. done.
    + split; [lia|done].
  - apply Z.eqb_neq in Ep. destruct (chd p =? chd q) eqn:Eq; [apply Z.eqb_eq in Eq|apply Z.eqb_neq in Eq].
    + rewrite IH, <- Eq. rewrite (proj2 (Z.eqb_neq _ _) Ep). split; [by intros ->|by intros [= ->]].
    + split; [lia|]. destruct (chd q =? 0); [done|]. intros [= E _]. done.
Qed.

Lemma length_strncpy n : forall t, length (strncpy t n) = n.
Proof.
  induction n as [|n IH]; intros t; cbn [strncpy]; [done|].
  destruct (chd t =? 0); cbn [length]; f_equal; [by rewrite length_replicate|apply IH].
Qed.

Lemma cstr_strncpy n : forall t, cstr n (strncpy t n) = cstr n t.
Proof.
  induction n as [|n IH]; intros t; cbn [strncpy cstr]; [done|].
  destruct (chd t =? 0) eqn:E; [done|].
  change (chd (chd t :: strncpy (tail t) n)) with (chd t). rewrite E. cbn [tail]. by rewrite IH.
Qed.

Lemma bytes_strncpy n : forall t, bytes t -> bytes (strncpy t n).
Proof.
  assert (is_byte 0) as H0 by (unfold is_byte; lia).
  induction n as [|n IH]; intros t Ht; cbn [strncpy]; [constructor|].
  destruct (chd t =? 0); constructor; try done; [by apply Forall_replicate| |apply IH].
  - destruct Ht; [exact H0|assumption].
  - destruct Ht; [constructor|assumption].
Qed.

Lemma safestrcpy_SS t n :
  safestrcpy t (S (S n)) = if chd t =? 0 then [0; 0] else chd t :: safestrcpy (tail t) (S n).
Proof. reflexivity. Qed.

Lemma cstr_safestrcpy n : forall t, cstr (S n) (safestrcpy t (S n)) = cstr n t.
Proof.
  induction n as [|n IH]; intros t; [done|]. rewrite safestrcpy_SS.
  destruct (chd t =? 0) eqn:E; cbn [cstr]; rewrite E; [done|].
  change (chd (chd t :: safestrcpy (tail t) (S n))) with (chd t). rewrite E. f_equal. apply IH.
Qed.

Lemma length_safestrcpy n : forall t, (0 < length (safestrcpy t (S n)) <= S n)%nat.
Proof.
  induction n as [|n IH]; intros t; [cbn; lia|]. rewrite safestrcpy_SS.
  destruct (chd t =? 0); cbn [length]; [lia|]. specialize (IH (tail t)). lia.
Qed.

Lemma last_safestrcpy n : forall t, last (safestrcpy t (S n)) = Some 0.
Proof.
  induction n as [|n IH]; intros t; [done|]. rewrite safestrcpy_SS.
  destruct (chd t =? 0); [done|]. by rewrite last_cons, IH.
Qed.

Lemma strlen_cstr s : forall n, (length s <= n)%nat -> strlen s = Z.of_nat (length (cstr n s)).
Proof.
  induction s as [|c s IH]; intros n Hn; [by destruct n|].
  destruct n as [|n]; cbn [length] in Hn; [lia|]. cbn [strlen cstr]. change (chd (c :: s)) with c.
  destruct (c =? 0); [done|]. cbn [tail length]. rewrite (IH n) by lia. lia.
Qed.

(** The bounded string routines.  [strncmp] returns 0 exactly on strings
    that agree up to [n] bytes; [strncpy] fills the [n] bytes and keeps the
    string up to [n] bytes; [safestrcpy] stores between 1 and [n] bytes, keeps
    the string up to [n - 1] bytes and always ends it. *)
Theorem bounded_strings_correct p q n :
  (strncmp p q n = 0 <-> cstr n p = cstr n q) /\
  length (strncpy p n) = n /\ cstr n (strncpy p n) = cstr n p /\
  (let r := safestrcpy p (S n) in
   (0 < length r <= S n)%nat /\ last r = Some 0 /\ cstr (S n) r = cstr n p).
Proof.
  split; [apply strncmp_eq|]. split; [apply length_strncpy|]. split; [apply cstr_strncpy|].
  split; [apply length_safestrcpy|]. split; [apply last_safestrcpy|apply cstr_safestrcpy].
Qed.
