(* ===== verification/Locks.v ===== *)
(** * Spin locks and sleep locks ([kernel/spinlock.c], [kernel/sleeplock.c])

    [Spin] models [pushcli]/[popcli] and a spin lock shared by the CPUs.
    [acquire] and [release] are lists of atomic sections, cut where they access
    the lock: [run] executes them one after the other on one CPU, and [step]
    interleaves the sections of several CPUs.  [Sleep] models
    the sleep lock's data, used by the buffers and the inodes. *)

From S2P Require Import Prelude Params.
Local Open Scope Z_scope.
Local Open Scope kmonad_scope.

Module Spin.

(** The fields of [struct cpu] the locks use, and the interrupt flag
    ([FL_IF] of [eflags]). *)
Record cpu := Cpu { ncli : Z; intena : bool; IF : bool }.

(** [struct spinlock]: [locked], and the CPU holding the lock ([cpu == 0]: none). *)
Record spinlock := Spinlock { locked : bool; lkcpu : option nat }.

Record machine := Machine { cpus : list cpu; lk : spinlock }.

Definition set_cpu (c : nat) (x : cpu) (m : machine) : machine := Machine (<[c := x]> (cpus m)) (lk m).
Definition set_lk (l : spinlock) (m : machine) : machine := Machine (cpus m) l.
Definition mycpu (c : nat) (m : machine) : cpu := default (Cpu 0 false false) (cpus m !! c).

Definition initlock : M machine unit := modify (set_lk (Spinlock false None)).

Definition pushcli (c : nat) : M machine unit :=
  x <- gets (mycpu c);;
  let eflags := IF x in
  (* cli() *)
  let x := Cpu (ncli x) (intena x) false in
  let x := if ncli x =? 0 then Cpu (ncli x) eflags (IF x) else x in
  modify (set_cpu c (Cpu (ncli x + 1) (intena x) (IF x))).

Definition popcli (c : nat) : M machine unit :=
  x <- gets (mycpu c);;
  if IF x then panic "popcli - interruptible" else
  let n := ncli x - 1 in
  if n <? 0 then panic "popcli" else
  (* sti() *)
  let flag := if (n =? 0) && intena x then true else IF x in
  modify (set_cpu c (Cpu n (intena x) flag)).

Definition holding (c : nat) : M machine bool :=
  pushcli c;;
  l <- gets lk;;
  let r := locked l && bool_decide (lkcpu l = Some c) in
  popcli c;;
  ret r.

(** [xchg(&lk->locked, 1)]. *)
Definition xchg : M machine bool :=
  l <- gets lk;;
  modify (set_lk (Spinlock true (lkcpu l)));;
  ret (locked l).

(** The atomic sections of [acquire]; [block] is another turn of the loop. *)
Definition acquire (c : nat) : list (M machine unit) :=
  [ pushcli c;
    (h <- holding c;; if h : bool then panic "acquire" else ret tt);
    (old <- xchg;; if old : bool then block else ret tt);
    modify (fun m => set_lk (Spinlock (locked (lk m)) (Some c)) m) ].

Definition release (c : nat) : list (M machine unit) :=
  [ (h <- holding c;; if negb h then panic "release" else ret tt);
    modify (fun m => set_lk (Spinlock (locked (lk m)) None) m);
    modify (fun m => set_lk (Spinlock false (lkcpu (lk m))) m);
    popcli c ].

(** The sections in a row, with no other CPU in between. *)
Fixpoint run (l : list (M machine unit)) : M machine unit :=
  match l with
  | [] => ret tt
  | a :: l => a;; run l
  end.

(** ** Nesting

    What the nesting of [pushcli] must keep: while the depth is positive the
    interrupts are off. *)
Definition cpu_ok (x : cpu) : Prop := 0 <= ncli x /\ (0 < ncli x -> IF x = false).

Lemma mycpu_set_eq c x m : (c < length (cpus m))%nat -> mycpu c (set_cpu c x m) = x.
Proof. intros. unfold mycpu, set_cpu. simpl. by rewrite list_lookup_insert_eq. Qed.

Lemma length_set_cpu c x m : length (cpus (set_cpu c x m)) = length (cpus m).
Proof. apply length_insert. Qed.

Lemma set_cpu_set_cpu c x y m : set_cpu c x (set_cpu c y m) = set_cpu c x m.
Proof. unfold set_cpu. simpl. by rewrite list_insert_insert_eq. Qed.

Lemma set_cpu_id c m : (c < length (cpus m))%nat -> set_cpu c (mycpu c m) m = m.
Proof.
  intros [x Hx]%lookup_lt_is_Some. unfold set_cpu, mycpu. rewrite Hx. simpl.
  rewrite list_insert_id by done. by destruct m.
Qed.

(** The state of a CPU [n] levels of [pushcli] deeper. *)
Definition pushed (x : cpu) : cpu :=
  Cpu (ncli x + 1) (if ncli x =? 0 then IF x else intena x) false.

Lemma pushcli_run c m : pushcli c m = Ret tt (set_cpu c (pushed (mycpu c m)) m).
Proof. unfold pushcli, bind, gets, modify, pushed. simpl. by destruct (_ =? 0). Qed.

(** [popcli] undoes [pushcli] up to the saved [intena]. *)
Lemma popcli_pushed c m x :
  (c < length (cpus m))%nat -> mycpu c m = pushed x -> cpu_ok x ->
  popcli c m = Ret tt (set_cpu c (Cpu (ncli x) (intena (pushed x)) (IF x)) m).
Proof.
  intros Hc Hx [Hn Hif]. unfold popcli, bind, gets, modify. rewrite Hx. simpl.
  replace (ncli x + 1 - 1) with (ncli x) by lia.
  destruct (ncli x <? 0) eqn:E; [lia|]. do 3 f_equal.
  destruct (ncli x =? 0) eqn:E0; [by destruct (IF x)|].
  symmetry. apply Hif. lia.
Qed.

(** What [holding] leaves behind: only [intena] may be rewritten. *)
Definition probed (x : cpu) : cpu := Cpu (ncli x) (intena (pushed x)) (IF x).

Lemma holding_run c m :
  (c < length (cpus m))%nat -> cpu_ok (mycpu c m) ->
  holding c m = Ret (locked (lk m) && bool_decide (lkcpu (lk m) = Some c))
                    (set_cpu c (probed (mycpu c m)) m).
Proof.
  intros Hc Hok. unfold holding, bind. rewrite pushcli_run. unfold gets.
  rewrite (popcli_pushed c _ (mycpu c m)); [|by rewrite length_set_cpu|by apply mycpu_set_eq|done].
  by rewrite set_cpu_set_cpu.
Qed.

Lemma cpu_ok_pushed x : cpu_ok x -> cpu_ok (pushed x).
Proof. unfold cpu_ok, pushed. simpl. naive_solver lia. Qed.

(** [probed] of a nested CPU changes nothing. *)
Lemma probed_pushed x : cpu_ok x -> probed (pushed x) = pushed x.
Proof.
  intros [Hn _]. unfold probed, pushed. simpl. destruct (ncli x + 1 =? 0) eqn:E; [lia|done].
Qed.

Lemma acquire_enter c m :
  (c < length (cpus m))%nat -> cpu_ok (mycpu c m) ->
  run (acquire c) m =
    ((if locked (lk m) && bool_decide (lkcpu (lk m) = Some c) then panic "acquire" else ret tt);;
     run (drop 2 (acquire c))) (set_cpu c (pushed (mycpu c m)) m).
Proof.
  intros Hc Hok. unfold acquire. cbn [run drop]. unfold bind at 1. rewrite pushcli_run.
  set (m1 := set_cpu c _ m).
  assert (mycpu c m1 = pushed (mycpu c m)) as E1 by by apply mycpu_set_eq.
  unfold bind at 1 2. rewrite holding_run; [|unfold m1; by rewrite length_set_cpu|rewrite E1; by apply cpu_ok_pushed].
  rewrite E1, probed_pushed by done. unfold m1. by rewrite set_cpu_set_cpu.
Qed.

Lemma acquire_free c m :
  (c < length (cpus m))%nat -> cpu_ok (mycpu c m) -> locked (lk m) = false ->
  run (acquire c) m = Ret tt (Machine (<[c := pushed (mycpu c m)]> (cpus m)) (Spinlock true (Some c))).
Proof. intros Hc Hok Hl. rewrite acquire_enter, Hl by done. cbn. unfold bind, gets. cbn. by rewrite Hl. Qed.

(** The lock is another CPU's: the loop goes on. *)
Lemma acquire_taken c m :
  (c < length (cpus m))%nat -> cpu_ok (mycpu c m) -> locked (lk m) = true -> lkcpu (lk m) <> Some c ->
  run (acquire c) m = Block (Machine (<[c := pushed (mycpu c m)]> (cpus m)) (lk m)).
Proof.
  intros Hc Hok Hl Hn. rewrite acquire_enter, Hl, bool_decide_false by done. cbn. unfold bind, gets. cbn. rewrite Hl.
  destruct m as [cs [? ?]]. cbn in *. by subst.
Qed.

Lemma acquire_twice c m :
  (c < length (cpus m))%nat -> cpu_ok (mycpu c m) -> lk m = Spinlock true (Some c) ->
  run (acquire c) m = Panic "acquire".
Proof. intros Hc Hok Hl. rewrite acquire_enter, Hl by done. cbn [locked lkcpu]. by rewrite bool_decide_true. Qed.

Lemma release_held c m x :
  (c < length (cpus m))%nat -> mycpu c m = pushed x -> cpu_ok x ->
  lk m = Spinlock true (Some c) ->
  run (release c) m = Ret tt (Machine (<[c := probed x]> (cpus m)) (Spinlock false None)).
Proof.
  intros Hc Hx Hok Hl. unfold release. cbn [run]. unfold bind.
  rewrite holding_run; [|done|rewrite Hx; by apply cpu_ok_pushed].
  rewrite Hx, probed_pushed, Hl by done. simpl. rewrite bool_decide_true by done. simpl.
  rewrite (popcli_pushed c _ x).
  - unfold set_cpu. simpl. by rewrite list_insert_insert_eq.
  - cbn [set_lk cpus]. by rewrite length_set_cpu.
  - unfold mycpu. simpl. by rewrite list_lookup_insert_eq.
  - done.
Qed.

Lemma release_not_held c m :
  (c < length (cpus m))%nat -> cpu_ok (mycpu c m) -> lkcpu (lk m) <> Some c ->
  run (release c) m = Panic "release".
Proof.
  intros Hc Hok Hn. unfold release. cbn [run]. unfold bind. rewrite holding_run by done.
  by rewrite bool_decide_false, andb_false_r.
Qed.

(** ** Interleaving

    A CPU is outside, inside [acquire] or [release] before its section [i],
    or holds the lock; between two sections of one CPU any section of the
    others may run. *)
Inductive pc :=
| Idle
| InAcquire (i : nat)
| Critical            (* acquire returned *)
| InRelease (i : nat)
| Crashed.            (* panic *)

Record config := Config { mach : machine; pcs : list pc }.

Definition at_pc (s : config) (c : nat) (p : pc) : Prop := pcs s !! c = Some p.
Definition goto (c : nat) (p : pc) (m : machine) (s : config) : config := Config m (<[c := p]> (pcs s)).

(** The section the CPU runs next, and where it is after it. *)
Definition section (c : nat) (p : pc) : option (M machine unit) :=
  match p with
  | InAcquire i => acquire c !! i
  | InRelease i => release c !! i
  | _ => None
  end.
Definition next (c : nat) (p : pc) : pc :=
  match p with
  | InAcquire i => if decide (S i = length (acquire c)) then Critical else InAcquire (S i)
  | InRelease i => if decide (S i = length (release c)) then Idle else InRelease (S i)
  | _ => p
  end.

Inductive step : config -> config -> Prop :=
| step_acquire s c : at_pc s c Idle -> step s (goto c (InAcquire 0) (mach s) s)
| step_release s c : at_pc s c Critical -> step s (goto c (InRelease 0) (mach s) s)
| step_section s c p a m :
    at_pc s c p -> section c p = Some a -> a (mach s) = Ret tt m -> step s (goto c (next c p) m s)
| step_spin s c p a m :
    at_pc s c p -> section c p = Some a -> a (mach s) = Block m -> step s (goto c p m s)
| step_panic s c p a msg :
    at_pc s c p -> section c p = Some a -> a (mach s) = Panic msg -> step s (goto c Crashed (mach s) s).

(** Boot: [n] CPUs outside any lock, with or without interrupts. *)
Definition init_config (ifs : list bool) : config :=
  Config (Machine ((fun b => Cpu 0 false b) <$> ifs) (Spinlock false None))
         (replicate (length ifs) Idle).

Inductive reachable (ifs : list bool) : config -> Prop :=
| reach_init : reachable ifs (init_config ifs)
| reach_step s s' : reachable ifs s -> step s s' -> reachable ifs s'.

(** The CPU owns the lock word. *)
Definition owns (p : pc) : bool :=
  match p with InAcquire i => (3 <=? i)%nat | Critical => true | InRelease i => (i <? 3)%nat | _ => false end.
(** It is recorded in the lock. *)
Definition named (p : pc) : bool :=
  match p with Critical => true | InRelease i => (i <? 2)%nat | _ => false end.
(** It is inside a [pushcli]. *)
Definition inside (p : pc) : bool :=
  match p with InAcquire i => (0 <? i)%nat | Critical | InRelease _ => true | _ => false end.

Record inv (s : config) : Prop := {
  inv_len : length (pcs s) = length (cpus (mach s));
  inv_cpu c p x : at_pc s c p -> cpus (mach s) !! c = Some x ->
    ncli x = (if inside p then 1 else 0) /\ (inside p = true -> IF x = false);
  inv_own c c' p p' : at_pc s c p -> at_pc s c' p' -> owns p = true -> owns p' = true -> c = c';
  inv_free : locked (lk (mach s)) = true <-> exists c p, at_pc s c p /\ owns p = true;
  inv_lkcpu c : lkcpu (lk (mach s)) = Some c <-> exists p, at_pc s c p /\ named p = true;
  inv_crash c : ~ at_pc s c Crashed
}.

Lemma named_owns p : named p = true -> owns p = true.
Proof. destruct p; cbn [named owns]; try done. intros ?%Nat.ltb_lt. apply Nat.ltb_lt. lia. Qed.

Lemma at_pc_fun s c p q : at_pc s c p -> at_pc s c q -> p = q.
Proof. unfold at_pc. congruence. Qed.

Lemma at_pc_goto s c p m c' q p0 :
  at_pc s c p0 -> at_pc (goto c p m s) c' q <-> (c' = c /\ q = p) \/ (c' <> c /\ at_pc s c' q).
Proof.
  intros Hl%lookup_lt_Some. unfold at_pc, goto. cbn [pcs]. destruct (decide (c = c')) as [->|Hne].
  - rewrite list_lookup_insert_eq by done. naive_solver.
  - rewrite list_lookup_insert_ne by done. naive_solver.
Qed.

Lemma inv_mycpu s c p : inv s -> at_pc s c p ->
  (c < length (cpus (mach s)))%nat /\ cpus (mach s) !! c = Some (mycpu c (mach s)).
Proof.
  intros Hi Hp%lookup_lt_Some. rewrite (inv_len s Hi) in Hp. split; [done|].
  apply lookup_lt_is_Some in Hp as [x Hx]. unfold mycpu. by rewrite Hx.
Qed.

Lemma inv_named s c p : inv s -> at_pc s c p -> lkcpu (lk (mach s)) = Some c <-> named p = true.
Proof.
  intros Hi Hp. rewrite (inv_lkcpu s Hi). split; [|by exists p].
  intros (q & Hq & Hn). by rewrite (at_pc_fun _ _ _ _ Hp Hq).
Qed.

(** One CPU moves: the conditions under which the invariant survives. *)
Lemma inv_move s c p0 p x' l' :
  inv s -> at_pc s c p0 -> p <> Crashed ->
  ncli x' = (if inside p then 1 else 0) -> (inside p = true -> IF x' = false) ->
  (owns p = true -> owns p0 = true \/ locked (lk (mach s)) = false) ->
  locked l' = (if owns p then true else if owns p0 then false else locked (lk (mach s))) ->
  lkcpu l' = (if named p then Some c else if named p0 then None else lkcpu (lk (mach s))) ->
  inv (goto c p (Machine (<[c := x']> (cpus (mach s))) l') s).
Proof.
  intros Hi Hp0 Hcr Hn Hif Hown Hl Hcpu.
  destruct (inv_mycpu s c p0 Hi Hp0) as [Hlt _].
  assert (forall c' p', c' <> c -> at_pc s c' p' -> owns p' = true -> owns p0 = false /\ owns p = false) as Hex.
  { intros c' p' Hne Hp' Ho'. assert (owns p0 = false) as E.
    { apply not_true_iff_false. intros Ho. apply Hne. by eapply (inv_own s Hi). }
    split; [done|]. apply not_true_iff_false. intros [H|H]%Hown; [congruence|].
    assert (locked (lk (mach s)) = true) as H'; [|congruence]. apply (inv_free s Hi). by exists c', p'. }
  constructor; cbn [goto pcs mach cpus lk].
  - rewrite !length_insert. apply Hi.
  - intros c' q x [[-> ->]|[Hne Hq]]%(at_pc_goto _ _ _ _ _ _ _ Hp0).
    + rewrite list_lookup_insert_eq by done. intros [= <-]. done.
    + rewrite list_lookup_insert_ne by done. by apply (inv_cpu s Hi).
  - intros c1 c2 p1 p2 [[-> ->]|[N1 H1]]%(at_pc_goto _ _ _ _ _ _ _ Hp0)
      [[-> ->]|[N2 H2]]%(at_pc_goto _ _ _ _ _ _ _ Hp0) O1 O2; [done|..].
    + destruct (Hex _ _ N2 H2 O2). congruence.
    + destruct (Hex _ _ N1 H1 O1). congruence.
    + by eapply (inv_own s Hi).
  - rewrite Hl. split.
    + destruct (owns p) eqn:Eo; [intros _; exists c, p; split; [apply (at_pc_goto _ _ _ _ _ _ _ Hp0); by left|done]|].
      destruct (owns p0) eqn:E0; [done|]. intros (c' & q & Hq & Ho)%(inv_free s Hi). exists c', q.
      split; [|done]. apply (at_pc_goto _ _ _ _ _ _ _ Hp0). right. split; [|done]. intros ->.
      rewrite (at_pc_fun _ _ _ _ Hq Hp0) in Ho. congruence.
    + intros (c' & q & [[-> ->]|[Hne Hq]]%(at_pc_goto _ _ _ _ _ _ _ Hp0) & Ho); [by rewrite Ho|].
      destruct (Hex _ _ Hne Hq Ho) as [-> ->]. apply (inv_free s Hi). by exists c', q.
  - intros c'. setoid_rewrite (at_pc_goto _ _ _ _ _ _ _ Hp0). rewrite Hcpu.
    destruct (decide (c' = c)) as [->|Hne].
    + pose proof (inv_named s c p0 Hi Hp0) as E. destruct (named p) eqn:Ep.
      { split; [|done]. intros _. exists p. split; [by left|done]. }
      split; [|intros (q & [[_ ->]|[? _]] & ?); [congruence|done]]. destruct (named p0); [done|]. intros H%E. done.
    + split.
      * destruct (named p); [intros [= <-]; done|]. destruct (named p0); [done|].
        intros (q & Hq & Hnm)%(inv_lkcpu s Hi). exists q. split; [by right|done].
      * intros (q & [[? _]|[_ Hq]] & Hnm); [done|].
        destruct (Hex _ _ Hne Hq (named_owns _ Hnm)) as [E0 E1].
        assert (named p = false) as ->. { apply not_true_iff_false. intros ?%named_owns. congruence. }
        assert (named p0 = false) as ->. { apply not_true_iff_false. intros ?%named_owns. congruence. }
        apply (inv_lkcpu s Hi). by exists q.
  - intros c' [[_ ?]|[_ ?]]%(at_pc_goto _ _ _ _ _ _ _ Hp0); [congruence|]. by eapply (inv_crash s Hi).
Qed.

Lemma machine_eta m c : (c < length (cpus m))%nat ->
  forall l, Machine (cpus m) l = Machine (<[c := mycpu c m]> (cpus m)) l.
Proof.
  intros [x Hx]%lookup_lt_is_Some l. unfold mycpu. rewrite Hx. simpl.
  by rewrite list_insert_id.
Qed.

Lemma inv_init ifs : inv (init_config ifs).
Proof.
  assert (forall c p, at_pc (init_config ifs) c p -> p = Idle) as Hidle.
  { intros c p [-> _]%lookup_replicate. done. }
  constructor.
  - simpl. by rewrite length_replicate, length_fmap.
  - intros c p x ->%Hidle. simpl. rewrite list_lookup_fmap. destruct (ifs !! c); naive_solver.
  - by intros c c' p p' ->%Hidle ->%Hidle.
  - split; [done|]. by intros (c & p & ->%Hidle & ?).
  - intros c. split; [done|]. by intros (p & ->%Hidle & ?).
  - by intros c ?%Hidle.
Qed.

Lemma inv_cpu_ok s c p : inv s -> at_pc s c p -> cpu_ok (mycpu c (mach s)).
Proof.
  intros Hi Hp. destruct (inv_mycpu s c p Hi Hp) as [_ Hx]. destruct (inv_cpu s Hi c p _ Hp Hx) as [Hn Hf].
  unfold cpu_ok. rewrite Hn. destruct (inside p); split; [lia|auto|lia|lia].
Qed.

(** A CPU inside a [pushcli], as [pushcli] of the CPU it was. *)
Lemma inv_deep s c p : inv s -> at_pc s c p -> inside p = true ->
  mycpu c (mach s) = pushed (Cpu 0 false (intena (mycpu c (mach s)))).
Proof.
  intros Hi Hp Hin. destruct (inv_mycpu s c p Hi Hp) as [_ Hx].
  destruct (inv_cpu s Hi c p _ Hp Hx) as [Hn Hf]. rewrite Hin in Hn. specialize (Hf Hin).
  destruct (mycpu c (mach s)) as [n ie f]; simpl in *. unfold pushed. simpl. by subst.
Qed.

(** [holding] of a CPU that is inside a [pushcli] changes nothing. *)
Lemma inv_holding s c p : inv s -> at_pc s c p -> inside p = true ->
  holding c (mach s) = Ret (named p) (mach s).
Proof.
  intros Hi Hp Hin. destruct (inv_mycpu s c p Hi Hp) as [Hlt _].
  rewrite holding_run by (done || by eapply inv_cpu_ok). f_equal.
  - pose proof (inv_named s c p Hi Hp) as E. destruct (named p) eqn:En.
    + rewrite bool_decide_true by by apply E. rewrite andb_true_r. apply (inv_free s Hi). exists c, p.
      split; [done|]. by apply named_owns.
    + rewrite bool_decide_false, andb_false_r; [done|]. intros H%E. done.
  - rewrite (inv_deep s c p Hi Hp Hin), probed_pushed by done.
    rewrite <- (inv_deep s c p Hi Hp Hin). by apply set_cpu_id.
Qed.

(** What each section does in a reachable state: it returns, or it is the
    loop of [acquire] and the lock is taken.  None panics. *)
Lemma section_ok s c p a :
  inv s -> at_pc s c p -> section c p = Some a ->
  (exists m, a (mach s) = Ret tt m /\ inv (goto c (next c p) m s)) \/
  a (mach s) = Block (mach s) /\ locked (lk (mach s)) = true.
Proof.
  intros Hi Hp Ha. destruct (inv_mycpu s c p Hi Hp) as [Hlt Hx].
  destruct (inv_cpu s Hi c p _ Hp Hx) as [Hn Hif].
  pose proof (inv_deep s c p Hi Hp) as Hd. pose proof (inv_holding s c p Hi Hp) as Hh.
  assert (owns p = true -> locked (lk (mach s)) = true) as Ho by (intros; apply (inv_free s Hi); by exists c, p).
  destruct p as [|i| |i|]; try done; destruct i as [|[|[|[|i]]]]; cbn in Ha; simplify_eq; unfold bind.
  - left. rewrite pushcli_run. eexists. split; [done|]. apply (inv_move s c (InAcquire 0)); try done.
    cbn [pushed ncli]. rewrite Hn. done.
  - left. rewrite Hh by done. eexists. split; [done|].
    rewrite <- (set_cpu_id c (mach s)) by done. by apply (inv_move s c (InAcquire 1)).
  - unfold xchg, bind, gets, modify, ret, block. destruct (locked (lk (mach s))) eqn:El.
    + right. split; [|done]. f_equal. destruct (mach s) as [cs [b o]]. cbn in *. by subst.
    + left. eexists. split; [done|]. unfold set_lk. rewrite (machine_eta _ c) by done.
      apply (inv_move s c (InAcquire 2)); try done. by right.
  - left. eexists. split; [done|]. unfold set_lk. rewrite (machine_eta _ c) by done.
    apply (inv_move s c (InAcquire 3)); try done; [by left|by apply Ho].
  - left. rewrite Hh by done. eexists. split; [done|].
    rewrite <- (set_cpu_id c (mach s)) by done. apply (inv_move s c (InRelease 0)); try done; [by left|by apply Ho|].
    by apply (inv_named s c _ Hi Hp).
  - left. eexists. split; [done|]. unfold set_lk. rewrite (machine_eta _ c) by done.
    apply (inv_move s c (InRelease 1)); try done; [by left|by apply Ho].
  - left. eexists. split; [done|]. unfold set_lk. rewrite (machine_eta _ c) by done.
    by apply (inv_move s c (InRelease 2)).
  - left. rewrite (popcli_pushed c _ _ Hlt (Hd eq_refl)) by done. eexists. split; [done|].
    by apply (inv_move s c (InRelease 3)).
Qed.

Lemma step_inv s s' : inv s -> step s s' -> inv s'.
Proof.
  intros Hi Hs. destruct Hs as [s c Hp|s c Hp|s c p a m Hp Ha E|s c p a m Hp Ha E|s c p a msg Hp Ha E].
  1-2: destruct (inv_mycpu s c _ Hi Hp) as [Hlt Hx]; destruct (inv_cpu s Hi c _ _ Hp Hx) as [Hn Hif];
    rewrite <- (set_cpu_id c (mach s)) by done.
  - by apply (inv_move s c Idle).
  - apply (inv_move s c Critical); try done; [by left| |by apply (inv_named s c _ Hi Hp)].
    apply (inv_free s Hi). by exists c, Critical.
  - destruct (section_ok s c p a Hi Hp Ha) as [(m' & E' & H)|[E' _]]; congruence.
  - destruct (section_ok s c p a Hi Hp Ha) as [(m' & E' & H)|[E' _]]; [congruence|].
    assert (m = mach s) as -> by congruence. unfold goto. rewrite list_insert_id by done. by destruct s.
  - destruct (section_ok s c p a Hi Hp Ha) as [(m' & E' & H)|[E' _]]; congruence.
Qed.

Lemma reachable_inv ifs s : reachable ifs s -> inv s.
Proof. induction 1; [apply inv_init|by eapply step_inv]. Qed.

(** A CPU that holds the lock is recorded in it. *)
Lemma inv_critical s c : inv s -> at_pc s c Critical -> lk (mach s) = Spinlock true (Some c).
Proof.
  intros Hi Hp. assert (locked (lk (mach s)) = true) as H1.
  { apply (inv_free s Hi). by exists c, Critical. }
  assert (lkcpu (lk (mach s)) = Some c) as H2 by by apply (inv_named s c _ Hi Hp).
  destruct (lk (mach s)). cbn in *. by subst.
Qed.

(** C18: mutual exclusion.  In every interleaving of the sections of [acquire]
    and [release] by any number of CPUs, at most one CPU is between its
    [acquire] and its [release], it runs with interrupts off, and none of the
    panics of spinlock.c is reached.  In each of these states, a CPU outside
    the lock that calls [acquire] gets the lock if it is free and waits if it
    is not, and panics if it calls [release]; the CPU that holds the lock
    frees it with [release], at the depth and with the interrupts it had
    before, and panics if it calls [acquire] again. *)
Theorem spinlock_mutual_exclusion ifs s :
  reachable ifs s ->
  (forall c c', at_pc s c Critical -> at_pc s c' Critical -> c = c') /\
  (forall c, at_pc s c Critical -> IF (mycpu c (mach s)) = false) /\
  (forall c, ~ at_pc s c Crashed) /\
  (forall c, at_pc s c Idle -> run (release c) (mach s) = Panic "release" /\
     if locked (lk (mach s)) then exists m, run (acquire c) (mach s) = Block m /\ lk m = lk (mach s)
     else exists m, run (acquire c) (mach s) = Ret tt m /\ lk m = Spinlock true (Some c) /\ IF (mycpu c m) = false) /\
  (forall c, at_pc s c Critical -> run (acquire c) (mach s) = Panic "acquire" /\
     exists m, run (release c) (mach s) = Ret tt m /\ lk m = Spinlock false None /\
       ncli (mycpu c m) = 0 /\ IF (mycpu c m) = intena (mycpu c (mach s))).
Proof.
  intros Hi%reachable_inv. split; [|split; [|split; [|split]]].
  - intros c c' H H'. by eapply (inv_own s Hi).
  - intros c Hp. by rewrite (inv_deep s c _ Hi Hp).
  - apply Hi.
  - intros c Hp. destruct (inv_mycpu s c _ Hi Hp) as [Hlt _]. pose proof (inv_cpu_ok s c _ Hi Hp) as Hok.
    assert (lkcpu (lk (mach s)) <> Some c) as Hn by by intros H%(inv_named s c _ Hi Hp).
    split; [by apply release_not_held|]. destruct (locked (lk (mach s))) eqn:El.
    + eexists. by rewrite acquire_taken.
    + eexists. rewrite acquire_free by done. split; [done|]. split; [done|].
      unfold mycpu. cbn. by rewrite list_lookup_insert_eq.
  - intros c Hp. destruct (inv_mycpu s c _ Hi Hp) as [Hlt _]. pose proof (inv_cpu_ok s c _ Hi Hp) as Hok.
    pose proof (inv_critical s c Hi Hp) as Hl. split; [by apply acquire_twice|].
    eexists. rewrite (release_held c _ _ Hlt (inv_deep s c _ Hi Hp eq_refl)) by done.
    split; [done|]. split; [done|]. set (x := intena _).
    unfold mycpu. cbn [cpus]. by rewrite list_lookup_insert_eq.
Qed.

(** Two CPUs: the second spins while the first has the lock. *)
Lemma spinlock_mutual_exclusion_witness :
  exists s, at_pc s 0 Critical /\ at_pc s 1 (InAcquire 2) /\
    (forall c c', at_pc s c Critical -> at_pc s c' Critical -> c = c') /\
    run (acquire 0) (mach s) = Panic "acquire".
Proof.
  assert (exists s, reachable [true; true] s /\ at_pc s 0 Critical /\ at_pc s 1 (InAcquire 2))
    as (s & Hs & H0 & H1).
  { pose proof (reach_init [true; true]) as r.
    eapply reach_step in r as r1; [|eapply (step_acquire _ 0); cbv; reflexivity].
    eapply reach_step in r1 as r2; [|eapply (step_section _ 0); cbv; reflexivity].
    eapply reach_step in r2 as r3; [|eapply (step_section _ 0); cbv; reflexivity].
    eapply reach_step in r3 as r4; [|eapply (step_acquire _ 1); cbv; reflexivity].
    eapply reach_step in r4 as r5; [|eapply (step_section _ 1); cbv; reflexivity].
    eapply reach_step in r5 as r6; [|eapply (step_section _ 1); cbv; reflexivity].
    eapply reach_step in r6 as r7; [|eapply (step_section _ 0); cbv; reflexivity].
    eapply reach_step in r7 as r8; [|eapply (step_section _ 0); cbv; reflexivity].
    eapply reach_step in r8 as r9; [|eapply (step_spin _ 1); cbv; reflexivity].
    by eexists. }
  exists s. split; [done|]. split; [done|].
  destruct (spinlock_mutual_exclusion [true; true] s Hs) as (H & _ & _ & _ & H').
  split; [exact H|]. by apply (H' 0%nat).
Defined.
End Spin.

(** ** Sleep locks *)
Module Sleep.

(** [struct sleeplock]: [locked] and the holder's [pid]. *)
Record sleeplock := Sleeplock { locked : bool; pid : Z }.

Definition initsleeplock : sleeplock := Sleeplock false 0.

(** [None]: the caller goes to sleep on the lock. *)
Definition acquiresleep (mypid : Z) (lk : sleeplock) : option sleeplock :=
  if locked lk then None else Some (Sleeplock true mypid).

Definition releasesleep (lk : sleeplock) : sleeplock := Sleeplock false 0.

Definition holdingsleep (mypid : Z) (lk : sleeplock) : bool := locked lk && (pid lk =? mypid).
End Sleep.
