(* ===== verification/Kalloc.v ===== *)
(** * The physical page allocator ([kernel/kalloc.c])

    The free list is threaded through the free pages themselves: the first
    word of a free page holds the address of the next one ([struct run]).  The
    state is the list head and the contents of the pages, keyed by their
    kernel virtual address.  [end] is a symbol of the linker script, so it is a
    parameter.  Every function takes [kmem.lock] around its update (once
    [use_lock] is set); the update is one atomic step here. *)

From S2P Require Import Prelude Params.
Local Open Scope Z_scope.
Local Open Scope kmonad_scope.

(** [struct { lock; use_lock; freelist } kmem], and physical memory. *)
Record kmem := Kmem {
  use_lock : bool;
  freelist : Z;
  pages : gmap Z (list Z)
}.

Definition set_freelist (v : Z) (k : kmem) : kmem := Kmem (use_lock k) v (pages k).
Definition set_use_lock (b : bool) (k : kmem) : kmem := Kmem b (freelist k) (pages k).
Definition set_page (v : Z) (p : list Z) (k : kmem) : kmem :=
  Kmem (use_lock k) (freelist k) (<[v := p]> (pages k)).
(** The contents of the page at [v]. *)
Definition page (k : kmem) (v : Z) : list Z :=
  default (replicate (Z.to_nat PGSIZE) 0) (pages k !! v).

Section kalloc.
Context (kend : Z).

Definition kfree (v : Z) : M kmem unit :=
  if negb (v mod PGSIZE =? 0) || (v <? kend) || (PHYSTOP <=? V2P v)
  then panic "kfree"
  else
    (* Fill with junk to catch dangling refs. *)
    modify (set_page v (replicate (Z.to_nat PGSIZE) 1));;
    next <- gets freelist;;
    (* r->next = kmem.freelist; kmem.freelist = r *)
    modify (fun k => set_page v (set32 (page k v) 0 next) k);;
    modify (set_freelist v).

Definition kalloc : M kmem Z :=
  r <- gets freelist;;
  when (negb (r =? 0)) (modify (fun k => set_freelist (get32 (page k r) 0) k));;
  ret r.

Fixpoint freerange_loop (fuel : nat) (p vend : Z) : M kmem unit :=
  match fuel with
  | O => ret tt
  | S fuel' =>
      if p + PGSIZE <=? vend then kfree p;; freerange_loop fuel' (p + PGSIZE) vend else ret tt
  end.

(** The loop runs at most once per page of the range. *)
Definition freerange (vstart vend : Z) : M kmem unit :=
  let p := PGROUNDUP vstart in
  freerange_loop (Z.to_nat ((vend - p) / PGSIZE + 1)) p vend.

Definition kinit1 (vstart vend : Z) : M kmem unit :=
  modify (set_use_lock false);;
  freerange vstart vend.

Definition kinit2 (vstart vend : Z) : M kmem unit :=
  freerange vstart vend;;
  modify (set_use_lock true).

(** ** The abstract allocator: a list of free pages *)

(** A page [kfree] accepts. *)
Definition valid_page (v : Z) : Prop :=
  0 < v < 2 ^ 32 /\ v mod PGSIZE = 0 /\ kend <= v /\ V2P v < PHYSTOP.

(** [chain m p l]: following the [next] words from [p] visits the pages [l]. *)
Inductive chain (m : gmap Z (list Z)) : Z -> list Z -> Prop :=
| chain_nil : chain m 0 []
| chain_cons p pg l :
    p <> 0 -> m !! p = Some pg -> chain m (get32 pg 0) l -> chain m p (p :: l).

(** The representation invariant: the state [k] holds exactly the free pages [l]. *)
Definition free_pages (k : kmem) (l : list Z) : Prop :=
  chain (pages k) (freelist k) l /\ NoDup l /\ Forall valid_page l.

Lemma chain_insert m p l v pg : chain m p l -> v ∉ l -> chain (<[v := pg]> m) p l.
Proof.
  induction 1 as [|p pg' l Hp Hm Hc IH]; intros Hv; [constructor|].
  apply not_elem_of_cons in Hv as [Hne Hv].
  econstructor; [done| |by apply IH]. by rewrite lookup_insert_ne.
Qed.

Lemma chain_head m p l : chain m p l -> p = default 0 (head l).
Proof. by destruct 1. Qed.

Lemma free_pages_freelist_range k l : free_pages k l -> 0 <= freelist k < 2 ^ 32.
Proof.
  intros (Hc & _ & Hv). apply chain_head in Hc. rewrite Hc.
  destruct Hv as [|v l Hv]; simpl; [lia|]. destruct Hv. lia.
Qed.

Lemma page_set_page k v p : page (set_page v p k) v = p.
Proof. unfold page, set_page. simpl. by rewrite lookup_insert_eq. Qed.

(** A valid page that is not free becomes the head of the free list; no other
    page changes. *)
Lemma kfree_free k l v :
  free_pages k l -> valid_page v -> v ∉ l ->
  wp nopanic (kfree v) (fun _ k' =>
    free_pages k' (v :: l) /\ use_lock k' = use_lock k /\
    forall w, w <> v -> pages k' !! w = pages k !! w) k.
Proof.
  intros Hf Hv Hvl. pose proof (free_pages_freelist_range k l Hf) as Hfr.
  destruct Hf as (Hc & Hnd & Hval).
  pose proof Hv as (Hr & Hal & Hend & Hphys). unfold kfree.
  assert (negb (v mod PGSIZE =? 0) || (v <? kend) || (PHYSTOP <=? V2P v) = false) as -> by plia.
  wp_steps. rewrite page_set_page. cbn [freelist use_lock pages set_page set_freelist].
  split; [|split; [done|]].
  - split; [|split; [by constructor|by constructor]].
    cbn [freelist use_lock pages set_page set_freelist].
    econstructor; [lia|by rewrite lookup_insert_eq|].
    rewrite get_set32_eq; [|rewrite length_replicate; plia|done].
    by do 2 (apply chain_insert; [|done]).
  - intros w Hw. by rewrite !lookup_insert_ne by done.
Qed.

Lemma kalloc_free k l :
  free_pages k l ->
  wp nopanic kalloc (fun r k' =>
    r = default 0 (head l) /\ free_pages k' (tail l) /\
    pages k' = pages k /\ use_lock k' = use_lock k) k.
Proof.
  intros (Hc & Hnd & Hval). unfold kalloc. wp_steps.
  pose proof (chain_head _ _ _ Hc) as Hh.
  destruct l as [|v l]; inversion Hc as [Hz|p pg l' Hp Hm Hc']; subst.
  - apply wp_when; [done|]. intros _. wp_steps. done.
  - apply wp_when; intros Hz; [|lia]. wp_steps.
    split; [done|]. split; [|done]. apply NoDup_cons in Hnd as [_ Hnd].
    apply Forall_cons in Hval as [_ Hval]. split; [|done].
    unfold page. by rewrite Hm.
Qed.

(** The [n] pages from [p]. *)
Fixpoint page_range (p : Z) (n : nat) : list Z :=
  match n with
  | O => []
  | S n' => p :: page_range (p + PGSIZE) n'
  end.

Lemma elem_of_page_range n : forall p v,
  v ∈ page_range p n <-> exists i, 0 <= i < Z.of_nat n /\ v = p + i * PGSIZE.
Proof.
  induction n as [|n IH]; intros p v; cbn [page_range].
  - split; [by intros ?%not_elem_of_nil|]. intros (i & Hi & _). lia.
  - rewrite elem_of_cons, IH. split.
    + intros [->|(i & Hi & ->)]; [exists 0; lia|exists (i + 1); lia].
    + intros (i & Hi & ->). destruct (decide (i = 0)) as [->|]; [left; lia|].
      right. exists (i - 1). lia.
Qed.

Lemma freerange_loop_free n : forall fuel p vend k l,
  (n < fuel)%nat -> (vend - p) / PGSIZE = Z.of_nat n ->
  free_pages k l -> Forall valid_page (page_range p n) ->
  (forall v, v ∈ page_range p n -> v ∉ l) ->
  wp nopanic (freerange_loop fuel p vend) (fun _ k' =>
    free_pages k' (reverse (page_range p n) ++ l) /\ use_lock k' = use_lock k) k.
Proof.
  induction n as [|n IH]; intros [|fuel] p vend k l Hfuel Hn Hf Hv Hdisj; try lia.
  - cbn [freerange_loop]. assert ((p + PGSIZE <=? vend) = false) as -> by plia.
    apply wp_ret. done.
  - cbn [freerange_loop]. assert ((p + PGSIZE <=? vend) = true) as -> by plia.
    cbn [page_range] in *. rewrite reverse_cons. apply Forall_cons in Hv as [Hp Hv].
    apply wp_bind. eapply wp_post; [apply (kfree_free k l); [done|done|]|].
    { apply Hdisj. by constructor. }
    intros [] k' (Hf' & Hu & _). eapply wp_post; [apply (IH fuel (p + PGSIZE) vend k' (p :: l)); [lia|plia|done|done|]|].
    { intros v Hin. apply not_elem_of_cons. split; [|apply Hdisj; by constructor].
      intros ->. apply elem_of_page_range in Hin as (i & Hi & Heq). plia. }
    intros [] k'' [Hf'' Hu']. rewrite <- app_assoc. split; [done|congruence].
Qed.

(** Every page of an aligned range inside physical memory above [end] is valid. *)
Lemma page_range_valid p n :
  p mod PGSIZE = 0 -> 0 < kend <= p -> KERNBASE <= p ->
  p + Z.of_nat n * PGSIZE <= KERNBASE + PHYSTOP ->
  Forall valid_page (page_range p n).
Proof.
  intros Hal Hend Hkb Htop. apply Forall_forall. intros v Hv.
  apply elem_of_page_range in Hv as (i & Hi & ->).
  unfold valid_page, V2P, u32. plia.
Qed.

Lemma freerange_free vstart vend k l :
  0 < kend <= vstart -> KERNBASE <= vstart <= vend -> vend <= KERNBASE + PHYSTOP ->
  PGROUNDUP vstart <= vend ->
  free_pages k l ->
  (forall v, v ∈ l -> v < PGROUNDUP vstart \/ vend <= v) ->
  wp nopanic (freerange vstart vend) (fun _ k' =>
    free_pages k' (reverse (page_range (PGROUNDUP vstart)
                          (Z.to_nat ((vend - PGROUNDUP vstart) / PGSIZE))) ++ l) /\
    use_lock k' = use_lock k) k.
Proof.
  intros Hend Hkb Htop Hle Hf Hdisj. unfold freerange.
  rewrite PGROUNDUP_spec in * by plia.
  apply freerange_loop_free; [plia|plia|done| |].
  - apply page_range_valid; plia.
  - intros v Hv Hl. apply elem_of_page_range in Hv as (i & Hi & ->).
    apply Hdisj in Hl. plia.
Qed.

(** ** Client view

    A client's calls, and the abstract allocator they act on: a stack of free
    pages.  The client may free a valid page that is not free already. *)
Inductive call := Alloc | Free (v : Z).

Fixpoint run (cs : list call) : M kmem (list Z) :=
  match cs with
  | [] => ret []
  | Alloc :: cs' => r <- kalloc;; rs <- run cs';; ret (r :: rs)
  | Free v :: cs' => kfree v;; run cs'
  end.

#[export] Instance valid_page_dec v : Decision (valid_page v).
Proof. unfold valid_page. apply _. Defined.

Fixpoint spec_run (cs : list call) (l : list Z) : option (list Z * list Z) :=
  match cs with
  | [] => Some ([], l)
  | Alloc :: cs' =>
      match spec_run cs' (tail l) with
      | Some (rs, l') => Some (default 0 (head l) :: rs, l')
      | None => None
      end
  | Free v :: cs' =>
      if decide (valid_page v /\ v ∉ l) then spec_run cs' (v :: l) else None
  end.

Lemma run_refines cs : forall k l rs l',
  free_pages k l -> spec_run cs l = Some (rs, l') ->
  wp nopanic (run cs) (fun rs' k' =>
    rs' = rs /\ free_pages k' l' /\ use_lock k' = use_lock k) k.
Proof.
  induction cs as [|[|v] cs IH]; intros k l rs l' Hf Hspec; cbn [run spec_run] in *.
  - apply wp_ret. naive_solver.
  - destruct (spec_run cs (tail l)) as [[rs1 l1]|] eqn:E; simplify_eq.
    apply wp_bind. eapply wp_post; [by apply kalloc_free|].
    intros r k' (-> & Hf' & _ & Hu). apply wp_bind.
    eapply wp_post; [by eapply IH|]. intros rs' k'' (-> & Hf'' & Hu'). rewrite <- Hu.
    by apply wp_ret.
  - case_decide as Hv; [|done]. destruct Hv as [Hv Hvl].
    apply wp_bind. eapply wp_post; [by apply (kfree_free k l)|].
    intros [] k' (Hf' & <- & _). by eapply IH.
Qed.
End kalloc.

(** C25: the page allocator refines a stack of free pages.  From boot
    ([kinit1] over [start..mid], [kinit2] over [mid..PHYSTOP]), every sequence
    of [kalloc]/[kfree] calls that frees only valid pages not already free
    runs without a panic and returns what the abstract stack returns; the free
    list keeps holding exactly the stack's pages, each once. *)
Theorem kalloc_refines_stack kend vstart vmid vend cs k rs l' :
  0 < kend <= vstart -> KERNBASE <= vstart ->
  vmid mod PGSIZE = 0 -> vstart <= vmid <= vend -> vend <= KERNBASE + PHYSTOP ->
  freelist k = 0 ->
  let boot := reverse (page_range vmid (Z.to_nat ((vend - vmid) / PGSIZE))) ++
              reverse (page_range (PGROUNDUP vstart)
                     (Z.to_nat ((vmid - PGROUNDUP vstart) / PGSIZE))) in
  spec_run kend cs boot = Some (rs, l') ->
  wp nopanic (kinit1 kend vstart vmid;; kinit2 kend vmid vend;; run kend cs)
    (fun rs' k' => rs' = rs /\ free_pages kend k' l' /\ use_lock k' = true) k.
Proof.
  intros Hend Hkb Hmid Hle Htop Hk0 boot Hspec.
  assert (PGROUNDUP vmid = vmid) as Emid by (rewrite PGROUNDUP_spec; plia).
  assert (PGROUNDUP vstart <= vmid) by (rewrite PGROUNDUP_spec; plia).
  unfold kinit1, kinit2. do 2 apply wp_bind. apply wp_modify.
  eapply wp_post; [apply (freerange_free _ _ _ _ []); [done|plia|plia|done| |]|].
  { split; [|split; constructor]. cbn [set_use_lock freelist]. rewrite Hk0. constructor. }
  { by intros v ?%not_elem_of_nil. }
  intros [] k1 [Hf1 _]. do 2 apply wp_bind.
  eapply wp_post; [eapply freerange_free; [plia|plia|done|lia|exact Hf1|]|].
  { intros v. rewrite app_nil_r, elem_of_reverse. intros (i & Hi & ->)%elem_of_page_range.
    rewrite Emid. rewrite PGROUNDUP_spec in * by plia. plia. }
  intros [] k2 [Hf2 _]. apply wp_modify.
  rewrite Emid, app_nil_r in Hf2.
  eapply wp_post; [eapply (run_refines kend cs); [|exact Hspec]|]; [done|].
  naive_solver.
Qed.

(** Boot with two pages per phase, then allocate three pages, free one and
    allocate it again. *)
Lemma kalloc_refines_stack_witness :
  wp nopanic (kinit1 0x80101000 0x80101800 0x80104000;;
              kinit2 0x80101000 0x80104000 0x80106000;;
              run 0x80101000 [Alloc; Alloc; Free 0x80105000; Alloc; Alloc; Alloc; Alloc])
    (fun rs' k' => rs' = [0x80105000; 0x80104000; 0x80105000; 0x80103000; 0x80102000; 0] /\
       free_pages 0x80101000 k' [] /\ use_lock k' = true) (Kmem false 0 ∅).
Proof.
  apply (kalloc_refines_stack 0x80101000 0x80101800 0x80104000 0x80106000); try plia; done.
Defined.
