(* ===== verification/Bio.v ===== *)
(** * Disk and buffer cache ([kernel/bio.c], [kernel/memide.c], [kernel/buf.h])

    The state is the disk (an array of blocks), the array of buffers and the
    list that orders them from the most to the least recently used.  A buffer
    is named by its index, as the source names it by its address.  Functions
    that use [myproc()->pid] take it as a parameter.

    [writes] records the block writes in the order they reach the disk; it has
    no counterpart in the source and nothing reads it: it is what the crash
    theorems of [Log] quantify over. *)

From S2P Require Import Prelude Params Locks.
Local Open Scope Z_scope.
Local Open Scope kmonad_scope.

Abbreviation block_data := (list Z) (only parsing).

Definition zero_block : block_data := replicate (Z.to_nat BSIZE) 0.

(** [struct buf]; [flags] as its two bits [B_VALID] and [B_DIRTY]. *)
Record buf := Buf {
  b_valid : bool;
  b_dirty : bool;
  b_dev : Z;
  b_blockno : Z;
  b_lock : Sleep.sleeplock;
  b_refcnt : Z;
  b_data : block_data
}.

Definition empty_buf : buf := Buf false false 0 0 Sleep.initsleeplock 0 zero_block.

Record bio := Bio {
  disk : gmap Z block_data;
  disksize : Z;
  bufs : list buf;
  lru : list nat;            (* bcache.head.next, ... , bcache.head.prev *)
  writes : list (Z * block_data)
}.

Definition set_disk d (s : bio) := Bio d (disksize s) (bufs s) (lru s) (writes s).
Definition set_bufs bs (s : bio) := Bio (disk s) (disksize s) bs (lru s) (writes s).
Definition set_lru l (s : bio) := Bio (disk s) (disksize s) (bufs s) l (writes s).

Definition getbuf (i : nat) (s : bio) : buf := default empty_buf (bufs s !! i).
Definition setbuf (i : nat) (b : buf) (s : bio) : bio := set_bufs (<[i := b]> (bufs s)) s.

(** The contents of a disk block. *)
Definition dblock (d : gmap Z block_data) (b : Z) : block_data := default zero_block (d !! b).

(** A block write reaching the disk. *)
Definition disk_write (b : Z) (d : block_data) (s : bio) : bio :=
  Bio (<[b := d]> (disk s)) (disksize s) (bufs s) (lru s) (writes s ++ [(b, d)]).

(** [binit]: each buffer in turn is inserted at the head of the list. *)
Definition binit (d : gmap Z block_data) (size : Z) : bio :=
  Bio d size (replicate (Z.to_nat NBUF) empty_buf) (reverse (seq 0 (Z.to_nat NBUF))) [].

Section bio.
Context (pid : Z).

(** [acquiresleep(&b->lock)], or sleep. *)
Definition lockbuf (i : nat) : M bio unit :=
  b <- gets (getbuf i);;
  match Sleep.acquiresleep pid (b_lock b) with
  | None => block
  | Some l =>
      modify (setbuf i (Buf (b_valid b) (b_dirty b) (b_dev b) (b_blockno b) l
                            (b_refcnt b) (b_data b)))
  end.

Definition bget (dev blockno : Z) : M bio nat :=
  s <- gets id;;
  (* Is the block already cached? *)
  match list_find (fun i => b_dev (getbuf i s) = dev /\ b_blockno (getbuf i s) = blockno)
          (lru s) with
  | Some (_, i) =>
      let b := getbuf i s in
      modify (setbuf i (Buf (b_valid b) (b_dirty b) (b_dev b) (b_blockno b) (b_lock b)
                            (b_refcnt b + 1) (b_data b)));;
      lockbuf i;;
      ret i
  | None =>
      (* Not cached; recycle an unused buffer. *)
      match list_find (fun i => b_refcnt (getbuf i s) = 0 /\ b_dirty (getbuf i s) = false)
              (reverse (lru s)) with
      | Some (_, i) =>
          let b := getbuf i s in
          modify (setbuf i (Buf false false dev blockno (b_lock b) 1 (b_data b)));;
          lockbuf i;;
          ret i
      | None => panic "bget: no buffers"
      end
  end.

(** [iderw] of the memory disk. *)
Definition iderw (i : nat) : M bio unit :=
  b <- gets (getbuf i);;
  if negb (Sleep.holdingsleep pid (b_lock b)) then panic "iderw: buf not locked" else
  if b_valid b && negb (b_dirty b) then panic "iderw: nothing to do" else
  if negb (b_dev b =? 1) then panic "iderw: request not for disk 1" else
  size <- gets disksize;;
  if size <=? b_blockno b then panic "iderw: block out of range" else
  if b_dirty b then
    modify (disk_write (b_blockno b) (b_data b));;
    modify (setbuf i (Buf true false (b_dev b) (b_blockno b) (b_lock b) (b_refcnt b) (b_data b)))
  else
    d <- gets disk;;
    modify (setbuf i (Buf true (b_dirty b) (b_dev b) (b_blockno b) (b_lock b) (b_refcnt b)
                          (dblock d (b_blockno b)))).

Definition bread (dev blockno : Z) : M bio nat :=
  i <- bget dev blockno;;
  b <- gets (getbuf i);;
  when (negb (b_valid b)) (iderw i);;
  ret i.

Definition bwrite (i : nat) : M bio unit :=
  b <- gets (getbuf i);;
  if negb (Sleep.holdingsleep pid (b_lock b)) then panic "bwrite" else
  modify (setbuf i (Buf (b_valid b) true (b_dev b) (b_blockno b) (b_lock b) (b_refcnt b)
                        (b_data b)));;
  iderw i.

Definition brelse (i : nat) : M bio unit :=
  b <- gets (getbuf i);;
  if negb (Sleep.holdingsleep pid (b_lock b)) then panic "brelse" else
  let b := Buf (b_valid b) (b_dirty b) (b_dev b) (b_blockno b) (Sleep.releasesleep (b_lock b))
             (b_refcnt b - 1) (b_data b) in
  modify (setbuf i b);;
  (* no one is waiting for it: move it to the head of the list *)
  when (b_refcnt b =? 0) (modify (fun s => set_lru (i :: filter (fun j => j <> i) (lru s)) s)).

(** Reading and writing [bp->data] of a locked buffer. *)
Definition bdata (i : nat) (s : bio) : block_data := b_data (getbuf i s).
Definition set_bdata (i : nat) (d : block_data) : M bio unit :=
  modify (fun s => let b := getbuf i s in
    setbuf i (Buf (b_valid b) (b_dirty b) (b_dev b) (b_blockno b) (b_lock b) (b_refcnt b) d) s).

(** ** Invariant and abstraction

    The specifications are for one process at a time inside the buffer layer:
    a locked buffer is locked by the caller. *)

Definition block_ok (d : block_data) : Prop := length d = Z.to_nat BSIZE /\ bytes d.

Record buf_ok (size : Z) (b : buf) : Prop := {
  bo_dev : (b_dev b = 1 /\ b_valid b = true) \/
           (b_dev b = 0 /\ b_valid b = false /\ b_dirty b = false /\
            Sleep.locked (b_lock b) = false);
  bo_locked : Sleep.locked (b_lock b) = true -> Sleep.pid (b_lock b) = pid /\ b_refcnt b = 1;
  bo_unlocked : Sleep.locked (b_lock b) = false -> b_refcnt b = 0;
  bo_range : b_dev b = 1 -> 0 <= b_blockno b < size;
  bo_data : block_ok (b_data b)
}.

Record bio_ok (s : bio) : Prop := {
  ok_len : length (bufs s) = Z.to_nat NBUF;
  ok_lru : lru s ≡ₚ seq 0 (Z.to_nat NBUF);
  ok_bufs i b : bufs s !! i = Some b -> buf_ok (disksize s) b;
  ok_uniq i j b b' : bufs s !! i = Some b -> bufs s !! j = Some b' ->
    b_dev b = 1 -> b_dev b' = 1 -> b_blockno b = b_blockno b' -> i = j;
  ok_disk c d : disk s !! c = Some d -> block_ok d
}.

(** The contents of block [c] as the kernel sees it. *)
Definition view (s : bio) (c : Z) : block_data :=
  match list_find (fun b => b_dev b = 1 /\ b_valid b = true /\ b_blockno b = c) (bufs s) with
  | Some (_, b) => b_data b
  | None => dblock (disk s) c
  end.

(** The locked buffers and the block each holds. *)
Definition held (s : bio) : gmap nat Z :=
  omap (fun b => if Sleep.locked (b_lock b) then Some (b_blockno b) else None)
       (map_seq 0 (bufs s) : gmap nat buf).

(** Block [c] has been changed in the cache and the change is not pinned:
    evicting the buffer would lose it. *)
Definition soft (s : bio) (c : Z) : Prop :=
  exists i b, bufs s !! i = Some b /\ b_dev b = 1 /\ b_blockno b = c /\
    b_valid b = true /\ b_dirty b = false /\ b_data b <> dblock (disk s) c.

(** Block [c] is pinned in the cache. *)
Definition pinned (s : bio) (c : Z) : Prop :=
  exists i b, bufs s !! i = Some b /\ b_dev b = 1 /\ b_blockno b = c /\ b_dirty b = true.

Lemma zero_block_ok : block_ok zero_block.
Proof.
  unfold block_ok, zero_block. split; [by rewrite length_replicate|]. apply Forall_replicate. unfold is_byte. lia.
Qed.

Lemma dblock_ok s c : bio_ok s -> block_ok (dblock (disk s) c).
Proof.
  intros Hs. unfold dblock. destruct (disk s !! c) eqn:E; simpl; [|apply zero_block_ok].
  by eapply (ok_disk s Hs).
Qed.

Lemma view_cached s i b :
  bio_ok s -> bufs s !! i = Some b -> b_dev b = 1 -> b_valid b = true ->
  view s (b_blockno b) = b_data b.
Proof.
  intros Hs Hb Hd Hv. unfold view. destruct (list_find _ _) as [[j b']|] eqn:E.
  - apply list_find_Some in E as (Hj & (Hd' & Hv' & Hn) & _).
    assert (i = j) as -> by by eapply (ok_uniq s Hs). congruence.
  - apply list_find_None in E. rewrite Forall_lookup in E. exfalso. by eapply E.
Qed.

Lemma view_uncached s c :
  (forall i b, bufs s !! i = Some b -> b_dev b = 1 -> b_blockno b = c -> b_valid b = false) ->
  view s c = dblock (disk s) c.
Proof.
  intros Hn. unfold view. destruct (list_find _ _) as [[j b']|] eqn:E; [|done].
  apply list_find_Some in E as (Hj & (Hd' & Hv' & Hb) & _).
  rewrite (Hn j b') in Hv'; done.
Qed.

(** Either a valid buffer holds the block, or the disk does. *)
Lemma view_cases s c : bio_ok s ->
  (exists i b, bufs s !! i = Some b /\ b_dev b = 1 /\ b_valid b = true /\ b_blockno b = c /\
     view s c = b_data b) \/
  ((forall i b, bufs s !! i = Some b -> b_dev b = 1 -> b_blockno b = c -> b_valid b = false) /\
   view s c = dblock (disk s) c).
Proof.
  intros Hs. destruct (list_find (fun b => b_dev b = 1 /\ b_valid b = true /\ b_blockno b = c)
                         (bufs s)) as [[j b']|] eqn:E.
  - left. unfold view. rewrite E. apply list_find_Some in E as (Hj & (Hd' & Hv' & Hb) & _).
    eauto 10.
  - right. unfold view. rewrite E. apply list_find_None in E. rewrite Forall_lookup in E.
    split; [|done]. intros i b Hi Hd Hc. destruct (b_valid b) eqn:V; [|done].
    exfalso. by eapply E.
Qed.

Lemma view_ok s c : bio_ok s -> block_ok (view s c).
Proof.
  intros Hs. destruct (view_cases s c Hs) as [(i & b & Hb & _ & _ & _ & ->)|[_ ->]].
  - by eapply bo_data, (ok_bufs s Hs).
  - by apply dblock_ok.
Qed.

Lemma lookup_held s i c :
  held s !! i = Some c <->
  exists b, bufs s !! i = Some b /\ Sleep.locked (b_lock b) = true /\ b_blockno b = c.
Proof.
  unfold held. rewrite lookup_omap, lookup_map_seq_0.
  destruct (bufs s !! i) as [b|]; simpl.
  - destruct (Sleep.locked (b_lock b)) eqn:E; split.
    + intros [= <-]. eauto.
    + by intros (b' & [= <-] & _ & <-).
    + done.
    + intros (b' & [= <-] & ? & _). congruence.
  - split; [done|]. by intros (b & ? & _).
Qed.

Lemma held_setbuf s i b :
  (i < length (bufs s))%nat ->
  held (setbuf i b s) =
  if Sleep.locked (b_lock b) then <[i := b_blockno b]> (held s) else delete i (held s).
Proof.
  intros Hi. apply map_eq. intros j. unfold held, setbuf, set_bufs. cbn [bufs].
  rewrite lookup_omap, lookup_map_seq_0. destruct (decide (i = j)) as [->|Hne].
  - rewrite list_lookup_insert_eq by done. simpl.
    destruct (Sleep.locked (b_lock b)); by rewrite ?lookup_insert_eq, ?lookup_delete_eq.
  - rewrite list_lookup_insert_ne by done.
    destruct (Sleep.locked (b_lock b));
      by rewrite ?lookup_insert_ne, ?lookup_delete_ne, lookup_omap, lookup_map_seq_0 by done.
Qed.

Lemma getbuf_lookup s i b : bufs s !! i = Some b -> getbuf i s = b.
Proof. unfold getbuf. by intros ->. Qed.

Lemma lookup_setbuf s i b j b' :
  (i < length (bufs s))%nat -> bufs (setbuf i b s) !! j = Some b' ->
  (j = i /\ b' = b) \/ (j <> i /\ bufs s !! j = Some b').
Proof.
  intros Hi. unfold setbuf, set_bufs. cbn [bufs]. destruct (decide (i = j)) as [->|Hne].
  - rewrite list_lookup_insert_eq by done. naive_solver.
  - rewrite list_lookup_insert_ne by done. naive_solver.
Qed.

Lemma lookup_setbuf_eq s i b : (i < length (bufs s))%nat -> bufs (setbuf i b s) !! i = Some b.
Proof. intros. unfold setbuf, set_bufs. cbn [bufs]. by apply list_lookup_insert_eq. Qed.

Lemma lookup_setbuf_ne s i b j : i <> j -> bufs (setbuf i b s) !! j = bufs s !! j.
Proof. intros. unfold setbuf, set_bufs. cbn [bufs]. by apply list_lookup_insert_ne. Qed.

Lemma setbuf_ok s i b :
  bio_ok s -> buf_ok (disksize s) b ->
  (forall j b', j <> i -> bufs s !! j = Some b' -> b_dev b' = 1 -> b_dev b = 1 ->
     b_blockno b' <> b_blockno b) ->
  (i < length (bufs s))%nat ->
  bio_ok (setbuf i b s).
Proof.
  intros Hs Hb Hu Hi. constructor.
  - unfold setbuf, set_bufs. cbn [bufs]. rewrite length_insert. apply Hs.
  - apply Hs.
  - intros j b' [[-> ->]|[_ Hj]]%lookup_setbuf; [done| |done]. by eapply (ok_bufs s Hs).
  - intros j k b1 b2 [[-> ->]|[Hj1 Hj]]%lookup_setbuf [[-> ->]|[Hk1 Hk]]%lookup_setbuf D1 D2 E;
      try done; [exfalso; by eapply (Hu k b2)|exfalso; by eapply (Hu j b1)|].
    by eapply (ok_uniq s Hs).
  - apply Hs.
Qed.

Lemma buf_ok_valid size b : buf_ok size b -> b_dev b = 1 -> b_valid b = true.
Proof. intros [[[_ ?]|[? _]] _ _ _ _] ?; congruence. Qed.

Lemma elem_of_lru s i : bio_ok s -> i ∈ lru s <-> (i < length (bufs s))%nat.
Proof.
  intros Hs. rewrite (ok_lru s Hs), elem_of_seq, (ok_len s Hs). lia.
Qed.

(** The buffer [bread] returns on a hit, and on a miss. *)
Definition hit (b : buf) : buf :=
  Buf (b_valid b) (b_dirty b) (b_dev b) (b_blockno b) (Sleep.Sleeplock true pid) 1 (b_data b).
Definition fetched (s : bio) (c : Z) : buf :=
  Buf true false 1 c (Sleep.Sleeplock true pid) 1 (dblock (disk s) c).

Lemma lockbuf_run s i b :
  bufs s !! i = Some b -> Sleep.locked (b_lock b) = false ->
  lockbuf i s = Ret tt (setbuf i (Buf (b_valid b) (b_dirty b) (b_dev b) (b_blockno b)
                          (Sleep.Sleeplock true pid) (b_refcnt b) (b_data b)) s).
Proof.
  intros Hb Hl. unfold lockbuf. rewrite gets_bind, (getbuf_lookup _ _ _ Hb).
  unfold Sleep.acquiresleep. by rewrite Hl.
Qed.

Lemma iderw_read_run s i b :
  bufs s !! i = Some b -> b_lock b = Sleep.Sleeplock true pid ->
  b_valid b = false -> b_dirty b = false -> b_dev b = 1 -> b_blockno b < disksize s ->
  iderw i s = Ret tt (setbuf i (Buf true false 1 (b_blockno b) (b_lock b) (b_refcnt b)
                        (dblock (disk s) (b_blockno b))) s).
Proof.
  intros Hb Hl Hv Hd Hdev Hr. unfold iderw. rewrite gets_bind, (getbuf_lookup _ _ _ Hb).
  unfold Sleep.holdingsleep. rewrite Hl, Hv, Hd, Hdev. cbn [Sleep.locked Sleep.pid].
  rewrite Z.eqb_refl. cbn [andb negb Z.eqb Pos.eqb]. rewrite gets_bind.
  destruct (disksize s <=? b_blockno b) eqn:E; [lia|]. done.
Qed.

Lemma iderw_write_run s i b :
  bufs s !! i = Some b -> b_lock b = Sleep.Sleeplock true pid ->
  b_dirty b = true -> b_dev b = 1 -> b_blockno b < disksize s ->
  iderw i s = Ret tt (setbuf i (Buf true false 1 (b_blockno b) (b_lock b) (b_refcnt b) (b_data b))
                        (disk_write (b_blockno b) (b_data b) s)).
Proof.
  intros Hb Hl Hd Hdev Hr. unfold iderw. rewrite gets_bind, (getbuf_lookup _ _ _ Hb).
  unfold Sleep.holdingsleep. rewrite Hl, Hd, Hdev. cbn [Sleep.locked Sleep.pid].
  rewrite Z.eqb_refl. cbn [andb negb Z.eqb Pos.eqb]. rewrite andb_false_r, gets_bind.
  destruct (disksize s <=? b_blockno b) eqn:E; [lia|]. done.
Qed.

Lemma setbuf_setbuf i b b' s : setbuf i b (setbuf i b' s) = setbuf i b s.
Proof. unfold setbuf, set_bufs. cbn [bufs]. by rewrite list_insert_insert_eq. Qed.

Lemma length_setbuf i b s : length (bufs (setbuf i b s)) = length (bufs s).
Proof. apply length_insert. Qed.

(** [bget] on a block the caller does not hold. *)
Lemma bget_run s c :
  bio_ok s -> (forall i, held s !! i <> Some c) ->
  (exists i b, bufs s !! i = Some b /\ b_dev b = 1 /\ b_blockno b = c /\
     Sleep.locked (b_lock b) = false /\ bget 1 c s = Ret i (setbuf i (hit b) s)) \/
  ((forall i b, bufs s !! i = Some b -> b_dev b = 1 -> b_blockno b <> c) /\
   ((exists i b, bufs s !! i = Some b /\ Sleep.locked (b_lock b) = false /\ b_dirty b = false /\
       bget 1 c s =
       Ret i (setbuf i (Buf false false 1 c (Sleep.Sleeplock true pid) 1 (b_data b)) s)) \/
    ((forall i b, bufs s !! i = Some b -> Sleep.locked (b_lock b) = true \/ b_dirty b = true) /\
     bget 1 c s = Panic "bget: no buffers"))).
Proof.
  intros Hs Hh. unfold bget. rewrite gets_bind. cbn [id].
  destruct (list_find _ (lru s)) as [[k i]|] eqn:E.
  - left. apply list_find_Some in E as (Hk & [Hd Hn] & _).
    apply list_elem_of_lookup_2, elem_of_lru, lookup_lt_is_Some in Hk as [b Hb]; [|done].
    rewrite (getbuf_lookup _ _ _ Hb) in *.
    assert (Sleep.locked (b_lock b) = false) as Hl.
    { destruct (Sleep.locked (b_lock b)) eqn:L; [|done]. exfalso. apply (Hh i).
      apply lookup_held. eauto. }
    pose proof (lookup_lt_Some _ _ _ Hb) as Hi. pose proof (ok_bufs s Hs i b Hb) as Hbo.
    exists i, b. split; [done|]. split; [done|]. split; [done|]. split; [done|].
    rewrite modify_bind.
    erewrite bind_Ret by (eapply lockbuf_run; [by apply lookup_setbuf_eq|done]).
    rewrite setbuf_setbuf. unfold hit, ret. cbn. by rewrite (bo_unlocked _ _ Hbo Hl).
  - right. apply list_find_None in E. rewrite Forall_forall in E.
    assert (forall i b, bufs s !! i = Some b -> b_dev b = 1 -> b_blockno b <> c) as Hno.
    { intros i b Hb Hd Hbc. apply (E i); [|by rewrite (getbuf_lookup _ _ _ Hb)].
      apply elem_of_lru; [done|]. by eapply lookup_lt_Some. }
    split; [done|].
    destruct (list_find _ (reverse (lru s))) as [[k i]|] eqn:E2.
    + left. apply list_find_Some in E2 as (Hk & [Hr Hd] & _).
      apply list_elem_of_lookup_2, elem_of_reverse, elem_of_lru, lookup_lt_is_Some in Hk
        as [b Hb]; [|done].
      rewrite (getbuf_lookup _ _ _ Hb) in *.
      pose proof (lookup_lt_Some _ _ _ Hb) as Hi. pose proof (ok_bufs s Hs i b Hb) as Hbo.
      assert (Sleep.locked (b_lock b) = false) as Hl.
      { destruct (Sleep.locked (b_lock b)) eqn:L; [|done]. apply (bo_locked _ _ Hbo) in L. lia. }
      exists i, b. split; [done|]. split; [done|]. split; [done|].
      rewrite modify_bind.
      erewrite bind_Ret by (eapply lockbuf_run; [by apply lookup_setbuf_eq|done]).
      by rewrite setbuf_setbuf.
    + right. split; [|done]. intros i b Hb. apply list_find_None in E2.
      rewrite Forall_forall in E2. destruct (Sleep.locked (b_lock b)) eqn:L; [by left|right].
      destruct (b_dirty b) eqn:Hd; [done|]. exfalso. apply (E2 i).
      * apply elem_of_reverse, elem_of_lru; [done|]. by eapply lookup_lt_Some.
      * rewrite (getbuf_lookup _ _ _ Hb). split; [|done].
        by apply (bo_unlocked _ _ (ok_bufs s Hs i b Hb)).
Qed.

Lemma bread_run s c :
  bio_ok s -> (forall i, held s !! i <> Some c) -> 0 <= c < disksize s ->
  (exists i b, bufs s !! i = Some b /\ b_dev b = 1 /\ b_blockno b = c /\
     Sleep.locked (b_lock b) = false /\ bread 1 c s = Ret i (setbuf i (hit b) s)) \/
  ((forall i b, bufs s !! i = Some b -> b_dev b = 1 -> b_blockno b <> c) /\
   ((exists i b, bufs s !! i = Some b /\ Sleep.locked (b_lock b) = false /\ b_dirty b = false /\
       bread 1 c s = Ret i (setbuf i (fetched s c) s)) \/
    ((forall i b, bufs s !! i = Some b -> Sleep.locked (b_lock b) = true \/ b_dirty b = true) /\
     bread 1 c s = Panic "bget: no buffers"))).
Proof.
  intros Hs Hh Hc. unfold bread.
  destruct (bget_run s c Hs Hh)
    as [(i & b & Hb & Hd & Hn & Hl & E)|[Hno [(i & b & Hb & Hl & Hd & E)|[Hall E]]]].
  - left. exists i, b. do 4 (split; [done|]). erewrite bind_Ret by exact E.
    pose proof (lookup_lt_Some _ _ _ Hb) as Hi.
    rewrite gets_bind, (getbuf_lookup _ i (hit b)) by by apply lookup_setbuf_eq.
    cbn [b_valid hit]. by rewrite (buf_ok_valid _ _ (ok_bufs s Hs i b Hb) Hd).
  - right. split; [done|]. left. exists i, b. do 3 (split; [done|]).
    pose proof (lookup_lt_Some _ _ _ Hb) as Hi. erewrite bind_Ret by exact E.
    rewrite gets_bind. erewrite getbuf_lookup by by apply lookup_setbuf_eq. cbn [b_valid].
    erewrite bind_Ret by (eapply iderw_read_run; [by apply lookup_setbuf_eq|..]; try done; cbn; lia).
    by rewrite setbuf_setbuf.
  - right. split; [done|]. right. split; [done|]. by erewrite bind_Panic by exact E.
Qed.

Lemma view_setbuf_new s i b' :
  bio_ok (setbuf i b' s) -> (i < length (bufs s))%nat -> b_dev b' = 1 -> b_valid b' = true ->
  view (setbuf i b' s) (b_blockno b') = b_data b'.
Proof. intros. apply (view_cached _ i); try done. by apply lookup_setbuf_eq. Qed.

Lemma view_setbuf_old s i b b' c :
  bio_ok s -> bio_ok (setbuf i b' s) -> bufs s !! i = Some b ->
  b_dev b = 1 -> b_blockno b = c -> (b_dev b' = 1 -> b_blockno b' <> c) ->
  view (setbuf i b' s) c = dblock (disk s) c.
Proof.
  intros Hs Hs' Hb Hd Hn Hn'. pose proof (lookup_lt_Some _ _ _ Hb) as Hi.
  change (disk s) with (disk (setbuf i b' s)). apply view_uncached.
  intros j b1 [[-> ->]|[Hne Hj]]%lookup_setbuf Hd1 Hn1; [exfalso; by apply Hn'| |done].
  exfalso. apply Hne. eapply (ok_uniq s Hs); [exact Hj|exact Hb|..]; congruence.
Qed.

Lemma view_setbuf_other s i b b' c :
  bio_ok s -> bio_ok (setbuf i b' s) -> bufs s !! i = Some b ->
  (b_dev b = 1 -> b_blockno b <> c) -> (b_dev b' = 1 -> b_blockno b' <> c) ->
  view (setbuf i b' s) c = view s c.
Proof.
  intros Hs Hs' Hb Hn Hn'. pose proof (lookup_lt_Some _ _ _ Hb) as Hi.
  destruct (view_cases s c Hs) as [(j & b1 & Hj & Hd1 & Hv1 & Hc1 & ->)|[Hno ->]].
  - assert (i <> j) as Hne.
    { intros ->. rewrite Hb in Hj. simplify_eq. by apply Hn. }
    rewrite <- Hc1. apply (view_cached _ j); try done. by rewrite lookup_setbuf_ne.
  - change (disk s) with (disk (setbuf i b' s)). apply view_uncached.
    intros j b1 [[-> ->]|[Hne Hj]]%lookup_setbuf Hd1 Hn1; [exfalso; by apply Hn'| |done].
    by eapply Hno.
Qed.

(** Replacing a buffer by one that caches the same contents. *)
Lemma view_setbuf_same s i b b' c :
  bio_ok s -> bio_ok (setbuf i b' s) -> bufs s !! i = Some b ->
  b_dev b' = b_dev b -> b_blockno b' = b_blockno b -> b_data b' = b_data b ->
  view (setbuf i b' s) c = view s c.
Proof.
  intros Hs Hs' Hb Hd Hn Hdata. pose proof (lookup_lt_Some _ _ _ Hb) as Hi.
  destruct (decide (b_dev b = 1 /\ b_blockno b = c)) as [[H1 <-]|Hno].
  - rewrite (view_cached s i b Hs Hb H1) by by eapply buf_ok_valid, H1; eapply (ok_bufs s Hs).
    rewrite <- Hdata, <- Hn. apply view_setbuf_new; try done; [congruence|].
    eapply buf_ok_valid; [|congruence]. apply (ok_bufs _ Hs' i). by apply lookup_setbuf_eq.
  - eapply view_setbuf_other; [done|done|exact Hb|naive_solver|].
    rewrite Hd, Hn. naive_solver.
Qed.

(** Replacing a buffer by one with the same identity and flags. *)
Lemma pinned_setbuf s i b b' a :
  bufs s !! i = Some b -> b_dev b' = b_dev b -> b_blockno b' = b_blockno b ->
  b_dirty b' = b_dirty b -> pinned (setbuf i b' s) a <-> pinned s a.
Proof.
  intros Hb H1 H2 H3. pose proof (lookup_lt_Some _ _ _ Hb) as Hi. split.
  - intros (j & b1 & [[-> ->]|[Hne Hj]]%lookup_setbuf & Hx); [|by exists j, b1|done].
    exists i, b. by rewrite <- H1, <- H2, <- H3.
  - intros (j & b1 & Hj & Hx). destruct (decide (i = j)) as [<-|Hne].
    + exists i, b'. rewrite H1, H2, H3. split; [by apply lookup_setbuf_eq|].
      rewrite Hb in Hj. by simplify_eq.
    + exists j, b1. by rewrite lookup_setbuf_ne.
Qed.

Lemma soft_setbuf s i b b' a :
  bufs s !! i = Some b -> b_dev b' = b_dev b -> b_blockno b' = b_blockno b ->
  b_dirty b' = b_dirty b -> b_valid b' = b_valid b -> b_data b' = b_data b ->
  soft (setbuf i b' s) a <-> soft s a.
Proof.
  intros Hb H1 H2 H3 H4 H5. pose proof (lookup_lt_Some _ _ _ Hb) as Hi. split.
  - intros (j & b1 & [[-> ->]|[Hne Hj]]%lookup_setbuf & Hx); [|by exists j, b1|done].
    exists i, b. by rewrite <- H1, <- H2, <- H3, <- H4, <- H5.
  - intros (j & b1 & Hj & Hx). destruct (decide (i = j)) as [<-|Hne].
    + exists i, b'. rewrite H1, H2, H3, H4, H5. split; [by apply lookup_setbuf_eq|].
      rewrite Hb in Hj. by simplify_eq.
    + exists j, b1. by rewrite lookup_setbuf_ne.
Qed.

(** What no operation below but [bwrite] changes. *)
Definition same_disk (s s' : bio) : Prop :=
  disk s' = disk s /\ disksize s' = disksize s /\ writes s' = writes s.

Lemma same_disk_trans s1 s2 s3 : same_disk s1 s2 -> same_disk s2 s3 -> same_disk s1 s3.
Proof. intros (A1 & A2 & A3) (B1 & B2 & B3). repeat split; congruence. Qed.

Lemma hit_ok size b : buf_ok size b -> b_dev b = 1 -> buf_ok size (hit b).
Proof.
  intros Hb Hd. pose proof (buf_ok_valid _ _ Hb Hd) as Hv.
  constructor; cbn; [by left|done|done| |]; apply Hb.
Qed.

Lemma fetched_ok s c : bio_ok s -> 0 <= c < disksize s -> buf_ok (disksize s) (fetched s c).
Proof. intros. constructor; cbn; [by left|done|done|done|]. by apply dblock_ok. Qed.

(** Every buffer is locked or pinned. *)
Definition no_room (s : bio) : Prop :=
  forall i b, bufs s !! i = Some b -> Sleep.locked (b_lock b) = true \/ b_dirty b = true.

(** [bread] returns a newly locked buffer of the block.  The contents of no
    block change, except that evicting a soft block that nobody holds brings
    back its disk contents. *)
Lemma bread_spec s c :
  bio_ok s -> (forall i, held s !! i <> Some c) -> 0 <= c < disksize s ->
  wp (fun msg => msg = "bget: no buffers"%string /\ no_room s /\
        forall i b, bufs s !! i = Some b -> b_dev b = 1 -> b_blockno b <> c)
     (bread 1 c) (fun i s' =>
    bio_ok s' /\ held s !! i = None /\ held s' = <[i := c]> (held s) /\ same_disk s s' /\
    (forall a, ~ soft s a \/ (exists j, held s !! j = Some a) \/ a = c -> view s' a = view s a) /\
    (forall a, soft s' a -> soft s a) /\ (forall a, pinned s' a <-> pinned s a)) s.
Proof.
  intros Hs Hh Hc. unfold wp.
  destruct (bread_run s c Hs Hh Hc)
    as [(i & b & Hb & Hd & Hn & Hl & E)|[Hno [(i & b & Hb & Hl & Hdt & E)|[Hall E]]]];
    rewrite E; [| |done].
  - pose proof (lookup_lt_Some _ _ _ Hb) as Hi.
    assert (bio_ok (setbuf i (hit b) s)) as Hs'.
    { apply setbuf_ok; [done|by eapply hit_ok, Hd; eapply (ok_bufs s Hs)| |done].
      intros j b' Hne Hj Hd' _ Hbn. apply Hne. by eapply (ok_uniq s Hs). }
    split; [done|]. split.
    { destruct (held s !! i) eqn:Hhi; [|done]. apply lookup_held in Hhi as (b0 & ? & ? & _). congruence. }
    split; [rewrite held_setbuf by done; cbn; by rewrite Hn|]. split; [done|]. split; [|split].
    + intros a _. by eapply view_setbuf_same.
    + intros a. by apply (soft_setbuf s i b).
    + intros a. by apply (pinned_setbuf s i b).
  - pose proof (lookup_lt_Some _ _ _ Hb) as Hi.
    assert (bio_ok (setbuf i (fetched s c) s)) as Hs'.
    { apply setbuf_ok; [done|by apply fetched_ok| |done].
      intros j b' Hne Hj Hd' _. by eapply Hno. }
    split; [done|]. split.
    { destruct (held s !! i) eqn:Hhi; [|done]. apply lookup_held in Hhi as (b0 & ? & ? & _). congruence. }
    split; [rewrite held_setbuf by done; done|]. split; [done|]. split; [|split].
    + intros a Ha. destruct (decide (a = c)) as [->|Hac].
      * change c with (b_blockno (fetched s c)) at 2. rewrite view_setbuf_new by done. cbn.
        symmetry. apply view_uncached. intros j b' Hj Hd' Hn'. exfalso. by eapply Hno.
      * destruct (decide (b_dev b = 1 /\ b_blockno b = a)) as [[H1 H2]|Hne].
        -- rewrite (view_setbuf_old s i b _ a) by (try done; cbn; congruence).
           pose proof (buf_ok_valid _ _ (ok_bufs s Hs i b Hb) H1) as Hv.
           rewrite <- H2, (view_cached s i b Hs Hb H1 Hv).
           destruct (decide (b_data b = dblock (disk s) (b_blockno b))) as [->|Hsoft]; [done|].
           exfalso. destruct Ha as [Ha|[[j Hj]|Ha]]; [|apply lookup_held in Hj as (b' & Hj & L & Hn')|done].
           ++ apply Ha. exists i, b. rewrite <- H2. done.
           ++ assert (b_dev b' = 1).
              { destruct (bo_dev _ _ (ok_bufs s Hs j b' Hj)) as [[? _]|(_ & _ & _ & ?)]; congruence. }
              assert (i = j) as -> by (eapply (ok_uniq s Hs); [exact Hb|exact Hj|..]; congruence).
              rewrite Hb in Hj. simplify_eq. congruence.
        -- eapply view_setbuf_other; [done|done|exact Hb|naive_solver|]. cbn. congruence.
    + intros a (j & b' & [[-> ->]|[Hne Hj]]%lookup_setbuf & Hr); [|by exists j, b'|done].
      cbn in Hr. by destruct Hr as (_ & <- & _ & _ & Hr).
    + intros a. split.
      * intros (j & b' & [[-> ->]|[Hne Hj]]%lookup_setbuf & Hr); [|by exists j, b'|done].
        cbn in Hr. by destruct Hr as (_ & _ & Hr).
      * intros (j & b' & Hj & Hr). destruct (decide (i = j)) as [<-|Hne].
        -- rewrite Hb in Hj. simplify_eq. destruct Hr as (_ & _ & Hr). congruence.
        -- exists j, b'. by rewrite lookup_setbuf_ne.
Qed.

(** A held buffer. *)
Lemma held_buf s i c :
  bio_ok s -> held s !! i = Some c ->
  exists b, bufs s !! i = Some b /\ b_dev b = 1 /\ b_blockno b = c /\
    b_lock b = Sleep.Sleeplock true pid /\ b_valid b = true /\ b_refcnt b = 1 /\
    0 <= c < disksize s /\ view s c = b_data b /\ block_ok (b_data b).
Proof.
  intros Hs (b & Hb & Hl & Hc)%lookup_held. pose proof (ok_bufs s Hs i b Hb) as Hbo.
  destruct (bo_locked _ _ Hbo Hl) as [Hp Hr].
  assert (b_dev b = 1 /\ b_valid b = true) as [Hd Hv].
  { destruct (bo_dev _ _ Hbo) as [?|(_ & _ & _ & ?)]; [done|congruence]. }
  exists b. split; [done|]. split; [done|]. split; [done|]. split.
  { destruct (b_lock b) as [l p]; simpl in *. by subst. }
  split; [done|]. split; [done|]. split; [rewrite <- Hc; by apply Hbo|].
  split; [rewrite <- Hc; by eapply view_cached|]. apply Hbo.
Qed.

(** Two handles never hold the same block. *)
Lemma held_inj s i j c : bio_ok s -> held s !! i = Some c -> held s !! j = Some c -> i = j.
Proof.
  intros Hs Hi Hj. apply held_buf in Hi as (b & Hb & ? & ? & _), Hj as (b' & Hb' & ? & ? & _);
    try done. eapply (ok_uniq s Hs); [exact Hb|exact Hb'|..]; congruence.
Qed.

(** Changing only the list order changes nothing the clients see. *)
Lemma set_lru_ok s l : bio_ok s -> l ≡ₚ lru s -> bio_ok (set_lru l s).
Proof.
  intros Hs Hl. constructor; try apply Hs. cbn. rewrite Hl. apply Hs.
Qed.

Lemma lru_front_perm s i : bio_ok s -> (i < length (bufs s))%nat ->
  i :: filter (fun j => j <> i) (lru s) ≡ₚ lru s.
Proof.
  intros Hs Hi%elem_of_lru; [|done].
  assert (NoDup (lru s)) as Hnd by (rewrite (ok_lru s Hs); apply NoDup_seq).
  apply NoDup_Permutation; [|done|].
  - constructor; [|by apply NoDup_filter]. rewrite list_elem_of_filter. by intros [? _].
  - intros j. rewrite elem_of_cons, list_elem_of_filter.
    destruct (decide (j = i)) as [->|]; naive_solver.
Qed.

Definition keeps (s s' : bio) : Prop :=
  (forall a, view s' a = view s a) /\ (forall a, soft s' a <-> soft s a) /\
  (forall a, pinned s' a <-> pinned s a).

Lemma brelse_spec s i c :
  bio_ok s -> held s !! i = Some c ->
  wp nopanic (brelse i) (fun _ s' =>
    bio_ok s' /\ held s' = delete i (held s) /\ same_disk s s' /\ keeps s s') s.
Proof.
  intros Hs Hh. destruct (held_buf s i c Hs Hh) as (b & Hb & Hd & Hc & Hl & Hv & Hr & Hrg & _ & Hok).
  pose proof (lookup_lt_Some _ _ _ Hb) as Hi.
  unfold brelse. wp_steps. rewrite (getbuf_lookup _ _ _ Hb).
  unfold Sleep.holdingsleep. rewrite Hl. cbn [Sleep.locked Sleep.pid]. rewrite Z.eqb_refl.
  cbn [andb negb b_refcnt]. rewrite Hr. wp_steps. cbn [Z.sub Z.add Z.opp Z.pos_sub Z.eqb].
  set (b' := Buf _ _ _ _ _ _ _).
  assert (bio_ok (setbuf i b' s)) as Hs'.
  { apply setbuf_ok; [done| | |done].
    - constructor; cbn; try done; [by left|by rewrite Hc].
    - intros j b1 Hne Hj Hd1 _ Hbn. apply Hne. by eapply (ok_uniq s Hs). }
  unfold when. cbn [Z.sub Z.add Z.opp Z.pos_sub Z.eqb]. apply wp_modify.
  split; [|split; [|split; [done|split; [|split]]]].
  - apply set_lru_ok; [done|]. apply lru_front_perm; [done|]. by rewrite length_setbuf.
  - change (held (setbuf i b' s) = delete i (held s)). by rewrite held_setbuf.
  - intros a. by apply (view_setbuf_same s i b b' a).
  - intros a. by apply (soft_setbuf s i b).
  - intros a. by apply (pinned_setbuf s i b).
Qed.

Lemma set_bdata_spec s i c d :
  bio_ok s -> held s !! i = Some c -> block_ok d ->
  wp nopanic (set_bdata i d) (fun _ s' =>
    bio_ok s' /\ held s' = held s /\ same_disk s s' /\
    view s' c = d /\ (forall a, a <> c -> view s' a = view s a) /\
    (forall a, soft s' a -> soft s a \/ a = c) /\ (forall a, pinned s' a <-> pinned s a)) s.
Proof.
  intros Hs Hh Hd. destruct (held_buf s i c Hs Hh) as (b & Hb & Hdev & Hc & Hl & Hv & Hr & Hrg & _ & Hok).
  pose proof (lookup_lt_Some _ _ _ Hb) as Hi.
  unfold set_bdata. wp_steps. rewrite (getbuf_lookup _ _ _ Hb).
  set (b' := Buf _ _ _ _ _ _ _).
  assert (bio_ok (setbuf i b' s)) as Hs'.
  { apply setbuf_ok; [done| | |done].
    - constructor; cbn; try done; [by left|by rewrite Hl|by rewrite Hl|by rewrite Hc].
    - intros j b1 Hne Hj Hd1 _ Hbn. apply Hne. by eapply (ok_uniq s Hs). }
  split; [done|]. split.
  { rewrite held_setbuf by done. cbn. rewrite Hl. cbn. rewrite Hc. by apply insert_id. }
  split; [done|]. split; [|split; [|split]].
  - rewrite <- Hc. change (b_blockno b) with (b_blockno b'). by rewrite view_setbuf_new.
  - intros a Ha. apply (view_setbuf_other s i b); try done; cbn; congruence.
  - intros a (j & b1 & [[-> ->]|[Hne Hj]]%lookup_setbuf & Hx); [right|left; by exists j, b1|done].
    cbn in Hx. destruct Hx as (_ & <- & _). done.
  - intros a. by apply (pinned_setbuf s i b).
Qed.

Lemma dblock_insert_eq d c x : dblock (<[c := x]> d) c = x.
Proof. unfold dblock. by rewrite lookup_insert_eq. Qed.

Lemma dblock_insert_ne d c x a : a <> c -> dblock (<[c := x]> d) a = dblock d a.
Proof. intros. unfold dblock. by rewrite lookup_insert_ne. Qed.

Lemma disk_write_ok s c d : bio_ok s -> block_ok d -> bio_ok (disk_write c d s).
Proof.
  intros Hs Hd. constructor; try apply Hs. intros a x. cbn. rewrite lookup_insert_Some.
  intros [[<- <-]|[_ Hx]]; [done|]. by eapply (ok_disk s Hs).
Qed.

(** A disk write under a valid cached copy is invisible. *)
Lemma view_disk_write s i b d a :
  bio_ok s -> bufs s !! i = Some b -> b_dev b = 1 -> block_ok d ->
  view (disk_write (b_blockno b) d s) a = view s a.
Proof.
  intros Hs Hb Hd Hok. pose proof (buf_ok_valid _ _ (ok_bufs s Hs i b Hb) Hd) as Hv.
  destruct (view_cases s a Hs) as [(j & b1 & Hj & Hd1 & Hv1 & <- & ->)|[Hno ->]].
  - apply (view_cached _ j); try done. by apply disk_write_ok.
  - rewrite view_uncached by done. apply dblock_insert_ne. intros ->.
    specialize (Hno i b Hb Hd eq_refl). congruence.
Qed.

Lemma bwrite_spec s i c :
  bio_ok s -> held s !! i = Some c ->
  wp nopanic (bwrite i) (fun _ s' =>
    bio_ok s' /\ held s' = held s /\ disksize s' = disksize s /\
    disk s' = <[c := view s c]> (disk s) /\ writes s' = writes s ++ [(c, view s c)] /\
    (forall a, view s' a = view s a) /\
    (forall a, soft s' a -> soft s a /\ a <> c) /\
    (forall a, pinned s' a <-> pinned s a /\ a <> c)) s.
Proof.
  intros Hs Hh.
  destruct (held_buf s i c Hs Hh) as (b & Hb & Hd & Hc & Hl & Hv & Hr & Hrg & Hvw & Hok).
  pose proof (lookup_lt_Some _ _ _ Hb) as Hi.
  unfold bwrite. wp_steps. rewrite (getbuf_lookup _ _ _ Hb).
  unfold Sleep.holdingsleep. rewrite Hl. cbn [Sleep.locked Sleep.pid]. rewrite Z.eqb_refl.
  cbn [andb negb]. wp_steps. set (b1 := Buf _ _ _ _ _ _ _).
  unfold wp. rewrite (iderw_write_run _ i b1); [|by apply lookup_setbuf_eq|done|done|done|cbn; lia].
  cbn [b1 b_blockno b_data b_refcnt b_lock]. set (b2 := Buf _ _ _ _ _ _ _).
  set (s1 := disk_write (b_blockno b) (b_data b) s).
  assert (setbuf i b2 (disk_write (b_blockno b) (b_data b) (setbuf i b1 s)) = setbuf i b2 s1) as ->.
  { unfold s1, setbuf, disk_write, set_bufs. cbn. by rewrite list_insert_insert_eq. }
  assert (bio_ok s1) as Hs1 by by apply disk_write_ok.
  assert (bio_ok (setbuf i b2 s1)) as Hs2.
  { apply setbuf_ok; [done| | |done].
    - constructor; cbn; try done; [by left|by rewrite Hc].
    - intros j b3 Hne Hj Hd1 _ Hbn. apply Hne. eapply (ok_uniq s1 Hs1); [exact Hj|exact Hb|..]; done. }
  assert (forall j b3 a, j <> i -> bufs s !! j = Some b3 -> b_dev b3 = 1 -> b_blockno b3 = a -> a <> c) as Hne.
  { intros j b3 a Hji Hj Hd3 Ha ->. apply Hji.
    eapply (ok_uniq s Hs); [exact Hj|exact Hb|..]; congruence. }
  split; [done|]. split.
  { rewrite held_setbuf by done. cbn. rewrite Hc. by apply insert_id. }
  split; [done|]. split; [cbn; by rewrite Hc, Hvw|]. split; [cbn; by rewrite Hc, Hvw|].
  split; [|split].
  - intros a. rewrite (view_setbuf_same s1 i b) by done. by apply (view_disk_write s i b).
  - intros a (j & b3 & [[-> ->]|[Hji Hj]]%lookup_setbuf & Hx); [| |done].
    + cbn in Hx. destruct Hx as (_ & <- & _ & _ & Hx). by rewrite dblock_insert_eq in Hx.
    + destruct Hx as (Hd3 & Ha & Hv3 & Hdt & Hx). assert (a <> c) as Hac by by eapply Hne.
      split; [|done]. exists j, b3. cbn in Hx. rewrite Hc, dblock_insert_ne in Hx; done.
  - intros a. split.
    + intros (j & b3 & [[-> ->]|[Hji Hj]]%lookup_setbuf & Hx); [| |done].
      * by destruct Hx as (_ & _ & Hx).
      * split; [by exists j, b3|]. destruct Hx as (Hd3 & Ha & _). by eapply Hne.
    + intros [(j & b3 & Hj & Hd3 & Ha & Hx) Hac]. exists j, b3.
      rewrite lookup_setbuf_ne; [done|]. intros <-. rewrite Hb in Hj. simplify_eq.
Qed.

(** With fewer pinned and locked buffers than buffers, there is room. *)
Lemma room s (P : list Z) :
  bio_ok s -> (forall a, pinned s a -> a ∈ P) ->
  (length P + size (held s) < Z.to_nat NBUF)%nat -> ~ no_room s.
Proof.
  intros Hs HP Hlt Hno.
  set (lk i := Is_true (Sleep.locked (b_lock (getbuf i s)))).
  set (idx := seq 0 (Z.to_nat NBUF)).
  assert (forall i, i ∈ idx -> exists b, bufs s !! i = Some b /\ getbuf i s = b) as Hidx.
  { intros i Hi. unfold idx in Hi. apply elem_of_seq in Hi. rewrite <- (ok_len s Hs) in Hi.
    destruct (lookup_lt_is_Some_2 (bufs s) i) as [b Hb]; [lia|].
    exists b. split; [done|]. by apply getbuf_lookup. }
  assert (length (filter lk idx) <= size (held s))%nat as HL.
  { rewrite <- size_dom. rewrite <- (size_list_to_set (C:=gset nat) (filter lk idx)).
    - apply subseteq_size. intros i. rewrite elem_of_list_to_set, list_elem_of_filter, elem_of_dom.
      intros [Hl Hi]. destruct (Hidx i Hi) as (b & Hb & Eb). unfold lk in Hl. rewrite Eb in Hl.
      exists (b_blockno b). apply lookup_held. exists b. by apply Is_true_true in Hl.
    - apply NoDup_filter, NoDup_seq. }
  assert (length (filter (fun i => ~ lk i) idx) <= length P)%nat as HD.
  { rewrite <- (length_fmap (fun i => b_blockno (getbuf i s))).
    apply submseteq_length, NoDup_submseteq.
    - apply NoDup_fmap_2_strong; [|apply NoDup_filter, NoDup_seq].
      intros i j [Hi Hii]%list_elem_of_filter [Hj Hjj]%list_elem_of_filter E.
      destruct (Hidx i Hii) as (b & Hb & Eb), (Hidx j Hjj) as (b' & Hb' & Eb').
      unfold lk in *. rewrite Eb, Eb' in *.
      eapply (ok_uniq s Hs); [exact Hb|exact Hb'|..]; [| |done].
      + destruct (bo_dev _ _ (ok_bufs s Hs i b Hb)) as [[? _]|(_ & _ & Hd & Hl)]; [done|].
        destruct (Hno i b Hb); congruence.
      + destruct (bo_dev _ _ (ok_bufs s Hs j b' Hb')) as [[? _]|(_ & _ & Hd & Hl)]; [done|].
        destruct (Hno j b' Hb'); congruence.
    - intros a (i & -> & [Hi Hii]%list_elem_of_filter)%list_elem_of_fmap.
      destruct (Hidx i Hii) as (b & Hb & Eb). unfold lk in Hi. rewrite Eb in *.
      apply HP. destruct (Hno i b Hb) as [Hl|Hd]; [rewrite Hl in Hi; by destruct Hi|].
      exists i, b. split; [done|]. split; [|done].
      destruct (bo_dev _ _ (ok_bufs s Hs i b Hb)) as [[? _]|(_ & _ & ? & _)]; [done|congruence]. }
  assert (length (filter lk idx) + length (filter (fun i => ~ lk i) idx) = length idx)%nat as Hsum.
  { rewrite <- length_app. apply Permutation_length. apply filter_app_complement. }
  unfold idx in Hsum at 3. rewrite length_seq in Hsum. lia.
Qed.

Lemma bread_room s c P :
  bio_ok s -> (forall i, held s !! i <> Some c) -> 0 <= c < disksize s ->
  (forall a, pinned s a -> a ∈ P) ->
  (pinned s c \/ (length P + size (held s) < Z.to_nat NBUF)%nat) ->
  wp nopanic (bread 1 c) (fun i s' =>
    bio_ok s' /\ held s !! i = None /\ held s' = <[i := c]> (held s) /\ same_disk s s' /\
    (forall a, ~ soft s a \/ (exists j, held s !! j = Some a) \/ a = c -> view s' a = view s a) /\
    (forall a, soft s' a -> soft s a) /\ (forall a, pinned s' a <-> pinned s a)) s.
Proof.
  intros Hs Hh Hc HP Hroom. eapply wp_mono; [by apply bread_spec| |done].
  intros msg (_ & Hno & Hnc). destruct Hroom as [(i & b & Hb & Hd & Hn & _)|Hlt].
  - by eapply Hnc.
  - by eapply (room s P).
Qed.

(** A block pinned by the log is not soft. *)
Lemma pinned_not_soft s c : bio_ok s -> pinned s c -> ~ soft s c.
Proof.
  intros Hs (i & b & Hb & Hd & Hn & Hdt) (j & b' & Hb' & Hd' & Hn' & _ & Hdt' & _).
  assert (i = j) as -> by (eapply (ok_uniq s Hs); [exact Hb|exact Hb'|..]; congruence).
  congruence.
Qed.

Lemma binit_ok d size :
  (forall c x, d !! c = Some x -> block_ok x) -> bio_ok (binit d size).
Proof.
  intros Hd. constructor.
  - cbn. by rewrite length_replicate.
  - cbn. apply reverse_Permutation.
  - intros i b [-> _]%lookup_replicate. constructor; cbn; try done; [by right|].
    apply zero_block_ok.
  - intros i j b b' [-> _]%lookup_replicate [-> _]%lookup_replicate Hb. done.
  - apply Hd.
Qed.

Lemma binit_held d size : held (binit d size) = ∅.
Proof.
  apply map_eq. intros i. rewrite lookup_empty. apply eq_None_not_Some. intros [c Hc].
  apply lookup_held in Hc as (b & [-> _]%lookup_replicate & Hl & _). done.
Qed.

Lemma binit_not_pinned d size a : ~ pinned (binit d size) a.
Proof. by intros (i & b & [-> _]%lookup_replicate & Hb & _). Qed.

Lemma binit_not_soft d size a : ~ soft (binit d size) a.
Proof. by intros (i & b & [-> _]%lookup_replicate & Hb & _). Qed.

Lemma binit_view d size a : view (binit d size) a = dblock d a.
Proof. apply view_uncached. by intros i b [-> _]%lookup_replicate Hb. Qed.

(** ** The cache is transparent

    A client that reads and writes whole blocks through the cache, and the
    same client on the bare disk. *)
Inductive bop := BRead (c : Z) | BWrite (c : Z) (d : block_data).

Fixpoint run_bops (ops : list bop) : M bio (list block_data) :=
  match ops with
  | [] => ret []
  | BRead c :: ops' =>
      i <- bread 1 c;; d <- gets (bdata i);; brelse i;; rs <- run_bops ops';; ret (d :: rs)
  | BWrite c d :: ops' =>
      i <- bread 1 c;; set_bdata i d;; bwrite i;; brelse i;; run_bops ops'
  end.

Fixpoint spec_bops (ops : list bop) (m : gmap Z block_data) : list block_data * gmap Z block_data :=
  match ops with
  | [] => ([], m)
  | BRead c :: ops' => let r := spec_bops ops' m in (dblock m c :: r.1, r.2)
  | BWrite c d :: ops' => spec_bops ops' (<[c := d]> m)
  end.

Definition bop_ok (size : Z) (o : bop) : Prop :=
  match o with
  | BRead c => 0 <= c < size
  | BWrite c d => 0 <= c < size /\ block_ok d
  end.

(** No buffer is locked, pinned or soft: the cache agrees with the disk. *)
Definition quiet (s : bio) : Prop :=
  bio_ok s /\ held s = ∅ /\ (forall a, ~ pinned s a) /\ (forall a, ~ soft s a).

Lemma clean_view s a : bio_ok s -> ~ soft s a -> ~ pinned s a -> view s a = dblock (disk s) a.
Proof.
  intros Hs Hsf Hp.
  destruct (view_cases s a Hs) as [(i & b & Hb & Hd & Hv & Hn & ->)|[_ ->]]; [|done].
  destruct (decide (b_data b = dblock (disk s) a)) as [|Hne]; [done|].
  exfalso. apply Hsf. exists i, b. repeat (split; [done|]). split; [|done].
  destruct (b_dirty b) eqn:E; [|done]. exfalso. apply Hp. by exists i, b.
Qed.

Lemma quiet_view s a : quiet s -> view s a = dblock (disk s) a.
Proof. intros (Hs & _ & Hp & Hsf). by apply clean_view. Qed.

Lemma quiet_bread s c :
  quiet s -> 0 <= c < disksize s ->
  wp nopanic (bread 1 c) (fun i s' =>
    bio_ok s' /\ held s' = {[i := c]} /\ same_disk s s' /\ (forall a, view s' a = view s a) /\
    (forall a, ~ pinned s' a) /\ (forall a, ~ soft s' a)) s.
Proof.
  intros (Hs & Hh & Hp & Hsf) Hc. eapply wp_post; [apply (bread_room s c []); try done|].
  - intros i. by rewrite Hh, lookup_empty.
  - intros a Ha. by destruct (Hp a).
  - right. rewrite Hh, map_size_empty. cbn. plia.
  - intros i s' (H1 & H2 & H3 & H4 & H5 & H6 & H7). rewrite Hh in H3.
    split; [done|]. split; [done|]. split; [done|]. split; [intros a; apply H5; by left|].
    split; [intros a; rewrite H7; apply Hp|]. intros a Ha. by eapply Hsf, H6.
Qed.

Lemma quiet_brelse s i c :
  bio_ok s -> held s = {[i := c]} -> (forall a, ~ pinned s a) -> (forall a, ~ soft s a) ->
  wp nopanic (brelse i) (fun _ s' => quiet s' /\ same_disk s s') s.
Proof.
  intros Hs Hh Hp Hsf. eapply wp_post; [apply (brelse_spec s i c Hs); by rewrite Hh, lookup_singleton_eq|].
  intros _ s' (H1 & H2 & H3 & _ & H5 & H6). split; [|done]. split; [done|].
  split; [rewrite H2, Hh; by apply delete_singleton_eq|].
  split; intros a; [rewrite H6; apply Hp|rewrite H5; apply Hsf].
Qed.

Lemma run_bops_spec ops : forall s,
  quiet s -> Forall (bop_ok (disksize s)) ops ->
  wp nopanic (run_bops ops) (fun rs s' =>
    rs = (spec_bops ops (disk s)).1 /\ disk s' = (spec_bops ops (disk s)).2 /\ quiet s') s.
Proof.
  induction ops as [|[c|c d] ops IH]; intros s Hq Hops; cbn [run_bops spec_bops].
  - by apply wp_ret.
  - apply Forall_cons in Hops as [Hc Hops]. cbn in Hc.
    apply wp_bind. eapply wp_post; [by apply quiet_bread|].
    intros i s1 (Hs1 & Hh1 & (Hd1 & Hz1 & _) & Hv1 & Hp1 & Hsf1). wp_steps.
    destruct (held_buf s1 i c Hs1) as (b & Hb & _ & _ & _ & _ & _ & _ & Hvb & _);
      [by rewrite Hh1, lookup_singleton_eq|].
    assert (bdata i s1 = dblock (disk s) c) as ->.
    { unfold bdata. rewrite (getbuf_lookup _ _ _ Hb), <- Hvb, Hv1. by apply quiet_view. }
    eapply wp_post; [by eapply quiet_brelse|].
    intros [] s2 (Hq2 & Hd2 & Hz2 & _). apply wp_bind.
    eapply wp_post; [apply IH; [done|by rewrite Hz2, Hz1]|].
    intros rs s3 (-> & Hd3 & Hq3). apply wp_ret. rewrite Hd2, Hd1 in *. done.
  - apply Forall_cons in Hops as [[Hc Hd] Hops].
    apply wp_bind. eapply wp_post; [by apply quiet_bread|].
    intros i s1 (Hs1 & Hh1 & (Hd1 & Hz1 & _) & Hv1 & Hp1 & Hsf1).
    assert (held s1 !! i = Some c) as Hi1 by by rewrite Hh1, lookup_singleton_eq.
    apply wp_bind. eapply wp_post; [by apply (set_bdata_spec s1 i c)|].
    intros [] s2 (Hs2 & Hh2 & (Hd2 & Hz2 & _) & Hv2 & _ & Hsf2 & Hp2).
    apply wp_bind. eapply wp_post; [apply (bwrite_spec s2 i c); [done|by rewrite Hh2]|].
    intros [] s3 (Hs3 & Hh3 & Hz3 & Hd3 & _ & _ & Hsf3 & Hp3).
    apply wp_bind. eapply wp_post; [apply (quiet_brelse s3 i c); [done|by rewrite Hh3, Hh2|..]|].
    { intros a. rewrite Hp3, Hp2. intros [Ha _]. by apply (Hp1 a). }
    { intros a [Ha Hne]%Hsf3. apply Hsf2 in Ha as [Ha|Ha]; [by apply (Hsf1 a)|done]. }
    intros [] s4 (Hq4 & Hd4 & Hz4 & _).
    replace (<[c := d]> (disk s)) with (disk s4) by by rewrite Hd4, Hd3, Hv2, Hd2, Hd1.
    apply IH; [done|]. by rewrite Hz4, Hz3, Hz2, Hz1.
Qed.
End bio.

(** C19: the buffer cache is transparent.  For every sequence of block reads
    and writes, of any length and on any blocks of the disk, the 30 buffers
    with their LRU recycling give the results of the bare disk: no panic, no
    blocking, every read returns the last contents written, every write
    reaches the disk. *)
Theorem bcache_transparent pid d size ops :
  (forall c x, d !! c = Some x -> block_ok x) -> Forall (bop_ok size) ops ->
  wp nopanic (run_bops pid ops) (fun rs s' =>
    rs = (spec_bops ops d).1 /\ disk s' = (spec_bops ops d).2) (binit d size).
Proof.
  intros Hd Hops. eapply wp_post; [apply (run_bops_spec pid ops (binit d size)); [|done]|].
  - split; [by apply binit_ok|]. split; [apply binit_held|].
    split; intros a; [apply binit_not_pinned|apply binit_not_soft].
  - intros rs s' (-> & Hd' & _). done.
Qed.

(** Forty blocks through thirty buffers: write each, then read them all back. *)
Lemma bcache_transparent_witness :
  let ops := ((fun c => BWrite c (replicate 512 (c mod 256))) <$> seqZ 0 40) ++
             (BRead <$> seqZ 0 40) in
  wp nopanic (run_bops 7 ops) (fun rs s' =>
    length rs = 40%nat /\ rs !! 3%nat = Some (replicate 512 3) /\
    disk s' !! 39 = Some (replicate 512 39)) (binit ∅ 100).
Proof.
  intros ops. eapply wp_post.
  - apply (bcache_transparent 7 ∅ 100 ops).
    + intros c x. by rewrite lookup_empty.
    + apply Forall_app. split; apply Forall_fmap, Forall_seqZ; intros m Hm; unfold compose; cbn [bop_ok]; [|lia].
      unfold block_ok. split; [lia|]. split; [by rewrite length_replicate|]. apply Forall_replicate. unfold is_byte. lia.
  - intros rs s' [-> ->]. split; [|split]; vm_compute; reflexivity.
Defined.
