(* ===== verification/Log.v ===== *)
(** * The write-ahead log ([kernel/log.c]) and the super block

    The state is the buffer layer's and the in-memory log.  [log.lh] is a list:
    [lh.n] is its length.  [begin_op] and [end_op] block where the source
    sleeps on the log.  [Crash] states what a crash between any two disk writes
    leaves behind. *)

From S2P Require Import Prelude Params Locks Bio.
Local Open Scope Z_scope.
Local Open Scope kmonad_scope.

(** [struct superblock] and [readsb]'s decoding of it. *)
Record superblock := Superblock {
  sb_size : Z;
  sb_nblocks : Z;
  sb_ninodes : Z;
  sb_nlog : Z;
  sb_logstart : Z;
  sb_inodestart : Z;
  sb_bmapstart : Z
}.

Definition decode_sb (d : list Z) : superblock :=
  Superblock (get32 d 0) (get32 d 1) (get32 d 2) (get32 d 3) (get32 d 4) (get32 d 5) (get32 d 6).

(** [struct log]. *)
Record logst := Log {
  l_start : Z;
  l_size : Z;
  l_outstanding : Z;
  l_committing : bool;
  l_dev : Z;
  l_lh : list Z
}.

Record lstate := LState { l_bio : bio; l_log : logst }.

Definition set_bio (b : bio) (s : lstate) : lstate := LState b (l_log s).
Definition set_log (l : logst) (s : lstate) : lstate := LState (l_bio s) l.
Definition set_lh (lh : list Z) (s : lstate) : lstate :=
  let l := l_log s in
  set_log (Log (l_start l) (l_size l) (l_outstanding l) (l_committing l) (l_dev l) lh) s.
Definition set_outstanding (n : Z) (s : lstate) : lstate :=
  let l := l_log s in
  set_log (Log (l_start l) (l_size l) n (l_committing l) (l_dev l) (l_lh l)) s.
Definition set_committing (c : bool) (s : lstate) : lstate :=
  let l := l_log s in
  set_log (Log (l_start l) (l_size l) (l_outstanding l) c (l_dev l) (l_lh l)) s.

(** Buffer-layer code run on the whole state. *)
Definition onbio {A} (m : M bio A) : M lstate A := lift l_bio set_bio m.

(** The on-disk header: [n] and [block[0..n)]. *)
Fixpoint write_words (d : list Z) (i : nat) (ws : list Z) : list Z :=
  match ws with
  | [] => d
  | w :: ws' => write_words (set32 d i w) (S i) ws'
  end.

Definition encode_head (d : list Z) (lh : list Z) : list Z :=
  write_words (set32 d 0 (Z.of_nat (length lh))) 1 lh.

Definition decode_head (d : list Z) : list Z :=
  (fun i => get32 d (S i)) <$> seq 0 (Z.to_nat (s32 (get32 d 0))).

Definition add_lh (c : Z) (lh : list Z) : list Z := if decide (c ∈ lh) then lh else lh ++ [c].

Lemma elem_of_add_lh c lh a : a ∈ add_lh c lh <-> a ∈ lh \/ a = c.
Proof. unfold add_lh. case_decide; [|set_solver]. naive_solver. Qed.

Section log.
Context (pid : Z).

Definition readsb (dev : Z) : M bio superblock :=
  bp <- bread pid dev 1;;
  d <- gets (bdata bp);;
  brelse pid bp;;
  ret (decode_sb d).

(** Copy committed blocks from log to their home location. *)
Definition install_trans : M lstate unit :=
  l <- gets l_log;;
  each (fun '(tail, dst) =>
    lbuf <- onbio (bread pid (l_dev l) (l_start l + Z.of_nat tail + 1));;
    dbuf <- onbio (bread pid (l_dev l) dst);;
    d <- gets (fun s => bdata lbuf (l_bio s));;
    onbio (set_bdata dbuf d);;
    onbio (bwrite pid dbuf);;
    onbio (brelse pid lbuf);;
    onbio (brelse pid dbuf)) (imap pair (l_lh l)).

(** Read the log header from disk into the in-memory log header.  The loop
    stores [lh->n] block numbers into an array of [LOGSIZE]; a disk whose header
    counts more is outside this model, and [disk_ok] excludes it. *)
Definition read_head : M lstate unit :=
  l <- gets l_log;;
  b <- onbio (bread pid (l_dev l) (l_start l));;
  d <- gets (fun s => bdata b (l_bio s));;
  modify (set_lh (decode_head d));;
  onbio (brelse pid b).

(** Write in-memory log header to disk: the commit point. *)
Definition write_head : M lstate unit :=
  l <- gets l_log;;
  b <- onbio (bread pid (l_dev l) (l_start l));;
  d <- gets (fun s => bdata b (l_bio s));;
  onbio (set_bdata b (encode_head d (l_lh l)));;
  onbio (bwrite pid b);;
  onbio (brelse pid b).

Definition recover_from_log : M lstate unit :=
  read_head;;
  install_trans;;
  modify (set_lh []);;
  write_head.

Definition initlog (dev : Z) : M lstate unit :=
  sb <- onbio (readsb dev);;
  modify (fun s => let l := l_log s in
    set_log (Log (sb_logstart sb) (sb_nlog sb) (l_outstanding l) (l_committing l) dev (l_lh l)) s);;
  recover_from_log.

Definition begin_op : M lstate unit :=
  l <- gets l_log;;
  if l_committing l then block
  else if LOGSIZE <? Z.of_nat (length (l_lh l)) + (l_outstanding l + 1) * MAXOPBLOCKS then block
  else modify (set_outstanding (l_outstanding l + 1)).

(** Copy modified blocks from cache to log. *)
Definition write_log : M lstate unit :=
  l <- gets l_log;;
  each (fun '(tail, src) =>
    to <- onbio (bread pid (l_dev l) (l_start l + Z.of_nat tail + 1));;
    from <- onbio (bread pid (l_dev l) src);;
    d <- gets (fun s => bdata from (l_bio s));;
    onbio (set_bdata to d);;
    onbio (bwrite pid to);;
    onbio (brelse pid from);;
    onbio (brelse pid to)) (imap pair (l_lh l)).

Definition commit : M lstate unit :=
  l <- gets l_log;;
  if 0 <? Z.of_nat (length (l_lh l)) then
    write_log;;
    write_head;;
    install_trans;;
    modify (set_lh []);;
    write_head
  else ret tt.

Definition end_op : M lstate unit :=
  l <- gets l_log;;
  modify (set_outstanding (l_outstanding l - 1));;
  if l_committing l then panic "log.committing"
  else if l_outstanding l - 1 =? 0 then
    modify (set_committing true);;
    commit;;
    modify (set_committing false)
  else ret tt.

Definition log_write (b : nat) : M lstate unit :=
  l <- gets l_log;;
  let n := Z.of_nat (length (l_lh l)) in
  if (LOGSIZE <=? n) || (l_size l - 1 <=? n) then panic "too big a transaction"
  else if l_outstanding l <? 1 then panic "log_write outside of trans"
  else
    x <- gets (fun s => getbuf b (l_bio s));;
    (* log absorption *)
    modify (set_lh (if decide (b_blockno x ∈ l_lh l) then l_lh l else l_lh l ++ [b_blockno x]));;
    (* b->flags |= B_DIRTY: prevent eviction *)
    onbio (modify (setbuf b (Buf (b_valid x) true (b_dev x) (b_blockno x) (b_lock x)
                               (b_refcnt x) (b_data x)))).

(** ** Encoding of the header *)

Lemma length_write_words ws : forall d i,
  (4 * (i + length ws) <= length d)%nat -> length (write_words d i ws) = length d.
Proof.
  induction ws as [|w ws IH]; intros d i Hl; cbn [write_words length] in *; [done|].
  assert (length (set32 d i w) = length d) as Hl' by (apply length_set32; lia).
  rewrite IH by lia. done.
Qed.

Lemma write_words_lt ws : forall d i j,
  (4 * (i + length ws) <= length d)%nat -> (j < i)%nat ->
  get32 (write_words d i ws) j = get32 d j.
Proof.
  induction ws as [|w ws IH]; intros d i j Hl Hj; cbn [write_words length] in *; [done|].
  assert (length (set32 d i w) = length d) as Hl' by (apply length_set32; lia).
  rewrite IH by lia. apply get_set32_ne; lia.
Qed.

Lemma write_words_get ws : forall d i k w,
  (4 * (i + length ws) <= length d)%nat -> ws !! k = Some w -> 0 <= w < 2 ^ 32 ->
  get32 (write_words d i ws) (i + k) = w.
Proof.
  induction ws as [|w0 ws IH]; intros d i k w Hl Hk Hw; [done|]. cbn [write_words length] in *.
  assert (length (set32 d i w0) = length d) as Hl' by (apply length_set32; lia).
  destruct k as [|k].
  - injection Hk as ->. rewrite Nat.add_0_r. rewrite write_words_lt by lia.
    apply get_set32_eq; [lia|done].
  - replace (i + S k)%nat with (S i + k)%nat by lia. apply IH; [lia|done|done].
Qed.

Lemma bytes_write_words ws : forall d i, bytes d -> bytes (write_words d i ws).
Proof. induction ws; intros d i Hd; cbn [write_words]; auto with xv6. Qed.

Lemma encode_head_ok d lh :
  block_ok d -> (length lh < 128)%nat -> block_ok (encode_head d lh).
Proof.
  intros [Hl Hb] Hn. unfold encode_head.
  assert (length (set32 d 0 (Z.of_nat (length lh))) = length d) as Hl'.
  { apply length_set32. rewrite Hl. plia. }
  split; [|by apply bytes_write_words, bytes_set32].
  rewrite length_write_words; [congruence|]. rewrite Hl', Hl. plia.
Qed.

Lemma decode_encode_head d lh :
  block_ok d -> (length lh < 128)%nat -> Forall (fun c => 0 <= c < 2 ^ 32) lh ->
  decode_head (encode_head d lh) = lh.
Proof.
  intros [Hl Hb] Hn Hlh. unfold decode_head, encode_head.
  assert (length (set32 d 0 (Z.of_nat (length lh))) = length d) as Hl'.
  { apply length_set32. rewrite Hl. plia. }
  rewrite write_words_lt by (rewrite ?Hl', ?Hl; plia).
  rewrite get_set32_eq by (rewrite ?Hl; plia). rewrite s32_small by lia. rewrite Nat2Z.id.
  apply list_eq. intros k. rewrite list_lookup_fmap.
  destruct (lh !! k) as [c|] eqn:Hk.
  - rewrite lookup_seq_lt by by eapply lookup_lt_Some. cbn. f_equal.
    apply (write_words_get lh _ 1 k c); [rewrite Hl', Hl; plia|done|].
    rewrite Forall_lookup in Hlh. by eapply Hlh.
  - rewrite lookup_seq_ge; [done|]. by apply lookup_ge_None_1.
Qed.

(** ** Copying a block through two buffers *)

Lemma wp_onbio {A} E (m : M bio A) (Q : A -> lstate -> Prop) b l :
  wp E m (fun a b' => Q a (LState b' l)) b -> wp E (onbio m) Q (LState b l).
Proof. intros H. by apply wp_lift. Qed.

Lemma held_bdata b i c : bio_ok pid b -> held b !! i = Some c -> bdata i b = view b c.
Proof.
  intros Hb Hi. destruct (held_buf pid b i c Hb Hi) as (x & Hx & _ & _ & _ & _ & _ & _ & -> & _).
  unfold bdata. by rewrite (getbuf_lookup _ _ _ Hx).
Qed.

(** What copying the contents [x] to block [c] of the disk through the cache
    leaves behind. *)
Record copied (c : Z) (x : list Z) (b b' : bio) : Prop := {
  cp_ok : bio_ok pid b';
  cp_held : held b' = ∅;
  cp_size : disksize b' = disksize b;
  cp_disk : disk b' = <[c := x]> (disk b);
  cp_writes : writes b' = writes b ++ [(c, x)];
  cp_view : view b' c = x;
  cp_view_ne a : a <> c -> ~ soft b a -> view b' a = view b a;
  cp_soft a : soft b' a -> soft b a /\ a <> c;
  cp_pinned a : pinned b' a <-> pinned b a /\ a <> c
}.

(** The room the two [bread]s of a copy need: [P] bounds the pinned blocks. *)
Definition room_for (b : bio) (P : list Z) (c : Z) : Prop :=
  (forall a, pinned b a -> a ∈ P) /\ (length P < Z.to_nat NBUF)%nat /\
  (pinned b c \/ (length P + 1 < Z.to_nat NBUF)%nat).

(** Two blocks read in a row. *)
Lemma bread2_spec b l c1 c2 P :
  bio_ok pid b -> held b = ∅ -> c1 <> c2 ->
  0 <= c1 < disksize b -> 0 <= c2 < disksize b ->
  room_for b P c2 -> ~ soft b c2 ->
  wp nopanic (i <- onbio (bread pid 1 c1);; j <- onbio (bread pid 1 c2);; ret (i, j))
    (fun '(i, j) s' => exists b', s' = LState b' l /\
       bio_ok pid b' /\ i <> j /\ held b' = {[i := c1; j := c2]} /\ same_disk b b' /\
       view b' c1 = view b c1 /\
       (forall a, ~ soft b a -> view b' a = view b a) /\
       (forall a, soft b' a -> soft b a) /\ (forall a, pinned b' a <-> pinned b a)) (LState b l).
Proof.
  intros Hb Hh Hne H1 H2 (HP & Hroom & Hroom2) Hsf.
  apply wp_bind, wp_onbio. eapply wp_post; [apply (bread_room pid b c1 P); try done|].
  { intros i. by rewrite Hh, lookup_empty. }
  { right. rewrite Hh, map_size_empty. lia. }
  intros i b1 (Hb1 & Hi & Hh1 & (Hd1 & Hz1 & Hw1) & Hv1 & Hs1 & Hp1). rewrite Hh in Hh1.
  apply wp_bind, wp_onbio. eapply wp_post; [apply (bread_room pid b1 c2 P); try done|].
  { intros j. rewrite Hh1, insert_empty. rewrite lookup_singleton_Some. naive_solver. }
  { by rewrite Hz1. }
  { intros a. rewrite Hp1. apply HP. }
  { rewrite Hp1. destruct Hroom2 as [|Hlt]; [by left|right].
    rewrite Hh1, insert_empty, map_size_singleton. lia. }
  intros j b2 (Hb2 & Hj & Hh2 & (Hd2 & Hz2 & Hw2) & Hv2 & Hs2 & Hp2). apply wp_ret.
  exists b2. split; [done|]. split; [done|].
  assert (i <> j) as Hij.
  { intros <-. rewrite Hh1, insert_empty, lookup_singleton_eq in Hj. done. }
  split; [done|]. split.
  { rewrite Hh2, Hh1, insert_empty. by apply insert_insert_ne. }
  split; [split_and!; congruence|]. split.
  { rewrite Hv2; [apply Hv1; by right; right|]. right. left. exists i.
    by rewrite Hh1, lookup_insert_eq. }
  split; [|split].
  - intros a Ha. rewrite Hv2; [apply Hv1; by left|]. left. intros Ha'. by apply Ha, Hs1.
  - intros a Ha. by apply Hs1, Hs2.
  - intros a. by rewrite Hp2, Hp1.
Qed.

Lemma delete_two (i j : nat) (c1 c2 : Z) :
  i <> j -> delete j (delete i ({[i := c1; j := c2]} : gmap nat Z)) = ∅.
Proof.
  intros Hij. apply map_eq. intros k. rewrite lookup_empty, lookup_delete.
  case_decide as E; [done|]. rewrite lookup_delete. case_decide as E'; [done|].
  by rewrite lookup_insert_ne, lookup_singleton_ne by done.
Qed.

(** Copy the contents of a held buffer into another held one, write that one
    to the disk and release both. *)
Lemma copy_held b l i j ci cj (x : list Z) :
  bio_ok pid b -> i <> j -> held b = {[i := ci; j := cj]} -> view b ci = x ->
  wp nopanic (onbio (set_bdata j x);; onbio (bwrite pid j);;
              onbio (brelse pid i);; onbio (brelse pid j))
    (fun _ s' => exists b', s' = LState b' l /\ copied cj x b b') (LState b l).
Proof.
  intros Hb Hij Hh Hx.
  assert (held b !! j = Some cj) as Hj by by rewrite Hh, lookup_insert_ne, lookup_singleton_eq.
  assert (block_ok x) as Hxok by (rewrite <- Hx; by eapply view_ok).
  apply wp_bind, wp_onbio. eapply wp_post; [by apply (set_bdata_spec pid b j cj)|].
  intros [] b1 (Hb1 & Hh1 & (Hd1 & Hz1 & Hw1) & Hv1 & Hvn1 & Hs1 & Hp1).
  apply wp_bind, wp_onbio. eapply wp_post; [apply (bwrite_spec pid b1 j cj); [done|by rewrite Hh1]|].
  intros [] b2 (Hb2 & Hh2 & Hz2 & Hd2 & Hw2 & Hv2 & Hs2 & Hp2).
  apply wp_bind, wp_onbio. eapply wp_post; [apply (brelse_spec pid b2 i ci); [done|]|].
  { by rewrite Hh2, Hh1, Hh, lookup_insert_eq. }
  intros [] b3 (Hb3 & Hh3 & (Hd3 & Hz3 & Hw3) & Hv3 & Hs3 & Hp3).
  apply wp_onbio. eapply wp_post; [apply (brelse_spec pid b3 j cj); [done|]|].
  { by rewrite Hh3, Hh2, Hh1, lookup_delete_ne. }
  intros [] b4 (Hb4 & Hh4 & (Hd4 & Hz4 & Hw4) & Hv4 & Hs4 & Hp4).
  exists b4. split; [done|].
  assert (forall a, view b4 a = view b1 a) as Hv41 by (intros a; by rewrite Hv4, Hv3, Hv2).
  constructor; [done|..].
  - rewrite Hh4, Hh3, Hh2, Hh1, Hh. by apply delete_two.
  - congruence.
  - rewrite Hd4, Hd3, Hd2, Hd1. by rewrite Hv1.
  - rewrite Hw4, Hw3, Hw2, Hw1. by rewrite Hv1.
  - by rewrite Hv41.
  - intros a Ha _. by rewrite Hv41, Hvn1.
  - intros a. rewrite Hs4, Hs3. intros [Ha Hne]%Hs2. apply Hs1 in Ha. naive_solver.
  - intros a. rewrite Hp4, Hp3, Hp2, Hp1. done.
Qed.

Lemma copied_frame c x b1 b b' :
  (forall a, ~ soft b1 a -> view b a = view b1 a) -> same_disk b1 b ->
  (forall a, soft b a -> soft b1 a) -> (forall a, pinned b a <-> pinned b1 a) ->
  copied c x b b' -> copied c x b1 b'.
Proof.
  intros Hv (Hd & Hz & Hw) Hs Hp [C1 C2 C3 C4 C5 C6 C7 C8 C9]. constructor; try done.
  - congruence.
  - by rewrite C4, Hd.
  - by rewrite C5, Hw.
  - intros a Hne Ha. rewrite C7; [by apply Hv|done|]. intros Ha'. by apply Ha, Hs.
  - intros a [Ha Hne]%C8. split; [by apply Hs|done].
  - intros a. by rewrite C9, Hp.
Qed.

(** One iteration of [install_trans]: log block [cl] to home block [cd]. *)
Lemma install_step b l cl cd P :
  bio_ok pid b -> held b = ∅ -> cl <> cd ->
  0 <= cl < disksize b -> 0 <= cd < disksize b -> room_for b P cd -> ~ soft b cd ->
  wp nopanic
    (lbuf <- onbio (bread pid 1 cl);; dbuf <- onbio (bread pid 1 cd);;
     d <- gets (fun s => bdata lbuf (l_bio s));; onbio (set_bdata dbuf d);;
     onbio (bwrite pid dbuf);; onbio (brelse pid lbuf);; onbio (brelse pid dbuf))
    (fun _ s' => exists b', s' = LState b' l /\ copied cd (view b cl) b b') (LState b l).
Proof.
  intros Hb Hh Hne H1 H2 HP Hsf. apply wp_bind2.
  eapply wp_post; [by eapply bread2_spec|].
  intros [i j] s' (b1 & -> & Hb1 & Hij & Hh1 & Hd1 & Hvl & Hv1 & Hs1 & Hp1). wp_step. wp_step. cbn [l_bio].
  erewrite (held_bdata b1 i cl) by (try done; by rewrite Hh1, lookup_insert_eq). rewrite Hvl.
  eapply wp_post; [by apply (copy_held b1 l i j cl cd)|].
  intros [] s' (b' & -> & Hc). exists b'. split; [done|]. by eapply copied_frame.
Qed.

(** One iteration of [write_log]: cache block [cs] to log block [cl]. *)
Lemma write_log_step b l cl cs P :
  bio_ok pid b -> held b = ∅ -> cl <> cs ->
  0 <= cl < disksize b -> 0 <= cs < disksize b -> room_for b P cs -> ~ soft b cs ->
  wp nopanic
    (to <- onbio (bread pid 1 cl);; from <- onbio (bread pid 1 cs);;
     d <- gets (fun s => bdata from (l_bio s));; onbio (set_bdata to d);;
     onbio (bwrite pid to);; onbio (brelse pid from);; onbio (brelse pid to))
    (fun _ s' => exists b', s' = LState b' l /\ copied cl (view b cs) b b') (LState b l).
Proof.
  intros Hb Hh Hne H1 H2 HP Hsf. apply wp_bind2.
  eapply wp_post; [by eapply bread2_spec|].
  intros [i j] s' (b1 & -> & Hb1 & Hij & Hh1 & Hd1 & Hvl & Hv1 & Hs1 & Hp1). wp_step. wp_step. cbn [l_bio].
  assert (held b1 !! j = Some cs) as Hj by by rewrite Hh1, lookup_insert_ne, lookup_singleton_eq.
  erewrite (held_bdata b1 j cs) by done. rewrite Hv1 by done.
  eapply wp_post; [apply (copy_held b1 l j i cs cl); [done|done| |by apply Hv1]|].
  { rewrite Hh1. by apply insert_insert_ne. }
  intros [] s' (b' & -> & Hc). exists b'. split; [done|]. by eapply copied_frame.
Qed.

(** ** Logging a block *)

(** Setting [B_DIRTY] on a locked buffer pins its block. *)
Lemma pin_spec b i c x :
  bio_ok pid b -> held b !! i = Some c -> bufs b !! i = Some x ->
  let b' := setbuf i (Buf (b_valid x) true (b_dev x) (b_blockno x) (b_lock x) (b_refcnt x) (b_data x)) b in
  bio_ok pid b' /\ held b' = held b /\ same_disk b b' /\ (forall a, view b' a = view b a) /\
  (forall a, soft b' a -> soft b a /\ a <> c) /\ (forall a, pinned b' a <-> pinned b a \/ a = c).
Proof.
  intros Hb Hi Hx. destruct (held_buf pid b i c Hb Hi) as (x' & Hx' & Hd & Hc & Hl & Hv & Hr & Hrg & Hvw & Hok).
  rewrite Hx in Hx'. injection Hx' as <-. pose proof (lookup_lt_Some _ _ _ Hx) as Hlt.
  set (x1 := Buf _ _ _ _ _ _ _). intros b'.
  assert (bio_ok pid b') as Hb'.
  { apply setbuf_ok; [done| | |done].
    - constructor; cbn; try done; [by left|by rewrite Hl|by rewrite Hl|by rewrite Hc].
    - intros j y Hne Hj Hd1 _ Hbn. apply Hne. eapply (ok_uniq _ b Hb); [exact Hj|exact Hx|..]; done. }
  split; [done|]. split.
  { unfold b'. rewrite held_setbuf by done. cbn. rewrite Hl. cbn. rewrite Hc. by apply insert_id. }
  split; [done|]. split; [|split].
  - intros a. by apply (view_setbuf_same pid b i x).
  - intros a (j & y & [[-> ->]|[Hne Hj]]%lookup_setbuf & Hy); [by destruct Hy as (_ & _ & _ & Hy & _)| |done].
    destruct Hy as (Hdy & Hcy & Hy). split; [by exists j, y|]. intros ->. apply Hne.
    eapply (ok_uniq _ b Hb); [exact Hj|exact Hx|..]; congruence.
  - intros a. split.
    + intros (j & y & [[-> ->]|[Hne Hj]]%lookup_setbuf & Hy); [|left; by exists j, y|done].
      right. cbn in Hy. destruct Hy as (_ & <- & _). done.
    + intros [(j & y & Hj & Hy)| ->].
      * destruct (decide (i = j)) as [<-|Hne]; [|exists j, y; unfold b'; by rewrite lookup_setbuf_ne].
        exists i, x1. unfold b'. rewrite lookup_setbuf_eq by done. rewrite Hx in Hj.
        injection Hj as <-. naive_solver.
      * exists i, x1. unfold b'. by rewrite lookup_setbuf_eq by done.
Qed.

(** [log_write] adds the block to the transaction, once, and pins it. *)
Lemma log_write_spec b l i c :
  bio_ok pid b -> held b !! i = Some c ->
  Z.of_nat (length (l_lh l)) < LOGSIZE -> Z.of_nat (length (l_lh l)) < l_size l - 1 ->
  1 <= l_outstanding l ->
  wp nopanic (log_write i) (fun _ s' => exists b',
    s' = set_lh (add_lh c (l_lh l)) (LState b' l) /\
    bio_ok pid b' /\ held b' = held b /\ same_disk b b' /\ (forall a, view b' a = view b a) /\
    (forall a, soft b' a -> soft b a /\ a <> c) /\ (forall a, pinned b' a <-> pinned b a \/ a = c))
    (LState b l).
Proof.
  intros Hb Hi H1 H2 H3. destruct (held_buf pid b i c Hb Hi) as (x & Hx & _ & Hc & _).
  subst c. unfold log_write. wp_step. wp_step. cbn [l_log].
  destruct (_ || _) eqn:E; [apply orb_true_iff in E; lia|]. clear E.
  destruct (l_outstanding l <? 1) eqn:E; [apply Z.ltb_lt in E; lia|]. clear E.
  do 2 wp_step. cbn [l_bio]. rewrite (getbuf_lookup _ _ _ Hx). do 2 wp_step.
  unfold set_lh, set_log. cbn [l_log l_bio]. apply wp_onbio. wp_step. eexists. split.
  - unfold set_lh, set_log, add_lh. reflexivity.
  - by apply pin_spec.
Qed.
End log.
