(* ===== verification/Crash.v ===== *)
(** * Crash atomicity of the log ([kernel/log.c])

    A crash keeps a prefix of the block writes a run makes.  The theorems say
    what [initlog] makes of the disk a crash leaves: all of a committed
    transaction or nothing of it, also when recovery itself crashes any number
    of times. *)

From S2P Require Import Prelude Params Locks Bio Log.
Local Open Scope Z_scope.
Local Open Scope kmonad_scope.

(** ** Sequences of block writes *)

Definition apply_writes (d : gmap Z (list Z)) (ws : list (Z * list Z)) : gmap Z (list Z) :=
  foldl (fun d w => <[w.1 := w.2]> d) d ws.

(** Block contents [v] with the writes [ws] over them. *)
Fixpoint over (ws : list (Z * list Z)) (v : Z -> list Z) (a : Z) : list Z :=
  match ws with
  | [] => v a
  | w :: ws' => over ws' (fun a' => if decide (a' = w.1) then w.2 else v a') a
  end.

Lemma over_ext ws : forall v v' a, (forall b, v b = v' b) -> over ws v a = over ws v' a.
Proof.
  induction ws as [|w ws IH]; intros v v' a H; cbn [over]; [done|].
  apply IH. intros b. by rewrite H.
Qed.

Lemma over_notin ws : forall v a, a ∉ ws.*1 -> over ws v a = v a.
Proof.
  induction ws as [|w ws IH]; intros v a Ha; cbn [over]; [done|].
  rewrite fmap_cons, not_elem_of_cons in Ha. destruct Ha as [Hne Ha].
  rewrite IH by done. by rewrite decide_False.
Qed.

Lemma over_local ws : forall v v' a, (a ∉ ws.*1 -> v a = v' a) -> over ws v a = over ws v' a.
Proof.
  induction ws as [|w ws IH]; intros v v' a H; cbn [over]; [apply H; set_solver|].
  apply IH. intros Ha. case_decide; [done|]. apply H. rewrite fmap_cons. set_solver.
Qed.

Lemma over_app ws ws' v a : over (ws ++ ws') v a = over ws' (over ws v) a.
Proof.
  revert v. induction ws as [|w ws IH]; intros v; cbn [over app]; [by apply over_ext|].
  rewrite IH. done.
Qed.

Lemma over_in ws v k a x :
  NoDup ws.*1 -> ws !! k = Some (a, x) -> over ws v a = x.
Proof.
  revert v k. induction ws as [|w ws IH]; intros v k Hnd Hk; [done|].
  rewrite fmap_cons, NoDup_cons in Hnd. destruct Hnd as [Hn Hnd]. destruct k as [|k].
  - injection Hk as ->. cbn [over fst snd]. rewrite over_notin by done. by rewrite decide_True.
  - cbn [over]. by eapply IH.
Qed.

Lemma dblock_apply ws : forall d a, dblock (apply_writes d ws) a = over ws (dblock d) a.
Proof.
  induction ws as [|w ws IH]; intros d a; [done|].
  change (apply_writes d (w :: ws)) with (apply_writes (<[w.1 := w.2]> d) ws).
  rewrite IH. cbn [over]. apply over_ext. intros b. case_decide as E.
  - subst. apply dblock_insert_eq.
  - by apply dblock_insert_ne.
Qed.

Lemma apply_writes_app d ws ws' :
  apply_writes d (ws ++ ws') = apply_writes (apply_writes d ws) ws'.
Proof. apply foldl_app. Qed.

Lemma fst_take (ws : list (Z * list Z)) k a : a ∈ (take k ws).*1 -> a ∈ ws.*1.
Proof.
  intros Ha. rewrite <- (take_drop k ws), fmap_app. set_solver.
Qed.

Section crash.
Context (pid : Z).

(** The cache layer went from [b] to [b'] writing [ws]. *)
Record wrote (ws : list (Z * list Z)) (b b' : bio) : Prop := {
  wr_ok : bio_ok pid b';
  wr_held : held b' = ∅;
  wr_size : disksize b' = disksize b;
  wr_disk : disk b' = apply_writes (disk b) ws;
  wr_writes : writes b' = writes b ++ ws;
  wr_view a : ~ soft b a -> view b' a = over ws (view b) a;
  wr_soft a : soft b' a -> soft b a /\ a ∉ ws.*1;
  wr_pinned a : pinned b' a <-> pinned b a /\ a ∉ ws.*1
}.

Lemma wrote_nil b : bio_ok pid b -> held b = ∅ -> wrote [] b b.
Proof. intros Hb Hh. constructor; try done; [by rewrite app_nil_r|set_solver|set_solver]. Qed.

Lemma wrote_copied c x b b' : copied pid c x b b' -> wrote [(c, x)] b b'.
Proof.
  intros [C1 C2 C3 C4 C5 C6 C7 C8 C9]. constructor; try done.
  - intros a Ha. cbn [over fst snd]. case_decide; [by subst|by apply C7].
  - intros a [Ha Hne]%C8. split; [done|]. cbn. set_solver.
  - intros a. rewrite C9. cbn. set_solver.
Qed.

Lemma wrote_app ws ws' b1 b2 b3 :
  wrote ws b1 b2 -> wrote ws' b2 b3 -> wrote (ws ++ ws') b1 b3.
Proof.
  intros [A1 A2 A3 A4 A5 A6 A7 A8] [B1 B2 B3 B4 B5 B6 B7 B8]. constructor; try done.
  - congruence.
  - by rewrite B4, A4, apply_writes_app.
  - by rewrite B5, A5, app_assoc.
  - intros a Ha. rewrite over_app, B6; [|intros Hs; by apply Ha, A7].
    apply over_local. intros _. by apply A6.
  - intros a [[Ha Hn]%A7 Hn']%B7. rewrite fmap_app. set_solver.
  - intros a. rewrite B8, A8, fmap_app. set_solver.
Qed.

(** A loop each iteration of which makes one write. *)
Lemma each_wrote {X} (body : X -> M lstate unit) (xs : list X) ws b l :
  bio_ok pid b -> held b = ∅ -> length ws = length xs ->
  (forall k x w b1, xs !! k = Some x -> ws !! k = Some w -> wrote (take k ws) b b1 ->
     wp nopanic (body x) (fun _ s' => exists b2, s' = LState b2 l /\ wrote [w] b1 b2) (LState b1 l)) ->
  wp nopanic (each body xs) (fun _ s' => exists b', s' = LState b' l /\ wrote ws b b') (LState b l).
Proof.
  intros Hb Hh Hlen Hbody.
  apply (wp_each _ _ _ xs (fun k s' => exists b', s' = LState b' l /\ wrote (take k ws) b b')).
  - exists b. split; [done|]. by apply wrote_nil.
  - intros k x s' Hk (b1 & -> & Hw).
    destruct (lookup_lt_is_Some_2 ws k) as [w Hwk].
    { rewrite Hlen. by eapply lookup_lt_Some. }
    eapply wp_post; [by eapply Hbody|].
    intros [] s' (b2 & -> & Hw2). exists b2. split; [done|].
    rewrite (take_S_r ws k w) by done. by eapply wrote_app.
  - intros s' (b' & -> & Hw). exists b'. split; [done|].
    rewrite <- Hlen, firstn_all in Hw. done.
Qed.

(** ** The parts of [commit]

    The log's place on the disk, as [mkfs] lays it out: after the super block,
    inside the disk, with at most [LOGSIZE] blocks, header included. *)
Context (start size nb : Z).

Record geometry : Prop := {
  geo_start : 1 < start;
  geo_size : 1 <= size <= LOGSIZE;
  geo_end : start + size <= nb;
  geo_nb : nb <= 2 ^ 31
}.

Definition in_log (c : Z) : Prop := start <= c < start + size.

(** The blocks of a transaction. *)
Record lh_ok (lh : list Z) : Prop := {
  lh_nodup : NoDup lh;
  lh_len : Z.of_nat (length lh) < size;
  lh_home c : c ∈ lh -> 1 < c < nb /\ ~ in_log c
}.

Record log_is (l : logst) (lh : list Z) : Prop := {
  li_start : l_start l = start;
  li_size : l_size l = size;
  li_dev : l_dev l = 1;
  li_lh : l_lh l = lh
}.

Definition log_copies (v : Z -> list Z) (lh : list Z) : list (Z * list Z) :=
  imap (fun k c => (start + Z.of_nat k + 1, v c)) lh.
Definition home_copies (v : Z -> list Z) (lh : list Z) : list (Z * list Z) :=
  (fun c => (c, v c)) <$> lh.
Definition installs (v : Z -> list Z) (lh : list Z) : list (Z * list Z) :=
  imap (fun k c => (c, v (start + Z.of_nat k + 1))) lh.

Lemma log_copies_fst v lh a :
  a ∈ (log_copies v lh).*1 <-> start < a < start + 1 + Z.of_nat (length lh).
Proof.
  unfold log_copies. rewrite fmap_imap, list_elem_of_lookup. split.
  - intros [k Hk]. rewrite list_lookup_imap in Hk. apply fmap_Some in Hk as (c & Hc & ->).
    apply lookup_lt_Some in Hc. cbn. lia.
  - intros Ha. exists (Z.to_nat (a - start - 1)). rewrite list_lookup_imap.
    destruct (lookup_lt_is_Some_2 lh (Z.to_nat (a - start - 1))) as [c Hc]; [lia|].
    rewrite Hc. cbn. f_equal. lia.
Qed.

Lemma NoDup_log_copies v lh : NoDup (log_copies v lh).*1.
Proof.
  unfold log_copies. rewrite fmap_imap. apply NoDup_alt. intros i j x.
  rewrite !list_lookup_imap. destruct (lh !! i), (lh !! j); cbn; [|done..]. intros [= ?] [= ?]. lia.
Qed.

Lemma installs_fst v lh : (installs v lh).*1 = lh.
Proof.
  unfold installs. rewrite fmap_imap. apply list_eq. intros k. rewrite list_lookup_imap.
  by destruct (lh !! k).
Qed.

Lemma home_copies_fst v lh : (home_copies v lh).*1 = lh.
Proof.
  unfold home_copies. rewrite <- list_fmap_compose. apply list_fmap_id.
Qed.

Context (geo : geometry).

Lemma in_log_slot lh k :
  lh_ok lh -> (k < length lh)%nat -> in_log (start + Z.of_nat k + 1) /\ start + Z.of_nat k + 1 <> start.
Proof. intros Hlh Hk. pose proof (lh_len _ Hlh). unfold in_log. lia. Qed.

Lemma in_log_range c : in_log c -> 1 < c < nb.
Proof. destruct geo. unfold in_log. lia. Qed.

Lemma lh_len_nbuf lh : lh_ok lh -> (length lh < Z.to_nat NBUF)%nat.
Proof. intros Hlh. pose proof (lh_len _ Hlh). pose proof (geo_size geo). plia. Qed.

Lemma lookup_imap_pair {A} (xs : list A) k p :
  imap pair xs !! k = Some p -> exists x, xs !! k = Some x /\ p = (k, x).
Proof. rewrite list_lookup_imap. intros (x & Hx & ->)%fmap_Some. by exists x. Qed.

(** [write_log] copies every block of the transaction, as the cache has it,
    to its place in the log. *)
Lemma write_log_spec b l lh :
  bio_ok pid b -> held b = ∅ -> disksize b = nb -> log_is l lh -> lh_ok lh ->
  (forall a, pinned b a <-> a ∈ lh) ->
  wp nopanic (write_log pid)
    (fun _ s' => exists b', s' = LState b' l /\ wrote (log_copies (view b) lh) b b') (LState b l).
Proof.
  intros Hb Hh Hnb Hl Hlh Hp. unfold write_log. wp_step. wp_step. cbn [l_log].
  rewrite (li_start _ _ Hl), (li_dev _ _ Hl), (li_lh _ _ Hl).
  apply each_wrote; [done|done|unfold log_copies; by rewrite !length_imap|].
  intros k x w b1 (c & Hc & ->)%lookup_imap_pair Hw Hw1.
  unfold log_copies in Hw. rewrite list_lookup_imap, Hc in Hw. injection Hw as <-.
  destruct (in_log_slot lh k Hlh) as [Hin _]; [by eapply lookup_lt_Some|].
  assert (c ∈ lh) as Hcin by by eapply list_elem_of_lookup_2.
  destruct (lh_home _ Hlh c Hcin) as [Hcr Hcl]. pose proof (in_log_range _ Hin).
  assert (c ∉ (take k (log_copies (view b) lh)).*1) as Hnc.
  { intros Hx%fst_take%log_copies_fst. pose proof (lh_len _ Hlh).
    apply Hcl. unfold in_log. lia. }
  assert (forall a, pinned b1 a -> a ∈ lh) as Hp1 by (intros a [?%Hp _]%(wr_pinned _ _ _ Hw1); done).
  assert (pinned b1 c) as Hpc by (apply (wr_pinned _ _ _ Hw1); split; [by apply Hp|done]).
  eapply wp_post; [apply (write_log_step pid b1 l _ c lh)|].
  - apply Hw1.
  - apply Hw1.
  - intros <-. by apply Hcl.
  - rewrite (wr_size _ _ _ Hw1), Hnb. lia.
  - rewrite (wr_size _ _ _ Hw1), Hnb. lia.
  - split; [done|]. split; [by apply lh_len_nbuf|]. by left.
  - apply (pinned_not_soft pid); [apply Hw1|done].
  - intros [] s' (b2 & -> & Hc2). exists b2. split; [done|]. apply wrote_copied.
    rewrite (wr_view _ _ _ Hw1), over_notin in Hc2; [done|done|].
    eapply (pinned_not_soft pid); [done|]. by apply Hp.
Qed.

(** [write_head] writes the header block. *)
Lemma write_head_spec b l lh P :
  bio_ok pid b -> held b = ∅ -> disksize b = nb -> log_is l lh ->
  (length lh < 128)%nat ->
  (forall a, pinned b a -> a ∈ P) -> (length P < Z.to_nat NBUF)%nat ->
  wp nopanic (write_head pid)
    (fun _ s' => exists b', s' = LState b' l /\
       wrote [(start, encode_head (view b start) lh)] b b') (LState b l).
Proof.
  intros Hb Hh Hnb Hl Hlh HP Hroom. destruct geo as [G1 G2 G3 G4].
  unfold write_head. wp_step. wp_step. cbn [l_log].
  rewrite (li_start _ _ Hl), (li_dev _ _ Hl), (li_lh _ _ Hl).
  wp_step. apply wp_onbio. eapply wp_post; [apply (bread_room pid b start P); [done|..]|].
  { intros i. by rewrite Hh, lookup_empty. }
  { lia. }
  { done. }
  { right. rewrite Hh, map_size_empty. lia. }
  intros i b1 (Hb1 & Hi & Hh1 & Hd1 & Hv1 & Hs1 & Hp1). wp_step. wp_step. cbn [l_bio].
  assert (held b1 !! i = Some start) as Hi1 by by rewrite Hh1, lookup_insert_eq.
  rewrite (held_bdata pid b1 i start) by done. rewrite (Hv1 start) by by right; right.
  set (x := encode_head _ _).
  assert (block_ok x) as Hx by (apply encode_head_ok; [by eapply view_ok|done]).
  wp_step. apply wp_onbio. eapply wp_post; [by apply (set_bdata_spec pid b1 i start)|].
  intros [] b2 (Hb2 & Hh2 & (Hd2 & Hz2 & Hw2) & Hv2 & Hvn2 & Hs2 & Hp2).
  wp_step. apply wp_onbio. eapply wp_post; [apply (bwrite_spec pid b2 i start); [done|by rewrite Hh2]|].
  intros [] b3 (Hb3 & Hh3 & Hz3 & Hd3 & Hw3 & Hv3 & Hs3 & Hp3).
  apply wp_onbio. eapply wp_post; [apply (brelse_spec pid b3 i start); [done|]|].
  { by rewrite Hh3, Hh2. }
  intros [] b4 (Hb4 & Hh4 & (Hd4 & Hz4 & Hw4) & Hv4 & Hs4 & Hp4).
  exists b4. split; [done|]. apply wrote_copied. destruct Hd1 as (Hd1 & Hz1 & Hw1).
  rewrite Hv2 in Hd3, Hw3. constructor; [done|..].
  - rewrite Hh4, Hh3, Hh2, Hh1, delete_insert_id; [done|]. by rewrite Hh.
  - congruence.
  - by rewrite Hd4, Hd3, Hd2, Hd1.
  - by rewrite Hw4, Hw3, Hw2, Hw1.
  - by rewrite Hv4, Hv3.
  - intros a Hne Ha. rewrite Hv4, Hv3, Hvn2 by done. apply Hv1. by left.
  - intros a. rewrite Hs4. intros [[Ha|Ha]%Hs2 Hne]%Hs3; [|done]. split; [by apply Hs1|done].
  - intros a. by rewrite Hp4, Hp3, Hp2, Hp1.
Qed.

(** [install_trans] copies every log block to its home. *)
Lemma install_trans_spec b l lh P :
  bio_ok pid b -> held b = ∅ -> disksize b = nb -> log_is l lh -> lh_ok lh ->
  (forall a, pinned b a -> a ∈ P) -> (length P < Z.to_nat NBUF)%nat ->
  (forall c, c ∈ lh -> pinned b c) \/ (length P + 1 < Z.to_nat NBUF)%nat ->
  (forall c, c ∈ lh \/ in_log c -> ~ soft b c) ->
  wp nopanic (install_trans pid)
    (fun _ s' => exists b', s' = LState b' l /\ wrote (installs (view b) lh) b b') (LState b l).
Proof.
  intros Hb Hh Hnb Hl Hlh HP Hroom Hroom2 Hsoft. unfold install_trans. wp_step. wp_step. cbn [l_log].
  rewrite (li_start _ _ Hl), (li_dev _ _ Hl), (li_lh _ _ Hl).
  apply each_wrote; [done|done|unfold installs; by rewrite !length_imap|].
  intros k x w b1 (c & Hc & ->)%lookup_imap_pair Hw Hw1.
  unfold installs in Hw. rewrite list_lookup_imap, Hc in Hw. injection Hw as <-.
  destruct (in_log_slot lh k Hlh) as [Hin _]; [by eapply lookup_lt_Some|].
  assert (c ∈ lh) as Hcin by by eapply list_elem_of_lookup_2.
  destruct (lh_home _ Hlh c Hcin) as [Hcr Hcl]. pose proof (in_log_range _ Hin).
  assert ((take k (installs (view b) lh)).*1 = take k lh) as Htk.
  { by rewrite fmap_take, installs_fst. }
  assert (c ∉ take k lh) as Hnc.
  { intros (j & Hj)%list_elem_of_lookup. apply lookup_take_Some in Hj as [Hj Hjk].
    assert (j = k); [|lia]. by eapply NoDup_lookup; [apply Hlh|..]. }
  eapply wp_post; [apply (install_step pid b1 l _ c P)|].
  - apply Hw1.
  - apply Hw1.
  - intros <-. by apply Hcl.
  - rewrite (wr_size _ _ _ Hw1), Hnb. lia.
  - rewrite (wr_size _ _ _ Hw1), Hnb. lia.
  - split; [intros a [?%HP _]%(wr_pinned _ _ _ Hw1); done|]. split; [done|].
    destruct Hroom2 as [Hpc|]; [left|by right].
    apply (wr_pinned _ _ _ Hw1). split; [by apply Hpc|]. by rewrite Htk.
  - intros [Hs _]%(wr_soft _ _ _ Hw1). revert Hs. apply Hsoft. by left.
  - intros [] s' (b2 & -> & Hc2). exists b2. split; [done|]. apply wrote_copied.
    rewrite (wr_view _ _ _ Hw1), over_notin in Hc2; [done| |by apply Hsoft; right].
    intros Hx. apply fst_take in Hx. rewrite installs_fst in Hx.
    by apply (lh_home _ Hlh) in Hx as [_ Hx].
Qed.

(** ** [commit]

    The state between operations: the pinned blocks are those of the
    transaction, and the header on the disk is empty. *)
Record log_ok (s : lstate) (lh : list Z) : Prop := {
  lo_bio : bio_ok pid (l_bio s);
  lo_held : held (l_bio s) = ∅;
  lo_size : disksize (l_bio s) = nb;
  lo_log : log_is (l_log s) lh;
  lo_lh : lh_ok lh;
  lo_pinned a : pinned (l_bio s) a <-> a ∈ lh;
  lo_soft a : in_log a -> ~ soft (l_bio s) a;
  lo_head : decode_head (dblock (disk (l_bio s)) start) = [];
  lo_sb : sb_logstart (decode_sb (dblock (disk (l_bio s)) 1)) = start /\
          sb_nlog (decode_sb (dblock (disk (l_bio s)) 1)) = size
}.

(** The writes of a commit: the log, the header (the commit point), the home
    locations, the empty header. *)
Definition commit_writes (v : Z -> list Z) (lh : list Z) : list (Z * list Z) :=
  log_copies v lh ++ [(start, encode_head (v start) lh)] ++
  home_copies v lh ++ [(start, encode_head (encode_head (v start) lh) [])].

Lemma lh_soft s lh c : log_ok s lh -> c ∈ lh -> ~ soft (l_bio s) c.
Proof. intros Hs Hc. eapply (pinned_not_soft pid); [apply Hs|]. by apply Hs. Qed.

Lemma lh_len_128 lh : lh_ok lh -> (length lh < 128)%nat.
Proof. intros Hlh. pose proof (lh_len _ Hlh). pose proof (geo_size geo). plia. Qed.

Lemma lh_ok_nil : lh_ok [].
Proof. constructor; [constructor|pose proof (geo_size geo); cbn; lia|]. intros c ?. set_solver. Qed.

Lemma over_log_copies v lh w k c :
  lh !! k = Some c -> over (log_copies v lh) w (start + Z.of_nat k + 1) = v c.
Proof.
  intros Hk. apply (over_in _ _ k); [apply NoDup_log_copies|].
  unfold log_copies. by rewrite list_lookup_imap, Hk.
Qed.

Lemma head_not_slot v lh : start ∉ (log_copies v lh).*1.
Proof. rewrite log_copies_fst. lia. Qed.

Lemma home_not_in_log v lh c : lh_ok lh -> in_log c -> c ∉ (home_copies v lh).*1.
Proof. intros Hlh Hc. rewrite home_copies_fst. intros ?%(lh_home _ Hlh). naive_solver. Qed.

Lemma in_log_start : in_log start.
Proof. pose proof (geo_size geo). unfold in_log. lia. Qed.

(** The first two phases put the transaction into the log. *)
Lemma installs_after_log v u w lh :
  lh_ok lh ->
  (forall a, in_log a -> w a = over (log_copies v lh ++ [(start, encode_head (v start) lh)]) u a) ->
  installs w lh = home_copies v lh.
Proof.
  intros Hlh Hw. apply list_eq. intros k. unfold installs, home_copies.
  rewrite list_lookup_imap, list_lookup_fmap. destruct (lh !! k) as [c|] eqn:Hk; [|done]. cbn.
  destruct (in_log_slot lh k Hlh) as [Hin Hne]; [by eapply lookup_lt_Some|].
  do 2 f_equal. rewrite Hw, over_app, over_notin by (done || cbn; set_solver).
  by apply over_log_copies.
Qed.

Definition writes_of_commit (v : Z -> list Z) (lh : list Z) : list (Z * list Z) :=
  if decide (lh = []) then [] else commit_writes v lh.

(** Up to the commit point. *)
Lemma commit_log_phase b l lh :
  log_ok (LState b l) lh ->
  wp nopanic (write_log pid;; write_head pid) (fun _ s' => exists b', s' = LState b' l /\
    wrote (log_copies (view b) lh ++ [(start, encode_head (view b start) lh)]) b b') (LState b l).
Proof.
  intros Hs. pose proof (lo_lh _ _ Hs) as Hlh. pose proof (lo_pinned _ _ Hs) as Hp.
  cbn [l_bio] in *.
  wp_step. eapply wp_post; [by apply (write_log_spec b l lh); try apply Hs|].
  intros [] s' (b1 & -> & W1).
  eapply wp_post; [apply (write_head_spec b1 l lh lh); try apply W1; try apply Hs|].
  { rewrite (wr_size _ _ _ W1). apply Hs. }
  { by apply lh_len_128. }
  { intros a [?%Hp _]%(wr_pinned _ _ _ W1). done. }
  { by apply lh_len_nbuf. }
  intros [] s' (b2 & -> & W2). exists b2. split; [done|].
  rewrite (wr_view _ _ _ W1), over_notin in W2;
    [|apply head_not_slot|apply (lo_soft _ _ Hs), in_log_start].
  by eapply wrote_app.
Qed.

(** After the commit point. *)
Lemma commit_install_phase b b2 l lh :
  log_ok (LState b l) lh ->
  wrote (log_copies (view b) lh ++ [(start, encode_head (view b start) lh)]) b b2 ->
  wp nopanic (install_trans pid) (fun _ s' => exists b', s' = LState b' l /\
    wrote (home_copies (view b) lh) b2 b') (LState b2 l).
Proof.
  intros Hs W12. pose proof (lo_lh _ _ Hs) as Hlh. pose proof (lo_pinned _ _ Hs) as Hp.
  cbn [l_bio] in *.
  eapply wp_post; [apply (install_trans_spec b2 l lh lh); try apply W12; try apply Hs|].
  { rewrite (wr_size _ _ _ W12). apply Hs. }
  { intros a [?%Hp _]%(wr_pinned _ _ _ W12). done. }
  { by apply lh_len_nbuf. }
  { left. intros c Hc. apply (wr_pinned _ _ _ W12). split; [by apply Hp|].
    rewrite fmap_app, elem_of_app, log_copies_fst. cbn. rewrite list_elem_of_singleton.
    destruct (lh_home _ Hlh c Hc) as [_ Hn]. pose proof (lh_len _ Hlh). unfold in_log in Hn. lia. }
  { intros c Hc [Hsf _]%(wr_soft _ _ _ W12). destruct Hc as [Hc|Hc].
    - by eapply lh_soft.
    - by apply (lo_soft _ _ Hs) in Hsf. }
  intros [] s' (b3 & -> & W3). exists b3. split; [done|].
  rewrite (installs_after_log (view b) (view b)) in W3; [done|done|].
  intros a Ha. apply (wr_view _ _ _ W12). by apply (lo_soft _ _ Hs).
Qed.

Lemma log_is_set_lh s lh lh' : log_is (l_log s) lh -> log_is (l_log (set_lh lh' s)) lh'.
Proof. by intros []. Qed.

Lemma commit_spec s lh :
  log_ok s lh ->
  wp nopanic (commit pid) (fun _ s' =>
    l_log s' = l_log (set_lh [] s) /\
    wrote (writes_of_commit (view (l_bio s)) lh) (l_bio s) (l_bio s')) s.
Proof.
  destruct s as [b l]. intros Hs. pose proof (lo_lh _ _ Hs) as Hlh.
  pose proof (lo_log _ _ Hs) as Hl. pose proof (lo_pinned _ _ Hs) as Hp. cbn [l_bio l_log] in *.
  unfold commit, writes_of_commit. wp_step. wp_step. cbn [l_log]. rewrite (li_lh _ _ Hl).
  case_decide as Hnil.
  { subst lh. change (0 <? Z.of_nat (length (@nil Z))) with false. cbv iota. wp_step.
    split; [|apply wrote_nil; apply Hs].
    pose proof (li_lh _ _ Hl) as El. destruct l. cbn in El. by rewrite El. }
  destruct (0 <? Z.of_nat (length lh)) eqn:Hlt; [|apply Z.ltb_ge in Hlt; destruct lh; [done|cbn [length] in Hlt; lia]].
  apply wp_bind_assoc. wp_step. eapply wp_post; [by apply commit_log_phase|].
  intros [] s' (b2 & -> & W12).
  wp_step. eapply wp_post; [by apply (commit_install_phase b)|].
  intros [] s' (b3 & -> & W3). pose proof (wrote_app _ _ _ _ _ W12 W3) as W123.
  wp_step. wp_step.
  eapply wp_post; [apply (write_head_spec b3 _ [] lh); try apply W3|].
  { rewrite (wr_size _ _ _ W123). apply Hs. }
  { by eapply (log_is_set_lh (LState b l)). }
  { cbn. lia. }
  { intros a [?%Hp _]%(wr_pinned _ _ _ W123). done. }
  { by apply lh_len_nbuf. }
  intros [] s' (b4 & -> & W4). split; [done|]. cbn [l_bio].
  rewrite (wr_view _ _ _ W123) in W4 by apply (lo_soft _ _ Hs), in_log_start.
  rewrite !over_app, (over_notin (home_copies _ _)) in W4 by (apply home_not_in_log; [done|apply in_log_start]).
  rewrite over_app in W4. cbn [over fst snd] in W4. rewrite decide_True in W4 by done.
  unfold commit_writes. pose proof (wrote_app _ _ _ _ _ W123 W4) as W. by rewrite <- !app_assoc in W.
Qed.

(** ** Recovery *)

(** What the disk [d] amounts to: its blocks with the committed transaction,
    if there is one, installed. *)
Definition replay (d : gmap Z (list Z)) : Z -> list Z :=
  over (installs (dblock d) (decode_head (dblock d start))) (dblock d).

(** A disk the log can be recovered from. *)
Record disk_ok (d : gmap Z (list Z)) : Prop := {
  do_blocks c x : d !! c = Some x -> block_ok x;
  do_sb : sb_logstart (decode_sb (dblock d 1)) = start /\ sb_nlog (decode_sb (dblock d 1)) = size;
  do_lh : lh_ok (decode_head (dblock d start))
}.

Definition recovery_writes (d : gmap Z (list Z)) : list (Z * list Z) :=
  installs (dblock d) (decode_head (dblock d start)) ++ [(start, encode_head (dblock d start) [])].

(** The kernel's state when it has just booted on disk [d]. *)
Definition boot (d : gmap Z (list Z)) : lstate := LState (binit d nb) (Log 0 0 0 false 0 []).

Lemma wrote_same b b1 :
  bio_ok pid b1 -> held b1 = ∅ -> same_disk b b1 ->
  (forall a, ~ soft b a -> view b1 a = view b a) ->
  (forall a, soft b1 a -> soft b a) -> (forall a, pinned b1 a <-> pinned b a) ->
  wrote [] b b1.
Proof.
  intros Hb Hh (Hd & Hz & Hw) Hv Hs Hp. constructor; try done.
  - by rewrite Hw, app_nil_r.
  - set_solver.
  - intros a. rewrite Hp. set_solver.
Qed.

(** Reading one block and releasing it. *)
Lemma bread_brelse b c P :
  bio_ok pid b -> held b = ∅ -> 0 <= c < disksize b ->
  (forall a, pinned b a -> a ∈ P) -> (length P < Z.to_nat NBUF)%nat ->
  wp nopanic (bread pid 1 c) (fun i b1 => bdata i b1 = view b c /\
    wp nopanic (brelse pid i) (fun _ b2 => wrote [] b b2) b1) b.
Proof.
  intros Hb Hh Hc HP Hroom. eapply wp_post; [apply (bread_room pid b c P); try done|].
  { intros i. by rewrite Hh, lookup_empty. }
  { right. rewrite Hh, map_size_empty. lia. }
  intros i b1 (Hb1 & Hi & Hh1 & (Hd1 & Hz1 & Hw1) & Hv1 & Hs1 & Hp1).
  assert (held b1 !! i = Some c) as Hi1 by by rewrite Hh1, lookup_insert_eq.
  split; [rewrite (held_bdata pid b1 i c) by done; apply Hv1; by right; right|].
  eapply wp_post; [by apply (brelse_spec pid b1 i c)|].
  intros [] b2 (Hb2 & Hh2 & (Hd2 & Hz2 & Hw2) & Hv2 & Hs2 & Hp2).
  apply wrote_same; [done|..].
  - rewrite Hh2, Hh1, delete_insert_id; [done|]. by rewrite Hh.
  - split_and!; congruence.
  - intros a Ha. rewrite Hv2. apply Hv1. by left.
  - intros a. rewrite Hs2. apply Hs1.
  - intros a. by rewrite Hp2, Hp1.
Qed.

Lemma readsb_spec b P :
  bio_ok pid b -> held b = ∅ -> 1 < disksize b ->
  (forall a, pinned b a -> a ∈ P) -> (length P < Z.to_nat NBUF)%nat ->
  wp nopanic (readsb pid 1) (fun sb b' => sb = decode_sb (view b 1) /\ wrote [] b b') b.
Proof.
  intros Hb Hh Hc HP Hroom. unfold readsb. wp_step.
  eapply wp_post; [apply (bread_brelse b 1 P); try done; lia|].
  intros i b1 [Hd Hr]. do 3 wp_step. eapply wp_post; [exact Hr|].
  intros [] b2 W. wp_step. by rewrite Hd.
Qed.

Lemma read_head_spec b l P lh :
  bio_ok pid b -> held b = ∅ -> disksize b = nb -> log_is l lh ->
  (forall a, pinned b a -> a ∈ P) -> (length P < Z.to_nat NBUF)%nat ->
  wp nopanic (read_head pid) (fun _ s' => exists b', wrote [] b b' /\
    s' = set_lh (decode_head (view b start)) (LState b' l)) (LState b l).
Proof.
  intros Hb Hh Hnb Hl HP Hroom. unfold read_head. do 2 wp_step. cbn [l_log].
  rewrite (li_start _ _ Hl), (li_dev _ _ Hl). wp_step. apply wp_onbio.
  eapply wp_post; [apply (bread_brelse b start P); try done; destruct geo; lia|].
  intros i b1 [Hd Hr]. do 4 wp_step. cbn [l_bio]. rewrite Hd.
  apply wp_onbio. eapply wp_post; [exact Hr|]. intros [] b2 W. by exists b2.
Qed.

Lemma view_boot d ws b a : wrote ws (binit d nb) b -> view b a = over ws (dblock d) a.
Proof.
  intros W. rewrite (wr_view _ _ _ W) by apply binit_not_soft.
  apply over_local. intros _. apply binit_view.
Qed.

Lemma installs_ext v w lh : lh_ok lh -> (forall a, in_log a -> v a = w a) -> installs v lh = installs w lh.
Proof.
  intros Hlh Hv. apply list_eq. intros k. unfold installs. rewrite !list_lookup_imap.
  destruct (lh !! k) eqn:Hk; [|done]. cbn. do 2 f_equal. apply Hv.
  by apply (in_log_slot lh k Hlh); eapply lookup_lt_Some.
Qed.

(** Booting on a disk installs the committed transaction and clears the log. *)
Lemma initlog_spec d :
  disk_ok d ->
  wp nopanic (initlog pid 1) (fun _ s' =>
    l_log s' = Log start size 0 false 1 [] /\ wrote (recovery_writes d) (binit d nb) (l_bio s'))
    (boot d).
Proof.
  intros [Hd [Hs1 Hs2] Hlh]. destruct geo as [G1 G2 G3 G4]. set (lh := decode_head _) in *.
  assert (forall ws b a, wrote ws (binit d nb) b -> pinned b a -> a ∈ @nil Z) as Hnp.
  { intros ws b a W [Hp _]%(wr_pinned _ _ _ W). by apply binit_not_pinned in Hp. }
  unfold initlog, boot. wp_step. apply wp_onbio. eapply wp_post; [apply (readsb_spec _ [])|].
  { by apply binit_ok. } { apply binit_held. } { cbn; lia. }
  { intros a ?%binit_not_pinned. done. } { cbn. plia. }
  intros sb b1 [-> W1]. rewrite binit_view. wp_step. wp_step. cbn [l_log l_outstanding l_committing l_lh set_log l_bio].
  rewrite Hs1, Hs2. set (l1 := Log _ _ _ _ _ _). unfold recover_from_log.
  wp_step. eapply wp_post; [apply (read_head_spec b1 l1 [] []); try apply W1|].
  { by constructor. } { intros a. by eapply Hnp. } { cbn. plia. }
  intros [] s' (b2 & W2 & ->). rewrite (view_boot d [] b1) by done. cbn [over]. fold lh.
  pose proof (wrote_app _ _ _ _ _ W1 W2) as W12. cbn [app] in W12.
  wp_step. unfold set_lh, set_log. cbn [l_bio l_log l_start l_size l_outstanding l_committing l_dev].
  eapply wp_post; [apply (install_trans_spec b2 _ lh []); try apply W2|].
  { apply W12. } { by constructor. } { done. } { intros a. by eapply Hnp. }
  { cbn. plia. } { right. cbn. plia. }
  { intros c _ [Hsf _]%(wr_soft _ _ _ W12). by apply binit_not_soft in Hsf. }
  intros [] s' (b3 & -> & W3). pose proof (wrote_app _ _ _ _ _ W12 W3) as W123. cbn [app] in W123.
  rewrite (installs_ext _ (dblock d) lh Hlh) in W3, W123 by (intros a _; by rewrite (view_boot d [] b2)).
  do 2 wp_step. unfold set_lh, set_log. cbn [l_bio l_log l_start l_size l_outstanding l_committing l_dev].
  eapply wp_post; [apply (write_head_spec b3 _ [] []); try apply W3|].
  { apply W123. } { by constructor. } { cbn. lia. } { intros a. by eapply Hnp. }
  { cbn. plia. }
  intros [] s' (b4 & -> & W4). split; [done|]. cbn [l_bio].
  rewrite (view_boot _ _ _ _ W123) in W4. rewrite over_notin in W4.
  { unfold recovery_writes. by eapply wrote_app. }
  rewrite installs_fst. intros [_ Hx]%(lh_home _ Hlh). by apply Hx, in_log_start.
Qed.

(** ** Crashes *)

(** The disk after the first [k] of the writes. *)
Definition crash (d : gmap Z (list Z)) (ws : list (Z * list Z)) (k : nat) : gmap Z (list Z) :=
  apply_writes d (take k ws).

Lemma dblock_crash d ws k a : dblock (crash d ws k) a = over (take k ws) (dblock d) a.
Proof. apply dblock_apply. Qed.

Definition writes_ok (ws : list (Z * list Z)) : Prop := Forall (fun w => 1 < w.1 /\ block_ok w.2) ws.

Lemma crash_disk_ok d ws k :
  (forall c x, d !! c = Some x -> block_ok x) ->
  sb_logstart (decode_sb (dblock d 1)) = start /\ sb_nlog (decode_sb (dblock d 1)) = size ->
  writes_ok ws -> lh_ok (decode_head (dblock (crash d ws k) start)) -> disk_ok (crash d ws k).
Proof.
  intros Hd Hsb Hws Hlh. apply (Forall_take _ k) in Hws. unfold crash in *.
  constructor; [| |done].
  - clear Hsb Hlh. revert d Hd. induction Hws as [|w ws' [_ Hw] _ IH]; intros d Hd; [done|].
    apply IH. intros c x. rewrite lookup_insert_Some. naive_solver.
  - rewrite dblock_apply, over_notin; [done|].
    intros (w & Hw & Hin)%list_elem_of_fmap. rewrite Forall_forall in Hws.
    apply Hws in Hin as [Hin _]. lia.
Qed.

(** The header block as the writes of a commit or a recovery leave it. *)
Lemma decode_empty_head x : block_ok x -> decode_head (encode_head x []) = [].
Proof. intros Hx. apply decode_encode_head; [done|cbn; lia|done]. Qed.

Lemma decode_full_head x lh : block_ok x -> lh_ok lh -> decode_head (encode_head x lh) = lh.
Proof.
  intros Hx Hlh. apply decode_encode_head; [done|by apply lh_len_128|].
  apply Forall_forall. intros c Hc. apply (lh_home _ Hlh) in Hc as [Hc _]. destruct geo. lia.
Qed.

Lemma replay_empty d a : decode_head (dblock d start) = [] -> replay d a = dblock d a.
Proof. intros H. unfold replay. by rewrite H. Qed.

Lemma over_idem ws ws' v a : (forall c, c ∈ ws'.*1 -> c ∈ ws.*1) -> over ws (over ws' v) a = over ws v a.
Proof. intros H. apply over_local. intros Ha. apply over_notin. intros ?. by apply Ha, H. Qed.

Lemma take_snoc_cases {A} (l : list A) x k :
  (take k (l ++ [x]) = take k l) \/ (length l < k /\ take k (l ++ [x]) = l ++ [x])%nat.
Proof.
  destruct (decide (length l < k)%nat).
  - right. split; [done|]. apply take_ge. rewrite length_app. cbn. lia.
  - left. apply take_app_le. lia.
Qed.

(** Recovery may itself crash: what the disk amounts to does not change. *)
Lemma recovery_crash d k :
  disk_ok d ->
  disk_ok (crash d (recovery_writes d) k) /\
  forall a, ~ in_log a -> replay (crash d (recovery_writes d) k) a = replay d a.
Proof.
  intros [Hd Hsb Hlh]. set (lh := decode_head (dblock d start)) in *.
  set (d' := crash d (recovery_writes d) k).
  assert (forall c, block_ok (dblock d c)) as Hbk.
  { intros c. unfold dblock. destruct (d !! c) eqn:E; [by eapply Hd|apply zero_block_ok]. }
  assert (forall j a, in_log a -> a ∉ (take j (installs (dblock d) lh)).*1) as Hout.
  { intros j a Ha Hin%fst_take. rewrite installs_fst in Hin. by apply (lh_home _ Hlh) in Hin as [_ Hn]. }
  assert (writes_ok (recovery_writes d)) as Hws.
  { apply Forall_app. split; [|apply Forall_singleton; split; [apply geo|by apply encode_head_ok; [|cbn; lia]]].
    apply Forall_lookup. intros i w. unfold installs. fold lh. rewrite list_lookup_imap.
    intros (c & Hc%list_elem_of_lookup_2 & ->)%fmap_Some. split; [|apply Hbk]. by apply (lh_home _ Hlh). }
  assert (forall a, dblock d' a = over (take k (recovery_writes d)) (dblock d) a) as Hd'
    by apply dblock_crash.
  unfold recovery_writes in Hd'. fold lh in Hd'.
  destruct (take_snoc_cases (installs (dblock d) lh) (start, encode_head (dblock d start) []) k)
    as [E|[_ E]]; rewrite E in Hd'.
  - assert (decode_head (dblock d' start) = lh) as Hh.
    { rewrite Hd', over_notin; [done|]. apply Hout, in_log_start. }
    split; [apply crash_disk_ok; try done; by fold d'; rewrite Hh|]. intros a Ha. unfold replay. rewrite Hh.
    rewrite (installs_ext _ (dblock d)); [|done|intros c Hc; by rewrite Hd', over_notin by by apply Hout].
    fold lh. rewrite (over_ext _ _ (over (take k (installs (dblock d) lh)) (dblock d))) by exact Hd'.
    apply over_idem. intros c. apply fst_take.
  - assert (decode_head (dblock d' start) = []) as Hh.
    { rewrite Hd', over_app. cbn [over fst snd]. rewrite decide_True by done. by apply decode_empty_head. }
    split; [apply crash_disk_ok; try done; fold d'; rewrite Hh; apply lh_ok_nil|].
    intros a Ha. rewrite replay_empty by done. rewrite Hd', over_app. cbn [over fst snd].
    rewrite decide_False; [done|]. intros ->. by apply Ha, in_log_start.
Qed.

(** The disk contents a transaction on [lh] asks for. *)
Definition committed (s : lstate) (lh : list Z) : Z -> list Z :=
  over (home_copies (view (l_bio s)) lh) (dblock (disk (l_bio s))).

Lemma commit_writes_ok s lh : log_ok s lh -> writes_ok (writes_of_commit (view (l_bio s)) lh).
Proof.
  intros Hs. pose proof (lo_lh _ _ Hs) as Hlh. unfold writes_of_commit. case_decide; [constructor|].
  assert (forall c, block_ok (view (l_bio s) c)) as Hv by (intros c; apply (view_ok pid), (lo_bio _ _ Hs)).
  assert (block_ok (encode_head (view (l_bio s) start) lh)) as Hh
    by (apply encode_head_ok; [done|by apply lh_len_128]).
  unfold commit_writes. repeat apply Forall_app_2.
  - apply Forall_lookup. intros i w Hw. split.
    + assert (w.1 ∈ (log_copies (view (l_bio s)) lh).*1) as Hin
        by by eapply list_elem_of_fmap_2, list_elem_of_lookup_2.
      apply log_copies_fst in Hin. pose proof (geo_start geo). lia.
    + unfold log_copies in Hw. rewrite list_lookup_imap in Hw.
      apply fmap_Some in Hw as (c & _ & ->). apply Hv.
  - apply Forall_singleton. split; [apply geo|done].
  - apply Forall_fmap, Forall_forall. intros c Hc. split; [by apply (lh_home _ Hlh)|apply Hv].
  - apply Forall_singleton. split; [apply geo|]. by apply encode_head_ok; [|cbn; lia].
Qed.

(** A prefix of the writes of a commit. *)
Lemma take_commit_writes v lh k :
  ((k <= length lh)%nat /\ take k (commit_writes v lh) = take k (log_copies v lh)) \/
  ((length lh < k)%nat /\ exists j, take k (commit_writes v lh) =
     (log_copies v lh ++ [(start, encode_head (v start) lh)]) ++ take j (home_copies v lh)) \/
  ((length lh < k)%nat /\ take k (commit_writes v lh) = commit_writes v lh).
Proof.
  assert (length (log_copies v lh) = length lh) as Hl by by (unfold log_copies; rewrite length_imap).
  unfold commit_writes. rewrite (app_assoc (log_copies v lh)). set (A := log_copies v lh ++ _).
  assert (length A = S (length lh)) as HA by (unfold A; rewrite length_app, Hl; cbn; lia).
  destruct (decide (k <= length lh)%nat); [left|right].
  - split; [done|]. unfold A. rewrite <- app_assoc. apply take_app_le. lia.
  - rewrite take_app_ge by lia. rewrite HA.
    destruct (take_snoc_cases (home_copies v lh) (start, encode_head (encode_head (v start) lh) [])
                (k - S (length lh))) as [->|[_ ->]]; [left|by right; split; [lia|]].
    split; [lia|]. eauto.
Qed.

(** The transaction is in the log. *)
Lemma replay_committed s lh ws d a :
  log_ok s lh -> ~ in_log a -> (forall c, c ∈ ws.*1 -> c ∈ lh) ->
  (forall c, dblock d c = over ((log_copies (view (l_bio s)) lh ++
     [(start, encode_head (view (l_bio s) start) lh)]) ++ ws) (dblock (disk (l_bio s))) c) ->
  decode_head (dblock d start) = lh /\ replay d a = committed s lh a.
Proof.
  intros Hs Ha Hws Hd. pose proof (lo_lh _ _ Hs) as Hlh.
  assert (forall c, in_log c -> c ∉ ws.*1) as Hout.
  { intros c Hc ?%Hws. by apply (lh_home _ Hlh) in H as [_ Hn]. }
  assert (decode_head (dblock d start) = lh) as Hh.
  { rewrite Hd, over_app, over_notin by apply Hout, in_log_start.
    rewrite over_app. cbn [over fst snd]. rewrite decide_True by done.
    apply decode_full_head; [|done]. apply (view_ok pid), (lo_bio _ _ Hs). }
  split; [done|]. unfold replay, committed. rewrite Hh, (installs_after_log (view (l_bio s)) (dblock (disk (l_bio s)))); [|done|].
  - apply over_local. rewrite home_copies_fst. intros Hna. rewrite Hd, over_notin; [done|].
    rewrite !fmap_app, !not_elem_of_app, log_copies_fst. cbn. rewrite list_elem_of_singleton.
    pose proof (lh_len _ Hlh). unfold in_log in Ha. split; [lia|]. intros ?%Hws. done.
  - intros c Hc. by rewrite Hd, over_app, over_notin by by apply Hout.
Qed.

(** A crash during a commit: nothing of the transaction before the commit
    point, all of it from there on. *)
Lemma commit_crash s lh k :
  log_ok s lh ->
  let d' := crash (disk (l_bio s)) (writes_of_commit (view (l_bio s)) lh) k in
  disk_ok d' /\
  forall a, ~ in_log a ->
    replay d' a = if decide (k <= length lh)%nat then dblock (disk (l_bio s)) a else committed s lh a.
Proof.
  intros Hs d'. pose proof (lo_lh _ _ Hs) as Hlh. set (d := disk (l_bio s)) in *.
  assert (lh_ok (decode_head (dblock d' start)) -> disk_ok d') as Hok.
  { apply crash_disk_ok; [apply (ok_disk _ _ (lo_bio _ _ Hs))|apply Hs|by apply commit_writes_ok]. }
  assert (forall a, dblock d' a = over (take k (writes_of_commit (view (l_bio s)) lh)) (dblock d) a) as Hd'
    by apply dblock_crash.
  unfold writes_of_commit in Hd'. case_decide as Hnil.
  { rewrite take_nil in Hd'. cbn [over] in Hd'. pose proof (lo_head _ _ Hs) as Hh. fold d in Hh.
    rewrite <- Hd' in Hh. split; [apply Hok; rewrite Hh; apply lh_ok_nil|].
    intros a Ha. rewrite replay_empty, Hd' by done. subst lh. by case_decide. }
  destruct (take_commit_writes (view (l_bio s)) lh k) as [[Hk E]|[[Hk [j E]]|[Hk E]]]; rewrite E in Hd'.
  - assert (decode_head (dblock d' start) = []) as Hh.
    { rewrite Hd', over_notin; [apply Hs|]. intros Hx%fst_take. by apply head_not_slot in Hx. }
    split; [apply Hok; rewrite Hh; apply lh_ok_nil|].
    intros a Ha. rewrite replay_empty, Hd', decide_True by done. apply over_notin.
    intros Hx%fst_take%log_copies_fst. pose proof (lh_len _ Hlh). apply Ha. unfold in_log. lia.
  - assert (forall c, c ∈ (take j (home_copies (view (l_bio s)) lh)).*1 -> c ∈ lh) as Hws.
    { intros c Hc%fst_take. by rewrite home_copies_fst in Hc. }
    assert (decode_head (dblock d' start) = lh) as Hh.
    { eapply (replay_committed s lh _ d' 1 Hs); [|exact Hws|exact Hd'].
      pose proof (geo_start geo). unfold in_log. lia. }
    split; [apply Hok; by rewrite Hh|]. intros a Ha. rewrite decide_False by lia.
    by eapply (replay_committed s lh _ d' a).
  - assert (decode_head (dblock d' start) = []) as Hh.
    { rewrite Hd'. unfold commit_writes. rewrite !over_app. cbn [over fst snd]. rewrite decide_True by done.
      apply decode_empty_head, encode_head_ok; [apply (view_ok pid), (lo_bio _ _ Hs)|by apply lh_len_128]. }
    split; [apply Hok; rewrite Hh; apply lh_ok_nil|].
    intros a Ha. rewrite replay_empty, Hd', decide_False by (done || lia).
    unfold commit_writes, committed. rewrite !over_app.
    assert (a <> start) by (intros ->; by apply Ha, in_log_start). cbn [over fst snd].
    rewrite decide_False by done. apply over_local. intros _. rewrite decide_False by done.
    apply over_notin. rewrite log_copies_fst. pose proof (lh_len _ Hlh). unfold in_log in Ha. lia.
Qed.

(** ** Transactions

    A client of the log in the shape [log.c] documents: read a block, change
    it, [log_write] it and release it, for each of its blocks, between
    [begin_op] and [end_op]. *)
Definition txn_write (w : Z * list Z) : M lstate unit :=
  i <- onbio (bread pid 1 w.1);;
  onbio (set_bdata i w.2);;
  log_write i;;
  onbio (brelse pid i).

Definition transaction (ws : list (Z * list Z)) : M lstate unit :=
  begin_op;;
  each txn_write ws;;
  end_op pid.

Definition home (w : Z * list Z) : Prop := 1 < w.1 < nb /\ ~ in_log w.1 /\ block_ok w.2.

Lemma add_lh_ok c lh :
  lh_ok lh -> 1 < c < nb -> ~ in_log c -> Z.of_nat (length lh) < size - 1 -> lh_ok (add_lh c lh).
Proof.
  intros [H1 H2 H3] Hc Hn Hl. constructor.
  - unfold add_lh. case_decide; [done|]. apply NoDup_app. split; [done|].
    split; [set_solver|apply NoDup_singleton].
  - unfold add_lh. case_decide; [done|]. rewrite length_app. cbn [length]. lia.
  - intros a [?| ->]%elem_of_add_lh; [by apply H3|done].
Qed.

(** One write of a transaction: the cache shows it, the disk does not change. *)
Lemma txn_write_spec s lh w :
  log_ok s lh -> home w -> Z.of_nat (length lh) < size - 1 -> 1 <= l_outstanding (l_log s) ->
  wp nopanic (txn_write w) (fun _ s' =>
    log_ok s' (add_lh w.1 lh) /\ same_disk (l_bio s) (l_bio s') /\
    l_log s' = l_log (set_lh (add_lh w.1 lh) s) /\
    view (l_bio s') w.1 = w.2 /\
    (forall a, a <> w.1 -> ~ soft (l_bio s) a -> view (l_bio s') a = view (l_bio s) a) /\
    (forall a, soft (l_bio s') a -> soft (l_bio s) a)) s.
Proof.
  destruct s as [b l], w as [c x]. cbn [fst snd l_log l_bio]. intros Hs (Hc & Hn & Hx) Hlen Hout.
  pose proof (lo_log _ _ Hs) as Hl. pose proof (lo_lh _ _ Hs) as Hlh. pose proof (lo_pinned _ _ Hs) as Hp.
  pose proof (lo_held _ _ Hs) as Hh. pose proof (lo_size _ _ Hs) as Hnb. cbn [l_bio l_log fst snd] in *. unfold txn_write. cbn [fst snd].
  wp_step. apply wp_onbio. eapply wp_post; [apply (bread_room pid b c lh)|].
  { apply Hs. } { intros i. by rewrite Hh, lookup_empty. } { rewrite Hnb. lia. }
  { apply Hp. } { right. rewrite Hh, map_size_empty. pose proof (lh_len_nbuf _ Hlh). lia. }
  intros i b1 (Hb1 & Hi & Hh1 & (Hd1 & Hz1 & Hw1) & Hv1 & Hs1 & Hp1).
  wp_step. apply wp_onbio. eapply wp_post; [apply (set_bdata_spec pid b1 i c); [done| |done]|].
  { by rewrite Hh1, lookup_insert_eq. }
  intros [] b2 (Hb2 & Hh2 & (Hd2 & Hz2 & Hw2) & Hv2 & Hvn2 & Hs2 & Hp2).
  wp_step. eapply wp_post; [apply (log_write_spec pid b2 l i c); [done|..]|].
  { by rewrite Hh2, Hh1, lookup_insert_eq. } { rewrite (li_lh _ _ Hl). destruct geo. lia. }
  { by rewrite (li_lh _ _ Hl), (li_size _ _ Hl). } { done. }
  intros [] s' (b3 & -> & Hb3 & Hh3 & (Hd3 & Hz3 & Hw3) & Hv3 & Hs3 & Hp3).
  rewrite (li_lh _ _ Hl). unfold set_lh at 1, set_log at 1. cbn [l_bio l_log].
  apply wp_onbio. eapply wp_post; [apply (brelse_spec pid b3 i c); [done|]|].
  { by rewrite Hh3, Hh2, Hh1, lookup_insert_eq. }
  intros [] b4 (Hb4 & Hh4 & (Hd4 & Hz4 & Hw4) & Hv4 & Hs4 & Hp4). cbn [l_bio l_log].
  assert (disk b4 = disk b) as Hdd by congruence.
  split; [constructor; cbn [l_bio l_log]|split; [split_and!; congruence|split; [done|split; [|split]]]].
  - done.
  - rewrite Hh4, Hh3, Hh2, Hh1, delete_insert_id; [done|]. by rewrite Hh.
  - congruence.
  - by eapply (log_is_set_lh (LState b l)).
  - by apply add_lh_ok.
  - intros a. by rewrite Hp4, Hp3, Hp2, Hp1, Hp, elem_of_add_lh.
  - intros a Ha. rewrite Hs4. intros [[Hsa%Hs1|Hsa]%Hs2 Hne]%Hs3; [|done].
    by apply (lo_soft _ _ Hs) in Hsa.
  - rewrite Hdd. apply Hs.
  - rewrite Hdd. apply Hs.
  - by rewrite Hv4, Hv3.
  - intros a Hne Ha. rewrite Hv4, Hv3, Hvn2 by done. apply Hv1. by left.
  - intros a. rewrite Hs4. intros [[Ha|Ha]%Hs2 Hne]%Hs3; [by apply Hs1|done].
Qed.

Lemma txn_writes_spec ws : forall s lh,
  log_ok s lh -> Forall home ws -> Z.of_nat (length lh + length ws) < size ->
  1 <= l_outstanding (l_log s) ->
  wp nopanic (each txn_write ws) (fun _ s' => exists lh',
    log_ok s' lh' /\ same_disk (l_bio s) (l_bio s') /\ l_log s' = l_log (set_lh lh' s) /\
    (forall a, a ∈ lh' <-> a ∈ lh \/ a ∈ ws.*1) /\
    (forall a, a ∈ ws.*1 \/ ~ soft (l_bio s) a -> view (l_bio s') a = over ws (view (l_bio s)) a)) s.
Proof.
  induction ws as [|w ws IH]; intros s lh Hs Hws Hlen Hout; cbn [each].
  { wp_step. exists lh. split; [done|]. split; [done|]. split; [|split; [|done]].
    - pose proof (li_lh _ _ (lo_log _ _ Hs)) as El. destruct s as [b []]. cbn in *. by rewrite El.
    - intros a. cbn. rewrite elem_of_nil. tauto. }
  apply Forall_cons in Hws as [Hw Hws]. cbn [length] in Hlen.
  wp_step. eapply wp_post; [apply (txn_write_spec s lh w); [done|done|lia|done]|].
  intros [] s1 (Hs1 & (Hd1 & Hz1 & Hw1) & Hl1 & Hv1 & Hvn1 & Hsf1).
  assert (length (add_lh w.1 lh) <= S (length lh))%nat.
  { unfold add_lh. case_decide; [lia|]. rewrite length_app. cbn. lia. }
  eapply wp_post; [apply (IH s1 _ Hs1 Hws); [lia|by rewrite Hl1]|].
  intros [] s2 (lh2 & Hs2 & (Hd2 & Hz2 & Hw2) & Hl2 & Hin & Hv2). exists lh2.
  split; [done|]. split; [split_and!; congruence|]. split.
  { rewrite Hl2. unfold set_lh, set_log. cbn [l_log]. by rewrite Hl1. }
  split; [intros a; rewrite Hin, elem_of_add_lh, fmap_cons, elem_of_cons; tauto|].
  intros a Ha. cbn [over]. rewrite fmap_cons, elem_of_cons in Ha.
  destruct (decide (a ∈ ws.*1)) as [Hin2|Hnin].
  - rewrite Hv2 by by left. by apply over_local.
  - destruct (decide (a = w.1)) as [->|Hne].
    + rewrite Hv2, !over_notin, decide_True; try done. right.
      eapply lh_soft; [done|]. apply elem_of_add_lh. by right.
    + assert (~ soft (l_bio s) a) as Hsa by tauto. rewrite Hv2 by (right; intros ?%Hsf1; done).
      rewrite !over_notin, decide_False by done. by apply Hvn1.
Qed.

(** No operation is in progress and the log is empty. *)
Definition idle (s : lstate) : Prop :=
  log_ok s [] /\ l_outstanding (l_log s) = 0 /\ l_committing (l_log s) = false.

Lemma set_log_ok b l l' lh :
  log_ok (LState b l) lh -> l_start l' = l_start l -> l_size l' = l_size l -> l_dev l' = l_dev l ->
  l_lh l' = l_lh l -> log_ok (LState b l') lh.
Proof.
  intros [A1 A2 A3 [] A5 A6 A7 A8 A9] E1 E2 E3 E4. cbn [l_bio l_log] in *.
  constructor; try done. constructor; cbn [l_log]; congruence.
Qed.

(** A commit leaves the log empty. *)
Lemma committed_log_ok s s' lh :
  log_ok s lh -> l_log s' = l_log (set_lh [] s) ->
  wrote (writes_of_commit (view (l_bio s)) lh) (l_bio s) (l_bio s') -> log_ok s' [].
Proof.
  intros Hs Hl W. pose proof (commit_writes_ok s lh Hs) as Hok.
  destruct (commit_crash s lh (length (writes_of_commit (view (l_bio s)) lh)) Hs) as [[D1 D2 D3] _].
  assert (forall a, a ∈ lh -> a ∈ (writes_of_commit (view (l_bio s)) lh).*1) as Hin.
  { intros a Ha. unfold writes_of_commit. case_decide; [by subst|].
    unfold commit_writes. rewrite !fmap_app, home_copies_fst, !elem_of_app. tauto. }
  constructor; try apply W.
  - rewrite (wr_size _ _ _ W). apply Hs.
  - rewrite Hl. eapply log_is_set_lh, Hs.
  - apply lh_ok_nil.
  - intros a. rewrite (wr_pinned _ _ _ W), (lo_pinned _ _ Hs), elem_of_nil. naive_solver.
  - intros a Ha [Hsf _]%(wr_soft _ _ _ W). by apply (lo_soft _ _ Hs) in Hsf.
  - rewrite (wr_disk _ _ _ W). unfold writes_of_commit. case_decide; [apply Hs|].
    unfold commit_writes. rewrite dblock_apply, !app_assoc, over_app. cbn [over fst snd].
    rewrite decide_True by done. apply decode_empty_head, encode_head_ok.
    + apply (view_ok pid), (lo_bio _ _ Hs).
    + apply lh_len_128, Hs.
  - unfold crash in D2. rewrite firstn_all in D2. by rewrite (wr_disk _ _ _ W).
Qed.

(** A transaction on an idle log: the writes it makes are those of the commit
    of some state that shows the client's writes over the disk. *)
Lemma transaction_spec s ws :
  idle s -> Forall home ws -> Z.of_nat (length ws) < size ->
  wp nopanic (transaction ws) (fun _ s' => exists s1 lh,
    log_ok s1 lh /\ same_disk (l_bio s) (l_bio s1) /\ length lh = length (remove_dups ws.*1) /\
    wrote (writes_of_commit (view (l_bio s1)) lh) (l_bio s1) (l_bio s') /\ idle s' /\
    forall a, committed s1 lh a = over ws (dblock (disk (l_bio s))) a) s.
Proof.
  intros (Hs & Ho & Hc) Hws Hlen. destruct s as [b l]. pose proof (lo_log _ _ Hs) as Hl.
  cbn [l_log l_bio] in *.
  unfold transaction, begin_op. do 3 wp_step. cbn [l_log]. rewrite Hc, Ho.
  rewrite (li_lh _ _ Hl).
  destruct (LOGSIZE <? _) eqn:E; [exfalso; revert E; by vm_compute|]. clear E. wp_step.
  wp_step. eapply wp_post; [apply (txn_writes_spec ws _ [])|].
  { by eapply set_log_ok. } { done. } { done. } { done. }
  intros [] s1 (lh & Hs1 & Hd & Hl1 & Hin & Hv). unfold end_op. do 4 wp_step.
  destruct s1 as [b1 l1]. cbn [l_log l_bio set_lh set_log set_outstanding l_outstanding l_committing] in *.
  subst l1. cbn [l_committing l_outstanding]. rewrite Hc. change (0 + 1 - 1) with 0. rewrite Z.eqb_refl.
  do 3 wp_step. set (s2 := set_committing _ _).
  assert (log_ok s2 lh) as Hs2 by by eapply set_log_ok.
  eapply wp_post; [by apply (commit_spec s2 lh)|]. intros [] s3 (Hl3 & W). wp_step.
  exists s2, lh. split; [done|]. split; [done|]. split.
  { apply Permutation_length, NoDup_Permutation; [apply Hs1|apply NoDup_remove_dups|].
    intros a. rewrite Hin, elem_of_remove_dups, elem_of_nil. tauto. }
  split; [done|]. split.
  { destruct s3 as [b3 l3]. cbn [l_log] in Hl3. split; [|by subst l3].
    eapply set_log_ok; [by eapply (committed_log_ok s2 (LState b3 l3) lh)|..]; done. }
  intros a. unfold committed. destruct Hd as (Hd & _). cbn [l_bio] in Hd |- *.
  change (l_bio s2) with b1. rewrite Hd.
  destruct (decide (a ∈ ws.*1)) as [Ha|Ha].
  - assert (a ∈ lh) as (i & Hi)%list_elem_of_lookup by (apply Hin; by right).
    rewrite (over_in _ _ i a (view b1 a)).
    + rewrite Hv by by left. by apply over_local.
    + rewrite home_copies_fst. apply Hs1.
    + unfold home_copies. by rewrite list_lookup_fmap, Hi.
  - rewrite !over_notin; [done|done|]. rewrite home_copies_fst, Hin, elem_of_nil. tauto.
Qed.

(** ** Atomicity *)

(** The block writes of a run that returns. *)
Definition outcome_writes {A} (s : lstate) (o : outcome lstate A) : list (Z * list Z) :=
  match o with
  | Ret _ s' => drop (length (writes (l_bio s))) (writes (l_bio s'))
  | _ => []
  end.

(** The disk when the machine crashes after [k] block writes of a transaction;
    and of the boot that follows on disk [d]. *)
Definition crash_txn (s : lstate) (ws : list (Z * list Z)) (k : nat) : gmap Z (list Z) :=
  crash (disk (l_bio s)) (outcome_writes s (transaction ws s)) k.
Definition crash_boot (d : gmap Z (list Z)) (k : nat) : gmap Z (list Z) :=
  crash d (outcome_writes (boot d) (initlog pid 1 (boot d))) k.

Lemma wrote_new_writes ws b b' : wrote ws b b' -> drop (length (writes b)) (writes b') = ws.
Proof. intros W. rewrite (wr_writes _ _ _ W). apply drop_app_length. Qed.

Lemma crash_boot_replay d k :
  disk_ok d ->
  disk_ok (crash_boot d k) /\ forall a, ~ in_log a -> replay (crash_boot d k) a = replay d a.
Proof.
  intros Hd. destruct (wp_nopanic_run _ _ _ (initlog_spec d Hd)) as ([] & s' & E & _ & W).
  unfold crash_boot. rewrite E. cbn [outcome_writes]. change (l_bio (boot d)) with (binit d nb).
  rewrite (wrote_new_writes _ _ _ W). by apply recovery_crash.
Qed.

Lemma crash_boots_replay ks : forall d,
  disk_ok d ->
  disk_ok (foldl crash_boot d ks) /\
  forall a, ~ in_log a -> replay (foldl crash_boot d ks) a = replay d a.
Proof.
  induction ks as [|k ks IH]; intros d Hd; cbn [foldl]; [done|].
  destruct (crash_boot_replay d k Hd) as [Hd' E]. destruct (IH _ Hd') as [Hd'' E'].
  split; [done|]. intros a Ha. by rewrite E', E.
Qed.

(** A boot that is left to finish. *)
Lemma boot_replay d :
  disk_ok d ->
  exists s', initlog pid 1 (boot d) = Ret tt s' /\ idle s' /\
    forall a, ~ in_log a -> dblock (disk (l_bio s')) a = replay d a.
Proof.
  intros Hd. destruct (wp_nopanic_run _ _ _ (initlog_spec d Hd)) as ([] & s' & E & El & W).
  exists s'. split; [done|].
  assert (disk (l_bio s') = crash d (recovery_writes d) (length (recovery_writes d))) as Ed.
  { unfold crash. by rewrite firstn_all, (wr_disk _ _ _ W). }
  destruct (recovery_crash d (length (recovery_writes d)) Hd) as [[D1 D2 D3] Er].
  rewrite <- Ed in D1, D2, D3, Er.
  assert (decode_head (dblock (disk (l_bio s')) start) = []) as Hh.
  { rewrite (wr_disk _ _ _ W), dblock_apply. unfold recovery_writes. rewrite over_app.
    cbn [over fst snd]. rewrite decide_True by done. apply decode_empty_head.
    unfold dblock. destruct (d !! start) eqn:Es; [by eapply (do_blocks d Hd)|apply zero_block_ok]. }
  split.
  - rewrite Hh in D3. split; [|by rewrite El]. constructor; try apply W; try done.
    + by rewrite El.
    + intros a. rewrite (wr_pinned _ _ _ W), elem_of_nil. split; [|done].
      by intros [?%binit_not_pinned _].
    + intros a _ [?%binit_not_soft _]%(wr_soft _ _ _ W). done.
  - intros a Ha. rewrite <- Er, replay_empty by done. done.
Qed.

Lemma boot_clean d s' : disk_ok d -> initlog pid 1 (boot d) = Ret tt s' -> forall a, ~ soft (l_bio s') a.
Proof.
  intros Hd E a Ha. destruct (wp_nopanic_run _ _ _ (initlog_spec d Hd)) as ([] & s1 & E' & _ & W).
  rewrite E in E'. injection E' as <-. apply (wr_soft _ _ _ W) in Ha as [Ha _]. by apply binit_not_soft in Ha.
Qed.

(** C1: transactions are atomic and durable across crashes.  A client changes
    blocks between [begin_op] and [end_op]; the machine stops after any number
    [k] of block writes; the boots that follow stop after any numbers [ks] of
    theirs; then [initlog] is left to finish.  Outside the log area, the disk
    is the old one if the crash came before the header of the commit was
    written, and the old one with all the client's writes otherwise, and the
    log is ready for the next transaction. *)
Theorem transaction_crash_atomic s ws k ks :
  idle s -> Forall home ws -> Z.of_nat (length ws) < size ->
  exists s', initlog pid 1 (boot (foldl crash_boot (crash_txn s ws k) ks)) = Ret tt s' /\
    idle s' /\
    forall a, ~ in_log a -> dblock (disk (l_bio s')) a =
      if decide (k <= length (remove_dups ws.*1))%nat
      then dblock (disk (l_bio s)) a else over ws (dblock (disk (l_bio s))) a.
Proof.
  intros Hs Hws Hlen.
  destruct (wp_nopanic_run _ _ _ (transaction_spec s ws Hs Hws Hlen))
    as ([] & s2 & E & s1 & lh & Hs1 & (Hd & _ & Hw) & Hl & W & _ & Hc).
  unfold crash_txn. rewrite E. cbn [outcome_writes]. rewrite <- Hw, (wrote_new_writes _ _ _ W), <- Hd.
  destruct (commit_crash s1 lh k Hs1) as [Hok Hr].
  destruct (crash_boots_replay ks _ Hok) as [Hok' Hr'].
  destruct (boot_replay _ Hok') as (s' & Es' & Hi & Hd').
  exists s'. split; [done|]. split; [done|]. intros a Ha.
  rewrite Hd', Hr', Hr, Hl by done.
  destruct (decide (k <= length (remove_dups ws.*1))%nat); [done|]. by rewrite Hc, Hd.
Qed.

(** C30: a transaction that is not interrupted returns, without a panic and
    without blocking, and its writes are on the disk. *)
Theorem transaction_durable s ws :
  idle s -> Forall home ws -> Z.of_nat (length ws) < size ->
  exists s', transaction ws s = Ret tt s' /\ idle s' /\
    forall a, ~ in_log a -> dblock (disk (l_bio s')) a = over ws (dblock (disk (l_bio s))) a.
Proof.
  intros Hs Hws Hlen.
  destruct (wp_nopanic_run _ _ _ (transaction_spec s ws Hs Hws Hlen))
    as ([] & s2 & E & s1 & lh & Hs1 & (Hd & _ & Hw) & Hl & W & Hi & Hc).
  exists s2. split; [done|]. split; [done|]. intros a Ha.
  destruct (commit_crash s1 lh (length (writes_of_commit (view (l_bio s1)) lh)) Hs1) as [_ Hr].
  assert (decode_head (dblock (disk (l_bio s2)) start) = []) as Hh by apply Hi.
  rewrite <- Hc. unfold crash in Hr. rewrite firstn_all, <- (wr_disk _ _ _ W) in Hr.
  rewrite <- (replay_empty _ _ Hh), Hr by done. case_decide as Hk; [|done].
  unfold writes_of_commit in Hk. case_decide as Hnil; [by subst lh|].
  unfold commit_writes in Hk. rewrite !length_app in Hk. cbn in Hk.
  unfold log_copies in Hk. rewrite length_imap in Hk. lia.
Qed.
End crash.

(** ** A concrete disk: 100 blocks, the log in blocks 2 to 31 *)

Definition sample_disk : gmap Z (list Z) :=
  {[1 := write_words zero_block 0 [100; 60; 200; 30; 2; 32; 58]]}.

Lemma sample_geometry : geometry 2 30 100.
Proof. constructor; plia. Qed.

Lemma sample_disk_ok : disk_ok 2 30 100 sample_disk.
Proof.
  constructor.
  - unfold sample_disk. intros c x [<- <-]%lookup_singleton_Some. split; [by vm_compute|].
    apply bytes_write_words, zero_block_ok.
  - by vm_compute.
  - replace (decode_head (dblock sample_disk 2)) with (@nil Z) by by vm_compute.
    by apply lh_ok_nil, sample_geometry.
Qed.

Definition sample_writes : list (Z * list Z) := [(50, replicate 512 1); (51, replicate 512 2)].

Lemma sample_home : Forall (home 2 30 100) sample_writes.
Proof.
  repeat constructor; cbn [fst snd]; unfold in_log; try lia.
  all: apply Forall_replicate; unfold is_byte; lia.
Qed.

(** Two blocks; crashes after 4 writes of the commit, 1 of the first recovery
    and 2 of the second: both blocks are there. *)
Lemma transaction_crash_atomic_witness :
  exists s s', initlog 7 1 (boot 100 sample_disk) = Ret tt s /\
    initlog 7 1 (boot 100 (foldl (crash_boot 7 100) (crash_txn 7 s sample_writes 4) [1; 2]%nat)) = Ret tt s' /\
    dblock (disk (l_bio s')) 50 = replicate 512 1 /\ dblock (disk (l_bio s')) 51 = replicate 512 2.
Proof.
  destruct (boot_replay 7 2 30 100 sample_geometry sample_disk sample_disk_ok) as (s & E & Hs & _).
  destruct (transaction_crash_atomic 7 2 30 100 sample_geometry s sample_writes 4 [1; 2]%nat Hs sample_home)
    as (s' & E' & _ & Hd); [by vm_compute|].
  exists s, s'. split; [done|]. split; [done|].
  split; rewrite Hd by (unfold in_log; lia); rewrite decide_False by (vm_compute; lia); reflexivity.
Defined.

Lemma transaction_durable_witness :
  exists s s', initlog 7 1 (boot 100 sample_disk) = Ret tt s /\
    transaction 7 sample_writes s = Ret tt s' /\ dblock (disk (l_bio s')) 51 = replicate 512 2.
Proof.
  destruct (boot_replay 7 2 30 100 sample_geometry sample_disk sample_disk_ok) as (s & E & Hs & _).
  destruct (transaction_durable 7 2 30 100 sample_geometry s sample_writes Hs sample_home)
    as (s' & E' & _ & Hd); [by vm_compute|].
  exists s, s'. split; [done|]. split; [done|]. rewrite Hd by (unfold in_log; lia). reflexivity.
Defined.
