(* ===== verification/Reserve.v ===== *)
(** * Log space reservation ([begin_op], [end_op] and [log_write])

    Several file system operations are in progress at once; each step of each
    of them is a call into [log.c], in any order.  [begin_op] admits an
    operation only if the log has room for [MAXOPBLOCKS] blocks of every
    admitted operation; the theorems say for which operations that keeps
    [log_write] from running out of log. *)

From S2P Require Import Prelude Params Locks Bio Log Crash.
Local Open Scope Z_scope.
Local Open Scope kmonad_scope.

(** A step of some process: enter an operation, log a block in operation
    number [k] of those in progress, leave it. *)
Inductive fsev :=
| EBegin
| EWrite (k : nat) (w : Z * list Z)
| EEnd (k : nat).

Section reserve.
Context (pid : Z).

(** [ops] has the distinct blocks each operation in progress has logged;
    [budget] bounds their number.  A [begin_op] that sleeps leaves the state
    unchanged, and a step of an operation that does not exist, or that would go
    over its budget, is no step. *)
Fixpoint run_trace (budget : nat) (es : list fsev) (ops : list (list Z)) : M lstate unit :=
  match es with
  | [] => ret tt
  | EBegin :: es' => fun s =>
      match begin_op s with
      | Ret _ s' => run_trace budget es' (ops ++ [[]]) s'
      | Block _ => run_trace budget es' ops s
      | Panic msg => Panic msg
      end
  | EWrite k w :: es' =>
      match ops !! k with
      | Some us =>
          if decide (length (add_lh w.1 us) <= budget)%nat
          then txn_write pid w;; run_trace budget es' (<[k := add_lh w.1 us]> ops)
          else run_trace budget es' ops
      | None => run_trace budget es' ops
      end
  | EEnd k :: es' =>
      match ops !! k with
      | Some _ => end_op pid;; run_trace budget es' (delete k ops)
      | None => run_trace budget es' ops
      end
  end.

Context (start nb : Z).
Context (geo : geometry start LOGSIZE nb).

Definition fsev_ok (e : fsev) : Prop :=
  match e with EWrite _ w => home start LOGSIZE nb w | _ => True end.

(** Blocks an operation may still log. *)
Definition left (us : list Z) : nat := Z.to_nat (MAXOPBLOCKS - 1) - length us.

Record reserved (s : lstate) (ops : list (list Z)) (lh : list Z) : Prop := {
  rs_log : log_ok pid start LOGSIZE nb s lh;
  rs_out : l_outstanding (l_log s) = Z.of_nat (length ops);
  rs_com : l_committing (l_log s) = false;
  rs_idle : ops = [] -> lh = [];
  rs_ops us a : us ∈ ops -> a ∈ us -> a ∈ lh;
  rs_room : (length lh + sum_list_with left ops <= Z.to_nat LOGSIZE - 2)%nat
}.

Lemma sum_list_with_perm {A} (f : A -> nat) l l' : l ≡ₚ l' -> sum_list_with f l = sum_list_with f l'.
Proof. induction 1; simpl; lia. Qed.

Lemma sum_list_with_le {A} (f : A -> nat) n l :
  (forall x, f x <= n)%nat -> (sum_list_with f l <= length l * n)%nat.
Proof. intros Hf. induction l as [|x l IH]; simpl; [lia|]. specialize (Hf x). lia. Qed.

Lemma sum_insert {A} (f : A -> nat) l k x y :
  l !! k = Some x -> (sum_list_with f (<[k := y]> l) + f x = sum_list_with f l + f y)%nat.
Proof.
  revert k. induction l as [|z l IH]; intros [|k] Hk; simpl in *; [done|done| |].
  - injection Hk as ->. lia.
  - specialize (IH k Hk). lia.
Qed.

Lemma sum_delete {A} (f : A -> nat) l k x :
  l !! k = Some x -> sum_list_with f l = (f x + sum_list_with f (delete k l))%nat.
Proof.
  intros Hk. rewrite (sum_list_with_perm f l (x :: delete k l)); [done|]. by apply delete_Permutation.
Qed.

Lemma begin_op_reserved s ops lh :
  reserved s ops lh ->
  (exists s', begin_op s = Ret tt s' /\ reserved s' (ops ++ [[]]) lh) \/ (exists s', begin_op s = Block s').
Proof.
  intros Hr. unfold begin_op. rewrite gets_bind, (rs_com _ _ _ Hr), (rs_out _ _ _ Hr).
  rewrite (li_lh _ _ _ _ (lo_log _ _ _ _ _ _ (rs_log _ _ _ Hr))).
  destruct (LOGSIZE <? _) eqn:E; [right; by eexists|left]. apply Z.ltb_ge in E.
  eexists. split; [done|]. destruct s as [b l]. constructor; cbn.
  - eapply (set_log_ok _ _ _ _ _ _ _ _ (rs_log _ _ _ Hr)); done.
  - rewrite length_app. cbn. lia.
  - apply Hr.
  - by intros [_ ?]%app_eq_nil.
  - intros us a Hus Ha. apply elem_of_app in Hus as [Hus|Hus%list_elem_of_singleton]; [by eapply (rs_ops _ _ _ Hr)|].
    subst. by apply elem_of_nil in Ha.
  - rewrite sum_list_with_app. cbn [sum_list_with]. change (left []) with 9%nat.
    pose proof (sum_list_with_le left 9 ops ltac:(intros x; unfold left; plia)) as Hle.
    destruct ops as [|us ops]; [rewrite (rs_idle _ _ _ Hr) by done; cbn; plia|].
    cbn [length] in *. unfold LOGSIZE, MAXOPBLOCKS in *. lia.
Qed.

Lemma write_reserved s ops lh k us w :
  reserved s ops lh -> home start LOGSIZE nb w -> ops !! k = Some us ->
  (length (add_lh w.1 us) <= Z.to_nat (MAXOPBLOCKS - 1))%nat ->
  wp nopanic (txn_write pid w) (fun _ s' =>
    exists lh', reserved s' (<[k := add_lh w.1 us]> ops) lh') s.
Proof.
  intros Hr Hw Hk Hlen. pose proof (rs_room _ _ _ Hr) as Hroom. pose proof (rs_out _ _ _ Hr) as Hout.
  assert (0 < length ops)%nat by (apply lookup_lt_Some in Hk; lia).
  eapply wp_post; [apply (txn_write_spec pid start LOGSIZE nb geo s lh w); [apply Hr|done|plia|lia]|].
  intros [] s' (Hs' & _ & Hl' & _). exists (add_lh w.1 lh). constructor; [done|..].
  - rewrite Hl', length_insert. done.
  - rewrite Hl'. apply Hr.
  - intros E%(f_equal length). rewrite length_insert in E. cbn in E. lia.
  - intros us' a Hus Ha. apply elem_of_add_lh. apply list_elem_of_lookup in Hus as [j Hj].
    apply list_lookup_insert_Some in Hj as [(_ & <- & _)|[_ Hj]].
    + apply elem_of_add_lh in Ha as [Ha|Ha]; [left|by right].
      eapply (rs_ops _ _ _ Hr); [|done]. by eapply list_elem_of_lookup_2.
    + left. eapply (rs_ops _ _ _ Hr); [|done]. by eapply list_elem_of_lookup_2.
  - pose proof (sum_insert left ops k us (add_lh w.1 us) Hk) as Hsum.
    assert (length (add_lh w.1 lh) + left (add_lh w.1 us) <= length lh + left us)%nat; [|lia].
    assert (w.1 ∈ us -> w.1 ∈ lh) as Hin
      by (intros; eapply (rs_ops _ _ _ Hr); [|done]; by eapply list_elem_of_lookup_2).
    unfold left, add_lh in *. destruct (decide (w.1 ∈ us)), (decide (w.1 ∈ lh));
      rewrite ?length_app in *; cbn [length] in *; [lia|tauto|lia|lia].
Qed.

Lemma end_reserved s ops lh k us :
  reserved s ops lh -> ops !! k = Some us ->
  wp nopanic (end_op pid) (fun _ s' => exists lh', reserved s' (delete k ops) lh') s.
Proof.
  intros Hr Hk. pose proof (rs_out _ _ _ Hr) as Hout. pose proof (lookup_lt_Some _ _ _ Hk) as Hlt.
  pose proof (length_delete ops k ltac:(eauto)) as Hdel. pose proof (rs_log _ _ _ Hr) as Hs.
  destruct s as [b l]. unfold end_op. do 4 wp_step. cbn [l_log] in Hout |- *.
  pose proof (rs_com _ _ _ Hr) as Hc. cbn [l_log] in Hc. rewrite Hc.
  destruct (_ =? 0) eqn:E.
  - apply Z.eqb_eq in E. destruct ops as [|us0 [|]]; cbn in Hlt, Hout; try lia.
    assert (k = 0%nat) as -> by lia. do 3 wp_step. set (s2 := set_committing _ _).
    assert (log_ok pid start LOGSIZE nb s2 lh) as Hs2 by (by eapply set_log_ok).
    eapply wp_post; [by eapply (commit_spec pid start LOGSIZE nb)|]. intros [] s3 [Hl3 W]. wp_step.
    pose proof (committed_log_ok pid start LOGSIZE nb geo s2 s3 lh Hs2 Hl3 W) as Hs3.
    exists []. destruct s3 as [b3 l3]. cbn [l_log] in Hl3. subst l3. constructor; try done.
    + by eapply set_log_ok.
    + intros us' a Hus. by apply elem_of_nil in Hus.
    + cbn. plia.
  - apply Z.eqb_neq in E. wp_step. exists lh. constructor; cbn.
    + by eapply set_log_ok.
    + lia.
    + done.
    + intros Hnil. rewrite Hnil in Hdel. cbn in Hdel. lia.
    + intros us' a Hus. apply (rs_ops _ _ _ Hr). rewrite (delete_Permutation ops k us Hk). by right.
    + pose proof (rs_room _ _ _ Hr) as Hroom. rewrite (sum_delete left ops k us Hk) in Hroom. lia.
Qed.

Lemma run_trace_reserved es : forall s ops lh,
  reserved s ops lh -> Forall fsev_ok es ->
  wp nopanic (run_trace (Z.to_nat (MAXOPBLOCKS - 1)) es ops)
    (fun _ s' => exists ops' lh', reserved s' ops' lh') s.
Proof.
  induction es as [|e es IH]; intros s ops lh Hr Hes; [by apply wp_ret; eauto|].
  apply Forall_cons in Hes as [He Hes]. destruct e as [|k w|k]; cbn [run_trace].
  - destruct (begin_op_reserved s ops lh Hr) as [(s' & E & Hr')|(s' & E)];
      unfold wp; rewrite E; by eapply IH.
  - destruct (ops !! k) as [us|] eqn:Hk; [|by eapply IH]. case_decide; [|by eapply IH].
    wp_step. eapply wp_post; [by eapply write_reserved|]. intros [] s' [lh' Hr']. by eapply IH.
  - destruct (ops !! k) as [us|] eqn:Hk; [|by eapply IH].
    wp_step. eapply wp_post; [by eapply end_reserved|]. intros [] s' [lh' Hr']. by eapply IH.
Qed.

(** C6: concurrent operations never exhaust the log.  Whatever the
    interleaving of any number of operations, if each logs at most
    [MAXOPBLOCKS - 1] distinct blocks, no call panics: not [log_write] (the
    transaction is never too big), not [end_op], and not the commits they
    trigger; and the log never holds more than [LOGSIZE - 2] blocks. *)
Theorem log_space_reserved s es :
  idle pid start LOGSIZE nb s -> Forall fsev_ok es ->
  wp nopanic (run_trace (Z.to_nat (MAXOPBLOCKS - 1)) es [])
    (fun _ s' => Z.of_nat (length (l_lh (l_log s'))) <= LOGSIZE - 2) s.
Proof.
  intros (Hs & Ho & Hc) Hes. eapply wp_post; [apply (run_trace_reserved es s [] []); [|done]|].
  - constructor; try done; [intros us a Hus; by apply elem_of_nil in Hus|cbn; plia].
  - intros [] s' (ops & lh & Hr). rewrite (li_lh _ _ _ _ (lo_log _ _ _ _ _ _ (rs_log _ _ _ Hr))).
    pose proof (rs_room _ _ _ Hr). plia.
Qed.

(** ** The limit itself *)

Definition too_big (msg : string) : Prop := msg = "too big a transaction"%string.

(** A write with [LOGSIZE - 1] blocks in the log: the buffer is found, the log
    refuses it. *)
Lemma txn_write_full s lh w :
  log_ok pid start LOGSIZE nb s lh -> home start LOGSIZE nb w -> Z.of_nat (length lh) = LOGSIZE - 1 ->
  wp too_big (txn_write pid w) (fun _ _ => False) s.
Proof using geo.
  destruct s as [b l], w as [c x]. intros Hs (Hc & Hn & Hx) Hlen. cbn [fst snd] in *.
  pose proof (lo_log _ _ _ _ _ _ Hs) as Hl. pose proof (lo_held _ _ _ _ _ _ Hs) as Hh.
  pose proof (lo_size _ _ _ _ _ _ Hs) as Hnb. cbn [l_bio l_log] in *. unfold txn_write. cbn [fst snd].
  wp_step. apply wp_onbio. eapply wp_mono; [apply (bread_room pid b c lh)|done|].
  { apply Hs. } { intros i. by rewrite Hh, lookup_empty. } { rewrite Hnb. lia. }
  { apply (lo_pinned _ _ _ _ _ _ Hs). }
  { right. rewrite Hh, map_size_empty. pose proof (lh_len_nbuf _ _ _ geo _ (lo_lh _ _ _ _ _ _ Hs)). plia. }
  intros i b1 (Hb1 & Hi & Hh1 & _).
  wp_step. apply wp_onbio. eapply wp_mono; [apply (set_bdata_spec pid b1 i c); [done| |done]|done|].
  { by rewrite Hh1, lookup_insert_eq. }
  intros [] b2 _. wp_step. unfold log_write. do 2 wp_step. cbn [l_log l_bio].
  rewrite (li_lh _ _ _ _ Hl), (li_size _ _ _ _ Hl), Hlen. by apply wp_panic.
Qed.

(** Three operations in progress, with [es] still to come. *)
Record crowded (s : lstate) (ops : list (list Z)) (lh : list Z) (ks : list nat) (ws : list (Z * list Z)) : Prop := {
  cr_log : log_ok pid start LOGSIZE nb s lh;
  cr_out : l_outstanding (l_log s) = 3;
  cr_ops : length ops = 3%nat;
  cr_len : length ks = length ws;
  cr_all : (length lh + length ks = Z.to_nat LOGSIZE)%nat;
  cr_some : ks <> [];
  cr_ks : Forall (fun k => k < 3)%nat ks;
  cr_share k us : ops !! k = Some us -> (length us + length (filter (fun j => j = k) ks) <= Z.to_nat MAXOPBLOCKS)%nat;
  cr_ws : Forall (home start LOGSIZE nb) ws;
  cr_new : NoDup (lh ++ ws.*1)
}.

Lemma crowded_step s s' ops lh k ks w ws us :
  crowded s ops lh (k :: ks) (w :: ws) -> ks <> [] -> ops !! k = Some us ->
  log_ok pid start LOGSIZE nb s' (add_lh w.1 lh) -> l_outstanding (l_log s') = 3 ->
  crowded s' (<[k := add_lh w.1 us]> ops) (add_lh w.1 lh) ks ws.
Proof.
  intros [C1 C2 C3 C4 C5 C6 C7 C8 C9 C10] Hks Hk Hl Ho.
  assert (w.1 ∉ lh) as Hnew by (intros H; apply NoDup_app in C10 as (_ & C & _); by eapply C; [done|left]).
  assert (add_lh w.1 lh = lh ++ [w.1]) as El by (unfold add_lh; by rewrite decide_False).
  apply Forall_cons in C7 as [_ C7]. apply Forall_cons in C9 as [_ C9]. cbn [length] in *.
  constructor; try done; rewrite ?El, ?length_insert; try lia.
  - rewrite length_app. cbn [length]. lia.
  - intros k' us' Hk'. apply list_lookup_insert_Some in Hk' as [(<- & <- & _)|[Hne Hk']].
    + specialize (C8 k us Hk). rewrite filter_cons_True in C8 by done. cbn [length] in C8.
      unfold add_lh. case_decide; rewrite ?length_app; cbn [length]; lia.
    + specialize (C8 k' us' Hk'). by rewrite filter_cons_False in C8.
  - by rewrite <- (assoc_L (++)).
Qed.

Lemma crowded_panics ks : forall s ops lh ws,
  crowded s ops lh ks ws ->
  wp too_big (run_trace (Z.to_nat MAXOPBLOCKS) (zip_with EWrite ks ws) ops) (fun _ _ => False) s.
Proof using geo.
  induction ks as [|k ks IH]; intros s ops lh ws C; [by destruct (cr_some _ _ _ _ _ C)|].
  destruct ws as [|w ws]; [by pose proof (cr_len _ _ _ _ _ C)|]. cbn [zip_with run_trace].
  pose proof (cr_ks _ _ _ _ _ C) as Hks. apply Forall_cons in Hks as [Hk _].
  destruct (lookup_lt_is_Some_2 ops k) as [us Hus]; [rewrite (cr_ops _ _ _ _ _ C); done|]. rewrite Hus.
  pose proof (cr_share _ _ _ _ _ C k us Hus) as Hsh. rewrite filter_cons_True in Hsh by done. cbn [length] in Hsh.
  rewrite decide_True by (unfold add_lh; case_decide; rewrite ?length_app; cbn [length]; lia).
  pose proof (cr_ws _ _ _ _ _ C) as Hws. apply Forall_cons in Hws as [Hw _].
  pose proof (cr_all _ _ _ _ _ C) as Hall. pose proof (cr_out _ _ _ _ _ C) as Hout. cbn [length] in Hall. wp_step.
  destruct (decide (ks = [])) as [->|Hne].
  - eapply wp_mono; [apply (txn_write_full s lh w); [apply C|done|cbn [length] in Hall; plia]|done|done].
  - assert (length ks <> 0%nat) by by destruct ks.
    eapply wp_mono; [apply (txn_write_spec pid start LOGSIZE nb geo s lh w); [apply C|done|plia|lia]|done|].
    intros [] s' (Hl & _ & El & _). eapply IH. eapply crowded_step; [done|done|done|done|]. by rewrite El.
Qed.

(** [begin_op] admits three operations. *)
Lemma admitted s n :
  log_ok pid start LOGSIZE nb s [] -> l_committing (l_log s) = false -> l_outstanding (l_log s) = n -> 0 <= n < 3 ->
  exists s', begin_op s = Ret tt s' /\ log_ok pid start LOGSIZE nb s' [] /\
    l_committing (l_log s') = false /\ l_outstanding (l_log s') = n + 1.
Proof.
  intros Hs Hc Ho Hn. unfold begin_op. rewrite gets_bind, Hc, Ho, (li_lh _ _ _ _ (lo_log _ _ _ _ _ _ Hs)).
  replace (LOGSIZE <? _) with false by (symmetry; apply Z.ltb_ge; cbn [length]; plia).
  destruct s as [b l]. eexists. split; [done|]. split; [|done]. by eapply set_log_ok.
Qed.

Lemma three_admitted s es :
  idle pid start LOGSIZE nb s -> exists s', log_ok pid start LOGSIZE nb s' [] /\ l_outstanding (l_log s') = 3 /\
    run_trace (Z.to_nat MAXOPBLOCKS) ([EBegin; EBegin; EBegin] ++ es) [] s =
    run_trace (Z.to_nat MAXOPBLOCKS) es [[]; []; []] s'.
Proof.
  intros (Hs & Ho & Hc). destruct (admitted s 0) as (s1 & E1 & H1 & C1 & O1); [done|done|done|lia|].
  destruct (admitted s1 1) as (s2 & E2 & H2 & C2 & O2); [done|done|done|lia|].
  destruct (admitted s2 2) as (s3 & E3 & H3 & C3 & O3); [done|done|done|lia|].
  exists s3. split; [done|]. split; [done|]. cbn [app run_trace]. by rewrite E1, E2, E3.
Qed.

(** C37: the reservation is one block short.  The header takes one of the
    [LOGSIZE] blocks of the log, which [log_write] accounts for and [begin_op]
    does not: from any state without operations, [begin_op] admits three
    operations, and if they log [MAXOPBLOCKS] blocks each, all different, in
    whatever order, the last [log_write] panics.  So operations of
    [MAXOPBLOCKS - 1] blocks are the most that the reservation supports. *)
Theorem log_reservation_short s ks ws :
  idle pid start LOGSIZE nb s ->
  length ks = (3 * Z.to_nat MAXOPBLOCKS)%nat -> Forall (fun k => k < 3)%nat ks ->
  (forall k, (length (filter (fun j => j = k) ks) <= Z.to_nat MAXOPBLOCKS)%nat) ->
  length ws = length ks -> Forall (home start LOGSIZE nb) ws -> NoDup ws.*1 ->
  run_trace (Z.to_nat MAXOPBLOCKS) ([EBegin; EBegin; EBegin] ++ zip_with EWrite ks ws) [] s =
    Panic "too big a transaction".
Proof.
  intros Hs Hl Hk Hsh Hw Hws Hnd. destruct (three_admitted s (zip_with EWrite ks ws) Hs) as (s' & Hl' & Ho & ->).
  pose proof (crowded_panics ks s' [[]; []; []] [] ws) as H. unfold wp in H.
  destruct (run_trace _ _ _ s') as [a s2|msg|s2]; [exfalso; apply H|rewrite H; [done|]|exfalso; apply H];
    constructor; try done; try (by rewrite Hl); try (by intros ->);
    intros k us Hus; do 3 (destruct k as [|k]; [injection Hus as <-; apply Hsh|]); done.
Qed.
End reserve.

(** Three operations in progress log nine blocks each, in turn. *)
Definition sample_trace (n : nat) : list fsev :=
  [EBegin; EBegin; EBegin] ++
  ((fun i => EWrite (i `mod` 3) (40 + Z.of_nat i, zero_block)) <$> seq 0 n) ++ [EEnd 0; EEnd 0; EEnd 0].

Lemma log_space_reserved_witness :
  exists s, initlog 7 1 (boot 100 sample_disk) = Ret tt s /\
    wp nopanic (run_trace 7 9 (sample_trace 27) [])
      (fun _ s' => Z.of_nat (length (l_lh (l_log s'))) <= 28) s.
Proof.
  destruct (boot_replay 7 2 30 100 sample_geometry sample_disk sample_disk_ok) as (s & E & Hs & _).
  exists s. split; [done|]. apply (log_space_reserved 7 2 100 sample_geometry s (sample_trace 27) Hs).
  unfold sample_trace. rewrite !Forall_app. split_and!; [by repeat constructor| |by repeat constructor].
  apply Forall_fmap, Forall_forall. intros i Hi%elem_of_seq. unfold compose. cbn [fsev_ok].
  split_and!; cbn [fst snd]; [lia|lia|unfold in_log; plia|apply zero_block_ok].
Defined.

(** Thirty blocks, three operations in turn. *)
Lemma log_reservation_short_witness :
  exists s, initlog 7 1 (boot 100 sample_disk) = Ret tt s /\
    run_trace 7 10 ([EBegin; EBegin; EBegin] ++ zip_with EWrite ((fun i => i `mod` 3)%nat <$> seq 0 30)
      ((fun i => (40 + Z.of_nat i, zero_block)) <$> seq 0 30)) [] s = Panic "too big a transaction".
Proof.
  destruct (boot_replay 7 2 30 100 sample_geometry sample_disk sample_disk_ok) as (s & E & Hs & _).
  exists s. split; [done|].
  refine (log_reservation_short 7 2 100 sample_geometry s ((fun i => i `mod` 3)%nat <$> seq 0 30)
    ((fun i => (40 + Z.of_nat i, zero_block)) <$> seq 0 30) Hs eq_refl _ _ eq_refl _ _).
  - apply Forall_fmap, Forall_forall. intros i _. apply Nat.mod_upper_bound. lia.
  - intros k. do 3 (destruct k as [|k]; [vm_compute; lia|]). clear. vm_compute. lia.
  - apply Forall_fmap, Forall_forall. intros i Hi%elem_of_seq. unfold compose.
    split_and!; cbn [fst snd]; [lia|lia|unfold in_log; plia|apply zero_block_ok].
  - rewrite <- list_fmap_compose. apply NoDup_fmap_2; [intros i j [= ?]; lia|apply NoDup_seq].
Defined.
