(* ===== verification/Block.v ===== *)
(** * The block interface of the file system

    [fs.c] reaches the disk through [bread], [brelse], [log_write] and the
    buffer's data only.  [BlockLayer] is that interface, [BlockLaws] what it
    promises, and [log_layer] with [log_laws] the kernel's implementation of
    it: the log over the buffer cache.  The file system's theorems are proved
    against the laws. *)

From S2P Require Import Prelude Params Locks Bio Log Crash.
Local Open Scope Z_scope.
Local Open Scope kmonad_scope.

Class BlockLayer (S : Type) := {
  bl_bread : Z -> Z -> M S nat;
  bl_brelse : nat -> M S unit;
  bl_data : nat -> S -> list Z;
  bl_set : nat -> list Z -> M S unit;
  bl_log_write : nat -> M S unit
}.

(** The panics the laws leave open: the cache is full of locked and pinned
    buffers, or the transaction is full. *)
Definition res_panic (msg : string) : Prop :=
  msg = "bget: no buffers"%string \/ msg = "too big a transaction"%string.

Class BlockLaws (S : Type) `{!BlockLayer S} := {
  bl_ok : S -> Prop;
  bl_txn : S -> Prop;                 (* inside a transaction *)
  bl_view : S -> Z -> list Z;         (* contents of a block *)
  bl_held : S -> gmap nat Z;          (* locked buffers *)
  bl_soft : S -> Z -> Prop;           (* changed but not logged *)
  bl_range : Z -> Prop;               (* blocks of the disk *)
  bl_home : Z -> Prop;                (* blocks a transaction may change *)
  bl_view_ok s c : bl_ok s -> block_ok (bl_view s c);
  bl_home_range c : bl_home c -> bl_range c;
  bl_held_inj s i j c : bl_ok s -> bl_held s !! i = Some c -> bl_held s !! j = Some c -> i = j;
  bl_data_law s i c : bl_ok s -> bl_held s !! i = Some c -> bl_data i s = bl_view s c;
  bl_bread_law s c :
    bl_ok s -> (forall i, bl_held s !! i <> Some c) -> bl_range c ->
    wp res_panic (bl_bread 1 c) (fun i s' =>
      bl_ok s' /\ (bl_txn s -> bl_txn s') /\
      bl_held s !! i = None /\ bl_held s' = <[i := c]> (bl_held s) /\
      (forall a, ~ bl_soft s a \/ (exists j, bl_held s !! j = Some a) -> bl_view s' a = bl_view s a) /\
      (forall a, bl_soft s' a -> bl_soft s a)) s;
  bl_brelse_law s i c :
    bl_ok s -> bl_held s !! i = Some c ->
    wp nopanic (bl_brelse i) (fun _ s' =>
      bl_ok s' /\ (bl_txn s -> bl_txn s') /\ bl_held s' = delete i (bl_held s) /\
      (forall a, bl_view s' a = bl_view s a) /\ (forall a, bl_soft s' a -> bl_soft s a)) s;
  bl_set_law s i c d :
    bl_ok s -> bl_held s !! i = Some c -> bl_home c -> block_ok d ->
    wp nopanic (bl_set i d) (fun _ s' =>
      bl_ok s' /\ (bl_txn s -> bl_txn s') /\ bl_held s' = bl_held s /\
      bl_view s' c = d /\ (forall a, a <> c -> bl_view s' a = bl_view s a) /\
      (forall a, bl_soft s' a -> bl_soft s a \/ a = c)) s;
  bl_log_write_law s i c :
    bl_ok s -> bl_txn s -> bl_held s !! i = Some c -> bl_home c ->
    wp res_panic (bl_log_write i) (fun _ s' =>
      bl_ok s' /\ bl_txn s' /\ bl_held s' = bl_held s /\
      (forall a, bl_view s' a = bl_view s a) /\
      (forall a, bl_soft s' a -> bl_soft s a /\ a <> c)) s
}.

(** ** The implementation *)

Section log_layer.
Context (pid : Z).

#[local] Instance log_layer : BlockLayer lstate := {|
  bl_bread dev c := onbio (bread pid dev c);
  bl_brelse i := onbio (brelse pid i);
  bl_data i s := bdata i (l_bio s);
  bl_set i d := onbio (set_bdata i d);
  bl_log_write i := log_write i
|}.

Context (start size nb : Z) (geo : geometry start size nb).

(** Between [begin_op] and [end_op]: [log_ok] but for the locked buffers.  The
    transaction started in [s0]; nothing has been written to the disk since. *)
Context (s0 : lstate).
Record layer_ok (s : lstate) : Prop := {
  ly_bio : bio_ok pid (l_bio s);
  ly_size : disksize (l_bio s) = nb;
  ly_log : exists lh, log_is start size (l_log s) lh /\ lh_ok start size nb lh /\
    (forall a, pinned (l_bio s) a <-> a ∈ lh);
  ly_soft a : in_log start size a -> ~ soft (l_bio s) a;
  ly_disk : same_disk (l_bio s0) (l_bio s);
  ly_base : l_log s = l_log (set_lh (l_lh (l_log s)) s0)
}.

Lemma layer_ok_keep b b' l :
  layer_ok (LState b l) -> bio_ok pid b' -> same_disk b b' ->
  (forall a, soft b' a -> soft b a \/ ~ in_log start size a) ->
  (forall a, pinned b' a <-> pinned b a) -> layer_ok (LState b' l).
Proof.
  intros [H1 H2 (lh & H3 & H4 & H5) H6 H7 H8] Hb Hd Hs Hp. cbn [l_bio l_log] in *.
  pose proof Hd as (_ & Hz & _).
  constructor; cbn [l_bio l_log]; [done|congruence| | |by eapply same_disk_trans|done].
  - exists lh. split; [done|]. split; [done|]. intros a. by rewrite Hp.
  - intros a Ha [?%H6|?]%Hs; done.
Qed.

#[local] Instance log_laws : BlockLaws lstate.
Proof.
  unshelve refine {|
    bl_ok := layer_ok;
    bl_txn s := 1 <= l_outstanding (l_log s);
    bl_view s := view (l_bio s);
    bl_held s := held (l_bio s);
    bl_soft s := soft (l_bio s);
    bl_range c := 0 <= c < nb;
    bl_home c := 1 < c < nb /\ ~ in_log start size c
  |}.
  - intros s c Hs. eapply (view_ok pid), Hs.
  - intros c [Hc _]. lia.
  - intros s i j c Hs. eapply (held_inj pid), Hs.
  - intros s i c Hs Hi. by apply (held_bdata pid); [apply Hs|].
  - intros [b l] c Hs Hh Hc. apply wp_onbio. cbn [l_bio] in *.
    eapply wp_mono; [apply (bread_spec pid b c); [apply Hs|done|]|by intros ? [? _]; left|].
    { pose proof (ly_size _ Hs) as Hz. cbn in Hz. by rewrite Hz. }
    cbn [l_bio l_log]. intros i b' (Hb & Hi & Hh' & Hd & Hv & Hsf & Hp). split; [|split; [done|]].
    + eapply layer_ok_keep; [done|done|done|by intros a ?%Hsf; left|done].
    + split; [done|]. split; [done|]. split; [|done]. intros a Ha. apply Hv. tauto.
  - intros [b l] i c Hs Hi. apply wp_onbio. cbn [l_bio] in *.
    eapply wp_post; [apply (brelse_spec pid b i c); [apply Hs|done]|].
    cbn [l_bio l_log]. intros [] b' (Hb & Hh' & Hd & Hv & Hsf & Hp). split; [|split; [done|]].
    + eapply layer_ok_keep; [done|done|done|by intros a ?%Hsf; left|done].
    + split; [done|]. split; [done|]. intros a. apply Hsf.
  - intros [b l] i c d Hs Hi [Hc Hn] Hd. apply wp_onbio. cbn [l_bio] in *.
    eapply wp_post; [apply (set_bdata_spec pid b i c); [apply Hs|done|done]|].
    cbn [l_bio l_log]. intros [] b' (Hb & Hh' & Hdk & Hv & Hvn & Hsf & Hp). split; [|split; [done|]].
    + eapply layer_ok_keep; [done|done|done| |done]. intros a [?| ->]%Hsf; [by left|by right].
    + done.
  - intros [b l] i c Hs Ho Hi [Hc Hn]. cbn [l_bio l_log] in *.
    destruct (ly_log _ Hs) as (lh & Hl & Hlh & Hp). cbn [l_bio l_log] in *.
    destruct (decide (Z.of_nat (length lh) < size - 1)) as [Hlt|Hge].
    + eapply wp_mono; [apply (log_write_spec pid b l i c)|done|].
      { apply Hs. } { done. } { rewrite (li_lh _ _ _ _ Hl). destruct geo. lia. }
      { by rewrite (li_lh _ _ _ _ Hl), (li_size _ _ _ _ Hl). } { done. }
      intros [] s' (b' & -> & Hb & Hh' & (Hd & Hz & Hw) & Hv & Hsf & Hp'). rewrite (li_lh _ _ _ _ Hl).
      cbn [l_bio l_log set_lh set_log l_outstanding]. split; [|done]. constructor; cbn [l_bio l_log].
      * done.
      * pose proof (ly_size _ Hs). cbn in *. congruence.
      * exists (add_lh c lh). split; [by eapply (log_is_set_lh start size (LState b l))|].
        split; [by eapply add_lh_ok|]. intros a. by rewrite Hp', Hp, elem_of_add_lh.
      * intros a Ha [Hsa _]%Hsf. by apply (ly_soft _ Hs) in Hsa.
      * eapply same_disk_trans; [apply (ly_disk _ Hs)|done].
      * pose proof (ly_base _ Hs) as El. cbn [l_log] in El. rewrite El. done.
    + cbn [bl_log_write log_layer]. unfold log_write, wp. rewrite gets_bind. cbn [l_log]. rewrite (li_lh _ _ _ _ Hl), (li_size _ _ _ _ Hl).
      rewrite (proj2 (orb_true_iff _ _)); [by right|]. right. apply Z.leb_le. lia.
Defined.

End log_layer.

(** ** Transactions of the file system *)

Section transactions.
Context (pid start size nb : Z) (geo : geometry start size nb).

(** The state after [begin_op] on an idle log. *)
Definition begun (s : lstate) : lstate := set_outstanding 1 s.

Lemma begin_op_idle s : idle pid start size nb s -> begin_op s = Ret tt (begun s).
Proof.
  intros (Hs & Ho & Hc). unfold begin_op. rewrite gets_bind, Hc, Ho, (li_lh _ _ _ _ (lo_log _ _ _ _ _ _ Hs)).
  reflexivity.
Qed.

Lemma begun_ok s : idle pid start size nb s -> layer_ok pid start size nb (begun s) (begun s).
Proof.
  intros (Hs & Ho & Hc). destruct s as [b l].
  pose proof (set_log_ok pid start size nb b l (l_log (begun (LState b l))) []) as Hs'.
  destruct Hs' as [A1 A2 A3 A4 A5 A6 A7 _ _]; [done..|]. constructor; try done. by exists [].
Qed.

Lemma idle_view s a : idle pid start size nb s -> ~ soft (l_bio s) a -> view (l_bio s) a = dblock (disk (l_bio s)) a.
Proof.
  intros (Hs & _) Ha. apply (clean_view pid); [apply Hs|done|]. rewrite (lo_pinned _ _ _ _ _ _ Hs), elem_of_nil. tauto.
Qed.

(** [end_op] of the only operation: the commit.  Stopped after [k] block
    writes, what recovery makes of the disk is the old contents or the
    contents the operation saw. *)
Lemma end_op_crash s s2 :
  idle pid start size nb s -> layer_ok pid start size nb (begun s) s2 -> held (l_bio s2) = ∅ ->
  wp nopanic (end_op pid) (fun _ s3 => exists ws n,
    wrote pid ws (l_bio s2) (l_bio s3) /\ idle pid start size nb s3 /\
    (forall a, ~ in_log start size a -> ~ soft (l_bio s2) a -> dblock (disk (l_bio s3)) a = view (l_bio s2) a) /\
    forall k, let d := crash (disk (l_bio s)) ws k in disk_ok start size nb d /\
      forall a, ~ in_log start size a -> ~ soft (l_bio s2) a ->
        replay start d a = if decide (k <= n)%nat then dblock (disk (l_bio s)) a else view (l_bio s2) a) s2.
Proof.
  intros (Hs & Ho & Hc) [L1 L2 (lh & L3 & L4 & L5) L6 (Ld & _ & _) L8] Hh. destruct s2 as [b l]. cbn [l_bio l_log] in *.
  assert (l_outstanding l = 1 /\ l_committing l = false) as [Ho2 Hc2] by by rewrite L8.
  unfold end_op. do 4 wp_step. cbn [l_log set_outstanding set_log l_outstanding l_committing]. rewrite Ho2, Hc2.
  change (1 - 1) with 0. rewrite Z.eqb_refl. do 3 wp_step. set (s2 := set_committing _ _).
  assert (log_ok pid start size nb s2 lh) as Hs2.
  { eapply (set_log_ok pid start size nb b l); try done. constructor; try done; cbn [l_bio]; rewrite Ld; apply Hs. }
  eapply wp_post; [by apply (commit_spec pid start size nb geo s2 lh)|]. intros [] s3 (Hl3 & W). wp_step.
  assert (idle pid start size nb (set_committing false s3)) as Hi3.
  { destruct s3 as [b3 l3]. cbn [l_log] in Hl3. split; [|by subst l3].
    eapply set_log_ok; [by eapply (committed_log_ok pid start size nb geo s2 (LState b3 l3) lh)|..]; done. }
  set (ws := writes_of_commit start (view b) lh).
  assert (forall k, let d := crash (disk (l_bio s)) ws k in disk_ok start size nb d /\
      forall a, ~ in_log start size a -> ~ soft b a ->
        replay start d a = if decide (k <= length lh)%nat then dblock (disk (l_bio s)) a else view b a) as Hk.
  { intros k. destruct (commit_crash pid start size nb geo s2 lh k Hs2) as [Hd Hr]. change (l_bio s2) with b in *.
    change (l_bio (begun s)) with (l_bio s) in Ld. rewrite <- Ld. split; [done|].
    intros a Ha Hsa. rewrite Hr by done. case_decide; [done|].
    unfold committed. destruct (decide (a ∈ lh)) as [(i & Hi)%list_elem_of_lookup|Hin].
    - rewrite (over_in _ _ i a (view b a)); [done|rewrite home_copies_fst; apply L4|].
      unfold home_copies. by rewrite list_lookup_fmap, Hi.
    - rewrite over_notin by by rewrite home_copies_fst. symmetry. apply (clean_view pid); [done|done|by intros ?%L5]. }
  exists ws, (length lh). split; [done|]. split; [done|]. split; [|done].
  intros a Ha Hsa. destruct (Hk (S (length lh + length ws))) as [_ Hr]. specialize (Hr a Ha Hsa).
  rewrite decide_False in Hr by lia. rewrite <- Hr. unfold crash. rewrite take_ge by lia.
  change (l_bio (begun s)) with (l_bio s) in Ld. rewrite <- Ld.
  assert (apply_writes (disk b) ws = disk (l_bio s3)) as -> by (symmetry; apply (wr_disk _ _ _ _ W)).
  symmetry. apply replay_empty. apply Hi3.
Qed.
End transactions.
