(* ===== verification/Balloc.v ===== *)
(** * Disk block allocation ([kernel/fs.c]: [bzero], [balloc], [bfree])

    The allocator works against the interface of [Block].  [bst] is the view of
    the block layer its clients reason with. *)

From S2P Require Import Prelude Params Locks Bio Log Crash Block.
Local Open Scope Z_scope.
Local Open Scope kmonad_scope.

(** Bytes of a block. *)
Definition getb (d : list Z) (i : Z) : Z := default 0 (d !! Z.to_nat i).
Definition setb (d : list Z) (i : Z) (x : Z) : list Z := <[Z.to_nat i := u8 x]> d.

Section operations.
Context {S : Type} `{!BlockLayer S}.
Context (sb : superblock).

Definition bzero (dev bno : Z) : M S unit :=
  bp <- bl_bread dev bno;;
  bl_set bp (replicate (Z.to_nat BSIZE) 0);;
  bl_log_write bp;;
  bl_brelse bp.

Definition BBLOCK (b : Z) : Z := b / BPB + sb_bmapstart sb.

(** The loop of [balloc] over the bits of one block [bp] of the free map. *)
Definition balloc_bits (dev b : Z) (bp : nat) : M S (option Z) :=
  scan (fun bi =>
    let m := Z.shiftl 1 (bi mod 8) in
    d <- gets (bl_data bp);;
    if Z.land (getb d (bi / 8)) m =? 0 then          (* Is block free? *)
      bl_set bp (setb d (bi / 8) (Z.lor (getb d (bi / 8)) m));;   (* Mark block in use. *)
      bl_log_write bp;;
      bl_brelse bp;;
      bzero dev (b + bi);;
      ret (Some (b + bi))
    else ret None) (seqZ 0 (Z.min BPB (sb_size sb - b))).

Definition balloc (dev : Z) : M S Z :=
  r <- scan (fun k =>
    let b := k * BPB in
    bp <- bl_bread dev (BBLOCK b);;
    r <- balloc_bits dev b bp;;
    match r with
    | Some x => ret (Some x)
    | None => bl_brelse bp;; ret None
    end) (seqZ 0 ((sb_size sb + BPB - 1) / BPB));;
  match r with
  | Some x => ret x
  | None => panic "balloc: out of blocks"
  end.

Definition bfree (dev b : Z) : M S unit :=
  bp <- bl_bread dev (BBLOCK b);;
  let bi := b mod BPB in
  let m := Z.shiftl 1 (bi mod 8) in
  d <- gets (bl_data bp);;
  if Z.land (getb d (bi / 8)) m =? 0 then panic "freeing free block" else
  bl_set bp (setb d (bi / 8) (Z.land (getb d (bi / 8)) (Z.lnot m)));;
  bl_log_write bp;;
  bl_brelse bp.
End operations.

(** ** The block layer as its clients see it

    The contents are [v]; [h] has the locked buffers; the contents of the
    blocks in [sf] are unknown (changed, not logged, and released); the blocks
    in [dt] are locked, changed and not logged yet. *)
Definition vset (v : Z -> list Z) (c : Z) (d : list Z) (a : Z) : list Z :=
  if decide (a = c) then d else v a.

Section bst.
Context {S : Type} `{!BlockLayer S} `{!BlockLaws S}.

Record bst (s : S) (v : Z -> list Z) (h : gmap nat Z) (sf dt : gset Z) : Prop := {
  st_ok : bl_ok s;
  st_txn : bl_txn s;
  st_held : bl_held s = h;
  st_view a : a ∉ sf -> bl_view s a = v a;
  st_soft a : bl_soft s a -> a ∈ sf ∪ dt;
  st_dirty a : a ∈ dt -> exists i, h !! i = Some a
}.

Lemma bst_ext s v v' h sf dt :
  bst s v h sf dt -> (forall a, a ∉ sf -> v a = v' a) -> bst s v' h sf dt.
Proof. intros [A1 A2 A3 A4 A5 A6] Hv. constructor; try done. intros a Ha. by rewrite A4, Hv. Qed.

Lemma bst_dirty s v h sf dt i c : bst s v h sf dt -> h !! i = Some c -> bst s v h sf (dt ∪ {[c]}).
Proof.
  intros [A1 A2 A3 A4 A5 A6] Hi. constructor; try done.
  - intros a Ha%A5. set_solver.
  - intros a [Ha%A6| ->%elem_of_singleton]%elem_of_union; [done|by exists i].
Qed.

Lemma bst_view_ok s v h sf dt c : bst s v h sf dt -> c ∉ sf -> block_ok (v c).
Proof. intros Hs Hc. rewrite <- (st_view _ _ _ _ _ Hs) by done. apply bl_view_ok, Hs. Qed.

(** The rules, for any set of panics that has the block layer's. *)
Context (EP : string -> Prop) (HE : forall msg, res_panic msg -> EP msg).

Lemma wp_bread s v h sf dt c (Q : nat -> S -> Prop) :
  bst s v h sf dt -> (forall i, h !! i <> Some c) -> bl_range c ->
  (forall i s', h !! i = None -> bst s' v (<[i := c]> h) sf dt -> Q i s') ->
  wp EP (bl_bread 1 c) Q s.
Proof.
  intros [A1 A2 A3 A4 A5 A6] Hh Hc HQ.
  eapply wp_mono; [apply bl_bread_law; [done|by rewrite A3|done]|done|].
  intros i s' (B1 & B2 & B3 & B4 & B5 & B6). rewrite A3 in B3, B4. apply HQ; [done|].
  constructor; [done|by apply B2|done| | |].
  - intros a Ha. rewrite <- A4 by done. apply B5. destruct (decide (a ∈ dt)) as [Hd|Hd].
    + right. rewrite A3. by apply A6.
    + left. intros ?%A5. set_solver.
  - intros a ?%B6. by apply A5.
  - intros a (j & Hj)%A6. exists j. rewrite lookup_insert_ne; [done|]. congruence.
Qed.

Lemma wp_data s v h sf dt i c :
  bst s v h sf dt -> h !! i = Some c -> c ∉ sf -> bl_data i s = v c.
Proof.
  intros [A1 A2 A3 A4 A5 A6] Hi Hc. rewrite <- A4 by done. apply bl_data_law; [done|]. by rewrite A3.
Qed.

Lemma wp_brelse s v h sf dt i c (Q : unit -> S -> Prop) :
  bst s v h sf dt -> h !! i = Some c -> c ∉ dt ->
  (forall s', bst s' v (delete i h) sf dt -> Q tt s') ->
  wp EP (bl_brelse i) Q s.
Proof.
  intros [A1 A2 A3 A4 A5 A6] Hi Hc HQ.
  eapply wp_mono; [apply (bl_brelse_law s i c); [done|by rewrite A3]|done|].
  intros [] s' (B1 & B2 & B3 & B4 & B5). rewrite A3 in B3. apply HQ.
  constructor; [done|by apply B2|done| | |].
  - intros a Ha. by rewrite B4, A4.
  - intros a ?%B5. by apply A5.
  - intros a Ha. destruct (A6 a Ha) as (j & Hj). exists j. rewrite lookup_delete_ne; [done|]. congruence.
Qed.

(** Releasing a block that has been changed and not logged: its contents are
    not known any more. *)
Lemma wp_brelse_dirty s v h sf dt i c (Q : unit -> S -> Prop) :
  bst s v h sf dt -> h !! i = Some c ->
  (forall s', bst s' v (delete i h) (sf ∪ {[c]}) (dt ∖ {[c]}) -> Q tt s') ->
  wp EP (bl_brelse i) Q s.
Proof.
  intros [A1 A2 A3 A4 A5 A6] Hi HQ.
  eapply wp_mono; [apply (bl_brelse_law s i c); [done|by rewrite A3]|done|].
  intros [] s' (B1 & B2 & B3 & B4 & B5). rewrite A3 in B3. apply HQ.
  constructor; [done|by apply B2|done| | |].
  - intros a Ha. rewrite B4, A4; [done|]. set_solver.
  - intros a Ha%B5%A5. destruct (decide (a = c)); set_solver.
  - intros a [Ha Hne]%elem_of_difference. destruct (A6 a Ha) as (j & Hj). exists j.
    rewrite lookup_delete_ne; [done|]. intros ->. rewrite Hi in Hj. set_solver.
Qed.

Lemma wp_set s v h sf dt i c d (Q : unit -> S -> Prop) :
  bst s v h sf dt -> h !! i = Some c -> bl_home c -> block_ok d ->
  (forall s', bst s' (vset v c d) h sf (dt ∪ {[c]}) -> Q tt s') ->
  wp EP (bl_set i d) Q s.
Proof.
  intros [A1 A2 A3 A4 A5 A6] Hi Hc Hd HQ.
  eapply wp_mono; [apply (bl_set_law s i c d); [done|by rewrite A3|done|done]|done|].
  intros [] s1 (B1 & B2 & B3 & B4 & B5 & B6). rewrite A3 in B3. apply HQ.
  constructor; [done|by apply B2|done|..].
  - intros a Ha. unfold vset. case_decide as Ea; [by subst|]. rewrite B5 by done. by apply A4.
  - intros a [Ha%A5|Ha]%B6; set_solver.
  - intros a [Ha%A6| ->%elem_of_singleton]%elem_of_union; [done|by exists i].
Qed.

Lemma wp_log_write s v h sf dt i c (Q : unit -> S -> Prop) :
  bst s v h sf dt -> h !! i = Some c -> bl_home c ->
  (forall s', bst s' v h sf (dt ∖ {[c]}) -> Q tt s') ->
  wp EP (bl_log_write i) Q s.
Proof.
  intros [A1 A2 A3 A4 A5 A6] Hi Hc HQ.
  eapply wp_mono; [apply (bl_log_write_law s i c); [done|done|by rewrite A3|done]|done|].
  intros [] s' (C1 & C2 & C3 & C4 & C5). apply HQ. constructor; [done|done|congruence|..].
  - intros a Ha. by rewrite C4, A4.
  - intros a [Ha%A5 Hne]%C5. set_solver.
  - intros a Ha. apply A6. set_solver.
Qed.

(** Changing a block and logging it. *)
Lemma wp_update s v h sf dt i c d (Q : unit -> S -> Prop) :
  bst s v h sf dt -> h !! i = Some c -> bl_home c -> block_ok d ->
  (forall s', bst s' (vset v c d) h (sf ∖ {[c]}) (dt ∖ {[c]}) -> Q tt s') ->
  wp EP (bl_set i d;; bl_log_write i) Q s.
Proof.
  intros [A1 A2 A3 A4 A5 A6] Hi Hc Hd HQ. apply wp_bind.
  eapply wp_mono; [apply (bl_set_law s i c d); [done|by rewrite A3|done|done]|done|].
  intros [] s1 (B1 & B2 & B3 & B4 & B5 & B6). rewrite A3 in B3.
  eapply wp_mono; [apply (bl_log_write_law s1 i c); [done|by apply B2|by rewrite B3|done]|done|].
  intros [] s2 (C1 & C2 & C3 & C4 & C5). apply HQ. constructor; [done|done|congruence|..].
  - intros a Ha. rewrite C4. unfold vset. case_decide as E; [by subst|].
    rewrite B5 by done. apply A4. set_solver.
  - intros a [[Ha|Ha]%B6 Hne]%C5; [|done]. apply A5 in Ha. set_solver.
  - intros a Ha. apply A6. set_solver.
Qed.
End bst.

(** [bp->data = ...; log_write(bp)] followed by more. *)
Ltac wp_upd := apply wp_bind_assoc; apply wp_bind; eapply (wp_update _ ltac:(eassumption)).

(** ** Bits of the free map *)

Lemma land_shiftl1 x k : 0 <= k -> (Z.land x (Z.shiftl 1 k) =? 0) = negb (Z.testbit x k).
Proof.
  intros Hk. rewrite Z.shiftl_1_l. destruct (Z.testbit x k) eqn:E; cbn [negb].
  - apply Z.eqb_neq. intros H0. apply (f_equal (fun z => Z.testbit z k)) in H0.
    rewrite Z.land_spec, Z.pow2_bits_true, E, Z.bits_0 in H0; done.
  - apply Z.eqb_eq. apply Z.bits_inj'. intros j Hj. rewrite Z.land_spec, Z.bits_0.
    destruct (decide (j = k)) as [->|Hne]; [by rewrite E|].
    rewrite (Z.pow2_bits_false k j) by lia. by rewrite andb_false_r.
Qed.

Lemma u8_bits x k : 0 <= k < 8 -> Z.testbit (u8 x) k = Z.testbit x k.
Proof. intros Hk. unfold u8. by rewrite Z.mod_pow2_bits_low by lia. Qed.

Lemma setbit_spec x k j : 0 <= k < 8 -> 0 <= j < 8 ->
  Z.testbit (u8 (Z.lor x (Z.shiftl 1 k))) j = bool_decide (j = k) || Z.testbit x j.
Proof.
  intros Hk Hj. rewrite u8_bits, Z.lor_spec, Z.shiftl_1_l by done. rewrite orb_comm. f_equal.
  case_bool_decide as E; [subst; apply Z.pow2_bits_true; lia|]. apply Z.pow2_bits_false; lia.
Qed.

Lemma clrbit_spec x k j : 0 <= k < 8 -> 0 <= j < 8 ->
  Z.testbit (u8 (Z.land x (Z.lnot (Z.shiftl 1 k)))) j = negb (bool_decide (j = k)) && Z.testbit x j.
Proof.
  intros Hk Hj. rewrite u8_bits, Z.land_spec, Z.lnot_spec, Z.shiftl_1_l by lia. rewrite andb_comm. do 2 f_equal.
  case_bool_decide as E; [subst; apply Z.pow2_bits_true; lia|]. apply Z.pow2_bits_false; lia.
Qed.

Lemma getb_setb_eq d i x : 0 <= i < Z.of_nat (length d) -> getb (setb d i x) i = u8 x.
Proof. intros Hi. unfold getb, setb. by rewrite list_lookup_insert_eq by lia. Qed.

Lemma getb_setb_ne d i j x : 0 <= i -> 0 <= j -> i <> j -> getb (setb d i x) j = getb d j.
Proof. intros. unfold getb, setb. by rewrite list_lookup_insert_ne by lia. Qed.

Lemma setb_ok d i x : block_ok d -> block_ok (setb d i x).
Proof.
  intros [Hl Hb]. split; [unfold setb; by rewrite length_insert|].
  apply Forall_insert; [done|apply u8_is_byte].
Qed.

(** ** The layout of the file system *)

Section specs.
Context {S : Type} `{!BlockLayer S} `{!BlockLaws S}.
Context (sb : superblock).

(** The bit of block [b] in the free map. *)
Definition used (v : Z -> list Z) (b : Z) : bool :=
  Z.testbit (getb (v (BBLOCK sb b)) (b mod BPB / 8)) (b mod BPB mod 8).

Definition is_bmap (a : Z) : Prop := sb_bmapstart sb <= a <= sb_bmapstart sb + sb_size sb / BPB.
Definition is_data (a : Z) : Prop := sb_bmapstart sb + sb_size sb / BPB < a < sb_size sb.

(** The layout [mkfs] computes: inodes, free map and data in this order, in
    blocks that transactions may change. *)
Record fsgeo : Prop := {
  fg_inode : 1 < sb_inodestart sb;
  fg_ninodes : 0 < sb_ninodes sb;
  fg_bmap : sb_inodestart sb + sb_ninodes sb / IPB < sb_bmapstart sb;
  fg_size : sb_bmapstart sb + sb_size sb / BPB < sb_size sb;
  fg_max : sb_size sb < 2 ^ 31;
  fg_home a : sb_inodestart sb <= a < sb_size sb -> bl_home a
}.

(** Everything before the data area is marked in use. *)
Definition meta_used (v : Z -> list Z) : Prop :=
  forall b, 0 <= b <= sb_bmapstart sb + sb_size sb / BPB -> used v b = true.

(** The number of free blocks. *)
Definition nfree (v : Z -> list Z) : Z :=
  Z.of_nat (length (filter (fun b => used v b = false) (seqZ 0 (sb_size sb)))).

Lemma nfree_le v v' (l : list Z) :
  (forall b, 0 <= b < sb_size sb -> used v b = false -> used v' b = false \/ b ∈ l) ->
  nfree v <= nfree v' + Z.of_nat (length l).
Proof.
  intros H. unfold nfree. rewrite <- Nat2Z.inj_add, <- length_app. apply Nat2Z.inj_le.
  apply submseteq_length, NoDup_submseteq; [apply NoDup_filter, NoDup_seqZ|].
  intros b [Hu Hb]%list_elem_of_filter. rewrite elem_of_app, list_elem_of_filter.
  apply elem_of_seqZ in Hb as Hr. destruct (H b) as [?|?]; [lia|done|by left|by right].
Qed.

Lemma nfree_same v v' : (forall b, 0 <= b < sb_size sb -> used v' b = used v b) -> nfree v' = nfree v.
Proof.
  intros H. pose proof (nfree_le v v' []) as H1. pose proof (nfree_le v' v []) as H2. cbn [length] in *.
  assert (nfree v <= nfree v' + 0) by (apply H1; intros b Hb; rewrite H by done; by left).
  assert (nfree v' <= nfree v + 0) by (apply H2; intros b Hb; rewrite H by done; by left). lia.
Qed.

Lemma nfree_none v : (forall b, 0 <= b < sb_size sb -> used v b = true) -> nfree v = 0.
Proof.
  intros H. unfold nfree. destruct (filter _ _) as [|b l] eqn:E; [done|].
  assert (b ∈ b :: l) as Hb by left. rewrite <- E in Hb. apply list_elem_of_filter in Hb as [Hu Hb%elem_of_seqZ].
  rewrite H in Hu by lia. done.
Qed.

Context (geo : fsgeo).

Lemma BBLOCK_bmap b : 0 <= b < sb_size sb -> is_bmap (BBLOCK sb b).
Proof. intros Hb. unfold is_bmap, BBLOCK, BPB, BSIZE in *. lia. Qed.

Lemma fg_order : 1 < sb_inodestart sb < sb_bmapstart sb /\ 0 <= sb_size sb / BPB.
Proof.
  destruct geo as [G1 G2 G3 G4 G5 _]. assert (0 <= sb_ninodes sb / IPB) by (apply Z.div_pos; [lia|done]).
  split; [lia|]. destruct (decide (0 <= sb_size sb)); [by apply Z.div_pos|]. plia.
Qed.

Lemma bmap_home a : is_bmap a -> bl_home a.
Proof. intros Ha. apply fg_home; [done|]. pose proof fg_order. destruct geo. unfold is_bmap in *. lia. Qed.

Lemma data_home a : is_data a -> bl_home a.
Proof. intros Ha. apply fg_home; [done|]. pose proof fg_order. unfold is_data in *. lia. Qed.

Lemma data_not_bmap a : is_data a -> ~ is_bmap a.
Proof. unfold is_data, is_bmap. lia. Qed.

Lemma free_is_data v b : meta_used v -> 0 <= b < sb_size sb -> used v b = false -> is_data b.
Proof.
  intros Hm Hb Hu. unfold is_data. split; [|lia].
  destruct (decide (b <= sb_bmapstart sb + sb_size sb / BPB)); [|lia]. by rewrite Hm in Hu by lia.
Qed.

Lemma setb_bits d bi y j :
  block_ok d -> 0 <= bi < BPB -> 0 <= j < BPB -> j <> bi ->
  (forall k, 0 <= k < 8 -> k <> bi mod 8 -> Z.testbit (u8 y) k = Z.testbit (getb d (bi / 8)) k) ->
  Z.testbit (getb (setb d (bi / 8) y) (j / 8)) (j mod 8) = Z.testbit (getb d (j / 8)) (j mod 8).
Proof.
  intros [Hl _] Hbi Hj Hne Hy. destruct (decide (bi / 8 = j / 8)) as [E|E].
  - rewrite <- E, getb_setb_eq by (rewrite Hl; plia). apply Hy; lia.
  - rewrite getb_setb_ne by lia. done.
Qed.

(** Changing one bit of the free map. *)
Lemma used_vset v d b b' :
  0 <= b -> 0 <= b' ->
  (forall j, 0 <= j < BPB -> j <> b mod BPB ->
     Z.testbit (getb d (j / 8)) (j mod 8) = Z.testbit (getb (v (BBLOCK sb b)) (j / 8)) (j mod 8)) ->
  used (vset v (BBLOCK sb b) d) b' =
  if decide (b' = b) then Z.testbit (getb d (b mod BPB / 8)) (b mod BPB mod 8) else used v b'.
Proof.
  intros Hb Hb' Hd. unfold used, vset. case_decide as E; case_decide as E'; try done.
  - subst. done.
  - rewrite Hd; [by rewrite E|plia|]. unfold BBLOCK in E. revert E E' Hb Hb'. plia.
  - subst. done.
Qed.

Context (EP : string -> Prop) (HE : forall msg, res_panic msg -> EP msg).

Lemma bzero_spec s v h sf dt b (Q : unit -> S -> Prop) :
  bst s v h sf dt -> (forall i, h !! i <> Some b) -> bl_home b ->
  (forall s', bst s' (vset v b zero_block) h (sf ∖ {[b]}) dt -> Q tt s') ->
  wp EP (bzero 1 b) Q s.
Proof.
  intros Hs Hh Hb HQ. unfold bzero.
  assert (b ∉ dt) as Hdt by (intros (i & Hi)%(st_dirty _ _ _ _ _ Hs); by eapply Hh).
  wp_step. eapply (wp_bread _ HE); [done|done|by apply bl_home_range|]. intros i s1 Hi Hs1.
  wp_upd; [done|by rewrite lookup_insert_eq|done|apply zero_block_ok|]. intros s2 Hs2.
  eapply (wp_brelse _); [done|by rewrite lookup_insert_eq|set_solver|]. intros s3 Hs3. apply HQ.
  rewrite delete_insert_id in Hs3 by done. replace dt with (dt ∖ {[b]}) by set_solver. done.
Qed.

(** What changing the bit of block [b] to [x] in the free map does. *)
Definition bit_changed (v v' : Z -> list Z) (b : Z) (x : bool) : Prop :=
  (forall a, ~ is_bmap a -> v' a = v a) /\
  (forall b', 0 <= b' < sb_size sb -> used v' b' = if decide (b' = b) then x else used v b').

Lemma bmap_known (sf : gset Z) b : (forall a, a ∈ sf -> is_data a) -> 0 <= b < sb_size sb -> BBLOCK sb b ∉ sf.
Proof. intros Hsf Hb Hin%Hsf. eapply data_not_bmap; [done|]. by apply BBLOCK_bmap. Qed.

Lemma bfree_spec s v h sf dt b (Q : unit -> S -> Prop) :
  bst s v h sf dt -> (forall a, a ∈ sf -> is_data a) -> (forall i c, h !! i = Some c -> is_data c) ->
  0 <= b < sb_size sb -> used v b = true ->
  (forall s' v', bst s' v' h sf dt -> bit_changed v v' b false -> Q tt s') ->
  wp EP (bfree sb 1 b) Q s.
Proof.
  intros Hs Hsf Hh Hb Hu HQ. unfold bfree. pose proof (BBLOCK_bmap b Hb) as Hbm.
  pose proof (bmap_known sf b Hsf Hb) as Hk.
  assert (forall i, h !! i <> Some (BBLOCK sb b)) as Hnh.
  { intros i ?%Hh. by eapply data_not_bmap. }
  assert (BBLOCK sb b ∉ dt) as Hdt by (intros (i & Hi)%(st_dirty _ _ _ _ _ Hs); by eapply Hnh).
  wp_step. eapply (wp_bread _ HE); [done|done|by apply bl_home_range, bmap_home|]. intros i s1 Hi Hs1.
  do 2 wp_step. rewrite (wp_data _ _ _ _ _ _ _ Hs1 (lookup_insert_eq _ _ _)) by done.
  unfold used in Hu. rewrite land_shiftl1, Hu by plia. cbn [negb]. set (d := setb _ _ _).
  pose proof (bst_view_ok _ _ _ _ _ _ Hs Hk) as Hok.
  wp_upd; [done|by rewrite lookup_insert_eq|by apply bmap_home|by apply setb_ok|]. intros s2 Hs2.
  eapply (wp_brelse _); [done|by rewrite lookup_insert_eq|set_solver|]. intros s3 Hs3.
  rewrite delete_insert_id in Hs3 by done. replace (sf ∖ _) with sf in Hs3 by set_solver.
  replace (dt ∖ _) with dt in Hs3 by set_solver. apply (HQ _ _ Hs3). split.
  - intros a Ha. unfold vset. case_decide; [by subst|done].
  - intros b' Hb'. rewrite used_vset; [|lia|lia|].
    + case_decide; [|done]. unfold d. rewrite getb_setb_eq by (destruct Hok as [-> _]; plia).
      rewrite clrbit_spec, bool_decide_true by plia. done.
    + intros j Hj Hne. apply setb_bits; [done|plia|done|done|].
      intros k Hkk Hkne. by rewrite clrbit_spec, bool_decide_false by plia.
Qed.

(** Marking block [b] used. *)
Lemma mark_used v b :
  0 <= b < sb_size sb -> block_ok (v (BBLOCK sb b)) ->
  let bi := b mod BPB in
  bit_changed v (vset v (BBLOCK sb b) (setb (v (BBLOCK sb b)) (bi / 8)
    (Z.lor (getb (v (BBLOCK sb b)) (bi / 8)) (Z.shiftl 1 (bi mod 8))))) b true.
Proof.
  intros Hb Hok bi. split.
  - intros a Ha. unfold vset. case_decide as Ea; [|done]. subst. by apply BBLOCK_bmap in Hb.
  - intros b' Hb'. rewrite used_vset; [|lia|lia|].
    + case_decide; [|done]. rewrite getb_setb_eq by (destruct Hok as [-> _]; plia).
      by rewrite setbit_spec, bool_decide_true by plia.
    + intros j Hj Hne. apply setb_bits; [done|plia|done|done|].
      intros k Hkk Hkne. by rewrite setbit_spec, bool_decide_false by plia.
Qed.

(** What [balloc] returns: the lowest free block, marked and zeroed. *)
Record balloced (v : Z -> list Z) (b : Z) (v' : Z -> list Z) : Prop := {
  ba_data : is_data b;
  ba_free : used v b = false;
  ba_first b' : 0 <= b' < b -> used v b' = true;
  ba_used b' : 0 <= b' < sb_size sb -> used v' b' = if decide (b' = b) then true else used v b';
  ba_zero : v' b = zero_block;
  ba_frame a : ~ is_bmap a -> a <> b -> v' a = v a
}.

(** The part of [balloc] after a free bit has been found. *)
Lemma balloc_take s v h sf dt i b (Q : option Z -> S -> Prop) :
  bst s v (<[i := BBLOCK sb b]> h) sf dt -> h !! i = None ->
  (forall a, a ∈ sf -> is_data a) ->
  (forall j c, h !! j = Some c -> is_data c /\ used v c = true) ->
  (forall a, a ∈ dt -> is_data a) -> meta_used v ->
  0 <= b < sb_size sb -> used v b = false -> (forall b', 0 <= b' < b -> used v b' = true) ->
  (forall s' v', balloced v b v' -> bst s' v' h (sf ∖ {[b]}) dt -> Q (Some b) s') ->
  let bi := b mod BPB in
  let d := v (BBLOCK sb b) in
  wp EP (bl_set i (setb d (bi / 8) (Z.lor (getb d (bi / 8)) (Z.shiftl 1 (bi mod 8))));;
         bl_log_write i;; bl_brelse i;; bzero 1 b;; ret (Some b)) Q s.
Proof.
  intros Hs Hi Hsf Hh Hdt Hm Hb Hu Hfirst HQ bi d.
  pose proof (BBLOCK_bmap b Hb) as Hbm. pose proof (bmap_known sf b Hsf Hb) as Hk.
  assert (BBLOCK sb b ∉ dt) as Hbd by (intros ?%Hdt; by eapply data_not_bmap).
  pose proof (bst_view_ok _ _ _ _ _ _ Hs Hk) as Hok. pose proof (mark_used v b Hb Hok) as [Hm1 Hm2].
  fold d in Hok, Hm1, Hm2. fold bi in Hm1, Hm2.
  wp_upd; [done|by rewrite lookup_insert_eq|by apply bmap_home|by apply setb_ok|]. intros s2 Hs2.
  wp_step. eapply (wp_brelse _); [done|by rewrite lookup_insert_eq|set_solver|]. intros s3 Hs3.
  rewrite delete_insert_id in Hs3 by done. replace (sf ∖ _) with sf in Hs3 by set_solver.
  replace (dt ∖ _) with dt in Hs3 by set_solver.
  pose proof (free_is_data v b Hm Hb Hu) as Hdata.
  wp_step. eapply bzero_spec; [done| |by apply data_home|].
  { intros j Hj. apply Hh in Hj as [_ Hj]. congruence. }
  intros s4 Hs4. wp_step. eapply HQ; [|exact Hs4]. constructor; [done|done|done| | |].
  - intros b' Hb'. rewrite <- Hm2 by done. unfold used. unfold vset at 1. rewrite decide_False; [done|].
    intros Eb. apply (data_not_bmap b); [done|]. rewrite <- Eb. by apply BBLOCK_bmap.
  - unfold vset. by rewrite decide_True.
  - intros a Ha Hne. unfold vset at 1. rewrite decide_False by done. by apply Hm1.
Qed.

Lemma balloc_bits_spec s v h sf dt i k (Q : option Z -> S -> Prop) :
  let b0 := k * BPB in
  bst s v (<[i := BBLOCK sb b0]> h) sf dt -> h !! i = None ->
  (forall a, a ∈ sf -> is_data a) ->
  (forall j c, h !! j = Some c -> is_data c /\ used v c = true) ->
  (forall a, a ∈ dt -> is_data a) -> meta_used v ->
  0 <= b0 < sb_size sb -> (forall b, 0 <= b < b0 -> used v b = true) ->
  (forall s' b v', balloced v b v' -> bst s' v' h (sf ∖ {[b]}) dt -> Q (Some b) s') ->
  (forall s', bst s' v (<[i := BBLOCK sb b0]> h) sf dt ->
     (forall b, 0 <= b < b0 + BPB -> b < sb_size sb -> used v b = true) -> Q None s') ->
  wp EP (balloc_bits sb 1 b0 i) Q s.
Proof.
  intros b0 Hs Hi Hsf Hh Hdt Hm Hb0 Hbefore HQ HQ'. unfold balloc_bits.
  pose proof (bmap_known sf b0 Hsf Hb0) as Hk.
  set (J j s' := bst s' v (<[i := BBLOCK sb b0]> h) sf dt /\
                 forall b, b0 <= b < b0 + Z.of_nat j -> used v b = true).
  eapply (wp_scan _ _ _ _ J).
  - split; [done|]. intros b Hb. lia.
  - intros bi bi' s3 Hbi [Hs3 Hin]. apply lookup_seqZ in Hbi as [-> Hbi]. rewrite Z.add_0_l.
    assert (BBLOCK sb (b0 + Z.of_nat bi) = BBLOCK sb b0) as Eb by (unfold BBLOCK, b0; plia).
    assert ((b0 + Z.of_nat bi) mod BPB = Z.of_nat bi) as Em by (unfold b0; plia).
    do 2 wp_step. rewrite (wp_data _ _ _ _ _ _ _ Hs3 (lookup_insert_eq _ _ _)) by done.
    rewrite land_shiftl1 by plia.
    assert (Z.testbit (getb (v (BBLOCK sb b0)) (Z.of_nat bi / 8)) (Z.of_nat bi mod 8) =
            used v (b0 + Z.of_nat bi)) as -> by (unfold used; by rewrite Eb, Em).
    destruct (used v _) eqn:Hu; cbn [negb].
    + wp_step. split; [done|]. intros b Hb.
      destruct (decide (b = b0 + Z.of_nat bi)) as [->|]; [done|]. apply Hin. lia.
    + rewrite <- Eb in Hs3 |- *. rewrite <- Em at 1 3 4.
      pose proof (balloc_take s3 v h sf dt i (b0 + Z.of_nat bi)) as T. cbv zeta in T.
      rewrite Em in T |- *. eapply T; try done; [lia| |].
      { intros b' Hb'. destruct (decide (b' < b0)); [apply Hbefore; lia|apply Hin; lia]. }
      intros s' v' Hba Hs'. by eapply HQ.
  - intros s3 [Hs3 Hall]. rewrite length_seqZ in Hall. apply HQ'; [done|].
    intros b Hb Hlt. destruct (decide (b < b0)); [apply Hbefore; lia|apply Hall; lia].
Qed.

Lemma balloc_spec s v h sf dt (Q : Z -> S -> Prop) :
  bst s v h sf dt -> (forall a, a ∈ sf -> is_data a) ->
  (forall j c, h !! j = Some c -> is_data c /\ used v c = true) -> meta_used v ->
  ((forall b, 0 <= b < sb_size sb -> used v b = true) -> EP "balloc: out of blocks"%string) ->
  (forall b s' v', balloced v b v' -> bst s' v' h (sf ∖ {[b]}) dt -> Q b s') ->
  wp EP (balloc sb 1) Q s.
Proof.
  intros Hs Hsf Hh Hm HE2 HQ. unfold balloc. wp_step.
  assert (forall a, a ∈ dt -> is_data a) as Hdt.
  { intros a (i & Hi)%(st_dirty _ _ _ _ _ Hs). by apply Hh in Hi as [? _]. }
  set (I k s' := bst s' v h sf dt /\ forall b, 0 <= b < Z.of_nat k * BPB -> b < sb_size sb -> used v b = true).
  eapply (wp_scan _ _ _ _ I).
  - split; [done|]. intros b Hb. lia.
  - intros ki k s1 Hki [Hs1 Hbefore]. apply lookup_seqZ in Hki as [-> Hki].
    rewrite Z.add_0_l. set (b0 := Z.of_nat ki * BPB). wp_step.
    assert (0 <= b0 < sb_size sb) as Hb0 by (unfold b0; plia).
    eapply (wp_bread _ HE); [done| |by apply bl_home_range, bmap_home, BBLOCK_bmap|].
    { intros i [Hi _]%Hh. eapply data_not_bmap; [done|by apply BBLOCK_bmap]. }
    intros i s2 Hi Hs2. wp_step. eapply balloc_bits_spec; try done.
    + intros b Hb. apply Hbefore; unfold b0 in *; lia.
    + intros s3 b v' Hba Hs3. wp_step. wp_step. by eapply HQ.
    + intros s3 Hs3 Hall. wp_step. eapply (wp_brelse _); [done|by rewrite lookup_insert_eq| |].
      { intros ?%Hdt. eapply data_not_bmap; [done|by apply BBLOCK_bmap]. }
      intros s4 Hs4. rewrite delete_insert_id in Hs4 by done. wp_step. split; [done|].
      intros b Hb Hlt. apply Hall; [unfold b0; lia|done].
  - intros s1 [_ Hall]. apply wp_panic, HE2. intros b Hb. rewrite length_seqZ in Hall.
    apply Hall; [|lia]. plia.
Qed.
End specs.
