(* ===== verification/Inode.v ===== *)
(** * Inodes ([kernel/fs.c], [kernel/fs.h], [kernel/file.h])

    The on-disk inode and its encoding in a block, the table of in-memory
    inodes ([icache]) and the operations on both.  An in-memory inode is named
    by its index in the table, as the source names it by its address. *)

From S2P Require Import Prelude Params Locks Bio Log Crash Block Balloc.
Local Open Scope Z_scope.
Local Open Scope kmonad_scope.

(** [struct dinode]. *)
Record dinode := Dinode {
  d_type : Z;
  d_major : Z;
  d_minor : Z;
  d_nlink : Z;
  d_size : Z;
  d_addrs : list Z
}.

Definition zero_dinode (type : Z) : dinode := Dinode type 0 0 0 0 (replicate 13 0).

Definition encode_dinode (x : dinode) : list Z :=
  le_bytes 2 (d_type x) ++ le_bytes 2 (d_major x) ++ le_bytes 2 (d_minor x) ++
  le_bytes 2 (d_nlink x) ++ le_bytes 4 (d_size x) ++ concat (le_bytes 4 <$> d_addrs x).

Definition decode_dinode (b : list Z) : dinode :=
  Dinode (s16 (le_val (sub b 0 2))) (s16 (le_val (sub b 2 2))) (s16 (le_val (sub b 4 2)))
         (s16 (le_val (sub b 6 2))) (le_val (sub b 8 4))
         ((fun i => le_val (sub b (12 + 4 * i) 4)) <$> seq 0 13).

(** [(struct dinode* )bp->data + k]. *)
Definition get_dinode (d : list Z) (k : Z) : dinode := decode_dinode (sub d (64 * Z.to_nat k) 64).
Definition put_dinode (d : list Z) (k : Z) (x : dinode) : list Z :=
  splice d (64 * Z.to_nat k) (encode_dinode x).

(** [struct inode]; [i_d] is its copy of the disk inode. *)
Record inode := Inode {
  i_dev : Z;
  i_inum : Z;
  i_ref : Z;
  i_lock : Sleep.sleeplock;
  i_valid : bool;
  i_d : dinode
}.

Definition empty_inode : inode := Inode 0 0 0 Sleep.initsleeplock false (zero_dinode 0).

(** [iinit]'s table. *)
Definition icache_init : list inode := replicate (Z.to_nat NINODE) empty_inode.

(** The state of the file system: the block layer and [icache]. *)
Record fstate (S : Type) := FState { f_blk : S; f_inodes : list inode }.
Arguments FState {S} f_blk f_inodes.
Arguments f_blk {S}.
Arguments f_inodes {S}.

Definition with_ref (x : inode) r := Inode (i_dev x) (i_inum x) r (i_lock x) (i_valid x) (i_d x).
Definition with_lock (x : inode) l := Inode (i_dev x) (i_inum x) (i_ref x) l (i_valid x) (i_d x).
Definition with_valid (x : inode) b := Inode (i_dev x) (i_inum x) (i_ref x) (i_lock x) b (i_d x).
Definition with_d (x : inode) d := Inode (i_dev x) (i_inum x) (i_ref x) (i_lock x) (i_valid x) d.

Definition with_type (d : dinode) t := Dinode t (d_major d) (d_minor d) (d_nlink d) (d_size d) (d_addrs d).
Definition with_nlink (d : dinode) n := Dinode (d_type d) (d_major d) (d_minor d) n (d_size d) (d_addrs d).
Definition with_size (d : dinode) n := Dinode (d_type d) (d_major d) (d_minor d) (d_nlink d) n (d_addrs d).
Definition with_addrs (d : dinode) a := Dinode (d_type d) (d_major d) (d_minor d) (d_nlink d) (d_size d) a.

Section operations.
Context {S : Type} `{!BlockLayer S}.
Context (pid : Z) (sb : superblock).
Abbreviation St := (fstate S).

Definition onblk {A} (m : M S A) : M St A :=
  lift f_blk (fun b s => FState b (f_inodes s)) m.

Definition getinode (ip : nat) (s : St) : inode := default empty_inode (f_inodes s !! ip).
Definition setinode (ip : nat) (x : inode) : M St unit :=
  modify (fun s => FState (f_blk s) (<[ip := x]> (f_inodes s))).
Definition modinode (ip : nat) (f : inode -> inode) : M St unit :=
  x <- gets (getinode ip);; setinode ip (f x).

Definition IBLOCK (i : Z) : Z := i / IPB + sb_inodestart sb.

Definition iget (dev inum : Z) : M St nat :=
  ics <- gets f_inodes;;
  match list_find (fun x => 0 < i_ref x /\ i_dev x = dev /\ i_inum x = inum) ics with
  | Some (ip, x) => setinode ip (with_ref x (i_ref x + 1));; ret ip
  | None =>
      match list_find (fun x => i_ref x = 0) ics with
      | None => panic "iget: no inodes"
      | Some (ip, x) => setinode ip (Inode dev inum 1 (i_lock x) false (i_d x));; ret ip
      end
  end.

Definition ialloc (dev type : Z) : M St nat :=
  r <- scan (fun inum =>
    bp <- onblk (bl_bread dev (IBLOCK inum));;
    d <- gets (fun s => bl_data bp (f_blk s));;
    if d_type (get_dinode d (inum mod IPB)) =? 0 then       (* a free inode *)
      onblk (bl_set bp (put_dinode d (inum mod IPB) (zero_dinode type)));;
      onblk (bl_log_write bp);;                             (* mark it allocated on the disk *)
      onblk (bl_brelse bp);;
      ip <- iget dev inum;;
      ret (Some ip)
    else
      onblk (bl_brelse bp);;
      ret None) (seqZ 1 (sb_ninodes sb - 1));;
  match r with
  | Some ip => ret ip
  | None => panic "ialloc: no inodes"
  end.

Definition iupdate (ip : nat) : M St unit :=
  x <- gets (getinode ip);;
  bp <- onblk (bl_bread (i_dev x) (IBLOCK (i_inum x)));;
  d <- gets (fun s => bl_data bp (f_blk s));;
  onblk (bl_set bp (put_dinode d (i_inum x mod IPB) (i_d x)));;
  onblk (bl_log_write bp);;
  onblk (bl_brelse bp).

Definition idup (ip : nat) : M St nat :=
  modinode ip (fun x => with_ref x (i_ref x + 1));; ret ip.

(** [acquiresleep(&ip->lock)]. *)
Definition lockinode (ip : nat) : M St unit :=
  x <- gets (getinode ip);;
  match Sleep.acquiresleep pid (i_lock x) with
  | None => block
  | Some l => setinode ip (with_lock x l)
  end.

Definition ilock (ip : nat) : M St unit :=
  x <- gets (getinode ip);;
  if i_ref x <? 1 then panic "ilock" else
  lockinode ip;;
  x <- gets (getinode ip);;
  when (negb (i_valid x)) (
    bp <- onblk (bl_bread (i_dev x) (IBLOCK (i_inum x)));;
    d <- gets (fun s => bl_data bp (f_blk s));;
    let di := get_dinode d (i_inum x mod IPB) in
    modinode ip (fun x => with_d x di);;
    onblk (bl_brelse bp);;
    modinode ip (fun x => with_valid x true);;
    when (d_type di =? 0) (panic "ilock: no type")).

Definition iunlock (ip : nat) : M St unit :=
  x <- gets (getinode ip);;
  if negb (Sleep.holdingsleep pid (i_lock x)) || (i_ref x <? 1) then panic "iunlock" else
  setinode ip (with_lock x (Sleep.releasesleep (i_lock x))).

(** [if(a[j]) bfree(dev, a[j])] over the entries of the block in [bp]. *)
Definition bfree_entries (dev : Z) (bp : nat) : M St unit :=
  each (fun j =>
    a <- gets (fun s => bl_data bp (f_blk s));;
    when (negb (get32 a j =? 0)) (onblk (bfree sb dev (get32 a j)))) (seq 0 (Z.to_nat NINDIRECT)).

Definition set_addr (ip : nat) (i : Z) (b : Z) : M St unit :=
  modinode ip (fun x => with_d x (with_addrs (i_d x) (<[Z.to_nat i := b]> (d_addrs (i_d x))))).
Definition addr (x : inode) (i : Z) : Z := default 0 (d_addrs (i_d x) !! Z.to_nat i).

Definition itrunc (ip : nat) : M St unit :=
  (* free the direct pointers *)
  each (fun i =>
    x <- gets (getinode ip);;
    when (negb (addr x i =? 0)) (
      onblk (bfree sb (i_dev x) (addr x i));;
      set_addr ip i 0)) (seqZ 0 NDIRECT);;
  (* free the indirect pointer *)
  x <- gets (getinode ip);;
  when (negb (addr x NDIRECT =? 0)) (
    bp <- onblk (bl_bread (i_dev x) (addr x NDIRECT));;
    bfree_entries (i_dev x) bp;;
    onblk (bl_brelse bp);;
    onblk (bfree sb (i_dev x) (addr x NDIRECT));;
    set_addr ip NDIRECT 0);;
  (* free the double indirect pointer *)
  x <- gets (getinode ip);;
  when (negb (addr x (NDIRECT + 1) =? 0)) (
    dbp <- onblk (bl_bread (i_dev x) (addr x (NDIRECT + 1)));;
    each (fun k =>
      d <- gets (fun s => bl_data dbp (f_blk s));;
      when (negb (get32 d k =? 0)) (
        bp <- onblk (bl_bread (i_dev x) (get32 d k));;
        bfree_entries (i_dev x) bp;;
        onblk (bl_brelse bp);;
        onblk (bfree sb (i_dev x) (get32 d k));;
        d <- gets (fun s => bl_data dbp (f_blk s));;
        onblk (bl_set dbp (set32 d k 0)))) (seq 0 (Z.to_nat NINDIRECT));;
    onblk (bl_brelse dbp);;
    onblk (bfree sb (i_dev x) (addr x (NDIRECT + 1)));;
    set_addr ip (NDIRECT + 1) 0);;
  modinode ip (fun x => with_d x (with_size (i_d x) 0));;
  iupdate ip.

Definition iput (ip : nat) : M St unit :=
  lockinode ip;;
  x <- gets (getinode ip);;
  when (i_valid x && (d_nlink (i_d x) =? 0)) (
    r <- gets (fun s => i_ref (getinode ip s));;
    when (r =? 1) (
      (* inode has no links and no other references: truncate and free. *)
      itrunc ip;;
      modinode ip (fun x => with_d x (with_type (i_d x) 0));;
      iupdate ip;;
      modinode ip (fun x => with_valid x false)));;
  modinode ip (fun x => with_lock x (Sleep.releasesleep (i_lock x)));;
  modinode ip (fun x => with_ref x (i_ref x - 1)).

Definition iunlockput (ip : nat) : M St unit := iunlock ip;; iput ip.

(** [stati]. *)
Definition stati (x : inode) : Z * Z * Z * Z * Z :=
  (i_dev x, i_inum x, d_type (i_d x), d_nlink (i_d x), d_size (i_d x)).
End operations.

(** ** The encoding of an inode *)

Record dinode_ok (x : dinode) : Prop := {
  dk_type : - 2 ^ 15 <= d_type x < 2 ^ 15;
  dk_major : - 2 ^ 15 <= d_major x < 2 ^ 15;
  dk_minor : - 2 ^ 15 <= d_minor x < 2 ^ 15;
  dk_nlink : - 2 ^ 15 <= d_nlink x < 2 ^ 15;
  dk_size : 0 <= d_size x < 2 ^ 32;
  dk_len : length (d_addrs x) = 13%nat;
  dk_addrs : Forall (fun a => 0 <= a < 2 ^ 32) (d_addrs x)
}.

Lemma length_words l : length (concat (le_bytes 4 <$> l)) = (4 * length l)%nat.
Proof.
  induction l as [|a l IH]; [done|]. rewrite fmap_cons. cbn [concat]. rewrite length_app, length_le_bytes, IH.
  cbn [length]. lia.
Qed.

Lemma sub_words l : forall i a, l !! i = Some a ->
  sub (concat (le_bytes 4 <$> l)) (4 * i) 4 = le_bytes 4 a.
Proof.
  induction l as [|b l IH]; intros i a Hi; [done|]. rewrite fmap_cons. cbn [concat]. destruct i as [|i].
  - injection Hi as ->. replace (4 * 0)%nat with 0%nat by lia.
    replace 4%nat with (length (le_bytes 4 a)) at 3 by apply length_le_bytes. apply sub_app_l.
  - replace (4 * S i)%nat with (length (le_bytes 4 b) + 4 * i)%nat by (rewrite length_le_bytes; lia).
    rewrite sub_app_r. by apply IH.
Qed.

Lemma length_encode_dinode x : length (d_addrs x) = 13%nat -> length (encode_dinode x) = 64%nat.
Proof.
  intros Hl. unfold encode_dinode. rewrite !length_app, !length_le_bytes, length_words, Hl. done.
Qed.

Lemma bytes_encode_dinode x : bytes (encode_dinode x).
Proof.
  unfold encode_dinode, bytes. rewrite !Forall_app. split_and!; try apply bytes_le_bytes.
  apply Forall_concat, Forall_fmap, Forall_true. intros a. apply bytes_le_bytes.
Qed.

(** Reading field by field through the concatenation. *)
Lemma sub_field n z (l : list Z) : sub (le_bytes n z ++ l) 0 n = le_bytes n z.
Proof. pose proof (sub_app_l (le_bytes n z) l) as H. by rewrite length_le_bytes in H. Qed.

Lemma sub_skip n z (l : list Z) i k : sub (le_bytes n z ++ l) (n + i) k = sub l i k.
Proof. pose proof (sub_app_r (le_bytes n z) l i k) as H. by rewrite length_le_bytes in H. Qed.

Lemma decode_encode_dinode x : dinode_ok x -> decode_dinode (encode_dinode x) = x.
Proof.
  intros [H1 H2 H3 H4 H5 H6 H7]. destruct x as [t ma mi nl sz addrs]. cbn in H1, H2, H3, H4, H5, H6, H7.
  unfold decode_dinode, encode_dinode. cbn [d_type d_major d_minor d_nlink d_size d_addrs]. f_equal.
  - rewrite sub_field, le_val_bytes. by apply s16_small.
  - rewrite (sub_skip 2 t _ 0), sub_field, le_val_bytes. by apply s16_small.
  - rewrite (sub_skip 2 t _ 2), (sub_skip 2 ma _ 0), sub_field, le_val_bytes. by apply s16_small.
  - rewrite (sub_skip 2 t _ 4), (sub_skip 2 ma _ 2), (sub_skip 2 mi _ 0), sub_field, le_val_bytes.
    by apply s16_small.
  - rewrite (sub_skip 2 t _ 6), (sub_skip 2 ma _ 4), (sub_skip 2 mi _ 2), (sub_skip 2 nl _ 0).
    rewrite sub_field, le_val_bytes. by apply Z.mod_small.
  - apply list_eq. intros i. rewrite list_lookup_fmap. destruct (addrs !! i) as [a|] eqn:Ha.
    + pose proof (lookup_lt_Some _ _ _ Ha). rewrite lookup_seq_lt by lia. cbn [fmap option_fmap option_map].
      rewrite Nat.add_0_l. change (12 + 4 * i)%nat with (2 + (2 + (2 + (2 + (4 + 4 * i)))))%nat.
      rewrite !sub_skip, (sub_words _ _ a) by done. rewrite le_val_bytes. f_equal. apply Z.mod_small.
      rewrite Forall_lookup in H7. by eapply H7.
    + apply lookup_ge_None_1 in Ha. rewrite lookup_seq_ge by lia. done.
Qed.

Lemma zero_dinode_ok t : - 2 ^ 15 <= t < 2 ^ 15 -> dinode_ok (zero_dinode t).
Proof.
  intros Ht. constructor; try done. apply Forall_replicate. lia.
Qed.

Section codec.
Context (d : list Z) (k : Z) (x : dinode).
Context (Hd : block_ok d) (Hk : 0 <= k < IPB) (Hx : dinode_ok x).

Lemma put_fits : (64 * Z.to_nat k + length (encode_dinode x) <= length d)%nat.
Proof. destruct Hd as [-> _]. rewrite length_encode_dinode by apply Hx. plia. Qed.

Lemma put_dinode_ok : block_ok (put_dinode d k x).
Proof.
  pose proof put_fits. split.
  - unfold put_dinode. rewrite length_splice by done. apply Hd.
  - apply bytes_splice; [apply Hd|apply bytes_encode_dinode].
Qed.

Lemma get_put_dinode_eq : get_dinode (put_dinode d k x) k = x.
Proof.
  unfold get_dinode, put_dinode. pose proof (sub_splice_eq _ _ _ put_fits) as E.
  rewrite length_encode_dinode in E by apply Hx. rewrite E. by apply decode_encode_dinode.
Qed.

Lemma get_put_dinode_ne j : 0 <= j -> j <> k -> get_dinode (put_dinode d k x) j = get_dinode d j.
Proof.
  intros Hj Hne. unfold get_dinode, put_dinode. f_equal. apply sub_splice_ne; [apply put_fits|].
  rewrite length_encode_dinode by apply Hx. lia.
Qed.
End codec.

(** ** Specifications *)

Section specs.
Context {S : Type} `{!BlockLayer S} `{!BlockLaws S}.
Context (pid : Z) (sb : superblock).
Context (geo : fsgeo sb).
Context (EP : string -> Prop) (HE : forall msg, res_panic msg -> EP msg).
Abbreviation St := (fstate S).

Lemma wp_onblk {A} (m : M S A) (Q : A -> St -> Prop) b ics :
  wp EP m (fun a b' => Q a (FState b' ics)) b -> wp EP (onblk m) Q (FState b ics).
Proof. intros H. by apply wp_lift. Qed.

Lemma getinode_lookup ip x b ics : ics !! ip = Some x -> getinode ip (FState (S := S) b ics) = x.
Proof. unfold getinode. cbn. by intros ->. Qed.

Lemma wp_modinode ip f x (Q : unit -> St -> Prop) b ics :
  ics !! ip = Some x -> Q tt (FState b (<[ip := f x]> ics)) -> wp EP (modinode ip f) Q (FState b ics).
Proof.
  intros Hx HQ. unfold modinode, setinode. do 2 wp_step. rewrite (getinode_lookup _ _ _ _ Hx). by wp_step.
Qed.

(** Inode [i] as the disk has it. *)
Definition dino (v : Z -> list Z) (i : Z) : dinode := get_dinode (v (IBLOCK sb i)) (i mod IPB).

Definition is_ino (i : Z) : Prop := 0 <= i < sb_ninodes sb.

Lemma IBLOCK_range i : is_ino i -> sb_inodestart sb <= IBLOCK sb i < sb_bmapstart sb.
Proof.
  intros Hi. unfold is_ino in Hi. pose proof (fg_bmap sb geo). unfold IBLOCK. change IPB with 8 in *. lia.
Qed.

Lemma IBLOCK_home i : is_ino i -> bl_home (IBLOCK sb i).
Proof.
  intros Hi%IBLOCK_range. apply (fg_home sb geo). pose proof (fg_order sb geo). pose proof (fg_size sb geo). lia.
Qed.

Lemma IBLOCK_not_data i : is_ino i -> ~ is_data sb (IBLOCK sb i).
Proof. intros Hi%IBLOCK_range. pose proof (fg_order sb geo). unfold is_data. lia. Qed.

Lemma IBLOCK_not_bmap i : is_ino i -> ~ is_bmap sb (IBLOCK sb i).
Proof. intros Hi%IBLOCK_range. unfold is_bmap. lia. Qed.

(** What rewriting inode [i] as [x] does to the disk. *)
Definition ino_changed (v v' : Z -> list Z) (i : Z) (x : dinode) : Prop :=
  (forall a, a <> IBLOCK sb i -> v' a = v a) /\
  (forall j, is_ino j -> dino v' j = if decide (j = i) then x else dino v j).

Lemma put_changed v i x :
  is_ino i -> block_ok (v (IBLOCK sb i)) -> dinode_ok x ->
  ino_changed v (vset v (IBLOCK sb i) (put_dinode (v (IBLOCK sb i)) (i mod IPB) x)) i x.
Proof.
  intros Hi Hok Hx. split.
  - intros a Ha. unfold vset. by rewrite decide_False.
  - intros j Hj. unfold dino, vset. destruct (decide (j = i)) as [->|Hne].
    + rewrite decide_True by done. apply get_put_dinode_eq; [done|plia|done].
    + case_decide as E; [|done]. rewrite E. unfold is_ino in *.
      apply get_put_dinode_ne; [done|plia|done|plia|]. unfold IBLOCK in E. revert E. plia.
Qed.

(** The rest of the hypotheses the block allocator makes. *)
Definition data_only (h : gmap nat Z) (sf : gset Z) : Prop :=
  (forall a, a ∈ sf -> is_data sb a) /\ (forall i c, h !! i = Some c -> is_data sb c).

Lemma iblock_free h (sf dt : gset Z) b v i :
  bst (S := S) b v h sf dt -> data_only h sf -> is_ino i ->
  IBLOCK sb i ∉ sf /\ IBLOCK sb i ∉ dt /\ (forall j, h !! j <> Some (IBLOCK sb i)).
Proof.
  intros Hb [Hsf Hh] Hi. pose proof (IBLOCK_not_data i Hi) as Hn. split; [|split].
  - intros ?%Hsf. done.
  - intros (j & Hj)%(st_dirty _ _ _ _ _ Hb). by apply Hn, (Hh j).
  - intros j Hj. by apply Hn, (Hh j).
Qed.

(** Rewriting an inode's slot and releasing the block. *)
Lemma wp_put_inode b v h sf dt bp i x ics (Q : unit -> St -> Prop) :
  bst b v (<[bp := IBLOCK sb i]> h) sf dt -> h !! bp = None -> is_ino i -> dinode_ok x ->
  IBLOCK sb i ∉ sf -> IBLOCK sb i ∉ dt ->
  (forall b' v', bst b' v' h sf dt -> ino_changed v v' i x -> Q tt (FState b' ics)) ->
  wp EP (onblk (bl_set bp (put_dinode (v (IBLOCK sb i)) (i mod IPB) x));;
         onblk (bl_log_write bp);; onblk (bl_brelse bp)) Q (FState b ics).
Proof.
  intros Hb Hbp Hi Hx Hsf Hdt HQ. pose proof (bst_view_ok _ _ _ _ _ _ Hb Hsf) as Hok.
  apply wp_lift3; [done|done|]. cbn [f_blk f_inodes].
  wp_upd; [done|by rewrite lookup_insert_eq|by apply IBLOCK_home|by apply put_dinode_ok; [|plia|]|].
  intros b1 Hb1. eapply (wp_brelse _); [done|by rewrite lookup_insert_eq|set_solver|].
  intros b2 Hb2. rewrite delete_insert_id in Hb2 by done. replace (sf ∖ _) with sf in Hb2 by set_solver.
  replace (dt ∖ _) with dt in Hb2 by set_solver. eapply HQ; [done|]. by apply put_changed.
Qed.

Lemma iupdate_spec b v h sf dt ics ip x (Q : unit -> St -> Prop) :
  bst b v h sf dt -> data_only h sf -> ics !! ip = Some x ->
  i_dev x = 1 -> is_ino (i_inum x) -> dinode_ok (i_d x) ->
  (forall b' v', bst b' v' h sf dt -> ino_changed v v' (i_inum x) (i_d x) -> Q tt (FState b' ics)) ->
  wp EP (iupdate sb ip) Q (FState b ics).
Proof.
  intros Hb Hdo Hip Hdev Hi Hx HQ. destruct (iblock_free h sf dt b v _ Hb Hdo Hi) as (Hsf & Hdt & Hh).
  unfold iupdate. do 2 wp_step. rewrite (getinode_lookup _ _ _ _ Hip), Hdev.
  wp_step. apply wp_onblk. eapply (wp_bread _ HE); [done|done|by apply bl_home_range, IBLOCK_home|].
  intros bp b1 Hbp Hb1. do 2 wp_step. cbn [f_blk].
  rewrite (wp_data _ _ _ _ _ _ _ Hb1 (lookup_insert_eq _ _ _)) by done.
  by eapply wp_put_inode.
Qed.

(** [ilock] of an unlocked, referenced inode: the table has the disk's copy. *)
Lemma ilock_spec b v h sf dt ics ip x (Q : unit -> St -> Prop) :
  bst b v h sf dt -> data_only h sf -> ics !! ip = Some x ->
  i_dev x = 1 -> is_ino (i_inum x) -> 0 < i_ref x -> Sleep.locked (i_lock x) = false ->
  let di := if i_valid x then i_d x else dino v (i_inum x) in
  d_type di <> 0 ->
  (forall b', bst b' v h sf dt ->
     Q tt (FState b' (<[ip := Inode (i_dev x) (i_inum x) (i_ref x) (Sleep.Sleeplock true pid) true di]> ics))) ->
  wp EP (ilock pid sb ip) Q (FState b ics).
Proof.
  intros Hb Hdo Hip Hdev Hi Hr Hl di Hty HQ. destruct (iblock_free h sf dt b v _ Hb Hdo Hi) as (Hsf & Hdt & Hh).
  pose proof (lookup_lt_Some _ _ _ Hip) as Hlt.
  unfold ilock, lockinode, setinode. do 2 wp_step. rewrite (getinode_lookup _ _ _ _ Hip).
  rewrite (proj2 (Z.ltb_ge _ _)) by lia. do 3 wp_step. rewrite (getinode_lookup _ _ _ _ Hip).
  unfold Sleep.acquiresleep. rewrite Hl. wp_step. cbn [f_blk f_inodes]. do 2 wp_step.
  set (ics1 := <[ip := _]> ics). assert (ics1 !! ip = Some (with_lock x (Sleep.Sleeplock true pid))) as Hip1
    by by apply list_lookup_insert_eq.
  rewrite (getinode_lookup _ _ _ _ Hip1). cbn [with_lock i_valid i_dev i_inum].
  apply wp_when; intros Hv.
  - apply negb_true_iff in Hv. unfold di in *. rewrite Hv in *. rewrite Hdev.
    wp_step. apply wp_onblk. eapply (wp_bread _ HE); [done|done|by apply bl_home_range, IBLOCK_home|].
    intros bp b1 Hbp Hb1. do 2 wp_step. cbn [f_blk].
    rewrite (wp_data _ _ _ _ _ _ _ Hb1 (lookup_insert_eq _ _ _)) by done.
    wp_step. eapply wp_modinode; [done|]. unfold ics1. rewrite list_insert_insert_eq.
    wp_step. apply wp_onblk. eapply (wp_brelse _); [done|by rewrite lookup_insert_eq|done|].
    intros b2 Hb2. rewrite delete_insert_id in Hb2 by done.
    wp_step. eapply wp_modinode; [by apply list_lookup_insert_eq|]. rewrite list_insert_insert_eq.
    apply wp_when; intros Ht; [by apply Z.eqb_eq in Ht|]. by apply HQ.
  - apply negb_false_iff in Hv. unfold di in *. rewrite Hv in *.
    specialize (HQ b Hb). unfold ics1, with_lock. by rewrite Hv.
Qed.

(** [iunlock] by the holder. *)
Lemma iunlock_spec b ics ip x (Q : unit -> St -> Prop) :
  ics !! ip = Some x -> i_lock x = Sleep.Sleeplock true pid -> 0 < i_ref x ->
  Q tt (FState b (<[ip := with_lock x Sleep.initsleeplock]> ics)) ->
  wp EP (iunlock pid ip) Q (FState b ics).
Proof.
  intros Hip Hl Hr HQ. unfold iunlock, setinode. do 2 wp_step. rewrite (getinode_lookup _ _ _ _ Hip).
  unfold Sleep.holdingsleep. rewrite Hl. cbn [Sleep.locked Sleep.pid]. rewrite Z.eqb_refl.
  rewrite (proj2 (Z.ltb_ge _ _)) by lia. cbn [andb negb orb]. by wp_step.
Qed.
End specs.
