(* ===== verification/Bmap.v ===== *)
(** * The block map of a file ([kernel/fs.c]: [bmap])

    A file's block addresses form a tree: 11 direct addresses, one block of
    addresses, one block of blocks of addresses.  [saddr] reads the tree off
    the disk; [bmap] is shown to extend it one path at a time. *)

From S2P Require Import Prelude Params Locks Bio Log Crash Block Balloc Inode.
Local Open Scope Z_scope.
Local Open Scope kmonad_scope.

Section operations.
Context {S : Type} `{!BlockLayer S}.
Context (sb : superblock).
Abbreviation St := (fstate S).

(** [if((addr = ip->addrs[i]) == 0) ip->addrs[i] = addr = balloc(ip->dev)]. *)
Definition addr_or_alloc (ip : nat) (i : Z) : M St Z :=
  x <- gets (getinode ip);;
  if addr x i =? 0 then
    b <- onblk (balloc sb (i_dev x));;
    set_addr ip i b;;
    ret b
  else ret (addr x i).

(** [if((addr = a[j]) == 0){ a[j] = addr = balloc(ip->dev); log_write(bp); ... }],
    [a] the data of [bp]; [more] is what follows the [log_write]. *)
Definition entry_or_alloc (dev : Z) (bp : nat) (j : Z) (more : M St unit) : M St Z :=
  a <- gets (fun s => bl_data bp (f_blk s));;
  if get32 a (Z.to_nat j) =? 0 then
    b <- onblk (balloc sb dev);;
    a <- gets (fun s => bl_data bp (f_blk s));;
    onblk (bl_set bp (set32 a (Z.to_nat j) b));;
    onblk (bl_log_write bp);;
    more;;
    ret b
  else ret (get32 a (Z.to_nat j)).

Definition bmap (ip : nat) (bn : Z) : M St Z :=
  dev <- gets (fun s => i_dev (getinode ip s));;
  (* Direct Pointer *)
  if bn <? NDIRECT then addr_or_alloc ip bn else
  let bn := bn - NDIRECT in
  (* Indirect Pointer *)
  if bn <? NINDIRECT then
    a <- addr_or_alloc ip NDIRECT;;
    bp <- onblk (bl_bread dev a);;
    r <- entry_or_alloc dev bp bn (ret tt);;
    onblk (bl_brelse bp);;
    ret r
  else
  let bn := bn - NINDIRECT in
  if bn <? NDINDIRECT then
    a <- addr_or_alloc ip (NDIRECT + 1);;
    dbp <- onblk (bl_bread dev a);;
    a <- entry_or_alloc dev dbp (bn / NINDIRECT) (ret tt);;
    bp <- onblk (bl_bread dev a);;
    r <- entry_or_alloc dev bp (bn mod NINDIRECT) (onblk (bl_log_write dbp));;
    onblk (bl_brelse bp);;
    onblk (bl_brelse dbp);;
    ret r
  else panic "bmap: out of range".
End operations.

(** ** The tree *)

(** A place that holds a block address: an entry of [ip->addrs], or entry [j]
    of the block at another place. *)
Inductive slot :=
| Root (i : Z)
| Ent (p : slot) (j : Z).

#[export] Instance slot_eq_dec : EqDecision slot.
Proof. solve_decision. Defined.

Fixpoint saddr (v : Z -> list Z) (ads : list Z) (s : slot) : Z :=
  match s with
  | Root i => default 0 (ads !! Z.to_nat i)
  | Ent p j => if saddr v ads p =? 0 then 0 else get32 (v (saddr v ads p)) (Z.to_nat j)
  end.

Lemma saddr_Ent v ads p j :
  saddr v ads (Ent p j) = if saddr v ads p =? 0 then 0 else get32 (v (saddr v ads p)) (Z.to_nat j).
Proof. reflexivity. Qed.

(** The places that hold the address of a block of addresses. *)
Inductive interior : slot -> Prop :=
| in_ind : interior (Root NDIRECT)
| in_dind : interior (Root (NDIRECT + 1))
| in_dent k : 0 <= k < NINDIRECT -> interior (Ent (Root (NDIRECT + 1)) k).

Inductive leaf : slot -> Prop :=
| lf_direct i : 0 <= i < NDIRECT -> leaf (Root i)
| lf_ind j : 0 <= j < NINDIRECT -> leaf (Ent (Root NDIRECT) j)
| lf_dind k j : 0 <= k < NINDIRECT -> 0 <= j < NINDIRECT -> leaf (Ent (Ent (Root (NDIRECT + 1)) k) j).

Definition slot_ok (s : slot) : Prop := interior s \/ leaf s.

(** The place of the address of the file's block [bn]. *)
Definition fslot (bn : Z) : slot :=
  if bn <? NDIRECT then Root bn
  else if bn - NDIRECT <? NINDIRECT then Ent (Root NDIRECT) (bn - NDIRECT)
  else let b := bn - NDIRECT - NINDIRECT in
       Ent (Ent (Root (NDIRECT + 1)) (b / NINDIRECT)) (b mod NINDIRECT).

Lemma leaf_not_interior s : leaf s -> ~ interior s.
Proof. intros [i Hi|j Hj|k j Hk Hj] Hn; inversion Hn; subst; revert Hi || idtac; plia. Qed.

Lemma fslot_leaf bn : 0 <= bn < MAXFILE -> leaf (fslot bn).
Proof.
  intros Hbn. unfold fslot. destruct (bn <? NDIRECT) eqn:E1; [constructor; plia|].
  destruct (bn - NDIRECT <? NINDIRECT) eqn:E2; [apply lf_ind|apply lf_dind]; revert Hbn E1 E2; plia.
Qed.

Lemma fslot_inj bn bn' : 0 <= bn < MAXFILE -> 0 <= bn' < MAXFILE -> fslot bn = fslot bn' -> bn = bn'.
Proof.
  intros Hbn Hbn'. unfold fslot.
  destruct (bn <? NDIRECT) eqn:E1, (bn' <? NDIRECT) eqn:E1'; [congruence| | |].
  - by destruct (bn' - NDIRECT <? NINDIRECT).
  - by destruct (bn - NDIRECT <? NINDIRECT).
  - destruct (bn - NDIRECT <? NINDIRECT) eqn:E2, (bn' - NDIRECT <? NINDIRECT) eqn:E2'; intros [= H]; try lia.
Qed.

Lemma slot_parent p j : slot_ok (Ent p j) -> interior p /\ 0 <= j < NINDIRECT.
Proof. intros [H|H]; inversion H; subst; split; try done; by constructor. Qed.

(** [s] is on the path to [t]. *)
Fixpoint above (s t : slot) : Prop :=
  match t with
  | Root _ => False
  | Ent p _ => s = p \/ above s p
  end.

Lemma saddr_above v ads s t : above s t -> saddr v ads t <> 0 -> saddr v ads s <> 0.
Proof.
  induction t as [|p IH j]; [done|]. cbn [above saddr]. intros Ha Hne.
  destruct (saddr v ads p =? 0) eqn:E; [done|]. apply Z.eqb_neq in E. destruct Ha as [->|Ha]; [done|by apply IH].
Qed.

Lemma saddr_ext v v' ads s : (forall a, v' a = v a) -> saddr v' ads s = saddr v ads s.
Proof. intros Hv. induction s as [|p IH j]; [done|]. cbn [saddr]. by rewrite IH, Hv. Qed.

Section tree.
Context (sb : superblock).
Context (Hg : (1 < sb_inodestart sb < sb_bmapstart sb /\ 0 <= sb_size sb / BPB) /\ sb_size sb < 2 ^ 31).
Abbreviation used := (used sb).
Abbreviation is_data := (is_data sb).
Abbreviation is_bmap := (is_bmap sb).

(** The blocks of the tree are data blocks in use, each in one place only, and
    their contents are known. *)
Record tree_ok (v : Z -> list Z) (ads : list Z) (sf : gset Z) : Prop := {
  tr_len : length ads = 13%nat;
  tr_data s : slot_ok s -> saddr v ads s <> 0 ->
    is_data (saddr v ads s) /\ used v (saddr v ads s) = true /\ saddr v ads s ∉ sf;
  tr_inj s s' : slot_ok s -> slot_ok s' -> saddr v ads s <> 0 -> saddr v ads s = saddr v ads s' -> s = s'
}.

(** The tree after blocks have been allocated for the places [ss]. *)
Record grown (v : Z -> list Z) (ads : list Z) (sf : gset Z)
    (v' : Z -> list Z) (ads' : list Z) (sf' : gset Z) (ss : list slot) : Prop := {
  g_tree : tree_ok v' ads' sf';
  g_meta : meta_used sb v';
  g_old s : slot_ok s -> s ∉ ss -> saddr v' ads' s = saddr v ads s;
  g_new s : s ∈ ss -> slot_ok s /\ saddr v ads s = 0 /\ saddr v' ads' s <> 0 /\
    used v (saddr v' ads' s) = false;
  g_used c : 0 <= c < sb_size sb ->
    used v' c = true <-> used v c = true \/ exists s, s ∈ ss /\ c = saddr v' ads' s;
  g_sf : sf' ⊆ sf;
  g_frame a : 0 <= a < sb_size sb -> ~ is_bmap a -> used v a = true ->
    (forall s, interior s -> saddr v ads s = a -> a = 0) -> v' a = v a;
  g_zero s : s ∈ ss -> leaf s -> v' (saddr v' ads' s) = zero_block;
  g_nil : ss = [] -> ads' = ads /\ sf' = sf /\ forall a, v' a = v a
}.

Lemma interior_ok s : interior s -> slot_ok s.
Proof. by left. Qed.
Lemma leaf_ok s : leaf s -> slot_ok s.
Proof. by right. Qed.

Lemma data_range b : is_data b -> 0 < b < sb_size sb.
Proof using Hg. unfold is_data. lia. Qed.

Lemma grown_nil v ads sf : tree_ok v ads sf -> meta_used sb v -> grown v ads sf v ads sf [].
Proof.
  intros Ht Hm. constructor; try done.
  - intros s Hs. by apply elem_of_nil in Hs.
  - intros c Hc. split; [by left|]. intros [?|(s & Hs & _)]; [done|]. by apply elem_of_nil in Hs.
  - intros s Hs. by apply elem_of_nil in Hs.
Qed.

Lemma grown_app v1 a1 f1 v2 a2 f2 v3 a3 f3 ss ss' :
  grown v1 a1 f1 v2 a2 f2 ss -> grown v2 a2 f2 v3 a3 f3 ss' -> grown v1 a1 f1 v3 a3 f3 (ss ++ ss').
Proof.
  intros [A1 Am A2 A3 A4 A5 A6 A7 A8] [B1 Bm B2 B3 B4 B5 B6 B7 B8].
  assert (forall s, s ∈ ss -> s ∉ ss') as Hdis.
  { intros s (_ & _ & Hs & _)%A3 Hs'. by apply B3 in Hs' as (_ & Hs' & _). }
  assert (forall s, s ∈ ss -> saddr v3 a3 s = saddr v2 a2 s) as Hkeep.
  { intros s Hs. apply B2; [by apply A3|by apply Hdis]. }
  constructor; [done|done|..].
  - intros s Hs [Hn Hn']%not_elem_of_app. by rewrite B2, A2.
  - intros s [Hs|Hs]%elem_of_app.
    + rewrite Hkeep by done. by apply A3.
    + destruct (B3 s Hs) as (Hok & H0 & Hne & Hu). split; [done|]. split.
      * destruct (decide (s ∈ ss)) as [Hin|Hnin]; [by apply Hdis in Hin|]. by rewrite <- A2.
      * split; [done|]. destruct (used v1 _) eqn:E; [|done].
        destruct (tr_data _ _ _ B1 s Hok Hne) as (Hd%data_range & _).
        assert (used v2 (saddr v3 a3 s) = true); [|congruence]. apply A4; [lia|by left].
  - intros c Hc. rewrite B4, A4 by done. split.
    + intros [[?|(s & Hs & ->)]|(s & Hs & ->)]; [by left| |];
        right; exists s; rewrite elem_of_app; [by rewrite Hkeep; auto|by auto].
    + intros [?|(s & [Hs|Hs]%elem_of_app & ->)]; [by left; left| |by right; exists s].
      left. right. exists s. split; [done|]. by apply Hkeep.
  - set_solver.
  - intros a Hr Ha Hu Hint. rewrite B6; [by apply A6|done|done|by apply A4; [|left]|].
    intros s Hi Hs. destruct (decide (s ∈ ss)) as [Hin|Hnin].
    + apply A3 in Hin as (_ & _ & _ & Hf). congruence.
    + rewrite A2 in Hs by (done || by apply interior_ok). by eapply Hint.
  - intros s [Hs|Hs]%elem_of_app Hl; [|by apply B7]. rewrite Hkeep by done.
    destruct (A3 s Hs) as (Hok & _ & Hne & _). destruct (tr_data _ _ _ A1 s Hok Hne) as (Hd & Hu & _).
    rewrite B6; [by apply A7| |by apply data_not_bmap|done|].
    + apply data_range in Hd. lia.
    + intros s' Hi E. exfalso. apply (leaf_not_interior s); [done|].
      by rewrite (tr_inj _ _ _ A1 s s' Hok (interior_ok _ Hi) Hne (eq_sym E)).
  - intros [H1 H2]%app_eq_nil. destruct (A8 H1) as (-> & -> & E1), (B8 H2) as (-> & -> & E2).
    split; [done|]. split; [done|]. intros a. by rewrite E2.
Qed.

(** ** One allocation *)

Section alloc1.
Context (v : Z -> list Z) (ads : list Z) (sf : gset Z) (b : Z) (v1 : Z -> list Z).
Context (Ht : tree_ok v ads sf) (Hm : meta_used sb v) (Hb : balloced sb v b v1).

Lemma tree_not_new s : slot_ok s -> saddr v ads s <> b.
Proof using Ht Hb Hg.
  intros Hs E. destruct (decide (saddr v ads s = 0)) as [E0|Hne].
  - pose proof (ba_data _ _ _ _ Hb) as Hd%data_range. lia.
  - destruct (tr_data _ _ _ Ht s Hs Hne) as (_ & Hu & _). rewrite E, (ba_free _ _ _ _ Hb) in Hu. done.
Qed.

Lemma tree_kept s : slot_ok s -> saddr v ads s <> 0 -> v1 (saddr v ads s) = v (saddr v ads s).
Proof using Ht Hb Hg.
  intros Hs Hne. apply (ba_frame _ _ _ _ Hb); [|by apply tree_not_new].
  apply data_not_bmap. by apply (tr_data _ _ _ Ht).
Qed.

Lemma saddr_v1 s : slot_ok s -> saddr v1 ads s = saddr v ads s.
Proof using Ht Hb Hg.
  induction s as [i|p IH j]; intros Hs; [done|]. destruct (slot_parent p j Hs) as [Hp _].
  cbn [saddr]. rewrite IH by by left. destruct (_ =? 0) eqn:E; [done|].
  apply Z.eqb_neq in E. by rewrite tree_kept by (done || by left).
Qed.

Lemma saddr_ent v2 ads2 s q k :
  saddr v ads s = 0 ->
  saddr v2 ads2 q = (if decide (q = s) then b else saddr v ads q) ->
  v2 b = zero_block ->
  (Ent q k = s -> saddr v ads q <> 0) ->
  (q <> s -> saddr v ads q <> 0 -> get32 (v2 (saddr v ads q)) (Z.to_nat k) =
     if decide (Ent q k = s) then b else get32 (v (saddr v ads q)) (Z.to_nat k)) ->
  saddr v2 ads2 (Ent q k) = if decide (Ent q k = s) then b else saddr v ads (Ent q k).
Proof using Hb Hg.
  intros H0 Hq Hz Hp Hget. pose proof (ba_data _ _ _ _ Hb) as Hd%data_range. cbn [saddr]. rewrite Hq.
  destruct (decide (q = s)) as [->|Hne].
  - rewrite (proj2 (Z.eqb_neq b 0)) by lia. rewrite Hz. rewrite H0, Z.eqb_refl.
    rewrite decide_False; [apply get32_replicate|]. intros E. by apply Hp in E.
  - destruct (saddr v ads q =? 0) eqn:E.
    + apply Z.eqb_eq in E. rewrite decide_False; [done|]. intros E'. by apply Hp in E'.
    + apply Z.eqb_neq in E. by apply Hget.
Qed.

(** Storing the new address in [ip->addrs]. *)
Lemma saddr_set_root i t :
  0 <= i < 13 -> saddr v ads (Root i) = 0 -> slot_ok t ->
  saddr v1 (<[Z.to_nat i := b]> ads) t = if decide (t = Root i) then b else saddr v ads t.
Proof using Ht Hb Hg.
  intros Hi H0. induction t as [i'|q IH k]; intros Hok.
  - cbn [saddr]. destruct (decide (Root i' = Root i)) as [[= ->]|Hne].
    + rewrite list_lookup_insert_eq; [done|]. rewrite (tr_len _ _ _ Ht). lia.
    + rewrite list_lookup_insert_ne; [done|]. assert (0 <= i'); [|intros E; apply Hne; f_equal; lia].
      destruct Hok as [H|H]; inversion H; subst; plia.
  - destruct (slot_parent q k Hok) as [Hq _]. apply saddr_ent; [done|by apply IH, interior_ok|apply Hb|done|].
    intros Hne Hn0. rewrite decide_False by done. by rewrite tree_kept by (done || by left).
Qed.

(** Storing the new address in entry [j] of the block at place [p]. *)
Lemma saddr_set_entry p j t :
  slot_ok (Ent p j) -> saddr v ads p <> 0 -> saddr v ads (Ent p j) = 0 ->
  block_ok (v (saddr v ads p)) -> slot_ok t ->
  let a := saddr v ads p in
  saddr (vset v1 a (set32 (v1 a) (Z.to_nat j) b)) ads t = if decide (t = Ent p j) then b else saddr v ads t.
Proof using Ht Hb Hg.
  intros Hok Hp H0 [Hlen _] Ht' a. destruct (slot_parent p j Hok) as [Hpi Hj].
  pose proof (ba_data _ _ _ _ Hb) as Hd. pose proof (tr_data _ _ _ Ht p (interior_ok _ Hpi) Hp) as (Hda & _).
  pose proof (tree_kept p (interior_ok _ Hpi) Hp) as Hka. fold a in Hda, Hka, Hp, Hlen.
  pose proof (tree_not_new p (interior_ok _ Hpi)) as Hab. fold a in Hab.
  induction t as [i'|q IH k]; [by rewrite decide_False|].
  destruct (slot_parent q k Ht') as [Hq Hk]. apply saddr_ent; [done|by apply IH, interior_ok| | |].
  - unfold vset. rewrite decide_False by congruence. apply Hb.
  - intros [= -> ->]. done.
  - intros Hne Hn0. unfold vset. destruct (decide (saddr v ads q = a)) as [E|E].
    + assert (q = p) as -> by by eapply (tr_inj _ _ _ Ht); [apply interior_ok..| |].
      rewrite Hka. destruct (decide (Ent p k = Ent p j)) as [[= ->]|Hkj].
      * apply get_set32_eq; [rewrite Hlen; plia|]. apply data_range in Hd. lia.
      * rewrite get_set32_ne; [done|rewrite Hlen; plia|]. intros ?. apply Hkj. f_equal. lia.
    + rewrite decide_False by (intros [= -> ->]; by apply E). by rewrite tree_kept by (done || by left).
Qed.

Lemma used_ext v' v'' c :
  0 <= c < sb_size sb -> (forall a, is_bmap a -> v'' a = v' a) -> used v'' c = used v' c.
Proof. intros Hc H. unfold Balloc.used. by rewrite (H _ (BBLOCK_bmap sb c Hc)). Qed.

Lemma grown_one v2 ads2 s :
  slot_ok s -> saddr v ads s = 0 -> length ads2 = 13%nat ->
  (forall t, slot_ok t -> saddr v2 ads2 t = if decide (t = s) then b else saddr v ads t) ->
  (forall a, v2 a = v1 a \/ exists p, interior p /\ saddr v ads p = a /\ a <> 0) ->
  grown v ads sf v2 ads2 (sf ∖ {[b]}) [s].
Proof using Ht Hb Hg Hm.
  intros Hok H0 Hl Hsa Hv2. pose proof (ba_data _ _ _ _ Hb) as Hd. pose proof (data_range b Hd) as Hr.
  assert (forall c, 0 <= c < sb_size sb -> used v2 c = used v1 c) as Hu2.
  { intros c Hc. apply used_ext; [done|]. intros a Ha. destruct (Hv2 a) as [?|(p & Hp & <- & Hne)]; [done|].
    exfalso. eapply data_not_bmap; [|exact Ha]. by apply (tr_data _ _ _ Ht); [left|]. }
  assert (forall c, 0 <= c < sb_size sb -> used v2 c = if decide (c = b) then true else used v c) as Hu.
  { intros c Hc. rewrite Hu2 by done. by apply (ba_used _ _ _ _ Hb). }
  constructor.
  - constructor; [done|..].
    + intros t Hto. rewrite Hsa by done. case_decide; intros Hne.
      * split; [done|]. split; [rewrite Hu by lia; by rewrite decide_True|set_solver].
      * destruct (tr_data _ _ _ Ht t Hto Hne) as (Hdt & Hut & Hs). pose proof (data_range _ Hdt).
        split; [done|]. split; [rewrite Hu by lia; by case_decide|set_solver].
    + intros t t' Hto Hto'. rewrite !Hsa by done. repeat case_decide; intros Hne E; try congruence.
      * exfalso. by eapply (tree_not_new t').
      * exfalso. by eapply (tree_not_new t).
      * by eapply (tr_inj _ _ _ Ht).
  - intros c Hc. pose proof (ba_free _ _ _ _ Hb) as Hf. rewrite Hu by (unfold Balloc.is_data in Hd; lia).
    case_decide; [done|]. by apply Hm.
  - intros t Hto Hnt. rewrite Hsa by done. rewrite decide_False; [done|]. intros ->. apply Hnt. by left.
  - intros t ->%list_elem_of_singleton. rewrite Hsa, decide_True by done.
    split; [done|]. split; [done|]. split; [lia|apply Hb].
  - intros c Hc. rewrite Hu by done. split.
    + case_decide as E; [|by left]. intros _. right. exists s. split; [by left|].
      rewrite Hsa, decide_True by done. done.
    + case_decide; [done|]. intros [?|(t & ->%list_elem_of_singleton & E)]; [done|].
      rewrite Hsa, decide_True in E by done. done.
  - set_solver.
  - intros a Har Hab Hua Hint. destruct (Hv2 a) as [->|(p & Hp & E & Hne)].
    + apply (ba_frame _ _ _ _ Hb); [done|]. intros ->. rewrite (ba_free _ _ _ _ Hb) in Hua. done.
    + exfalso. apply Hne. by eapply Hint.
  - intros t ->%list_elem_of_singleton _. rewrite Hsa, decide_True by done.
    destruct (Hv2 b) as [->|(p & Hp & E & _)]; [apply Hb|]. exfalso. by eapply (tree_not_new p); [left|].
  - done.
Qed.
End alloc1.
End tree.

(** ** [bmap] *)

Section specs.
Context {S : Type} `{!BlockLayer S} `{!BlockLaws S}.
Context (sb : superblock) (geo : fsgeo sb).
Context (EP : string -> Prop) (HE : forall msg, res_panic msg -> EP msg).
Abbreviation out_of_blocks := "balloc: out of blocks"%string.
Abbreviation St := (fstate S).

Lemma fg_tree : (1 < sb_inodestart sb < sb_bmapstart sb /\ 0 <= sb_size sb / BPB) /\ sb_size sb < 2 ^ 31.
Proof using geo. split; [by apply fg_order|apply geo]. Qed.

(** The state a file's block map is used in; [h] has the buffers held. *)
Record fok (b : S) (v : Z -> list Z) (h : gmap nat Z) (sf : gset Z) (ads : list Z) : Prop := {
  fo_bst : bst b v h sf ∅;
  fo_sf a : a ∈ sf -> is_data sb a;
  fo_held i c : h !! i = Some c -> is_data sb c /\ used sb v c = true;
  fo_meta : meta_used sb v;
  fo_tree : tree_ok sb v ads sf
}.

Lemma set32_ok d j x : block_ok d -> 0 <= j < NINDIRECT -> block_ok (set32 d (Z.to_nat j) x).
Proof.
  intros [Hl Hb] Hj. split; [|by apply bytes_set32]. rewrite length_set32; [done|]. rewrite Hl. plia.
Qed.

Lemma grown_fok b v h sf ads b' v' sf' ads' ss :
  fok b v h sf ads -> grown sb v ads sf v' ads' sf' ss -> bst b' v' h sf' ∅ -> fok b' v' h sf' ads'.
Proof using geo.
  intros [A1 A2 A3 A4 A5] G Hb. constructor; [done| | |apply G|apply G].
  - intros a Ha. by apply A2, (g_sf _ _ _ _ _ _ _ _ G).
  - intros i c [Hd Hu]%A3. split; [done|]. apply (g_used _ _ _ _ _ _ _ _ G); [|by left].
    apply (data_range sb fg_tree) in Hd. lia.
Qed.

Lemma with_addrs_id x : with_d x (with_addrs (i_d x) (d_addrs (i_d x))) = x.
Proof. by destruct x as [? ? ? ? ? []]. Qed.

Lemma addr_or_alloc_spec b v h sf ics ip x i (Q : Z -> St -> Prop) :
  fok b v h sf (d_addrs (i_d x)) -> ics !! ip = Some x -> i_dev x = 1 -> slot_ok (Root i) ->
  (saddr v (d_addrs (i_d x)) (Root i) = 0 -> nfree sb v = 0 -> EP out_of_blocks) ->
  (forall b' v' sf' ads' ss, fok b' v' h sf' ads' -> grown sb v (d_addrs (i_d x)) sf v' ads' sf' ss ->
     (length ss <= 1)%nat -> (forall s, s ∈ ss -> s = Root i) -> saddr v' ads' (Root i) <> 0 ->
     Q (saddr v' ads' (Root i)) (FState b' (<[ip := with_d x (with_addrs (i_d x) ads')]> ics))) ->
  wp EP (addr_or_alloc sb ip i) Q (FState b ics).
Proof using geo HE.
  intros Hf Hip Hdev Hok HE2 HQ. pose proof Hf as [A1 A2 A3 A4 A5]. unfold addr_or_alloc. do 2 wp_step.
  rewrite (getinode_lookup _ _ _ _ Hip), Hdev.
  change (addr x i) with (saddr v (d_addrs (i_d x)) (Root i)).
  assert (0 <= i < 13) as Hi by (destruct Hok as [H|H]; inversion H; subst; plia).
  destruct (_ =? 0) eqn:E0; [apply Z.eqb_eq in E0|apply Z.eqb_neq in E0].
  - wp_step. apply wp_onblk. eapply balloc_spec; try done; [by intros H; apply HE2, nfree_none|].
    intros nb b1 v1 Hba Hb1. wp_step. unfold set_addr. eapply wp_modinode; [done|]. wp_step.
    assert (saddr v1 (<[Z.to_nat i := nb]> (d_addrs (i_d x))) (Root i) = nb) as Es.
    { rewrite (saddr_set_root sb fg_tree v _ sf nb v1), decide_True by done. done. }
    assert (grown sb v (d_addrs (i_d x)) sf v1 (<[Z.to_nat i := nb]> (d_addrs (i_d x))) (sf ∖ {[nb]}) [Root i]) as G.
    { eapply (grown_one sb fg_tree); try done.
      - rewrite length_insert. apply A5.
      - intros t Ht. by apply (saddr_set_root sb fg_tree v _ sf nb v1).
      - intros a. by left. }
    rewrite <- Es at 1. eapply HQ; [by eapply grown_fok|done|cbn; lia|by intros s ->%list_elem_of_singleton|].
    rewrite Es. pose proof (data_range sb fg_tree nb (ba_data _ _ _ _ Hba)). lia.
  - wp_step. specialize (HQ b v sf (d_addrs (i_d x)) [] Hf). rewrite with_addrs_id, list_insert_id in HQ by done.
    apply HQ; [by apply grown_nil|cbn; lia| |done]. intros s Hs. by apply elem_of_nil in Hs.
Qed.

Lemma entry_or_alloc_spec b v h sf ads ics bp p j more (Q : Z -> St -> Prop) :
  fok b v h sf ads -> h !! bp = Some (saddr v ads p) -> saddr v ads p <> 0 -> slot_ok (Ent p j) ->
  (forall b' v' sf', fok b' v' h sf' ads ->
     wp EP more (fun _ s' => exists b'', s' = FState b'' ics /\ fok b'' v' h sf' ads) (FState b' ics)) ->
  (saddr v ads (Ent p j) = 0 -> nfree sb v = 0 -> EP out_of_blocks) ->
  (forall b' v' sf' ss, fok b' v' h sf' ads -> grown sb v ads sf v' ads sf' ss ->
     (length ss <= 1)%nat -> (forall s, s ∈ ss -> s = Ent p j) -> saddr v' ads (Ent p j) <> 0 ->
     Q (saddr v' ads (Ent p j)) (FState b' ics)) ->
  wp EP (entry_or_alloc sb 1 bp j more) Q (FState b ics).
Proof using geo HE.
  intros Hf Hbp Hp Hok Hmore HE2 HQ. pose proof Hf as [A1 A2 A3 A4 A5]. unfold entry_or_alloc. do 2 wp_step.
  destruct (slot_parent p j Hok) as [Hpi Hj]. cbn [f_blk].
  destruct (tr_data _ _ _ _ A5 p (interior_ok _ Hpi) Hp) as (Hd & Hu & Hs).
  rewrite (wp_data _ _ _ _ _ _ _ A1 Hbp) by done.
  assert (saddr v ads (Ent p j) = get32 (v (saddr v ads p)) (Z.to_nat j)) as Ee.
  { cbn [saddr]. by rewrite (proj2 (Z.eqb_neq _ _) Hp). }
  rewrite <- Ee. pose proof (bst_view_ok _ _ _ _ _ _ A1 Hs) as Hbok.
  destruct (_ =? 0) eqn:E0; [apply Z.eqb_eq in E0|apply Z.eqb_neq in E0].
  - wp_step. apply wp_onblk. eapply balloc_spec; try done; [by intros H; apply HE2, nfree_none|].
    intros nb b1 v1 Hba Hb1. do 2 wp_step. cbn [f_blk].
    rewrite (wp_data _ _ _ _ _ _ _ Hb1 Hbp) by set_solver.
    apply wp_bind_assoc. wp_step. apply wp_lift2; [done|done|]. cbn [f_blk f_inodes].
    assert (block_ok (v1 (saddr v ads p))) as Hbok1 by (eapply bst_view_ok; [done|set_solver]).
    eapply (wp_update _ HE); [done|done|by apply (data_home sb geo)|by apply set32_ok|]. intros b2 Hb2.
    replace ((sf ∖ {[nb]}) ∖ {[saddr v ads p]}) with (sf ∖ {[nb]}) in Hb2 by set_solver.
    replace (∅ ∖ {[saddr v ads p]} : gset Z) with (∅ : gset Z) in Hb2 by set_solver.
    set (v2 := vset _ _ _) in Hb2.
    assert (forall t, slot_ok t -> saddr v2 ads t = if decide (t = Ent p j) then nb else saddr v ads t) as Hsa
      by (intros t Ht; by eapply (saddr_set_entry sb fg_tree v ads sf nb v1)).
    assert (grown sb v ads sf v2 ads (sf ∖ {[nb]}) [Ent p j]) as G.
    { eapply (grown_one sb fg_tree v ads sf nb v1); try done; [apply A5|].
      intros a. unfold v2, vset. case_decide; [right; subst; by eauto|by left]. }
    assert (saddr v2 ads (Ent p j) = nb) as Es by by rewrite Hsa, decide_True.
    wp_step. eapply wp_post; [by eapply Hmore, grown_fok|]. intros [] s' (b3 & -> & Hf3). wp_step.
    rewrite <- Es. eapply HQ; [done|done|cbn; lia|by intros s ->%list_elem_of_singleton|].
    rewrite Es. pose proof (data_range sb fg_tree nb (ba_data _ _ _ _ Hba)). lia.
  - wp_step. eapply HQ; [done|by apply grown_nil|cbn; lia| |done]. intros s Hs'. by apply elem_of_nil in Hs'.
Qed.

(** Reading and releasing a block of the tree. *)
Lemma wp_tree_bread b v h sf ads ics s (Q : nat -> St -> Prop) :
  fok b v h sf ads -> slot_ok s -> saddr v ads s <> 0 -> (forall i, h !! i <> Some (saddr v ads s)) ->
  (forall i b', h !! i = None -> fok b' v (<[i := saddr v ads s]> h) sf ads -> Q i (FState b' ics)) ->
  wp EP (onblk (bl_bread 1 (saddr v ads s))) Q (FState b ics).
Proof using geo HE.
  intros [A1 A2 A3 A4 A5] Hok Hne Hh HQ. destruct (tr_data _ _ _ _ A5 s Hok Hne) as (Hd & Hu & Hs).
  apply wp_onblk. eapply (wp_bread _ HE); [done|done|by apply bl_home_range, (data_home sb geo)|].
  intros i b' Hi Hb'. apply HQ; [done|]. constructor; try done.
  intros i' c. rewrite lookup_insert_Some. intros [[_ <-]|[_ ?]]; [done|by apply A3 with i'].
Qed.

Lemma wp_tree_brelse b v h sf ads ics i c (Q : unit -> St -> Prop) :
  fok b v (<[i := c]> h) sf ads -> h !! i = None ->
  (forall b', fok b' v h sf ads -> Q tt (FState b' ics)) ->
  wp EP (onblk (bl_brelse i)) Q (FState b ics).
Proof.
  intros [A1 A2 A3 A4 A5] Hi HQ. apply wp_onblk.
  eapply (wp_brelse _); [done|by rewrite lookup_insert_eq|done|]. intros b' Hb'.
  rewrite delete_insert_id in Hb' by done. apply HQ. constructor; try done.
  intros j d Hj. apply (A3 j). rewrite lookup_insert_ne; [done|]. congruence.
Qed.

(** Each new place takes one free block. *)
Lemma grown_free v ads sf v' ads' sf' ss :
  grown sb v ads sf v' ads' sf' ss -> nfree sb v <= nfree sb v' + Z.of_nat (length ss).
Proof.
  intros G. rewrite <- (length_fmap (saddr v' ads')). apply nfree_le. intros b Hb Hu.
  destruct (used sb v' b) eqn:E; [right|by left].
  apply (g_used _ _ _ _ _ _ _ _ G) in E as [E|(s & Hs & ->)]; [congruence| |done]. by apply list_elem_of_fmap_2.
Qed.

(** An address once in the tree stays there. *)
Lemma grown_keep v ads sf v' ads' sf' ss s :
  grown sb v ads sf v' ads' sf' ss -> slot_ok s -> saddr v ads s <> 0 -> saddr v' ads' s = saddr v ads s.
Proof.
  intros G Hok Hne. apply (g_old _ _ _ _ _ _ _ _ G); [done|]. intros (_ & H0 & _)%(g_new _ _ _ _ _ _ _ _ G). done.
Qed.

Lemma grown_zero v ads sf v' ads' sf' ss s :
  grown sb v ads sf v' ads' sf' ss -> slot_ok s -> saddr v' ads' s = 0 -> saddr v ads s = 0.
Proof.
  intros G Hok H0. destruct (decide (saddr v ads s = 0)) as [|Hne]; [done|].
  by rewrite (grown_keep _ _ _ _ _ _ _ _ G Hok Hne) in H0.
Qed.

Definition bmapped (v : Z -> list Z) (ads : list Z) (sf : gset Z) (bn : Z)
    (v' : Z -> list Z) (ads' : list Z) (sf' : gset Z) (r : Z) : Prop :=
  r = saddr v' ads' (fslot bn) /\ r <> 0 /\
  exists ss, grown sb v ads sf v' ads' sf' ss /\ (length ss <= 3)%nat /\
    forall s, s ∈ ss -> s = fslot bn \/ (interior s /\ above s (fslot bn)).

(** The panic of [bmap]: a block is missing and fewer than three are free. *)
Definition bmap_panics (v : Z -> list Z) (ads : list Z) (bn : Z) : Prop :=
  saddr v ads (fslot bn) = 0 -> nfree sb v < 3 -> EP out_of_blocks.

Lemma bmap_ind_spec b v sf ics ip x bn (Q : Z -> St -> Prop) :
  fok b v ∅ sf (d_addrs (i_d x)) -> ics !! ip = Some x -> i_dev x = 1 ->
  NDIRECT <= bn < NDIRECT + NINDIRECT -> bmap_panics v (d_addrs (i_d x)) bn ->
  (forall b' v' sf' ads' r, fok b' v' ∅ sf' ads' -> bmapped v (d_addrs (i_d x)) sf bn v' ads' sf' r ->
     Q r (FState b' (<[ip := with_d x (with_addrs (i_d x) ads')]> ics))) ->
  wp EP (a <- addr_or_alloc sb ip NDIRECT;; bp <- onblk (bl_bread 1 a);;
         r <- entry_or_alloc sb 1 bp (bn - NDIRECT) (ret tt);; onblk (bl_brelse bp);; ret r) Q (FState b ics).
Proof using geo HE.
  intros Hf Hip Hdev Hbn HE2 HQ.
  assert (fslot bn = Ent (Root NDIRECT) (bn - NDIRECT)) as Efs.
  { unfold fslot. rewrite (proj2 (Z.ltb_ge _ _)), (proj2 (Z.ltb_lt (bn - NDIRECT) _)) by plia. done. }
  assert (leaf (Ent (Root NDIRECT) (bn - NDIRECT))) as Hleaf by (constructor; plia).
  wp_step. eapply addr_or_alloc_spec; [done|done|done|left; constructor| |].
  { intros E ?. apply HE2; [|lia]. by rewrite Efs, saddr_Ent, E. }
  intros b1 v1 sf1 ads1 ss1 Hf1 G1 Hn1 Hss1 Hne1. pose proof (grown_free _ _ _ _ _ _ _ G1). set (ics1 := <[ip := _]> ics).
  wp_step. eapply wp_tree_bread; [done|left; constructor|done|done|]. intros bp b2 Hbp Hf2.
  wp_step. eapply entry_or_alloc_spec; [done|by rewrite lookup_insert_eq|done|by right| | |].
  { intros b' v' sf' Hf'. apply wp_ret. by exists b'. }
  { intros E ?. apply HE2; [|lia]. rewrite Efs. eapply grown_zero; [done|by right|done]. }
  intros b3 v3 sf3 ss3 Hf3 G3 Hn3 Hss3 Hne3.
  wp_step. eapply wp_tree_brelse; [done|done|]. intros b4 Hf4. wp_step.
  eapply HQ; [done|]. split; [by rewrite Efs|]. split; [done|].
  exists (ss1 ++ ss3). split; [by eapply (grown_app sb fg_tree)|]. split; [rewrite length_app; lia|].
  rewrite Efs. intros s [->%Hss1| ->%Hss3]%elem_of_app; [right|by left]. split; [constructor|by left].
Qed.

Lemma bmap_dind_spec b v sf ics ip x bn (Q : Z -> St -> Prop) :
  fok b v ∅ sf (d_addrs (i_d x)) -> ics !! ip = Some x -> i_dev x = 1 ->
  NDIRECT + NINDIRECT <= bn < MAXFILE -> bmap_panics v (d_addrs (i_d x)) bn ->
  (forall b' v' sf' ads' r, fok b' v' ∅ sf' ads' -> bmapped v (d_addrs (i_d x)) sf bn v' ads' sf' r ->
     Q r (FState b' (<[ip := with_d x (with_addrs (i_d x) ads')]> ics))) ->
  let n := bn - NDIRECT - NINDIRECT in
  wp EP (a <- addr_or_alloc sb ip (NDIRECT + 1);; dbp <- onblk (bl_bread 1 a);;
         a <- entry_or_alloc sb 1 dbp (n / NINDIRECT) (ret tt);; bp <- onblk (bl_bread 1 a);;
         r <- entry_or_alloc sb 1 bp (n mod NINDIRECT) (onblk (bl_log_write dbp));;
         onblk (bl_brelse bp);; onblk (bl_brelse dbp);; ret r) Q (FState b ics).
Proof using geo HE.
  intros Hf Hip Hdev Hbn HE2 HQ n. set (R := Root (NDIRECT + 1)). set (K := Ent R (n / NINDIRECT)).
  set (L := Ent K (n mod NINDIRECT)).
  assert (fslot bn = L) as Efs.
  { unfold fslot. rewrite !(proj2 (Z.ltb_ge _ _)) by plia. done. }
  assert (interior R) as HR by constructor. assert (interior K) as HK by (constructor; plia).
  assert (leaf L) as HL by (constructor; plia).
  wp_step. eapply addr_or_alloc_spec; [done|done|done|by left| |].
  { intros E ?. apply HE2; [|lia]. rewrite Efs. unfold L, K. fold R in E. by rewrite !saddr_Ent, E. }
  intros b1 v1 sf1 ads1 ss1 Hf1 G1 Hn1 Hss1 Hne1. pose proof (grown_free _ _ _ _ _ _ _ G1). set (ics1 := <[ip := _]> ics).
  wp_step. eapply wp_tree_bread; [done|by left|done|done|]. intros dbp b2 Hdbp Hf2.
  wp_step. eapply (entry_or_alloc_spec _ _ _ _ _ _ _ R);
    [done|by rewrite lookup_insert_eq|done|by left| | |].
  { intros b' v' sf' Hf'. apply wp_ret. by exists b'. }
  { intros E ?. apply HE2; [|lia]. rewrite Efs. eapply grown_zero; [done|by right|]. unfold L. fold R in E. fold K in E.
    by rewrite saddr_Ent, E. }
  intros b3 v3 sf3 ss3 Hf3 G3 Hn3 Hss3 Hne3. pose proof (grown_free _ _ _ _ _ _ _ G3).
  assert (saddr v3 ads1 R = saddr v1 ads1 R) as ER by (eapply grown_keep; [done|by left|done]).
  fold R in Hf3. fold K in Hne3 |- *. rewrite <- ER in Hf3.
  wp_step. eapply (wp_tree_bread _ _ _ _ _ _ K); [done|by left|done| |].
  { intros i. rewrite insert_empty, lookup_singleton_Some. intros [_ E].
    assert (R = K); [|done]. eapply (tr_inj _ _ _ _ (fo_tree _ _ _ _ _ Hf3)); [by left|by left| |done].
    by rewrite ER. }
  intros bp b4 Hbp Hf4. wp_step.
  eapply (entry_or_alloc_spec _ _ _ _ _ _ _ K); [done|by rewrite lookup_insert_eq|done|by right| | |].
  { intros b' v' sf' Hf'. apply wp_onblk. pose proof Hf' as [F1 F2 F3 F4 F5].
    assert ((<[bp := saddr v3 ads1 K]> (<[dbp := saddr v3 ads1 R]> ∅) : gmap nat Z) !! dbp = Some (saddr v3 ads1 R)) as Hl.
    { rewrite lookup_insert_ne; [by rewrite lookup_insert_eq|]. intros ->. by rewrite lookup_insert_eq in Hbp. }
    eapply (wp_log_write _ HE); [done|exact Hl|by apply (data_home sb geo), (F3 dbp)|].
    intros b'' Hb''. exists b''. split; [done|]. constructor; try done.
    by replace (∅ : gset Z) with (∅ ∖ {[saddr v3 ads1 R]} : gset Z) by set_solver. }
  { intros E ?. apply HE2; [|lia]. rewrite Efs. eapply grown_zero; [exact G1|by right|].
    eapply grown_zero; [exact G3|by right|exact E]. }
  intros b5 v5 sf5 ss5 Hf5 G5 Hn5 Hss5 Hne5.
  wp_step. eapply wp_tree_brelse; [done|done|]. intros b6 Hf6.
  wp_step. eapply wp_tree_brelse; [done|done|]. intros b7 Hf7. wp_step.
  eapply HQ; [done|]. split; [by rewrite Efs|]. split; [done|].
  exists ((ss1 ++ ss3) ++ ss5). split; [by do 2 (eapply (grown_app sb fg_tree); [|done])|].
  split; [rewrite !length_app; lia|].
  rewrite Efs. intros s [[->%Hss1| ->%Hss3]%elem_of_app| ->%Hss5]%elem_of_app; [right|right|by left].
  - split; [done|]. right. by left.
  - split; [done|]. by left.
Qed.

(** [bmap] finds the block of a file, allocating what is missing on its path. *)
Lemma bmap_spec b v sf ics ip x bn (Q : Z -> St -> Prop) :
  fok b v ∅ sf (d_addrs (i_d x)) -> ics !! ip = Some x -> i_dev x = 1 -> 0 <= bn < MAXFILE ->
  bmap_panics v (d_addrs (i_d x)) bn ->
  (forall b' v' sf' ads' r, fok b' v' ∅ sf' ads' -> bmapped v (d_addrs (i_d x)) sf bn v' ads' sf' r ->
     Q r (FState b' (<[ip := with_d x (with_addrs (i_d x) ads')]> ics))) ->
  wp EP (bmap sb ip bn) Q (FState b ics).
Proof using geo HE.
  intros Hf Hip Hdev Hbn HE2 HQ. unfold bmap. do 2 wp_step. rewrite (getinode_lookup _ _ _ _ Hip), Hdev.
  destruct (bn <? NDIRECT) eqn:E1.
  - assert (fslot bn = Root bn) as Efs by (unfold fslot; by rewrite E1).
    eapply addr_or_alloc_spec; [done|done|done|right; constructor; plia| |].
    { intros E ?. apply HE2; [by rewrite Efs|lia]. }
    intros b1 v1 sf1 ads1 ss1 Hf1 G1 Hn1 Hss1 Hne1. eapply HQ; [done|].
    split; [by rewrite Efs|]. split; [done|]. exists ss1. split; [done|]. split; [lia|].
    intros s ->%Hss1. by left.
  - apply Z.ltb_ge in E1. destruct (bn - NDIRECT <? NINDIRECT) eqn:E2.
    + eapply bmap_ind_spec; try done. lia.
    + apply Z.ltb_ge in E2. rewrite (proj2 (Z.ltb_lt _ _)) by plia. eapply bmap_dind_spec; try done. lia.
Qed.

(** Nothing changes when the block is there. *)
Lemma bmapped_present v ads sf bn v' ads' sf' r :
  bmapped v ads sf bn v' ads' sf' r -> saddr v ads (fslot bn) <> 0 ->
  r = saddr v ads (fslot bn) /\ ads' = ads /\ sf' = sf /\ forall a, v' a = v a.
Proof.
  intros (-> & Hne & ss & G & _ & Hss) Hp.
  assert (ss = []) as ->.
  { destruct ss as [|s ss]; [done|]. exfalso.
    assert (s ∈ s :: ss) as Hin by by left. destruct (g_new _ _ _ _ _ _ _ _ G s Hin) as (_ & H0 & _).
    destruct (Hss s Hin) as [->|[_ Ha]]; [done|]. by eapply saddr_above in Ha. }
  destruct (g_nil _ _ _ _ _ _ _ _ G eq_refl) as (-> & -> & Hv). split; [|done].
  apply saddr_ext. done.
Qed.
End specs.
