(* ===== verification/Content.v ===== *)
(** * File contents ([kernel/fs.c]: [readi], [writei])

    The contents of a file are the byte list its block map gives; [readi]
    returns a piece of it and [writei] replaces one. *)

From S2P Require Import Prelude Params Locks Bio Log Crash Block Balloc Inode Bmap.
Local Open Scope Z_scope.
Local Open Scope kmonad_scope.

Section operations.
Context {BS : Type} `{!BlockLayer BS}.
Context (sb : superblock).
Abbreviation St := (fstate BS).

(** [devsw]: the drivers' functions, indexed by major number. *)
Context (devsw_read : Z -> option (nat -> Z -> M St (Z * list Z))).
Context (devsw_write : Z -> option (nat -> list Z -> Z -> M St Z)).

(** The copy loop; the result is what it stores at [dst].  An iteration copies
    at least one byte, so [n] iterations are enough. *)
Fixpoint readi_loop (fuel : nat) (ip : nat) (off tot n : Z) : M St (list Z) :=
  match fuel with
  | O => ret []
  | S fuel' =>
      if tot <? n then
        dev <- gets (fun s => i_dev (getinode ip s));;
        b <- bmap sb ip (off / BSIZE);;
        bp <- onblk (bl_bread dev b);;
        let m := Z.min (n - tot) (BSIZE - off mod BSIZE) in
        d <- gets (fun s => sub (bl_data bp (f_blk s)) (Z.to_nat (off mod BSIZE)) (Z.to_nat m));;
        onblk (bl_brelse bp);;
        rest <- readi_loop fuel' ip (off + m) (tot + m) n;;
        ret (d ++ rest)
      else ret []
  end.

(** The result and the bytes stored at [dst]. *)
Definition readi (ip : nat) (off n : Z) : M St (Z * list Z) :=
  x <- gets (getinode ip);;
  let di := i_d x in
  if d_type di =? T_DEV then
    if (d_major di <? 0) || (NDEV <=? d_major di) then ret (-1, []) else
    match devsw_read (d_major di) with
    | None => ret (-1, [])
    | Some f => f ip n
    end
  else
  if (d_size di <? off) || (u32 (off + n) <? off) then ret (-1, []) else
  let n := if d_size di <? u32 (off + n) then d_size di - off else n in
  d <- readi_loop (Z.to_nat n) ip off 0 n;;
  ret (s32 n, d).

Fixpoint writei_loop (fuel : nat) (ip : nat) (src : list Z) (off tot n : Z) : M St unit :=
  match fuel with
  | O => ret tt
  | S fuel' =>
      if tot <? n then
        dev <- gets (fun s => i_dev (getinode ip s));;
        b <- bmap sb ip (off / BSIZE);;
        bp <- onblk (bl_bread dev b);;
        let m := Z.min (n - tot) (BSIZE - off mod BSIZE) in
        d <- gets (fun s => bl_data bp (f_blk s));;
        onblk (bl_set bp (splice d (Z.to_nat (off mod BSIZE)) (take (Z.to_nat m) src)));;
        onblk (bl_log_write bp);;
        onblk (bl_brelse bp);;
        writei_loop fuel' ip (drop (Z.to_nat m) src) (off + m) (tot + m) n
      else ret tt
  end.

Definition writei (ip : nat) (src : list Z) (off n : Z) : M St Z :=
  x <- gets (getinode ip);;
  let di := i_d x in
  if d_type di =? T_DEV then
    if (d_major di <? 0) || (NDEV <=? d_major di) then ret (-1) else
    match devsw_write (d_major di) with
    | None => ret (-1)
    | Some f => f ip src n
    end
  else
  if (d_size di <? off) || (u32 (off + n) <? off) then ret (-1) else
  if MAXFILE * BSIZE <? u32 (off + n) then ret (-1) else
  writei_loop (Z.to_nat n) ip src off 0 n;;
  x <- gets (getinode ip);;
  when ((0 <? n) && (d_size (i_d x) <? off + n)) (
    modinode ip (fun x => with_d x (with_size (i_d x) (off + n)));;
    iupdate sb ip);;
  ret (s32 n).
End operations.

(** ** The contents *)

(** The byte of a file at offset [o]. *)
Definition fbyte (v : Z -> list Z) (ads : list Z) (o : Z) : Z :=
  getb (v (saddr v ads (fslot (o / BSIZE)))) (o mod BSIZE).

Definition contents (v : Z -> list Z) (di : dinode) : list Z :=
  fbyte v (d_addrs di) <$> seqZ 0 (d_size di).

(** Every block below the size is there. *)
Definition mapped (v : Z -> list Z) (ads : list Z) (size : Z) : Prop :=
  forall o, 0 <= o < size -> saddr v ads (fslot (o / BSIZE)) <> 0.

Lemma length_contents v di : length (contents v di) = Z.to_nat (d_size di).
Proof. unfold contents. by rewrite length_fmap, length_seqZ. Qed.

Lemma lookup_contents v di o : 0 <= o < d_size di -> contents v di !! Z.to_nat o = Some (fbyte v (d_addrs di) o).
Proof.
  intros Ho. unfold contents. rewrite list_lookup_fmap, lookup_seqZ_lt by lia. cbn. f_equal. f_equal. lia.
Qed.

Lemma getb_lookup d i x : 0 <= i -> d !! Z.to_nat i = Some x -> getb d i = x.
Proof. intros _ H. unfold getb. by rewrite H. Qed.

Lemma lookup_getb d i : 0 <= i < Z.of_nat (length d) -> d !! Z.to_nat i = Some (getb d i).
Proof.
  intros Hi. unfold getb. destruct (lookup_lt_is_Some_2 d (Z.to_nat i)) as [x Hx]; [lia|]. by rewrite Hx.
Qed.

(** A piece of one block is a piece of the contents. *)
Lemma sub_block v di off m :
  0 <= off -> 0 <= m -> off + m <= d_size di -> off mod BSIZE + m <= BSIZE ->
  length (v (saddr v (d_addrs di) (fslot (off / BSIZE)))) = Z.to_nat BSIZE ->
  sub (v (saddr v (d_addrs di) (fslot (off / BSIZE)))) (Z.to_nat (off mod BSIZE)) (Z.to_nat m) =
  sub (contents v di) (Z.to_nat off) (Z.to_nat m).
Proof.
  intros Ho Hm Hs Hb Hl. apply list_eq. intros i. destruct (decide (i < Z.to_nat m)%nat) as [Hi|Hi].
  - rewrite !lookup_sub by done.
    replace (Z.to_nat off + i)%nat with (Z.to_nat (off + Z.of_nat i)) by lia.
    rewrite lookup_contents by lia. unfold fbyte.
    replace ((off + Z.of_nat i) / BSIZE) with (off / BSIZE) by plia.
    replace ((off + Z.of_nat i) mod BSIZE) with (off mod BSIZE + Z.of_nat i) by plia.
    rewrite <- lookup_getb by (rewrite Hl; plia). f_equal. plia.
  - unfold sub. by rewrite !lookup_take_ge by lia.
Qed.

Lemma bn_range o : 0 <= o < MAXFILE * BSIZE -> 0 <= o / BSIZE < MAXFILE.
Proof. plia. Qed.

Lemma bn_slot o : 0 <= o < MAXFILE * BSIZE -> slot_ok (fslot (o / BSIZE)).
Proof. intros Ho. by right; apply fslot_leaf, bn_range. Qed.

(** Copying [l] over part of a block. *)
Lemma getb_splice_in d i l j :
  0 <= i -> i + Z.of_nat (length l) <= Z.of_nat (length d) -> i <= j < i + Z.of_nat (length l) ->
  getb (splice d (Z.to_nat i) l) j = getb l (j - i).
Proof.
  intros Hi Hl Hj. unfold getb. replace (Z.to_nat j) with (Z.to_nat i + Z.to_nat (j - i))%nat by lia.
  by rewrite lookup_splice_in by lia.
Qed.

Lemma getb_splice_out d i l j :
  0 <= i -> i + Z.of_nat (length l) <= Z.of_nat (length d) -> 0 <= j < i \/ i + Z.of_nat (length l) <= j ->
  getb (splice d (Z.to_nat i) l) j = getb d j.
Proof. intros Hi Hl Hj. unfold getb. by rewrite lookup_splice_out by lia. Qed.

Lemma getb_take l m j : 0 <= j < Z.of_nat m -> getb (take m l) j = getb l j.
Proof. intros Hj. unfold getb. by rewrite lookup_take_lt by lia. Qed.

Lemma getb_drop l m j : 0 <= j -> getb (drop m l) j = getb l (j + Z.of_nat m).
Proof. intros Hj. unfold getb. rewrite lookup_drop. do 2 f_equal. lia. Qed.

Lemma splice_block_ok d i l :
  block_ok d -> bytes l -> 0 <= i -> i + Z.of_nat (length l) <= BSIZE -> block_ok (splice d (Z.to_nat i) l).
Proof.
  intros [Hl Hb] Hbl Hi Hsz. split; [|by apply bytes_splice].
  rewrite length_splice; [done|]. rewrite Hl. lia.
Qed.

Section specs.
Context {BS : Type} `{!BlockLayer BS} `{!BlockLaws BS}.
Context (sb : superblock) (geo : fsgeo sb).
Context (EP : string -> Prop) (HE : forall msg, res_panic msg -> EP msg).
Abbreviation St := (fstate BS).

Lemma used_same v v' c : (forall a, is_bmap sb a -> v' a = v a) -> 0 <= c < sb_size sb -> used sb v' c = used sb v c.
Proof. intros Hv Hc. unfold used. by rewrite Hv by by apply BBLOCK_bmap. Qed.

(** The tree depends on the free map and the blocks of addresses only. *)
Lemma saddr_same v v' ads t :
  (forall s, interior s -> saddr v ads s <> 0 -> v' (saddr v ads s) = v (saddr v ads s)) ->
  slot_ok t -> saddr v' ads t = saddr v ads t.
Proof.
  intros Hv. induction t as [|p IH j]; intros Ht; [done|]. destruct (slot_parent p j Ht) as [Hp _].
  cbn [saddr]. rewrite IH by by left. destruct (_ =? 0) eqn:E; [done|]. apply Z.eqb_neq in E. by rewrite Hv.
Qed.

Lemma tree_same v v' ads sf :
  tree_ok sb v ads sf -> (forall a, is_bmap sb a -> v' a = v a) ->
  (forall s, interior s -> saddr v ads s <> 0 -> v' (saddr v ads s) = v (saddr v ads s)) ->
  tree_ok sb v' ads sf.
Proof using geo.
  intros [A1 A2 A3] Hb Hv. constructor; [done|..].
  - intros s Hs. rewrite (saddr_same v v') by done. intros Hne. destruct (A2 s Hs Hne) as (Hd & Hu & Hsf).
    split; [done|]. split; [|done]. rewrite (used_same v) by (done || apply (data_range sb (fg_tree sb geo)) in Hd; lia).
    done.
  - intros s s' Hs Hs'. rewrite !(saddr_same v v') by done. by apply A3.
Qed.

Lemma meta_same v v' : meta_used sb v -> (forall a, is_bmap sb a -> v' a = v a) -> meta_used sb v'.
Proof using geo.
  intros Hm Hv b Hb. rewrite (used_same v); [by apply Hm|done|]. pose proof (fg_size sb geo). lia.
Qed.

(** A file that can be used: its inode is in the table, locked by the caller
    and as on the disk, and its block map is sound. *)
Record file_st (b : BS) (v : Z -> list Z) (sf : gset Z) (ics : list inode) (ip : nat) (x : inode) : Prop := {
  fs_fok : fok sb b v ∅ sf (d_addrs (i_d x));
  fs_ip : ics !! ip = Some x;
  fs_dev : i_dev x = 1;
  fs_inum : is_ino sb (i_inum x);
  fs_dk : dinode_ok (i_d x);
  fs_size : d_size (i_d x) <= MAXFILE * BSIZE;
  fs_mapped : mapped v (d_addrs (i_d x)) (d_size (i_d x));
  fs_dino : dino sb v (i_inum x) = i_d x
}.

Lemma fok_veq b v v' h sf ads :
  fok sb b v h sf ads -> (forall a, v' a = v a) -> fok sb b v' h sf ads.
Proof using geo.
  intros [A1 A2 A3 A4 A5] Hv. constructor; [by eapply bst_ext|done| |by eapply meta_same|by eapply tree_same].
  intros i c [Hd Hu]%A3. split; [done|]. rewrite (used_same v); [done|done|].
  apply (data_range sb (fg_tree sb geo)) in Hd. lia.
Qed.

(** [bmap] of a block that is there. *)
Lemma bmap_present b v sf ics ip x bn (Q : Z -> St -> Prop) :
  file_st b v sf ics ip x -> 0 <= bn < MAXFILE -> saddr v (d_addrs (i_d x)) (fslot bn) <> 0 ->
  (forall b', file_st b' v sf ics ip x -> Q (saddr v (d_addrs (i_d x)) (fslot bn)) (FState b' ics)) ->
  wp EP (bmap sb ip bn) Q (FState b ics).
Proof using geo HE.
  intros [A1 A2 A3 A4 A5 A6 A7 A8] Hbn Hp HQ. eapply (bmap_spec sb geo EP HE); [done|done|done|done|by intros E|].
  intros b' v' sf' ads' r Hf Hm. destruct (bmapped_present sb _ _ _ _ _ _ _ _ Hm Hp) as (-> & -> & -> & Hv).
  rewrite with_addrs_id, list_insert_id by done. apply HQ. constructor; try done.
  eapply fok_veq; [done|]. intros a. by rewrite Hv.
Qed.

Lemma readi_loop_spec fuel : forall b v sf ics ip x off tot n (Q : list Z -> St -> Prop),
  file_st b v sf ics ip x -> 0 <= off -> off + (n - tot) <= d_size (i_d x) -> n - tot <= Z.of_nat fuel ->
  (forall b', file_st b' v sf ics ip x ->
     Q (sub (contents v (i_d x)) (Z.to_nat off) (Z.to_nat (n - tot))) (FState b' ics)) ->
  wp EP (readi_loop sb fuel ip off tot n) Q (FState b ics).
Proof using geo HE.
  induction fuel as [|fuel IH]; intros b v sf ics ip x off tot n Q Hs Ho Hsz Hfuel HQ; cbn [readi_loop].
  { wp_step. specialize (HQ b Hs). by replace (Z.to_nat (n - tot)) with 0%nat in HQ by lia. }
  destruct (tot <? n) eqn:Et; [apply Z.ltb_lt in Et|apply Z.ltb_ge in Et].
  2: { wp_step. specialize (HQ b Hs). by replace (Z.to_nat (n - tot)) with 0%nat in HQ by lia. }
  pose proof (fs_ip _ _ _ _ _ _ Hs) as Hip. pose proof (fs_size _ _ _ _ _ _ Hs) as Hmax.
  pose proof (fs_mapped _ _ _ _ _ _ Hs off ltac:(lia)) as Hm.
  assert (0 <= off / BSIZE < MAXFILE) as Hbn by (apply bn_range; lia).
  assert (slot_ok (fslot (off / BSIZE))) as Hok by by right; apply fslot_leaf.
  do 2 wp_step. rewrite (getinode_lookup _ _ _ _ Hip), (fs_dev _ _ _ _ _ _ Hs).
  wp_step. eapply bmap_present; [done|done|done|]. intros b1 Hs1.
  wp_step. eapply (wp_tree_bread sb geo EP HE); [apply Hs1|done|done|done|].
  intros bp b2 Hbp Hf2. set (m := Z.min _ _).
  assert (0 < m <= n - tot /\ off mod BSIZE + m <= BSIZE) as [Hm1 Hm2] by (unfold m; plia).
  do 2 wp_step. cbn [f_blk]. pose proof Hf2 as [F1 F2 F3 F4 F5].
  destruct (tr_data _ _ _ _ F5 _ Hok Hm) as (_ & _ & Hsf).
  rewrite (wp_data _ _ _ _ _ _ _ F1 (lookup_insert_eq _ _ _)) by done.
  wp_step. eapply wp_tree_brelse; [done|done|]. intros b3 Hf3.
  assert (file_st b3 v sf ics ip x) as Hs3 by (destruct Hs; by constructor).
  wp_step. eapply IH; [done|lia|lia|lia|]. intros b4 Hs4. wp_step.
  rewrite sub_block; [|lia|lia|lia|done|apply (bst_view_ok _ _ _ _ _ _ F1 Hsf)].
  specialize (HQ b4 Hs4).
  replace (Z.to_nat (off + m)) with (Z.to_nat off + Z.to_nat m)%nat by lia. rewrite sub_add.
  by replace (Z.to_nat m + Z.to_nat (n - (tot + m)))%nat with (Z.to_nat (n - tot)) by lia.
Qed.

(** [readi] of a file: the errors, and the bytes. *)
Lemma readi_spec devr b v sf ics ip x off n (Q : Z * list Z -> St -> Prop) :
  file_st b v sf ics ip x -> d_type (i_d x) <> T_DEV -> 0 <= off < 2 ^ 32 -> 0 <= n < 2 ^ 32 ->
  (d_size (i_d x) < off \/ 2 ^ 32 <= off + n -> Q (-1, []) (FState b ics)) ->
  (off <= d_size (i_d x) -> off + n < 2 ^ 32 -> forall b', file_st b' v sf ics ip x ->
     let k := Z.min n (d_size (i_d x) - off) in
     Q (k, sub (contents v (i_d x)) (Z.to_nat off) (Z.to_nat k)) (FState b' ics)) ->
  wp EP (readi sb devr ip off n) Q (FState b ics).
Proof using geo HE.
  intros Hs Hty Ho Hn Herr HQ. pose proof (fs_ip _ _ _ _ _ _ Hs) as Hip.
  pose proof (fs_size _ _ _ _ _ _ Hs) as Hmax. pose proof (dk_size _ (fs_dk _ _ _ _ _ _ Hs)) as Hsz.
  unfold readi. do 2 wp_step. rewrite (getinode_lookup _ _ _ _ Hip), (proj2 (Z.eqb_neq _ _) Hty).
  destruct (_ || _) eqn:E.
  - wp_step. apply Herr. apply orb_true_iff in E. unfold u32 in E. lia.
  - apply orb_false_iff in E as [E1 E2].
    assert (off + n < 2 ^ 32) as Hof by (unfold u32 in E2; lia).
    rewrite u32_small by lia. set (k := if d_size (i_d x) <? off + n then d_size (i_d x) - off else n).
    assert (k = Z.min n (d_size (i_d x) - off)) as Ek by (unfold k; destruct (d_size (i_d x) <? off + n) eqn:E3; lia).
    wp_step. eapply readi_loop_spec; [done|lia|lia|lia|]. intros b' Hs'. wp_step.
    rewrite s32_small by (rewrite Ek; plia). specialize (HQ ltac:(lia) Hof b' Hs').
    cbv zeta in HQ. rewrite <- Ek in HQ. by replace (k - 0) with k by lia.
Qed.

(** *** Writing *)

(** The bytes at offsets [lo] to [hi] of the file have become those of [f]. *)
Record rewrites (v : Z -> list Z) (ads : list Z) (sf : gset Z)
    (v' : Z -> list Z) (ads' : list Z) (sf' : gset Z) (lo hi : Z) (f : Z -> Z) : Prop := {
  rw_keep s : slot_ok s -> saddr v ads s <> 0 -> saddr v' ads' s = saddr v ads s;
  rw_fresh s : slot_ok s -> saddr v' ads' s <> 0 ->
    saddr v' ads' s = saddr v ads s \/ used sb v (saddr v' ads' s) = false;
  rw_in o : lo <= o < hi -> saddr v' ads' (fslot (o / BSIZE)) <> 0 /\ fbyte v' ads' o = f o;
  rw_out o : 0 <= o < MAXFILE * BSIZE -> ~ (lo <= o < hi) -> saddr v ads (fslot (o / BSIZE)) <> 0 ->
    fbyte v' ads' o = fbyte v ads o;
  rw_frame a : 0 <= a < sb_size sb -> ~ is_bmap sb a -> used sb v a = true ->
    (forall s, slot_ok s -> saddr v ads s <> a) -> v' a = v a;
  rw_used c : 0 <= c < sb_size sb ->
    used sb v' c = true <-> used sb v c = true \/ exists s, slot_ok s /\ saddr v' ads' s <> 0 /\ c = saddr v' ads' s;
  rw_sf : sf' ⊆ sf;
  rw_same : (forall o, lo <= o < hi -> saddr v ads (fslot (o / BSIZE)) <> 0) -> ads' = ads /\ sf' = sf
}.

Lemma rewrites_nil v ads sf lo f : tree_ok sb v ads sf -> rewrites v ads sf v ads sf lo lo f.
Proof.
  intros Ht. constructor; try done; [by left|lia|].
  intros c Hc. split; [by left|]. intros [?|(s & Hs & Hne & ->)]; [done|].
  by apply (tr_data _ _ _ _ Ht).
Qed.

Lemma rewrites_fun v ads sf v' ads' sf' lo hi f g :
  rewrites v ads sf v' ads' sf' lo hi f -> (forall o, lo <= o < hi -> f o = g o) ->
  rewrites v ads sf v' ads' sf' lo hi g.
Proof.
  intros [A1 A2 A3 A4 A5 A6 A7 A8] Hfg. constructor; try done.
  intros o Ho. rewrite <- Hfg by done. by apply A3.
Qed.

Lemma rewrites_app v1 a1 f1 v2 a2 f2 v3 a3 f3 lo mid hi f :
  0 <= lo <= mid -> mid <= hi <= MAXFILE * BSIZE ->
  tree_ok sb v2 a2 f2 -> tree_ok sb v3 a3 f3 ->
  rewrites v1 a1 f1 v2 a2 f2 lo mid f -> rewrites v2 a2 f2 v3 a3 f3 mid hi f ->
  rewrites v1 a1 f1 v3 a3 f3 lo hi f.
Proof using geo.
  intros Hlo Hhi T2 T3 [A1 A2 A3 A4 A5 A6 A7 A8] [B1 B2 B3 B4 B5 B6 B7 B8].
  constructor.
  - intros s Hs Hne. rewrite B1, A1; try done. by rewrite A1.
  - intros s Hs Hne. destruct (B2 s Hs Hne) as [E|Hu].
    + rewrite E in Hne |- *. by apply A2.
    + right. destruct (used sb v1 _) eqn:E; [|done].
      destruct (tr_data _ _ _ _ T3 s Hs Hne) as (Hd & _). apply (data_range sb (fg_tree sb geo)) in Hd.
      assert (used sb v2 (saddr v3 a3 s) = true); [|congruence]. apply A6; [lia|by left].
  - intros o Ho. destruct (decide (mid <= o)) as [Hm|Hm]; [by apply B3; lia|].
    destruct (A3 o ltac:(lia)) as [Hne Hf]. split.
    + rewrite B1; [done|apply bn_slot; lia|done].
    + rewrite <- Hf. apply B4; [lia|lia|done].
  - intros o Ho Hn Hne. rewrite B4; [apply A4; [done|lia|done]|done|lia|]. by rewrite A1 by (done || by apply bn_slot).
  - intros a Ha Hnb Hu Hs. rewrite B5; [by apply A5|done|done|by apply A6; [|left]|].
    intros s Hok' E. destruct (decide (saddr v2 a2 s = 0)) as [E0|Hne].
    + destruct (decide (saddr v1 a1 s = 0)) as [E1|E1]; [by apply (Hs s Hok'); congruence|].
      by rewrite A1 in E0.
    + destruct (A2 s Hok' Hne) as [E'|Hu']; [by apply (Hs s Hok'); congruence|]. congruence.
  - intros c Hc. rewrite B6, A6 by done. split.
    + intros [[?|(s & Hs & Hne & ->)]|?]; [by left| |by right]. right. exists s. by rewrite B1.
    + intros [?|?]; [by left; left|by right].
  - by etrans.
  - intros Hp. destruct A8 as [-> ->]; [intros o Ho; apply Hp; lia|]. apply B8. intros o Ho.
    rewrite A1; [apply Hp; lia|apply bn_slot; lia|apply Hp; lia].
Qed.

(** One block of a write: [bmap] it, then change bytes of it. *)
Section step.
Context (v : Z -> list Z) (ads : list Z) (sf : gset Z) (bn : Z) (v1 : Z -> list Z) (ads1 : list Z) (sf1 : gset Z).
Context (r lo hi : Z) (f : Z -> Z) (d : list Z).
Context (T : tree_ok sb v ads sf) (T1 : tree_ok sb v1 ads1 sf1).
Context (Hm : bmapped sb v ads sf bn v1 ads1 sf1 r) (Hbn : 0 <= bn < MAXFILE).
Context (Hlo : bn * BSIZE <= lo < hi) (Hhi : hi <= (bn + 1) * BSIZE).
Context (Hin : forall o, lo <= o < hi -> getb d (o mod BSIZE) = f o).
Context (Hout : forall o, o / BSIZE = bn -> ~ (lo <= o < hi) -> getb d (o mod BSIZE) = getb (v1 r) (o mod BSIZE)).

Lemma step_slot : leaf (fslot bn) /\ r = saddr v1 ads1 (fslot bn) /\ r <> 0.
Proof using Hm Hbn. destruct Hm as (E & Hr & _). split; [by apply fslot_leaf|done]. Qed.

Lemma step_not_interior s : interior s -> saddr v1 ads1 s <> r.
Proof using Hm Hbn T1.
  destruct step_slot as (Hl & Er & Hr). intros Hs E. apply (leaf_not_interior _ Hl).
  rewrite Er in E. rewrite Er in Hr.
  by rewrite (tr_inj _ _ _ _ T1 (fslot bn) s (leaf_ok _ Hl) (interior_ok _ Hs) Hr (eq_sym E)).
Qed.

Lemma step_saddr s : slot_ok s -> saddr (vset v1 r d) ads1 s = saddr v1 ads1 s.
Proof using Hm Hbn T1.
  apply saddr_same. intros t Ht Hne. unfold vset. rewrite decide_False; [done|]. by apply step_not_interior.
Qed.

Lemma step_bmap a : is_bmap sb a -> vset v1 r d a = v1 a.
Proof using Hm Hbn T1.
  intros Ha. unfold vset. rewrite decide_False; [done|]. intros E.
  destruct step_slot as (Hl & Er & Hr). rewrite Er in Hr. rewrite E, Er in Ha.
  apply (data_not_bmap sb _ (proj1 (tr_data _ _ _ _ T1 _ (leaf_ok _ Hl) Hr)) Ha).
Qed.

(** A block of the old tree that is not the one written keeps its contents if
    it is a leaf. *)
Lemma step_leaf s :
  leaf s -> s <> fslot bn -> saddr v ads s <> 0 ->
  saddr v1 ads1 s = saddr v ads s /\ vset v1 r d (saddr v ads s) = v (saddr v ads s).
Proof using Hm Hbn T1 T geo.
  intros Hs Hne H0. destruct step_slot as (Hl & Er & Hr). destruct Hm as (_ & _ & ss & G & _).
  pose proof (grown_keep sb _ _ _ _ _ _ _ s G (leaf_ok _ Hs) H0) as E. split; [done|].
  destruct (tr_data _ _ _ _ T s (leaf_ok _ Hs) H0) as (Hd & Hu & _).
  unfold vset. rewrite decide_False.
  - apply (g_frame _ _ _ _ _ _ _ _ G); [|by apply data_not_bmap|done|].
    + apply (data_range sb (fg_tree sb geo)) in Hd. lia.
    + intros t Ht E'. exfalso. apply (leaf_not_interior _ Hs).
      by rewrite (tr_inj _ _ _ _ T s t (leaf_ok _ Hs) (interior_ok _ Ht) H0 (eq_sym E')).
  - rewrite <- E, Er. intros E'. apply Hne.
    apply (tr_inj _ _ _ _ T1 s (fslot bn)); [by right|by right|by rewrite E|done].
Qed.

Lemma rewrites_step : rewrites v ads sf (vset v1 r d) ads1 (sf1 ∖ {[r]}) lo hi f.
Proof using Hm Hbn T1 T geo Hin Hout Hlo Hhi.
  destruct step_slot as (Hl & Er & Hr). pose proof Hm as (_ & _ & ss & G & _ & Hss).
  assert (forall o, lo <= o < hi -> o / BSIZE = bn) as Hob.
  { clear - Hlo Hhi. intros o Ho. unfold BSIZE in *. lia. }
  assert (forall o, o / BSIZE = bn -> fbyte (vset v1 r d) ads1 o = getb d (o mod BSIZE)) as Hfb.
  { intros o Ho. unfold fbyte. rewrite step_saddr by (rewrite Ho; by right).
    rewrite Ho, <- Er. unfold vset. by rewrite decide_True. }
  constructor.
  - intros s Hs Hne. rewrite step_saddr by done. by eapply grown_keep.
  - intros s Hs. rewrite step_saddr by done. intros Hne. destruct (decide (s ∈ ss)) as [Hi|Hi].
    + right. by apply (g_new _ _ _ _ _ _ _ _ G) in Hi as (_ & _ & _ & ?).
    + left. by apply (g_old _ _ _ _ _ _ _ _ G).
  - intros o Ho. pose proof (Hob o Ho) as Eo. split; [|rewrite Hfb by done; by apply Hin].
    rewrite step_saddr by (rewrite Eo; by right). by rewrite Eo, <- Er.
  - intros o Hor Hn Hne. destruct (decide (o / BSIZE = bn)) as [Eo|Eo].
    + rewrite Hfb, Hout by done. rewrite Eo in Hne.
      destruct (bmapped_present sb _ _ _ _ _ _ _ _ Hm Hne) as (E & _ & _ & Ev).
      unfold fbyte. by rewrite Eo, Ev, E.
    + pose proof (fslot_leaf _ (bn_range o Hor)) as Hl'.
      destruct (step_leaf (fslot (o / BSIZE)) Hl') as [E1 E2]; [|done|].
      { intros E. apply Eo. apply fslot_inj; [by apply bn_range|done|done]. }
      unfold fbyte. rewrite step_saddr by by right. by rewrite E1, E2.
  - intros a Ha Hb Hu Hs. unfold vset. rewrite decide_False.
    + apply (g_frame _ _ _ _ _ _ _ _ G); try done. intros s Hi E. exfalso. by eapply (Hs s); [left|].
    + intros ->. destruct (decide (fslot bn ∈ ss)) as [Hi|Hi].
      * apply (g_new _ _ _ _ _ _ _ _ G) in Hi as (_ & _ & _ & Hf). congruence.
      * apply (Hs (fslot bn)); [by right|]. rewrite Er. symmetry. apply (g_old _ _ _ _ _ _ _ _ G); [by right|done].
  - intros c Hc. rewrite (used_same v1) by (done || apply step_bmap). rewrite (g_used _ _ _ _ _ _ _ _ G) by done. split.
    + intros [?|(s & Hs & ->)]; [by left|]. right. exists s.
      apply (g_new _ _ _ _ _ _ _ _ G) in Hs as (Hok & _ & Hne & _). by rewrite step_saddr.
    + intros [?|(s & Hs & Hne & ->)]; [by left|]. rewrite step_saddr in Hne |- * by done.
      destruct (decide (s ∈ ss)) as [Hi|Hi]; [right; by exists s|left].
      rewrite (g_old _ _ _ _ _ _ _ _ G) in Hne |- * by done. by apply (tr_data _ _ _ _ T).
  - etrans; [|apply (g_sf _ _ _ _ _ _ _ _ G)]. apply subseteq_difference_l. done.
  - intros Hp. specialize (Hp lo ltac:(lia)). rewrite Hob in Hp by lia.
    destruct (bmapped_present sb _ _ _ _ _ _ _ _ Hm Hp) as (E & Ea & Es & Ev).
    split; [done|]. rewrite Es. apply difference_disjoint_L, disjoint_singleton_r. rewrite E.
    by apply (tr_data _ _ _ _ T); [right|].
Qed.
End step.

Lemma tree_sf v ads sf sf' : tree_ok sb v ads sf -> sf' ⊆ sf -> tree_ok sb v ads sf'.
Proof.
  intros [A1 A2 A3] Hsf. constructor; [done| |done]. intros s Hs Hne.
  destruct (A2 s Hs Hne) as (Hd & Hu & Hn). split; [done|]. split; [done|]. intros Hin. by apply Hn, Hsf.
Qed.

Lemma fok_step b1 v ads sf bn v1 ads1 sf1 r b2 d :
  fok sb b1 v1 ∅ sf1 ads1 -> bmapped sb v ads sf bn v1 ads1 sf1 r -> 0 <= bn < MAXFILE ->
  bst b2 (vset v1 r d) ∅ (sf1 ∖ {[r]}) ∅ -> fok sb b2 (vset v1 r d) ∅ (sf1 ∖ {[r]}) ads1.
Proof using geo.
  intros [F1 F2 F3 F4 F5] Hm Hbn Hb2.
  assert (forall a, is_bmap sb a -> vset v1 r d a = v1 a) as Hbm by (intros a; by eapply step_bmap).
  constructor; [done| |done|by eapply meta_same|].
  - intros a [Ha _]%elem_of_difference. by apply F2.
  - apply (tree_sf _ _ sf1); [|by apply subseteq_difference_l].
    eapply tree_same; [done|done|]. intros s Hs Hne. unfold vset. rewrite decide_False; [done|].
    by eapply (step_not_interior v ads sf bn).
Qed.

(** One iteration of [writei]. *)
Lemma write_block_spec {A} b v sf ics ip x src off m (K : M St A) Q :
  fok sb b v ∅ sf (d_addrs (i_d x)) -> ics !! ip = Some x -> i_dev x = 1 ->
  0 <= off < MAXFILE * BSIZE -> 0 < m -> off mod BSIZE + m <= BSIZE ->
  m <= Z.of_nat (length src) -> bytes src -> (nfree sb v < 3 -> EP "balloc: out of blocks"%string) ->
  (forall b' v' sf' ads', fok sb b' v' ∅ sf' ads' ->
     rewrites v (d_addrs (i_d x)) sf v' ads' sf' off (off + m) (fun o => getb src (o - off)) ->
     nfree sb v <= nfree sb v' + 3 ->
     wp EP K Q (FState b' (<[ip := with_d x (with_addrs (i_d x) ads')]> ics))) ->
  wp EP (b <- bmap sb ip (off / BSIZE);;
         bp <- onblk (bl_bread 1 b);;
         d <- gets (fun s => bl_data bp (f_blk s));;
         onblk (bl_set bp (splice d (Z.to_nat (off mod BSIZE)) (take (Z.to_nat m) src)));;
         onblk (bl_log_write bp);;
         onblk (bl_brelse bp);; K) Q (FState b ics).
Proof using geo HE.
  intros Hf Hip Hdev Ho Hm1 Hm2 Hlen Hby HE2 HQ.
  pose proof (bn_range off Ho) as Hbn. pose proof (Z.mod_pos_bound off BSIZE ltac:(done)) as Hmod.
  wp_step. eapply (bmap_spec sb geo EP HE); [done|done|done|done|by intros _|].
  intros b1 v1 sf1 ads1 r Hf1 Hm. pose proof Hm as (_ & _ & ss & G & Hnss & _). apply grown_free in G. pose proof (step_slot v _ sf _ v1 ads1 sf1 r Hm Hbn) as (Hl & Er & Hr).
  wp_step. rewrite Er. eapply (wp_tree_bread sb geo EP HE _ _ _ _ _ _ (fslot (off / BSIZE)));
    [done|by right|by rewrite <- Er|done|]. rewrite <- Er. intros bp b2 Hbp Hf2.
  pose proof Hf2 as [F1 F2 F3 F4 F5].
  assert (is_data sb r /\ r ∉ sf1) as [Hrd Hrs].
  { rewrite Er. destruct (tr_data _ _ _ _ F5 (fslot (off / BSIZE))) as (? & _ & ?); [by right|by rewrite <- Er|done]. }
  do 2 wp_step. cbn [f_blk]. rewrite (wp_data _ _ _ _ _ _ _ F1 (lookup_insert_eq _ _ _)) by done.
  pose proof (bst_view_ok _ _ _ _ _ _ F1 Hrs) as Hok. set (d := splice _ _ _).
  assert (length (take (Z.to_nat m) src) = Z.to_nat m) as Hlt by (rewrite length_take; lia).
  assert (block_ok d) as Hdok by (apply splice_block_ok; [done|by apply Forall_take|lia|rewrite Hlt; lia]).
  apply wp_bind_assoc3. wp_step. apply wp_lift3; [done|done|]. cbn [f_blk f_inodes].
  wp_upd; [done|by rewrite lookup_insert_eq|by apply (data_home sb geo)|done|]. intros b3 Hb3.
  replace (∅ ∖ {[r]} : gset Z) with (∅ : gset Z) in Hb3 by set_solver.
  eapply wp_brelse; [done|by rewrite lookup_insert_eq|done|]. intros b4 Hb4. rewrite delete_insert_id in Hb4 by done.
  eapply HQ; [by eapply fok_step| |].
  2: { rewrite (nfree_same sb v1 (vset v1 r d)); [lia|]. intros c Hc. apply used_same; [|done].
       intros a Ha. eapply step_bmap; [apply Hf1|exact Hm|done|done]. }
  destruct Hok as [Hlen1 _].
  eapply rewrites_step; [apply Hf|apply Hf1|exact Hm|done|unfold BSIZE in *; lia|unfold BSIZE in *; lia|..].
  - intros o Ho'. unfold d. replace (o mod BSIZE) with (off mod BSIZE + (o - off)) by (unfold BSIZE in *; lia).
    rewrite getb_splice_in, getb_take by (rewrite ?Hlt, ?Hlen1; lia). f_equal. lia.
  - intros o Ho' Hn. unfold d. apply getb_splice_out; rewrite ?Hlt, ?Hlen1; unfold BSIZE in *; lia.
Qed.

(** [k] blocks are enough for [n] bytes from [off] on, and the panic of a write
    that finds fewer than three free blocks for each of them. *)
Definition enough (v : Z -> list Z) (off n k : Z) : Prop :=
  0 <= k /\ (0 < n -> off mod BSIZE + n <= BSIZE * k) /\ (nfree sb v < 3 * k -> EP "balloc: out of blocks"%string).

(** The number of blocks that [n] bytes can lie in. *)
Definition touches (n : Z) : Z := (n + BSIZE - 2) / BSIZE + 1.

Lemma enough_touches v off n :
  0 <= n -> (nfree sb v < 3 * touches n -> EP "balloc: out of blocks"%string) -> enough v off n (touches n).
Proof.
  intros Hn HE2. pose proof (Z.mod_pos_bound off BSIZE ltac:(done)). unfold enough, touches in *.
  split; [unfold BSIZE; lia|]. split; [|done]. unfold BSIZE in *. lia.
Qed.

(** After one block. *)
Lemma enough_step v v' off n k m : enough v off n k -> 0 < n -> m = Z.min n (BSIZE - off mod BSIZE) ->
  nfree sb v <= nfree sb v' + 3 -> 1 <= k /\ enough v' (off + m) (n - m) (k - 1).
Proof.
  intros (Hk & Hn & HE2) Hpos Em Hf. pose proof (Z.mod_pos_bound off BSIZE ltac:(done)) as Hmod.
  specialize (Hn Hpos). assert (1 <= k) as H1 by (unfold BSIZE in *; lia). split; [done|]. split; [lia|]. split; [|intros ?; apply HE2; lia].
  intros Hrest. assert (m = BSIZE - off mod BSIZE) as -> by lia.
  replace ((off + (BSIZE - off mod BSIZE)) mod BSIZE) with 0 by (unfold BSIZE; lia). lia.
Qed.

Lemma writei_loop_spec fuel : forall b v sf ics ip x src off tot n k (Q : unit -> St -> Prop),
  fok sb b v ∅ sf (d_addrs (i_d x)) -> ics !! ip = Some x -> i_dev x = 1 ->
  0 <= off -> off + (n - tot) <= MAXFILE * BSIZE -> 0 <= n - tot <= Z.of_nat fuel ->
  n - tot <= Z.of_nat (length src) -> bytes src -> enough v off (n - tot) k ->
  (forall b' v' sf' ads', fok sb b' v' ∅ sf' ads' ->
     rewrites v (d_addrs (i_d x)) sf v' ads' sf' off (off + (n - tot)) (fun o => getb src (o - off)) ->
     nfree sb v <= nfree sb v' + 3 * k ->
     Q tt (FState b' (<[ip := with_d x (with_addrs (i_d x) ads')]> ics))) ->
  wp EP (writei_loop sb fuel ip src off tot n) Q (FState b ics).
Proof using geo HE.
  induction fuel as [|fuel IH]; intros b v sf ics ip x src off tot n k Q Hf Hip Hdev Ho Hmax Hfuel Hlen Hby Hk HQ;
    cbn [writei_loop];
    [|destruct (tot <? n) eqn:Et; [apply Z.ltb_lt in Et|apply Z.ltb_ge in Et]].
  1,3: wp_step; specialize (HQ b v sf (d_addrs (i_d x)) Hf); rewrite with_addrs_id, list_insert_id in HQ by done;
    apply HQ; [|destruct Hk; lia]; replace (off + (n - tot)) with off by lia; apply rewrites_nil, Hf.
  do 2 wp_step. rewrite (getinode_lookup _ _ _ _ Hip), Hdev. set (m := Z.min _ _).
  pose proof (Z.mod_pos_bound off BSIZE ltac:(done)) as Hmod.
  assert (0 < m <= n - tot /\ off mod BSIZE + m <= BSIZE) as (Hm1 & Hm2) by (unfold m; lia).
  eapply write_block_spec; [done|done|done|lia|lia|done|lia|done| |].
  { intros Hfew. destruct (enough_step v v off (n - tot) k m Hk ltac:(lia) eq_refl ltac:(lia)). apply Hk. lia. }
  intros b1 v1 sf1 ads1 Hf1 R1 Hn1.
  destruct (enough_step v v1 off (n - tot) k m Hk ltac:(lia) eq_refl Hn1) as [Hk1 Hk'].
  replace (n - tot - m) with (n - (tot + m)) in Hk' by lia.
  eapply (IH b1 v1 sf1 _ ip (with_d x (with_addrs (i_d x) ads1)) _ _ _ _ (k - 1)); [done|apply list_lookup_insert_eq; by eapply lookup_lt_Some|done|lia|lia|lia| | |done|].
  { rewrite length_drop. lia. } { by apply Forall_drop. }
  intros b2 v2 sf2 ads2 Hf2 R2 Hn2. rewrite list_insert_insert_eq. eapply HQ; [done| |lia].
  replace (off + m + (n - (tot + m))) with (off + (n - tot)) in R2 by lia.
  eapply (rewrites_app _ _ _ v1 ads1 sf1 _ _ _ off (off + m)); [lia|lia|apply Hf1|apply Hf2|done|].
  eapply rewrites_fun; [exact R2|]. intros o Ho'. cbv beta. rewrite getb_drop by lia. f_equal. lia.
Qed.

(** A change outside the free map and the file's tree. *)
Lemma fok_outside b v sf ads b' v' :
  fok sb b v ∅ sf ads -> bst b' v' ∅ sf ∅ ->
  (forall a, is_bmap sb a \/ is_data sb a -> v' a = v a) -> fok sb b' v' ∅ sf ads.
Proof using geo.
  intros [F1 F2 F3 F4 F5] Hb Hv. constructor; [done|done|done| |].
  - eapply meta_same; [done|]. intros a Ha. apply Hv. by left.
  - eapply tree_same; [done|intros a Ha; apply Hv; by left|].
    intros s Hs Hne. apply Hv. right. by apply (tr_data _ _ _ _ F5); [left|].
Qed.

Lemma saddr_outside v v' sf ads s :
  tree_ok sb v ads sf -> (forall a, is_data sb a -> v' a = v a) -> slot_ok s -> saddr v' ads s = saddr v ads s.
Proof.
  intros Ht Hv Hs. apply saddr_same; [|done]. intros t Hti Hne. apply Hv. by apply (tr_data _ _ _ _ Ht); [left|].
Qed.

Lemma fbyte_outside v v' sf ads o :
  tree_ok sb v ads sf -> (forall a, is_data sb a -> v' a = v a) -> 0 <= o < MAXFILE * BSIZE ->
  saddr v ads (fslot (o / BSIZE)) <> 0 -> fbyte v' ads o = fbyte v ads o.
Proof.
  intros Ht Hv Ho Hne. unfold fbyte. rewrite (saddr_outside v v' sf) by (done || by apply bn_slot).
  rewrite Hv; [done|]. by apply (tr_data _ _ _ _ Ht); [apply bn_slot|].
Qed.

Lemma tree_addrs v ads sf : tree_ok sb v ads sf -> Forall (fun a => 0 <= a < 2 ^ 32) ads.
Proof using geo.
  intros Ht. apply Forall_lookup. intros i a Hi. pose proof (tr_len _ _ _ _ Ht) as Hl.
  pose proof (lookup_lt_Some _ _ _ Hi) as Hlt. rewrite Hl in Hlt.
  assert (saddr v ads (Root (Z.of_nat i)) = a) as Ea by (cbn; by rewrite Nat2Z.id, Hi).
  assert (slot_ok (Root (Z.of_nat i))) as Hok.
  { destruct (decide (i < 11)%nat); [right; constructor; unfold NDIRECT; lia|left].
    destruct (decide (i = 11)%nat) as [->|]; [apply in_ind|]. assert (i = 12)%nat as -> by lia. apply in_dind. }
  destruct (decide (a = 0)) as [->|Hne]; [lia|].
  destruct (tr_data _ _ _ _ Ht _ Hok) as (Hd & _); [by rewrite Ea|]. rewrite Ea in Hd.
  apply (data_range sb (fg_tree sb geo)) in Hd. pose proof (fg_max sb geo). lia.
Qed.

(** An inode block is not part of a file. *)
Lemma iblock_kept v ads sf v' ads' sf' lo hi f i :
  rewrites v ads sf v' ads' sf' lo hi f -> tree_ok sb v ads sf -> meta_used sb v -> is_ino sb i ->
  v' (IBLOCK sb i) = v (IBLOCK sb i).
Proof using geo.
  intros R Ht Hm Hi. pose proof (IBLOCK_range sb geo i Hi) as Hr. pose proof (fg_size sb geo).
  pose proof (fg_order sb geo). apply (rw_frame _ _ _ _ _ _ _ _ _ R).
  - lia.
  - by apply (IBLOCK_not_bmap sb geo).
  - apply Hm. lia.
  - intros s Hs E. destruct (decide (saddr v ads s = 0)) as [E0|Hne]; [lia|].
    destruct (tr_data _ _ _ _ Ht s Hs Hne) as (Hd & _). rewrite E in Hd. by apply (IBLOCK_not_data sb geo) in Hd.
Qed.

(** The contents after the bytes from [off] on have become [src]. *)
Lemma contents_rewritten v di sf v' di' sf' off src v'' :
  rewrites v (d_addrs di) sf v' (d_addrs di') sf' off (off + Z.of_nat (length src)) (fun o => getb src (o - off)) ->
  mapped v (d_addrs di) (d_size di) -> 0 <= off <= d_size di ->
  d_size di' = Z.max (d_size di) (off + Z.of_nat (length src)) -> d_size di' <= MAXFILE * BSIZE ->
  tree_ok sb v' (d_addrs di') sf' -> (forall a, is_data sb a -> v'' a = v' a) ->
  mapped v'' (d_addrs di') (d_size di') /\ contents v'' di' = splice (contents v di) (Z.to_nat off) src.
Proof.
  intros R Hm Ho Hsz Hmax Ht Hv.
  assert (mapped v' (d_addrs di') (d_size di')) as Hm'.
  { intros o Ho'. destruct (decide (off <= o < off + Z.of_nat (length src))) as [Hi|Hi].
    - by apply (rw_in _ _ _ _ _ _ _ _ _ R).
    - rewrite (rw_keep _ _ _ _ _ _ _ _ _ R); [apply Hm; lia|apply bn_slot; lia|apply Hm; lia]. }
  split.
  { intros o Ho'. rewrite (saddr_outside v' v'' sf') by (done || apply bn_slot; lia). by apply Hm'. }
  apply list_eq_same_length with (n := Z.to_nat (d_size di')).
  - unfold splice. rewrite !length_app, length_take, length_drop, length_contents. lia.
  - by rewrite length_contents.
  - intros i y z Hi. rewrite <- (Nat2Z.id i) at 1. rewrite lookup_contents by lia. intros [= <-].
    rewrite (fbyte_outside v' v'' sf') by (done || lia || apply Hm'; lia). unfold splice.
    destruct (decide (Z.of_nat i < off)) as [Hlo|Hlo].
    + rewrite lookup_app_l by (rewrite length_take, length_contents; lia). rewrite lookup_take_lt by lia.
      rewrite <- (Nat2Z.id i) at 1. rewrite lookup_contents by lia. intros [= <-].
      apply (rw_out _ _ _ _ _ _ _ _ _ R); [lia|lia|apply Hm; lia].
    + rewrite lookup_app_r by (rewrite length_take, length_contents; lia).
      rewrite length_take, length_contents, Nat.min_l by lia.
      destruct (decide (Z.of_nat i < off + Z.of_nat (length src))) as [Hin|Hin].
      * rewrite lookup_app_l by lia. intros Hz. destruct (rw_in _ _ _ _ _ _ _ _ _ R (Z.of_nat i)) as [_ ->]; [lia|].
        unfold getb. replace (Z.to_nat (Z.of_nat i - off)) with (i - Z.to_nat off)%nat by lia. by rewrite Hz.
      * rewrite lookup_app_r by lia. rewrite lookup_drop.
        replace (Z.to_nat off + length src + (i - Z.to_nat off - length src))%nat with (Z.to_nat (Z.of_nat i)) by lia.
        rewrite lookup_contents by lia. intros [= <-].
        apply (rw_out _ _ _ _ _ _ _ _ _ R); [lia|lia|apply Hm; lia].
Qed.

(** What a write leaves of the rest of the file system: every block in use
    that is not this file's keeps its contents, and so does every other inode;
    blocks stay in use, and new ones belong to the file. *)
Record others_kept (v : Z -> list Z) (x : inode) (v' : Z -> list Z) (x' : inode) : Prop := {
  ok_blocks a : 0 <= a < sb_size sb -> ~ is_bmap sb a -> a <> IBLOCK sb (i_inum x) -> used sb v a = true ->
    (forall s, slot_ok s -> saddr v (d_addrs (i_d x)) s <> a) -> v' a = v a;
  ok_dino j : is_ino sb j -> j <> i_inum x -> dino sb v' j = dino sb v j;
  ok_used c : 0 <= c < sb_size sb ->
    used sb v' c = true <-> used sb v c = true \/
      exists s, slot_ok s /\ saddr v' (d_addrs (i_d x')) s <> 0 /\ c = saddr v' (d_addrs (i_d x')) s
}.

(** The inode after a write of [n] bytes at [off]. *)
Definition written (x x' : inode) (off n : Z) : Prop :=
  exists ads, x' = with_d x (with_size (with_addrs (i_d x) ads) (Z.max (d_size (i_d x)) (off + n))).

Lemma iblock_not_special i a : is_ino sb i -> is_bmap sb a \/ is_data sb a -> a <> IBLOCK sb i.
Proof using geo.
  intros Hi Ha ->. destruct Ha as [Ha|Ha]; [by eapply IBLOCK_not_bmap|by eapply IBLOCK_not_data].
Qed.

(** The end of a write: [v1] has the data, [v2] the inode too. *)
Lemma written_ok b2 v sf ics ip x off l v1 ads1 sf1 v2 x2 :
  (exists b, file_st b v sf ics ip x) ->
  0 <= off <= d_size (i_d x) -> off + Z.of_nat (length l) <= MAXFILE * BSIZE ->
  rewrites v (d_addrs (i_d x)) sf v1 ads1 sf1 off (off + Z.of_nat (length l)) (fun o => getb l (o - off)) ->
  tree_ok sb v1 ads1 sf1 -> fok sb b2 v2 ∅ sf1 ads1 ->
  (forall a, a <> IBLOCK sb (i_inum x) -> v2 a = v1 a) ->
  x2 = with_d x (with_size (with_addrs (i_d x) ads1) (Z.max (d_size (i_d x)) (off + Z.of_nat (length l)))) ->
  dinode_ok (i_d x2) -> dino sb v2 (i_inum x) = i_d x2 ->
  (forall j, is_ino sb j -> j <> i_inum x -> dino sb v2 j = dino sb v1 j) ->
  file_st b2 v2 sf1 (<[ip := x2]> ics) ip x2 /\
  contents v2 (i_d x2) = splice (contents v (i_d x)) (Z.to_nat off) l /\ others_kept v x v2 x2.
Proof using geo.
  intros [b [Hf Hip Hdev Hi _ Hmax Hmap Hdino]] Ho Hend R Ht1 Hf2 Hv2 Ex2 Hdk Hd2 Hdj.
  assert (d_addrs (i_d x2) = ads1) as Ea by by rewrite Ex2.
  assert (d_size (i_d x2) = Z.max (d_size (i_d x)) (off + Z.of_nat (length l))) as Esz by by rewrite Ex2.
  assert (forall a, is_bmap sb a \/ is_data sb a -> v2 a = v1 a) as Hsp.
  { intros a Ha. apply Hv2. by apply iblock_not_special. }
  destruct (contents_rewritten v (i_d x) sf v1 (i_d x2) sf1 off l v2) as [Hm2 Hc2]; try done.
  { by rewrite Ea. } { lia. } { by rewrite Ea. } { intros a Ha. apply Hsp. by right. }
  split; [constructor|split; [done|constructor]].
  - by rewrite Ea.
  - apply list_lookup_insert_eq. by eapply lookup_lt_Some.
  - by rewrite Ex2.
  - by rewrite Ex2.
  - done.
  - lia.
  - done.
  - by rewrite Ex2 in Hd2 |- *.
  - intros a Ha Hb Hne Hu Htr. rewrite Hv2 by done. by apply (rw_frame _ _ _ _ _ _ _ _ _ R).
  - intros j Hj Hne. rewrite Hdj by done. unfold dino.
    by rewrite (iblock_kept _ _ _ _ _ _ _ _ _ j R (fo_tree _ _ _ _ _ _ Hf) (fo_meta _ _ _ _ _ _ Hf) Hj).
  - intros c Hc. rewrite (used_same v1) by (done || intros a Ha'; apply Hsp; by left).
    rewrite (rw_used _ _ _ _ _ _ _ _ _ R) by done. rewrite Ea. split.
    + intros [?|(s & Hs' & Hne & ->)]; [by left|right]. exists s.
      by rewrite (saddr_outside v1 v2 sf1) by (done || intros a Ha'; apply Hsp; by right).
    + intros [?|(s & Hs' & Hne & ->)]; [by left|right]. exists s.
      rewrite (saddr_outside v1 v2 sf1) in Hne |- * by (done || intros a Ha'; apply Hsp; by right). done.
Qed.

Lemma writei_spec devw b v sf ics ip x src off n k (Q : Z -> St -> Prop) :
  file_st b v sf ics ip x -> d_type (i_d x) <> T_DEV -> 0 <= off < 2 ^ 32 -> 0 <= n < 2 ^ 32 ->
  n <= Z.of_nat (length src) -> bytes src -> enough v off n k ->
  (d_size (i_d x) < off \/ MAXFILE * BSIZE < off + n -> Q (-1) (FState b ics)) ->
  (off <= d_size (i_d x) -> off + n <= MAXFILE * BSIZE -> forall b' v' sf' x',
     file_st b' v' sf' (<[ip := x']> ics) ip x' -> sf' ⊆ sf -> written x x' off n ->
     contents v' (i_d x') = splice (contents v (i_d x)) (Z.to_nat off) (take (Z.to_nat n) src) ->
     others_kept v x v' x' -> nfree sb v <= nfree sb v' + 3 * k -> Q n (FState b' (<[ip := x']> ics))) ->
  wp EP (writei sb devw ip src off n) Q (FState b ics).
Proof using geo HE.
  intros Hs Hty Ho Hn Hlen Hby Hk Herr HQ. assert (exists b, file_st b v sf ics ip x) as Hs0 by eauto.
  destruct Hs as [Hf Hip Hdev Hi Hdk Hmax Hmap Hdino].
  unfold writei. do 2 wp_step. rewrite (getinode_lookup _ _ _ _ Hip), (proj2 (Z.eqb_neq _ _) Hty).
  destruct (_ || _) eqn:E; [wp_step; apply Herr; apply orb_true_iff in E; unfold u32 in E; plia|].
  apply orb_false_iff in E as [E1 E2]. assert (off + n < 2 ^ 32) as Hof by (unfold u32 in E2; lia).
  rewrite u32_small by lia. destruct (MAXFILE * BSIZE <? off + n) eqn:E3; [wp_step; apply Herr; lia|].
  assert (off <= d_size (i_d x)) as Hoff by lia. assert (off + n <= MAXFILE * BSIZE) as Hend by lia.
  wp_step. eapply (writei_loop_spec _ _ _ _ _ _ x src off 0 n k); [done|done|done|lia|lia|lia|lia|done|by rewrite Z.sub_0_r|].
  replace (n - 0) with n by lia. intros b1 v1 sf1 ads1 Hf1 R Hfree.
  set (l := take (Z.to_nat n) src). assert (length l = Z.to_nat n) as Hl by (unfold l; rewrite length_take; lia).
  assert (rewrites v (d_addrs (i_d x)) sf v1 ads1 sf1 off (off + Z.of_nat (length l)) (fun o => getb l (o - off))) as R'.
  { rewrite Hl, Z2Nat.id by lia. eapply rewrites_fun; [exact R|]. intros o Ho'. unfold l. by rewrite getb_take by lia. }
  pose proof (lookup_lt_Some _ _ _ Hip) as Hlt.
  set (x1 := with_d x (with_addrs (i_d x) ads1)). do 2 wp_step.
  rewrite (getinode_lookup _ x1) by by apply list_lookup_insert_eq. wp_step.
  pose proof (iblock_kept _ _ _ _ _ _ _ _ _ (i_inum x) R (fo_tree _ _ _ _ _ _ Hf) (fo_meta _ _ _ _ _ _ Hf) Hi) as Hibk.
  assert (s32 n = n) as Es by (apply s32_small; plia).
  apply wp_when; intros Hgrow.
  - apply andb_prop in Hgrow as [Hn0 Hg]. change (d_size (i_d x1)) with (d_size (i_d x)) in Hg.
    wp_step. eapply wp_modinode; [by apply list_lookup_insert_eq|]. rewrite list_insert_insert_eq.
    set (x2 := with_d x1 _).
    assert (dinode_ok (i_d x2)) as Hdk2.
    { destruct Hdk. constructor; try done; cbn; [plia|apply Hf1|by eapply tree_addrs, Hf1]. }
    eapply (iupdate_spec sb geo EP HE); [apply Hf1|split; [apply Hf1|done]|by apply list_lookup_insert_eq|done|done|done|].
    intros b2 v2 Hb2 [Hv2 Hd2]. wp_step. rewrite Es.
    destruct (written_ok b2 v sf ics ip x off l v1 ads1 sf1 v2 x2) as (Hs2 & Hc2 & Hk2); try done.
    + lia.
    + by rewrite Hl, Z2Nat.id by lia.
    + apply Hf1.
    + eapply fok_outside; [done|done|]. intros a Ha. apply Hv2. by apply iblock_not_special.
    + unfold x2. rewrite Hl, Z2Nat.id, Z.max_r by lia. done.
    + rewrite Hd2 by done. by rewrite decide_True.
    + intros j Hj Hne. rewrite Hd2 by done. by rewrite decide_False.
    + eapply HQ; try done; [apply R|exists ads1; unfold x2; by rewrite Z.max_r by lia|].
      rewrite (nfree_same sb v1 v2); [done|]. intros c Hc. apply used_same; [|done].
      intros a Ha. apply Hv2. apply iblock_not_special; [done|by left].
  - wp_step. rewrite Es.
    assert (off + n <= d_size (i_d x)) as Hfit.
    { apply andb_false_iff in Hgrow. change (d_size (i_d x1)) with (d_size (i_d x)) in Hgrow. lia. }
    destruct (rw_same _ _ _ _ _ _ _ _ _ R) as [Ea ->]; [intros o Ho'; apply Hmap; lia|].
    assert (x1 = x) as Ex by (unfold x1; rewrite Ea; apply with_addrs_id). rewrite Ex in *.
    destruct (written_ok b1 v sf ics ip x off l v1 ads1 sf v1 x) as (Hs2 & Hc2 & Hk2); try done.
    + lia.
    + by rewrite Hl, Z2Nat.id by lia.
    + apply Hf1.
    + rewrite Hl, Z2Nat.id, Z.max_l, Ea by lia. by destruct x as [? ? ? ? ? []].
    + unfold dino. by rewrite Hibk.
    + eapply HQ; try done. exists ads1. rewrite Z.max_l, Ea by lia. by destruct x as [? ? ? ? ? []].
Qed.
End specs.
