(* ===== verification/LogSpace.v ===== *)
(** * The log space of a write

    How many blocks a call of [writei] can log, and so why the chunks of
    [filewrite] fit into one transaction: [fits] runs the code and looks only
    at the panics of a full log and a full buffer cache. *)

From S2P Require Import Prelude Params Locks Bio Log Crash Block Balloc Inode Bmap Content.
Local Open Scope Z_scope.
Local Open Scope kmonad_scope.

(** ** The judgement *)

Section fits.
Context {St : Type}.

(** If [m] returns, then with [Q]; if it panics, then not for want of log space
    or buffers. *)
Definition fits {A} (m : M St A) (Q : A -> St -> Prop) (s : St) : Prop :=
  match m s with
  | Ret a s' => Q a s'
  | Panic msg => ~ res_panic msg
  | Block _ => True
  end.

Lemma fits_bind {A B} (m : M St A) (k : A -> M St B) Q s : fits m (fun a => fits (k a) Q) s -> fits (bind m k) Q s.
Proof. unfold fits, bind. by destruct (m s). Qed.

Lemma fits_post {A} (m : M St A) (Q Q' : A -> St -> Prop) s : fits m Q s -> (forall a s', Q a s' -> Q' a s') -> fits m Q' s.
Proof. unfold fits. destruct (m s); naive_solver. Qed.

Lemma fits_ret {A} (a : A) (Q : A -> St -> Prop) s : Q a s -> fits (ret a) Q s.
Proof. done. Qed.

Lemma fits_gets {A} (f : St -> A) (Q : A -> St -> Prop) s : Q (f s) s -> fits (gets f) Q s.
Proof. done. Qed.

Lemma fits_modify (f : St -> St) (Q : unit -> St -> Prop) s : Q tt (f s) -> fits (modify f) Q s.
Proof. done. Qed.

Lemma fits_panic {A} msg (Q : A -> St -> Prop) s : ~ res_panic msg -> fits (panic msg) Q s.
Proof. done. Qed.

Lemma fits_wp {A} E (m : M St A) (Q Q' : A -> St -> Prop) s :
  wp E m Q s -> (forall msg, E msg -> ~ res_panic msg) -> (forall a s', Q a s' -> Q' a s') -> fits m Q' s.
Proof. unfold wp, fits. destruct (m s); naive_solver. Qed.

Lemma fits_nopanic {A} (m : M St A) (Q Q' : A -> St -> Prop) s :
  wp nopanic m Q s -> (forall a s', Q a s' -> Q' a s') -> fits m Q' s.
Proof. unfold wp, fits, nopanic. destruct (m s); naive_solver. Qed.

(** What is known of the run both ways. *)
Lemma wp_fits {A} (E : string -> Prop) (m : M St A) (Q R : A -> St -> Prop) s :
  fits m R s -> wp E m (fun a s' => R a s' -> Q a s') s -> wp (fun msg => E msg /\ ~ res_panic msg) m Q s.
Proof. unfold wp, fits. destruct (m s); naive_solver. Qed.

Lemma fits_when (c : bool) (m : M St unit) (Q : unit -> St -> Prop) s :
  (c = true -> fits m Q s) -> (c = false -> Q tt s) -> fits (when c m) Q s.
Proof. destruct c; cbn [when]; unfold fits; naive_solver. Qed.

Lemma fits_scan {X R} (body : X -> M St (option R)) (Q : option R -> St -> Prop) (I : St -> Prop) l : forall s,
  I s -> (forall x s', x ∈ l -> I s' -> fits (body x) (fun r s'' => if r is Some _ then Q r s'' else I s'') s') ->
  (forall s', I s' -> Q None s') -> fits (scan body l) Q s.
Proof.
  induction l as [|x l IH]; intros s HI Hbody Hend; cbn [scan]; [by apply Hend|].
  apply fits_bind. eapply fits_post; [apply Hbody; [left|done]|]. intros [r|] s' Hr; [done|].
  apply IH; [done| |done]. intros y s'' Hy. apply Hbody. by right.
Qed.

End fits.

Lemma fits_lift {St T A} (get : T -> St) (put : St -> T -> T) (m : M St A) (Q : A -> T -> Prop) t :
  fits m (fun a s => Q a (put s t)) (get t) -> fits (lift get put m) Q t.
Proof. unfold fits, lift. by destruct (m (get t)). Qed.

Ltac not_res := intros [?|?]; discriminate.

Ltac fits_step :=
  lazymatch goal with
  | |- fits (bind _ _) _ _ => apply fits_bind
  | |- fits (ret _) _ _ => apply fits_ret
  | |- fits (gets _) _ _ => apply fits_gets
  | |- fits (modify _) _ _ => apply fits_modify
  | |- fits (panic _) _ _ => apply fits_panic; not_res
  end.

(** ** The buffer cache *)

Section cache.
Context (pid : Z).

(** Reading a block that the caller has locked blocks. *)
Lemma bread_held s i c : bio_ok pid s -> held s !! i = Some c -> exists s', bread pid 1 c s = Block s'.
Proof.
  intros Hs Hh. destruct (held_buf pid s i c Hs Hh) as (b & Hb & Hd & Hc & Hl & _).
  pose proof (lookup_lt_Some _ _ _ Hb) as Hi.
  unfold bread, bget, bind, gets. cbn [id].
  destruct (list_find _ (lru s)) as [[k j]|] eqn:E.
  - apply list_find_Some in E as (Hk & [Hd' Hn] & _).
    apply list_elem_of_lookup_2, (elem_of_lru pid), lookup_lt_is_Some in Hk as [b' Hb']; [|done].
    rewrite (getbuf_lookup _ _ _ Hb') in *.
    assert (j = i) as -> by (eapply (ok_uniq _ s Hs); [exact Hb'|exact Hb|done..|congruence]).
    rewrite Hb in Hb'. injection Hb' as <-. unfold modify, lockbuf, bind, gets, Sleep.acquiresleep.
    rewrite (getbuf_lookup _ _ _ (lookup_setbuf_eq _ _ _ Hi)). cbn [b_lock]. rewrite Hl. cbn. eauto.
  - apply list_find_None in E. rewrite Forall_forall in E. exfalso. apply (E i); [by apply (elem_of_lru pid)|].
    by rewrite (getbuf_lookup _ _ _ Hb).
Qed.

(** Beyond the disk, [iderw] panics. *)
Lemma bread_beyond s c : bio_ok pid s -> (forall i, held s !! i <> Some c) -> disksize s <= c -> ~ no_room s ->
  bread pid 1 c s = Panic "iderw: block out of range".
Proof.
  intros Hs Hh Hc Hroom.
  destruct (bget_run pid s c Hs Hh) as [(i & b & Hb & Hd & Hn & _)|[_ [(i & b & Hb & _ & _ & E)|[Hno _]]]]; [| |done].
  - pose proof (bo_range _ _ _ (ok_bufs _ s Hs i b Hb) Hd). lia.
  - unfold bread. rewrite (bind_Ret _ _ _ _ _ E). pose proof (lookup_lt_Some _ _ _ Hb) as Hi.
    set (b' := Buf _ _ _ _ _ _ _). assert (getbuf i (setbuf i b' s) = b') as Eb by by apply getbuf_lookup, lookup_setbuf_eq.
    rewrite gets_bind, Eb. cbn [b' b_valid negb when]. apply bind_Panic. unfold iderw.
    rewrite gets_bind, Eb. cbn [b' b_lock b_valid b_dirty b_dev b_blockno]. unfold Sleep.holdingsleep. cbn [Sleep.locked Sleep.pid].
    rewrite Z.eqb_refl. cbn [andb negb Z.eqb Pos.eqb]. rewrite gets_bind. cbn [disksize setbuf set_bufs].
    by rewrite (proj2 (Z.leb_le _ _) Hc).
Qed.
End cache.

(** ** The log *)

Section space.
Context (pid : Z) (sb : superblock) (geo : 0 <= sb_bmapstart sb /\ 0 <= sb_inodestart sb /\ sb_size sb < 2 ^ 31).
#[local] Hint Extern 0 (BlockLayer lstate) => exact (log_layer pid) : typeclass_instances.

(** The buffers held are [h]; the blocks of the transaction are among [lg], and
    only they are pinned in the cache. *)
Record space (s : lstate) (h : gmap nat Z) (lg : list Z) : Prop := {
  sp_bio : bio_ok pid (l_bio s);
  sp_held : held (l_bio s) = h;
  sp_nodup : NoDup (l_lh (l_log s));
  sp_in a : a ∈ l_lh (l_log s) -> a ∈ lg;
  sp_pinned a : pinned (l_bio s) a -> a ∈ l_lh (l_log s);
  sp_size : LOGSIZE <= l_size (l_log s)
}.

Lemma space_length s h lg : space s h lg -> (length (l_lh (l_log s)) <= length lg)%nat.
Proof. intros [_ _ Hn Hin _ _]. by apply submseteq_length, NoDup_submseteq. Qed.

Lemma space_more s h lg lg' : space s h lg -> (forall a, a ∈ lg -> a ∈ lg') -> space s h lg'.
Proof. intros [A1 A2 A3 A4 A5 A6] H. constructor; auto. Qed.

Lemma fits_bread s h lg c (Q : nat -> lstate -> Prop) :
  space s h lg -> 0 <= c -> Z.of_nat (length lg + size h) < NBUF ->
  (forall i s', h !! i = None -> space s' (<[i := c]> h) lg -> Q i s') -> fits (bl_bread 1 c) Q s.
Proof.
  intros Hs Hc Hroom HQ. pose proof Hs as [A1 A2 A3 A4 A5 A6]. pose proof (space_length _ _ _ Hs) as Hl.
  apply (fits_lift l_bio set_bio). assert (~ no_room (l_bio s)) as Hno.
  { apply (room pid _ (l_lh (l_log s))); [done|done|]. rewrite A2. unfold NBUF, MAXOPBLOCKS in *. lia. }
  destruct (decide (map_Exists (fun _ d => d = c) h)) as [(i & d & Hi & ->)|Hne].
  { rewrite <- A2 in Hi. destruct (bread_held pid _ _ _ A1 Hi) as (s' & E). unfold fits. by rewrite E. }
  assert (forall i, held (l_bio s) !! i <> Some c) as Hh.
  { intros i Hi. apply Hne. exists i, c. by rewrite <- A2. }
  destruct (decide (c < disksize (l_bio s))) as [Hlt|Hge].
  - eapply fits_wp; [by apply (bread_spec pid (l_bio s) c)|intros msg (_ & Hn & _); by destruct Hno|].
    intros i b' (B1 & B2 & B3 & _ & _ & _ & B7). rewrite A2 in B2, B3. apply HQ; [done|].
    constructor; cbn [set_bio l_bio l_log]; auto. intros a ?%B7. auto.
  - unfold fits. rewrite (bread_beyond pid) by (done || lia). not_res.
Qed.

Lemma fits_brelse s h lg i c (Q : unit -> lstate -> Prop) :
  space s h lg -> h !! i = Some c -> (forall s', space s' (delete i h) lg -> Q tt s') -> fits (bl_brelse i) Q s.
Proof.
  intros [A1 A2 A3 A4 A5 A6] Hi HQ. apply (fits_lift l_bio set_bio). rewrite <- A2 in Hi.
  eapply fits_nopanic; [by apply (brelse_spec pid _ i c)|].
  intros [] b' (B1 & B2 & _ & _ & _ & B5). apply HQ.
  constructor; cbn [set_bio l_bio l_log]; auto; [by rewrite B2, A2|]. intros a ?%B5. auto.
Qed.

Lemma fits_set s h lg i c d (Q : unit -> lstate -> Prop) :
  space s h lg -> h !! i = Some c -> block_ok d -> (forall s', space s' h lg -> Q tt s') -> fits (bl_set i d) Q s.
Proof.
  intros [A1 A2 A3 A4 A5 A6] Hi Hd HQ. apply (fits_lift l_bio set_bio). rewrite <- A2 in Hi.
  eapply fits_nopanic; [by apply (set_bdata_spec pid _ i c)|].
  intros [] b' (B1 & B2 & _ & _ & _ & _ & B5). apply HQ.
  constructor; cbn [set_bio l_bio l_log]; auto; [by rewrite B2, A2|]. intros a ?%B5. auto.
Qed.

Lemma space_data s h lg i c : space s h lg -> h !! i = Some c -> block_ok (bl_data i s).
Proof.
  intros [A1 A2 _ _ _ _] Hi. rewrite <- A2 in Hi. destruct (held_buf pid _ _ _ A1 Hi) as (b & Hb & Hr).
  cbn. unfold bdata. rewrite (getbuf_lookup _ _ _ Hb). apply Hr.
Qed.

Lemma fits_log_write s h lg i c (Q : unit -> lstate -> Prop) :
  space s h lg -> h !! i = Some c -> Z.of_nat (length lg) < LOGSIZE - 1 ->
  (forall s', space s' h (c :: lg) -> Q tt s') -> fits (bl_log_write i) Q s.
Proof.
  intros Hs Hi Hl HQ. pose proof (space_length _ _ _ Hs) as Hlen. destruct Hs as [A1 A2 A3 A4 A5 A6]. rewrite <- A2 in Hi.
  destruct s as [b l]. cbn [l_bio l_log] in *. cbn [bl_log_write log_layer].
  destruct (decide (1 <= l_outstanding l)) as [Ho|Ho].
  - eapply fits_nopanic; [apply (log_write_spec pid b l i c); [done|done|lia|lia|done]|].
    intros [] s' (b' & -> & B1 & B2 & _ & _ & _ & B6). apply HQ.
    constructor; cbn [set_lh set_log l_bio l_log l_lh l_size]; auto; [by rewrite B2| | |].
    + unfold add_lh. case_decide; [done|]. apply NoDup_app. split; [done|]. split; [|apply NoDup_singleton].
      intros a Ha ->%list_elem_of_singleton. done.
    + intros a [?| ->]%elem_of_add_lh; [right; auto|left].
    + intros a [?| ->]%B6; apply elem_of_add_lh; auto.
  - unfold fits, log_write. rewrite gets_bind. cbn [l_log]. rewrite (proj2 (orb_false_iff _ _)), (proj2 (Z.ltb_lt _ 1)) by lia. cbn. not_res.
Qed.

(** The same block again. *)
Lemma fits_log_again s h lg i c (Q : unit -> lstate -> Prop) :
  space s h lg -> h !! i = Some c -> c ∈ lg -> Z.of_nat (length lg) < LOGSIZE - 1 ->
  (forall s', space s' h lg -> Q tt s') -> fits (bl_log_write i) Q s.
Proof.
  intros Hs Hi Hc Hl HQ. eapply fits_log_write; [done|done|done|]. intros s' Hs'. apply HQ.
  eapply space_more; [done|]. intros a [->|?]%elem_of_cons; done.
Qed.

(** ** Allocation: a block of the free map and the block itself *)

Lemma fits_bzero s h lg c (Q : unit -> lstate -> Prop) :
  space s h lg -> 0 <= c -> Z.of_nat (length lg + size h) < LOGSIZE - 1 ->
  (forall s', space s' h (c :: lg) -> Q tt s') -> fits (bzero 1 c) Q s.
Proof.
  intros Hs Hc Hl HQ. change LOGSIZE with 30 in *. unfold bzero. fits_step. eapply fits_bread; [done|done|change NBUF with 30; lia|].
  intros i s1 Hi Hs1. fits_step. eapply fits_set; [done|by rewrite lookup_insert_eq|apply zero_block_ok|].
  intros s2 Hs2. fits_step. eapply fits_log_write; [done|by rewrite lookup_insert_eq|change LOGSIZE with 30; lia|].
  intros s3 Hs3. eapply fits_brelse; [done|by rewrite lookup_insert_eq|]. intros s4 Hs4.
  rewrite delete_insert_id in Hs4 by done. by apply HQ.
Qed.

Lemma fits_balloc s h lg (Q : Z -> lstate -> Prop) :
  space s h lg -> Z.of_nat (length lg + size h) < LOGSIZE - 2 ->
  (forall bm x s', 0 <= x < 2 ^ 32 -> space s' h (x :: bm :: lg) -> Q x s') -> fits (balloc sb 1) Q s.
Proof using geo.
  intros Hs Hl HQ. change LOGSIZE with 30 in *. unfold balloc. fits_step.
  apply (fits_scan _ _ (fun s => space s h lg)); [done| |intros s' _; fits_step].
  intros k s1 Hk Hs1. apply elem_of_seqZ in Hk. set (b := k * BPB). assert (0 <= b) as Hb by (unfold b; plia).
  fits_step. eapply fits_bread; [done| |change NBUF with 30; lia|].
  { unfold BBLOCK. assert (0 <= b / BPB) by by apply Z.div_pos. lia. }
  intros bp s2 Hbp Hs2. fits_step. unfold balloc_bits.
  eapply fits_post with (Q := fun r s' => match r with
    | Some x => exists bm, 0 <= x < 2 ^ 32 /\ space s' h (x :: bm :: lg)
    | None => space s' (<[bp := BBLOCK sb b]> h) lg end).
  - apply (fits_scan _ _ (fun s => space s (<[bp := BBLOCK sb b]> h) lg)); [done| |done].
    intros bi s3 Hbi Hs3. apply elem_of_seqZ in Hbi. fits_step. fits_step.
    pose proof (space_data _ _ _ bp _ Hs3 (lookup_insert_eq _ _ _)) as Hd. destruct (_ =? 0); [|by fits_step].
    fits_step. eapply fits_set; [done|by rewrite lookup_insert_eq|by apply setb_ok|]. intros s4 Hs4.
    fits_step. eapply fits_log_write; [done|by rewrite lookup_insert_eq|change LOGSIZE with 30; lia|]. intros s5 Hs5.
    fits_step. eapply fits_brelse; [done|by rewrite lookup_insert_eq|]. intros s6 Hs6. rewrite delete_insert_id in Hs6 by done.
    fits_step. eapply fits_bzero; [done|lia|cbn [length]; change LOGSIZE with 30; lia|]. intros s7 Hs7.
    fits_step. exists (BBLOCK sb b). split; [lia|done].
  - intros [x|] s' Hx.
    + destruct Hx as (bm & Hr & Hx). do 2 fits_step. by eapply HQ.
    + fits_step. eapply fits_brelse; [done|by rewrite lookup_insert_eq|]. intros s8 Hs8. rewrite delete_insert_id in Hs8 by done. by fits_step.
Qed.
(** ** The block map: at most three allocations *)

Context (ip : nat).

(** The inode of the file is in the table. *)
Definition inode_fit (x : inode) : Prop := i_dev x = 1 /\ 0 <= i_inum x /\ dinode_ok (i_d x).
Definition fspace (s : fstate lstate) (h : gmap nat Z) (lg : list Z) : Prop :=
  space (f_blk s) h lg /\ exists x, f_inodes s !! ip = Some x /\ inode_fit x.

Lemma fits_onblk {A} (m : M lstate A) (Q : A -> fstate lstate -> Prop) s :
  fits m (fun a b => Q a (FState b (f_inodes s))) (f_blk s) -> fits (onblk m) Q s.
Proof. apply (fits_lift f_blk (fun b s => FState b (f_inodes s))). Qed.

Lemma fspace_inode s h lg : fspace s h lg -> inode_fit (getinode ip s).
Proof. intros (_ & x & Hx & Hf). unfold getinode. by rewrite Hx. Qed.

Lemma fspace_blk s h lg b h' lg' : fspace s h lg -> space b h' lg' -> fspace (FState b (f_inodes s)) h' lg'.
Proof. intros [_ Hx] Hb. by split. Qed.

Lemma fspace_more s h lg lg' : fspace s h lg -> (forall a, a ∈ lg -> a ∈ lg') -> fspace s h lg'.
Proof. intros [Hs Hx] H. split; [by eapply space_more|done]. Qed.

Lemma fits_modinode f s h lg (Q : unit -> fstate lstate -> Prop) :
  fspace s h lg -> (inode_fit (getinode ip s) -> inode_fit (f (getinode ip s))) ->
  (forall s', fspace s' h lg -> Q tt s') -> fits (modinode ip f) Q s.
Proof.
  intros Hs Hf HQ. pose proof (fspace_inode _ _ _ Hs) as Hi. destruct Hs as [Hs (x & Hx & _)].
  unfold modinode, setinode. do 3 fits_step. apply HQ. split; [done|].
  eexists. split; [apply list_lookup_insert_eq; by eapply lookup_lt_Some|auto].
Qed.

Lemma set_addr_fit x i b : inode_fit x -> 0 <= b < 2 ^ 32 ->
  inode_fit (with_d x (with_addrs (i_d x) (<[Z.to_nat i := b]> (d_addrs (i_d x))))).
Proof.
  intros (A1 & A2 & [B1 B2 B3 B4 B5 B6 B7]) Hb. split; [done|]. split; [done|]. constructor; try done; cbn.
  - by rewrite length_insert.
  - by apply Forall_insert.
Qed.

Lemma fits_addr_or_alloc i s h lg (Q : Z -> fstate lstate -> Prop) :
  fspace s h lg -> Z.of_nat (length lg + size h) < LOGSIZE - 2 ->
  (forall bm r s', 0 <= r -> fspace s' h (r :: bm :: lg) -> Q r s') -> fits (addr_or_alloc sb ip i) Q s.
Proof using geo.
  intros Hs Hl HQ. unfold addr_or_alloc. do 2 fits_step. pose proof (fspace_inode _ _ _ Hs) as (Hdev & _ & Hdk).
  rewrite Hdev. destruct (addr _ i =? 0).
  - fits_step. apply fits_onblk. eapply fits_balloc; [apply Hs|done|]. intros bm x b' Hx Hb'.
    fits_step. eapply (fits_modinode _ _ h (x :: bm :: lg)); [by eapply fspace_blk| |].
    { intros Hf. by apply set_addr_fit. }
    intros s' Hs'. fits_step. eapply HQ; [lia|done].
  - fits_step. apply (HQ 0).
    + unfold addr. destruct (_ !! _) as [a|] eqn:E; [|done]. cbn. pose proof (dk_addrs _ Hdk) as Hf.
      rewrite Forall_lookup in Hf. apply Hf in E. lia.
    + eapply fspace_more; [done|]. intros a Ha. by do 2 right.
Qed.

(** [a], the block whose entry it is, has been counted. *)
Lemma fits_entry_or_alloc bp j a more s h lg (Q : Z -> fstate lstate -> Prop) :
  fspace s h lg -> h !! bp = Some a -> a ∈ lg -> 0 <= j < NINDIRECT -> Z.of_nat (length lg + size h) < LOGSIZE - 3 ->
  (forall s' lg', fspace s' h lg' -> (forall c, c ∈ lg -> c ∈ lg') -> Z.of_nat (length lg') < LOGSIZE - 1 ->
     fits more (fun _ s'' => fspace s'' h lg') s') ->
  (forall bm r s', 0 <= r -> fspace s' h (r :: bm :: lg) -> Q r s') -> fits (entry_or_alloc sb 1 bp j more) Q s.
Proof using geo.
  intros Hs Hbp Ha Hj Hl Hmore HQ. unfold entry_or_alloc. do 2 fits_step.
  pose proof (space_data _ _ _ _ _ (proj1 Hs) Hbp) as Hd. destruct (_ =? 0).
  - fits_step. apply fits_onblk. eapply fits_balloc; [apply Hs|lia|]. intros bm x b1 Hx Hb1.
    do 2 fits_step. cbn [f_blk]. pose proof (space_data _ _ _ _ _ Hb1 Hbp) as Hd1.
    fits_step. apply fits_onblk. eapply fits_set; [done|done|by apply set32_ok|]. intros b2 Hb2.
    fits_step. apply fits_onblk. cbn [f_blk f_inodes].
    assert (Z.of_nat (length (x :: bm :: lg)) < LOGSIZE - 1) as Hl' by (cbn [length]; lia).
    eapply fits_log_again; [done|done|by do 2 right|done|]. intros b3 Hb3.
    fits_step. eapply fits_post; [apply (Hmore _ (x :: bm :: lg)); [by eapply fspace_blk|intros c Hc; by do 2 right|done]|].
    intros [] s' Hs'. fits_step. eapply HQ; [lia|done].
  - fits_step. apply (HQ 0); [|eapply fspace_more; [done|]; intros c Hc; by do 2 right].
    destruct Hd as [Hlen Hby]. apply get32_range; [done|].
    rewrite Hlen. change NINDIRECT with 128 in Hj. change (Z.to_nat BSIZE) with 512%nat. lia.
Qed.

Lemma fits_bmap bn s lg (Q : Z -> fstate lstate -> Prop) :
  fspace s ∅ lg -> 0 <= bn -> Z.of_nat (length lg) < LOGSIZE - 9 ->
  (forall r s' lg', 0 <= r -> r ∈ lg' -> (length lg' <= length lg + 6)%nat -> fspace s' ∅ lg' -> Q r s') ->
  fits (bmap sb ip bn) Q s.
Proof using geo.
  intros Hs Hbn Hl HQ. change LOGSIZE with 30 in *. unfold bmap. do 2 fits_step. pose proof (fspace_inode _ _ _ Hs) as (Hdev & _).
  rewrite Hdev. destruct (bn <? NDIRECT) eqn:E1.
  { eapply fits_addr_or_alloc; [done|change LOGSIZE with 30; rewrite map_size_empty; lia|]. intros bm r s' Hr Hs'.
    eapply HQ; [done| | |done]; [left|cbn [length]; lia]. }
  apply Z.ltb_ge in E1. destruct (_ <? NINDIRECT) eqn:E2.
  - apply Z.ltb_lt in E2. fits_step. eapply fits_addr_or_alloc; [done|change LOGSIZE with 30; rewrite map_size_empty; lia|].
    intros bm1 a s1 Ha Hs1. fits_step. apply fits_onblk.
    eapply fits_bread; [apply Hs1|done|change NBUF with 30; cbn [length]; rewrite map_size_empty; lia|]. intros bp b2 _ Hb2.
    assert (size (<[bp := a]> ∅ : gmap nat Z) = 1%nat) as Hsz by by rewrite insert_empty, map_size_singleton.
    fits_step. eapply (fits_entry_or_alloc _ _ a); [by eapply fspace_blk|by rewrite lookup_insert_eq|left|lia| |by intros; fits_step|].
    { rewrite Hsz. cbn [length]. change LOGSIZE with 30. lia. }
    intros bm2 r s3 Hr Hs3. fits_step. apply fits_onblk. eapply fits_brelse; [apply Hs3|by rewrite lookup_insert_eq|].
    intros b4 Hb4. rewrite delete_insert_id in Hb4 by done. fits_step.
    eapply HQ; [done| | |by eapply fspace_blk]; [left|cbn [length]; lia].
  - apply Z.ltb_ge in E2. destruct (_ <? NDINDIRECT) eqn:E3; [apply Z.ltb_lt in E3|fits_step].
    set (n := bn - NDIRECT - NINDIRECT) in *. change NDINDIRECT with 16384 in E3. change NINDIRECT with 128 in *.
    fits_step. eapply fits_addr_or_alloc; [done|change LOGSIZE with 30; rewrite map_size_empty; lia|].
    intros bm1 a s1 Ha Hs1. fits_step. apply fits_onblk.
    eapply fits_bread; [apply Hs1|done|change NBUF with 30; cbn [length]; rewrite map_size_empty; lia|]. intros dbp b2 _ Hb2.
    assert (size (<[dbp := a]> ∅ : gmap nat Z) = 1%nat) as Hsz by by rewrite insert_empty, map_size_singleton.
    fits_step. eapply (fits_entry_or_alloc _ _ a); [by eapply fspace_blk|by rewrite lookup_insert_eq|left|change NINDIRECT with 128; lia| |by intros; fits_step|].
    { rewrite Hsz. cbn [length]. change LOGSIZE with 30. lia. }
    intros bm2 a2 s3 Ha2 Hs3. fits_step. apply fits_onblk.
    eapply fits_bread; [apply Hs3|done|change NBUF with 30; cbn [length]; rewrite Hsz; lia|]. intros bp b4 Hbp Hb4.
    assert (size (<[bp := a2]> (<[dbp := a]> ∅) : gmap nat Z) = 2%nat) as Hsz2 by by rewrite map_size_insert_None, Hsz.
    fits_step. eapply (fits_entry_or_alloc _ _ a2); [by eapply fspace_blk|by rewrite lookup_insert_eq|left|change NINDIRECT with 128; lia| | |].
    { rewrite Hsz2. cbn [length]. change LOGSIZE with 30. lia. }
    { intros s' lg' Hs' Hlg Hl'. apply fits_onblk. eapply (fits_log_again _ _ _ _ a); [apply Hs'| |apply Hlg; by do 2 right; left|done|].
      - rewrite lookup_insert_ne; [by rewrite lookup_insert_eq|]. intros ->. by rewrite lookup_insert_eq in Hbp.
      - intros b' Hb'. by eapply fspace_blk. }
    intros bm3 r s5 Hr Hs5. fits_step. apply fits_onblk. eapply fits_brelse; [apply Hs5|by rewrite lookup_insert_eq|].
    intros b6 Hb6. rewrite delete_insert_id in Hb6 by done. fits_step. apply fits_onblk.
    eapply fits_brelse; [exact Hb6|by rewrite lookup_insert_eq|]. intros b7 Hb7. rewrite delete_insert_id in Hb7 by done. fits_step.
    eapply HQ; [done| | |]; [| |eapply fspace_blk; [|exact Hb7]; by eapply fspace_blk]; [left|cbn [length]; lia].
Qed.
(** ** [writei]: six blocks for each block written, and the inode *)

Lemma fits_writei_loop fuel : forall src off tot n k s lg,
  fspace s ∅ lg -> 0 <= off -> bytes src -> 0 <= k -> (0 < n - tot -> off mod BSIZE + (n - tot) <= BSIZE * k) ->
  Z.of_nat (length lg) + 6 * k < LOGSIZE - 3 ->
  fits (writei_loop sb fuel ip src off tot n) (fun _ s' => exists lg', fspace s' ∅ lg' /\
    Z.of_nat (length lg') <= Z.of_nat (length lg) + 6 * k) s.
Proof using geo.
  induction fuel as [|fuel IH]; intros src off tot n k s lg Hs Ho Hby Hk Hn Hl; cbn [writei_loop].
  { fits_step. exists lg. split; [done|lia]. }
  destruct (tot <? n) eqn:Et; [apply Z.ltb_lt in Et|fits_step; exists lg; split; [done|lia]].
  specialize (Hn ltac:(lia)). pose proof (Z.mod_pos_bound off BSIZE ltac:(done)) as Hmod.
  assert (1 <= k) as Hk1 by (unfold BSIZE in *; lia). change LOGSIZE with 30 in *.
  do 2 fits_step. pose proof (fspace_inode _ _ _ Hs) as (-> & _). fits_step.
  eapply fits_bmap; [done|by apply Z.div_pos|change LOGSIZE with 30; lia|]. intros r s1 lg1 Hr Hin Hl1 Hs1.
  fits_step. apply fits_onblk. eapply fits_bread; [apply Hs1|done|change NBUF with 30; rewrite map_size_empty; lia|]. intros bp b2 _ Hb2.
  set (m := Z.min _ _). assert (0 < m <= n - tot /\ off mod BSIZE + m <= BSIZE) as (Hm1 & Hm2) by (unfold m; lia).
  do 2 fits_step. cbn [f_blk]. pose proof (space_data _ _ _ _ _ Hb2 (lookup_insert_eq _ _ _)) as Hd.
  fits_step. apply fits_onblk. eapply fits_set; [done|by rewrite lookup_insert_eq| |].
  { apply splice_block_ok; [done|by apply Forall_take|lia|]. rewrite length_take. lia. }
  intros b3 Hb3. fits_step. apply fits_onblk. cbn [f_blk f_inodes].
  eapply fits_log_again; [done|by rewrite lookup_insert_eq|done|change LOGSIZE with 30; lia|]. intros b4 Hb4.
  fits_step. apply fits_onblk. cbn [f_blk f_inodes].
  eapply fits_brelse; [done|by rewrite lookup_insert_eq|]. intros b5 Hb5. rewrite delete_insert_id in Hb5 by done.
  eapply fits_post; [apply (IH _ _ _ _ (k - 1) _ lg1); [by eapply fspace_blk|lia|by apply Forall_drop|lia| |change LOGSIZE with 30; lia]|].
  - intros Hrest. assert (m = BSIZE - off mod BSIZE) as -> by (unfold m in *; lia).
    replace ((off + (BSIZE - off mod BSIZE)) mod BSIZE) with 0 by (unfold BSIZE; lia). lia.
  - intros [] s' (lg' & Hs' & Hl'). exists lg'. split; [done|lia].
Qed.

Lemma fits_iupdate s lg : fspace s ∅ lg -> Z.of_nat (length lg) < LOGSIZE - 1 -> fits (iupdate sb ip) (fun _ _ => True) s.
Proof using geo.
  intros Hs Hl. change LOGSIZE with 30 in *. unfold iupdate. do 2 fits_step. pose proof (fspace_inode _ _ _ Hs) as (-> & Hi & Hdk).
  fits_step. apply fits_onblk. eapply fits_bread; [apply Hs| |change NBUF with 30; rewrite map_size_empty; lia|].
  { unfold IBLOCK. assert (0 <= i_inum (getinode ip s) / IPB) by by apply Z.div_pos. lia. }
  intros bp b1 _ Hb1. do 2 fits_step. cbn [f_blk]. pose proof (space_data _ _ _ _ _ Hb1 (lookup_insert_eq _ _ _)) as Hd.
  fits_step. apply fits_onblk. eapply fits_set; [done|by rewrite lookup_insert_eq| |].
  { apply put_dinode_ok; [done|plia|done]. }
  intros b2 Hb2. fits_step. apply fits_onblk. cbn [f_blk f_inodes].
  eapply fits_log_write; [done|by rewrite lookup_insert_eq|change LOGSIZE with 30; lia|]. intros b3 Hb3.
  apply fits_onblk. eapply fits_brelse; [done|by rewrite lookup_insert_eq|done].
Qed.

(** At most four blocks. *)
Lemma fits_writei devw src off n s :
  fspace s ∅ [] -> d_type (i_d (getinode ip s)) <> T_DEV -> 0 <= off < 2 ^ 32 -> 0 <= n < 2 ^ 32 -> bytes src ->
  off mod BSIZE + n <= BSIZE * 4 -> fits (writei sb devw ip src off n) (fun _ _ => True) s.
Proof using geo.
  intros Hs Hty Ho Hn Hby Hb. unfold writei. do 2 fits_step. rewrite (proj2 (Z.eqb_neq _ _) Hty).
  destruct (_ || _) eqn:E1; [by fits_step|]. destruct (_ <? u32 _) eqn:E2; [by fits_step|]. fits_step.
  apply orb_false_iff in E1 as [_ E1]. apply Z.ltb_ge in E1, E2.
  assert (off + n < 2 ^ 32) as Hof by (unfold u32 in E1; lia). rewrite u32_small in E2 by lia.
  eapply fits_post; [apply (fits_writei_loop _ _ _ _ _ 4 _ []); [done|lia|done|lia|lia|done]|].
  intros [] s1 (lg & Hs1 & Hl). cbn [length] in Hl. do 3 fits_step. apply fits_when; intros _; [|by fits_step].
  fits_step. eapply fits_modinode; [exact Hs1| |].
  { intros (A1 & A2 & [B1 B2 B3 B4 B5 B6 B7]). split; [done|]. split; [done|]. constructor; try done. cbn. lia. }
  intros s2 Hs2. eapply fits_post; [apply (fits_iupdate s2 lg); [done|change LOGSIZE with 30; lia]|]. intros [] s3 _. by fits_step.
Qed.

(** Locking an inode that has been read reads nothing. *)
Lemma fits_ilock s lg : fspace s ∅ lg -> i_valid (getinode ip s) = true ->
  fits (ilock pid sb ip) (fun _ s' => fspace s' ∅ lg) s.
Proof.
  intros Hs Hv. destruct Hs as [Hb (x & Hx & Hf)].
  assert (getinode ip s = x) as Ex by (unfold getinode; by rewrite Hx).
  rewrite Ex in Hv. pose proof (lookup_lt_Some _ _ _ Hx) as Hlt.
  unfold ilock, lockinode, setinode. do 2 fits_step. rewrite Ex. destruct (_ <? 1); [fits_step|]. do 3 fits_step.
  rewrite Ex. unfold Sleep.acquiresleep. destruct (Sleep.locked _); [done|]. fits_step. do 2 fits_step.
  rewrite (getinode_lookup ip (with_lock x (Sleep.Sleeplock true pid))) by by apply list_lookup_insert_eq.
  cbn [with_lock i_valid]. rewrite Hv. cbn [negb when]. fits_step. split; [done|].
  eexists. split; [by apply list_lookup_insert_eq|done].
Qed.
End space.
