(* ===== verification/Itrunc.v ===== *)
(** * Truncation ([kernel/fs.c]: [itrunc], [iput])

    [itrunc] frees every block of a file's tree and nothing else. *)

From S2P Require Import Prelude Params Locks Bio Log Crash Block Balloc Inode Bmap Content.
Local Open Scope Z_scope.
Local Open Scope kmonad_scope.

(** The first [k] addresses cleared. *)
Definition zeros (k : nat) (ads : list Z) : list Z := replicate k 0 ++ drop k ads.

Lemma zeros_set k ads : (k < length ads)%nat -> <[k := 0]> (zeros k ads) = zeros (S k) ads.
Proof.
  intros Hk. unfold zeros. rewrite insert_app_r_alt by (rewrite length_replicate; lia).
  rewrite length_replicate, Nat.sub_diag, replicate_S_end, <- app_assoc. f_equal.
  destruct (lookup_lt_is_Some_2 ads k Hk) as [a Ha]. by rewrite (drop_S ads a k Ha).
Qed.

Lemma zeros_skip k ads : ads !! k = Some 0 -> zeros k ads = zeros (S k) ads.
Proof.
  intros Hk. unfold zeros. by rewrite (drop_S ads 0 k Hk), replicate_S_end, <- app_assoc.
Qed.

Lemma lookup_zeros k ads i : (k <= i)%nat -> zeros k ads !! i = ads !! i.
Proof.
  intros Hi. unfold zeros. rewrite lookup_app_r by (rewrite length_replicate; lia).
  rewrite length_replicate, lookup_drop. f_equal. lia.
Qed.

Lemma zeros_0 ads : zeros 0 ads = ads.
Proof. unfold zeros. by rewrite drop_0. Qed.

Section specs.
Context {BS : Type} `{!BlockLayer BS} `{!BlockLaws BS}.
Context (sb : superblock) (geo : fsgeo sb).
Context (EP : string -> Prop) (HE : forall msg, res_panic msg -> EP msg).
Abbreviation St := (fstate BS).

(** The blocks in [P] have been freed between [v] and [v']; the other blocks
    outside the free map have kept their contents, but for those in [X]. *)
Record freed (X P : Z -> Prop) (v v' : Z -> list Z) : Prop := {
  fr_frame a : ~ is_bmap sb a -> ~ X a -> v' a = v a;
  fr_used c : 0 <= c < sb_size sb -> used sb v' c = true <-> used sb v c = true /\ ~ P c
}.

Lemma freed_nil X v : freed X (fun _ => False) v v.
Proof. constructor; [done|]. intros c Hc. tauto. Qed.

Lemma freed_weaken (X X' P P' : Z -> Prop) v v' :
  freed X P v v' -> (forall a, X a -> X' a) -> (forall a, P a <-> P' a) -> freed X' P' v v'.
Proof.
  intros [A1 A2] HX HP. constructor.
  - intros a Ha Hx. apply A1; [done|]. intros ?. by apply Hx, HX.
  - intros c Hc. by rewrite A2, HP.
Qed.

Lemma freed_one (X P : Z -> Prop) v v1 v2 c :
  freed X P v v1 -> bit_changed sb v1 v2 c false -> freed X (fun a => P a \/ a = c) v v2.
Proof.
  intros [A1 A2] [B1 B2]. constructor.
  - intros a Ha Hx. rewrite B1 by done. by apply A1.
  - intros a Ha. rewrite B2 by done. case_decide as E; [|rewrite A2 by done]; naive_solver.
Qed.

Lemma freed_vset (X P : Z -> Prop) v0 v a d :
  freed X P v0 v -> X a -> ~ is_bmap sb a -> freed X P v0 (vset v a d).
Proof.
  intros [A1 A2] HX Ha. constructor.
  - intros c Hc Hnx. unfold vset. rewrite decide_False by (by intros ->). by apply A1.
  - intros c Hc. rewrite <- A2 by done. rewrite (used_same sb v); [done| |done].
    intros a' Ha'. unfold vset. by rewrite decide_False by (by intros ->).
Qed.

(** [bfree] of a block that is in use and has not been freed yet. *)
Lemma bfree_freed (X P : Z -> Prop) b v h sf dt v0 ics c (Q : unit -> St -> Prop) :
  bst b v h sf dt -> data_only sb h sf -> freed X P v0 v ->
  is_data sb c -> used sb v0 c = true -> ~ P c ->
  (forall b' v', bst b' v' h sf dt -> freed X (fun a => P a \/ a = c) v0 v' ->
     (forall a, ~ is_bmap sb a -> v' a = v a) -> Q tt (FState b' ics)) ->
  wp EP (onblk (bfree sb 1 c)) Q (FState b ics).
Proof using geo HE.
  intros Hb [Hsf Hh] Hfr Hd Hu Hp HQ. pose proof (data_range sb (fg_tree sb geo) c Hd) as Hr.
  apply wp_onblk. eapply (bfree_spec sb geo EP HE); [done|done|done|lia| |].
  - apply (fr_used _ _ _ _ Hfr); [lia|done].
  - intros b' v' Hb' Hbit. eapply HQ; [done|by eapply freed_one|apply Hbit].
Qed.

(** The loop over the addresses in a block. *)
Lemma bfree_entries_spec (X P : Z -> Prop) b v h sf dt v0 ics bp a (Q : unit -> St -> Prop) :
  bst b v h sf dt -> data_only sb h sf -> freed X P v0 v ->
  h !! bp = Some a -> is_data sb a -> a ∉ sf ->
  let e j := get32 (v a) j in
  (forall j, (j < 128)%nat -> e j <> 0 -> is_data sb (e j) /\ used sb v0 (e j) = true /\ ~ P (e j)) ->
  (forall i j, (i < 128)%nat -> (j < 128)%nat -> e i <> 0 -> e i = e j -> i = j) ->
  (forall b' v', bst b' v' h sf dt ->
     freed X (fun c => P c \/ exists j, (j < 128)%nat /\ e j <> 0 /\ c = e j) v0 v' ->
     (forall a', ~ is_bmap sb a' -> v' a' = v a') -> Q tt (FState b' ics)) ->
  wp EP (bfree_entries sb 1 bp) Q (FState b ics).
Proof using geo HE.
  intros Hb Hdo Hfr Hbp Hda Hasf e He Hinj HQ. unfold bfree_entries.
  set (I n (s' : St) := exists b' v', s' = FState b' ics /\ bst b' v' h sf dt /\
    freed X (fun c => P c \/ exists j, (j < n)%nat /\ e j <> 0 /\ c = e j) v0 v' /\
    (forall a', ~ is_bmap sb a' -> v' a' = v a')).
  assert (~ is_bmap sb a) as Hnb by by apply data_not_bmap.
  apply (wp_each _ _ _ _ I).
  - exists b, v. split; [done|]. split; [done|]. split; [|done].
    eapply freed_weaken; [done|done|]. intros c. split; [by left|]. intros [?|(j & Hj & _)]; [done|lia].
  - intros n j s' Hj (b' & v' & -> & Hb' & Hfr' & Hk). apply lookup_seq in Hj as [-> Hn]. cbn [Nat.add].
    change (Z.to_nat NINDIRECT) with 128%nat in Hn.
    do 2 wp_step. cbn [f_blk]. rewrite (wp_data _ _ _ _ _ _ _ Hb' Hbp), Hk by done. fold (e n).
    apply wp_when; intros E.
    + apply negb_true_iff, Z.eqb_neq in E. destruct (He n Hn E) as (Hd & Hu & Hp).
      eapply bfree_freed; [done|done|done|done|done| |].
      { intros [?|(j & Hj & Hne & Ej)]; [done|]. rewrite (Hinj n j) in Hj by (done || lia). lia. }
      intros b2 v2 Hb2 Hfr2 Hk2. exists b2, v2. split; [done|]. split; [done|]. split.
      * eapply freed_weaken; [done|done|]. intros c. split.
        -- intros [[?|(j & Hj & ?)]| ->]; [by left|right; exists j; split; [lia|done]|right; exists n; split; [lia|done]].
        -- intros [?|(j & Hj & Hne & ->)]; [by left; left|]. destruct (decide (j = n)) as [->|]; [by right|].
           left. right. exists j. split; [lia|done].
      * intros a' Ha'. by rewrite Hk2, Hk.
    + apply negb_false_iff, Z.eqb_eq in E. exists b', v'. split; [done|]. split; [done|]. split; [|done].
      eapply freed_weaken; [done|done|]. intros c. split.
      * intros [?|(j & Hj & ?)]; [by left|right; exists j; split; [lia|done]].
      * intros [?|(j & Hj & Hne & ->)]; [by left|]. destruct (decide (j = n)) as [->|]; [done|].
        right. exists j. split; [lia|done].
  - intros s' (b' & v' & -> & Hb' & Hfr' & Hk). rewrite length_seq in Hfr'. by eapply HQ.
Qed.

(** ** The tree, freed place by place *)

Section tree.
Context (v0 : Z -> list Z) (ads0 : list Z) (sf : gset Z) (T : tree_ok sb v0 ads0 sf).
Abbreviation adr := (saddr v0 ads0).

(** The addresses at the places in [F] have been freed. *)
Definition freed_at (X : Z -> Prop) (F : slot -> Prop) (v : Z -> list Z) : Prop :=
  freed X (fun c => exists s, F s /\ slot_ok s /\ adr s <> 0 /\ c = adr s) v0 v.

Lemma freed_at_ext X (F F' : slot -> Prop) v :
  freed_at X F v -> (forall s, slot_ok s -> adr s <> 0 -> F s <-> F' s) -> freed_at X F' v.
Proof using Type.
  intros H HF. eapply freed_weaken; [exact H|done|]. intros c.
  split; intros (s & Hs & Hok & Hne & E); exists s; (split; [by apply HF|done]).
Qed.

Lemma free_slot X F b v h sf' dt ics s (Q : unit -> St -> Prop) :
  bst b v h sf' dt -> data_only sb h sf' -> freed_at X F v -> slot_ok s -> adr s <> 0 -> ~ F s ->
  (forall b' v', bst b' v' h sf' dt -> freed_at X (fun t => F t \/ t = s) v' ->
     (forall a, ~ is_bmap sb a -> v' a = v a) -> Q tt (FState b' ics)) ->
  wp EP (onblk (bfree sb 1 (adr s))) Q (FState b ics).
Proof using geo HE T.
  intros Hb Hdo Hfr Hok Hne HF HQ. destruct (tr_data _ _ _ _ T s Hok Hne) as (Hd & Hu & _).
  eapply bfree_freed; [done|done|exact Hfr|done|done| |].
  { intros (t & Ht & Htk & Htn & E). rewrite (tr_inj _ _ _ _ T s t) in HF by done. done. }
  intros b' v' Hb' Hfr' Hk. eapply HQ; [done| |done]. eapply freed_weaken; [exact Hfr'|done|].
  intros c. split.
  - intros [(t & ? & ?)| ->]; [exists t|exists s]; tauto.
  - intros (t & [Ht| ->] & ?); [left; exists t; tauto|right; tauto].
Qed.

Lemma free_children X F b v h sf' dt ics bp p (Q : unit -> St -> Prop) :
  bst b v h sf' dt -> data_only sb h sf' -> freed_at X F v -> interior p -> adr p <> 0 ->
  h !! bp = Some (adr p) -> adr p ∉ sf' -> v (adr p) = v0 (adr p) ->
  (forall j, 0 <= j < 128 -> slot_ok (Ent p j) /\ ~ F (Ent p j)) ->
  (forall b' v', bst b' v' h sf' dt -> freed_at X (fun t => F t \/ exists j, 0 <= j < 128 /\ t = Ent p j) v' ->
     (forall a, ~ is_bmap sb a -> v' a = v a) -> Q tt (FState b' ics)) ->
  wp EP (bfree_entries sb 1 bp) Q (FState b ics).
Proof using geo HE T.
  intros Hb Hdo Hfr Hp Hne Hbp Hsf Hv HF HQ.
  assert (forall j, get32 (v (adr p)) j = adr (Ent p (Z.of_nat j))) as He.
  { intros j. cbn [saddr]. by rewrite (proj2 (Z.eqb_neq _ _) Hne), Hv, Nat2Z.id. }
  destruct (tr_data _ _ _ _ T p (interior_ok _ Hp) Hne) as (Hd & _).
  eapply bfree_entries_spec; [done|done|exact Hfr|done|done|done|..].
  - intros j Hj. rewrite He. intros Hnj. destruct (HF (Z.of_nat j) ltac:(lia)) as [Hok HnF].
    destruct (tr_data _ _ _ _ T _ Hok Hnj) as (? & ? & _). split; [done|]. split; [done|].
    intros (t & Ht & Htk & Htn & E). by rewrite (tr_inj _ _ _ _ T _ t Hok Htk Hnj E) in HnF.
  - intros i j Hi Hj. rewrite !He. intros Hni E.
    destruct (HF (Z.of_nat i) ltac:(lia)) as [Hoki _]. destruct (HF (Z.of_nat j) ltac:(lia)) as [Hokj _].
    pose proof (tr_inj _ _ _ _ T _ _ Hoki Hokj Hni E) as [= ?]. lia.
  - intros b' v' Hb' Hfr' Hk. eapply HQ; [done| |done]. eapply freed_weaken; [exact Hfr'|done|].
    intros c. split.
    + intros [(t & ? & ?)|(j & Hj & Hnj & ->)]; [exists t; tauto|]. rewrite He in Hnj |- *.
      exists (Ent p (Z.of_nat j)). split; [right; exists (Z.of_nat j); split; [lia|done]|].
      by destruct (HF (Z.of_nat j) ltac:(lia)).
    + intros (t & [Ht|(j & Hj & ->)] & Hok & Hnt & ->); [left; exists t; tauto|right].
      exists (Z.to_nat j). rewrite He, Z2Nat.id by lia. split; [lia|done].
Qed.

Context (ip : nat) (x : inode) (ics : list inode).
Context (Hip : ics !! ip = Some x) (Hdev : i_dev x = 1) (Hads : d_addrs (i_d x) = ads0).

(** The table while the addresses are being cleared. *)
Definition cleared (k : nat) : list inode := <[ip := with_d x (with_addrs (i_d x) (zeros k ads0))]> ics.

Lemma lookup_cleared k : cleared k !! ip = Some (with_d x (with_addrs (i_d x) (zeros k ads0))).
Proof using Hip. apply list_lookup_insert_eq. by eapply lookup_lt_Some. Qed.

Lemma cleared_0 : cleared 0 = ics.
Proof using Hip Hads.
  unfold cleared. rewrite zeros_0, <- Hads, with_addrs_id. by apply list_insert_id.
Qed.

Lemma addr_cleared k (i : Z) b :
  (k <= Z.to_nat i)%nat -> addr (getinode ip (FState (S := BS) b (cleared k))) i = adr (Root i).
Proof using Hip.
  intros Hi. rewrite (getinode_lookup _ _ _ _ (lookup_cleared k)). unfold addr. cbn. by rewrite lookup_zeros.
Qed.

Lemma wp_clear k b (Q : unit -> St -> Prop) :
  (k < 13)%nat -> Q tt (FState b (cleared (S k))) ->
  wp EP (set_addr ip (Z.of_nat k) 0) Q (FState b (cleared k)).
Proof using Hip T.
  intros Hk HQ. unfold set_addr. eapply wp_modinode; [apply lookup_cleared|].
  unfold cleared at 1. rewrite list_insert_insert_eq. cbn [with_d i_d with_addrs d_addrs].
  rewrite Nat2Z.id, zeros_set by (rewrite (tr_len _ _ _ _ T); lia). exact HQ.
Qed.

Lemma cleared_skip k : (k < 13)%nat -> adr (Root (Z.of_nat k)) = 0 -> cleared k = cleared (S k).
Proof using T.
  intros Hk H0. unfold cleared. rewrite zeros_skip; [done|]. cbn in H0. rewrite Nat2Z.id in H0.
  destruct (lookup_lt_is_Some_2 ads0 k) as [a Ha]; [rewrite (tr_len _ _ _ _ T); lia|]. rewrite Ha in H0 |- *.
  cbn in H0. by rewrite H0.
Qed.

Definition no_X (a : Z) : Prop := False.

(** The direct places; with those of the indirect block. *)
Definition F1 (s : slot) : Prop := exists i, 0 <= i < 11 /\ s = Root i.
Definition F2 (s : slot) : Prop := F1 s \/ s = Root NDIRECT \/ exists j, 0 <= j < 128 /\ s = Ent (Root NDIRECT) j.

(** The direct addresses. *)
Lemma itrunc_direct b (Q : unit -> St -> Prop) :
  bst b v0 ∅ sf ∅ -> data_only sb ∅ sf ->
  (forall b' v', bst b' v' ∅ sf ∅ -> freed_at no_X F1 v' ->
     Q tt (FState b' (cleared 11))) ->
  wp EP (each (fun i => y <- gets (getinode ip);;
           when (negb (addr y i =? 0)) (onblk (bfree sb (i_dev y) (addr y i));; set_addr ip i 0))
         (seqZ 0 NDIRECT)) Q (FState b ics).
Proof using geo HE T Hip Hdev Hads.
  intros Hb Hdo HQ. rewrite <- cleared_0.
  set (I n (s' : St) := exists b' v', s' = FState b' (cleared n) /\ bst b' v' ∅ sf ∅ /\
    freed_at no_X (fun s => exists i, 0 <= i < Z.of_nat n /\ s = Root i) v').
  apply (wp_each _ _ _ _ I).
  - exists b, v0. split; [done|]. split; [done|]. eapply freed_weaken; [apply freed_nil|done|].
    intros c. split; [done|]. intros (s & (i & Hi & _) & _). lia.
  - intros n i s' Hi (b' & v' & -> & Hb' & Hfr). apply lookup_seqZ in Hi as [-> Hn]. rewrite Z.add_0_l.
    unfold NDIRECT in Hn. do 2 wp_step. rewrite addr_cleared by lia.
    rewrite (getinode_lookup _ _ _ _ (lookup_cleared n)). cbn [with_d i_dev]. rewrite Hdev.
    assert (slot_ok (Root (Z.of_nat n))) as Hok by (right; constructor; unfold NDIRECT; lia).
    apply wp_when; intros E.
    + apply negb_true_iff, Z.eqb_neq in E. wp_step. eapply free_slot; [done|done|exact Hfr|done|done| |].
      { intros (i & Hi & [= E']). lia. }
      intros b2 v2 Hb2 Hfr2 _. apply wp_clear; [lia|]. exists b2, v2. split; [done|]. split; [done|].
      eapply freed_at_ext; [exact Hfr2|]. intros s _ _. split.
      * intros [(i & Hi & ->)| ->]; [exists i|exists (Z.of_nat n)]; (split; [lia|done]).
      * intros (i & Hi & ->). destruct (decide (i = Z.of_nat n)) as [->|]; [by right|]. left. exists i. split; [lia|done].
    + apply negb_false_iff, Z.eqb_eq in E. exists b', v'. split; [by rewrite cleared_skip by (done || lia)|].
      split; [done|]. eapply freed_at_ext; [exact Hfr|]. intros s _ Hne. split.
      * intros (i & Hi & ->). exists i. split; [lia|done].
      * intros (i & Hi & ->). destruct (decide (i = Z.of_nat n)) as [->|]; [done|]. exists i. split; [lia|done].
  - intros s' (b' & v' & -> & Hb' & Hfr). rewrite length_seqZ in Hfr |- *. by eapply HQ.
Qed.


(** A block of the tree that is still there. *)
Lemma tree_block s : slot_ok s -> adr s <> 0 ->
  is_data sb (adr s) /\ adr s ∉ sf /\ ~ is_bmap sb (adr s) /\ bl_range (adr s).
Proof using T geo.
  intros Hs Hne. destruct (tr_data _ _ _ _ T s Hs Hne) as (Hd & _ & Hn). split; [done|]. split; [done|].
  split; [by apply data_not_bmap|]. by apply bl_home_range, (data_home sb geo).
Qed.

Lemma data_only_insert h i c : data_only sb h sf -> is_data sb c -> data_only sb (<[i := c]> h) sf.
Proof.
  intros [H1 H2] Hc. split; [done|]. intros j d. rewrite lookup_insert_Some. intros [[_ <-]|[_ ?]]; [done|by eapply H2].
Qed.

(** The block of addresses. *)
Lemma itrunc_indirect b v (Q : unit -> St -> Prop) :
  bst b v ∅ sf ∅ -> data_only sb ∅ sf -> freed_at no_X F1 v ->
  (forall b' v', bst b' v' ∅ sf ∅ -> freed_at no_X F2 v' -> Q tt (FState b' (cleared 12))) ->
  wp EP (y <- gets (getinode ip);;
         when (negb (addr y NDIRECT =? 0)) (
           bp <- onblk (bl_bread (i_dev y) (addr y NDIRECT));;
           bfree_entries sb (i_dev y) bp;;
           onblk (bl_brelse bp);;
           onblk (bfree sb (i_dev y) (addr y NDIRECT));;
           set_addr ip NDIRECT 0)) Q (FState b (cleared 11)).
Proof using geo HE T Hip Hdev Hads.
  intros Hb Hdo Hfr HQ. set (R := Root NDIRECT). assert (interior R) as HR by constructor.
  do 2 wp_step. rewrite addr_cleared by (unfold NDIRECT; lia). fold R.
  rewrite (getinode_lookup _ _ _ _ (lookup_cleared 11)). cbn [with_d i_dev]. rewrite Hdev.
  assert (~ F1 R /\ forall j, ~ F1 (Ent R j)) as [HnR HnE].
  { split; [intros (i & Hi & [= E]); unfold NDIRECT in E; lia|]. by intros j (i & _ & ?). }
  apply wp_when; intros E.
  - apply negb_true_iff, Z.eqb_neq in E. destruct (tree_block R (interior_ok _ HR) E) as (Hd & Hn & Hnb & Hrg).
    wp_step. apply wp_onblk. eapply (wp_bread _ HE); [done|done|done|]. intros bp b1 Hbp Hb1.
    wp_step. eapply (free_children _ F1 _ _ _ _ _ _ _ R);
      [done|by apply data_only_insert|done|done|done|by rewrite lookup_insert_eq|done| | |].
    { apply (fr_frame _ _ _ _ Hfr); [done|by intros []]. }
    { intros j Hj. split; [right; by constructor|done]. }
    intros b2 v2 Hb2 Hfr2 _. wp_step. apply wp_onblk.
    eapply wp_brelse; [done|by rewrite lookup_insert_eq|done|]. intros b3 Hb3. rewrite delete_insert_id in Hb3 by done.
    wp_step. eapply free_slot; [done|done|exact Hfr2|by left|done| |].
    { intros [?|(j & _ & ?)]; done. }
    intros b4 v4 Hb4 Hfr4 _. apply (wp_clear 11); [lia|]. eapply HQ; [done|].
    eapply freed_at_ext; [exact Hfr4|]. intros s _ _. unfold F2. fold R. tauto.
  - apply negb_false_iff, Z.eqb_eq in E. rewrite (cleared_skip 11) by (done || lia). eapply HQ; [done|].
    eapply freed_at_ext; [exact Hfr|]. intros s _ Hne. split; [by left|].
    intros [?|[->|(j & _ & ->)]]; [done|done|].
    apply (saddr_above _ _ R) in Hne; [done|by left].
Qed.

(** *** The block of blocks of addresses *)

Abbreviation R2 := (Root (NDIRECT + 1)).
Definition is_R2 (a : Z) : Prop := a = adr R2.

Definition F3 (n : nat) (s : slot) : Prop :=
  F2 s \/ exists k, 0 <= k < Z.of_nat n /\ (s = Ent R2 k \/ exists j, 0 <= j < 128 /\ s = Ent (Ent R2 k) j).

(** The state of the loop after [n] entries. *)
Definition dloop (dbp : nat) (n : nat) (s' : St) : Prop :=
  exists b' v', s' = FState b' (cleared 12) /\ bst b' v' {[dbp := adr R2]} sf {[adr R2]} /\
    freed_at is_R2 (F3 n) v' /\
    forall j, (j < 128)%nat -> get32 (v' (adr R2)) j = if decide (j < n)%nat then 0 else get32 (v0 (adr R2)) j.

Lemma F3_not n k : Z.of_nat n <= k -> ~ F3 n (Ent R2 k) /\ forall j, ~ F3 n (Ent (Ent R2 k) j).
Proof.
  intros Hk. unfold F3, F2, F1. split.
  - intros [[(i & _ & ?)|[?|(j & _ & [= E])]]|(k' & Hk' & [[= ->]|(j & _ & ?)])]; (done || unfold NDIRECT in *; lia).
  - intros j [[(i & _ & ?)|[?|(j' & _ & ?)]]|(k' & Hk' & [?|(j' & _ & [= -> _])])]; (done || lia).
Qed.

Lemma F3_S n s :
  F3 (S n) s <-> (F3 n s \/ exists j, 0 <= j < 128 /\ s = Ent (Ent R2 (Z.of_nat n)) j) \/ s = Ent R2 (Z.of_nat n).
Proof.
  unfold F3. split.
  - intros [?|(k & Hk & Hs)]; [tauto|]. destruct (decide (k = Z.of_nat n)) as [->|]; [tauto|].
    left. left. right. exists k. split; [lia|done].
  - intros [[[?|(k & Hk & Hs)]|?]|?]; [tauto|right; exists k; split; [lia|done]|..];
      right; exists (Z.of_nat n); (split; [lia|tauto]).
Qed.

(** One indirect block. *)
Lemma itrunc_dentry dbp n s' :
  adr R2 <> 0 -> data_only sb ∅ sf -> (n < 128)%nat -> dloop dbp n s' ->
  wp EP (d <- gets (fun s => bl_data dbp (f_blk s));;
         when (negb (get32 d n =? 0)) (
           bp <- onblk (bl_bread 1 (get32 d n));;
           bfree_entries sb 1 bp;;
           onblk (bl_brelse bp);;
           onblk (bfree sb 1 (get32 d n));;
           d <- gets (fun s => bl_data dbp (f_blk s));;
           onblk (bl_set dbp (set32 d n 0)))) (fun _ => dloop dbp (S n)) s'.
Proof using geo HE T Hip.
  intros HR Hdo Hn (b & v & -> & Hb & Hfr & Hd). set (K := Ent R2 (Z.of_nat n)).
  assert (interior R2) as HRi by constructor. assert (interior K) as HK by (constructor; change NINDIRECT with 128; lia).
  destruct (tree_block R2 (interior_ok _ HRi) HR) as (HRd & HRn & HRb & _).
  assert (get32 (v (adr R2)) n = adr K) as En.
  { rewrite Hd, decide_False by lia. unfold K. by rewrite saddr_Ent, (proj2 (Z.eqb_neq _ _) HR), Nat2Z.id. }
  destruct (F3_not n (Z.of_nat n) ltac:(lia)) as [HnK HnE].
  do 2 wp_step. cbn [f_blk]. rewrite (wp_data _ _ _ _ _ _ _ Hb (lookup_singleton_eq _ _)) by done. rewrite En.
  apply wp_when; intros E.
  - apply negb_true_iff, Z.eqb_neq in E. destruct (tree_block K (interior_ok _ HK) E) as (Hdd & Hdn & Hdb & Hrg).
    assert (adr R2 <> adr K) as HRK.
    { intros Eq. pose proof (tr_inj _ _ _ _ T R2 K (interior_ok _ HRi) (interior_ok _ HK) HR Eq). done. }
    wp_step. apply wp_onblk. eapply (wp_bread _ HE); [done| |done|].
    { intros i. rewrite lookup_singleton_Some. by intros [_ ?]. }
    intros bp b1 Hbp Hb1. assert (data_only sb {[dbp := adr R2]} sf) as Hdo1.
    { rewrite <- insert_empty. by apply data_only_insert. }
    wp_step. eapply (free_children _ (F3 n) _ _ _ _ _ _ _ K);
      [done|by apply data_only_insert|done|done|done|by rewrite lookup_insert_eq|done| | |].
    { apply (fr_frame _ _ _ _ Hfr); [done|]. unfold is_R2. by apply not_eq_sym. }
    { intros j Hj. split; [right; constructor; change NINDIRECT with 128; lia|apply HnE]. }
    intros b2 v2 Hb2 Hfr2 Hk2. wp_step. apply wp_onblk.
    eapply wp_brelse; [done|by rewrite lookup_insert_eq|by rewrite elem_of_singleton; apply not_eq_sym|].
    intros b3 Hb3. rewrite delete_insert_id in Hb3 by done.
    wp_step. eapply free_slot; [done|done|exact Hfr2|by left|done| |].
    { intros [?|(j & _ & ?)]; done. }
    intros b4 v4 Hb4 Hfr4 Hk4. do 2 wp_step. cbn [f_blk].
    rewrite (wp_data _ _ _ _ _ _ _ Hb4 (lookup_singleton_eq _ _)) by done.
    pose proof (bst_view_ok _ _ _ _ _ _ Hb4 HRn) as [Hlen Hby].
    assert (4 * n + 4 <= length (v4 (adr R2)))%nat as Hfit by (rewrite Hlen; change (Z.to_nat BSIZE) with 512%nat; lia).
    apply wp_onblk. eapply (wp_set _ HE _ _ _ _ _ dbp (adr R2)); [done|apply lookup_singleton_eq|by apply (data_home sb geo)| |].
    { split; [by rewrite length_set32|by apply bytes_set32]. }
    intros b5 Hb5. rewrite union_idemp_L in Hb5. eexists b5, _. split; [done|]. split; [exact Hb5|]. split.
    + apply freed_vset; [|done|done]. eapply freed_at_ext; [exact Hfr4|]. intros s _ _. by rewrite F3_S.
    + intros j Hj. unfold vset. rewrite decide_True by done.
      assert (v4 (adr R2) = v (adr R2)) as E4 by by rewrite Hk4, Hk2.
      destruct (decide (j = n)) as [->|Hne].
      * rewrite get_set32_eq, decide_True by (done || lia). done.
      * rewrite get_set32_ne, E4, Hd by (done || lia). repeat case_decide; (done || lia).
  - apply negb_false_iff, Z.eqb_eq in E. exists b, v. split; [done|]. split; [done|]. split.
    + eapply freed_at_ext; [exact Hfr|]. intros s _ Hne. rewrite F3_S. split; [tauto|].
      intros [[?|(j & _ & ->)]| ->]; [done| |by destruct Hne].
      apply (saddr_above _ _ K) in Hne; [done|by left].
    + intros j Hj. rewrite Hd by done. destruct (decide (j = n)) as [->|]; [|repeat case_decide; (done || lia)].
      rewrite decide_False, decide_True by lia. rewrite <- E. unfold K.
      by rewrite saddr_Ent, (proj2 (Z.eqb_neq _ _) HR), Nat2Z.id.
Qed.

Lemma all_slots s : slot_ok s -> F3 128 s \/ s = R2.
Proof using Type.
  unfold F3, F2, F1. intros [[| |k Hk]|[i Hi|j Hj|k j Hk Hj]].
  - left. left. right. by left.
  - by right.
  - left. right. exists k. change NINDIRECT with 128 in Hk. split; [lia|by left].
  - left. left. left. exists i. unfold NDIRECT in Hi. split; [lia|done].
  - left. left. right. right. exists j. by change NINDIRECT with 128 in Hj.
  - left. right. exists k. change NINDIRECT with 128 in *. split; [lia|right]. by exists j.
Qed.

(** The soft blocks after truncation. *)
Definition trunc_sf (sf' : gset Z) : Prop := sf' = sf \/ (adr R2 <> 0 /\ sf' = sf ∪ {[adr R2]}).

Lemma trunc_data_only sf' : (forall a, a ∈ sf -> is_data sb a) -> trunc_sf sf' -> data_only sb ∅ sf'.
Proof using T.
  intros Hsf Ht. split; [|done]. destruct Ht as [->|[Hne ->]]; [done|].
  intros a [Ha|Ha%elem_of_singleton]%elem_of_union; [by apply Hsf|]. rewrite Ha.
  by apply (tr_data _ _ _ _ T); [left; constructor|].
Qed.

Lemma itrunc_double b v (Q : unit -> St -> Prop) :
  bst b v ∅ sf ∅ -> data_only sb ∅ sf -> freed_at no_X F2 v ->
  (forall b' v' sf', bst b' v' ∅ sf' ∅ -> trunc_sf sf' -> freed_at is_R2 (fun _ => True) v' ->
     Q tt (FState b' (cleared 13))) ->
  wp EP (y <- gets (getinode ip);;
         when (negb (addr y (NDIRECT + 1) =? 0)) (
           dbp <- onblk (bl_bread (i_dev y) (addr y (NDIRECT + 1)));;
           each (fun k =>
             d <- gets (fun s => bl_data dbp (f_blk s));;
             when (negb (get32 d k =? 0)) (
               bp <- onblk (bl_bread (i_dev y) (get32 d k));;
               bfree_entries sb (i_dev y) bp;;
               onblk (bl_brelse bp);;
               onblk (bfree sb (i_dev y) (get32 d k));;
               d <- gets (fun s => bl_data dbp (f_blk s));;
               onblk (bl_set dbp (set32 d k 0)))) (seq 0 (Z.to_nat NINDIRECT));;
           onblk (bl_brelse dbp);;
           onblk (bfree sb (i_dev y) (addr y (NDIRECT + 1)));;
           set_addr ip (NDIRECT + 1) 0)) Q (FState b (cleared 12)).
Proof using geo HE T Hip Hdev Hads.
  intros Hb Hdo Hfr HQ. assert (interior R2) as HRi by constructor.
  assert (freed_at is_R2 F2 v) as Hfr' by by eapply freed_weaken; [exact Hfr|intros a []|].
  do 2 wp_step. rewrite addr_cleared by (unfold NDIRECT; lia).
  rewrite (getinode_lookup _ _ _ _ (lookup_cleared 12)). cbn [with_d i_dev]. rewrite Hdev.
  apply wp_when; intros E.
  - apply negb_true_iff, Z.eqb_neq in E. destruct (tree_block R2 (interior_ok _ HRi) E) as (Hd & Hn & Hnb & Hrg).
    wp_step. apply wp_onblk. eapply (wp_bread _ HE); [done|done|done|]. intros dbp b1 Hdbp Hb1.
    rewrite insert_empty in Hb1. wp_step. apply (wp_each _ _ _ _ (dloop dbp)).
    + exists b1, v. split; [done|]. split.
      { rewrite <- (union_empty_l_L {[adr R2]}). eapply bst_dirty; [done|apply lookup_singleton_eq]. }
      split; [|intros j Hj; rewrite decide_False by lia].
      * eapply freed_at_ext; [exact Hfr'|]. intros s _ _. unfold F3. split; [by left|].
        intros [?|(k & Hk & _)]; [done|lia].
      * f_equal. apply (fr_frame _ _ _ _ Hfr); [done|by intros []].
    + intros n k s' Hk Hs'. apply lookup_seq in Hk as [-> Hk]. by apply itrunc_dentry.
    + intros s' (b2 & v2 & -> & Hb2 & Hfr2 & _). rewrite length_seq in Hfr2. change (Z.to_nat NINDIRECT) with 128%nat in Hfr2.
      wp_step. apply wp_onblk. eapply (wp_brelse_dirty _ HE); [done|apply lookup_singleton_eq|].
      intros b3 Hb3. rewrite delete_singleton_eq, difference_diag_L in Hb3.
      wp_step. eapply free_slot; [done| |exact Hfr2|by left|done| |].
      { split; [|done]. intros a [Ha|Ha%elem_of_singleton]%elem_of_union; [by apply Hdo|by subst]. }
      { unfold F3, F2, F1. intros [[(i & Hi & [= Ei])|[[= Ei]|(j & _ & ?)]]|(k & _ & [?|(j & _ & ?)])];
          (done || unfold NDIRECT in *; lia). }
      intros b4 v4 Hb4 Hfr4 _. apply (wp_clear 12); [lia|]. eapply HQ; [done|by right|].
      eapply freed_at_ext; [exact Hfr4|]. intros s Hok _. split; [done|]. intros _. by apply all_slots.
  - apply negb_false_iff, Z.eqb_eq in E. rewrite (cleared_skip 12) by (done || lia). eapply HQ; [done|by left|].
    eapply freed_at_ext; [exact Hfr'|]. intros s Hok Hne. split; [done|]. intros _.
    destruct (all_slots s Hok) as [[?|(k & _ & [->|(j & _ & ->)])]| ->]; [done| | |done].
    + apply (saddr_above _ _ R2) in Hne; [done|by left].
    + apply (saddr_above _ _ R2) in Hne; [done|right; by left].
Qed.
End tree.

(** [itrunc]: every block of the file is free, every other block is as it was;
    the inode, in memory and on the disk, has no blocks and no bytes. *)
Lemma itrunc_spec b v sf ics ip x (Q : unit -> St -> Prop) :
  file_st sb b v sf ics ip x ->
  (forall b' v' sf', let x' := with_d x (with_size (with_addrs (i_d x) (replicate 13 0)) 0) in
     bst b' v' ∅ sf' ∅ -> trunc_sf v (d_addrs (i_d x)) sf sf' ->
     (forall a, ~ is_bmap sb a -> a <> IBLOCK sb (i_inum x) ->
        a <> saddr v (d_addrs (i_d x)) (Root (NDIRECT + 1)) -> v' a = v a) ->
     (forall c, 0 <= c < sb_size sb -> used sb v' c = true <-> used sb v c = true /\
        ~ exists s, slot_ok s /\ saddr v (d_addrs (i_d x)) s <> 0 /\ c = saddr v (d_addrs (i_d x)) s) ->
     (forall j, is_ino sb j -> dino sb v' j = if decide (j = i_inum x) then i_d x' else dino sb v j) ->
     Q tt (FState b' (<[ip := x']> ics))) ->
  wp EP (itrunc sb ip) Q (FState b ics).
Proof using geo HE.
  intros [Hf Hip Hdev Hi Hdk Hmax Hmap Hdino] HQ. pose proof (fo_tree _ _ _ _ _ _ Hf) as T.
  assert (data_only sb ∅ sf) as Hdo by (split; [apply Hf|done]).
  unfold itrunc. wp_step. eapply (itrunc_direct v _ sf T ip x); [done|done|done|apply Hf|done|]. intros b1 v1 Hb1 Hfr1.
  apply wp_assoc. wp_step. eapply (itrunc_indirect v _ sf T ip x); [done|done|done|done|done|done|].
  intros b2 v2 Hb2 Hfr2.
  apply wp_assoc. wp_step. eapply (itrunc_double v _ sf T ip x); [done|done|done|done|done|done|].
  intros b3 v3 sf3 Hb3 Hsf3 [Hfr Hus]. wp_step. eapply wp_modinode; [by apply lookup_cleared|].
  unfold cleared. rewrite list_insert_insert_eq.
  assert (zeros 13 (d_addrs (i_d x)) = replicate 13 0) as ->.
  { unfold zeros. rewrite drop_ge by (rewrite (tr_len _ _ _ _ T); lia). apply app_nil_r. }
  set (x' := with_d _ _). pose proof (lookup_lt_Some _ _ _ Hip) as Hlt.
  eapply (iupdate_spec sb geo EP HE _ v3 ∅ sf3 ∅ _ ip x'); [done| |by apply list_lookup_insert_eq|done|done| |].
  { eapply trunc_data_only; [done|apply Hf|done]. }
  { destruct Hdk. constructor; try done. apply Forall_replicate. lia. }
  intros b4 v4 Hb4 [Hv4 Hd4]. eapply HQ; [done|done|..].
  - intros a Ha Hne Hn12. rewrite Hv4 by done. by apply Hfr.
  - intros c Hc. rewrite (used_same sb v3), Hus by (done || intros a Ha; apply Hv4; by apply (iblock_not_special sb geo); [|left]).
    split; intros [Hu Hn]; (split; [done|]); intros (s & Hs); apply Hn; exists s; tauto.
  - intros j Hj. rewrite Hd4 by done. change (i_inum x') with (i_inum x). case_decide; [done|].
    unfold dino. rewrite Hfr; [done|by apply (IBLOCK_not_bmap sb geo)|]. unfold is_R2. intros Ea.
    destruct (decide (saddr v (d_addrs (i_d x)) (Root (NDIRECT + 1)) = 0)) as [E0|Hne].
    + pose proof (IBLOCK_range sb geo j Hj). pose proof (fg_inode sb geo). lia.
    + destruct (tr_data _ _ _ _ T (Root (NDIRECT + 1))) as (Hd & _); [left; constructor|done|].
      rewrite <- Ea in Hd. by apply (IBLOCK_not_data sb geo) in Hd.
Qed.
End specs.
