(* ===== verification/Dir.v ===== *)
(** * Directories ([kernel/fs.c]: [namecmp], [dirlookup], [dirlink])

    A directory is a file of 16-byte entries: an inode number (0: free) and a
    name of up to 14 bytes. *)

From S2P Require Import Prelude Params CString Locks Bio Log Crash Block Balloc Inode Bmap Content.
Local Open Scope Z_scope.
Local Open Scope kmonad_scope.

(** [struct dirent]. *)
Definition de_inum (b : list Z) : Z := le_val (sub b 0 2).
Definition de_name (b : list Z) : list Z := sub b 2 14.
Definition encode_dirent (inum : Z) (name : list Z) : list Z :=
  le_bytes 2 inum ++ strncpy name (Z.to_nat DIRSIZ).

Definition namecmp (s t : list Z) : Z := strncmp s t (Z.to_nat DIRSIZ).

Section operations.
Context {BS : Type} `{!BlockLayer BS}.
Context (pid : Z) (sb : superblock).
Abbreviation St := (fstate BS).
Context (devsw_read : Z -> option (nat -> Z -> M St (Z * list Z))).
Context (devsw_write : Z -> option (nat -> list Z -> Z -> M St Z)).

(** The offsets of the loop [for(off = 0; off < size; off += sizeof(de))]. *)
Definition dir_offsets (size : Z) : list Z :=
  (fun k => k * sizeof_dirent) <$> seqZ 0 ((size + sizeof_dirent - 1) / sizeof_dirent).

(** The entry's inode, and its offset ([*poff]). *)
Definition dirlookup (dp : nat) (name : list Z) : M St (option (nat * Z)) :=
  x <- gets (getinode dp);;
  if negb (d_type (i_d x) =? T_DIR) then panic "dirlookup not DIR" else
  scan (fun off =>
    r <- readi sb devsw_read dp off sizeof_dirent;;
    if negb (r.1 =? sizeof_dirent) then panic "dirlookup read" else
    let de := r.2 in
    if de_inum de =? 0 then ret None else
    if namecmp name (de_name de) =? 0 then
      (* entry matches path element *)
      ip <- iget (i_dev x) (de_inum de);;
      ret (Some (ip, off))
    else ret None) (dir_offsets (d_size (i_d x))).

Definition dirlink (dp : nat) (name : list Z) (inum : Z) : M St Z :=
  (* Check that name is not present. *)
  r <- dirlookup dp name;;
  match r with
  | Some (ip, _) => iput pid sb ip;; ret (-1)
  | None =>
      (* Look for an empty dirent. *)
      x <- gets (getinode dp);;
      let offs := dir_offsets (d_size (i_d x)) in
      r <- scan (fun off =>
        r <- readi sb devsw_read dp off sizeof_dirent;;
        if negb (r.1 =? sizeof_dirent) then panic "dirlink read" else
        if de_inum r.2 =? 0 then ret (Some off) else ret None) offs;;
      let off := match r with
                 | Some off => off
                 | None => Z.of_nat (length offs) * sizeof_dirent
                 end in
      r <- writei sb devsw_write dp (encode_dirent inum name) off sizeof_dirent;;
      if negb (r =? sizeof_dirent) then panic "dirlink" else ret 0
  end.
End operations.

(** ** The entries *)

Definition entry (c : list Z) (k : nat) : Z * list Z := (de_inum (sub c (16 * k) 16), de_name (sub c (16 * k) 16)).
Definition entries (c : list Z) : list (Z * list Z) := entry c <$> seq 0 (length c / 16).

(** An entry with this name. *)
Definition matches (name : list Z) (e : Z * list Z) : Prop := e.1 <> 0 /\ cstr 14 name = cstr 14 e.2.
#[export] Instance matches_dec name e : Decision (matches name e).
Proof. apply _. Defined.

(** The inode number of a name. *)
Definition find_name (name : list Z) (es : list (Z * list Z)) : option (nat * Z) :=
  '(k, e) ← list_find (matches name) es; Some (k, e.1).

Lemma length_encode_dirent inum name : length (encode_dirent inum name) = 16%nat.
Proof. unfold encode_dirent. rewrite length_app, length_le_bytes, length_strncpy. done. Qed.

Lemma bytes_encode_dirent inum name : bytes name -> bytes (encode_dirent inum name).
Proof. intros Hn. apply Forall_app. split; [apply bytes_le_bytes|by apply bytes_strncpy]. Qed.

Lemma decode_encode_dirent inum name :
  0 <= inum < 2 ^ 16 ->
  de_inum (encode_dirent inum name) = inum /\ de_name (encode_dirent inum name) = strncpy name 14.
Proof.
  intros Hi. unfold de_inum, de_name, encode_dirent. split.
  - rewrite sub_field, le_val_bytes. by apply Z.mod_small.
  - change 2%nat with (2 + 0)%nat at 2. rewrite sub_skip.
    unfold sub. rewrite drop_0, take_ge; [done|]. rewrite length_strncpy. done.
Qed.

Lemma lookup_entries c k : (k < length c / 16)%nat -> entries c !! k = Some (entry c k).
Proof. intros Hk. unfold entries. by rewrite list_lookup_fmap, lookup_seq_lt by lia. Qed.

Lemma length_entries c : length (entries c) = (length c / 16)%nat.
Proof. unfold entries. by rewrite length_fmap, length_seq. Qed.

Lemma entry_splice_ne c k r j :
  length r = 16%nat -> (16 * k + 16 <= length c)%nat -> j <> k -> entry (splice c (16 * k) r) j = entry c j.
Proof. intros Hr Hk Hne. unfold entry. by rewrite sub_splice_ne by lia. Qed.

Lemma entry_splice_eq c k r :
  length r = 16%nat -> (16 * k <= length c)%nat -> entry (splice c (16 * k) r) k = (de_inum r, de_name r).
Proof.
  intros Hr Hk. unfold entry. assert (sub (splice c (16 * k) r) (16 * k) 16 = r) as ->; [|done].
  unfold sub, splice. rewrite drop_app_length' by (rewrite length_take; lia).
  rewrite <- Hr. apply take_app_length.
Qed.

(** Overwriting an entry, and adding one at the end. *)
Lemma entries_overwrite c k r :
  length r = 16%nat -> (k < length c / 16)%nat ->
  entries (splice c (16 * k) r) = <[k := (de_inum r, de_name r)]> (entries c).
Proof.
  intros Hr Hk. assert (16 * k + 16 <= length c)%nat as Hf by lia.
  assert (length (splice c (16 * k) r) = length c) as Hl by (apply length_splice; lia).
  apply list_eq. intros j. destruct (decide (j < length c / 16)%nat) as [Hj|Hj].
  - rewrite lookup_entries by by rewrite Hl. destruct (decide (j = k)) as [->|Hne].
    + rewrite list_lookup_insert_eq by by rewrite length_entries. by rewrite entry_splice_eq by lia.
    + rewrite list_lookup_insert_ne by done. rewrite entry_splice_ne by done. by rewrite lookup_entries.
  - rewrite !lookup_ge_None_2; [done| |]; rewrite ?length_insert, length_entries, ?Hl; lia.
Qed.

Lemma entries_append c r :
  length r = 16%nat -> (length c `mod` 16 = 0)%nat ->
  entries (splice c (length c) r) = entries c ++ [(de_inum r, de_name r)].
Proof.
  intros Hr Hc. set (n := (length c / 16)%nat). assert (length c = (16 * n)%nat) as Hn by (unfold n; lia).
  assert (splice c (length c) r = c ++ r) as ->.
  { unfold splice. rewrite firstn_all, drop_ge, app_nil_r by lia. done. }
  unfold entries at 1. assert (length (c ++ r) / 16 = S n)%nat as -> by (rewrite length_app, Hr, Hn; lia).
  rewrite seq_S, fmap_app. f_equal.
  - apply list_fmap_ext. intros i j Hj. apply lookup_seq in Hj as [-> Hj]. unfold entry. cbn [Nat.add].
    assert (sub (c ++ r) (16 * i) 16 = sub c (16 * i) 16) as ->; [|done].
    unfold sub. rewrite drop_app_le by lia. rewrite take_app_le; [done|]. rewrite length_drop. lia.
  - cbn [fmap list_fmap]. rewrite Nat.add_0_l. unfold entry. rewrite <- Hn.
    assert (sub (c ++ r) (length c) 16 = r) as ->; [|done]. unfold sub. rewrite drop_app_length. by rewrite take_ge by lia.
Qed.

(** Adding an entry in the first free place. *)
Definition add_entry (e : Z * list Z) (es : list (Z * list Z)) : list (Z * list Z) :=
  match list_find (fun e' => e'.1 = 0) es with
  | Some (k, _) => <[k := e]> es
  | None => es ++ [e]
  end.

Lemma find_name_app name es es' :
  find_name name (es ++ es') =
  match find_name name es with
  | Some r => Some r
  | None => prod_map (fun k => k + length es)%nat id <$> find_name name es'
  end.
Proof.
  unfold find_name. destruct (list_find (matches name) es) as [[k e]|] eqn:E.
  - by rewrite (list_find_app_l _ _ _ _ _ E).
  - rewrite (list_find_app_r _ _ _ E). cbn. by destruct (list_find (matches name) es') as [[k e]|].
Qed.

(** A free entry or one with another name does not matter. *)
Lemma find_name_insert name e es k e0 :
  es !! k = Some e0 -> ~ matches name e0 -> ~ matches name e ->
  snd <$> find_name name (<[k := e]> es) = snd <$> find_name name es.
Proof.
  intros Hk H0 He. pose proof (lookup_lt_Some _ _ _ Hk) as Hlt.
  rewrite <- (take_drop_middle es k e0 Hk) at 2. rewrite insert_take_drop by done.
  assert (forall y, ~ matches name y -> forall l, find_name name (y :: l) = prod_map S id <$> find_name name l) as Hc.
  { intros y Hy l. unfold find_name. cbn [list_find]. rewrite decide_False by done.
    by destruct (list_find _ l) as [[? ?]|]. }
  rewrite !find_name_app. destruct (find_name name (take k es)); [done|]. rewrite !Hc by done.
  by destruct (find_name name (drop (S k) es)).
Qed.

Lemma find_name_cons_eq name e l : matches name e -> find_name name (e :: l) = Some (0%nat, e.1).
Proof. intros H. unfold find_name. cbn [list_find]. by rewrite decide_True. Qed.

Lemma find_add_entry name inum es :
  inum <> 0 -> find_name name es = None ->
  snd <$> find_name name (add_entry (inum, strncpy name 14) es) = Some inum.
Proof.
  intros Hi Hn. assert (matches name (inum, strncpy name 14)) as Hm.
  { split; [done|]. cbn [snd]. by rewrite cstr_strncpy. }
  assert (forall l l', find_name name (l ++ l') = None -> find_name name l = None) as Hl.
  { intros l l'. rewrite find_name_app. by destruct (find_name name l). }
  unfold add_entry. destruct (list_find _ es) as [[k e]|] eqn:E.
  - apply list_find_Some in E as (Hk & _ & _). rewrite insert_take_drop by by eapply lookup_lt_Some.
    rewrite find_name_app. rewrite <- (take_drop k es) in Hn. rewrite (Hl _ _ Hn).
    by rewrite find_name_cons_eq.
  - by rewrite find_name_app, Hn, find_name_cons_eq.
Qed.

Lemma find_add_entry_ne name name' inum es :
  cstr 14 name' <> cstr 14 name ->
  snd <$> find_name name' (add_entry (inum, strncpy name 14) es) = snd <$> find_name name' es.
Proof.
  intros Hne. assert (~ matches name' (inum, strncpy name 14)) as Hm.
  { intros [_ H]. cbn [snd] in H. by rewrite cstr_strncpy in H. }
  unfold add_entry. destruct (list_find _ es) as [[k e]|] eqn:E.
  - apply list_find_Some in E as (Hk & He & _). eapply find_name_insert; [done| |done]. by intros [? _].
  - rewrite find_name_app. destruct (find_name name' es); [done|]. unfold find_name. cbn [list_find].
    by rewrite decide_False.
Qed.

Section specs.
Context {BS : Type} `{!BlockLayer BS} `{!BlockLaws BS}.
Context (sb : superblock) (geo : fsgeo sb).
Context (EP : string -> Prop) (HE : forall msg, res_panic msg -> EP msg).
Abbreviation St := (fstate BS).
Context (devr : Z -> option (nat -> Z -> M St (Z * list Z))).

(** A directory. *)
Record dir_st (b : BS) (v : Z -> list Z) (sf : gset Z) (ics : list inode) (dp : nat) (x : inode) : Prop := {
  di_file : file_st sb b v sf ics dp x;
  di_type : d_type (i_d x) = T_DIR;
  di_size : d_size (i_d x) mod 16 = 0
}.

Definition dents (v : Z -> list Z) (x : inode) : list (Z * list Z) := entries (contents v (i_d x)).

Lemma length_dents b v sf ics dp x :
  dir_st b v sf ics dp x -> Z.of_nat (length (dents v x)) = d_size (i_d x) / 16.
Proof.
  intros [Hf _ _]. pose proof (dk_size _ (fs_dk _ _ _ _ _ _ _ Hf)). unfold dents.
  rewrite length_entries, length_contents. lia.
Qed.

Lemma dir_offsets_spec b v sf ics dp x :
  dir_st b v sf ics dp x -> dir_offsets (d_size (i_d x)) = (fun k => k * 16) <$> seqZ 0 (d_size (i_d x) / 16).
Proof.
  intros [_ _ Hs]. unfold dir_offsets. change sizeof_dirent with 16. do 2 f_equal. lia.
Qed.

(** Reading entry [k]. *)
Lemma read_dirent b v sf ics dp x (k : nat) (Q : Z * list Z -> St -> Prop) :
  dir_st b v sf ics dp x -> Z.of_nat k < d_size (i_d x) / 16 ->
  (forall b', dir_st b' v sf ics dp x -> Q (16, sub (contents v (i_d x)) (16 * k) 16) (FState b' ics)) ->
  wp EP (readi sb devr dp (Z.of_nat k * 16) 16) Q (FState b ics).
Proof using geo HE.
  intros Hd Hk HQ. pose proof Hd as [Hf Ht Hs]. pose proof (fs_size _ _ _ _ _ _ _ Hf) as Hmax.
  pose proof (dk_size _ (fs_dk _ _ _ _ _ _ _ Hf)) as Hsz.
  assert (MAXFILE * BSIZE < 2 ^ 31) as Hm by done.
  eapply (readi_spec sb geo EP HE); [done|by rewrite Ht|lia|lia|lia|].
  intros _ _ b' Hf'. rewrite Z.min_l by lia. replace (Z.to_nat (Z.of_nat k * 16)) with (16 * k)%nat by lia.
  apply HQ. by constructor.
Qed.

Lemma dirlookup_spec b v sf ics dp x name (Q : option (nat * Z) -> St -> Prop) :
  dir_st b v sf ics dp x ->
  (find_name name (dents v x) = None -> forall b', dir_st b' v sf ics dp x -> Q None (FState b' ics)) ->
  (forall k inum b', find_name name (dents v x) = Some (k, inum) -> dir_st b' v sf ics dp x ->
     wp EP (iget 1 inum) (fun ip s' => Q (Some (ip, Z.of_nat k * 16)) s') (FState b' ics)) ->
  wp EP (dirlookup sb devr dp name) Q (FState b ics).
Proof using geo HE.
  intros Hd HN HS. pose proof Hd as [Hf Ht Hs]. unfold dirlookup. do 2 wp_step.
  rewrite (getinode_lookup _ _ _ _ (fs_ip _ _ _ _ _ _ _ Hf)), Ht. cbn [Z.eqb negb T_DIR Pos.eqb].
  rewrite (dir_offsets_spec b v sf ics dp) by done.
  set (I (n : nat) (s' : St) := exists b', s' = FState b' ics /\ dir_st b' v sf ics dp x /\
    forall j e, (j < n)%nat -> dents v x !! j = Some e -> ~ matches name e).
  apply (wp_scan _ _ _ _ I).
  - exists b. split; [done|]. split; [done|]. intros j e Hj. lia.
  - intros n off s' Hn (b' & -> & Hd' & Hno). rewrite list_lookup_fmap in Hn.
    apply fmap_Some in Hn as (k & Hk & ->). apply lookup_seqZ in Hk as [-> Hk]. rewrite Z.add_0_l.
    wp_step. eapply read_dirent; [done|lia|]. intros b2 Hd2. cbn [fst snd]. rewrite Z.eqb_refl. cbn [negb].
    assert (dents v x !! n = Some (entry (contents v (i_d x)) n)) as He.
    { apply lookup_entries. pose proof (length_dents _ _ _ _ _ _ Hd) as Hl. unfold dents in Hl.
      rewrite length_entries in Hl. lia. }
    assert (~ matches name (entry (contents v (i_d x)) n) -> I (S n) (FState b2 ics)) as Hskip.
    { intros Hm. exists b2. split; [done|]. split; [done|]. intros j e Hj Hje.
      destruct (decide (j = n)) as [->|]; [rewrite He in Hje; by injection Hje as <-|apply (Hno j); [lia|done]]. }
    destruct (de_inum _ =? 0) eqn:E0.
    { wp_step. apply Z.eqb_eq in E0. apply Hskip. intros [Hne _]. done. }
    apply Z.eqb_neq in E0. unfold namecmp. destruct (strncmp _ _ _ =? 0) eqn:E1.
    + apply Z.eqb_eq, strncmp_eq in E1. rewrite (fs_dev _ _ _ _ _ _ _ Hf). wp_step.
      eapply wp_post; [apply (HS n); [|done]|]; [|intros ip s2 HQ; by wp_step].
      unfold find_name. rewrite (proj2 (list_find_Some (matches name) (dents v x) n (entry (contents v (i_d x)) n))); [done|].
      split; [done|]. split; [done|]. intros j e Hje Hj. by apply (Hno j e).
    + wp_step. apply Z.eqb_neq in E1. apply Hskip. intros [_ Hc]. by apply E1, strncmp_eq.
  - intros s' (b' & -> & Hd' & Hno). apply HN; [|done]. unfold find_name.
    rewrite (proj2 (list_find_None (matches name) (dents v x))); [done|].
    apply Forall_lookup. intros j e Hj. apply (Hno j); [|done].
    rewrite length_fmap, length_seqZ. apply lookup_lt_Some in Hj. pose proof (length_dents _ _ _ _ _ _ Hd). lia.
Qed.

Context (pid : Z) (devw : Z -> option (nat -> list Z -> Z -> M St Z)).

(** Writing entry [k], or a new one at the end. *)
Lemma write_dirent b v sf ics dp x name inum (k : nat) (es : list (Z * list Z)) (Q : Z -> St -> Prop) :
  dir_st b v sf ics dp x -> 0 <= inum < 2 ^ 16 -> bytes name -> d_size (i_d x) + 16 <= MAXFILE * BSIZE ->
  (nfree sb v < 3 * touches sizeof_dirent -> EP "balloc: out of blocks"%string) ->
  (k <= length (dents v x))%nat ->
  entries (splice (contents v (i_d x)) (16 * k) (encode_dirent inum name)) = es ->
  (forall b' v' sf' x', dir_st b' v' sf' (<[dp := x']> ics) dp x' -> others_kept sb v x v' x' ->
     dents v' x' = es -> Q 0 (FState b' (<[dp := x']> ics))) ->
  wp EP (r <- writei sb devw dp (encode_dirent inum name) (Z.of_nat k * 16) sizeof_dirent;;
         if negb (r =? sizeof_dirent) then panic "dirlink" else ret 0) Q (FState b ics).
Proof using geo HE devr.
  intros Hd Hi Hby Hmax HE2 Hk He HQ. pose proof Hd as [Hf Ht Hs].
  pose proof (dk_size _ (fs_dk _ _ _ _ _ _ _ Hf)) as Hsz. pose proof (length_dents _ _ _ _ _ _ Hd) as Hln.
  pose proof (length_encode_dirent inum name) as Hlr.
  wp_step. eapply (writei_spec sb geo EP HE); [apply Hd|by rewrite Ht|..].
  { assert (MAXFILE * BSIZE < 2 ^ 31) by done. lia. } { done. } { by rewrite Hlr. } { by apply bytes_encode_dirent. }
  { by apply enough_touches. }
  { change sizeof_dirent with 16. lia. }
  intros _ _ b3 v3 sf3 x3 Hf3 _ [ads Ew] Hc Hok _. change sizeof_dirent with 16 in *. rewrite Z.eqb_refl. cbn [negb].
  wp_step. rewrite take_ge in Hc by (rewrite Hlr; done).
  replace (Z.to_nat (Z.of_nat k * 16)) with (16 * k)%nat in Hc by lia.
  eapply HQ; [constructor; [done|by rewrite Ew|]|done|unfold dents; by rewrite Hc]. rewrite Ew. cbn. lia.
Qed.

Lemma dirlink_spec b v sf ics dp x name inum (Q : Z -> St -> Prop) :
  dir_st b v sf ics dp x -> find_name name (dents v x) = None -> 0 <= inum < 2 ^ 16 -> bytes name ->
  d_size (i_d x) + 16 <= MAXFILE * BSIZE ->
  (nfree sb v < 3 * touches sizeof_dirent -> EP "balloc: out of blocks"%string) ->
  (forall b' v' sf' x', dir_st b' v' sf' (<[dp := x']> ics) dp x' -> others_kept sb v x v' x' ->
     dents v' x' = add_entry (inum, strncpy name 14) (dents v x) ->
     Q 0 (FState b' (<[dp := x']> ics))) ->
  wp EP (dirlink pid sb devr devw dp name inum) Q (FState b ics).
Proof using geo HE.
  intros Hd Hnone Hi Hby Hmax HE2 HQ. pose proof Hd as [Hf Ht Hs]. unfold dirlink.
  pose proof (dk_size _ (fs_dk _ _ _ _ _ _ _ Hf)) as Hsz. pose proof (length_dents _ _ _ _ _ _ Hd) as Hln.
  assert (length (dents v x) = (length (contents v (i_d x)) / 16)%nat) as Hlc by apply length_entries.
  wp_step. eapply dirlookup_spec; [done| |intros k inum' b' E; congruence].
  intros _ b1 Hd1. do 2 wp_step. rewrite (getinode_lookup _ _ _ _ (fs_ip _ _ _ _ _ _ _ Hf)).
  rewrite (dir_offsets_spec b v sf ics dp) by done. wp_step.
  set (I (n : nat) (s' : St) := exists b', s' = FState b' ics /\ dir_st b' v sf ics dp x /\
    forall j e, (j < n)%nat -> dents v x !! j = Some e -> e.1 <> 0).
  destruct (decode_encode_dirent inum name Hi) as [Hdi Hdn]. pose proof (length_encode_dirent inum name) as Hlr.
  apply (wp_scan _ _ _ _ I).
  - exists b1. split; [done|]. split; [done|]. intros j e Hj. lia.
  - intros n off s' Hn (b' & -> & Hd' & Hno). rewrite list_lookup_fmap in Hn.
    apply fmap_Some in Hn as (k & Hk & ->). apply lookup_seqZ in Hk as [-> Hk]. rewrite Z.add_0_l.
    wp_step. eapply read_dirent; [done|lia|]. intros b2 Hd2. cbn [fst snd]. rewrite Z.eqb_refl. cbn [negb].
    assert (dents v x !! n = Some (entry (contents v (i_d x)) n)) as He.
    { apply lookup_entries. lia. }
    destruct (de_inum _ =? 0) eqn:E0; wp_step.
    + apply Z.eqb_eq in E0. eapply (write_dirent _ _ _ _ _ _ _ _ _ (add_entry _ _)); try done; [lia|]. rewrite entries_overwrite by (done || lia).
      rewrite Hdi, Hdn. unfold add_entry.
      rewrite (proj2 (list_find_Some _ (dents v x) n (entry (contents v (i_d x)) n))); [done|].
      split; [done|]. split; [done|]. intros j e Hje Hj. by apply (Hno j e).
    + apply Z.eqb_neq in E0. exists b2. split; [done|]. split; [done|]. intros j e Hj Hje.
      destruct (decide (j = n)) as [->|]; [rewrite He in Hje; by injection Hje as <-|apply (Hno j); [lia|done]].
  - intros s' (b' & -> & Hd' & Hno). rewrite length_fmap, length_seqZ.
    change sizeof_dirent with 16. replace (Z.to_nat (d_size (i_d x) / 16)) with (length (dents v x)) by lia.
    eapply (write_dirent _ _ _ _ _ _ _ _ _ (add_entry _ _)); try done. replace (16 * length (dents v x))%nat with (length (contents v (i_d x))).
    2: { rewrite length_contents in *. lia. }
    rewrite entries_append; [|done|rewrite length_contents; lia]. rewrite Hdi, Hdn. unfold add_entry.
    rewrite (proj2 (list_find_None _ (dents v x))); [done|].
    apply Forall_lookup. intros j e Hj. apply (Hno j); [|done].
    rewrite length_fmap, length_seqZ. apply lookup_lt_Some in Hj. lia.
Qed.
End specs.
