(* ===== verification/Icache.v ===== *)
(** * The inode table ([kernel/fs.c]: [iget], [ialloc], [iput])

    The entries with a reference are the inodes in use, each in one entry;
    [refs] counts the references of an inode.  [ialloc] takes the lowest free
    inode of the disk; [iput] of the last reference to an inode without links
    frees its blocks and the inode. *)

From S2P Require Import Prelude Params CString Locks Bio Log Crash Block Balloc Inode Bmap Content Itrunc.
Local Open Scope Z_scope.
Local Open Scope kmonad_scope.

Definition is_entry (dev inum : Z) (x : inode) : Prop := 0 < i_ref x /\ i_dev x = dev /\ i_inum x = inum.
#[export] Instance is_entry_dec dev inum x : Decision (is_entry dev inum x).
Proof. apply _. Defined.

Record ic_ok (ics : list inode) : Prop := {
  ic_ref i x : ics !! i = Some x -> 0 <= i_ref x;
  ic_uniq i j x y dev inum : ics !! i = Some x -> ics !! j = Some y ->
    is_entry dev inum x -> is_entry dev inum y -> i = j
}.

(** The number of references to an inode. *)
Definition entry_refs (dev inum : Z) (x : inode) : Z := if decide (is_entry dev inum x) then i_ref x else 0.
Definition refs (ics : list inode) (dev inum : Z) : Z := foldr (fun x n => entry_refs dev inum x + n) 0 ics.

Lemma refs_insert ics ip x y dev inum :
  ics !! ip = Some x ->
  refs (<[ip := y]> ics) dev inum = refs ics dev inum - entry_refs dev inum x + entry_refs dev inum y.
Proof.
  revert ip. induction ics as [|z ics IH]; intros [|ip] H; [done..| |].
  - injection H as ->. unfold refs. cbn. lia.
  - specialize (IH _ H). change (<[S ip := y]> (z :: ics)) with (z :: <[ip := y]> ics).
    unfold refs in *. cbn [foldr]. rewrite IH. lia.
Qed.

Lemma icache_init_ok : ic_ok icache_init.
Proof.
  constructor.
  - intros i x [-> _]%lookup_replicate_1. done.
  - intros i j x y dev inum [-> _]%lookup_replicate_1 _ [H _]. by cbn in H.
Qed.

(** The table after an entry for inode [inum] was taken or given one more reference. *)
Record got (ics : list inode) (dev inum : Z) (ip : nat) (ics' : list inode) : Prop := {
  got_ok : ic_ok ics';
  got_at : exists x x', ics !! ip = Some x /\ ics' = <[ip := x']> ics /\ is_entry dev inum x' /\
    ((is_entry dev inum x /\ x' = with_ref x (i_ref x + 1)) \/
     (i_ref x = 0 /\ refs ics dev inum = 0 /\ x' = Inode dev inum 1 (i_lock x) false (i_d x)));
  got_refs d n : refs ics' d n = refs ics d n + if decide (d = dev /\ n = inum) then 1 else 0
}.

Lemma refs_0 ics dev inum : (forall i x, ics !! i = Some x -> ~ is_entry dev inum x) -> refs ics dev inum = 0.
Proof.
  intros H. induction ics as [|x ics IH]; [done|]. unfold refs in *. cbn.
  rewrite IH by (intros i y Hy; by apply (H (S i))). unfold entry_refs.
  by rewrite decide_False by by apply (H 0%nat).
Qed.

Lemma got_hit ics dev inum ip x :
  ic_ok ics -> ics !! ip = Some x -> is_entry dev inum x ->
  got ics dev inum ip (<[ip := with_ref x (i_ref x + 1)]> ics).
Proof.
  intros [Hr Hu] Hx He. pose proof (lookup_lt_Some _ _ _ Hx) as Hlt. pose proof He as (H0 & Hd & Hi). constructor.
  - constructor.
    + intros i y [(-> & <- & _)|[_ Hy]]%list_lookup_insert_Some; [cbn; lia|by eapply Hr].
    + assert (forall j y d n, <[ip := with_ref x (i_ref x + 1)]> ics !! j = Some y -> is_entry d n y ->
        exists z, ics !! j = Some z /\ is_entry d n z) as Hz.
      { intros j y d n [(-> & <- & _)|[_ Hy]]%list_lookup_insert_Some; [|by eauto].
        intros (_ & ? & ?). by exists x. }
      intros i j y z d n Hy Hz' Ey Ez. destruct (Hz _ _ _ _ Hy Ey) as (? & ? & ?). destruct (Hz _ _ _ _ Hz' Ez) as (? & ? & ?).
      by eapply (Hu i j).
  - exists x, (with_ref x (i_ref x + 1)). split; [done|]. split; [done|]. split; [|by left].
    unfold is_entry. cbn. lia.
  - intros d n. rewrite (refs_insert _ _ x) by done. unfold entry_refs, is_entry. cbn.
    repeat case_decide; lia.
Qed.

Lemma got_miss ics dev inum ip x :
  ic_ok ics -> (forall i y, ics !! i = Some y -> ~ is_entry dev inum y) -> ics !! ip = Some x -> i_ref x = 0 ->
  got ics dev inum ip (<[ip := Inode dev inum 1 (i_lock x) false (i_d x)]> ics).
Proof.
  intros [Hr Hu] Hno Hx H0. pose proof (lookup_lt_Some _ _ _ Hx) as Hlt. set (x' := Inode _ _ _ _ _ _). constructor.
  - constructor.
    + intros i y [(-> & <- & _)|[_ Hy]]%list_lookup_insert_Some; [done|by eapply Hr].
    + intros i j y z d n [(-> & <- & _)|[Hi Hy]]%list_lookup_insert_Some
        [(-> & <- & _)|[Hj Hz']]%list_lookup_insert_Some Ey Ez; [done| | |by eapply (Hu i j)].
      * destruct Ey as (_ & <- & <-). by apply Hno in Hz'.
      * destruct Ez as (_ & <- & <-). by apply Hno in Hy.
  - exists x, x'. split; [done|]. split; [done|]. split; [done|]. right. split; [done|]. split; [by apply refs_0|done].
  - intros d n. rewrite (refs_insert _ _ x) by done. unfold entry_refs, is_entry. cbn.
    repeat case_decide; lia.
Qed.

Section specs.
Context {BS : Type} `{!BlockLayer BS} `{!BlockLaws BS}.
Context (sb : superblock) (geo : fsgeo sb).
Context (EP : string -> Prop) (HE : forall msg, res_panic msg -> EP msg).
Abbreviation St := (fstate BS).

Lemma iget_spec b ics dev inum (Q : nat -> St -> Prop) :
  ic_ok ics ->
  ((forall i x, ics !! i = Some x -> i_ref x <> 0 /\ ~ is_entry dev inum x) -> EP "iget: no inodes"%string) ->
  (forall ip ics', got ics dev inum ip ics' -> Q ip (FState b ics')) ->
  wp EP (iget dev inum) Q (FState b ics).
Proof using.
  intros Hok HN HQ. unfold iget, setinode. do 2 wp_step. cbn [f_inodes].
  change (fun x => 0 < i_ref x /\ i_dev x = dev /\ i_inum x = inum) with (is_entry dev inum).
  destruct (list_find _ ics) as [[ip x]|] eqn:E.
  - apply list_find_Some in E as (Hx & He & _). do 3 wp_step. cbn [f_blk f_inodes]. apply HQ. by apply got_hit.
  - apply list_find_None in E. rewrite Forall_lookup in E.
    destruct (list_find (fun x => i_ref x = 0) ics) as [[ip x]|] eqn:E2.
    + apply list_find_Some in E2 as (Hx & He & _). do 3 wp_step. cbn [f_blk f_inodes]. apply HQ. by apply got_miss.
    + apply list_find_None in E2. rewrite Forall_lookup in E2. apply wp_panic, HN. intros i x Hx.
      split; [by eapply E2|by eapply E].
Qed.

(** [ialloc] takes the lowest free inode. *)
Record ialloced (v : Z -> list Z) (type inum : Z) (v' : Z -> list Z) : Prop := {
  ia_range : 1 <= inum < sb_ninodes sb;
  ia_free : d_type (dino sb v inum) = 0;
  ia_lowest j : 1 <= j < inum -> d_type (dino sb v j) <> 0;
  ia_disk : ino_changed sb v v' inum (zero_dinode type)
}.

Lemma ialloc_spec b v sf ics type (Q : nat -> St -> Prop) :
  bst b v ∅ sf ∅ -> data_only sb ∅ sf -> ic_ok ics -> - 2 ^ 15 <= type < 2 ^ 15 ->
  ((forall j, 1 <= j < sb_ninodes sb -> d_type (dino sb v j) <> 0) -> EP "ialloc: no inodes"%string) ->
  ((forall i x, ics !! i = Some x -> i_ref x <> 0) -> EP "iget: no inodes"%string) ->
  (forall ip inum b' v' ics', ialloced v type inum v' -> bst b' v' ∅ sf ∅ -> got ics 1 inum ip ics' ->
     Q ip (FState b' ics')) ->
  wp EP (ialloc sb 1 type) Q (FState b ics).
Proof using geo HE.
  intros Hb Hdo Hok Hty HN HN2 HQ. unfold ialloc. wp_step.
  set (I (n : nat) (s' : St) := exists b', s' = FState b' ics /\ bst b' v ∅ sf ∅ /\
    forall j, 1 <= j < 1 + Z.of_nat n -> d_type (dino sb v j) <> 0).
  apply (wp_scan _ _ _ _ I).
  - exists b. split; [done|]. split; [done|]. intros j Hj. lia.
  - intros n inum s' Hn (b1 & -> & Hb1 & Hlow). apply lookup_seqZ in Hn as [-> Hn].
    set (inum := 1 + Z.of_nat n) in *. assert (is_ino sb inum) as Hi by (unfold is_ino; lia).
    destruct (iblock_free sb geo ∅ sf ∅ b1 v _ Hb1 Hdo Hi) as (Hsf & Hdt & Hh).
    wp_step. apply wp_onblk. eapply (wp_bread _ HE); [done|done|by apply bl_home_range, (IBLOCK_home sb geo)|].
    intros bp b2 Hbp Hb2. do 2 wp_step. cbn [f_blk].
    rewrite (wp_data _ _ _ _ _ _ _ Hb2 (lookup_insert_eq _ _ _)) by done.
    change (get_dinode (v (IBLOCK sb inum)) (inum mod IPB)) with (dino sb v inum).
    destruct (d_type (dino sb v inum) =? 0) eqn:E.
    + apply Z.eqb_eq in E. apply wp_bind_assoc3. wp_step.
      eapply (wp_put_inode sb geo); try done; [by apply zero_dinode_ok|]. intros b3 v3 Hb3 Hch.
      wp_step. eapply iget_spec; [done|intros H; apply HN2; intros i x Hx; by eapply H|].
      intros ip ics' Hg. do 2 wp_step.
      eapply HQ; [|done|done]. constructor; try done. lia.
    + apply Z.eqb_neq in E. wp_step. apply wp_onblk.
      eapply (wp_brelse _); [done|by rewrite lookup_insert_eq|done|].
      intros b3 Hb3. rewrite delete_insert_id in Hb3 by done. wp_step. exists b3. split; [done|]. split; [done|].
      intros j Hj. destruct (decide (j = inum)) as [->|]; [done|]. apply Hlow. lia.
  - intros s' (b' & -> & Hb' & Hall). apply wp_panic, HN. rewrite length_seqZ in Hall.
    intros j Hj. apply Hall. lia.
Qed.

Context (pid : Z).

(** [iput] of an inode with other references, with links, or never read. *)
Lemma iput_keep b ics ip x (Q : unit -> St -> Prop) :
  ics !! ip = Some x -> Sleep.locked (i_lock x) = false ->
  i_valid x && (d_nlink (i_d x) =? 0) && (i_ref x =? 1) = false ->
  Q tt (FState b (<[ip := with_ref (with_lock x Sleep.initsleeplock) (i_ref x - 1)]> ics)) ->
  wp EP (iput pid sb ip) Q (FState b ics).
Proof using.
  intros Hip Hl Hk HQ. unfold iput, lockinode, setinode. pose proof (lookup_lt_Some _ _ _ Hip) as Hlt.
  do 3 wp_step. rewrite (getinode_lookup _ _ _ _ Hip). unfold Sleep.acquiresleep. rewrite Hl. wp_step.
  cbn [f_blk f_inodes]. do 2 wp_step. set (x1 := with_lock x _).
  assert (<[ip := x1]> ics !! ip = Some x1) as Hip1 by by apply list_lookup_insert_eq.
  rewrite (getinode_lookup _ _ _ _ Hip1). wp_step.
  assert (wp EP (modinode ip (fun y => with_lock y (Sleep.releasesleep (i_lock y)));;
                 modinode ip (fun y => with_ref y (i_ref y - 1))) Q (FState b (<[ip := x1]> ics))) as Hend.
  { wp_step. eapply wp_modinode; [done|]. rewrite list_insert_insert_eq.
    eapply wp_modinode; [by apply list_lookup_insert_eq|]. by rewrite list_insert_insert_eq. }
  apply wp_when; intros Hv; [|done]. do 2 wp_step. rewrite (getinode_lookup _ _ _ _ Hip1).
  apply wp_when; intros Hr; [|done]. change (i_valid x1) with (i_valid x) in Hv.
  change (i_d x1) with (i_d x) in Hv. change (i_ref x1) with (i_ref x) in Hr. by rewrite Hv, Hr in Hk.
Qed.

(** The disk after the inode [x] and its blocks have been freed. *)
Record ifreed (v : Z -> list Z) (x : inode) (v' : Z -> list Z) : Prop := {
  if_kept a : ~ is_bmap sb a -> a <> IBLOCK sb (i_inum x) ->
    a <> saddr v (d_addrs (i_d x)) (Root (NDIRECT + 1)) -> v' a = v a;
  if_used c : 0 <= c < sb_size sb -> used sb v' c = true <-> used sb v c = true /\
    ~ exists s, slot_ok s /\ saddr v (d_addrs (i_d x)) s <> 0 /\ c = saddr v (d_addrs (i_d x)) s;
  if_dino j : is_ino sb j -> dino sb v' j =
    if decide (j = i_inum x) then Dinode 0 (d_major (i_d x)) (d_minor (i_d x)) (d_nlink (i_d x)) 0 (replicate 13 0)
    else dino sb v j
}.

Lemma file_st_lock b v sf ics ip x l :
  file_st sb b v sf ics ip x -> file_st sb b v sf (<[ip := with_lock x l]> ics) ip (with_lock x l).
Proof.
  intros [A1 A2 A3 A4 A5 A6 A7 A8]. constructor; try done. apply list_lookup_insert_eq. by eapply lookup_lt_Some.
Qed.

Lemma iput_free b v sf ics ip x (Q : unit -> St -> Prop) :
  file_st sb b v sf ics ip x -> Sleep.locked (i_lock x) = false ->
  i_valid x = true -> d_nlink (i_d x) = 0 -> i_ref x = 1 ->
  (forall b' v' sf' x', ifreed v x v' -> bst b' v' ∅ sf' ∅ -> data_only sb ∅ sf' ->
     i_ref x' = 0 -> i_valid x' = false -> i_lock x' = Sleep.initsleeplock ->
     Q tt (FState b' (<[ip := x']> ics))) ->
  wp EP (iput pid sb ip) Q (FState b ics).
Proof using geo HE.
  intros Hf Hl Hv Hn Hr HQ. pose proof (fs_ip _ _ _ _ _ _ _ Hf) as Hip.
  unfold iput, lockinode, setinode. pose proof (lookup_lt_Some _ _ _ Hip) as Hlt.
  do 3 wp_step. rewrite (getinode_lookup _ _ _ _ Hip). unfold Sleep.acquiresleep. rewrite Hl. wp_step.
  cbn [f_blk f_inodes]. do 2 wp_step. set (x1 := with_lock x _).
  assert (<[ip := x1]> ics !! ip = Some x1) as Hip1 by by apply list_lookup_insert_eq.
  rewrite (getinode_lookup _ _ _ _ Hip1). cbn [x1 with_lock i_valid i_d]. rewrite Hv, Hn. cbn [Z.eqb andb].
  wp_step. apply wp_when; [intros _|done]. do 2 wp_step. rewrite (getinode_lookup _ _ _ _ Hip1).
  cbn [x1 with_lock i_ref]. rewrite Hr. apply wp_when; [intros _|done].
  wp_step. eapply (itrunc_spec sb geo EP HE); [by apply file_st_lock|].
  intros b2 v2 sf2 x2 Hb2 Hsf2 Hk2 Hu2 Hd2. wp_step. cbn [x1 with_lock i_d i_inum] in *.
  eapply wp_modinode; [by apply list_lookup_insert_eq; rewrite length_insert|].
  rewrite list_insert_insert_eq. wp_step. set (x3 := with_d x2 _).
  assert (data_only sb ∅ sf2) as Hdo2.
  { eapply trunc_data_only; [apply Hf|apply Hf|done]. }
  eapply (iupdate_spec sb geo EP HE _ v2 ∅ sf2 ∅ _ ip x3); [done|done| |apply Hf|apply Hf| |].
  { by apply list_lookup_insert_eq; rewrite length_insert. }
  { destruct (fs_dk _ _ _ _ _ _ _ Hf). constructor; try done. apply Forall_replicate. lia. }
  intros b4 v4 Hb4 [Hv4 Hd4].
  eapply wp_modinode; [by apply list_lookup_insert_eq; rewrite length_insert|].
  rewrite list_insert_insert_eq. wp_step.
  eapply wp_modinode; [by apply list_lookup_insert_eq; rewrite length_insert|]. rewrite list_insert_insert_eq.
  eapply wp_modinode; [by apply list_lookup_insert_eq; rewrite length_insert|]. rewrite !list_insert_insert_eq.
  eapply HQ; [|done|done| |done|done]; [|cbn; lia]. constructor.
  - intros a Ha Hne Hn12. rewrite Hv4 by done. by apply Hk2.
  - intros c Hc. rewrite <- (Hu2 c Hc).
    by rewrite (used_same sb v2) by (done || intros a Ha; apply Hv4; by apply (iblock_not_special sb geo); [apply Hf|left]).
  - intros j Hj. rewrite Hd4 by done. change (i_inum x3) with (i_inum x). case_decide; [done|].
    rewrite Hd2 by done. by rewrite decide_False.
Qed.
End specs.
