(* ===== verification/Pipe.v ===== *)
(** * Pipes ([kernel/pipe.c])

    The ring buffer with its 32-bit counters, [pipewrite], [piperead] and
    [pipeclose].  A call that sleeps is resumed where it slept: at the top of
    its [while] loop.  Processes sharing a pipe are a step relation; the ring
    buffer refines a queue of bytes. *)

From S2P Require Import Prelude Params.
Local Open Scope Z_scope.

Definition PIPESIZE : Z := 512.

Record pipe := Pipe {
  p_data : list Z;
  p_nread : Z;       (* number of bytes read *)
  p_nwrite : Z;      (* number of bytes written *)
  p_readopen : bool;
  p_writeopen : bool
}.

(** The pipe [pipealloc] makes of a page. *)
Definition pipe_init (page : list Z) : pipe := Pipe (take (Z.to_nat PIPESIZE) page) 0 0 true true.

(** [p->data[p->nwrite++ % PIPESIZE] = c] *)
Definition put (p : pipe) (c : Z) : pipe :=
  Pipe (<[Z.to_nat (p_nwrite p mod PIPESIZE) := c]> (p_data p)) (p_nread p) (u32 (p_nwrite p + 1))
       (p_readopen p) (p_writeopen p).

(** [p->data[p->nread++ % PIPESIZE]] *)
Definition get (p : pipe) : Z * pipe :=
  (default 0 (p_data p !! Z.to_nat (p_nread p mod PIPESIZE)),
   Pipe (p_data p) (u32 (p_nread p + 1)) (p_nwrite p) (p_readopen p) (p_writeopen p)).

Inductive wresult :=
| WDone (p : pipe)                      (* [wakeup(&p->nread)], return [n] *)
| WFail (p : pipe) (rest : list Z)      (* return -1; [rest] was not written *)
| WSleep (p : pipe) (rest : list Z).    (* [wakeup(&p->nread); sleep(&p->nwrite)] *)

(** [bs] are the bytes from [addr + i] to [addr + n]. *)
Fixpoint pipewrite (killed : bool) (p : pipe) (bs : list Z) : wresult :=
  match bs with
  | [] => WDone p
  | c :: bs' =>
      if p_nwrite p =? u32 (p_nread p + PIPESIZE) then
        if negb (p_readopen p) || killed then WFail p bs else WSleep p bs
      else pipewrite killed (put p c) bs'
  end.

Inductive rresult :=
| RDone (p : pipe) (bs : list Z)        (* [wakeup(&p->nwrite)], return the bytes *)
| RFail                                 (* return -1 *)
| RSleep.                               (* [sleep(&p->nread)] *)

Fixpoint read_loop (p : pipe) (n : nat) : pipe * list Z :=
  match n with
  | O => (p, [])
  | S n' =>
      if p_nread p =? p_nwrite p then (p, []) else
      let '(c, p1) := get p in
      let '(p2, bs) := read_loop p1 n' in
      (p2, c :: bs)
  end.

Definition piperead (killed : bool) (p : pipe) (n : Z) : rresult :=
  if (p_nread p =? p_nwrite p) && p_writeopen p then
    if killed then RFail else RSleep
  else let '(p', bs) := read_loop p (Z.to_nat n) in RDone p' bs.

(** The pipe after closing one end, and whether its page is freed. *)
Definition pipeclose (p : pipe) (writable : bool) : pipe * bool :=
  let p' := if writable then Pipe (p_data p) (p_nread p) (p_nwrite p) (p_readopen p) false
            else Pipe (p_data p) (p_nread p) (p_nwrite p) false (p_writeopen p) in
  (p', negb (p_readopen p') && negb (p_writeopen p')).

(** ** Processes that share a pipe *)

Inductive call :=
| CIdle
| CWrite (asleep : bool) (rest : list Z)
| CRead (asleep : bool) (n : Z).

(** A process: [killed], and its call. *)
Record thread := Thread { t_killed : bool; t_call : call }.

(** [wakeup(&p->nread)] and [wakeup(&p->nwrite)]. *)
Definition wake_readers (t : thread) : thread :=
  match t_call t with CRead _ n => Thread (t_killed t) (CRead false n) | _ => t end.
Definition wake_writers (t : thread) : thread :=
  match t_call t with CWrite _ bs => Thread (t_killed t) (CWrite false bs) | _ => t end.
(** [kill]: the process is marked and does not sleep on. *)
Definition kill_thread (t : thread) : thread :=
  Thread true (match t_call t with
               | CRead _ n => CRead false n
               | CWrite _ bs => CWrite false bs
               | CIdle => CIdle
               end).

Record psys := PSys {
  ps_pipe : pipe;
  ps_threads : list thread;
  ps_written : list Z;     (* all bytes put in the pipe *)
  ps_read : list Z         (* all bytes taken from it *)
}.

(** The part of [bs] that was put in the pipe when [rest] was not. *)
Definition done_part (bs rest : list Z) : list Z := take (length bs - length rest) bs.

Definition writing (t : thread) : bool := if t_call t is CWrite _ _ then true else false.
Definition reading (t : thread) : bool := if t_call t is CRead _ _ then true else false.

(** A process calls through an open file of the end; an end is closed when no
    process has such a file, hence none is in a call on it. *)
Inductive pstep : psys -> psys -> Prop :=
| ps_callw p ts w r i k bs :
    p_writeopen p = true -> ts !! i = Some (Thread k CIdle) ->
    pstep (PSys p ts w r) (PSys p (<[i := Thread k (CWrite false bs)]> ts) w r)
| ps_callr p ts w r i k n :
    p_readopen p = true -> ts !! i = Some (Thread k CIdle) ->
    pstep (PSys p ts w r) (PSys p (<[i := Thread k (CRead false n)]> ts) w r)
| ps_wdone p ts w r i k bs p' :
    ts !! i = Some (Thread k (CWrite false bs)) -> pipewrite k p bs = WDone p' ->
    pstep (PSys p ts w r) (PSys p' (wake_readers <$> <[i := Thread k CIdle]> ts) (w ++ bs) r)
| ps_wfail p ts w r i k bs p' rest :
    ts !! i = Some (Thread k (CWrite false bs)) -> pipewrite k p bs = WFail p' rest ->
    pstep (PSys p ts w r) (PSys p' (<[i := Thread k CIdle]> ts) (w ++ done_part bs rest) r)
| ps_wsleep p ts w r i k bs p' rest :
    ts !! i = Some (Thread k (CWrite false bs)) -> pipewrite k p bs = WSleep p' rest ->
    pstep (PSys p ts w r)
          (PSys p' (wake_readers <$> <[i := Thread k (CWrite true rest)]> ts) (w ++ done_part bs rest) r)
| ps_rdone p ts w r i k n p' bs :
    ts !! i = Some (Thread k (CRead false n)) -> piperead k p n = RDone p' bs ->
    pstep (PSys p ts w r) (PSys p' (wake_writers <$> <[i := Thread k CIdle]> ts) w (r ++ bs))
| ps_rfail p ts w r i k n :
    ts !! i = Some (Thread k (CRead false n)) -> piperead k p n = RFail ->
    pstep (PSys p ts w r) (PSys p (<[i := Thread k CIdle]> ts) w r)
| ps_rsleep p ts w r i k n :
    ts !! i = Some (Thread k (CRead false n)) -> piperead k p n = RSleep ->
    pstep (PSys p ts w r) (PSys p (<[i := Thread k (CRead true n)]> ts) w r)
| ps_close p ts w r (writable : bool) :
    Forall (fun t => (if writable then writing t else reading t) = false) ts ->
    pstep (PSys p ts w r)
          (PSys (pipeclose p writable).1 ((if writable then wake_readers else wake_writers) <$> ts) w r)
| ps_kill p ts w r i t :
    ts !! i = Some t -> pstep (PSys p ts w r) (PSys p (<[i := kill_thread t]> ts) w r).

(** A new pipe and [m] processes. *)
Definition psys_init (page : list Z) (m : nat) : psys :=
  PSys (pipe_init page) (replicate m (Thread false CIdle)) [] [].

(** ** The ring buffer is a queue *)

(** The number of bytes in the pipe; the counters wrap around. *)
Definition pcount (p : pipe) : Z := u32 (p_nwrite p - p_nread p).

(** The queue the pipe represents. *)
Definition queue (p : pipe) : list Z :=
  (fun i => default 0 (p_data p !! Z.to_nat ((p_nread p + i) mod PIPESIZE))) <$> seqZ 0 (pcount p).

Record pipe_ok (p : pipe) : Prop := {
  po_len : length (p_data p) = Z.to_nat PIPESIZE;
  po_nread : 0 <= p_nread p < 2 ^ 32;
  po_nwrite : 0 <= p_nwrite p < 2 ^ 32;
  po_count : pcount p <= PIPESIZE
}.

Lemma length_queue p : pipe_ok p -> Z.of_nat (length (queue p)) = pcount p.
Proof.
  intros Hp. unfold queue. rewrite length_fmap, length_seqZ. unfold pcount, u32. lia.
Qed.

Lemma full_count p : pipe_ok p -> (p_nwrite p =? u32 (p_nread p + PIPESIZE)) = (pcount p =? PIPESIZE).
Proof. intros [_ H1 H2 H3]. unfold pcount, u32, PIPESIZE in *. lia. Qed.

Lemma empty_count p : pipe_ok p -> (p_nread p =? p_nwrite p) = (pcount p =? 0).
Proof. intros [_ H1 H2 H3]. unfold pcount, u32, PIPESIZE in *. lia. Qed.

(** The place of byte [i] in the ring; the wrap of the counters does not show,
    since 512 divides [2 ^ 32]. *)
Lemma mod_wrap x : u32 x mod PIPESIZE = x mod PIPESIZE.
Proof. unfold u32, PIPESIZE. lia. Qed.

Lemma put_ok p c : pipe_ok p -> pcount p < PIPESIZE -> pipe_ok (put p c) /\ queue (put p c) = queue p ++ [c].
Proof.
  intros Hp Hc. pose proof Hp as [Hl H1 H2 H3].
  assert (pcount (put p c) = pcount p + 1) as Hn by (unfold pcount, put, u32, PIPESIZE in *; cbn; lia).
  split.
  - constructor; [cbn; by rewrite length_insert|done|cbn; unfold u32; lia|]. rewrite Hn. lia.
  - assert (0 <= pcount p) as H0 by (unfold pcount, u32; lia).
    unfold queue. rewrite Hn, seqZ_app by lia. rewrite fmap_app. f_equal.
    + apply list_fmap_ext. intros j i Hi. apply lookup_seqZ in Hi as [-> Hi]. cbn [put p_data p_nread].
      rewrite list_lookup_insert_ne; [done|]. unfold pcount, u32, PIPESIZE in *. lia.
    + rewrite seqZ_cons by lia. change (seqZ _ (Z.pred 1)) with (@nil Z). cbn [fmap list_fmap put p_data p_nread].
      assert ((p_nread p + (0 + pcount p)) mod PIPESIZE = p_nwrite p mod PIPESIZE) as ->.
      { unfold pcount, u32, PIPESIZE in *. lia. }
      rewrite list_lookup_insert_eq; [done|]. unfold PIPESIZE in *. lia.
Qed.

Lemma get_ok p : pipe_ok p -> 0 < pcount p ->
  pipe_ok (get p).2 /\ queue p = (get p).1 :: queue (get p).2.
Proof.
  intros Hp Hc. pose proof Hp as [Hl H1 H2 H3].
  assert (pcount (get p).2 = pcount p - 1) as Hn by (unfold pcount, get, u32, PIPESIZE in *; cbn; lia).
  split.
  - constructor; [done|cbn; unfold u32; lia|done|]. rewrite Hn. lia.
  - unfold queue. rewrite Hn, seqZ_cons by lia. cbn [fmap list_fmap get fst snd p_data p_nread].
    rewrite Z.add_0_r. f_equal. change (Z.succ 0) with (1 + 0). rewrite <- fmap_add_seqZ.
    change (Z.pred (pcount p)) with (pcount p - 1).
    rewrite <- list_fmap_compose. apply list_fmap_ext. intros j i Hi. cbn.
    do 3 f_equal. unfold u32, PIPESIZE. lia.
Qed.

(** [pipewrite] on the queue. *)
Lemma pipewrite_spec k bs : forall p, pipe_ok p ->
  match pipewrite k p bs with
  | WDone p' => pipe_ok p' /\ queue p' = queue p ++ bs
  | WFail p' rest => pipe_ok p' /\ pcount p' = PIPESIZE /\ p_readopen p && negb k = false /\
      exists pre, bs = pre ++ rest /\ rest <> [] /\ queue p' = queue p ++ pre
  | WSleep p' rest => pipe_ok p' /\ pcount p' = PIPESIZE /\ p_readopen p' = true /\
      exists pre, bs = pre ++ rest /\ rest <> [] /\ queue p' = queue p ++ pre
  end.
Proof.
  induction bs as [|c bs IH]; intros p Hp; cbn [pipewrite]; [by rewrite app_nil_r|].
  rewrite full_count by done. destruct (pcount p =? PIPESIZE) eqn:E.
  - apply Z.eqb_eq in E. destruct (negb (p_readopen p) || k) eqn:E2.
    + repeat (split; [done|]). split; [by destruct (p_readopen p), k|]. exists []. by rewrite app_nil_r.
    + repeat (split; [done|]). split; [by destruct (p_readopen p)|]. exists []. by rewrite app_nil_r.
  - apply Z.eqb_neq in E. destruct (put_ok p c Hp) as [Hp1 Hq1]; [pose proof (po_count _ Hp); lia|].
    specialize (IH _ Hp1). rewrite Hq1 in IH. destruct (pipewrite k (put p c) bs) as [p'|p' rest|p' rest].
    + by rewrite <- app_assoc in IH.
    + destruct IH as (A & B & C & pre & -> & D & F). repeat (split; [done|]). exists (c :: pre).
      by rewrite <- app_assoc in F.
    + destruct IH as (A & B & C & pre & -> & D & F). repeat (split; [done|]). exists (c :: pre).
      by rewrite <- app_assoc in F.
Qed.

Lemma read_loop_spec n : forall p, pipe_ok p ->
  let '(p', bs) := read_loop p n in
  pipe_ok p' /\ queue p = bs ++ queue p' /\ length bs = Nat.min n (length (queue p)) /\
  p_writeopen p' = p_writeopen p.
Proof.
  induction n as [|n IH]; intros p Hp; cbn [read_loop]; [done|].
  rewrite empty_count by done. destruct (pcount p =? 0) eqn:E.
  - apply Z.eqb_eq in E. pose proof (length_queue p Hp). split; [done|]. split; [done|]. split; [|done]. cbn [length]. lia.
  - apply Z.eqb_neq in E. destruct (get_ok p Hp) as [Hp1 Hq1]; [unfold pcount, u32 in *; lia|].
    rewrite (surjective_pairing (get p)). specialize (IH _ Hp1). destruct (read_loop (get p).2 n) as [p' bs].
    destruct IH as (A & B & C & D). split; [done|]. rewrite Hq1, B. split; [done|]. split; [|done].
    rewrite B in C. cbn [length]. rewrite C. lia.
Qed.

Lemma pipewrite_opens k bs : forall p p',
  (pipewrite k p bs = WDone p' \/ exists rest, pipewrite k p bs = WFail p' rest \/ pipewrite k p bs = WSleep p' rest) ->
  p_readopen p' = p_readopen p /\ p_writeopen p' = p_writeopen p.
Proof.
  induction bs as [|c bs IH]; intros p p' H; cbn [pipewrite] in H.
  - destruct H as [[= <-]|(rest & [H|H])]; done.
  - destruct (_ =? _); [|by apply (IH (put p c))]. destruct (_ || _).
    all: by destruct H as [[=]|(rest & [[=]|[=]])]; subst.
Qed.

Lemma read_loop_opens n : forall p, p_readopen (read_loop p n).1 = p_readopen p.
Proof.
  induction n as [|n IH]; intros p; cbn [read_loop]; [done|]. destruct (_ =? _); [done|].
  rewrite (surjective_pairing (get p)). specialize (IH (get p).2). by destruct (read_loop (get p).2 n).
Qed.

Lemma done_part_app pre rest : done_part (pre ++ rest) rest = pre.
Proof. unfold done_part. rewrite length_app, Nat.add_sub. apply take_app_length. Qed.

(** ** Invariants of the processes *)

Definition fifo (s : psys) : Prop :=
  pipe_ok (ps_pipe s) /\ ps_written s = ps_read s ++ queue (ps_pipe s).

Lemma fifo_step s s' : pstep s s' -> fifo s -> fifo s'.
Proof.
  intros Hst. unfold fifo. destruct Hst; cbn [ps_pipe ps_written ps_read]; intros [Hp Hq]; try done.
  - match goal with H : pipewrite _ _ _ = _ |- _ => pose proof (pipewrite_spec k bs p Hp) as S; rewrite H in S end.
    destruct S as (A & B). by rewrite B, Hq, app_assoc.
  - match goal with H : pipewrite _ _ _ = _ |- _ => pose proof (pipewrite_spec k bs p Hp) as S; rewrite H in S end.
    destruct S as (A & _ & _ & pre & -> & _ & B). by rewrite done_part_app, B, Hq, app_assoc.
  - match goal with H : pipewrite _ _ _ = _ |- _ => pose proof (pipewrite_spec k bs p Hp) as S; rewrite H in S end.
    destruct S as (A & _ & _ & pre & -> & _ & B). by rewrite done_part_app, B, Hq, app_assoc.
  - match goal with H : piperead _ _ _ = _ |- _ => unfold piperead in H; revert H end.
    destruct (_ && _); [by destruct k|]. pose proof (read_loop_spec (Z.to_nat n) p Hp) as S.
    destruct (read_loop p (Z.to_nat n)) as [p2 bs2]. intros [= -> ->]. destruct S as (A & B & _ & _).
    by rewrite Hq, B, app_assoc.
  - unfold pipeclose. destruct writable; destruct Hp as [A B C D]; done.
Qed.

Lemma pipe_init_ok page : (Z.to_nat PIPESIZE <= length page)%nat -> pipe_ok (pipe_init page).
Proof. intros H. constructor; try done. cbn [pipe_init p_data]. rewrite length_take. lia. Qed.

(** A sleeping reader has an empty pipe, a sleeping writer a full one, and the
    other end is open. *)
Definition thread_ok (p : pipe) (t : thread) : Prop :=
  match t_call t with
  | CIdle => True
  | CRead a _ => p_readopen p = true /\ (a = true -> queue p = [] /\ p_writeopen p = true)
  | CWrite a _ => p_writeopen p = true /\ (a = true -> pcount p = PIPESIZE /\ p_readopen p = true)
  end.

Definition no_kills (s : psys) : Prop := Forall (fun t => t_killed t = false) (ps_threads s).
Definition awake (s : psys) : Prop := no_kills s -> Forall (thread_ok (ps_pipe s)) (ps_threads s).

Lemma Forall_insert_inv {A} (P : A -> Prop) l i x y :
  l !! i = Some y -> (P x -> P y) -> Forall P (<[i := x]> l) -> Forall P l.
Proof.
  intros Hy Hxy. rewrite !Forall_lookup. intros H j z Hj.
  destruct (decide (j = i)) as [->|Hne]; [|by apply (H j); rewrite list_lookup_insert_ne].
  rewrite Hy in Hj. injection Hj as <-. apply Hxy, (H i). apply list_lookup_insert_eq. by eapply lookup_lt_Some.
Qed.

Lemma wake_killed t : t_killed (wake_readers t) = t_killed t /\ t_killed (wake_writers t) = t_killed t.
Proof. destruct t as [k []]; done. Qed.

Lemma no_kills_back s s' : pstep s s' -> no_kills s' -> no_kills s.
Proof.
  unfold no_kills. set (K := fun t => t_killed t = false).
  assert (forall ts, Forall K (wake_readers <$> ts) <-> Forall K ts) as Hr.
  { intros ts. rewrite Forall_fmap. apply Forall_iff. intros t. unfold K. cbn. by rewrite (proj1 (wake_killed t)). }
  assert (forall ts, Forall K (wake_writers <$> ts) <-> Forall K ts) as Hw.
  { intros ts. rewrite Forall_fmap. apply Forall_iff. intros t. unfold K. cbn. by rewrite (proj2 (wake_killed t)). }
  intros Hst. destruct Hst; cbn [ps_threads]; try destruct writable; cbn [fmap]; rewrite ?Hr, ?Hw; try done.
  all: match goal with H : _ !! _ = Some _ |- _ => apply (Forall_insert_inv K _ _ _ _ H) end; unfold K; cbn; congruence.
Qed.

(** How the threads see a step: the one that ran and the others. *)
Lemma threads_step p p' (f : thread -> thread) ts i x :
  Forall (thread_ok p) ts -> thread_ok p' (f x) ->
  (forall t, t ∈ ts -> thread_ok p t -> thread_ok p' (f t)) -> Forall (thread_ok p') (f <$> <[i := x]> ts).
Proof.
  intros Hts Hx Hf. apply Forall_fmap, Forall_insert; [|done].
  apply Forall_forall. intros t Ht. apply Hf; [done|]. rewrite Forall_forall in Hts. by apply Hts.
Qed.

Lemma full_put p bs p' :
  pipe_ok p -> pipe_ok p' -> queue p' = queue p ++ bs -> pcount p = PIPESIZE -> pcount p' = PIPESIZE.
Proof.
  intros Hp Hp' Hq Hc. pose proof (length_queue p Hp). pose proof (length_queue p' Hp') as Hl.
  rewrite Hq, length_app in Hl. pose proof (po_count _ Hp'). lia.
Qed.

(** The other threads when one writes, and when one reads. *)
Lemma put_others p p' bs t :
  pipe_ok p -> pipe_ok p' -> queue p' = queue p ++ bs ->
  p_readopen p' = p_readopen p -> p_writeopen p' = p_writeopen p ->
  thread_ok p t -> thread_ok p' (wake_readers t).
Proof.
  intros Hp Hp' Hq Er Ew. destruct t as [k [|a b|a n]]; cbn; rewrite ?Er, ?Ew; [done| |intros [A _]; by split].
  intros [A B]. split; [done|]. intros ->. destruct B as [B C]; [done|]. split; [by apply (full_put p bs)|done].
Qed.

Lemma get_others p p' n bs t :
  pipe_ok p -> piperead false p n = RDone p' bs -> thread_ok p t -> thread_ok p' (wake_writers t).
Proof.
  intros Hp. unfold piperead. destruct (_ && _); [done|].
  pose proof (read_loop_spec (Z.to_nat n) p Hp) as Hs. pose proof (read_loop_opens (Z.to_nat n) p) as Er.
  destruct (read_loop p (Z.to_nat n)) as [p2 bs2]. cbn in Er. intros [= -> ->]. destruct Hs as (Hp' & Hq & _ & Ew).
  destruct t as [k [|a b|a m]]; cbn; rewrite ?Er, ?Ew; [done|intros [A _]; by split|].
  intros [A B]. split; [done|]. intros ->. destruct B as [B C]; [done|]. split; [|done].
  rewrite B in Hq. symmetry in Hq. by destruct bs.
Qed.

Lemma awake_step s s' : pstep s s' -> fifo s -> awake s -> awake s'.
Proof.
  intros Hst [Hp _] Ha Hk'. pose proof (no_kills_back _ _ Hst Hk') as Hk. specialize (Ha Hk). unfold awake in Ha.
  unfold no_kills in Hk. destruct Hst; cbn [ps_pipe ps_threads] in *.
  all: try match goal with H : _ !! _ = Some ?t |- _ =>
    assert (thread_ok p t) as Ht by (by eapply Forall_lookup_1);
    assert (k = false) as -> by (by apply (Forall_lookup_1 _ _ _ _ Hk H)) end.
  all: try (match goal with H : pipewrite _ _ _ = _ |- _ => pose proof (pipewrite_spec false bs p Hp) as S; rewrite H in S;
      destruct (pipewrite_opens false bs p p') as [Er Ew]; [by eauto|] end).
  - apply Forall_insert; [done|]. split; [done|]. done.
  - apply Forall_insert; [done|]. split; [done|]. done.
  - destruct S as [Hp' Hq]. apply (threads_step p); [done|done|]. intros t _. by apply (put_others p p' bs).
  - destruct S as (_ & _ & E & _). rewrite andb_true_r in E.
    apply Forall_insert; [|done]. eapply Forall_impl; [exact Ha|]. intros [k' [|a b|a n]]; cbn; rewrite ?Er, ?Ew, ?E.
    + done.
    + intros [A B]. split; [done|]. intros ->. by destruct B.
    + by intros [A _].
  - destruct S as (Hp' & Hc & E & pre & _ & _ & Hq). apply (threads_step p); [done| |intros t _; by apply (put_others p p' pre)].
    cbn. rewrite Ew. by destruct Ht.
  - apply (threads_step p); [done|done|]. intros t _. by eapply get_others.
  - by apply Forall_insert.
  - apply Forall_insert; [done|]. cbn. destruct Ht as [A _]. split; [done|]. intros _.
    match goal with H : piperead _ _ _ = _ |- _ => unfold piperead in H; revert H end.
    rewrite empty_count by done. destruct (pcount p =? 0) eqn:E; [|by destruct (read_loop _ _)].
    destruct (p_writeopen p) eqn:E2; [|by destruct (read_loop _ _)]. intros _. split; [|done].
    apply nil_length_inv. pose proof (length_queue p Hp). lia.
  - clear Hk. apply Forall_fmap. apply Forall_forall. intros t Ht. rewrite Forall_forall in Ha. specialize (Ha _ Ht).
    match goal with H : Forall _ ts |- _ => rewrite Forall_forall in H; specialize (H _ Ht) as Hn end.
    revert Ha Hn. destruct t as [k' [|a b|a n]], writable; cbn; try done; intros [A _] _; by split.
  - exfalso. apply (Forall_lookup_1 _ _ i (kill_thread t)) in Hk'; [done|].
    apply list_lookup_insert_eq. by eapply lookup_lt_Some.
Qed.

Lemma psys_invariant page m s :
  (Z.to_nat PIPESIZE <= length page)%nat -> rtc pstep (psys_init page m) s -> fifo s /\ awake s.
Proof.
  intros Hl Hr. refine (rtc_ind_r (fun s => fifo s /\ awake s) (psys_init page m) _ _ s Hr).
  - split; [by split; [apply pipe_init_ok|]|]. intros _. apply Forall_replicate. done.
  - intros s1 s2 _ Hst [Hf Ha]. split; [by eapply fifo_step|by eapply awake_step].
Qed.

(** C17: a pipe is a first-in first-out queue.  However the calls of the
    processes interleave, sleep, are killed or close an end: the bytes put in
    the pipe are the bytes read followed by those in the buffer, which are at
    most 512.  The counters may have wrapped around. *)
Theorem pipe_fifo page m s :
  (512 <= length page)%nat -> rtc pstep (psys_init page m) s ->
  ps_written s = ps_read s ++ queue (ps_pipe s) /\ (length (queue (ps_pipe s)) <= 512)%nat.
Proof.
  intros Hl Hr. destruct (psys_invariant page m s Hl Hr) as [[Hp Hq] _]. split; [done|].
  pose proof (length_queue _ Hp). pose proof (po_count _ Hp). unfold PIPESIZE in *. lia.
Qed.

(** C16: no wakeup is lost between processes that are not killed: a process
    asleep in [piperead] has nothing to read and writers to wait for, one
    asleep in [pipewrite] has no room and readers to wait for. *)
Theorem pipe_no_lost_wakeup page m s i t :
  (512 <= length page)%nat -> rtc pstep (psys_init page m) s -> no_kills s -> ps_threads s !! i = Some t ->
  match t_call t with
  | CRead true _ => queue (ps_pipe s) = [] /\ p_writeopen (ps_pipe s) = true
  | CWrite true _ => length (queue (ps_pipe s)) = 512%nat /\ p_readopen (ps_pipe s) = true
  | _ => True
  end.
Proof.
  intros Hl Hr Hk Ht. destruct (psys_invariant page m s Hl Hr) as [[Hp Hq] Ha].
  pose proof (Forall_lookup_1 _ _ _ _ (Ha Hk) Ht) as Hok. unfold thread_ok in Hok.
  destruct (t_call t) as [|[] rest|[] n]; [done| |done| |done]; destruct Hok as [_ Hok].
  - destruct Hok as [Hc Hro]; [done|]. split; [|done]. pose proof (length_queue _ Hp). unfold PIPESIZE in *. lia.
  - by apply Hok.
Qed.

(** ** Runs *)

Definition sample_pipe : pipe := pipe_init (replicate 512 0).

(** Five bytes written, three read. *)
Lemma sample_run : rtc pstep (psys_init (replicate 512 0) 2)
  (PSys (get (get (get (put (put (put (put (put sample_pipe 1) 2) 3) 4) 5)).2).2).2
        [Thread false CIdle; Thread false CIdle] [1; 2; 3; 4; 5] [1; 2; 3]).
Proof.
  eapply rtc_l; [by apply (ps_callw _ _ _ _ 0%nat false [1; 2; 3; 4; 5])|].
  eapply rtc_l; [by apply (ps_wdone _ _ _ _ 0%nat false [1; 2; 3; 4; 5])|].
  eapply rtc_l; [by apply (ps_callr _ _ _ _ 1%nat false 3)|].
  eapply rtc_l; [by apply (ps_rdone _ _ _ _ 1%nat false 3)|]. apply rtc_refl.
Qed.

Lemma pipe_fifo_witness : exists s,
  rtc pstep (psys_init (replicate 512 0) 2) s /\ ps_written s = ps_read s ++ queue (ps_pipe s) /\
  ps_read s = [1; 2; 3] /\ ps_written s = [1; 2; 3; 4; 5].
Proof.
  destruct (pipe_fifo (replicate 512 0) 2 _ ltac:(by vm_compute) sample_run) as [E _].
  eexists. split; [apply sample_run|]. split; [exact E|done].
Defined.

(** A reader on an empty pipe. *)
Lemma sample_sleep : rtc pstep (psys_init (replicate 512 0) 1)
  (PSys sample_pipe [Thread false (CRead true 10)] [] []).
Proof.
  eapply rtc_l; [by apply (ps_callr _ _ _ _ 0%nat false 10)|].
  eapply rtc_l; [by apply (ps_rsleep _ _ _ _ 0%nat false 10)|]. apply rtc_refl.
Qed.

Lemma pipe_no_lost_wakeup_witness : exists s,
  rtc pstep (psys_init (replicate 512 0) 1) s /\ ps_threads s !! 0%nat = Some (Thread false (CRead true 10)) /\
  queue (ps_pipe s) = [].
Proof.
  pose proof (pipe_no_lost_wakeup (replicate 512 0) 1 _ 0 _ ltac:(by vm_compute) sample_sleep
    ltac:(by repeat constructor) eq_refl) as [E _].
  eexists. split; [apply sample_sleep|]. split; [done|exact E].
Defined.

Definition strand_bytes : list Z := replicate 513 7.
Definition strand_pipe : pipe := foldl put sample_pipe (replicate 512 7).

(** C38: the exception to [pipe_no_lost_wakeup].  A reader sleeps on the empty
    pipe; a process that has been killed writes 513 bytes: [pipewrite] puts
    512 of them in the pipe and returns -1 without a wakeup.  The reader sleeps
    on with a full pipe before it, and no other process is in a call. *)
Theorem pipe_killed_writer_strands_reader :
  rtc pstep (psys_init (replicate 512 0) 2)
    (PSys strand_pipe [Thread false (CRead true 10); Thread true CIdle] (replicate 512 7) []) /\
  length (queue strand_pipe) = 512%nat.
Proof.
  split; [|by vm_compute].
  eapply rtc_l; [by apply (ps_callr _ _ _ _ 0%nat false 10)|].
  eapply rtc_l; [by apply (ps_rsleep _ _ _ _ 0%nat false 10)|].
  eapply rtc_l; [by apply (ps_callw _ _ _ _ 1%nat false strand_bytes)|].
  eapply rtc_l; [by apply (ps_kill _ _ _ _ 1%nat (Thread false (CWrite false strand_bytes)))|].
  eapply rtc_l; [apply (ps_wfail _ _ _ _ 1%nat true strand_bytes strand_pipe [7]); [done|by vm_compute]|].
  apply rtc_refl.
Qed.
