(* ===== verification/Path.v ===== *)
(** * Path names ([kernel/fs.c]: [skipelem], [namex], [namei], [nameiparent])

    A path is the list of its bytes up to the terminating zero. *)

From S2P Require Import Prelude Params CString Locks Bio Log Crash Block Balloc Inode Bmap Content Itrunc Dir Icache.
Local Open Scope Z_scope.
Local Open Scope kmonad_scope.

Definition slash : Z := 47.

(** [while( *path == '/') path++] *)
Fixpoint skip_slashes (path : list Z) : list Z :=
  match path with
  | c :: path' => if c =? slash then skip_slashes path' else path
  | [] => []
  end.

(** [while( *path != '/' && *path != 0) path++]: the bytes passed and the rest. *)
Fixpoint take_elem (path : list Z) : list Z * list Z :=
  match path with
  | c :: path' =>
      if (c =? slash) || (c =? 0) then ([], path)
      else let '(s, r) := take_elem path' in (c :: s, r)
  | [] => ([], [])
  end.

(** The rest of the path, and the buffer [name]: an element shorter than
    [DIRSIZ] is terminated, what follows in the buffer stays. *)
Definition skipelem (path name : list Z) : option (list Z * list Z) :=
  let path := skip_slashes path in
  if chd path =? 0 then None else
  let '(s, path) := take_elem path in
  let name := if DIRSIZ <=? Z.of_nat (length s) then take (Z.to_nat DIRSIZ) s
              else s ++ 0 :: drop (S (length s)) name in
  Some (skip_slashes path, name).

Section operations.
Context {BS : Type} `{!BlockLayer BS}.
Context (pid : Z) (sb : superblock) (cwd : nat).
Abbreviation St := (fstate BS).
Context (devsw_read : Z -> option (nat -> Z -> M St (Z * list Z))).

(** The loop of [namex]; each turn removes at least one byte of the path. *)
Fixpoint namex_loop (fuel : nat) (path : list Z) (nameiparent : bool) (name : list Z) (ip : nat)
    : M St (option (nat * list Z)) :=
  match skipelem path name, fuel with
  | Some (path', name'), S fuel' =>
      ilock pid sb ip;;
      x <- gets (getinode ip);;
      if negb (d_type (i_d x) =? T_DIR) then
        iunlockput pid sb ip;; ret None
      else if nameiparent && (chd path' =? 0) then
        (* Stop one level early. *)
        iunlock pid ip;; ret (Some (ip, name'))
      else
        r <- dirlookup sb devsw_read ip name';;
        match r with
        | None => iunlockput pid sb ip;; ret None
        | Some (next, _) => iunlockput pid sb ip;; namex_loop fuel' path' nameiparent name' next
        end
  | _, _ =>
      if nameiparent then iput pid sb ip;; ret None else ret (Some (ip, name))
  end.

Definition namex (path : list Z) (nameiparent : bool) (name : list Z) : M St (option (nat * list Z)) :=
  ip <- (if chd path =? slash then iget ROOTDEV ROOTINO else idup cwd);;
  namex_loop (length path) path nameiparent name ip.

Definition namei (path : list Z) : M St (option nat) :=
  r <- namex path false (replicate (Z.to_nat DIRSIZ) 0);;
  ret (fst <$> r).

(** The parent's inode and the last element. *)
Definition nameiparent (path name : list Z) : M St (option (nat * list Z)) := namex path true name.
End operations.

(** ** The elements of a path *)

(** The reference: the maximal runs of bytes other than [/]. *)
Fixpoint components_from (cur path : list Z) : list (list Z) :=
  match path with
  | [] => if decide (cur = []) then [] else [cur]
  | c :: path' =>
      if c =? slash then (if decide (cur = []) then [] else [cur]) ++ components_from [] path'
      else components_from (cur ++ [c]) path'
  end.
Definition components (path : list Z) : list (list Z) := components_from [] path.

(** The names a walk over the path reads from the buffer. *)
Fixpoint walk (fuel : nat) (path name : list Z) : list (list Z) :=
  match skipelem path name, fuel with
  | Some (path', name'), S fuel' => cstr (Z.to_nat DIRSIZ) name' :: walk fuel' path' name'
  | _, _ => []
  end.

Definition nonzero (path : list Z) : Prop := Forall (fun c => c <> 0) path.

Lemma components_skip path : components (skip_slashes path) = components path.
Proof.
  induction path as [|c path IH]; [done|]. cbn [skip_slashes]. destruct (c =? slash) eqn:E; [|done].
  rewrite IH. unfold components at 2. cbn [components_from]. by rewrite E.
Qed.

Lemma components_elem path : nonzero path -> forall cur,
  components_from cur path =
  (if decide (cur ++ (take_elem path).1 = []) then [] else [cur ++ (take_elem path).1]) ++
  components (take_elem path).2.
Proof.
  induction path as [|c path IH]; intros Hz cur; cbn [components_from take_elem].
  - cbn [fst snd]. rewrite !app_nil_r. unfold components. by destruct (decide (cur = [])).
  - apply Forall_cons in Hz as [Hc Hz]. destruct (c =? slash) eqn:E; cbn [orb].
    + cbn [fst snd]. rewrite !app_nil_r. unfold components. cbn [components_from]. by rewrite E.
    + rewrite (proj2 (Z.eqb_neq _ _) Hc). rewrite IH by done. destruct (take_elem path) as [s r]. cbn [fst snd].
      by rewrite <- app_assoc.
Qed.

Lemma take_elem_split path : (take_elem path).1 ++ (take_elem path).2 = path.
Proof.
  induction path as [|c path IH]; [done|]. cbn [take_elem]. destruct (_ || _); [done|].
  destruct (take_elem path) as [s r]. cbn in *. by rewrite IH.
Qed.

Lemma skip_slashes_suffix path : exists pre, path = pre ++ skip_slashes path.
Proof.
  induction path as [|c path [pre IH]]; [by exists []|]. cbn [skip_slashes]. destruct (c =? slash); [|by exists []].
  exists (c :: pre). by rewrite IH at 1.
Qed.

Lemma skip_slashes_head path : chd (skip_slashes path) <> slash.
Proof.
  induction path as [|c path IH]; [done|]. cbn [skip_slashes]. destruct (c =? slash) eqn:E; [done|]. by apply Z.eqb_neq.
Qed.

Lemma cstr_element s rest :
  Forall (fun c => c <> 0) s ->
  cstr 14 (if DIRSIZ <=? Z.of_nat (length s) then take 14 s else s ++ 0 :: rest) = take 14 s.
Proof.
  change DIRSIZ with 14. intros Hs.
  assert (forall n s r, Forall (fun c => c <> 0) s -> (length s < n)%nat -> cstr n (s ++ 0 :: r) = s) as H1.
  { induction n as [|n IH]; intros t r Ht Hl; [lia|]. destruct t as [|c t]; [done|].
    apply Forall_cons in Ht as [Hc Ht]. cbn. rewrite (proj2 (Z.eqb_neq _ _) Hc). f_equal. apply IH; [done|]. cbn in Hl. lia. }
  assert (forall n s, Forall (fun c => c <> 0) s -> cstr n (take n s) = take n s) as H2.
  { induction n as [|n IH]; intros t Ht; [done|]. destruct t as [|c t]; [done|].
    apply Forall_cons in Ht as [Hc Ht]. cbn. rewrite (proj2 (Z.eqb_neq _ _) Hc). f_equal. by apply IH. }
  destruct (14 <=? _) eqn:E; [by apply H2|]. rewrite H1, take_ge by (done || lia). done.
Qed.

(** One turn: the first component and the path without it, which is shorter. *)
Lemma skipelem_spec path name :
  nonzero path ->
  match skipelem path name with
  | None => components path = []
  | Some (path', name') => exists s, components path = s :: components path' /\
      cstr (Z.to_nat DIRSIZ) name' = take 14 s /\ nonzero path' /\ (length path' < length path)%nat /\
      chd path' <> slash
  end.
Proof.
  intros Hz. unfold skipelem. rewrite <- components_skip.
  destruct (skip_slashes_suffix path) as [pre Ep]. pose proof (skip_slashes_head path) as Hh.
  assert (nonzero (skip_slashes path)) as Hz' by (unfold nonzero in *; rewrite Ep in Hz; by apply Forall_app in Hz as [_ ?]).
  destruct (skip_slashes path) as [|c p] eqn:Ec; [done|]. change (chd (c :: p)) with c in *.
  assert (c <> 0) as Hc by by apply Forall_cons in Hz' as [? _].
  rewrite (proj2 (Z.eqb_neq _ _) Hc).
  pose proof (components_elem (c :: p) Hz' []) as Hcomp. pose proof (take_elem_split (c :: p)) as Hsp.
  cbn [take_elem] in *. rewrite (proj2 (Z.eqb_neq _ _) Hh), (proj2 (Z.eqb_neq _ _) Hc) in *. cbn [orb] in *.
  destruct (take_elem p) as [s r]. cbn [fst snd app] in *. rewrite decide_False in Hcomp by done.
  injection Hsp as Hsp. destruct (skip_slashes_suffix r) as [pre2 Er].
  assert (nonzero (c :: s) /\ nonzero r) as [Hzs Hzr].
  { unfold nonzero in *. rewrite <- Hsp, app_comm_cons, Forall_app in Hz'. done. }
  exists (c :: s). rewrite components_skip. split; [done|]. split; [by apply (cstr_element (c :: s))|]. split.
  - unfold nonzero in *. rewrite Er in Hzr. by apply Forall_app in Hzr as [_ ?].
  - split; [|apply skip_slashes_head]. apply (f_equal length) in Er, Hsp, Ep.
    rewrite !length_app in Er, Hsp, Ep. cbn [length] in Ep. lia.
Qed.

Lemma walk_components fuel : forall path name,
  nonzero path -> (length path <= fuel)%nat -> walk fuel path name = take 14 <$> components path.
Proof.
  induction fuel as [|fuel IH]; intros path name Hz Hl; cbn [walk]; pose proof (skipelem_spec path name Hz) as Hs.
  all: destruct (skipelem path name) as [[path' name']|]; [|by rewrite Hs].
  - destruct Hs as (s & _ & _ & _ & Hlt & _). lia.
  - destruct Hs as (s & -> & -> & Hz' & Hlt & _). rewrite IH by (done || lia). done.
Qed.

(** C31: a walk over a path with [skipelem] reads the components of the path in
    order, each cut to 14 bytes; whatever the buffer [name] held, and with as
    many turns as the path has bytes. *)
Theorem skipelem_components path name :
  nonzero path -> walk (length path) path name = take 14 <$> components path.
Proof. intros Hz. by apply walk_components. Qed.

(** [///a//bb], with a dirty buffer. *)
Lemma skipelem_components_witness :
  walk 8 [47; 47; 47; 97; 47; 47; 98; 98] (replicate 14 9) = [[97]; [98; 98]].
Proof. apply (skipelem_components [47; 47; 47; 97; 47; 47; 98; 98]). by repeat constructor. Defined.
