(* ===== verification/Namei.v ===== *)
(** * Resolution of path names

    [namex] against the directory tree of the disk: [resolve] follows the
    components through the directories' contents; [namex] returns a referenced
    entry for that inode, with the references it took on the way given back. *)

From S2P Require Import Prelude Params CString Locks Bio Log Crash Block Balloc Inode Bmap Content Itrunc Dir Icache Path.
Local Open Scope Z_scope.
Local Open Scope kmonad_scope.

Section namei.
Context {BS : Type} `{!BlockLayer BS} `{!BlockLaws BS}.
Context (sb : superblock) (geo : fsgeo sb).
Context (EP : string -> Prop) (HE : forall msg, res_panic msg -> EP msg).
Context (HE3 : EP "iget: no inodes"%string).
Context (pid : Z).
Abbreviation St := (fstate BS).

(** The entries of directory [i]. *)
Definition dir_entries (v : Z -> list Z) (i : Z) : list (Z * list Z) := entries (contents v (dino sb v i)).

(** The inode of a path that starts in directory [i]; of its parent, and the
    last component, if [np]. *)
Fixpoint resolve (np : bool) (v : Z -> list Z) (i : Z) (cs : list (list Z)) : option (Z * list Z) :=
  match cs with
  | [] => if np then None else Some (i, [])
  | c :: cs' =>
      if negb (d_type (dino sb v i) =? T_DIR) then None
      else if np && bool_decide (cs' = []) then Some (i, c)
      else match find_name c (dir_entries v i) with
           | Some (_, j) => resolve np v j cs'
           | None => None
           end
  end.

(** An inode a directory may name. *)
Definition linked (v : Z -> list Z) (i : Z) : Prop :=
  is_ino sb i /\ d_type (dino sb v i) <> 0 /\ d_nlink (dino sb v i) <> 0.

(** A directory on the disk. *)
Record dir_ok (v : Z -> list Z) (sf : gset Z) (i : Z) : Prop := {
  dr_tree : tree_ok sb v (d_addrs (dino sb v i)) sf;
  dr_dk : dinode_ok (dino sb v i);
  dr_max : d_size (dino sb v i) <= MAXFILE * BSIZE;
  dr_mapped : mapped v (d_addrs (dino sb v i)) (d_size (dino sb v i));
  dr_size : d_size (dino sb v i) mod 16 = 0;
  dr_names k e : dir_entries v i !! k = Some e -> e.1 <> 0 -> linked v e.1
}.

(** The table of inodes: entry [L] is locked by this process, the others by
    none; a valid entry is the disk's inode. *)
Record table_ok (v : Z -> list Z) (ics : list inode) (L : option nat) : Prop := {
  tb_ic : ic_ok ics;
  tb_lock ip x : ics !! ip = Some x ->
    i_lock x = if decide (L = Some ip) then Sleep.Sleeplock true pid else Sleep.initsleeplock;
  tb_used ip x : ics !! ip = Some x -> 0 < i_ref x -> i_dev x = 1 /\ is_ino sb (i_inum x);
  tb_valid ip x : ics !! ip = Some x -> 0 < i_ref x -> i_valid x = true -> i_d x = dino sb v (i_inum x)
}.

Record tree_fs (b : BS) (v : Z -> list Z) (sf : gset Z) : Prop := {
  tf_bst : bst b v ∅ sf ∅;
  tf_data : data_only sb ∅ sf;
  tf_meta : meta_used sb v;
  tf_dirs i : linked v i -> d_type (dino sb v i) = T_DIR -> dir_ok v sf i
}.

Lemma refs_other d n i x y :
  i_dev y = i_dev x -> i_inum y = i_inum x -> i_ref y = i_ref x + i -> 0 < i_ref x -> 0 <= i_ref y ->
  entry_refs d n y - entry_refs d n x = if decide (d = i_dev x /\ n = i_inum x) then i else 0.
Proof. intros H1 H2 H3 H4 H5. unfold entry_refs. repeat case_decide; unfold is_entry in *; lia. Qed.

(** Changing an entry in use without changing which inode it is for. *)
Lemma table_update v ics L L' ip x y :
  table_ok v ics L -> ics !! ip = Some x -> 0 < i_ref x -> 0 <= i_ref y ->
  i_dev y = i_dev x -> i_inum y = i_inum x ->
  i_lock y = (if decide (L' = Some ip) then Sleep.Sleeplock true pid else Sleep.initsleeplock) ->
  (forall j, j <> ip -> L' = Some j <-> L = Some j) ->
  (i_valid y = true -> i_d y = dino sb v (i_inum x)) ->
  table_ok v (<[ip := y]> ics) L'.
Proof.
  intros [[A1 A2] A3 A4 A5] Hx Hr Hr' Hd Hn Hl HL Hv. constructor; [constructor|..].
  - intros i z [(-> & <- & _)|[_ Hz]]%list_lookup_insert_Some; [done|by eapply A1].
  - assert (forall j z d n, <[ip := y]> ics !! j = Some z -> is_entry d n z ->
      exists z', ics !! j = Some z' /\ is_entry d n z') as Hback.
    { intros j z d n [(-> & <- & _)|[_ Hz]]%list_lookup_insert_Some; [|by eauto].
      intros (_ & <- & <-). exists x. by rewrite Hd, Hn. }
    intros i j z z' d n Hz Hz' Ez Ez'. destruct (Hback _ _ _ _ Hz Ez) as (? & ? & ?).
    destruct (Hback _ _ _ _ Hz' Ez') as (? & ? & ?). by eapply (A2 i j).
  - intros j z [(-> & <- & _)|[Hne Hz]]%list_lookup_insert_Some; [done|]. rewrite (A3 j z Hz).
    specialize (HL j ltac:(congruence)). repeat case_decide; tauto.
  - intros j z [(-> & <- & _)|[_ Hz]]%list_lookup_insert_Some; [|by apply (A4 j)]. intros _. rewrite Hd, Hn. by eapply A4.
  - intros j z [(-> & <- & _)|[_ Hz]]%list_lookup_insert_Some; [|by apply (A5 j)]. intros _ Hvy. rewrite Hn. by apply Hv.
Qed.

(** [iget] keeps the table in order. *)
Lemma table_got v ics L j ip ics' :
  table_ok v ics L -> is_ino sb j -> got ics 1 j ip ics' -> table_ok v ics' L.
Proof.
  intros T Hj [G1 (x & x' & Hx & -> & He & Hc) G3]. pose proof T as [A2 A3 A4 A5].
  destruct Hc as [[Hx' ->]|(H0 & _ & ->)].
  - destruct Hx' as (Hr & _). eapply table_update; try done; [cbn; lia|exact (A3 _ _ Hx)|]. intros Hv. by apply (A5 _ _ Hx).
  - constructor; [done|..].
    + intros i z [(-> & <- & _)|[_ Hz]]%list_lookup_insert_Some; [exact (A3 _ _ Hx)|by apply A3].
    + intros i z [(-> & <- & _)|[_ Hz]]%list_lookup_insert_Some; [done|by apply (A4 i)].
    + intros i z [(-> & <- & _)|[_ Hz]]%list_lookup_insert_Some; [done|by apply (A5 i)].
Qed.

Lemma tree_fs_bst b b' v sf : tree_fs b v sf -> bst b' v ∅ sf ∅ -> tree_fs b' v sf.
Proof. by intros [A1 A2 A3 A4] Hb. Qed.

Lemma ns_ilock b v sf ics ip x (Q : unit -> St -> Prop) :
  tree_fs b v sf -> table_ok v ics None -> ics !! ip = Some x -> 0 < i_ref x -> linked v (i_inum x) ->
  (forall b' ics' x', tree_fs b' v sf -> table_ok v ics' (Some ip) -> ics' !! ip = Some x' ->
     i_d x' = dino sb v (i_inum x) -> i_valid x' = true -> i_inum x' = i_inum x -> i_ref x' = i_ref x ->
     (forall d n, refs ics' d n = refs ics d n) -> Q tt (FState b' ics')) ->
  wp EP (ilock pid sb ip) Q (FState b ics).
Proof using geo HE.
  intros Hfs Ht Hx Hr (Hi & Hty & Hnl) HQ. destruct (tb_used _ _ _ Ht _ _ Hx Hr) as [Hd _].
  assert ((if i_valid x then i_d x else dino sb v (i_inum x)) = dino sb v (i_inum x)) as Ed.
  { destruct (i_valid x) eqn:E; [by apply (tb_valid _ _ _ Ht ip)|done]. }
  eapply (ilock_spec pid sb geo EP HE); try done; [apply Hfs|apply Hfs|by rewrite (tb_lock _ _ _ Ht _ _ Hx)|by rewrite Ed|].
  intros b' Hb'. rewrite Ed. set (x' := Inode _ _ _ _ _ _).
  eapply (HQ _ _ x'); [by eapply tree_fs_bst| | |done|done|done|done|].
  - eapply table_update; try done; [cbn; lia|by rewrite decide_True|]. intros j Hj. split; congruence.
  - apply list_lookup_insert_eq. by eapply lookup_lt_Some.
  - intros d n. rewrite (refs_insert _ _ x) by done. pose proof (refs_other d n 0 x x') as E.
    cbn [x' i_ref i_dev i_inum] in E. case_decide; lia.
Qed.

Lemma ns_iunlockput b v ics ip x (Q : unit -> St -> Prop) :
  table_ok v ics (Some ip) -> ics !! ip = Some x -> 0 < i_ref x -> i_valid x = true ->
  i_d x = dino sb v (i_inum x) -> linked v (i_inum x) ->
  (let ics' := <[ip := with_ref (with_lock x Sleep.initsleeplock) (i_ref x - 1)]> ics in
   table_ok v ics' None ->
   (forall d n, refs ics' d n = refs ics d n - if decide (d = 1 /\ n = i_inum x) then 1 else 0) ->
   Q tt (FState b ics')) ->
  wp EP (iunlockput pid sb ip) Q (FState b ics).
Proof using.
  intros Ht Hx Hr Hv Hd (Hi & Hty & Hnl) HQ. unfold iunlockput. wp_step.
  pose proof (tb_lock _ _ _ Ht _ _ Hx) as Hl. rewrite decide_True in Hl by done.
  eapply (iunlock_spec pid EP); [done|done|done|]. pose proof (lookup_lt_Some _ _ _ Hx) as Hlt.
  eapply (iput_keep sb EP pid); [by apply list_lookup_insert_eq|done| |].
  { cbn. rewrite Hv, Hd. by rewrite (proj2 (Z.eqb_neq _ _) Hnl). }
  rewrite list_insert_insert_eq. apply HQ.
  - eapply table_update; try done; [cbn; lia|]. intros j Hj. split; congruence.
  - intros d n. rewrite (refs_insert _ _ x) by done. destruct (tb_used _ _ _ Ht _ _ Hx Hr) as [Hdev _].
    pose proof (refs_other d n (-1) x (with_ref (with_lock x Sleep.initsleeplock) (i_ref x - 1))) as E.
    cbn [with_ref with_lock i_ref i_dev i_inum] in *. rewrite Hdev in E. repeat case_decide; lia.
Qed.

Lemma ns_iput b v ics ip x (Q : unit -> St -> Prop) :
  table_ok v ics None -> ics !! ip = Some x -> 0 < i_ref x -> linked v (i_inum x) ->
  (forall ics', table_ok v ics' None ->
   (forall d n, refs ics' d n = refs ics d n - if decide (d = 1 /\ n = i_inum x) then 1 else 0) ->
   Q tt (FState b ics')) ->
  wp EP (iput pid sb ip) Q (FState b ics).
Proof using.
  intros Ht Hx Hr (Hi & Hty & Hnl) HQ. pose proof (tb_lock _ _ _ Ht _ _ Hx) as Hl.
  eapply (iput_keep sb EP pid); [done|by rewrite Hl| |].
  { destruct (i_valid x) eqn:Hv; [|done]. rewrite (tb_valid _ _ _ Ht _ _ Hx Hr Hv).
    by rewrite (proj2 (Z.eqb_neq _ _) Hnl). }
  apply HQ.
  - eapply table_update; try done; [cbn; lia|]. intros Hv. by apply (tb_valid _ _ _ Ht _ _ Hx Hr Hv).
  - intros d n. rewrite (refs_insert _ _ x) by done. destruct (tb_used _ _ _ Ht _ _ Hx Hr) as [Hdev _].
    pose proof (refs_other d n (-1) x (with_ref (with_lock x Sleep.initsleeplock) (i_ref x - 1))) as E.
    cbn [with_ref with_lock i_ref i_dev i_inum] in *. rewrite Hdev in E. repeat case_decide; lia.
Qed.

Lemma find_name_ext n n' es : cstr 14 n = cstr 14 n' -> find_name n es = find_name n' es.
Proof.
  intros E. unfold find_name. assert (forall e, matches n e <-> matches n' e) as H by (intros e; unfold matches; by rewrite E).
  by rewrite (list_find_ext (matches n) (matches n')).
Qed.

(** The directory behind a locked entry. *)
Lemma ns_dir b v sf ics ip x :
  tree_fs b v sf -> table_ok v ics (Some ip) -> ics !! ip = Some x -> 0 < i_ref x ->
  i_d x = dino sb v (i_inum x) -> linked v (i_inum x) -> d_type (dino sb v (i_inum x)) = T_DIR ->
  dir_st sb b v sf ics ip x /\ dents v x = dir_entries v (i_inum x).
Proof using.
  intros Hfs Ht Hx Hr Hd Hl Hty. destruct (tf_dirs _ _ _ Hfs _ Hl Hty) as [D1 D2 D3 D4 D5 D6].
  destruct (tb_used _ _ _ Ht _ _ Hx Hr) as [Hdev Hi]. split; [|unfold dents, dir_entries; by rewrite Hd].
  constructor; [constructor; rewrite ?Hd; try done; constructor; try done; apply Hfs|by rewrite Hd|by rewrite Hd].
Qed.

Lemma components_nil path : nonzero path -> chd path <> slash -> (chd path =? 0) = bool_decide (components path = []).
Proof.
  destruct path as [|c path]; [done|]. intros Hz Hc. change (chd (c :: path)) with c in *.
  apply Forall_cons in Hz as [H0 Hz]. rewrite (proj2 (Z.eqb_neq _ _) H0). symmetry. apply bool_decide_eq_false.
  unfold components. cbn [components_from]. rewrite (proj2 (Z.eqb_neq _ _) Hc), components_elem by done.
  by rewrite decide_False.
Qed.

Lemma cstr_take n s : nonzero s -> cstr n s = take n s.
Proof.
  revert s. induction n as [|n IH]; intros [|c s] Hs; try done. apply Forall_cons in Hs as [Hc Hs].
  cbn. rewrite (proj2 (Z.eqb_neq _ _) Hc). f_equal. by apply IH.
Qed.

Lemma components_nonzero path : nonzero path -> forall cur c,
  nonzero cur -> c ∈ components_from cur path -> nonzero c.
Proof.
  induction path as [|a path IH]; intros Hz cur c Hcur; cbn [components_from].
  - case_decide; [by rewrite elem_of_nil|]. by intros ->%list_elem_of_singleton.
  - apply Forall_cons in Hz as [Ha Hz]. destruct (a =? slash).
    + case_decide; cbn [app]; [by apply IH; [|constructor]|].
      intros [->|Hc]%elem_of_cons; [done|]. by apply (IH Hz [] c); [constructor|].
    + apply IH; [done|]. apply Forall_app. split; [done|]. by constructor.
Qed.

Definition minus1 (i d n : Z) : Z := if decide (d = 1 /\ n = i) then 1 else 0.

(** What a call that resolves a path to [r] leaves behind, when it holds a
    reference to [i] at its start. *)
Record looked_up (v : Z -> list Z) (sf : gset Z) (ics : list inode) (i : Z) (np : bool)
    (r : option (Z * list Z)) (o : option (nat * list Z)) (s' : St) : Prop := {
  lu_fs : tree_fs (f_blk s') v sf;
  lu_table : table_ok v (f_inodes s') None;
  lu_res : match r, o with
           | None, None => forall d n, refs (f_inodes s') d n = refs ics d n - minus1 i d n
           | Some (j, c), Some (ip, name) =>
               (exists x, f_inodes s' !! ip = Some x /\ is_entry 1 j x) /\
               (np = true -> cstr 14 name = take 14 c) /\
               forall d n, refs (f_inodes s') d n = refs ics d n - minus1 i d n + minus1 j d n
           | _, _ => False
           end
}.

Lemma namex_end (np : bool) b v sf ics name ip x :
  tree_fs b v sf -> table_ok v ics None -> ics !! ip = Some x -> 0 < i_ref x -> linked v (i_inum x) ->
  wp EP (if np then iput pid sb ip;; ret None else ret (Some (ip, name)))
     (looked_up v sf ics (i_inum x) np (resolve np v (i_inum x) [])) (FState b ics).
Proof using.
  intros Hfs Ht Hx Hr Hl. destruct np; cbn [resolve].
  - wp_step. eapply (ns_iput _ v); [done..|]. intros ics' Ht' Href'. wp_step. by constructor.
  - wp_step. destruct (tb_used _ _ _ Ht _ _ Hx Hr) as [Hd _]. constructor; [done|done|]. cbn [f_inodes].
    split; [by exists x|]. split; [done|]. intros d n. lia.
Qed.

(** An entry in use after [iget] of some inode. *)
Lemma got_kept ics d n next ics' ip x :
  got ics d n next ics' -> ics !! ip = Some x -> 0 < i_ref x ->
  exists x', ics' !! ip = Some x' /\ i_d x' = i_d x /\ i_valid x' = i_valid x /\ i_inum x' = i_inum x /\
    i_ref x' = i_ref x + if decide (next = ip) then 1 else 0.
Proof using.
  intros [_ (y & y' & Hy & -> & He & Hc) _] Hx Hr. destruct (decide (next = ip)) as [->|Hne].
  - rewrite Hx in Hy. injection Hy as <-. exists y'.
    split; [apply list_lookup_insert_eq; by eapply lookup_lt_Some|].
    destruct Hc as [[_ ->]|(H0 & _)]; [done|lia].
  - exists x. rewrite list_lookup_insert_ne by done. rewrite Z.add_0_r. done.
Qed.

Lemma looked_up_from v sf ics ics' i j np r o s' :
  (forall d n, refs ics' d n = refs ics d n - minus1 i d n + minus1 j d n) ->
  looked_up v sf ics' j np r o s' -> looked_up v sf ics i np r o s'.
Proof using.
  intros H [A1 A2 A3]. constructor; [done|done|]. destruct r as [[k c]|], o as [[ip name]|]; try done.
  - destruct A3 as (B1 & B2 & B3). split; [done|]. split; [done|]. intros d n. rewrite B3, H. lia.
  - intros d n. rewrite A3, H. lia.
Qed.

Context (devr : Z -> option (nat -> Z -> M St (Z * list Z))).

Lemma namex_loop_spec np fuel : forall b v sf ics path name ip x,
  tree_fs b v sf -> table_ok v ics None -> ics !! ip = Some x -> 0 < i_ref x -> linked v (i_inum x) ->
  nonzero path -> (length path <= fuel)%nat ->
  wp EP (namex_loop pid sb devr fuel path np name ip)
     (looked_up v sf ics (i_inum x) np (resolve np v (i_inum x) (components path))) (FState b ics).
Proof using geo HE HE3.
  induction fuel as [|fuel IH]; intros b v sf ics path name ip x Hfs Ht Hx Hr Hl Hz Hlen; cbn [namex_loop].
  all: pose proof (skipelem_spec path name Hz) as Hs; destruct (skipelem path name) as [[path' name']|].
  { destruct Hs as (s & _ & _ & _ & Hlt & _). lia. }
  1,3: rewrite Hs; by apply namex_end.
  destruct Hs as (s & Ec & En & Hz' & Hlt & Hh). rewrite Ec. cbn [resolve].
  wp_step. eapply ns_ilock; [done..|]. intros b1 ics1 x1 Hfs1 Ht1 Hx1 Hd1 Hv1 Hi1 Hr1 Href1.
  do 2 wp_step. rewrite (getinode_lookup _ _ _ _ Hx1), Hd1.
  assert (forall b2 (Q : unit -> St -> Prop), (forall ics2, table_ok v ics2 None ->
    (forall d n, refs ics2 d n = refs ics d n - minus1 (i_inum x) d n) -> Q tt (FState b2 ics2)) ->
    wp EP (iunlockput pid sb ip) Q (FState b2 ics1)) as Hput.
  { intros b2 Q HQ. eapply (ns_iunlockput _ v); [done|done|lia|done|by rewrite Hi1|by rewrite Hi1|].
    intros ics2 Ht2 Href2. apply HQ; [done|]. intros d n. rewrite Href2, Href1, Hi1. done. }
  destruct (negb (d_type (dino sb v (i_inum x)) =? T_DIR)) eqn:Ed.
  { wp_step. apply Hput. intros ics2 Ht2 Href2. wp_step. by constructor. }
  apply negb_false_iff, Z.eqb_eq in Ed. rewrite (components_nil path') by done.
  destruct (np && bool_decide (components path' = [])) eqn:Enp.
  { apply andb_true_iff in Enp as [-> _]. wp_step.
    eapply (iunlock_spec pid EP); [done|by rewrite (tb_lock _ _ _ Ht1 _ _ Hx1), decide_True|lia|]. wp_step.
    destruct (tb_used _ _ _ Ht1 _ _ Hx1) as [Hdv _]; [lia|].
    constructor; cbn [f_blk f_inodes]; [done| |split; [|split; [done|]]].
    - eapply table_update; try done; [lia|cbn; lia| |].
      + intros j Hj. split; congruence.
      + intros _. by rewrite <- Hi1 in Hd1.
    - eexists. split; [apply list_lookup_insert_eq; by eapply lookup_lt_Some|].
      split; [cbn; lia|]. split; [done|exact Hi1].
    - intros d n. rewrite (refs_insert _ _ x1) by done. rewrite Href1.
      pose proof (refs_other d n 0 x1 (with_lock x1 Sleep.initsleeplock)) as E. cbn in E.
      case_decide; lia. }
  destruct (ns_dir b1 v sf ics1 ip x1) as [Hdir Hde]; [done|done|done|lia|by rewrite Hi1|by rewrite Hi1|by rewrite Hi1|].
  assert (find_name name' (dents v x1) = find_name s (dir_entries v (i_inum x))) as Hfn.
  { rewrite Hde, Hi1. apply find_name_ext. change (Z.to_nat DIRSIZ) with 14%nat in En. rewrite En. symmetry. apply cstr_take.
    apply (components_nonzero path Hz [] s); [constructor|]. change (components_from [] path) with (components path).
    rewrite Ec. by left. }
  wp_step. eapply (dirlookup_spec sb geo EP HE devr); [done| |].
  - intros Hnone b2 Hd2. rewrite Hfn in Hnone. rewrite Hnone. wp_step. apply Hput. intros ics2 Ht2 Href2. wp_step.
    constructor; [|done|done]. eapply tree_fs_bst; [done|]. apply Hd2.
  - intros k j b2 Hsome Hd2. assert (tree_fs b2 v sf) as Hfs2 by (eapply tree_fs_bst; [done|apply Hd2]).
    rewrite Hfn in Hsome. rewrite Hsome. assert (linked v j) as Hlj.
    { unfold find_name in Hsome. destruct (list_find _ _) as [[k' e]|] eqn:Ef; [|done]. injection Hsome as -> <-.
      apply list_find_Some in Ef as (Hk & [He _] & _). eapply (dr_names _ _ _ (tf_dirs _ _ _ Hfs _ Hl Ed)); done. }
    eapply iget_spec; [apply Ht1|done|]. intros next ics2 Hg.
    pose proof (table_got v ics1 (Some ip) j next ics2 Ht1 (proj1 Hlj) Hg) as Ht2.
    destruct (got_kept _ _ _ _ _ ip x1 Hg Hx1) as (x2 & Hx2 & Hd2' & Hv2 & Hi2 & Hr2); [lia|].
    cbn [f_blk f_inodes]. wp_step. rewrite Hi1 in Hi2.
    eapply (ns_iunlockput _ v); [done|done|case_decide; lia|congruence|congruence|congruence|].
    intros ics3 Ht3 Href3. destruct Hg as [_ (y & y' & Hy & Ey & He & _) Hrefg].
    assert (exists z, ics3 !! next = Some z /\ is_entry 1 j z) as (z & Hz3 & Hez).
    { unfold ics3. destruct (decide (next = ip)) as [->|Hne].
      - eexists. split; [apply list_lookup_insert_eq; by eapply lookup_lt_Some|].
        rewrite Ey, list_lookup_insert_eq in Hx2 by by eapply lookup_lt_Some. injection Hx2 as ->.
        destruct He as (_ & E1 & E2). split; [cbn; lia|done].
      - exists y'. rewrite list_lookup_insert_ne by done. split; [|done]. rewrite Ey.
        apply list_lookup_insert_eq. by eapply lookup_lt_Some. }
    destruct Hez as (Hrz & Hdz & Hiz). rewrite <- Hiz in *.
    eapply wp_post; [apply (IH b2 v sf ics3 path' name' next z); try done; lia|].
    intros o s'. apply looked_up_from. intros d n. rewrite Href3, Hrefg, Href1, Hi2. unfold minus1.
    repeat case_decide; lia.
Qed.

(** [namex]: the start of the path. *)
Definition start_ok (v : Z -> list Z) (ics : list inode) (cwd : nat) (path : list Z) (i : Z) : Prop :=
  linked v i /\
  if chd path =? slash then i = ROOTINO
  else exists x, ics !! cwd = Some x /\ 0 < i_ref x /\ i_inum x = i.

Lemma namex_spec np b v sf ics cwd path name i :
  tree_fs b v sf -> table_ok v ics None -> start_ok v ics cwd path i -> nonzero path ->
  wp EP (namex pid sb cwd devr path np name) (fun o s' => exists ics1,
    (forall d n, refs ics1 d n = refs ics d n + minus1 i d n) /\
    looked_up v sf ics1 i np (resolve np v i (components path)) o s') (FState b ics).
Proof using geo HE HE3.
  intros Hfs Ht [Hl Hst] Hz. unfold namex. wp_step.
  assert (forall ics1 ip x, table_ok v ics1 None -> ics1 !! ip = Some x -> is_entry 1 i x ->
    (forall d n, refs ics1 d n = refs ics d n + minus1 i d n) ->
    wp EP (namex_loop pid sb devr (length path) path np name ip) (fun o s' => exists ics1,
      (forall d n, refs ics1 d n = refs ics d n + minus1 i d n) /\
      looked_up v sf ics1 i np (resolve np v i (components path)) o s') (FState b ics1)) as Hgo.
  { intros ics1 ip x Ht1 Hx (Hr & _ & <-) Href. eapply wp_post; [by apply (namex_loop_spec np _ b v sf ics1 path name ip x)|].
    intros o s' Hlu. by exists ics1. }
  destruct (chd path =? slash).
  - subst i. eapply iget_spec; [apply Ht|done|]. intros ip ics1 Hg.
    pose proof (table_got v ics None _ ip ics1 Ht (proj1 Hl) Hg) as Ht1.
    destruct Hg as [_ (y & y' & Hy & Ey & He & _) Hrefg].
    apply (Hgo ics1 ip y'); [done| |done|done]. rewrite Ey. apply list_lookup_insert_eq. by eapply lookup_lt_Some.
  - destruct Hst as (x & Hx & Hr & <-). destruct (tb_used _ _ _ Ht _ _ Hx Hr) as [Hdev _].
    pose proof (got_hit ics 1 (i_inum x) cwd x (tb_ic _ _ _ Ht) Hx ltac:(done)) as Hg.
    unfold idup. wp_step. eapply (wp_modinode EP); [done|]. wp_step.
    eapply (Hgo _ cwd (with_ref x (i_ref x + 1))); [by eapply table_got; [|apply Hl|]|..].
    + apply list_lookup_insert_eq. by eapply lookup_lt_Some.
    + split; [cbn; lia|done].
    + intros d n. apply Hg.
Qed.
End namei.
