(* ===== verification/Syscall.v ===== *)
(** * System call arguments ([kernel/syscall.c])

    The process's memory is the list of its [sz] bytes; user addresses are
    indices into it.  [argint], [argptr] and [argstr] read the arguments from
    the user stack and check them. *)

From S2P Require Import Prelude Params.
Local Open Scope Z_scope.

(** What the kernel sees of the calling process: [0 .. sz) and [tf->esp]. *)
Record user := User { u_mem : list Z; u_esp : Z }.

Definition u_sz (u : user) : Z := Z.of_nat (length (u_mem u)).

Definition fetchint (u : user) (addr : Z) : option Z :=
  if (u_sz u <=? addr) || (u_sz u <? u32 (addr + 4)) then None
  else Some (s32 (le_val (sub (u_mem u) (Z.to_nat addr) 4))).

(** [for(s = *pp; s < ep; s++) if( *s == 0) return s - *pp] *)
Fixpoint find_nul (l : list Z) : option (list Z) :=
  match l with
  | [] => None
  | c :: l' => if c =? 0 then Some [] else (fun s => c :: s) <$> find_nul l'
  end.

(** The string itself in place of the pointer to it. *)
Definition fetchstr (u : user) (addr : Z) : option (list Z) :=
  if u_sz u <=? addr then None else find_nul (drop (Z.to_nat addr) (u_mem u)).

Definition argint (u : user) (n : Z) : option Z := fetchint u (u32 (u_esp u + 4 + 4 * n)).

Definition argptr (u : user) (n size : Z) : option Z :=
  match argint u n with
  | None => None
  | Some i =>
      if (size <? 0) || (u_sz u <=? u32 i) || (u_sz u <? u32 (u32 i + size)) then None
      else Some (u32 i)
  end.

Definition argstr (u : user) (n : Z) : option (list Z) :=
  match argint u n with
  | None => None
  | Some addr => fetchstr u (u32 addr)
  end.

(** ** Bounds *)

Definition user_ok (u : user) : Prop := bytes (u_mem u) /\ u_sz u <= KERNBASE /\ 0 <= u_esp u < 2 ^ 32.

Lemma find_nul_spec l s :
  find_nul l = Some s <-> Forall (fun c => c <> 0) s /\ exists r, l = s ++ 0 :: r.
Proof.
  revert s. induction l as [|c l IH]; intros s; cbn [find_nul].
  - split; [done|]. intros (_ & r & H). by destruct s.
  - destruct (c =? 0) eqn:E.
    + apply Z.eqb_eq in E as ->. split; [intros [= <-]; split; [constructor|by exists l]|].
      intros (Hs & r & H). destruct s as [|c s]; [done|]. injection H as <- _. by apply Forall_cons in Hs as [? _].
    + apply Z.eqb_neq in E. rewrite fmap_Some. split.
      * intros (s' & (Hs & r & ->)%IH & ->). split; [by constructor|]. by exists r.
      * intros (Hs & r & H). destruct s as [|c' s]; [by injection H as ->|]. injection H as <- ->.
        exists s. split; [|done]. apply IH. apply Forall_cons in Hs as [_ Hs]. split; [done|by exists r].
Qed.

Lemma fetchint_spec u a i :
  user_ok u -> 0 <= a < 2 ^ 32 ->
  fetchint u a = Some i <-> a + 4 <= u_sz u /\ i = s32 (le_val (sub (u_mem u) (Z.to_nat a) 4)).
Proof.
  intros (_ & Hk & _) Ha. unfold fetchint. assert (KERNBASE = 2 ^ 31) as EK by done.
  destruct (_ || _) eqn:E; unfold u32 in E.
  - split; [done|]. intros [H _]. exfalso. lia.
  - split; [intros [= <-]; split; [lia|done]|]. by intros [_ ->].
Qed.

(** C32: a pointer argument that [argptr] accepts is a block that lies inside the
    process's memory, and every such block is accepted; a string argument is
    terminated inside it; an integer argument is read from inside it.  The
    32-bit sums in the checks do not wrap. *)
Theorem syscall_args_in_bounds u n :
  user_ok u -> 0 <= n < 64 -> u_esp u + 4 + 4 * n < 2 ^ 32 ->
  (forall i, argint u n = Some i <->
     u_esp u + 4 + 4 * n + 4 <= u_sz u /\
     i = s32 (le_val (sub (u_mem u) (Z.to_nat (u_esp u + 4 + 4 * n)) 4))) /\
  (forall size p, - 2 ^ 31 <= size < 2 ^ 31 -> argptr u n size = Some p <->
     exists i, argint u n = Some i /\ p = u32 i /\ 0 <= size /\ 0 <= p < u_sz u /\ p + size <= u_sz u) /\
  (forall s, argstr u n = Some s <->
     exists i r, argint u n = Some i /\ Forall (fun c => c <> 0) s /\ u32 i < u_sz u /\
       drop (Z.to_nat (u32 i)) (u_mem u) = s ++ 0 :: r).
Proof.
  intros Hu Hn He. pose proof Hu as (Hb & Hk & Hesp). assert (KERNBASE = 2 ^ 31) as EK by done.
  split; [|split].
  - intros i. unfold argint. rewrite u32_small by lia. apply fetchint_spec; [done|lia].
  - intros size p Hs. unfold argptr. destruct (argint u n) as [i|]; [|split; [done|by intros (i & ? & _)]].
    destruct (_ || _) eqn:E; unfold u32 in *.
    + split; [done|]. intros (i' & [= <-] & -> & H1 & H2 & H3). exfalso. lia.
    + split; [intros [= <-]; exists i; split; [done|]; lia|]. by intros (i' & [= <-] & -> & _).
  - intros s. unfold argstr, fetchstr. destruct (argint u n) as [i|]; [|split; [done|by intros (i & r & ? & _)]].
    destruct (u_sz u <=? u32 i) eqn:E.
    + split; [done|]. intros (i' & r & [= <-] & _ & H & _). lia.
    + rewrite find_nul_spec. split.
      * intros (Hs & r & Hr). exists i, r. split; [done|]. split; [done|]. split; [lia|done].
      * intros (i' & r & [= <-] & Hs & _ & Hr). split; [done|]. by exists r.
Qed.

(** A process of 32 bytes: a pointer argument 24 on the stack at 0. *)
Definition sample_user : user := User (replicate 4 0 ++ le_bytes 4 24 ++ replicate 16 0 ++ [65; 66; 0; 0; 0; 0; 0; 0]) 0.

Lemma syscall_args_in_bounds_witness :
  argptr sample_user 0 8 = Some 24 /\ argptr sample_user 0 9 = None /\ argstr sample_user 0 = Some [65; 66].
Proof.
  destruct (syscall_args_in_bounds sample_user 0) as (H1 & H2 & H3).
  { split; [|by split; vm_compute]. repeat constructor; cbn; lia. } { lia. } { done. }
  split; [apply H2; [lia|]; exists 24; by vm_compute|]. split.
  - destruct (argptr sample_user 0 9) eqn:E; [|done]. apply H2 in E as (i & E1 & -> & _ & _ & E2); [|lia].
    injection E1 as <-. vm_compute in E2. done.
  - apply H3. exists 24, [0; 0; 0; 0; 0]. split; [done|]. split; [by repeat constructor|]. split; [by vm_compute|done].
Defined.
