(* ===== verification/Cipher.v ===== *)
(** * The Caesar cipher of the file system calls ([kernel/sysfile.c])

    [sys_encr] and [sys_write] shift bytes up by [encr_key], [sys_decr] and
    [sys_read] shift them down.  [char] is signed, [int] arithmetic wraps and
    [%] truncates towards zero, as with the compiler the kernel is built with. *)

From S2P Require Import Prelude Params.
Local Open Scope Z_scope.
Local Ltac Zify.zify_post_hook ::= Z.to_euclidean_division_equations.

(** [(p[i] + encr_key) % 128] *)
Definition enc_byte (key c : Z) : Z := u8 (Z.rem (s32 (s8 c + key)) 128).
(** [(p[i] - encr_key + 128) % 128] *)
Definition dec_byte (key c : Z) : Z := u8 (Z.rem (s32 (s32 (s8 c - key) + 128)) 128).

Lemma enc_is_byte key c : is_byte (enc_byte key c).
Proof. apply u8_is_byte. Qed.

Lemma dec_is_byte key c : is_byte (dec_byte key c).
Proof. apply u8_is_byte. Qed.

Lemma enc_ascii key c : 0 <= c < 128 -> 0 <= key < 2 ^ 31 - 128 -> enc_byte key c = (c + key) mod 128.
Proof.
  intros Hc Hk. unfold enc_byte. rewrite s8_ascii by done. rewrite s32_small by lia.
  rewrite Z.rem_mod_nonneg by lia. apply u8_small. lia.
Qed.

Lemma dec_7bit key e : 0 <= e < 128 -> 0 <= key <= 128 -> dec_byte key e = (e - key) mod 128.
Proof.
  intros He Hk. unfold dec_byte. rewrite s8_ascii by done. rewrite (s32_small (e - key)) by lia.
  rewrite s32_small, Z.rem_mod_nonneg by lia. unfold u8. lia.
Qed.

(** C36: the keys for which every ASCII text is recovered are exactly 0 to 128
    among the non-negative ones; [sys_setkey] accepts any [int]. *)
Theorem cipher_keys key :
  0 <= key < 2 ^ 31 - 128 ->
  (forall c, 0 <= c < 128 -> dec_byte key (enc_byte key c) = c) <-> key <= 128.
Proof.
  intros Hk. split.
  - intros H. destruct (decide (key <= 128)) as [|Hgt]; [done|exfalso].
    set (e := if decide (key mod 128 = 0) then 1 else 0).
    set (c := (e - key) mod 128). assert (0 <= c < 128) as Hc by (unfold c; lia). specialize (H c Hc).
    rewrite enc_ascii in H by lia. assert ((c + key) mod 128 = e) as Ee by (unfold c, e; case_decide; lia).
    rewrite Ee in H. assert (0 <= e <= 1) as He by (unfold e; case_decide; lia).
    unfold dec_byte in H. rewrite s8_ascii in H by lia. rewrite (s32_small (e - key)), s32_small in H by lia.
    assert (Z.rem (e - key + 128) 128 < 0 \/ e - key + 128 = 0) as Hr by (unfold e in *; case_decide; lia).
    unfold u8 in H. unfold c, e in *. case_decide; lia.
  - intros Hle c Hc. rewrite enc_ascii by lia. rewrite dec_7bit by lia. lia.
Qed.

Lemma cipher_keys_witness :
  dec_byte 100 (enc_byte 100 65) = 65 /\ ~ (forall c, 0 <= c < 128 -> dec_byte 300 (enc_byte 300 c) = c).
Proof.
  split; [apply (cipher_keys 100); lia|]. intros H. apply (cipher_keys 300) in H; lia.
Defined.
