(* ===== verification/File.v ===== *)
(** * Open files ([kernel/file.c], and [pipealloc] of [kernel/pipe.c])

    The table of open files over the file system, the pipes and the page
    allocator.  [devsw], the table of device drivers, is a parameter. *)

From S2P Require Import Prelude Params CString Locks Kalloc Bio Log Crash Block Balloc Inode Bmap Content Pipe Syscall.
Local Open Scope Z_scope.
Local Open Scope kmonad_scope.

Inductive fdtype := FD_NONE | FD_PIPE | FD_INODE.

(** [struct file]; a pipe is named by the address of its page. *)
Record file := File {
  f_type : fdtype;
  f_ref : Z;
  f_readable : bool;
  f_writable : bool;
  f_pipe : Z;
  f_ip : nat;
  f_off : Z
}.

Definition empty_file : file := File FD_NONE 0 false false 0 0 0.
Definition ftable_init : list file := replicate (Z.to_nat NFILE) empty_file.

(** The kernel as a system call of one process sees it. *)
Record kstate := KState {
  k_fs : fstate lstate;
  k_kmem : kmem;
  k_files : list file;              (* [ftable] *)
  k_pipes : gmap Z pipe;
  k_user : user;                    (* the process's memory *)
  k_ofile : list (option nat);      (* [proc->ofile] *)
  k_cwd : nat;                      (* [proc->cwd] *)
  k_killed : bool;                  (* [proc->killed] *)
  k_key : Z                         (* [encr_key] *)
}.

Definition set_fs (x : fstate lstate) (s : kstate) : kstate :=
  KState x (k_kmem s) (k_files s) (k_pipes s) (k_user s) (k_ofile s) (k_cwd s) (k_killed s) (k_key s).
Definition set_kmem (x : kmem) (s : kstate) : kstate :=
  KState (k_fs s) x (k_files s) (k_pipes s) (k_user s) (k_ofile s) (k_cwd s) (k_killed s) (k_key s).
Definition set_files (x : list file) (s : kstate) : kstate :=
  KState (k_fs s) (k_kmem s) x (k_pipes s) (k_user s) (k_ofile s) (k_cwd s) (k_killed s) (k_key s).
Definition set_pipes (x : gmap Z pipe) (s : kstate) : kstate :=
  KState (k_fs s) (k_kmem s) (k_files s) x (k_user s) (k_ofile s) (k_cwd s) (k_killed s) (k_key s).
Definition set_user (x : user) (s : kstate) : kstate :=
  KState (k_fs s) (k_kmem s) (k_files s) (k_pipes s) x (k_ofile s) (k_cwd s) (k_killed s) (k_key s).
Definition set_ofile (x : list (option nat)) (s : kstate) : kstate :=
  KState (k_fs s) (k_kmem s) (k_files s) (k_pipes s) (k_user s) x (k_cwd s) (k_killed s) (k_key s).
Definition set_cwd (x : nat) (s : kstate) : kstate :=
  KState (k_fs s) (k_kmem s) (k_files s) (k_pipes s) (k_user s) (k_ofile s) x (k_killed s) (k_key s).

Definition onfs {A} (m : M (fstate lstate) A) : M kstate A := lift k_fs set_fs m.
Definition onkmem {A} (m : M kmem A) : M kstate A := lift k_kmem set_kmem m.

Definition getfile (f : nat) (s : kstate) : file := default empty_file (k_files s !! f).
Definition setfile (f : nat) (x : file) : M kstate unit :=
  modify (fun s => set_files (<[f := x]> (k_files s)) s).
Definition setpipe (a : Z) (p : pipe) : M kstate unit :=
  modify (fun s => set_pipes (<[a := p]> (k_pipes s)) s).

Definition file_ref (x : file) r := File (f_type x) r (f_readable x) (f_writable x) (f_pipe x) (f_ip x) (f_off x).
Definition file_off (x : file) o := File (f_type x) (f_ref x) (f_readable x) (f_writable x) (f_pipe x) (f_ip x) o.

Section operations.
Context (pid : Z) (sb : superblock) (kend : Z).
#[local] Hint Extern 0 (BlockLayer lstate) => exact (log_layer pid) : typeclass_instances.
Abbreviation FS := (fstate lstate).
Context (devsw_read : Z -> option (nat -> Z -> M FS (Z * list Z))).
Context (devsw_write : Z -> option (nat -> list Z -> Z -> M FS Z)).

Definition filealloc : M kstate (option nat) :=
  fs <- gets k_files;;
  match list_find (fun x => f_ref x = 0) fs with
  | Some (f, x) => setfile f (file_ref x 1);; ret (Some f)
  | None => ret None
  end.

Definition filedup (f : nat) : M kstate nat :=
  x <- gets (getfile f);;
  if f_ref x <? 1 then panic "filedup" else
  setfile f (file_ref x (f_ref x + 1));; ret f.

(** [pipeclose]: the pipe's page goes back to the allocator with its last end. *)
Definition pipe_close (a : Z) (writable : bool) : M kstate unit :=
  ps <- gets k_pipes;;
  match ps !! a with
  | None => ret tt
  | Some p =>
      let '(p', last) := pipeclose p writable in
      if last then modify (set_pipes (delete a ps));; onkmem (kfree kend a)
      else setpipe a p'
  end.

Definition fileclose (f : nat) : M kstate unit :=
  x <- gets (getfile f);;
  if f_ref x <? 1 then panic "fileclose" else
  if 0 <? f_ref x - 1 then setfile f (file_ref x (f_ref x - 1)) else
  setfile f (File FD_NONE 0 (f_readable x) (f_writable x) (f_pipe x) (f_ip x) (f_off x));;
  match f_type x with
  | FD_PIPE => pipe_close (f_pipe x) (f_writable x)
  | FD_INODE =>
      onfs (onblk begin_op);;
      onfs (iput pid sb (f_ip x));;
      onfs (onblk (end_op pid))
  | FD_NONE => ret tt
  end.

(** [*st], or nothing where the source returns -1. *)
Definition filestat (f : nat) : M kstate (option (Z * Z * Z * Z * Z)) :=
  x <- gets (getfile f);;
  match f_type x with
  | FD_INODE =>
      onfs (ilock pid sb (f_ip x));;
      st <- gets (fun s => stati (getinode (f_ip x) (k_fs s)));;
      onfs (iunlock pid (f_ip x));;
      ret (Some st)
  | _ => ret None
  end.

(** [f->off += r] if [r > 0]. *)
Definition advance (f : nat) (r : Z) : M kstate unit :=
  when (0 <? r) (x <- gets (getfile f);; setfile f (file_off x (u32 (f_off x + r)))).

(** The result and the bytes stored at [addr]. *)
Definition fileread (f : nat) (n : Z) : M kstate (Z * list Z) :=
  x <- gets (getfile f);;
  if negb (f_readable x) then ret (-1, []) else
  match f_type x with
  | FD_PIPE =>
      ps <- gets k_pipes;;
      killed <- gets k_killed;;
      match ps !! f_pipe x with
      | None => ret (-1, [])
      | Some p =>
          match piperead killed p n with
          | RDone p' bs => setpipe (f_pipe x) p';; ret (Z.of_nat (length bs), bs)
          | RFail => ret (-1, [])
          | RSleep => block
          end
      end
  | FD_INODE =>
      onfs (ilock pid sb (f_ip x));;
      r <- onfs (readi sb devsw_read (f_ip x) (f_off x) (u32 n));;
      advance f r.1;;
      onfs (iunlock pid (f_ip x));;
      ret r
  | FD_NONE => panic "fileread"
  end.

(** One transaction of [filewrite]. *)
Definition write_chunk (f : nat) (src : list Z) (n1 : Z) : M kstate Z :=
  x <- gets (getfile f);;
  onfs (onblk begin_op);;
  onfs (ilock pid sb (f_ip x));;
  r <- onfs (writei sb devsw_write (f_ip x) src (f_off x) (u32 n1));;
  advance f r;;
  onfs (iunlock pid (f_ip x));;
  onfs (onblk (end_op pid));;
  ret r.

(** The [while] loop from [i]: its last [i].  Every turn writes at least a
    byte, so [n] turns are enough. *)
Fixpoint filewrite_loop (fuel : nat) (f : nat) (addr : list Z) (i n : Z) : M kstate Z :=
  match fuel with
  | O => ret i
  | S fuel' =>
      if i <? n then
        let max := ((MAXOPBLOCKS - 1 - 1 - 2) / 2) * 512 in
        let n1 := Z.min (n - i) max in
        r <- write_chunk f (drop (Z.to_nat i) addr) n1;;
        if r <? 0 then ret i else
        if negb (r =? n1) then panic "short filewrite" else
        filewrite_loop fuel' f addr (i + r) n
      else ret i
  end.

Definition filewrite (f : nat) (addr : list Z) (n : Z) : M kstate Z :=
  x <- gets (getfile f);;
  if negb (f_writable x) then ret (-1) else
  match f_type x with
  | FD_PIPE =>
      ps <- gets k_pipes;;
      killed <- gets k_killed;;
      match ps !! f_pipe x with
      | None => ret (-1)
      | Some p =>
          match pipewrite killed p (take (Z.to_nat n) addr) with
          | WDone p' => setpipe (f_pipe x) p';; ret n
          | WFail p' _ => setpipe (f_pipe x) p';; ret (-1)
          | WSleep p' _ => setpipe (f_pipe x) p';; block
          end
      end
  | FD_INODE =>
      i <- filewrite_loop (Z.to_nat n) f addr 0 n;;
      ret (if i =? n then n else -1)
  | FD_NONE => panic "filewrite"
  end.

(** [goto bad]: the page, if any, and the files go back. *)
Definition pipealloc_bad (f0 f1 : option nat) : M kstate (option (nat * nat)) :=
  (if f0 is Some f then fileclose f else ret tt);;
  (if f1 is Some f then fileclose f else ret tt);;
  ret None.

Definition pipealloc : M kstate (option (nat * nat)) :=
  r0 <- filealloc;;
  match r0 with
  | None => pipealloc_bad None None
  | Some f0 =>
      r1 <- filealloc;;
      match r1 with
      | None => pipealloc_bad (Some f0) None
      | Some f1 =>
          a <- onkmem kalloc;;
          if a =? 0 then pipealloc_bad (Some f0) (Some f1) else
          pg <- gets (fun s => page (k_kmem s) a);;
          setpipe a (pipe_init pg);;
          x0 <- gets (getfile f0);;
          setfile f0 (File FD_PIPE (f_ref x0) true false a (f_ip x0) (f_off x0));;
          x1 <- gets (getfile f1);;
          setfile f1 (File FD_PIPE (f_ref x1) false true a (f_ip x1) (f_off x1));;
          ret (Some (f0, f1))
      end
  end.
End operations.
