(* ===== verification/Sysfile.v ===== *)
(** * File system calls ([kernel/sysfile.c])

    Each call with its argument checks, its transaction and its error paths;
    the result is the value returned in [%eax].  [sys_exec] is in [Exec]. *)

From S2P Require Import Prelude Params CString Locks Kalloc Bio Log Crash Block Balloc Inode Bmap Content Itrunc Dir Icache Path Pipe Syscall Cipher File.
Local Open Scope Z_scope.
Local Open Scope kmonad_scope.

(** Bytes stored into the process's memory. *)
Definition put_user (p : Z) (bs : list Z) : M kstate unit :=
  modify (fun s => set_user (User (splice (u_mem (k_user s)) (Z.to_nat p) bs) (u_esp (k_user s))) s).
Definition get_user (p n : Z) (s : kstate) : list Z := sub (u_mem (k_user s)) (Z.to_nat p) (Z.to_nat n).

(** [struct stat]: a short, padding, an int, an unsigned, a short, padding, an unsigned. *)
Definition put_stat (p : Z) (st : Z * Z * Z * Z * Z) : M kstate unit :=
  let '(dev, ino, type, nlink, size) := st in
  put_user (p + 4) (le_bytes 4 dev);;
  put_user (p + 8) (le_bytes 4 ino);;
  put_user p (le_bytes 2 type);;
  put_user (p + 12) (le_bytes 2 nlink);;
  put_user (p + 16) (le_bytes 4 size).

Definition with_major (d : dinode) m := Dinode (d_type d) m (d_minor d) (d_nlink d) (d_size d) (d_addrs d).

Section syscalls.
Context (pid : Z) (sb : superblock) (kend : Z).
#[local] Hint Extern 0 (BlockLayer lstate) => exact (log_layer pid) : typeclass_instances.
Abbreviation FS := (fstate lstate).
Context (devsw_read : Z -> option (nat -> Z -> M FS (Z * list Z))).
Context (devsw_write : Z -> option (nat -> list Z -> Z -> M FS Z)).
(** What the stack holds in [char name[DIRSIZ]] before it is set. *)
Context (name0 : list Z).

Definition beginop : M kstate unit := onfs (onblk begin_op).
Definition endop : M kstate unit := onfs (onblk (end_op pid)).

(** Give up: end the transaction and return -1. *)
Definition fail_op : M kstate Z := endop;; ret (-1).

Definition argfd (n : Z) : M kstate (option (Z * nat)) :=
  s <- gets id;;
  match argint (k_user s) n with
  | None => ret None
  | Some fd =>
      if (fd <? 0) || (NOFILE <=? fd) then ret None else
      match k_ofile s !! Z.to_nat fd with
      | Some (Some f) => ret (Some (fd, f))
      | _ => ret None
      end
  end.

Definition fdalloc (f : nat) : M kstate Z :=
  l <- gets k_ofile;;
  match list_find (fun o => o = None) l with
  | Some (fd, _) => modify (set_ofile (<[fd := Some f]> l));; ret (Z.of_nat fd)
  | None => ret (-1)
  end.

Definition sys_dup : M kstate Z :=
  r <- argfd 0;;
  match r with
  | None => ret (-1)
  | Some (_, f) =>
      fd <- fdalloc f;;
      if fd <? 0 then ret (-1) else
      filedup f;; ret fd
  end.

(** The checks of [sys_read] and [sys_write]: the file, its status, the buffer
    and its size. *)
Definition arg_buffer : M kstate (option (nat * (Z * Z * Z * Z * Z) * Z * Z)) :=
  r <- argfd 0;;
  match r with
  | None => ret None
  | Some (_, f) =>
      u <- gets k_user;;
      match argint u 2 with
      | None => ret None
      | Some n =>
          match argptr u 1 n with
          | None => ret None
          | Some p =>
              st <- filestat pid sb f;;
              match st with
              | None => ret None
              | Some st => ret (Some (f, st, p, n))
              end
          end
      end
  end.

Definition st_type (st : Z * Z * Z * Z * Z) : Z := let '(_, _, type, _, _) := st in type.

Definition file_major (f : nat) (s : kstate) : Z := d_major (i_d (getinode (f_ip (getfile f s)) (k_fs s))).

Definition sys_read : M kstate Z :=
  r <- arg_buffer;;
  match r with
  | None => ret (-1)
  | Some (f, st, p, n) =>
      r <- fileread pid sb devsw_read f n;;
      put_user p r.2;;
      let n := r.1 in
      major <- gets (file_major f);;
      key <- gets k_key;;
      when ((major =? 1) && (st_type st =? T_FILE) && (0 <=? key))
        (bs <- gets (get_user p n);; put_user p (dec_byte key <$> bs));;
      ret n
  end.

Definition sys_write : M kstate Z :=
  r <- arg_buffer;;
  match r with
  | None => ret (-1)
  | Some (f, st, p, n) =>
      bs <- gets (get_user p n);;
      n <- filewrite pid sb devsw_write f bs n;;
      major <- gets (file_major f);;
      key <- gets k_key;;
      when ((major =? 0) && (st_type st =? T_FILE) && (0 <=? key))
        (bs <- gets (get_user p n);; put_user p (enc_byte key <$> bs));;
      ret n
  end.

Definition sys_close : M kstate Z :=
  r <- argfd 0;;
  match r with
  | None => ret (-1)
  | Some (fd, f) =>
      modify (fun s => set_ofile (<[Z.to_nat fd := None]> (k_ofile s)) s);;
      fileclose pid sb kend f;; ret 0
  end.

Definition sys_fstat : M kstate Z :=
  r <- argfd 0;;
  u <- gets k_user;;
  match r, argptr u 1 20 with
  | Some (_, f), Some p =>
      st <- filestat pid sb f;;
      match st with
      | None => ret (-1)
      | Some st => put_stat p st;; ret 0
      end
  | _, _ => ret (-1)
  end.

Definition knamei (path : list Z) : M kstate (option nat) :=
  cwd <- gets k_cwd;;
  onfs (namei pid sb cwd devsw_read path).
Definition knameiparent (path : list Z) : M kstate (option (nat * list Z)) :=
  cwd <- gets k_cwd;;
  onfs (nameiparent pid sb cwd devsw_read path name0).

Definition inode_of (ip : nat) (s : kstate) : inode := getinode ip (k_fs s).
Definition modd (ip : nat) (f : dinode -> dinode) : M kstate unit :=
  onfs (modinode ip (fun x => with_d x (f (i_d x)))).

Definition sys_link : M kstate Z :=
  u <- gets k_user;;
  match argstr u 0, argstr u 1 with
  | Some old, Some new =>
      beginop;;
      r <- knamei old;;
      match r with
      | None => fail_op
      | Some ip =>
          onfs (ilock pid sb ip);;
          x <- gets (inode_of ip);;
          if d_type (i_d x) =? T_DIR then onfs (iunlockput pid sb ip);; fail_op else
          modd ip (fun d => with_nlink d (s16 (d_nlink d + 1)));;
          onfs (iupdate sb ip);;
          onfs (iunlock pid ip);;
          let bad :=
            onfs (ilock pid sb ip);;
            modd ip (fun d => with_nlink d (s16 (d_nlink d - 1)));;
            onfs (iupdate sb ip);;
            onfs (iunlockput pid sb ip);;
            fail_op in
          r <- knameiparent new;;
          match r with
          | None => bad
          | Some (dp, name) =>
              onfs (ilock pid sb dp);;
              y <- gets (inode_of dp);;
              x <- gets (inode_of ip);;
              ok <- (if negb (i_dev y =? i_dev x) then ret false else
                     r <- onfs (dirlink pid sb devsw_read devsw_write dp name (i_inum x));; ret (0 <=? r));;
              if negb ok then onfs (iunlockput pid sb dp);; bad else
              onfs (iunlockput pid sb dp);;
              onfs (iput pid sb ip);;
              endop;; ret 0
          end
      end
  | _, _ => ret (-1)
  end.

(** Is the directory empty except for [.] and [..]? *)
Definition isdirempty (dp : nat) : M kstate bool :=
  x <- gets (inode_of dp);;
  r <- scan (fun off =>
    r <- onfs (readi sb devsw_read dp off sizeof_dirent);;
    if negb (r.1 =? sizeof_dirent) then panic "isdirempty: readi" else
    if negb (de_inum r.2 =? 0) then ret (Some tt) else ret None)
    (drop 2 (dir_offsets (d_size (i_d x))));;
  ret (if r is Some _ then false else true).

Definition dot : list Z := [46].
Definition dotdot : list Z := [46; 46].

Definition sys_unlink : M kstate Z :=
  u <- gets k_user;;
  match argstr u 0 with
  | None => ret (-1)
  | Some path =>
      beginop;;
      r <- knameiparent path;;
      match r with
      | None => fail_op
      | Some (dp, name) =>
          onfs (ilock pid sb dp);;
          let bad := onfs (iunlockput pid sb dp);; fail_op in
          (* Cannot unlink "." or "..". *)
          if (namecmp name dot =? 0) || (namecmp name dotdot =? 0) then bad else
          r <- onfs (dirlookup sb devsw_read dp name);;
          match r with
          | None => bad
          | Some (ip, off) =>
              onfs (ilock pid sb ip);;
              x <- gets (inode_of ip);;
              if d_nlink (i_d x) <? 1 then panic "unlink: nlink < 1" else
              empty <- (if d_type (i_d x) =? T_DIR then isdirempty ip else ret true);;
              if negb empty then onfs (iunlockput pid sb ip);; bad else
              r <- onfs (writei sb devsw_write dp (replicate 16 0) off sizeof_dirent);;
              if negb (r =? sizeof_dirent) then panic "unlink: writei" else
              when (d_type (i_d x) =? T_DIR)
                (modd dp (fun d => with_nlink d (s16 (d_nlink d - 1)));; onfs (iupdate sb dp));;
              onfs (iunlockput pid sb dp);;
              modd ip (fun d => with_nlink d (s16 (d_nlink d - 1)));;
              onfs (iupdate sb ip);;
              onfs (iunlockput pid sb ip);;
              endop;; ret 0
          end
      end
  end.

(** The new or existing inode, locked. *)
Definition create (path : list Z) (type major minor : Z) : M kstate (option nat) :=
  r <- knameiparent path;;
  match r with
  | None => ret None
  | Some (dp, name) =>
      onfs (ilock pid sb dp);;
      r <- onfs (dirlookup sb devsw_read dp name);;
      match r with
      | Some (ip, _) =>
          onfs (iunlockput pid sb dp);;
          onfs (ilock pid sb ip);;
          x <- gets (inode_of ip);;
          if ((type =? T_FILE) && (d_type (i_d x) =? T_FILE)) || (d_type (i_d x) =? T_DEV) then ret (Some ip) else
          onfs (iunlockput pid sb ip);; ret None
      | None =>
          y <- gets (inode_of dp);;
          ip <- onfs (ialloc sb (i_dev y) type);;
          onfs (ilock pid sb ip);;
          modd ip (fun d => Dinode (d_type d) (s16 major) (s16 minor) 1 (d_size d) (d_addrs d));;
          onfs (iupdate sb ip);;
          x <- gets (inode_of ip);;
          when (type =? T_DIR) (                (* Create . and .. entries. *)
            modd dp (fun d => with_nlink d (s16 (d_nlink d + 1)));;   (* for ".." *)
            onfs (iupdate sb dp);;
            r <- onfs (dirlink pid sb devsw_read devsw_write ip dot (i_inum x));;
            if r <? 0 then panic "create dots" else
            r <- onfs (dirlink pid sb devsw_read devsw_write ip dotdot (i_inum y));;
            if r <? 0 then panic "create dots" else ret tt);;
          r <- onfs (dirlink pid sb devsw_read devsw_write dp name (i_inum x));;
          if r <? 0 then panic "create: dirlink" else
          onfs (iunlockput pid sb dp);;
          ret (Some ip)
      end
  end.

Definition flag (omode f : Z) : bool := negb (Z.land omode f =? 0).

(** [sys_open] from the inode on; it is locked. *)
Definition open_inode (ip : nat) (omode : Z) : M kstate Z :=
  r <- filealloc;;
  match r with
  | None => onfs (iunlockput pid sb ip);; fail_op
  | Some f =>
      fd <- fdalloc f;;
      if fd <? 0 then
        fileclose pid sb kend f;; onfs (iunlockput pid sb ip);; fail_op
      else
        onfs (iunlock pid ip);;
        endop;;
        x <- gets (getfile f);;
        setfile f (File FD_INODE (f_ref x) (negb (flag omode O_WRONLY)) (flag omode O_WRONLY || flag omode O_RDWR)
                        (f_pipe x) ip 0);;
        ret fd
  end.

Definition sys_open : M kstate Z :=
  u <- gets k_user;;
  match argstr u 0, argint u 1 with
  | Some path, Some omode =>
      beginop;;
      if flag omode O_CREATE then
        r <- create path T_FILE 0 0;;
        match r with
        | None => fail_op
        | Some ip => open_inode ip omode
        end
      else
        r <- knamei path;;
        match r with
        | None => fail_op
        | Some ip =>
            onfs (ilock pid sb ip);;
            x <- gets (inode_of ip);;
            if (d_type (i_d x) =? T_DIR) && negb (omode =? O_RDONLY) then
              onfs (iunlockput pid sb ip);; fail_op
            else open_inode ip omode
        end
  | _, _ => ret (-1)
  end.

Definition sys_mkdir : M kstate Z :=
  beginop;;
  u <- gets k_user;;
  match argstr u 0 with
  | None => fail_op
  | Some path =>
      r <- create path T_DIR 0 0;;
      match r with
      | None => fail_op
      | Some ip => onfs (iunlockput pid sb ip);; endop;; ret 0
      end
  end.

Definition sys_mknod : M kstate Z :=
  beginop;;
  u <- gets k_user;;
  match argstr u 0, argint u 1, argint u 2 with
  | Some path, Some major, Some minor =>
      r <- create path T_DEV (s16 major) (s16 minor);;
      match r with
      | None => fail_op
      | Some ip => onfs (iunlockput pid sb ip);; endop;; ret 0
      end
  | _, _, _ => fail_op
  end.

Definition sys_chdir : M kstate Z :=
  beginop;;
  u <- gets k_user;;
  match argstr u 0 with
  | None => fail_op
  | Some path =>
      r <- knamei path;;
      match r with
      | None => fail_op
      | Some ip =>
          onfs (ilock pid sb ip);;
          x <- gets (inode_of ip);;
          if negb (d_type (i_d x) =? T_DIR) then onfs (iunlockput pid sb ip);; fail_op else
          onfs (iunlock pid ip);;
          cwd <- gets k_cwd;;
          onfs (iput pid sb cwd);;
          endop;;
          modify (set_cwd ip);;
          ret 0
      end
  end.

Definition sys_pipe : M kstate Z :=
  u <- gets k_user;;
  match argptr u 0 8 with
  | None => ret (-1)
  | Some fd =>
      r <- pipealloc pid sb kend;;
      match r with
      | None => ret (-1)
      | Some (rf, wf) =>
          fd0 <- fdalloc rf;;
          fd1 <- (if fd0 <? 0 then ret (-1) else fdalloc wf);;
          if (fd0 <? 0) || (fd1 <? 0) then
            when (0 <=? fd0) (modify (fun s => set_ofile (<[Z.to_nat fd0 := None]> (k_ofile s)) s));;
            fileclose pid sb kend rf;;
            fileclose pid sb kend wf;;
            ret (-1)
          else
            put_user fd (le_bytes 4 fd0);;
            put_user (fd + 4) (le_bytes 4 fd1);;
            ret 0
      end
  end.

(** [f->type == T_DEV]: the file's [FD_] type against the inode type 3. *)
Definition fd_number (t : fdtype) : Z :=
  match t with FD_NONE => 0 | FD_PIPE => 1 | FD_INODE => 2 end.

(** The [while] loop of [sys_encr] and [sys_decr]; every turn moves the offset,
    so as many turns as the file has bytes are enough. *)
Fixpoint crypt_loop (fuel : nat) (conv : Z -> Z) (f : nat) (block_count : Z) : M kstate unit :=
  match fuel with
  | O => ret tt
  | S fuel' =>
      x <- gets (getfile f);;
      r <- onfs (readi sb devsw_read (f_ip x) (f_off x) 512);;
      if 0 <? r.1 then
        onfs (writei sb devsw_write (f_ip x) (conv <$> r.2) (f_off x) r.1);;
        setfile f (file_off x (u32 (f_off x + r.1)));;
        if 10 <=? block_count + 1 then
          (* commit the transaction and start a new one *)
          onfs (iunlock pid (f_ip x));;
          endop;;
          beginop;;
          onfs (ilock pid sb (f_ip x));;
          crypt_loop fuel' conv f 0
        else crypt_loop fuel' conv f (block_count + 1)
      else ret tt
  end.

Definition crypt (conv : Z -> Z) (mark : Z) (f : nat) : M kstate Z :=
  x <- gets (getfile f);;
  beginop;;
  onfs (ilock pid sb (f_ip x));;
  y <- gets (inode_of (f_ip x));;
  crypt_loop (S (Z.to_nat (d_size (i_d y)))) conv f 0;;
  (* update the encryption status of the file *)
  modd (f_ip x) (fun d => with_major d mark);;
  onfs (iupdate sb (f_ip x));;
  onfs (iunlockput pid sb (f_ip x));;
  endop;;
  ret 0.

Definition sys_decr : M kstate Z :=
  r <- argfd 0;;
  key <- gets k_key;;
  match r with
  | None => ret (-1)
  | Some (_, f) =>
      if key =? -1 then ret (-1) else
      x <- gets (getfile f);;
      if fd_number (f_type x) =? T_DEV then ret (-2) else
      major <- gets (file_major f);;
      if major =? 0 then ret (-3) else     (* check if the file is encrypted *)
      crypt (dec_byte key) 0 f
  end.

Definition sys_encr : M kstate Z :=
  r <- argfd 0;;
  key <- gets k_key;;
  match r with
  | None => ret (-1)
  | Some (_, f) =>
      if key =? -1 then ret (-1) else
      x <- gets (getfile f);;
      if fd_number (f_type x) =? T_DEV then ret (-2) else
      major <- gets (file_major f);;
      if major =? 1 then ret (-3) else     (* check if the file is already encrypted *)
      crypt (enc_byte key) 1 f
  end.
End syscalls.
