(* ===== verification/FileProps.v ===== *)
(** * Files across transactions and crashes

    [filewrite]'s transactions on the log: what is on the disk between them,
    and after a crash inside one. *)

From S2P Require Import Prelude Params CString Locks Kalloc Bio Log Crash Block Balloc Inode Bmap Content LogSpace Itrunc Icache Pipe Syscall File.
Local Open Scope Z_scope.
Local Open Scope kmonad_scope.

(** The panics of code that only reads: the buffer cache, the log or the inode
    table is full. *)
Definition fs_panic (msg : string) : Prop := res_panic msg \/ msg = "iget: no inodes"%string.

Lemma fs_panic_res msg : res_panic msg -> fs_panic msg.
Proof. by left. Qed.
Lemma fs_panic_iget : fs_panic "iget: no inodes"%string.
Proof. by right. Qed.

(** The layout of the disk: the log, the inodes, the free map, the data. *)
Record layout (start size nb : Z) (sb : superblock) : Prop := {
  lay_log : geometry start size nb;
  lay_inode : start + size <= sb_inodestart sb;
  lay_ninodes : 0 < sb_ninodes sb;
  lay_bmap : sb_inodestart sb + sb_ninodes sb / IPB < sb_bmapstart sb;
  lay_size : sb_bmapstart sb + sb_size sb / BPB < sb_size sb;
  lay_nb : sb_size sb <= nb;
  lay_max : sb_size sb < 2 ^ 31
}.

Section files.
Context (pid start size nb : Z) (sb : superblock) (lay : layout start size nb sb).
#[local] Hint Extern 0 (BlockLayer lstate) => exact (log_layer pid) : typeclass_instances.

Let geo : geometry start size nb := lay_log _ _ _ _ lay.

Lemma layout_fsgeo s0 : fsgeo (BlockLaws0 := log_laws pid start size nb geo s0) sb.
Proof.
  destruct lay as [G L1 L2 L3 L4 L5 L6]. pose proof (geo_start _ _ _ G). pose proof (geo_size _ _ _ G).
  constructor; try done; [lia|]. intros a Ha. cbn. unfold in_log. lia.
Qed.

(** No transaction is in progress; [v] is the disk, but for the blocks [sf]
    whose cached copies were changed without being logged. *)
Record at_rest (s : lstate) (v : Z -> list Z) (sf : gset Z) : Prop := {
  ar_idle : idle pid start size nb s;
  ar_soft a : soft (l_bio s) a -> a ∈ sf;
  ar_disk a : a ∉ sf -> dblock (disk (l_bio s)) a = v a
}.

Lemma at_rest_bst s v sf :
  at_rest s v sf -> bst (BlockLaws0 := log_laws pid start size nb geo (begun s)) (begun s) v ∅ sf ∅.
Proof.
  intros [Hi Hs Hd]. constructor.
  - by apply begun_ok.
  - done.
  - apply Hi.
  - intros a Ha. rewrite <- Hd by done. cbn. eapply (idle_view pid start size nb s); [done|].
    intros ?%Hs. done.
  - intros a Ha. apply elem_of_union_l. by apply Hs.
  - done.
Qed.

(** A file at rest: its inode is in the table and as on the disk, and its
    block map is sound. *)
Record file_ok (v : Z -> list Z) (sf : gset Z) (ics : list inode) (ip : nat) (x : inode) : Prop := {
  fk_sf a : a ∈ sf -> is_data sb a;
  fk_meta : meta_used sb v;
  fk_tree : tree_ok sb v (d_addrs (i_d x)) sf;
  fk_ip : ics !! ip = Some x;
  fk_dev : i_dev x = 1;
  fk_inum : is_ino sb (i_inum x);
  fk_dk : dinode_ok (i_d x);
  fk_size : d_size (i_d x) <= MAXFILE * BSIZE;
  fk_mapped : mapped v (d_addrs (i_d x)) (d_size (i_d x));
  fk_dino : dino sb v (i_inum x) = i_d x
}.

Lemma file_ok_st s0 b v sf ics ip x :
  bst (BlockLaws0 := log_laws pid start size nb geo s0) b v ∅ sf ∅ -> file_ok v sf ics ip x ->
  file_st (BlockLaws0 := log_laws pid start size nb geo s0) sb b v sf ics ip x.
Proof. intros Hb []. by constructor. Qed.

Lemma file_st_ok s0 b v sf ics ip x :
  file_st (BlockLaws0 := log_laws pid start size nb geo s0) sb b v sf ics ip x -> file_ok v sf ics ip x.
Proof. intros [[] ]. by constructor. Qed.

(** The blocks of the log do not matter to a file. *)
Lemma file_ok_log v v' sf ics ip x :
  file_ok v sf ics ip x -> (forall a, ~ in_log start size a -> v' a = v a) ->
  file_ok v' sf ics ip x /\ contents v' (i_d x) = contents v (i_d x).
Proof.
  intros [] Hv. pose proof (layout_fsgeo (boot nb ∅)) as G.
  assert (forall a, sb_inodestart sb <= a -> v' a = v a) as Ha.
  { intros a H. apply Hv. destruct lay. unfold in_log. lia. }
  assert (forall a, is_bmap sb a -> v' a = v a) as Hbm.
  { intros a H. apply Ha. pose proof (fg_order sb G). unfold is_bmap in H. lia. }
  assert (forall a, is_data sb a -> v' a = v a) as Hdt.
  { intros a H. apply Ha. pose proof (fg_order sb G). unfold is_data in H. lia. }
  split.
  - constructor; try done.
    + by eapply (meta_same sb G).
    + eapply (tree_same sb G); [done|done|]. intros s Hs Hne. apply Hdt. by apply (tr_data _ _ _ _ fk_tree0); [left|].
    + intros o Ho. rewrite (saddr_outside sb v v' sf) by (done || apply bn_slot; lia). by apply fk_mapped0.
    + rewrite <- fk_dino0. unfold dino. rewrite Ha; [done|]. apply (IBLOCK_range sb G); done.
  - unfold contents. apply list_fmap_ext. intros i o Ho. apply lookup_seqZ in Ho as [-> Ho].
    apply (fbyte_outside sb v v' sf); [done|done|lia|]. apply fk_mapped0. lia.
Qed.

(** The disk after a crash: [k] of the block writes between [s] and [s'] were
    made; the boots that follow are interrupted after [ks] writes. *)
Definition crashed (s s' : lstate) (k : nat) (ks : list nat) : gmap Z (list Z) :=
  foldl (crash_boot pid nb)
    (crash (disk (l_bio s)) (drop (length (writes (l_bio s))) (writes (l_bio s'))) k) ks.

(** A transaction from [s] to [s'] that makes [v'] of the disk, in one step as
    far as crashes can tell. *)
Record txn_to (s s' : lstate) (v' : Z -> list Z) (sf : gset Z) : Prop := {
  tx_rest : exists v3, at_rest s' v3 sf /\ forall a, ~ in_log start size a -> v3 a = v' a;
  tx_crash : exists n, forall k ks, exists s'',
    initlog pid 1 (boot nb (crashed s s' k ks)) = Ret tt s'' /\ idle pid start size nb s'' /\
    forall a, ~ in_log start size a -> a ∉ sf ->
      dblock (disk (l_bio s'')) a = if decide (k <= n)%nat then dblock (disk (l_bio s)) a else v' a
}.

Lemma end_op_txn E s s2 v' sf (Q : unit -> lstate -> Prop) :
  idle pid start size nb s -> bst (BlockLaws0 := log_laws pid start size nb geo (begun s)) s2 v' ∅ sf ∅ ->
  (forall s', txn_to s s' v' sf -> Q tt s') -> wp E (end_op pid) Q s2.
Proof.
  intros Hi [B1 B2 B3 B4 B5 B6] HQ.
  eapply wp_mono; [by apply (end_op_crash pid start size nb geo s s2)|done|].
  intros [] s3 (ws & n & W & Hi3 & Hd & Hk). apply HQ.
  assert (forall a, a ∉ sf -> ~ soft (l_bio s2) a) as Hns.
  { intros a Ha Hsa. apply B5 in Hsa. rewrite union_empty_r_L in Hsa. done. }
  destruct (ly_disk _ _ _ _ _ _ B1) as (Hdd & _ & Hww). constructor.
  - exists (fun a => if decide (in_log start size a) then dblock (disk (l_bio s3)) a else v' a).
    split; [|intros a Ha; by rewrite decide_False]. constructor; [done|..].
    + intros a [Ha _]%(wr_soft _ _ _ _ W). destruct (decide (a ∈ sf)) as [|Hn]; [done|]. by apply Hns in Hn.
    + intros a Ha. case_decide; [done|]. rewrite Hd by (done || by apply Hns). by apply B4.
  - exists n. intros k ks. unfold crashed. change (l_bio (begun s)) with (l_bio s) in *.
    rewrite <- Hww, (wrote_new_writes _ _ _ _ W). destruct (Hk k) as [Hok Hr].
    destruct (crash_boots_replay pid start size nb geo ks _ Hok) as [Hok' Hr'].
    destruct (boot_replay pid start size nb geo _ Hok') as (s'' & Es & Hi'' & Hd'').
    exists s''. split; [done|]. split; [done|]. intros a Ha Hsf. rewrite Hd'', Hr', Hr by (done || by apply Hns).
    case_decide; [done|]. by apply B4.
Qed.

Context (devw : Z -> option (nat -> list Z -> Z -> M (fstate lstate) Z)).

(** An open file between system calls. *)
Record open_file (s : kstate) (f : nat) (x : file) (y : inode) (v : Z -> list Z) (sf : gset Z) : Prop := {
  of_file : k_files s !! f = Some x;
  of_rest : at_rest (f_blk (k_fs s)) v sf;
  of_ok : file_ok v sf (f_inodes (k_fs s)) (f_ip x) y;
  of_type : d_type (i_d y) <> T_DEV;
  of_type0 : d_type (i_d y) <> 0;
  of_lock : i_lock y = Sleep.initsleeplock;
  of_valid : i_valid y = true;
  of_ref : 0 < i_ref y
}.

Lemma wp_onfs {A} E (m : M (fstate lstate) A) (Q : A -> kstate -> Prop) s :
  wp E m (fun a fs => Q a (set_fs fs s)) (k_fs s) -> wp E (onfs m) Q s.
Proof. apply wp_lift. Qed.

Lemma getfile_lookup f x s : k_files s !! f = Some x -> getfile f s = x.
Proof. unfold getfile. by intros ->. Qed.

Lemma advance_spec E f r x s (Q : unit -> kstate -> Prop) :
  k_files s !! f = Some x -> 0 <= r ->
  0 <= f_off x + r < 2 ^ 32 ->
  Q tt (set_files (<[f := file_off x (f_off x + r)]> (k_files s)) s) -> wp E (advance f r) Q s.
Proof.
  intros Hx Hr Ho HQ. unfold advance, setfile. apply wp_when; intros Hc.
  - do 2 wp_step. rewrite (getfile_lookup _ _ _ Hx), u32_small by done. by wp_step.
  - assert (r = 0) as -> by lia. rewrite Z.add_0_r in HQ.
    assert (file_off x (f_off x) = x) as Ex by by destruct x. rewrite Ex, list_insert_id in HQ by done. by destruct s.
Qed.

(** What one transaction of [filewrite] does. *)
Record chunk_written (s : kstate) (f : nat) (x : file) (y : inode) (v : Z -> list Z) (sf : gset Z)
    (src : list Z) (s' : kstate) (y' : inode) (v' : Z -> list Z) (sf' : gset Z) : Prop := {
  cw_open : open_file s' f (file_off x (f_off x + Z.of_nat (length src))) y' v' sf';
  cw_contents : contents v' (i_d y') = splice (contents v (i_d y)) (Z.to_nat (f_off x)) src;
  cw_others : exists v2, others_kept sb v y v2 y' /\ (forall a, ~ in_log start size a -> v' a = v2 a) /\
    txn_to (f_blk (k_fs s)) (f_blk (k_fs s')) v2 sf';
  cw_soft : sf' ⊆ sf;
  cw_free : nfree sb v <= nfree sb v' + 3 * touches (Z.of_nat (length src));
  cw_inode : written y y' (f_off x) (Z.of_nat (length src));
  cw_frame : k_kmem s' = k_kmem s /\ k_pipes s' = k_pipes s /\ k_user s' = k_user s /\
    k_ofile s' = k_ofile s /\ k_cwd s' = k_cwd s /\ k_key s' = k_key s
}.

(** The largest chunk of [filewrite], on a log of full size. *)
Definition small_chunk (n1 : Z) : Prop := n1 <= ((MAXOPBLOCKS - 1 - 1 - 2) / 2) * 512 /\ size = LOGSIZE.

(** The panics of a transaction of [filewrite] that writes [n1] bytes: a chunk
    of the size [filewrite] uses fits into the log and the cache. *)
Definition chunk_panic (n1 : Z) (v : Z -> list Z) (msg : string) : Prop :=
  (res_panic msg /\ ~ small_chunk n1) \/
  (msg = "balloc: out of blocks"%string /\ nfree sb v < 3 * touches n1).

Lemma chunk_fits {St A} n1 v (m : M St A) (Q R : A -> St -> Prop) s :
  (small_chunk n1 -> fits m R s) ->
  wp (fun msg => res_panic msg \/ chunk_panic n1 v msg) m (fun a s' => (small_chunk n1 -> R a s') -> Q a s') s ->
  wp (chunk_panic n1 v) m Q s.
Proof.
  intros Hf Hm. destruct (decide (n1 <= ((MAXOPBLOCKS - 1 - 1 - 2) / 2) * 512)) as [H1|H1].
  1: destruct (decide (size = LOGSIZE)) as [H2|H2].
  - eapply wp_mono; [eapply (wp_fits _ m Q R); [by apply Hf|]| |done].
    + eapply wp_post; [exact Hm|]. auto.
    + intros msg [[?|?] ?]; done.
  - assert (~ small_chunk n1) as Hn by by intros [].
    eapply wp_mono; [exact Hm|intros msg [?|?]; [by left|done]|intros a s' HQ; apply HQ; by intros ?%Hn].
  - assert (~ small_chunk n1) as Hn by by intros [].
    eapply wp_mono; [exact Hm|intros msg [?|?]; [by left|done]|intros a s' HQ; apply HQ; by intros ?%Hn].
Qed.

Lemma begun_fspace s v sf ics ip y : at_rest s v sf -> file_ok v sf ics ip y -> size = LOGSIZE ->
  fspace pid ip (FState (begun s) ics) ∅ [].
Proof.
  intros [(Hs & Ho & Hc) _ _] [] Hz. pose proof (lo_log _ _ _ _ _ _ Hs) as Hl. split.
  - constructor; cbn [f_blk begun set_outstanding set_log l_bio l_log l_lh l_size].
    + apply Hs.
    + apply Hs.
    + rewrite (li_lh _ _ _ _ Hl). constructor.
    + by rewrite (li_lh _ _ _ _ Hl).
    + intros a Ha%(lo_pinned _ _ _ _ _ _ Hs). by rewrite (li_lh _ _ _ _ Hl).
    + rewrite (li_size _ _ _ _ Hl). lia.
  - exists y. split; [done|]. split; [done|]. split; [apply fk_inum0|done].
Qed.

Lemma layout_geo : 0 <= sb_bmapstart sb /\ 0 <= sb_inodestart sb /\ sb_size sb < 2 ^ 31.
Proof.
  destruct lay as [G L1 L2 L3 L4 L5 L6]. pose proof (geo_start _ _ _ G). pose proof (geo_size _ _ _ G).
  assert (0 <= sb_ninodes sb / IPB) by (apply Z.div_pos; [lia|done]). lia.
Qed.

Lemma log_nfree v v' : (forall a, ~ in_log start size a -> v' a = v a) -> nfree sb v' = nfree sb v.
Proof.
  intros Hv. apply nfree_same. intros c Hc. apply used_same; [|done]. intros a Ha. apply Hv.
  pose proof (fg_order sb (layout_fsgeo (boot nb ∅))). destruct lay. unfold is_bmap in Ha. unfold in_log. lia.
Qed.

Lemma write_chunk_spec s f x y v sf src n1 (Q : Z -> kstate -> Prop) :
  open_file s f x y v sf -> 0 <= n1 <= Z.of_nat (length src) -> bytes src ->
  0 <= f_off x <= d_size (i_d y) -> f_off x + n1 <= MAXFILE * BSIZE ->
  (forall s' y' v' sf', chunk_written s f x y v sf (take (Z.to_nat n1) src) s' y' v' sf' -> Q n1 s') ->
  wp (chunk_panic n1 v) (write_chunk pid sb devw f src n1) Q s.
Proof.
  intros [O1 O2 O3 O4 O5 O6 O7 O8] Hn Hby Ho Hmax HQ. set (s0 := f_blk (k_fs s)) in *.
  pose proof (layout_fsgeo (begun s0)) as G. assert (MAXFILE * BSIZE < 2 ^ 31) as HM by done.
  unfold write_chunk. do 2 wp_step. rewrite (getfile_lookup _ _ _ O1). wp_step. apply wp_onfs.
  destruct (k_fs s) as [b ics] eqn:Efs. cbn [f_blk f_inodes] in *. subst s0. apply wp_onblk. unfold wp at 1.
  rewrite (begin_op_idle pid start size nb) by apply O2. wp_step. apply wp_onfs. cbn [set_fs k_fs].
  pose proof (at_rest_bst _ _ _ O2) as Hb. pose proof (file_ok_st (begun b) _ _ _ _ _ _ Hb O3) as Hf.
  apply (chunk_fits n1 v _ _ (fun _ s' => fspace pid (f_ip x) s' ∅ [])).
  { intros [_ Hz]. apply fits_ilock; [by eapply begun_fspace|]. by rewrite (getinode_lookup _ _ _ _ (fk_ip _ _ _ _ _ O3)). }
  eapply (ilock_spec pid sb G _ (fun msg => @or_introl _ _)); [done| |apply Hf|apply Hf|apply Hf|done|by rewrite O6|by rewrite O7|].
  { split; [apply O3|done]. }
  rewrite O7. intros b1 Hb1 Hsp. wp_step. apply wp_onfs. cbn [set_fs k_fs]. set (y1 := Inode _ _ _ _ _ _) in *.
  assert (y1 = with_lock y (Sleep.Sleeplock true pid)) as Ey1 by (unfold y1, with_lock; by rewrite O7).
  pose proof (file_ok_st (begun b) _ _ _ _ _ _ Hb1 O3) as Hf1.
  apply (file_st_lock sb _ _ _ _ _ _ (Sleep.Sleeplock true pid)) in Hf1. rewrite <- Ey1 in Hf1.
  rewrite u32_small by lia.
  apply (chunk_fits n1 v _ _ (fun _ _ => True)).
  { intros Hsm. apply (fits_writei pid sb layout_geo); [by apply Hsp| |lia|lia|done|].
    - by rewrite (getinode_lookup _ _ _ _ (fs_ip _ _ _ _ _ _ _ Hf1)).
    - destruct Hsm as [Hsm _]. change (((MAXOPBLOCKS - 1 - 1 - 2) / 2) * 512) with 1536 in Hsm. unfold BSIZE. lia. }
  eapply (writei_spec sb G _ (fun msg => @or_introl _ _) devw); [exact Hf1|done|lia|lia|lia|done| | |].
  { apply enough_touches; [lia|]. intros Hfew. right. by right. }
  { intros [?|?]; [cbn in *; lia|lia]. }
  intros _ _ b2 v2 sf2 y2 Hf2 Hsub [ads Ew] Hc Hok Hfree _. rewrite list_insert_insert_eq in *.
  wp_step. eapply (advance_spec _ _ _ x); [exact O1|lia|lia|]. cbn [set_fs set_files k_fs k_files].
  wp_step. apply wp_onfs. cbn [k_fs set_fs set_files].
  pose proof (fs_ip _ _ _ _ _ _ _ Hf2) as Hip2.
  eapply (iunlock_spec pid _); [done|by rewrite Ew|by rewrite Ew|]. rewrite list_insert_insert_eq.
  wp_step. apply wp_onfs. cbn [k_fs set_fs set_files]. apply wp_onblk.
  eapply end_op_txn; [apply O2|apply Hf2|]. intros s3 T. wp_step.
  pose proof (file_st_lock sb _ _ _ _ _ _ Sleep.initsleeplock Hf2) as Hf3. rewrite list_insert_insert_eq in Hf3.
  apply file_st_ok in Hf3. destruct (tx_rest _ _ _ _ T) as (v3 & Hr3 & Hv3).
  destruct (file_ok_log _ v3 _ _ _ _ Hf3 Hv3) as [Hok3 Hc3]. cbn [with_lock i_d] in Hc3.
  assert (Z.of_nat (length (take (Z.to_nat n1) src)) = n1) as Hl by (rewrite length_take; lia).
  eapply (HQ _ (with_lock y2 Sleep.initsleeplock) v3 sf2). constructor; rewrite ?Hl.
  - constructor; cbn [k_files k_fs set_fs set_files f_blk f_inodes]; try done; try by rewrite Ew.
    apply list_lookup_insert_eq. by eapply lookup_lt_Some.
  - cbn [with_lock i_d]. by rewrite Hc3, Hc, Ey1.
  - exists v2. rewrite Efs. rewrite Ey1 in Hok. split; [|split; [done|exact T]]. by destruct Hok.
  - done.
  - by rewrite (log_nfree v2 v3).
  - exists ads. rewrite Ew, Ey1. cbn. destruct y. cbn in *. by subst.
  - done.
Qed.

(** The file after bytes [src] have been written at its offset. *)
Definition file_written (s : kstate) (f : nat) (x : file) (y : inode) (v : Z -> list Z) (src : list Z)
    (s' : kstate) : Prop :=
  exists y' v' sf', open_file s' f (file_off x (f_off x + Z.of_nat (length src))) y' v' sf' /\
    contents v' (i_d y') = splice (contents v (i_d y)) (Z.to_nat (f_off x)) src /\
    d_size (i_d y') = Z.max (d_size (i_d y)) (f_off x + Z.of_nat (length src)) /\
    i_inum y' = i_inum y.

Lemma file_written_nil s f x y v sf :
  open_file s f x y v sf -> 0 <= f_off x <= d_size (i_d y) -> file_written s f x y v [] s.
Proof.
  intros Hs Ho. exists y, v, sf. cbn [length]. rewrite Z.add_0_r, splice_nil.
  split; [by destruct x|]. split; [done|]. split; [lia|done].
Qed.

(** The free blocks that a write of [n] bytes may need: for each chunk, three
    for each of the four blocks that it can lie in. *)
Definition write_needs (n : Z) : Z := 12 * ((n + 1535) / 1536).

Context (full_log : size = LOGSIZE).

Lemma filewrite_loop_spec (EP : string -> Prop) fuel : forall s f x y v sf addr i n,
  open_file s f x y v sf -> 0 <= i <= n -> n <= Z.of_nat (length addr) -> bytes addr -> n - i <= Z.of_nat fuel ->
  0 <= f_off x <= d_size (i_d y) -> f_off x + (n - i) <= MAXFILE * BSIZE ->
  (nfree sb v < write_needs (n - i) -> EP "balloc: out of blocks"%string) ->
  wp EP (filewrite_loop pid sb devw fuel f addr i n)
    (fun r s' => r = n /\ file_written s f x y v (sub addr (Z.to_nat i) (Z.to_nat (n - i))) s') s.
Proof.
  induction fuel as [|fuel IH]; intros s f x y v sf addr i n Hs Hi Hn Hby Hfuel Ho Hmax Hneed; cbn [filewrite_loop].
  all: assert (i = n -> i = n /\ file_written s f x y v (sub addr (Z.to_nat i) (Z.to_nat (n - i))) s) as Hend.
  1,3: intros ->; split; [done|]; replace (Z.to_nat (n - n)) with 0%nat by lia; by eapply file_written_nil.
  { wp_step. apply Hend. lia. }
  destruct (i <? n) eqn:E; [|wp_step; apply Hend; lia].
  set (n1 := Z.min (n - i) _). assert (0 < n1 <= n - i) as Hn1 by (unfold n1; plia).
  assert (n1 <= 1536) as Hn1m by (unfold n1; plia).
  wp_step. eapply wp_mono with (E := chunk_panic n1 v) (Q := fun r s' => r = n1 /\ exists y' v' sf', chunk_written s f x y v sf (take (Z.to_nat n1) (drop (Z.to_nat i) addr)) s' y' v' sf').
  { eapply write_chunk_spec; [done|rewrite length_drop; lia|by apply Forall_drop|done|lia|]. intros s1 y1 v1 sf1 C. split; [done|]. by exists y1, v1, sf1. }
  { intros msg [[_ Hbig]|[-> Hfew]]; [by destruct Hbig|]. apply Hneed. unfold touches, write_needs, BSIZE in *. lia. }
  intros r s1 (-> & y1 & v1 & sf1 & [C1 C2 C3 _ Cfree [ads C4] C5]). rewrite (proj2 (Z.ltb_ge _ _)), Z.eqb_refl by lia. cbn [negb].
  change (take (Z.to_nat n1) (drop (Z.to_nat i) addr)) with (sub addr (Z.to_nat i) (Z.to_nat n1)) in *.
  assert (length (sub addr (Z.to_nat i) (Z.to_nat n1)) = Z.to_nat n1) as Hl by (apply length_sub; lia).
  rewrite Hl in *. rewrite Z2Nat.id in * by lia.
  assert (d_size (i_d y1) = Z.max (d_size (i_d y)) (f_off x + n1)) as Hsz by by rewrite C4.
  eapply wp_post; [apply (IH s1 f (file_off x (f_off x + n1)) y1 v1 sf1 addr (i + n1) n); [exact C1|lia|lia|done|lia|cbn; lia|cbn; lia|]|].
  { intros Hfew. apply Hneed. unfold touches, write_needs, BSIZE in *. revert Hfew Cfree. unfold n1. plia. }
  intros r s' (-> & y2 & v2 & sf2 & D1 & D2 & D3 & D4). split; [done|]. exists y2, v2, sf2.
  cbn [file_off f_off] in *.
  assert (sub addr (Z.to_nat i) (Z.to_nat (n - i)) =
    sub addr (Z.to_nat i) (Z.to_nat n1) ++ sub addr (Z.to_nat (i + n1)) (Z.to_nat (n - (i + n1)))) as Esub.
  { unfold sub. replace (Z.to_nat (n - i)) with (Z.to_nat n1 + Z.to_nat (n - (i + n1)))%nat by lia.
    rewrite <- take_take_drop. f_equal. rewrite drop_drop. do 2 f_equal. lia. }
  assert (length (sub addr (Z.to_nat (i + n1)) (Z.to_nat (n - (i + n1)))) = Z.to_nat (n - (i + n1))) as Hl2
    by (apply length_sub; lia).
  rewrite Esub, length_app, Hl, Hl2 in *.
  replace (f_off x + Z.of_nat (Z.to_nat n1 + Z.to_nat (n - (i + n1)))) with
    (f_off x + n1 + Z.of_nat (Z.to_nat (n - (i + n1)))) by lia.
  split; [done|]. split; [|split; [lia|rewrite D4, C4; done]].
  rewrite D2, C2. replace (Z.to_nat (f_off x + n1)) with (Z.to_nat (f_off x) + length (sub addr (Z.to_nat i) (Z.to_nat n1)))%nat by lia.
  apply splice_splice. rewrite length_contents. lia.
Qed.
End files.
