(* ===== verification/Image.v ===== *)
(** * A small file system image

    A disk of 100 blocks to try the theorems on: the log in blocks 2 to 31,
    inodes from 32, the free map in 58, data from 59.  Inode 1 is the root
    directory with entries [.], [..], [a] and [p]; inode 2 is the file [/a]; inode 3
    is a file without links; inode 4 is the program [/p]. *)

From S2P Require Import Prelude Params CString Locks Kalloc Bio Log Crash Block Balloc Inode Bmap Content Itrunc Dir Icache Path Namei Pipe Syscall File FileProps.
Local Open Scope Z_scope.
Local Open Scope kmonad_scope.

Definition img_sb : superblock := Superblock 100 60 200 30 2 32 58.

Definition addrs1 (a : Z) : list Z := a :: replicate 12 0.
Definition img_root : dinode := Dinode T_DIR 0 0 1 64 (addrs1 59).
Definition img_file : dinode := Dinode T_FILE 0 0 1 5 (addrs1 60).
Definition img_gone : dinode := Dinode T_FILE 0 0 0 3 (addrs1 61).
Definition img_prog : dinode := Dinode T_FILE 0 0 1 92 (addrs1 62).

Definition img_inodes : list Z :=
  put_dinode (put_dinode (put_dinode (put_dinode zero_block 1 img_root) 2 img_file) 3 img_gone) 4 img_prog.
Definition img_bitmap : list Z := splice zero_block 0 (replicate 7 255 ++ [127]).
Definition img_dir : list Z :=
  splice zero_block 0 (encode_dirent 1 [46] ++ encode_dirent 1 [46; 46] ++ encode_dirent 2 [97] ++ encode_dirent 4 [112]).
Definition img_hello : list Z := splice zero_block 0 [104; 101; 108; 108; 111].
Definition img_abc : list Z := splice zero_block 0 [97; 98; 99].
(** An ELF header, one program header for a segment at address 0 of 8 bytes in
    the file and 16 in memory, and the 8 bytes. *)
Definition img_elf : list Z := splice zero_block 0
  (concat (le_bytes 4 <$> [0x464C457F; 0; 0; 0; 0; 0; 0; 52; 0; 0; 0; 1; 0] ++ [1; 84; 0; 0; 8; 16; 5; 4096]) ++ [204; 204; 204; 204; 235; 254; 144; 144]).

Definition img : gmap Z (list Z) :=
  list_to_map [(1, write_words zero_block 0 [100; 60; 200; 30; 2; 32; 58]);
               (32, img_inodes); (58, img_bitmap); (59, img_dir); (60, img_hello); (61, img_abc);
               (62, img_elf)].

Definition img_view : Z -> list Z := dblock img.

Lemma img_layout : layout 2 30 100 img_sb.
Proof. by constructor. Qed.

Definition block_okb (d : list Z) : bool := bool_decide (length d = 512%nat) && forallb (fun b => (0 <=? b) && (b <? 256)) d.

Lemma block_okb_ok d : block_okb d = true -> block_ok d.
Proof.
  unfold block_okb. rewrite andb_true_iff, bool_decide_eq_true, forallb_forall. intros [Hl Hb]. split; [done|].
  apply Forall_forall. intros x Hx. apply list_elem_of_In, Hb in Hx. unfold is_byte. lia.
Qed.

Lemma img_disk_ok : disk_ok 2 30 100 img.
Proof.
  constructor.
  - intros c x Hx. apply elem_of_list_to_map_2 in Hx. apply block_okb_ok.
    repeat (apply elem_of_cons in Hx as [[= -> ->]|Hx]; [by vm_compute|]). by apply elem_of_nil in Hx.
  - by vm_compute.
  - replace (decode_head (dblock img 2)) with (@nil Z) by by vm_compute.
    by apply lh_ok_nil, img_layout.
Qed.

(** The image after boot: at rest, and outside the log what it was. *)
Lemma img_boot : exists s v, initlog 7 1 (boot 100 img) = Ret tt s /\ at_rest 7 2 30 100 s v ∅ /\
  forall a, ~ in_log 2 30 a -> v a = img_view a.
Proof.
  destruct (boot_replay 7 2 30 100 (lay_log _ _ _ _ img_layout) img img_disk_ok) as (s & E & Hi & Hd).
  exists s, (dblock (disk (l_bio s))). split; [done|]. split.
  - constructor; [done| |done]. intros a Ha. exfalso.
    exact (boot_clean 7 2 30 100 (lay_log _ _ _ _ img_layout) img s img_disk_ok E a Ha).
  - intros a Ha. rewrite Hd by done. apply replay_empty. by vm_compute.
Qed.

(** A file of one block. *)
Lemma tree_one v a sf :
  a <> 0 -> is_data img_sb a -> used img_sb v a = true -> a ∉ sf -> tree_ok img_sb v (addrs1 a) sf.
Proof.
  intros Ha Hd Hu Hsf.
  assert (forall s, slot_ok s -> saddr v (addrs1 a) s <> 0 -> s = Root 0 /\ saddr v (addrs1 a) s = a) as Hone.
  { assert (forall i, 1 <= i -> saddr v (addrs1 a) (Root i) = 0) as H0.
    { intros i Hi. cbn. replace (Z.to_nat i) with (S (Z.to_nat (i - 1))) by lia. cbn.
      destruct (replicate 12 0 !! Z.to_nat (i - 1)) eqn:E; [|done]. by apply lookup_replicate_1 in E as [-> _]. }
    intros s Hs. destruct Hs as [[| |k Hk]|[i Hi|j Hj|k j Hk Hj]]; rewrite ?saddr_Ent, ?H0 by (unfold NDIRECT; lia).
    all: rewrite ?saddr_Ent, ?H0 by (unfold NDIRECT; lia); try done.
    intros Hne. destruct (decide (i = 0)) as [->|]; [done|]. rewrite H0 in Hne by lia. done. }
  constructor; [done| |].
  - intros s Hs Hne. destruct (Hone s Hs Hne) as [-> ->]. done.
  - intros s s' Hs Hs' Hne E. destruct (Hone s Hs Hne) as [-> _]. rewrite E in Hne. by destruct (Hone s' Hs' Hne) as [-> _].
Qed.

Lemma img_meta : meta_used img_sb img_view.
Proof.
  intros b Hb. assert (forallb (used img_sb img_view) (seqZ 0 59) = true) as H by by vm_compute.
  rewrite forallb_forall in H. apply H, list_elem_of_In, elem_of_seqZ.
  change (sb_bmapstart img_sb + sb_size img_sb / BPB) with 58 in Hb. lia.
Qed.

Lemma mapped_one v a n : a <> 0 -> n <= 512 -> mapped v (addrs1 a) n.
Proof.
  intros Ha Hn o Ho. assert (o / BSIZE = 0) as -> by plia. done.
Qed.

Definition img_inode (inum ref : Z) : inode :=
  Inode 1 inum ref Sleep.initsleeplock true (dino img_sb img_view inum).

(** The table of inodes with the root, the file and the unlinked file in it. *)
Definition img_table : list inode :=
  img_inode 1 1 :: img_inode 2 1 :: img_inode 3 1 :: replicate 47 empty_inode.

Lemma img_dinos :
  dino img_sb img_view 1 = img_root /\ dino img_sb img_view 2 = img_file /\ dino img_sb img_view 3 = img_gone /\
  dino img_sb img_view 4 = img_prog.
Proof. split_and!; vm_compute; reflexivity. Qed.

Lemma img_file_ok inum a n t nl ip :
  dino img_sb img_view inum = Dinode t 0 0 nl n (addrs1 a) -> is_ino img_sb inum ->
  img_table !! ip = Some (img_inode inum 1) -> 58 < a < 100 -> used img_sb img_view a = true ->
  0 <= n <= 512 -> 0 <= t < 4 -> 0 <= nl < 4 ->
  file_ok img_sb img_view ∅ img_table ip (img_inode inum 1).
Proof.
  intros Ed Hi Hip Ha Hu Hn Ht Hnl. constructor; cbn [img_inode i_d i_dev i_inum]; rewrite ?Ed; try done.
  - apply img_meta.
  - apply tree_one; [lia| |done|done]. unfold is_data. change (sb_bmapstart img_sb + sb_size img_sb / BPB) with 58.
    change (sb_size img_sb) with 100. lia.
  - constructor; cbn [d_type d_major d_minor d_nlink d_size d_addrs]; try lia; [done|].
    repeat constructor; lia.
  - cbn [d_size]. plia.
  - apply mapped_one; cbn [d_size]; lia.
Qed.

Lemma img_file2_ok : file_ok img_sb img_view ∅ img_table 1 (img_inode 2 1).
Proof. by apply (img_file_ok 2 60 5 T_FILE 1 1%nat). Qed.
Lemma img_gone_ok : file_ok img_sb img_view ∅ img_table 2 (img_inode 3 1).
Proof. by apply (img_file_ok 3 61 3 T_FILE 0 2%nat). Qed.
Lemma img_root_ok : file_ok img_sb img_view ∅ img_table 0 (img_inode 1 1).
Proof. by apply (img_file_ok 1 59 64 T_DIR 1 0%nat). Qed.

Lemma img_table_ic : ic_ok img_table.
Proof.
  constructor.
  - intros i x Hx. do 3 (destruct i as [|i]; [by injection Hx as <-|]).
    apply lookup_replicate_1 in Hx as [-> _]. done.
  - assert (forall i x d n, img_table !! i = Some x -> is_entry d n x -> n = Z.of_nat i + 1) as H.
    { intros i x d n Hx He. do 3 (destruct i as [|i]; [injection Hx as <-; destruct He as (_ & _ & <-); done|]).
      apply lookup_replicate_1 in Hx as [-> _]. destruct He as [He _]. by cbn in He. }
    intros i j x y d n Hi Hj Hx Hy. pose proof (H _ _ _ _ Hi Hx). pose proof (H _ _ _ _ Hj Hy). lia.
Qed.

Lemma img_dir_size : d_size (i_d (img_inode 1 1)) = 64 /\ d_type (i_d (img_inode 1 1)) = T_DIR.
Proof. split; vm_compute; reflexivity. Qed.

Lemma img_dents : entries (contents img_view (i_d (img_inode 1 1))) =
  [(1, strncpy [46] 14); (1, strncpy [46; 46] 14); (2, strncpy [97] 14); (4, strncpy [112] 14)].
Proof. vm_compute. reflexivity. Qed.

(** The inodes of the image: four, one of them a directory. *)
Lemma img_types i : is_ino img_sb i ->
  d_type (dino img_sb img_view i) = if decide (i = 1) then T_DIR else if decide (i = 2 \/ i = 3 \/ i = 4) then T_FILE else 0.
Proof.
  intros Hi. assert (forallb (fun i => d_type (dino img_sb img_view i) =?
    (if decide (i = 1) then T_DIR else if decide (i = 2 \/ i = 3 \/ i = 4) then T_FILE else 0)) (seqZ 0 200) = true) as H
    by by vm_compute.
  rewrite forallb_forall in H. apply Z.eqb_eq, H, list_elem_of_In, elem_of_seqZ. unfold is_ino in Hi. cbn in Hi. lia.
Qed.

Section disk.
Context (v : Z -> list Z) (Hv : forall a, ~ in_log 2 30 a -> v a = img_view a).

Lemma img_dino i : is_ino img_sb i -> dino img_sb v i = dino img_sb img_view i.
Proof using Hv.
  intros Hi. unfold dino. rewrite Hv; [done|]. unfold IBLOCK, in_log, is_ino in *.
  change (sb_inodestart img_sb) with 32. change IPB with 8. lia.
Qed.
End disk.
