(* ===== verification/FsTheorems.v ===== *)
(** * The theorems of the file system

    Each is proved against the block interface ([Block]); the witnesses
    instantiate it with the log over the buffer cache, on the image of [Image]. *)

From S2P Require Import Prelude Params CString Locks Kalloc Bio Log Crash Block Balloc Inode Bmap Content Itrunc Dir Icache Path Namei Pipe Syscall File FileProps Image.
Local Open Scope Z_scope.
Local Open Scope kmonad_scope.

Section layer.
Context {BS : Type} `{!BlockLayer BS} `{!BlockLaws BS}.
Context (sb : superblock) (geo : fsgeo sb) (pid : Z).
Abbreviation St := (fstate BS).
(** The types of the device tables. *)
Abbreviation devr_t := (Z -> option (nat -> Z -> M St (Z * list Z))).
Abbreviation devw_t := (Z -> option (nat -> list Z -> Z -> M St Z)).

(** C12: reading a file after writing it.  [writei] of [n] bytes at [off] and
    then [readi] of up to [m] bytes at any offset: the write succeeds, and the
    read returns what the old contents with the written bytes copied over them
    hold there, up to the new end of the file.  It can run out of disk blocks
    only with fewer than three free ones for each block that the bytes can lie
    in. *)
Theorem writei_readi (devr : devr_t) (devw : devw_t) b v sf ics ip x src off n off' m :
  file_st sb b v sf ics ip x -> d_type (i_d x) <> T_DEV -> 0 <= off <= d_size (i_d x) ->
  0 <= n <= Z.of_nat (length src) -> bytes src -> off + n <= MAXFILE * BSIZE ->
  0 <= off' <= Z.max (d_size (i_d x)) (off + n) -> 0 <= m -> off' + m < 2 ^ 32 ->
  wp (fun msg => res_panic msg \/ msg = "balloc: out of blocks"%string /\ nfree sb v < 3 * touches n)
    (r <- writei sb devw ip src off n;; r' <- readi sb devr ip off' m;; ret (r, r'))
    (fun '(r, (k, bs)) _ => r = n /\ k = Z.min m (Z.max (d_size (i_d x)) (off + n) - off') /\
       bs = sub (splice (contents v (i_d x)) (Z.to_nat off) (take (Z.to_nat n) src)) (Z.to_nat off') (Z.to_nat k))
    (FState b ics).
Proof using geo.
  intros Hf Hty Ho Hn Hby Hmax Ho' Hm Hom. assert (MAXFILE * BSIZE < 2 ^ 31) as HM by done.
  wp_step. eapply (writei_spec sb geo _ (fun msg => @or_introl _ _) devw); [done|done|lia|lia|lia|done| |lia|].
  { apply enough_touches; [lia|]. by right. }
  intros _ _ b1 v1 sf1 x1 Hf1 _ [ads Ew] Hc _ _. wp_step.
  assert (d_size (i_d x1) = Z.max (d_size (i_d x)) (off + n)) as Es by by rewrite Ew.
  eapply (readi_spec sb geo _ (fun msg => @or_introl _ _) devr); [done|by rewrite Ew|lia|lia|lia|].
  intros _ _ b2 Hf2 k. wp_step. unfold k. by rewrite Es, Hc.
Qed.

(** C29: [balloc] returns the lowest block that is free, zeroed and marked in
    use, and touches nothing else; [bfree] of it gives back the free map as it
    was.  [balloc] says that it is out of blocks only if every block is in
    use. *)
Theorem balloc_bfree b v sf :
  bst b v ∅ sf ∅ -> (forall a, a ∈ sf -> is_data sb a) -> meta_used sb v ->
  wp (fun msg => res_panic msg \/
        msg = "balloc: out of blocks"%string /\ forall a, 0 <= a < sb_size sb -> used sb v a = true)
    (c <- balloc sb 1;; bfree sb 1 c;; ret c) (fun c b' => exists v1 v',
    balloced sb v c v1 /\ bst b' v' ∅ (sf ∖ {[c]}) ∅ /\ v' c = zero_block /\
    (forall a, 0 <= a < sb_size sb -> used sb v' a = used sb v a) /\
    (forall a, ~ is_bmap sb a -> a <> c -> v' a = v a)) b.
Proof using geo.
  intros Hb Hsf Hm. wp_step.
  eapply (balloc_spec sb geo _ (fun msg => @or_introl _ _)); [done|done|done|done|by right|].
  intros c b1 v1 Hba Hb1. wp_step.
  pose proof (data_range sb (fg_tree sb geo) _ (ba_data _ _ _ _ Hba)) as Hr.
  eapply (bfree_spec sb geo _ (fun msg => @or_introl _ _)); [done| |done|lia| |].
  { intros a [Ha _]%elem_of_difference. by apply Hsf. }
  { rewrite (ba_used _ _ _ _ Hba), decide_True by (done || lia). done. }
  intros b2 v2 Hb2 [Hv2 Hu2]. wp_step. exists v1, v2. split; [done|]. split; [done|].
  split; [rewrite Hv2 by (apply data_not_bmap; apply Hba); apply Hba|]. split.
  - intros a Ha. rewrite Hu2, (ba_used _ _ _ _ Hba) by done. case_decide as E; [|done].
    subst a. symmetry. apply Hba.
  - intros a Ha Hne. rewrite Hv2 by done. by apply (ba_frame _ _ _ _ Hba).
Qed.

(** C11: [bmap] over the direct, the indirect and the double-indirect blocks: it
    returns the address of block [bn], which is a data block in use; every
    block the file had keeps its address; two blocks of the file never share
    an address; a block that was missing was free before and is zero.  It can
    run out of disk blocks only for a missing block, with fewer than three
    free ones. *)
Theorem bmap_correct b v sf ics ip x bn :
  fok sb b v ∅ sf (d_addrs (i_d x)) -> ics !! ip = Some x -> i_dev x = 1 -> 0 <= bn < MAXFILE ->
  wp (fun msg => res_panic msg \/ msg = "balloc: out of blocks"%string /\
        saddr v (d_addrs (i_d x)) (fslot bn) = 0 /\ nfree sb v < 3)
    (bmap sb ip bn) (fun r s' => exists b' v' sf' ads',
    s' = FState b' (<[ip := with_d x (with_addrs (i_d x) ads')]> ics) /\ fok sb b' v' ∅ sf' ads' /\
    r = saddr v' ads' (fslot bn) /\ is_data sb r /\ used sb v' r = true /\
    (saddr v (d_addrs (i_d x)) (fslot bn) = 0 -> used sb v r = false /\ v' r = zero_block) /\
    (forall n, 0 <= n < MAXFILE -> n <> bn ->
       saddr v' ads' (fslot n) = saddr v (d_addrs (i_d x)) (fslot n)) /\
    (forall n n', 0 <= n < MAXFILE -> 0 <= n' < MAXFILE -> n <> n' ->
       saddr v' ads' (fslot n) <> 0 -> saddr v' ads' (fslot n) <> saddr v' ads' (fslot n')) /\
    (saddr v (d_addrs (i_d x)) (fslot bn) <> 0 ->
       r = saddr v (d_addrs (i_d x)) (fslot bn) /\ forall a, v' a = v a)) (FState b ics).
Proof using geo.
  intros Hf Hip Hdev Hbn.
  eapply (bmap_spec sb geo _ (fun msg => @or_introl _ _)); [done|done|done|done|intros H0 H3; by right|].
  intros b' v' sf' ads' r Hf' Hbm. exists b', v', sf', ads'. split; [done|]. split; [done|].
  pose proof Hbm as (-> & Hr & ss & G & _ & Hss). split; [done|].
  pose proof (fslot_leaf bn Hbn) as Hlf. pose proof (fo_tree _ _ _ _ _ _ Hf') as T'.
  destruct (tr_data _ _ _ _ T' (fslot bn) (leaf_ok _ Hlf) Hr) as (Hd & Hu & _).
  split; [done|]. split; [done|]. split; [|split; [|split]].
  - intros H0. destruct (decide (fslot bn ∈ ss)) as [Hin|Hout].
    + destruct (g_new _ _ _ _ _ _ _ _ G _ Hin) as (_ & _ & _ & ?). split; [done|].
      by apply (g_zero _ _ _ _ _ _ _ _ G).
    + by rewrite (g_old _ _ _ _ _ _ _ _ G) in Hr by (done || by apply leaf_ok).
  - intros n Hn Hne. apply (g_old _ _ _ _ _ _ _ _ G); [by apply leaf_ok, fslot_leaf|].
    intros [E|[Hint _]]%Hss; [by apply Hne, fslot_inj|].
    by apply (leaf_not_interior _ (fslot_leaf n Hn)) in Hint.
  - intros n n' Hn Hn' Hne H0 E. apply Hne, fslot_inj; [done|done|].
    apply (tr_inj _ _ _ _ T'); try done; by apply leaf_ok, fslot_leaf.
  - intros Hp. destruct (bmapped_present sb v (d_addrs (i_d x)) sf bn v' ads' sf' _ Hbm Hp) as (E1 & _ & _ & E2); done.
Qed.

(** [dirlookup] finds the first entry with the name: it returns a
    referenced entry of the inode table for the inode the directory names, and
    the entry's offset; it returns nothing if no entry has the name. *)
Theorem dirlookup_correct (devr : devr_t) b v sf ics dp x name :
  dir_st sb b v sf ics dp x -> ic_ok ics ->
  wp fs_panic (dirlookup sb devr dp name) (fun o s' => exists b' ics',
    s' = FState b' ics' /\ bst b' v ∅ sf ∅ /\
    match find_name name (dents v x) with
    | None => o = None /\ ics' = ics
    | Some (k, inum) => exists ip, o = Some (ip, Z.of_nat k * 16) /\ got ics 1 inum ip ics'
    end) (FState b ics).
Proof using geo.
  intros Hd Hok. eapply (dirlookup_spec sb geo fs_panic fs_panic_res devr); [done| |].
  - intros -> b' Hd'. exists b', ics. split; [done|]. split; [apply Hd'|done].
  - intros k inum b' -> Hd'. eapply iget_spec; [done|intros _; apply fs_panic_iget|].
    intros ip ics' Hg. exists b', ics'. split; [done|]. split; [apply Hd'|]. by exists ip.
Qed.

(** C27: [dirlink] of a name that is not in the directory: it returns 0, the
    name now stands for [inum], every other name stands for what it did, and
    the rest of the file system is untouched.  It can run out of disk blocks
    only with fewer than six free ones. *)
Theorem dirlink_correct (devr : devr_t) (devw : devw_t) b v sf ics dp x name inum :
  dir_st sb b v sf ics dp x -> find_name name (dents v x) = None -> 0 < inum < 2 ^ 16 -> bytes name ->
  d_size (i_d x) + 16 <= MAXFILE * BSIZE ->
  wp (fun msg => res_panic msg \/ msg = "balloc: out of blocks"%string /\ nfree sb v < 6)
    (dirlink pid sb devr devw dp name inum) (fun r s' => r = 0 /\ exists b' v' sf' x',
    s' = FState b' (<[dp := x']> ics) /\ dir_st sb b' v' sf' (<[dp := x']> ics) dp x' /\
    snd <$> find_name name (dents v' x') = Some inum /\
    (forall name', cstr 14 name' <> cstr 14 name ->
       snd <$> find_name name' (dents v' x') = snd <$> find_name name' (dents v x)) /\
    others_kept sb v x v' x') (FState b ics).
Proof using geo.
  intros Hd Hn Hi Hby Hmax.
  eapply (dirlink_spec sb geo _ (fun msg => @or_introl _ _) devr pid devw); [done|done|lia|done|done|by right|].
  intros b' v' sf' x' Hd' Hok He. split; [done|]. exists b', v', sf', x'. rewrite He.
  split; [done|]. split; [done|]. split; [by apply find_add_entry; [lia|]|]. split; [|done].
  intros name' Hne. by apply find_add_entry_ne.
Qed.

(** C28: [ialloc] takes the lowest inode whose type is 0, writes a zeroed inode
    of the new type there and no other inode, and returns a referenced entry
    of the table for it.  It says that there are no inodes only if none has
    type 0, and [iget] says so only if every entry of the table is in use. *)
Theorem ialloc_correct b v sf ics type :
  bst b v ∅ sf ∅ -> data_only sb ∅ sf -> ic_ok ics -> - 2 ^ 15 <= type < 2 ^ 15 ->
  wp (fun msg => res_panic msg \/
        msg = "ialloc: no inodes"%string /\ (forall j, 1 <= j < sb_ninodes sb -> d_type (dino sb v j) <> 0) \/
        msg = "iget: no inodes"%string /\ forall i x, ics !! i = Some x -> i_ref x <> 0)
    (ialloc sb 1 type) (fun ip s' => exists inum b' v' ics',
    s' = FState b' ics' /\ bst b' v' ∅ sf ∅ /\ got ics 1 inum ip ics' /\
    1 <= inum < sb_ninodes sb /\ d_type (dino sb v inum) = 0 /\
    (forall j, 1 <= j < inum -> d_type (dino sb v j) <> 0) /\
    (forall j, is_ino sb j -> dino sb v' j = if decide (j = inum) then zero_dinode type else dino sb v j) /\
    (forall a, a <> IBLOCK sb inum -> v' a = v a)) (FState b ics).
Proof using geo.
  intros Hb Hdo Hok Hty.
  eapply (ialloc_spec sb geo _ (fun msg => @or_introl _ _)); try done; [intros H; right; by left|intros H; right; by right|].
  intros ip inum b' v' ics' [A1 A2 A3 [A4 A5]] Hb' Hg. by exists inum, b', v', ics'.
Qed.

(** C10: [iput] of the last reference to a file without links: every block of
    the file, over the direct, indirect and double-indirect blocks, is free
    and every other block is as used as it was; the inode on the disk is free
    (type 0) with no bytes; every other inode is untouched and the entry of the
    table can be reused. *)
Theorem iput_frees b v sf ics ip x :
  file_st sb b v sf ics ip x -> Sleep.locked (i_lock x) = false ->
  i_valid x = true -> d_nlink (i_d x) = 0 -> i_ref x = 1 ->
  wp res_panic (iput pid sb ip) (fun _ s' => exists b' v' sf' x',
    s' = FState b' (<[ip := x']> ics) /\ bst b' v' ∅ sf' ∅ /\ i_ref x' = 0 /\
    d_type (dino sb v' (i_inum x)) = 0 /\ d_size (dino sb v' (i_inum x)) = 0 /\
    (forall bn, 0 <= bn < MAXFILE -> saddr v (d_addrs (i_d x)) (fslot bn) <> 0 ->
       used sb v' (saddr v (d_addrs (i_d x)) (fslot bn)) = false) /\
    (forall c, 0 <= c < sb_size sb -> used sb v' c = true <-> used sb v c = true /\
       ~ exists s, slot_ok s /\ saddr v (d_addrs (i_d x)) s <> 0 /\ c = saddr v (d_addrs (i_d x)) s) /\
    (forall j, is_ino sb j -> j <> i_inum x -> dino sb v' j = dino sb v j)) (FState b ics).
Proof using geo.
  intros Hf Hl Hv Hn Hr. eapply (iput_free sb geo res_panic (fun _ H => H) pid); [done..|].
  intros b' v' sf' x' [F1 F2 F3] Hb' _ Hr' _ _. pose proof (fs_inum _ _ _ _ _ _ _ Hf) as Hi.
  exists b', v', sf', x'. split; [done|]. split; [done|]. split; [done|].
  rewrite (F3 _ Hi), decide_True by done. split; [done|]. split; [done|]. split; [|split; [done|]].
  - intros bn Hbn Hne. pose proof (leaf_ok _ (fslot_leaf bn Hbn)) as Hs.
    destruct (tr_data _ _ _ _ (fo_tree _ _ _ _ _ _ (fs_fok _ _ _ _ _ _ _ Hf)) _ Hs Hne) as (Hd & _ & _).
    apply not_true_iff_false. rewrite F2 by (apply (data_range sb (fg_tree sb geo)) in Hd; lia).
    intros [_ H]. apply H. by exists (fslot bn).
  - intros j Hj Hne. by rewrite F3, decide_False.
Qed.

(** C8: [namex] resolves paths.  From the root (a path that starts with [/]) or
    the current directory, it follows the components through the contents of
    the directories; it returns a referenced table entry for the inode they
    lead to (for the parent, and the last component, if [np]), or nothing if a
    component is missing or not a directory.  It gives back every other
    reference it took, leaves no lock behind and does not change the disk. *)
Theorem namex_resolves (devr : devr_t) np b v sf ics cwd path name i :
  tree_fs sb b v sf -> table_ok sb pid v ics None -> start_ok sb v ics cwd path i -> nonzero path ->
  wp fs_panic (namex pid sb cwd devr path np name) (fun o s' => exists b' ics',
    s' = FState b' ics' /\ tree_fs sb b' v sf /\ table_ok sb pid v ics' None /\
    match resolve sb np v i (components path) with
    | None => o = None /\ forall d n, refs ics' d n = refs ics d n
    | Some (j, c) => exists ip name' x, o = Some (ip, name') /\ ics' !! ip = Some x /\ is_entry 1 j x /\
        (np = true -> cstr 14 name' = take 14 c) /\
        forall d n, refs ics' d n = refs ics d n + if decide (d = 1 /\ n = j) then 1 else 0
    end) (FState b ics).
Proof using geo.
  intros Hfs Ht Hst Hz.
  eapply wp_post; [apply (namex_spec sb geo fs_panic fs_panic_res fs_panic_iget pid devr); done|].
  intros o [b' ics'] (ics1 & H1 & [L1 L2 L3]). exists b', ics'. split; [done|]. split; [done|]. split; [done|].
  cbn [f_inodes] in L3. destruct (resolve _ _ _ _ _) as [[j c]|], o as [[ip name']|]; try done.
  - destruct L3 as ((x & Hx & He) & Hc & Hr). exists ip, name', x. split; [done|]. split; [done|]. split; [done|].
    split; [done|]. intros d n. rewrite Hr, H1. unfold minus1. lia.
  - split; [done|]. intros d n. rewrite L3, H1. lia.
Qed.
End layer.

Section log_files.
Context (pid start size nb : Z) (sb : superblock) (lay : layout start size nb sb).
Context (devw : Z -> option (nat -> list Z -> Z -> M (fstate lstate) Z)).

(** C2: a transaction of [filewrite] is atomic and durable across crashes.  It
    returns [n1] with the bytes in the file at its offset, the offset moved,
    the other files untouched and the log ready.  If the machine stops after
    any number [k] of the transaction's block writes, and the boots that follow
    after any numbers [ks] of theirs, then once [initlog] is left to finish the
    disk outside the log is either what it was before the call or what it is
    after it, depending on [k] alone.  A chunk of the size that [filewrite]
    uses never fills the log or the cache. *)
Theorem filewrite_crash_atomic s f x y v sf src n1 :
  open_file pid start size nb sb s f x y v sf -> 0 <= n1 <= Z.of_nat (length src) -> bytes src ->
  0 <= f_off x <= d_size (i_d y) -> f_off x + n1 <= MAXFILE * BSIZE ->
  wp (chunk_panic size sb n1 v) (write_chunk pid sb devw f src n1) (fun r s' => r = n1 /\ exists y' v' sf',
    open_file pid start size nb sb s' f (file_off x (f_off x + n1)) y' v' sf' /\ sf' ⊆ sf /\
    contents v' (i_d y') = splice (contents v (i_d y)) (Z.to_nat (f_off x)) (take (Z.to_nat n1) src) /\
    (exists v2, others_kept sb v y v2 y' /\ forall a, ~ in_log start size a -> v' a = v2 a) /\
    exists n, forall k ks, exists s'',
      initlog pid 1 (boot nb (crashed pid nb (f_blk (k_fs s)) (f_blk (k_fs s')) k ks)) = Ret tt s'' /\
      idle pid start size nb s'' /\
      forall a, ~ in_log start size a -> a ∉ sf ->
        dblock (disk (l_bio s'')) a = if decide (k <= n)%nat then v a else v' a) s.
Proof using lay.
  intros Hs Hn Hby Ho Hmax. eapply (write_chunk_spec pid start size nb sb lay devw); [done..|].
  intros s' y' v' sf' [C1 C2 (v2 & C3 & C4 & [_ (n & C5)]) Csf _ C6 C7]. split; [done|]. exists y', v', sf'.
  assert (Z.of_nat (length (take (Z.to_nat n1) src)) = n1) as Hl by (rewrite length_take; lia). rewrite Hl in C1.
  split; [done|]. split; [done|]. split; [done|]. split; [by exists v2|]. exists n. intros k ks.
  destruct (C5 k ks) as (s'' & E & Hi & Hd). exists s''. split; [done|]. split; [done|].
  intros a Ha Hsf. rewrite Hd by (done || by intros ?%Csf). case_decide; [|by rewrite C4].
  apply (ar_disk _ _ _ _ _ _ _ (of_rest _ _ _ _ _ _ _ _ _ _ _ Hs)). done.
Qed.

(** C7: [filewrite] of [n] bytes to an open file, over as many transactions as
    it takes: it returns [n], the bytes are in the file from the old offset on,
    the rest of the contents is as it was, and the offset has moved by [n].  No
    transaction is too big for the log, and the cache never runs out of
    buffers: the only panic is that the disk runs out of blocks, and then fewer
    than twelve were free for each of the transactions. *)
Theorem filewrite_correct s f x y v sf addr n :
  size = LOGSIZE -> open_file pid start size nb sb s f x y v sf -> f_type x = FD_INODE -> f_writable x = true ->
  0 <= n <= Z.of_nat (length addr) -> bytes addr ->
  0 <= f_off x <= d_size (i_d y) -> f_off x + n <= MAXFILE * BSIZE ->
  wp (fun msg => msg = "balloc: out of blocks"%string /\ nfree sb v < write_needs n)
    (filewrite pid sb devw f addr n) (fun r s' => r = n /\ exists y' v' sf',
    open_file pid start size nb sb s' f (file_off x (f_off x + n)) y' v' sf' /\
    i_inum y' = i_inum y /\ d_size (i_d y') = Z.max (d_size (i_d y)) (f_off x + n) /\
    contents v' (i_d y') = splice (contents v (i_d y)) (Z.to_nat (f_off x)) (take (Z.to_nat n) addr)) s.
Proof using lay.
  intros Hz Hs Ht Hw Hn Hby Ho Hmax. unfold filewrite. do 2 wp_step.
  rewrite (getfile_lookup _ _ _ (of_file _ _ _ _ _ _ _ _ _ _ _ Hs)), Hw, Ht. cbn [negb]. wp_step.
  eapply wp_post; [apply (filewrite_loop_spec pid start size nb sb lay devw Hz _ _ s f x y v sf); [done|lia|lia|done|lia|done|lia|]|].
  { rewrite Z.sub_0_r. done. }
  intros r s' (-> & y' & v' & sf' & D1 & D2 & D3 & D4). wp_step. rewrite Z.eqb_refl. split; [done|].
  rewrite Z.sub_0_r in *. change (sub addr (Z.to_nat 0) (Z.to_nat n)) with (take (Z.to_nat n) addr) in *.
  assert (Z.of_nat (length (take (Z.to_nat n) addr)) = n) as Hl by (rewrite length_take; lia). rewrite Hl in *.
  exists y', v', sf'. done.
Qed.
End log_files.

(** ** The theorems on the image *)

(** A closed goal, by evaluation. *)
Ltac by_compute := clear; by vm_compute.

Definition no_devr (BS : Type) (major : Z) : option (nat -> Z -> M (fstate BS) (Z * list Z)) := None.
Definition no_devw (BS : Type) (major : Z) : option (nat -> list Z -> Z -> M (fstate BS) Z) := None.

(** Whether the call returns. *)
Definition returns {St A} (m : M St A) (s : St) : bool := match m s with Ret _ _ => true | _ => false end.

Lemma wp_returns {St A} E (m : M St A) Q s : wp E m Q s -> returns m s = true -> wp nopanic m Q s.
Proof. unfold wp, returns. by destruct (m s). Qed.

(** The evaluation of a test after boot. *)
Lemma img_runs (f : lstate -> bool) s :
  initlog 7 1 (boot 100 img) = Ret tt s ->
  match initlog 7 1 (boot 100 img) with Ret _ s' => f s' | _ => false end = true -> f s = true.
Proof. by intros ->. Qed.

(** The call returns in the state after boot: by evaluation. *)
Ltac img_returns s E :=
  match goal with |- ?b = true =>
    match eval pattern s in b with ?f _ => apply (img_runs f s E); by_compute end
  end.

(** The block layer in a transaction that began in [s]. *)
Definition img_laws (s : lstate) : BlockLaws (BlockLayer0 := log_layer 7) lstate :=
  log_laws 7 2 30 100 (lay_log _ _ _ _ img_layout) (begun s).

Lemma img_geo s : fsgeo (BlockLaws0 := img_laws s) img_sb.
Proof. apply (layout_fsgeo 7 2 30 100 img_sb img_layout). Qed.

(** A file of the image in a transaction after boot. *)
Lemma img_file_st s v ip x :
  at_rest 7 2 30 100 s v ∅ -> (forall a, ~ in_log 2 30 a -> v a = img_view a) ->
  file_ok img_sb img_view ∅ img_table ip x ->
  file_st (BlockLaws0 := img_laws s) img_sb (begun s) v ∅ img_table ip x /\
  contents v (i_d x) = contents img_view (i_d x).
Proof.
  intros Hr Hv Hf. destruct (file_ok_log 7 2 30 100 img_sb img_layout img_view v _ _ _ _ Hf Hv) as [Hf' Hc].
  split; [|done]. apply (file_ok_st 7 2 30 100 img_sb img_layout); [|done].
  by apply (at_rest_bst 7 2 30 100 img_sb img_layout).
Qed.

(** Two bytes over the start of [hello], and a read of ten. *)
Lemma writei_readi_witness : exists s v,
  initlog 7 1 (boot 100 img) = Ret tt s /\ at_rest 7 2 30 100 s v ∅ /\
  wp nopanic (r <- writei (BlockLayer0 := log_layer 7) img_sb (no_devw _) 1 [72; 69] 0 2;;
               r' <- readi (BlockLayer0 := log_layer 7) img_sb (no_devr _) 1 0 10;; ret (r, r'))
    (fun '(r, (k, bs)) _ => r = 2 /\ k = 5 /\ bs = [72; 69; 108; 108; 111]) (FState (begun s) img_table).
Proof.
  destruct img_boot as (s & v & E & Hr & Hv). exists s, v. split; [exact E|]. split; [exact Hr|].
  destruct (img_file_st s v 1 _ Hr Hv img_file2_ok) as [Hf Hc].
  eapply wp_returns; [clear E|img_returns s E].
  eapply wp_post; [refine (writei_readi (BlockLaws0 := img_laws s) img_sb (img_geo s) (no_devr _) (no_devw _)
    (begun s) v ∅ img_table 1 (img_inode 2 1) [72; 69] 0 2 0 10 Hf _ _ _ _ _ _ _ _)|].
  1-3,5-8: by_compute. { repeat constructor; lia. }
  intros [r [k bs]] _ (-> & -> & ->). rewrite Hc. by_compute.
Defined.

Lemma img_bst s v : at_rest 7 2 30 100 s v ∅ -> bst (BlockLaws0 := img_laws s) (begun s) v ∅ ∅ ∅.
Proof. apply (at_rest_bst 7 2 30 100 img_sb img_layout). Qed.

(** Blocks 0 to 62 are in use: the lowest free one is 63. *)
Lemma balloc_bfree_witness : exists s v,
  initlog 7 1 (boot 100 img) = Ret tt s /\ at_rest 7 2 30 100 s v ∅ /\
  wp nopanic (c <- balloc (BlockLayer0 := log_layer 7) img_sb 1;;
               bfree (BlockLayer0 := log_layer 7) img_sb 1 c;; ret c) (fun c _ => c = 63) (begun s).
Proof.
  destruct img_boot as (s & v & E & Hr & Hv). exists s, v. split; [exact E|]. split; [exact Hr|].
  destruct (img_file_st s v 1 _ Hr Hv img_file2_ok) as [Hf _].
  eapply wp_returns; [clear E|img_returns s E].
  eapply wp_post; [refine (balloc_bfree (BlockLaws0 := img_laws s) img_sb (img_geo s) (begun s) v ∅
    (img_bst s v Hr) _ _)|].
  { done. } { apply Hf. }
  intros c _ (v1 & _ & Hba & _).
  assert (forall a, 0 <= a < 100 -> used img_sb v a = used img_sb img_view a) as Hu.
  { intros a Ha. apply used_same; [|done]. intros d Hd. apply Hv.
    unfold is_bmap in Hd. unfold in_log. change (sb_bmapstart img_sb) with 58 in Hd. lia. }
  pose proof (ba_data _ _ _ _ Hba) as Hd. unfold is_data in Hd. change (sb_size img_sb) with 100 in Hd.
  change (sb_bmapstart img_sb + 100 / BPB) with 58 in Hd.
  pose proof (ba_free _ _ _ _ Hba) as Hfree. rewrite Hu in Hfree by lia.
  destruct (decide (c < 63)) as [Hlt|Hge].
  - exfalso. assert (c = 59 \/ c = 60 \/ c = 61 \/ c = 62) as [->|[->|[->| ->]]] by lia; revert Hfree; by_compute.
  - destruct (decide (c = 63)) as [|Hne]; [done|]. exfalso.
    pose proof (ba_first _ _ _ _ Hba 63 ltac:(lia)) as H63. rewrite Hu in H63 by lia. revert H63. by_compute.
Defined.

(** Block 0 of [/a], which it has, and block 12, behind the indirect block. *)
Lemma bmap_correct_witness : exists s v,
  initlog 7 1 (boot 100 img) = Ret tt s /\ at_rest 7 2 30 100 s v ∅ /\
  wp nopanic (bmap (BlockLayer0 := log_layer 7) img_sb 1 0) (fun r _ => r = 60) (FState (begun s) img_table) /\
  wp nopanic (bmap (BlockLayer0 := log_layer 7) img_sb 1 12) (fun r _ => r <> 60) (FState (begun s) img_table).
Proof.
  destruct img_boot as (s & v & E & Hr & Hv). exists s, v. split; [exact E|]. split; [exact Hr|].
  destruct (img_file_st s v 1 _ Hr Hv img_file2_ok) as [Hf _]. split.
  - eapply wp_returns; [clear E|img_returns s E].
    eapply wp_post; [refine (bmap_correct (BlockLaws0 := img_laws s) img_sb (img_geo s) (begun s) v ∅ img_table 1
      (img_inode 2 1) 0 (fs_fok _ _ _ _ _ _ _ Hf) eq_refl eq_refl _)|]; [by_compute|].
    intros r _ (b' & v' & sf' & ads' & _ & _ & _ & _ & _ & _ & _ & _ & H).
    destruct H as [-> _]; change (saddr v (d_addrs (i_d (img_inode 2 1))) (fslot 0)) with 60; done.
  - eapply wp_returns; [clear E|img_returns s E].
    eapply wp_post; [refine (bmap_correct (BlockLaws0 := img_laws s) img_sb (img_geo s) (begun s) v ∅ img_table 1
      (img_inode 2 1) 12 (fs_fok _ _ _ _ _ _ _ Hf) eq_refl eq_refl _)|]; [by_compute|].
    intros r _ (b' & v' & sf' & ads' & _ & _ & -> & Hd & _ & _ & Hold & Hinj & _) E12.
    specialize (Hold 0 ltac:(by_compute) ltac:(lia)).
    change (saddr v (d_addrs (i_d (img_inode 2 1))) (fslot 0)) with 60 in Hold.
    apply (Hinj 0 12); [by_compute|by_compute|lia|by rewrite Hold|]. by rewrite Hold, E12.
Defined.

Lemma img_dir_st s v :
  at_rest 7 2 30 100 s v ∅ -> (forall a, ~ in_log 2 30 a -> v a = img_view a) ->
  dir_st (BlockLaws0 := img_laws s) img_sb (begun s) v ∅ img_table 0 (img_inode 1 1) /\
  dents v (img_inode 1 1) = [(1, strncpy [46] 14); (1, strncpy [46; 46] 14); (2, strncpy [97] 14); (4, strncpy [112] 14)].
Proof.
  intros Hr Hv. destruct (img_file_st s v 0 _ Hr Hv img_root_ok) as [Hf Hc]. split.
  - constructor; [exact Hf|apply img_dir_size|]. by rewrite (proj1 img_dir_size).
  - unfold dents. rewrite Hc. apply img_dents.
Qed.

(** The name [a] in the root directory: entry 2, inode 2. *)
Lemma dirlookup_correct_witness : exists s v,
  initlog 7 1 (boot 100 img) = Ret tt s /\ at_rest 7 2 30 100 s v ∅ /\
  wp nopanic (dirlookup (BlockLayer0 := log_layer 7) img_sb (no_devr _) 0 [97])
    (fun o s' => exists ip, o = Some (ip, 32) /\ exists ics', f_inodes s' = ics' /\ got img_table 1 2 ip ics')
    (FState (begun s) img_table).
Proof.
  destruct img_boot as (s & v & E & Hr & Hv). exists s, v. split; [exact E|]. split; [exact Hr|].
  destruct (img_dir_st s v Hr Hv) as [Hd He].
  eapply wp_returns; [clear E|img_returns s E].
  eapply wp_post; [exact (dirlookup_correct (BlockLaws0 := img_laws s) img_sb (img_geo s) (no_devr _)
    (begun s) v ∅ img_table 0 (img_inode 1 1) [97] Hd img_table_ic)|].
  intros o s' (b' & ics' & -> & _ & H). rewrite He in H.
  change (find_name [97] _) with (Some (2%nat, 2)) in H. destruct H as (ip & -> & Hg).
  exists ip. split; [reflexivity|]. exists ics'. split; [reflexivity|exact Hg].
Defined.

(** A new name [b] for inode 3. *)
Lemma dirlink_correct_witness : exists s v,
  initlog 7 1 (boot 100 img) = Ret tt s /\ at_rest 7 2 30 100 s v ∅ /\
  wp nopanic (dirlink (BlockLayer0 := log_layer 7) 7 img_sb (no_devr _) (no_devw _) 0 [98] 3)
    (fun r s' => r = 0 /\ exists v' x', snd <$> find_name [98] (dents v' x') = Some 3 /\
       snd <$> find_name [97] (dents v' x') = Some 2) (FState (begun s) img_table).
Proof.
  destruct img_boot as (s & v & E & Hr & Hv). exists s, v. split; [exact E|]. split; [exact Hr|].
  destruct (img_dir_st s v Hr Hv) as [Hd He].
  eapply wp_returns; [clear E|img_returns s E].
  eapply wp_post; [refine (dirlink_correct (BlockLaws0 := img_laws s) img_sb (img_geo s) 7 (no_devr _) (no_devw _)
    (begun s) v ∅ img_table 0 (img_inode 1 1) [98] 3 Hd _ _ _ _)|].
  { rewrite He. reflexivity. } { by_compute. } { repeat constructor; lia. } { by_compute. }
  intros r s' (-> & b' & v' & sf' & x' & _ & _ & H1 & H2 & _). split; [done|]. exists v', x'. split; [exact H1|].
  rewrite (H2 [97]) by (by_compute). rewrite He. reflexivity.
Defined.

Lemma img_data_only : data_only img_sb ∅ ∅.
Proof. split; [intros a Ha; by apply elem_of_empty in Ha|intros i c Hc; by rewrite lookup_empty in Hc]. Qed.

(** Inodes 1 to 4 are taken: the new one is 5. *)
Lemma ialloc_correct_witness : exists s v,
  initlog 7 1 (boot 100 img) = Ret tt s /\ at_rest 7 2 30 100 s v ∅ /\
  wp nopanic (ialloc (BlockLayer0 := log_layer 7) img_sb 1 T_FILE)
    (fun ip s' => got img_table 1 5 ip (f_inodes s')) (FState (begun s) img_table).
Proof.
  destruct img_boot as (s & v & E & Hr & Hv). exists s, v. split; [exact E|]. split; [exact Hr|].
  eapply wp_returns; [clear E|img_returns s E].
  eapply wp_post; [refine (ialloc_correct (BlockLaws0 := img_laws s) img_sb (img_geo s) (begun s) v ∅ img_table T_FILE
    (img_bst s v Hr) img_data_only img_table_ic _)|]; [by_compute|].
  intros ip s' (inum & b' & v' & ics' & -> & _ & Hg & Hi & Ht & Hlow & _).
  change (sb_ninodes img_sb) with 200 in Hi.
  assert (forall i, 1 <= i < 200 -> d_type (dino img_sb v i) =
    if decide (i = 1) then T_DIR else if decide (i = 2 \/ i = 3 \/ i = 4) then T_FILE else 0) as Hty.
  { intros i Hi'. assert (is_ino img_sb i) as Hino by (unfold is_ino; change (sb_ninodes img_sb) with 200; lia).
    rewrite (img_dino v Hv) by done. by apply img_types. }
  assert (inum = 5) as ->; [|exact Hg]. rewrite Hty in Ht by lia. unfold T_DIR, T_FILE in Ht.
  destruct (decide (5 < inum)) as [Hlt|Hge]; [|repeat case_decide; lia].
  exfalso. specialize (Hlow 5 ltac:(lia)). rewrite Hty in Hlow by lia. done.
Defined.

(** The unlinked file, inode 3, with one block. *)
Lemma iput_frees_witness : exists s v,
  initlog 7 1 (boot 100 img) = Ret tt s /\ at_rest 7 2 30 100 s v ∅ /\
  wp nopanic (iput (BlockLayer0 := log_layer 7) 7 img_sb 2)
    (fun _ s' => exists v', used img_sb v' 61 = false /\ d_type (dino img_sb v' 3) = 0 /\
       dino img_sb v' 2 = dino img_sb v 2)
    (FState (begun s) img_table).
Proof.
  destruct img_boot as (s & v & E & Hr & Hv). exists s, v. split; [exact E|]. split; [exact Hr|].
  destruct (img_file_st s v 2 _ Hr Hv img_gone_ok) as [Hf _].
  eapply wp_returns; [clear E|img_returns s E].
  eapply wp_post; [refine (iput_frees (BlockLaws0 := img_laws s) img_sb (img_geo s) 7 (begun s) v ∅ img_table 2
    (img_inode 3 1) Hf eq_refl eq_refl _ eq_refl)|]; [by_compute|].
  intros [] s' (b' & v' & sf' & x' & -> & _ & _ & H1 & _ & H2 & _ & H3). exists v'. split; [|split].
  - apply (H2 0); [by_compute|]. change (saddr v (d_addrs (i_d (img_inode 3 1))) (fslot 0)) with 61. done.
  - exact H1.
  - apply H3; by_compute.
Defined.

Lemma img_linked v i : (forall a, ~ in_log 2 30 a -> v a = img_view a) -> i = 1 \/ i = 2 \/ i = 4 -> linked img_sb v i.
Proof.
  intros Hv Hi. assert (is_ino img_sb i) as Hino by (unfold is_ino; change (sb_ninodes img_sb) with 200; lia).
  unfold linked. rewrite (img_dino v Hv) by done. split; [done|].
  destruct img_dinos as (E1 & E2 & _ & E4). destruct Hi as [->|[->| ->]]; [rewrite E1|rewrite E2|rewrite E4]; by_compute.
Qed.

Lemma img_tree_fs s v :
  at_rest 7 2 30 100 s v ∅ -> (forall a, ~ in_log 2 30 a -> v a = img_view a) ->
  tree_fs (BlockLaws0 := img_laws s) img_sb (begun s) v ∅.
Proof.
  intros Hr Hv. destruct (img_dir_st s v Hr Hv) as [[Hf Ht Hs] He]. constructor.
  - by apply img_bst.
  - apply img_data_only.
  - apply Hf.
  - intros i (Hi & _) Hty. rewrite (img_dino v Hv), img_types in Hty by done.
    destruct (decide (i = 1)) as [->|]; [|repeat case_decide; done]. clear Hty.
    assert (dino img_sb v 1 = i_d (img_inode 1 1)) as Ed by (apply (img_dino v Hv); done).
    constructor; rewrite ?Ed; try apply Hf; [done|].
    unfold dir_entries. rewrite Ed. change (entries (contents v (i_d (img_inode 1 1)))) with (dents v (img_inode 1 1)).
    rewrite He. intros k e Hk _. apply img_linked; [done|].
    do 4 (destruct k as [|k]; [injection Hk as <-; cbn; lia|]). done.
Qed.

Lemma img_table_ok v : (forall a, ~ in_log 2 30 a -> v a = img_view a) -> table_ok img_sb 7 v img_table None.
Proof.
  intros Hv. constructor; [apply img_table_ic|..].
  - intros ip x Hx. rewrite decide_False by done. do 3 (destruct ip as [|ip]; [by injection Hx as <-|]).
    by apply lookup_replicate_1 in Hx as [-> _].
  - intros ip x Hx Hr. do 3 (destruct ip as [|ip]; [injection Hx as <-; by_compute|]).
    apply lookup_replicate_1 in Hx as [-> _]. by cbn in Hr.
  - intros ip x Hx Hr _.
    do 3 (destruct ip as [|ip]; [injection Hx as <-; symmetry; apply (img_dino v Hv); by_compute|]).
    apply lookup_replicate_1 in Hx as [-> _]. by cbn in Hr.
Qed.

(** The path [/a]. *)
Lemma namex_resolves_witness : exists s v,
  initlog 7 1 (boot 100 img) = Ret tt s /\ at_rest 7 2 30 100 s v ∅ /\
  wp nopanic (namex (BlockLayer0 := log_layer 7) 7 img_sb 0 (no_devr _) [47; 97] false (replicate 14 0))
    (fun o s' => exists ip name x, o = Some (ip, name) /\ f_inodes s' !! ip = Some x /\ i_inum x = 2 /\
       refs (f_inodes s') 1 2 = refs img_table 1 2 + 1 /\ refs (f_inodes s') 1 1 = refs img_table 1 1)
    (FState (begun s) img_table).
Proof.
  destruct img_boot as (s & v & E & Hr & Hv). exists s, v. split; [exact E|]. split; [exact Hr|].
  eapply wp_returns; [clear E|img_returns s E].
  eapply wp_post; [refine (namex_resolves (BlockLaws0 := img_laws s) img_sb (img_geo s) 7 (no_devr _) false (begun s) v ∅
    img_table 0 [47; 97] (replicate 14 0) 1 (img_tree_fs s v Hr Hv) (img_table_ok v Hv) _ _)|].
  { split; [apply img_linked; [exact Hv|by left]|reflexivity]. } { by repeat constructor. }
  intros o s' (b' & ics' & -> & _ & _ & H).
  assert (resolve img_sb false v 1 (components [47; 97]) = Some (2, [])) as Er.
  { change (components [47; 97]) with [[97]]. cbn [resolve]. unfold dir_entries.
    assert (dino img_sb v 1 = i_d (img_inode 1 1)) as -> by (apply (img_dino v Hv); by_compute).
    rewrite (proj2 img_dir_size). change (entries (contents v (i_d (img_inode 1 1)))) with (dents v (img_inode 1 1)).
    rewrite (proj2 (img_dir_st s v Hr Hv)). reflexivity. }
  rewrite Er in H. destruct H as (ip & name' & x & -> & Hx & (_ & _ & Hi) & _ & Href).
  exists ip, name', x. cbn [f_inodes]. split; [done|]. split; [done|]. split; [done|].
  rewrite !Href. split; [done|]. rewrite decide_False by lia. lia.
Defined.

(** An open file on inode 2, at offset 3. *)
Definition img_open : file := File FD_INODE 1 true true 0 1 3.
Definition img_kstate (s : lstate) : kstate :=
  KState (FState s img_table) (Kmem false 0 ∅) [img_open] ∅ (User [] 0) [Some 0%nat] 0 false (-1).

Lemma img_open_file s v :
  at_rest 7 2 30 100 s v ∅ -> (forall a, ~ in_log 2 30 a -> v a = img_view a) ->
  open_file 7 2 30 100 img_sb (img_kstate s) 0 img_open (img_inode 2 1) v ∅ /\
  contents v (i_d (img_inode 2 1)) = [104; 101; 108; 108; 111].
Proof.
  intros Hr Hv. destruct (file_ok_log 7 2 30 100 img_sb img_layout img_view v _ _ _ _ img_file2_ok Hv) as [Hf Hc].
  split; [|rewrite Hc; by_compute]. constructor; try done; by_compute.
Qed.

(** [LOW] at offset 3 of [hello], the crash after the first block write. *)
Lemma filewrite_crash_atomic_witness : exists s v,
  initlog 7 1 (boot 100 img) = Ret tt s /\ at_rest 7 2 30 100 s v ∅ /\
  wp nopanic (write_chunk 7 img_sb (no_devw _) 0 [76; 79; 87] 3)
    (fun r s' => r = 3 /\ exists y' v', contents v' (i_d y') = [104; 101; 108; 76; 79; 87] /\
       exists s'', initlog 7 1 (boot 100 (crashed 7 100 s (f_blk (k_fs s')) 0 [])) = Ret tt s'' /\
         dblock (disk (l_bio s'')) 60 = v 60) (img_kstate s).
Proof.
  destruct img_boot as (s & v & E & Hr & Hv). exists s, v. split; [exact E|]. split; [exact Hr|].
  destruct (img_open_file s v Hr Hv) as [Ho Hc].
  eapply wp_returns; [clear E|img_returns s E].
  eapply wp_post; [refine (filewrite_crash_atomic 7 2 30 100 img_sb img_layout (no_devw _) (img_kstate s) 0 img_open
    (img_inode 2 1) v ∅ [76; 79; 87] 3 Ho _ _ _ _)|].
  { by_compute. } { repeat constructor; lia. } { by_compute. } { by_compute. }
  intros r s' (-> & y' & v' & sf' & _ & _ & Hc' & _ & n & Hk). split; [reflexivity|]. exists y', v'. split.
  { rewrite Hc', Hc. reflexivity. }
  destruct (Hk 0%nat []) as (s'' & Es & _ & Hd). exists s''. split; [exact Es|]. clear Es.
  rewrite Hd; [|unfold in_log; lia|apply not_elem_of_empty]. rewrite decide_True by lia. reflexivity.
Defined.

(** 2000 bytes from offset 3 on: two transactions. *)
Lemma filewrite_correct_witness : exists s v,
  initlog 7 1 (boot 100 img) = Ret tt s /\ at_rest 7 2 30 100 s v ∅ /\
  wp nopanic (filewrite 7 img_sb (no_devw _) 0 (replicate 2000 65) 2000)
    (fun r s' => r = 2000 /\ exists y' v', contents v' (i_d y') = [104; 101; 108] ++ replicate 2000 65) (img_kstate s).
Proof.
  destruct img_boot as (s & v & E & Hr & Hv). exists s, v. split; [exact E|]. split; [exact Hr|].
  destruct (img_open_file s v Hr Hv) as [Ho Hc].
  eapply wp_returns; [clear E|img_returns s E].
  eapply wp_post; [refine (filewrite_correct 7 2 30 100 img_sb img_layout (no_devw _) (img_kstate s) 0 img_open
    (img_inode 2 1) v ∅ (replicate 2000 65) 2000 eq_refl Ho eq_refl eq_refl _ _ _ _)|].
  { by_compute. } { apply Forall_replicate. unfold is_byte. lia. } { by_compute. } { by_compute. }
  intros r s' (-> & y' & v' & sf' & _ & _ & _ & Hc'). split; [reflexivity|]. exists y', v'. rewrite Hc', Hc. by_compute.
Defined.
