(* ===== verification/Grep.v ===== *)
(** * The [grep] program ([user/grep.c])

    The matcher of Kernighan and Pike, and the loop that cuts what [read]
    returns into lines.  A text is the list of its bytes before the NUL. *)

From S2P Require Import Prelude CString.
Local Open Scope Z_scope.

(** ** The matcher *)

(** The loop of [matchstar]; [here] is [matchhere] on the rest of the
    expression. *)
Fixpoint star_loop (here : list Z -> bool) (c : Z) (text : list Z) : bool :=
  here text ||
  match text with
  | [] => false
  | t :: text' => if (t =? c) || (c =? 46) then star_loop here c text' else false
  end.

(** [*s == '\0'] *)
Definition at_end (s : list Z) : bool := match s with [] => true | _ => false end.

Fixpoint matchhere (re text : list Z) : bool :=
  match re with
  | [] => true
  | c :: re1 =>
      let one :=
        if (c =? 36) && at_end re1 then at_end text
        else match text with
             | [] => false
             | t :: text' => if (c =? 46) || (c =? t) then matchhere re1 text' else false
             end in
      match re1 with
      | [] => one
      | c2 :: re2 => if c2 =? 42 then star_loop (matchhere re2) c text else one
      end
  end.

Definition matchstar (c : Z) (re text : list Z) : bool := star_loop (matchhere re) c text.

(** The [do] loop of [match]. *)
Fixpoint match_loop (re text : list Z) : bool :=
  matchhere re text ||
  match text with
  | [] => false
  | _ :: text' => match_loop re text'
  end.

Definition rmatch (re text : list Z) : bool :=
  if chd re =? 94 then matchhere (tail re) text else match_loop re text.

(** ** The loop over the lines *)

(** The bytes from [p] to the NUL. *)
Definition text_at (buf : list Z) (p : nat) : list Z := cstr (length buf) (drop p buf).

(** [memmove(buf, p, m)], with the user library's [memmove]. *)
Definition move_down (buf : list Z) (p m : nat) : list Z :=
  (fun i => umemmove (fun a => default 0 (buf !! Z.to_nat a)) 0 (Z.of_nat p) (Z.of_nat m) (Z.of_nat i))
    <$> seq 0 (length buf).

(** The inner loop, from [p]: the buffer, the last [p], and what is written.
    [p] moves up in every turn, so the buffer's length bounds the turns. *)
Fixpoint scan_lines (fuel : nat) (pattern buf : list Z) (p : nat) (out : list Z) : list Z * nat * list Z :=
  match fuel with
  | O => (buf, p, out)
  | S fuel' =>
      match strchr (drop p buf) 10 with
      | None => (buf, p, out)
      | Some rest =>
          let q := (length buf - length rest)%nat in
          let buf := <[q := 0]> buf in
          if rmatch pattern (text_at buf p) then
            let buf := <[q := 10]> buf in
            scan_lines fuel' pattern buf (q + 1) (out ++ sub buf p (q + 1 - p))
          else scan_lines fuel' pattern buf (q + 1) out
      end
  end.

Section reader.
(** The open file: [read] returns at most the number of bytes it is asked for,
    and none at the end or on an error. *)
Context {Inp : Type} (read : Inp -> nat -> list Z * Inp).

(** The outer loop; [None] when the fuel runs out. *)
Fixpoint grep (fuel : nat) (pattern : list Z) (inp : Inp) (buf : list Z) (m : nat) (out : list Z)
  : option (list Z) :=
  match fuel with
  | O => None
  | S fuel' =>
      let '(d, inp) := read inp (1024 - m - 1) in
      match d with
      | [] => Some out
      | _ =>
          let m := (m + length d)%nat in
          let buf := <[m := 0]> (splice buf (m - length d) d) in
          let '(buf, p, out) := scan_lines (length buf) pattern buf 0 out in
          let m := if (p =? 0)%nat then 0%nat else m in
          if (0 <? m)%nat then
            grep fuel' pattern inp (move_down buf p (m - p)) (m - p) out
          else grep fuel' pattern inp buf m out
      end
  end.
End reader.

(** [char buf[1024]] *)
Definition grep_buf : list Z := replicate 1024 0.

(** A file read from the disk: reads are short only at the end. *)
Definition file_read (inp : list Z) (n : nat) : list Z * list Z := (take n inp, drop n inp).

(** ** What an expression means *)

Inductive item :=
| One (c : Z)
| Many (c : Z)
| Eol.

Fixpoint items (re : list Z) : list item :=
  match re with
  | [] => []
  | c :: re1 =>
      let one := if (c =? 36) && at_end re1 then [Eol] else One c :: items re1 in
      match re1 with
      | [] => one
      | c2 :: re2 => if c2 =? 42 then Many c :: items re2 else one
      end
  end.

Definition accepts (c t : Z) : Prop := c = 46 \/ c = t.

(** A text that starts with a match. *)
Inductive Starts : list item -> list Z -> Prop :=
| Starts_nil text : Starts [] text
| Starts_one c t its text : accepts c t -> Starts its text -> Starts (One c :: its) (t :: text)
| Starts_many c its w text : Forall (accepts c) w -> Starts its text -> Starts (Many c :: its) (w ++ text)
| Starts_eol : Starts [Eol] [].

(** A text with a match somewhere, or at its start if the expression begins
    with a caret. *)
Definition contains (re text : list Z) : Prop :=
  if decide (chd re = 94) then Starts (items (tail re)) text
  else exists before rest, text = before ++ rest /\ Starts (items re) rest.

(** ** The matcher decides it *)

Lemma star_loop_spec here (P : list Z -> Prop) c :
  (forall text, here text = true <-> P text) ->
  forall text, star_loop here c text = true <->
    exists w rest, text = w ++ rest /\ Forall (accepts c) w /\ P rest.
Proof.
  intros Hh. induction text as [|t text IH]; cbn [star_loop]; rewrite orb_true_iff, Hh.
  - split.
    + intros [H|H]; [|done]. by exists [], [].
    + intros (w & rest & E & _ & HP). destruct w, rest; by (left || discriminate E).
  - split.
    + intros [H|H]; [by exists [], (t :: text)|].
      destruct ((t =? c) || (c =? 46)) eqn:Ec; [|done].
      apply IH in H as (w & rest & -> & Hw & HP). exists (t :: w), rest. split_and!; [done| |done].
      constructor; [unfold accepts; lia|done].
    + intros ([|x w] & rest & E & Hw & HP); cbn in E; [left; by subst|].
      injection E as <- ->. apply Forall_cons in Hw as [Hx Hw]. right.
      replace ((t =? c) || (c =? 46)) with true by (unfold accepts in Hx; lia).
      apply IH. by exists w, rest.
Qed.

Lemma matchhere_spec n : forall re, (length re <= n)%nat ->
  forall text, matchhere re text = true <-> Starts (items re) text.
Proof.
  induction n as [|n IH]; intros re Hn text.
  { destruct re; [|cbn in Hn; lia]. split; [constructor|done]. }
  destruct re as [|c re1]; [split; [constructor|done]|].
  assert (One : (if (c =? 36) && at_end re1 then at_end text
        else match text with
             | [] => false
             | t :: text' => if (c =? 46) || (c =? t) then matchhere re1 text' else false
             end) = true <->
        Starts (if (c =? 36) && at_end re1 then [Eol] else One c :: items re1) text).
  { destruct ((c =? 36) && at_end re1).
    - destruct text; split; (constructor || done || (intros H; inversion H)).
    - destruct text as [|t text]; [split; [done|intros H; inversion H]|].
      destruct ((c =? 46) || (c =? t)) eqn:Ec.
      + rewrite IH by (cbn in Hn; lia). split.
        * intros H. constructor; [unfold accepts; lia|done].
        * intros H. by inversion H.
      + split; [done|]. intros H. inversion H as [|? ? ? ? Ha| |]; subst. unfold accepts in Ha. lia. }
  cbn [matchhere items]. destruct re1 as [|c2 re2]; [exact One|].
  destruct (c2 =? 42); [|exact One].
  rewrite (star_loop_spec _ (Starts (items re2))) by (intros; apply IH; cbn in Hn; lia).
  split.
  - intros (w & rest & -> & Hw & HP). by constructor.
  - intros H. inversion H; subst. eauto.
Qed.

Lemma match_loop_spec re text :
  match_loop re text = true <-> exists before rest, text = before ++ rest /\ Starts (items re) rest.
Proof.
  induction text as [|t text IH]; cbn [match_loop]; rewrite orb_true_iff, (matchhere_spec _ re (le_n _)).
  - split.
    + intros [H|H]; [|done]. by exists [], [].
    + intros (w & rest & E & HP). destruct w, rest; by (left || discriminate E).
  - split.
    + intros [H|H]; [by exists [], (t :: text)|].
      apply IH in H as (w & rest & -> & HP). by exists (t :: w), rest.
    + intros ([|x w] & rest & E & HP); cbn in E; [left; by subst|].
      injection E as <- ->. right. apply IH. by exists w, rest.
Qed.

Lemma rmatch_spec re text : rmatch re text = true <-> contains re text.
Proof.
  unfold rmatch, contains. destruct (chd re =? 94) eqn:E.
  - rewrite decide_True by lia. by apply (matchhere_spec (length (tail re))).
  - rewrite decide_False by lia. apply match_loop_spec.
Qed.

#[global] Instance contains_dec pattern l : Decision (contains pattern l).
Proof.
  refine (cast_if (decide (rmatch pattern l = true))); by rewrite <- rmatch_spec.
Defined.

(** ** The loop prints the matching lines *)

Definition line (l : list Z) : Prop := Forall (fun c => c <> 0 /\ c <> 10) l.
Definition unlines (ls : list (list Z)) : list Z := concat ((fun l => l ++ [10]) <$> ls).
Definition matching (pattern : list Z) (ls : list (list Z)) : list (list Z) :=
  filter (fun l => contains pattern l) ls.

Lemma unlines_cons l ls : unlines (l :: ls) = l ++ 10 :: unlines ls.
Proof. unfold unlines. cbn. by rewrite <- app_assoc. Qed.

Lemma unlines_app l1 l2 : unlines (l1 ++ l2) = unlines l1 ++ unlines l2.
Proof. unfold unlines. by rewrite fmap_app, concat_app. Qed.

Lemma strchr_line l rest : line l -> strchr (l ++ 10 :: rest) 10 = Some (10 :: rest).
Proof.
  induction 1 as [|c l [H1 H2] _ IH]; [done|]. cbn [app strchr].
  by rewrite (proj2 (Z.eqb_neq c 0) H1), (proj2 (Z.eqb_neq c 10) H2).
Qed.

Lemma strchr_none l junk : line l -> strchr (l ++ 0 :: junk) 10 = None.
Proof.
  induction 1 as [|c l [H1 H2] _ IH]; [done|]. cbn [app strchr].
  by rewrite (proj2 (Z.eqb_neq c 0) H1), (proj2 (Z.eqb_neq c 10) H2).
Qed.

Lemma cstr_line n l junk : line l -> (length l <= n)%nat -> cstr n (l ++ 0 :: junk) = l.
Proof. intros Hl. apply cstr_terminated. eapply Forall_impl; [exact Hl|]. cbn. tauto. Qed.

Lemma insert_at (pre : list Z) x y rest : <[length pre := y]> (pre ++ x :: rest) = pre ++ y :: rest.
Proof. rewrite insert_app_r_alt by lia. by rewrite Nat.sub_diag. Qed.

Lemma scan_lines_spec pattern ls : forall fuel pre r junk out,
  Forall line ls -> line r -> (length ls <= fuel)%nat ->
  exists pre', length pre' = (length pre + length (unlines ls))%nat /\
    scan_lines fuel pattern (pre ++ unlines ls ++ r ++ 0 :: junk) (length pre) out =
      (pre' ++ r ++ 0 :: junk, length pre', out ++ unlines (matching pattern ls)).
Proof.
  induction ls as [|l ls IH]; intros fuel pre r junk out Hls Hr Hf.
  { exists pre. split; [cbn; lia|]. change (unlines (matching pattern [])) with (@nil Z).
    change (unlines []) with (@nil Z). rewrite app_nil_r, app_nil_l.
    destruct fuel; cbn [scan_lines]; [done|]. by rewrite drop_app_length, strchr_none. }
  apply Forall_cons in Hls as [Hl Hls]. destruct fuel as [|fuel]; [cbn in Hf; lia|].
  cbn [scan_lines]. rewrite unlines_cons, <- (app_assoc l), <- app_comm_cons.
  rewrite drop_app_length, strchr_line by done. set (rest := unlines ls ++ r ++ 0 :: junk).
  replace (length (pre ++ l ++ 10%Z :: rest) - length (10%Z :: rest))%nat with (length (pre ++ l))
    by (rewrite !length_app; lia).
  rewrite app_assoc, insert_at. unfold text_at. rewrite <- app_assoc, drop_app_length.
  rewrite cstr_line by (done || rewrite !length_app; lia).
  unfold matching. rewrite filter_cons. fold (matching pattern ls).
  destruct (rmatch pattern l) eqn:E.
  - rewrite decide_True by (by apply rmatch_spec). rewrite app_assoc, insert_at.
    destruct (IH fuel ((pre ++ l) ++ [10]) r junk (out ++ (l ++ [10])) Hls Hr) as (pre' & Hp & Hs); [cbn in Hf; lia|].
    exists pre'. split; [rewrite Hp, !length_app; cbn; lia|].
    rewrite unlines_cons. fold rest in Hs.
    replace (((pre ++ l) ++ [10]) ++ rest) with ((pre ++ l) ++ 10 :: rest) in Hs by (by rewrite <- (app_assoc _ [10])).
    replace (out ++ l ++ 10 :: unlines (matching pattern ls)) with ((out ++ l ++ [10]) ++ unlines (matching pattern ls))
      by (by rewrite <- !app_assoc).
    rewrite <- Hs. f_equal; [by rewrite (length_app (pre ++ l))|].
    f_equal. rewrite <- app_assoc. unfold sub. rewrite drop_app_length.
    replace (length (pre ++ l) + 1 - length pre)%nat with (length (l ++ [10])) by (rewrite !length_app; cbn; lia).
    change (l ++ 10 :: rest) with (l ++ [10] ++ rest). by rewrite app_assoc, take_app_length.
  - rewrite decide_False by (rewrite <- rmatch_spec; congruence).
    destruct (IH fuel ((pre ++ l) ++ [0]) r junk out Hls Hr) as (pre' & Hp & Hs); [cbn in Hf; lia|].
    exists pre'. split; [rewrite Hp, !length_app; cbn; lia|].
    fold rest in Hs.
    replace (((pre ++ l) ++ [0]) ++ rest) with ((pre ++ l) ++ 0 :: rest) in Hs by (by rewrite <- (app_assoc _ [0])).
    rewrite <- Hs, app_assoc. f_equal. by rewrite (length_app (pre ++ l)).
Qed.

Lemma move_down_spec (pre r junk : list Z) :
  exists junk', move_down (pre ++ r ++ 0 :: junk) (length pre) (length r) = r ++ junk' /\
    length (r ++ junk') = length (pre ++ r ++ 0 :: junk).
Proof.
  set (b := pre ++ r ++ 0 :: junk). unfold move_down.
  set (l := _ <$> _).
  assert (Hl : length l = length b) by (unfold l; by rewrite length_fmap, length_seq).
  exists (drop (length r) l).
  assert (E : take (length r) l = r).
  { apply list_eq. intros i. destruct (decide (i < length r)%nat) as [Hi|Hi].
    2: { rewrite lookup_take_ge, (lookup_ge_None_2 r) by lia. done. }
    rewrite lookup_take_lt by done. unfold l. rewrite list_lookup_fmap.
    assert (i < length b)%nat by (unfold b; rewrite !length_app; lia).
    rewrite lookup_seq_lt by done. cbn [fmap option_fmap option_map]. rewrite Nat.add_0_l.
    rewrite umemmove_spec by lia. rewrite decide_True by lia.
    replace (Z.to_nat _) with (length pre + i)%nat by lia. unfold b.
    rewrite lookup_app_r by lia. replace (_ + i - _)%nat with i by lia.
    rewrite lookup_app_l by done. destruct (lookup_lt_is_Some_2 r i Hi) as [x ->]. done. }
  split; [|rewrite <- Hl, length_app, length_drop; rewrite <- E at 1; rewrite length_take; lia].
  rewrite <- (take_drop (length r) l) at 1. by rewrite E.
Qed.

(** The lines complete in the first [k] bytes. *)
Lemma cut_lines ls : forall r k, Forall line ls -> line r ->
  exists ls1 ls2 r1, ls = ls1 ++ ls2 /\ line r1 /\
    take k (unlines ls ++ r) = unlines ls1 ++ r1 /\
    r1 ++ drop k (unlines ls ++ r) = unlines ls2 ++ r.
Proof.
  induction ls as [|l ls IH]; intros r k Hls Hr.
  { exists [], [], (take k r). cbn. rewrite take_drop. split_and!; try done. by apply Forall_take. }
  apply Forall_cons in Hls as [Hl Hls]. rewrite unlines_cons, <- app_assoc, <- app_comm_cons.
  destruct (decide (k <= length l)%nat) as [Hk|Hk].
  - exists [], (l :: ls), (take k l). rewrite take_app_le, drop_app_le by done. split_and!; try done.
    + by apply Forall_take.
    + rewrite unlines_cons, <- app_assoc, <- app_comm_cons. by rewrite app_assoc, take_drop.
  - destruct (IH r (k - length l - 1)%nat Hls Hr) as (ls1 & ls2 & r1 & -> & Hr1 & Ht & Hd).
    exists (l :: ls1), ls2, r1. split_and!; [done|done| |].
    + rewrite take_app_ge by lia. destruct (k - length l)%nat as [|k'] eqn:Ek; [lia|].
      cbn [take]. replace (S k' - 1)%nat with k' in Ht by lia.
      by rewrite unlines_cons, <- app_assoc, Ht.
    + rewrite drop_app_ge by lia. destruct (k - length l)%nat as [|k'] eqn:Ek; [lia|].
      cbn [drop]. by replace (S k' - 1)%nat with k' in Hd by lia.
Qed.

(** One turn of the outer loop on a file, [w] being the unread part. *)
Lemma grep_file_turn fuel pattern w r0 junk out ls1 r1 :
  length (r0 ++ junk) = 1024%nat -> (length r0 < 1023)%nat -> w <> [] ->
  r0 ++ take (1023 - length r0) w = unlines ls1 ++ r1 -> Forall line ls1 -> line r1 ->
  exists r2 junk', length (r2 ++ junk') = 1024%nat /\ r2 = (if decide (ls1 = []) then [] else r1) /\
    grep file_read (S fuel) pattern w (r0 ++ junk) (length r0) out =
    grep file_read fuel pattern (drop (1023 - length r0) w) (r2 ++ junk') (length r2)
      (out ++ unlines (matching pattern ls1)).
Proof.
  intros Hb Hm Hw Hcut Hls1 Hr1. set (d := take _ w) in Hcut.
  assert (Hd : d <> []). { destruct w; [done|]. unfold d. destruct (1023 - length r0)%nat eqn:E; [lia|done]. }
  assert (Hdl : (length r0 + length d < 1024)%nat) by (unfold d; rewrite length_take; lia).
  rewrite length_app in Hb.
  cbn [grep file_read]. replace (1024 - length r0 - 1)%nat with (1023 - length r0)%nat by lia. fold d.
  destruct d as [|d0 d'] eqn:Ed; [done|]. rewrite <- Ed in *. clear Ed d0 d'.
  replace (length r0 + length d - length d)%nat with (length r0) by lia.
  destruct (drop (length d) junk) as [|j0 junk'] eqn:Ej.
  { apply (f_equal length) in Ej. rewrite length_drop in Ej. cbn in Ej. lia. }
  assert (Hbuf : <[(length r0 + length d)%nat := 0]> (splice (r0 ++ junk) (length r0) d) = [] ++ unlines ls1 ++ r1 ++ 0 :: junk').
  { unfold splice. rewrite take_app_length, drop_app_add, Ej, app_assoc, <- length_app, insert_at, Hcut.
    by rewrite <- app_assoc. }
  rewrite Hbuf. set (b := [] ++ unlines ls1 ++ r1 ++ 0 :: junk').
  assert (Hlb : length b = 1024%nat).
  { apply (f_equal length) in Ej, Hcut. rewrite length_drop in Ej. cbn in Ej. rewrite !length_app in Hcut.
    unfold b. rewrite !length_app. cbn. lia. }
  destruct (scan_lines_spec pattern ls1 (length b) [] r1 junk' out Hls1 Hr1) as (pre' & Hp & Hs).
  { rewrite Hlb. apply (f_equal length) in Hcut. rewrite !length_app in Hcut.
    assert (length ls1 <= length (unlines ls1))%nat; [|lia].
    clear. induction ls1 as [|l ls IH]; [done|]. rewrite unlines_cons, length_app. cbn. lia. }
  change (length (@nil Z)) with 0%nat in Hs. fold b in Hs. rewrite Hs. cbn [length] in Hp.
  assert (Hcl := f_equal length Hcut). rewrite !length_app in Hcl.
  destruct (decide (ls1 = [])) as [->|Hne].
  - change (length (unlines [])) with 0%nat in Hp. rewrite Hp. cbn [Nat.add Nat.eqb Nat.ltb Nat.leb].
    exists [], (pre' ++ r1 ++ 0 :: junk'). split_and!; [|done|done].
    rewrite <- Hlb. unfold b. rewrite !app_nil_l, !length_app, Hp. done.
  - assert (0 < length (unlines ls1))%nat.
    { destruct ls1; [done|]. rewrite unlines_cons, length_app. cbn. lia. }
    replace (length pre' =? 0)%nat with false by (symmetry; apply Nat.eqb_neq; lia).
    replace (0 <? length r0 + length d)%nat with true by (symmetry; apply Nat.ltb_lt; lia).
    replace (length r0 + length d - length pre')%nat with (length r1) by lia.
    destruct (move_down_spec pre' r1 junk') as (junk2 & -> & Hj).
    exists r1, junk2. split_and!; [|done|done].
    rewrite Hj, <- Hlb. unfold b. rewrite !length_app, Hp. cbn. lia.
Qed.

Lemma grep_file fuel : forall pattern w r0 junk out ls r,
  length (r0 ++ junk) = 1024%nat -> line r0 ->
  r0 ++ w = unlines ls ++ r -> Forall line ls -> line r ->
  Forall (fun l => length l < 1023)%nat (r0 :: r :: ls) -> (length w < fuel)%nat ->
  grep file_read fuel pattern w (r0 ++ junk) (length r0) out = Some (out ++ unlines (matching pattern ls)).
Proof.
  induction fuel as [|fuel IH]; intros pattern w r0 junk out ls r Hb Hr0 Hw Hls Hr Hlen Hf; [lia|].
  apply Forall_cons in Hlen as [Hl0 Hlen]. apply Forall_cons in Hlen as [Hlr Hlen].
  destruct (decide (w = [])) as [->|Hne].
  { rewrite app_nil_r in Hw. destruct ls as [|l ls].
    - cbn [grep file_read]. by rewrite take_nil, app_nil_r.
    - exfalso. rewrite Hw, unlines_cons in Hr0. apply Forall_app in Hr0 as [Hr0 _].
      apply Forall_app in Hr0 as [_ Hr0]. apply Forall_cons in Hr0 as [[_ Hr0] _]. done. }
  destruct (cut_lines ls r 1023 Hls Hr) as (ls1 & ls2 & r1 & -> & Hr1 & Ht & Hd).
  rewrite <- Hw in Ht, Hd. rewrite take_app_ge in Ht by lia. rewrite drop_app_ge in Hd by lia.
  apply Forall_app in Hls as [Hls1 Hls2]. apply Forall_app in Hlen as [Hlen1 Hlen2].
  destruct (grep_file_turn fuel pattern w r0 junk out ls1 r1 Hb Hl0 Hne Ht Hls1 Hr1) as (r2 & junk' & Hb2 & Er2 & ->).
  assert (Hdl : (length (drop (1023 - length r0) w) < fuel)%nat).
  { rewrite length_drop. assert (0 < length w)%nat by (destruct w; [done|cbn; lia]). lia. }
  unfold matching. rewrite filter_app, unlines_app, app_assoc. fold (matching pattern ls1) (matching pattern ls2).
  destruct (decide (ls1 = [])) as [->|Hne1]; subst r2.
  - (* no line is complete: the file ends here *)
    assert (E : ls2 = [] /\ drop (1023 - length r0) w = []).
    { assert (Hl1 := f_equal length Ht). rewrite !length_app, length_take in Hl1. cbn in Hl1.
      destruct ls2 as [|l ls2].
      - split; [done|]. cbn in Hd. apply (f_equal length) in Hd. rewrite length_app in Hd.
        apply nil_length_inv. rewrite length_drop in *. lia.
      - exfalso. apply Forall_cons in Hlen2 as [Hll _]. rewrite unlines_cons in Hd.
        assert (Hx : r1 !! length l = Some 10).
        { rewrite <- (lookup_app_l r1 (drop (1023 - length r0) w)).
          - rewrite Hd, <- app_assoc, lookup_app_r, Nat.sub_diag by lia. done.
          - apply (f_equal length) in Hd. rewrite !length_app, length_drop in Hd. cbn in Hd.
            lia. }
        eapply Forall_lookup_1 in Hr1; [|exact Hx]. naive_solver. }
    destruct E as [-> E]. rewrite E. destruct fuel; [rewrite E in Hdl; cbn in Hdl; lia|].
    cbn [grep file_read]. rewrite take_nil. cbn. by rewrite !app_nil_r.
  - apply (IH pattern _ r1 junk' _ ls2 r); try done.
    constructor; [|by constructor].
    assert (Hl1 := f_equal length Ht). rewrite !length_app, length_take in Hl1.
    destruct ls1 as [|l ls1]; [done|]. rewrite unlines_cons, length_app in Hl1. cbn in Hl1. lia.
Qed.

(** C33: [grep] prints the matching lines of a file.  For a file of lines [ls],
    each shorter than the buffer and without NUL bytes, and an unterminated
    rest [r], the program reads the file to its end, terminates, and writes
    exactly the lines that contain a match of the expression, in order: however
    the lines lie across the buffer's boundaries.  The unterminated rest is
    never printed. *)
Theorem grep_prints_matching_lines pattern ls r :
  Forall line ls -> line r -> Forall (fun l => length l < 1023)%nat (r :: ls) ->
  grep file_read (S (length (unlines ls ++ r))) pattern (unlines ls ++ r) grep_buf 0 [] =
    Some (unlines (matching pattern ls)).
Proof.
  intros Hls Hr Hlen.
  apply (grep_file _ pattern (unlines ls ++ r) [] grep_buf [] ls r); try done.
  - by constructor.
  - constructor; [cbn; lia|done].
  - lia.
Qed.

(** The lines [ab], [cd] and [xab] and the expression [^a.]. *)
Lemma grep_prints_matching_lines_witness :
  grep file_read 11 [94; 97; 46] [97; 98; 10; 99; 100; 10; 120; 97; 98; 10] grep_buf 0 [] =
    Some [97; 98; 10].
Proof.
  refine (eq_trans (grep_prints_matching_lines [94; 97; 46] [[97; 98]; [99; 100]; [120; 97; 98]] [] _ _ _) _).
  - repeat constructor; lia.
  - constructor.
  - repeat constructor; cbn; lia.
  - vm_compute. reflexivity.
Defined.

(** A reader that returns what is there, as a pipe or the console does. *)
Definition chunk_read (inp : list (list Z)) (n : nat) : list Z * list (list Z) :=
  match inp with
  | [] => ([], [])
  | d :: inp' => (take n d, if (length d <=? n)%nat then inp' else drop n d :: inp')
  end.

(** A line that arrives in two reads loses its first part: [ab], then a rest
    [c] and a newline, do not match [ab]. *)
Lemma grep_loses_split_line :
  grep chunk_read 9 [97; 98] [[97; 98]; [99; 10]] grep_buf 0 [] = Some [] /\
  grep chunk_read 9 [97; 98] [[97; 98; 99; 10]] grep_buf 0 [] = Some [97; 98; 99; 10].
Proof. split; vm_compute; reflexivity. Qed.
