(* ===== verification/Umalloc.v ===== *)
(** * The user memory allocator ([user/umalloc.c])

    The allocator of Kernighan and Ritchie: a circular list of free blocks in
    address order, with a [Header] in front of every block.  A pointer is its
    address; the memory is the map from the addresses of headers to headers. *)

From stdpp Require Import sorting.
From S2P Require Import Prelude Params.
Local Open Scope Z_scope.

(** [union header]: eight bytes. *)
Record header := Header { h_ptr : Z; h_size : Z }.
Definition sizeof_Header : Z := 8.

(** The memory, [freep], and the end of the process's memory. *)
Record ust := Ust { m_hdr : gmap Z header; freep : Z; m_brk : Z }.

Definition hdr (s : ust) (p : Z) : header := default (Header 0 0) (m_hdr s !! p).
Definition ptr (s : ust) (p : Z) : Z := h_ptr (hdr s p).
Definition size (s : ust) (p : Z) : Z := h_size (hdr s p).
Definition set_hdr (s : ust) (p : Z) (h : header) : ust := Ust (<[p := h]> (m_hdr s)) (freep s) (m_brk s).
Definition set_ptr (s : ust) (p q : Z) : ust := set_hdr s p (Header q (size s p)).
Definition set_size (s : ust) (p n : Z) : ust := set_hdr s p (Header (ptr s p) n).
Definition set_freep (s : ust) (p : Z) : ust := Ust (m_hdr s) p (m_brk s).

(** Every turn of the loops below visits a header; no header is visited more
    than four times. *)
Definition turns (s : ust) : nat := (4 * stdpp.base.size (m_hdr s) + 8)%nat.

(** The [for] loop of [free]: [None] when the fuel runs out. *)
Fixpoint find_prev (fuel : nat) (s : ust) (bp p : Z) : option Z :=
  match fuel with
  | O => None
  | S fuel' =>
      if (p <? bp) && (bp <? ptr s p) then Some p else
      if (ptr s p <=? p) && ((p <? bp) || (bp <? ptr s p)) then Some p else
      find_prev fuel' s bp (ptr s p)
  end.

Definition free (ap : Z) (s : ust) : option ust :=
  let bp := ap - sizeof_Header in
  match find_prev (turns s) s bp (freep s) with
  | None => None
  | Some p =>
      let s :=
        if bp + sizeof_Header * size s bp =? ptr s p then
          let s := set_size s bp (u32 (size s bp + size s (ptr s p))) in
          set_ptr s bp (ptr s (ptr s p))
        else set_ptr s bp (ptr s p) in
      let s :=
        if p + sizeof_Header * size s p =? bp then
          let s := set_size s p (u32 (size s p + size s bp)) in
          set_ptr s p (ptr s bp)
        else set_ptr s p bp in
      Some (set_freep s p)
  end.

Section allocator.
(** The address of the static header [base]. *)
Context (base : Z).
(** Whether the kernel grants an [sbrk] of so many bytes at this break. *)
Context (grants : Z -> Z -> bool).

(** [sbrk]: the old break, or -1. *)
Definition sbrk (n : Z) (s : ust) : Z * ust :=
  if grants (m_brk s) n then (m_brk s, Ust (m_hdr s) (freep s) (m_brk s + n)) else (-1, s).

Definition morecore (nu : Z) (s : ust) : option (Z * ust) :=
  let nu := if nu <? 4096 then 4096 else nu in
  let '(p, s) := sbrk (s32 (nu * sizeof_Header)) s in
  if p =? -1 then Some (0, s) else
  let hp := p in
  let s := set_size s hp nu in
  match free (hp + sizeof_Header) s with
  | None => None
  | Some s => Some (freep s, s)
  end.

(** The block [p], after [prevp], is large enough. *)
Definition take_block (nunits prevp p : Z) (s : ust) : option Z * ust :=
  if size s p =? nunits then
    let s := set_ptr s prevp (ptr s p) in
    (Some (p + sizeof_Header), set_freep s prevp)
  else
    let s := set_size s p (u32 (size s p - nunits)) in
    let p := p + sizeof_Header * size s p in
    let s := set_size s p nunits in
    (Some (p + sizeof_Header), set_freep s prevp).

Fixpoint malloc_loop (fuel : nat) (nunits prevp p : Z) (s : ust) : option (option Z * ust) :=
  match fuel with
  | O => None
  | S fuel' =>
      if nunits <=? size s p then Some (take_block nunits prevp p s) else
      if p =? freep s then
        match morecore nunits s with
        | None => None
        | Some (p, s) =>
            if p =? 0 then Some (None, s) else malloc_loop fuel' nunits p (ptr s p) s
        end
      else malloc_loop fuel' nunits p (ptr s p) s
  end.

Definition units (nbytes : Z) : Z := u32 (nbytes + sizeof_Header - 1) / sizeof_Header + 1.

(** The result is [None] when the fuel runs out, [Some (None, _)] when [malloc]
    returns 0. *)
Definition malloc (nbytes : Z) (s : ust) : option (option Z * ust) :=
  let nunits := units nbytes in
  let s := if freep s =? 0 then Ust (<[base := Header base 0]> (m_hdr s)) base (m_brk s) else s in
  malloc_loop (turns s) nunits (freep s) (ptr s (freep s)) s.

(** ** The free list *)

(** A block: the address of its header and its size in units. *)
Local Notation block := (Z * Z)%type.
Definition stop (b : block) : Z := b.1 + 8 * b.2.
Definition disj (b c : block) : Prop := stop b <= c.1 \/ stop c <= b.1.
Definition gap (b c : block) : Prop := stop b < c.1.

(** The first address of a list that ends with a link to [e]. *)
Definition first (ns : list block) (e : Z) : Z := match ns with [] => e | b :: _ => b.1 end.

Fixpoint chain (s : ust) (ns : list block) (e : Z) : Prop :=
  match ns with
  | [] => True
  | b :: ns' => hdr s b.1 = Header (first ns' e) b.2 /\ is_Some (m_hdr s !! b.1) /\ chain s ns' e
  end.

(** A block inside the heap, or the static header. *)
Definition blk (brk : Z) (b : block) : Prop :=
  b = (base, 0) \/ (1 <= b.2 /\ base + 8 <= b.1 /\ stop b <= brk).

(** What the allocator maintains: [ns] is the free list from [base] on, in
    address order and with no two blocks adjacent; [al] holds the blocks in
    use; all blocks are disjoint. *)
Record list_ok (s : ust) (ns : list block) : Prop := {
  lo_chain : chain s ns base;
  lo_base : head ns = Some (base, 0);
  lo_sorted : StronglySorted gap ns;
  lo_blk : Forall (blk (m_brk s)) ns;
  lo_freep : freep s ∈ ns.*1;
  lo_brk : 0 < base /\ base + 8 <= m_brk s <= KERNBASE;
}.

Record heap_ok (s : ust) (al : gmap Z Z) (ns : list block) : Prop := {
  ho_list : list_ok s ns;
  ho_al : forall a n, al !! a = Some n -> size s a = n /\ 1 <= n /\ base + 8 <= a /\ a + 8 * n <= m_brk s;
  ho_disj : forall a n b, al !! a = Some n -> b ∈ ns -> disj (a, n) b;
  ho_al_disj : forall a n a' n', al !! a = Some n -> al !! a' = Some n' -> a <> a' -> disj (a, n) (a', n');
}.

Lemma chain_app s l1 l2 e : chain s (l1 ++ l2) e <-> chain s l1 (first l2 e) /\ chain s l2 e.
Proof.
  induction l1 as [|b l1 IH]; cbn [app chain]; [tauto|]. rewrite IH.
  replace (first (l1 ++ l2) e) with (first l1 (first l2 e)) by (by destruct l1). tauto.
Qed.

Lemma chain_frame s s' ns e :
  (forall b, b ∈ ns -> m_hdr s' !! b.1 = m_hdr s !! b.1) -> chain s ns e -> chain s' ns e.
Proof.
  induction ns as [|b ns IH]; intros Hf Hc; [done|]. destruct Hc as (H1 & H2 & H3).
  cbn [chain]. unfold hdr. rewrite Hf by (left; done). split_and!; [done|done|].
  apply IH; [|done]. intros c Hc. apply Hf. by right.
Qed.

(** A node's fields. *)
Lemma chain_node s l1 b l2 e : chain s (l1 ++ b :: l2) e -> ptr s b.1 = first l2 e /\ size s b.1 = b.2.
Proof. intros Hc. apply chain_app in Hc as [_ [Hc _]]. unfold ptr, size. by rewrite Hc. Qed.

Lemma blk_bounds s ns b : list_ok s ns -> b ∈ ns -> 0 <= b.2 /\ base <= b.1 /\ stop b <= m_brk s.
Proof.
  intros L Hb. pose proof (lo_blk _ _ L) as H. rewrite Forall_forall in H. destruct (H b Hb) as [->|].
  - destruct L. unfold stop. cbn. lia.
  - lia.
Qed.

Lemma list_split s l1 b l2 : list_ok s (l1 ++ b :: l2) ->
  (forall c, c ∈ l1 -> stop c < b.1) /\ (forall c, c ∈ l2 -> stop b < c.1).
Proof.
  intros L. pose proof (lo_sorted _ _ L) as Hs. apply StronglySorted_app in Hs as (H1 & _ & H2). split.
  - intros c Hc. apply H1; [done|left].
  - apply StronglySorted_cons in H2 as [H2 _]. by rewrite Forall_forall in H2.
Qed.

Lemma addr_inj s ns b c : list_ok s ns -> b ∈ ns -> c ∈ ns -> b.1 = c.1 -> b = c.
Proof.
  intros L Hb Hc E. apply list_elem_of_split in Hb as (l1 & l2 & ->).
  pose proof (blk_bounds _ _ b L ltac:(set_solver)). pose proof (blk_bounds _ _ c L Hc).
  destruct (list_split _ _ _ _ L) as [H1 H2].
  apply elem_of_app in Hc as [Hc|Hc]; [apply H1 in Hc; unfold stop in *; lia|].
  apply elem_of_cons in Hc as [->|Hc]; [done|]. apply H2 in Hc. unfold stop in *. lia.
Qed.

Lemma nodup_addrs s ns : list_ok s ns -> NoDup ns.*1.
Proof.
  intros L. pose proof (lo_sorted _ _ L) as Hs. pose proof (fun b => blk_bounds s ns b L) as Hb. clear L.
  induction Hs as [|b ns Hs IH Hg]; cbn; constructor.
  - intros Hin. apply list_elem_of_fmap in Hin as (c & E & Hc).
    rewrite Forall_forall in Hg. apply Hg in Hc. unfold gap, stop in Hc.
    specialize (Hb b ltac:(left)). lia.
  - apply IH. intros c Hc. apply Hb. by right.
Qed.

Lemma length_nodes s ns : list_ok s ns -> (length ns <= stdpp.base.size (m_hdr s))%nat.
Proof.
  intros L. replace (length ns) with (length ns.*1) by apply length_fmap.
  rewrite <- size_dom, <- (size_list_to_set (C := gset Z)) by (by eapply nodup_addrs).
  apply subseteq_size. intros a Ha. apply elem_of_list_to_set, list_elem_of_fmap in Ha as (b & -> & Hb).
  apply elem_of_dom. pose proof (lo_chain _ _ L) as Hc. clear L.
  induction ns as [|c ns IH]; [by apply elem_of_nil in Hb|]. destruct Hc as (_ & H & Hc).
  apply elem_of_cons in Hb as [->|Hb]; [done|by apply IH].
Qed.

(** ** [free] finds the place of a block *)

Lemma find_fwd s bp p l2 : forall b fuel,
  chain s (b ++ p :: l2) base -> (forall c, c ∈ b ++ [p] -> c.1 < bp) ->
  StronglySorted Z.lt (b ++ [p]).*1 -> (forall c, c ∈ l2 -> bp < c.1) -> base <= p.1 ->
  (length b < fuel)%nat -> find_prev fuel s bp (first (b ++ [p]) 0) = Some p.1.
Proof.
  induction b as [|x b IH]; intros fuel Hc Hlt Hs Hgt Hbase Hf; (destruct fuel as [|fuel]; [lia|]).
  - destruct (chain_node s [] p l2 base Hc) as [Hp _]. cbn [app first find_prev]. rewrite Hp.
    specialize (Hlt p ltac:(left)). destruct l2 as [|q l2]; cbn [first].
    + replace ((p.1 <? bp) && (bp <? base)) with false by lia.
      replace ((base <=? p.1) && ((p.1 <? bp) || (bp <? base))) with true by lia. done.
    + specialize (Hgt q ltac:(left)). replace ((p.1 <? bp) && (bp <? q.1)) with true by lia. done.
  - destruct (chain_node s [] x (b ++ p :: l2) base Hc) as [Hx _]. cbn [app first find_prev].
    rewrite Hx. cbn [app fmap list_fmap] in Hs. apply StronglySorted_cons in Hs as [Hxs Hs].
    assert (E : first (b ++ p :: l2) base = first (b ++ [p]) 0) by (by destruct b). rewrite E.
    assert (Hy : exists y, y ∈ b ++ [p] /\ first (b ++ [p]) 0 = y.1).
    { destruct b as [|y b]; [exists p|exists y]; (split; [left|done]). }
    destruct Hy as (y & Hy & Ey). rewrite Ey.
    assert (y.1 < bp) by (apply Hlt; by right).
    assert (x.1 < y.1). { rewrite Forall_fmap, Forall_forall in Hxs. by apply Hxs. }
    replace ((x.1 <? bp) && (bp <? y.1)) with false by lia.
    replace ((y.1 <=? x.1) && ((x.1 <? bp) || (bp <? y.1))) with false by lia.
    rewrite <- Ey. apply IH; try done.
    + destruct Hc as (_ & _ & Hc). done.
    + intros c Hcc. apply Hlt. by right.
    + cbn in Hf. lia.
Qed.

Lemma find_wrap s bp : forall c x fuel,
  chain s (x :: c) base -> StronglySorted Z.lt (x :: c).*1 ->
  (forall y, y ∈ x :: c -> bp < y.1) -> base < bp ->
  find_prev (S (length c) + fuel) s bp x.1 = find_prev fuel s bp base.
Proof.
  induction c as [|y c IH]; intros x fuel Hc Hs Hgt Hbase.
  - destruct (chain_node s [] x [] base Hc) as [Hx _]. cbn [length Nat.add find_prev]. rewrite Hx. cbn [first].
    specialize (Hgt x ltac:(left)).
    replace ((x.1 <? bp) && (bp <? base)) with false by lia.
    by replace ((base <=? x.1) && ((x.1 <? bp) || (bp <? base))) with false by lia.
  - destruct (chain_node s [] x (y :: c) base Hc) as [Hx _]. cbn [length Nat.add find_prev]. rewrite Hx. cbn [first].
    cbn [fmap list_fmap] in Hs. apply StronglySorted_cons in Hs as [Hxs Hs]. apply Forall_cons in Hxs as [Hxy _].
    pose proof (Hgt x ltac:(left)).
    replace ((x.1 <? bp) && (bp <? y.1)) with false by lia.
    replace ((y.1 <=? x.1) && ((x.1 <? bp) || (bp <? y.1))) with false by lia.
    apply IH; try done; [apply Hc|]. intros z Hz. apply Hgt. by right.
Qed.

Lemma addrs_sorted s ns : list_ok s ns -> StronglySorted Z.lt ns.*1.
Proof.
  intros L. pose proof (lo_sorted _ _ L) as Hs. pose proof (fun b => blk_bounds s ns b L) as Hb. clear L.
  induction Hs as [|b ns Hs IH Hg]; cbn; constructor.
  - apply IH. intros c Hc. apply Hb. by right.
  - rewrite Forall_fmap. eapply Forall_impl; [exact Hg|]. intros c. cbn. unfold gap, stop.
    specialize (Hb b ltac:(left)). lia.
Qed.

Lemma find_prev_spec s l1 p l2 bp fuel :
  list_ok s (l1 ++ p :: l2) -> (forall c, c ∈ l1 ++ [p] -> c.1 < bp) -> (forall c, c ∈ l2 -> bp < c.1) ->
  (2 * length (l1 ++ p :: l2) <= fuel)%nat -> find_prev fuel s bp (freep s) = Some p.1.
Proof.
  intros L Hlt Hgt Hf. pose proof (lo_chain _ _ L) as Hc. pose proof (addrs_sorted _ _ L) as Hs.
  pose proof (blk_bounds _ _ p L ltac:(set_solver)) as (_ & Hpb & _).
  assert (Hbp := Hlt p ltac:(set_solver)).
  rewrite length_app in Hf. cbn [length] in Hf.
  assert (Hs1 : StronglySorted Z.lt (l1 ++ [p]).*1).
  { rewrite cons_middle, app_assoc, fmap_app in Hs. by apply StronglySorted_app_1_l in Hs. }
  assert (Hstart : forall f, (length l1 < f)%nat -> find_prev f s bp base = Some p.1).
  { intros f Hff. replace base with (first (l1 ++ [p]) 0) at 1; [by eapply find_fwd|].
    pose proof (lo_base _ _ L) as Hb. destruct l1; cbn in *; by injection Hb as ->. }
  pose proof (lo_freep _ _ L) as Hfr. apply list_elem_of_fmap in Hfr as (x & -> & Hx).
  rewrite cons_middle, app_assoc in Hx. apply elem_of_app in Hx as [Hx|Hx].
  - apply list_elem_of_split in Hx as (a & b & E).
    destruct (exists_last (l := x :: b) ltac:(done)) as (b' & p' & Eb). rewrite Eb in E.
    rewrite app_assoc in E. apply app_inj_tail in E as [-> <-].
    replace (x.1) with (first (b' ++ [p]) 0) by (by rewrite <- Eb).
    apply (find_fwd s bp p l2); try done.
    + rewrite <- app_assoc in Hc. by apply chain_app in Hc as [_ Hc].
    + intros c Hcc. apply Hlt. rewrite <- app_assoc. apply elem_of_app. by right.
    + rewrite <- app_assoc, fmap_app in Hs1. by apply StronglySorted_app_1_r in Hs1.
    + rewrite length_app in Hf. lia.
  - apply list_elem_of_split in Hx as (a & b & ->).
    rewrite length_app in Hf. cbn [length] in Hf.
    replace fuel with (S (length b) + (fuel - S (length b)))%nat by lia.
    rewrite find_wrap; [apply Hstart; lia| | | |lia].
    + apply chain_app in Hc as [_ [_ [_ Hc]]]. by apply chain_app in Hc as [_ Hc].
    + rewrite fmap_app in Hs. apply StronglySorted_app_1_r in Hs. cbn [fmap list_fmap] in Hs.
      apply StronglySorted_cons in Hs as [_ Hs]. rewrite fmap_app in Hs. by apply StronglySorted_app_1_r in Hs.
    + intros y Hy. apply Hgt, elem_of_app. by right.
Qed.

(** The list around an address that is no node's. *)
Lemma split_at s ns bp : list_ok s ns -> base < bp -> bp ∉ ns.*1 ->
  exists l1 p l2, ns = l1 ++ p :: l2 /\ (forall c, c ∈ l1 ++ [p] -> c.1 < bp) /\ (forall c, c ∈ l2 -> bp < c.1).
Proof.
  intros L Hb Hn. pose proof (addrs_sorted _ _ L) as Hs. pose proof (lo_base _ _ L) as Hh. clear L.
  destruct ns as [|x ns]; [done|]. injection Hh as ->.
  assert (Hx : (base, 0).1 < bp) by done. set (x := (base, 0)) in *. clearbody x. revert x Hs Hn Hx.
  induction ns as [|y ns IH]; intros x Hs Hn Hx.
  - exists [], x, []. split_and!; [done|set_solver|set_solver].
  - cbn [fmap list_fmap] in Hs. apply StronglySorted_cons in Hs as [_ Hs].
    destruct (decide (y.1 < bp)) as [Hy|Hy].
    + destruct (IH y Hs ltac:(set_solver) Hy) as (l1 & p & l2 & E & H1 & H2).
      exists (x :: l1), p, l2. rewrite E. split_and!; [done| |done].
      intros c Hc. cbn in Hc. apply elem_of_cons in Hc as [->|Hc]; [done|by apply H1].
    + exists [], x, (y :: ns). split_and!; [done|set_solver|].
      assert (y.1 <> bp) by (intros E; apply Hn; rewrite <- E; set_solver).
      intros c Hc. apply elem_of_cons in Hc as [->|Hc]; [lia|].
      apply StronglySorted_cons in Hs as [Hs _]. rewrite Forall_fmap, Forall_forall in Hs.
      specialize (Hs c Hc). cbn in Hs. lia.
Qed.

(** ** [free] *)

Lemma hdr_eq s p h : hdr (set_hdr s p h) p = h.
Proof. unfold hdr, set_hdr. cbn. by rewrite lookup_insert_eq. Qed.

Lemma lookup_set_ne s p h a : a <> p -> m_hdr (set_hdr s p h) !! a = m_hdr s !! a.
Proof. intros. unfold set_hdr. cbn. by rewrite lookup_insert_ne. Qed.

Lemma hdr_ne s p h a : a <> p -> hdr (set_hdr s p h) a = hdr s a.
Proof. intros. unfold hdr. by rewrite lookup_set_ne. Qed.

(** A stretch of the list replaced by other blocks. *)
Lemma relink s s' l1 p k l2' b0 mid :
  list_ok s (l1 ++ p :: k ++ l2') ->
  (forall c, c ∈ l1 \/ c ∈ l2' -> m_hdr s' !! c.1 = m_hdr s !! c.1) ->
  chain s' (b0 :: mid) (first l2' base) -> b0.1 = p.1 -> (p = (base, 0) -> b0 = p) ->
  StronglySorted gap (b0 :: mid) ->
  (forall b, b ∈ b0 :: mid -> p.1 <= b.1 /\ blk (m_brk s) b /\ forall c, c ∈ l2' -> gap b c) ->
  freep s' ∈ (l1 ++ (b0 :: mid) ++ l2').*1 -> m_brk s' = m_brk s ->
  list_ok s' (l1 ++ (b0 :: mid) ++ l2').
Proof.
  intros L Hf Hc E0 Eb Hs Hm Hfp Hbrk. destruct (list_split _ _ _ _ L) as [Hl1 Hl2].
  pose proof (lo_sorted _ _ L) as Hss. pose proof (lo_blk _ _ L) as Hb.
  apply StronglySorted_app in Hss as (H12 & Hs1 & Hss). apply StronglySorted_cons in Hss as [_ Hss].
  apply StronglySorted_app_1_r in Hss. rewrite Forall_app, Forall_cons, Forall_app in Hb.
  split.
  - pose proof (lo_chain _ _ L) as Hch. apply chain_app in Hch as [Hch1 [_ [_ Hch2]]].
    apply chain_app in Hch2 as [_ Hch2]. apply chain_app. cbn [first app] in *. rewrite E0. split.
    + eapply chain_frame; [|exact Hch1]. auto.
    + apply (chain_app s' (b0 :: mid) l2'). split; [done|]. eapply chain_frame; [|exact Hch2]. auto.
  - pose proof (lo_base _ _ L) as Hh. destruct l1; [|done]. cbn in *. injection Hh as ->. by rewrite Eb.
  - apply StronglySorted_app_2; [|done|].
    + intros x y Hx Hy. unfold gap. apply elem_of_app in Hy as [Hy|Hy].
      * specialize (Hl1 x Hx). destruct (Hm y Hy). lia.
      * apply H12; [done|]. set_solver.
    + apply StronglySorted_app_2; [|done|done]. intros x y Hx Hy. by apply (Hm x Hx).
  - rewrite Hbrk. rewrite !Forall_app. split_and!; [tauto| |tauto].
    rewrite Forall_forall. intros b Hbb. by apply Hm.
  - exact Hfp.
  - rewrite Hbrk. exact (lo_brk _ _ L).
Qed.

(** The first half of [free]: the block takes in its right neighbour. *)
Definition join_right (bp p : Z) (s : ust) : ust :=
  if bp + sizeof_Header * size s bp =? ptr s p then
    let s := set_size s bp (u32 (size s bp + size s (ptr s p))) in
    set_ptr s bp (ptr s (ptr s p))
  else set_ptr s bp (ptr s p).

Lemma join_right_spec s al l1 p l2 bp n :
  heap_ok s al (l1 ++ p :: l2) -> al !! bp = Some n ->
  (forall c, c ∈ l1 ++ [p] -> c.1 < bp) -> (forall c, c ∈ l2 -> bp < c.1) ->
  exists k l2' N, l2 = k ++ l2' /\ n <= N /\ bp + 8 * N <= m_brk s /\
    let s1 := join_right bp p.1 s in
    hdr s1 bp = Header (first l2' base) N /\ (forall a, a <> bp -> m_hdr s1 !! a = m_hdr s !! a) /\
    is_Some (m_hdr s1 !! bp) /\ freep s1 = freep s /\ m_brk s1 = m_brk s /\
    (forall c, c ∈ l2' -> gap (bp, N) c) /\
    (forall a m, al !! a = Some m -> a <> bp -> disj (a, m) (bp, N)).
Proof.
  intros [L Hal Hd Had] Hbp Hlt Hgt. destruct (Hal bp n Hbp) as (Hn & Hn1 & Hlow & Hend).
  destruct (chain_node _ _ _ _ _ (lo_chain _ _ L)) as [Hp1 Hp2]. unfold join_right. rewrite Hp1, Hn.
  pose proof (lo_brk _ _ L) as (Hb0 & _ & Hb2). unfold KERNBASE in Hb2. unfold sizeof_Header.
  destruct (decide (bp + 8 * n = first l2 base)) as [E|E].
  - rewrite (proj2 (Z.eqb_eq _ _) E). destruct l2 as [|q l2]; cbn [first] in *; [lia|].
    pose proof (lo_chain _ _ L) as Hc. rewrite cons_middle, app_assoc in Hc.
    destruct (chain_node _ _ _ _ _ Hc) as [Hq1 Hq2].
    assert (Hq : q ∈ l1 ++ p :: q :: l2) by set_solver.
    destruct (blk_bounds _ _ _ L Hq) as (Hqa & Hqb & Hqc).
    assert (Hqbp := Hgt q ltac:(left)). unfold stop in Hqc.
    exists [q], l2, (n + q.2). cbv zeta. unfold set_ptr, set_size, size, ptr.
    assert (Hpbp : p.1 < bp) by (apply Hlt; set_solver).
    rewrite (hdr_ne _ bp _ p.1) by lia. fold (ptr s p.1). rewrite Hp1. cbn [first].
    rewrite !hdr_eq, (hdr_ne _ bp _ q.1) by lia. fold (ptr s q.1) (size s q.1). rewrite Hq1, Hq2.
    rewrite u32_small by lia. cbn [h_size].
    split_and!; try done; try lia.
    + intros a Ha. by rewrite !lookup_set_ne.
    + unfold set_hdr. cbn. rewrite lookup_insert_eq. by eexists.
    + intros c Hc2. destruct (list_split s (l1 ++ [p]) q l2) as [_ H]; [by rewrite <- app_assoc|].
      specialize (H c Hc2). unfold gap, stop in *. cbn. lia.
    + intros a m Ha Hne. pose proof (Had _ _ _ _ Ha Hbp Hne) as D1. pose proof (Hd _ _ _ Ha Hq) as D2.
      destruct (Hal _ _ Ha) as (_ & Hm & _). unfold disj, stop in *. cbn in *. lia.
  - rewrite (proj2 (Z.eqb_neq _ _) E). exists [], l2, n. cbv zeta. unfold set_ptr.
    rewrite hdr_eq, Hn. split_and!; try done; try lia.
    + intros a Ha. by rewrite lookup_set_ne.
    + unfold set_hdr. cbn. rewrite lookup_insert_eq. by eexists.
    + intros c Hc. assert (Hc' : c ∈ l1 ++ p :: l2) by set_solver.
      pose proof (Hd _ _ _ Hbp Hc') as D. pose proof (Hgt c Hc) as Hgc. destruct (blk_bounds _ _ _ L Hc') as (Hc0 & _).
      assert (bp + 8 * n <> c.1).
      { intros E'. apply E. destruct l2 as [|q l2]; [by apply elem_of_nil in Hc|]. cbn [first].
        apply elem_of_cons in Hc as [->|Hc]; [done|].
        destruct (list_split s (l1 ++ [p]) q l2) as [_ H]; [by rewrite <- app_assoc|].
        specialize (H c Hc). pose proof (Hgt q ltac:(left)). assert (Hq : q ∈ l1 ++ p :: q :: l2) by set_solver.
        pose proof (Hd _ _ _ Hbp Hq) as D2. destruct (blk_bounds _ _ _ L Hq) as (Hq0 & _).
        unfold disj, stop, gap in *. cbn in *. lia. }
      unfold disj, gap, stop in *. cbn in *. lia.
    + intros a m Ha Hne. by apply Had.
Qed.

(** The second half: it joins its left neighbour, or is linked after it. *)
Definition join_left (bp p : Z) (s : ust) : ust :=
  if p + sizeof_Header * size s p =? bp then
    let s := set_size s p (u32 (size s p + size s bp)) in
    set_ptr s p (ptr s bp)
  else set_ptr s p bp.

Lemma free_eq bp s p :
  find_prev (turns s) s bp (freep s) = Some p ->
  free (bp + sizeof_Header) s = Some (set_freep (join_left bp p (join_right bp p s)) p).
Proof. intros E. unfold free. replace (bp + sizeof_Header - sizeof_Header) with bp by lia. by rewrite E. Qed.

Lemma join_left_spec s1 bp p X N :
  hdr s1 bp = Header X N -> is_Some (m_hdr s1 !! bp) -> size s1 p.1 = p.2 -> p.1 < bp -> 0 <= p.2 -> 0 <= N ->
  p.2 + N < 2 ^ 32 ->
  exists b0 mid, let s2 := join_left bp p.1 s1 in
    b0.1 = p.1 /\ chain s2 (b0 :: mid) X /\ (stop p <> bp -> b0 = p) /\
    freep s2 = freep s1 /\ m_brk s2 = m_brk s1 /\
    (forall a, a <> p.1 -> m_hdr s2 !! a = m_hdr s1 !! a) /\
    ((stop p = bp /\ b0 = (p.1, p.2 + N) /\ mid = []) \/ (stop p <> bp /\ b0 = p /\ mid = [(bp, N)])).
Proof.
  intros Hbp Hsome Hp Hlt Hp0 HN Hov. unfold join_left, sizeof_Header. rewrite Hp. fold (stop p).
  assert (HB : size s1 bp = N /\ ptr s1 bp = X) by (unfold size, ptr; by rewrite Hbp). destruct HB as [HB1 HB2].
  destruct (decide (stop p = bp)) as [E|E].
  - rewrite (proj2 (Z.eqb_eq _ _) E). exists (p.1, p.2 + N), []. cbv zeta.
    unfold set_ptr, set_size. rewrite HB1. cbn [chain first].
    unfold ptr. rewrite (hdr_ne _ p.1 _ bp) by lia. fold (ptr s1 bp). rewrite HB2.
    unfold size. rewrite !hdr_eq. cbn [h_size]. rewrite u32_small by lia.
    split_and!; try done.
    + unfold set_hdr. cbn. rewrite lookup_insert_eq. by eexists.
    + intros a Ha. by rewrite !lookup_set_ne.
    + left. done.
  - rewrite (proj2 (Z.eqb_neq _ _) E). exists p, [(bp, N)]. cbv zeta.
    unfold set_ptr. rewrite Hp. cbn [chain first fst snd]. rewrite hdr_eq, (hdr_ne _ p.1 _ bp) by lia.
    split_and!; try done.
    + unfold set_hdr. cbn. rewrite lookup_insert_eq. by eexists.
    + by rewrite lookup_set_ne by lia.
    + intros a Ha. by rewrite lookup_set_ne.
    + by right.
Qed.

(** The block that results is well placed. *)
Lemma join_mid s al l1 p k l2' bp n N b0 mid :
  heap_ok s al (l1 ++ p :: k ++ l2') -> al !! bp = Some n -> n <= N -> bp + 8 * N <= m_brk s -> p.1 < bp ->
  (forall c, c ∈ l2' -> gap (bp, N) c) -> (forall a m, al !! a = Some m -> a <> bp -> disj (a, m) (bp, N)) ->
  (stop p = bp /\ b0 = (p.1, p.2 + N) /\ mid = []) \/ (stop p <> bp /\ b0 = p /\ mid = [(bp, N)]) ->
  forall b, b ∈ b0 :: mid -> p.1 <= b.1 /\ blk (m_brk s) b /\ (forall c, c ∈ l2' -> gap b c) /\
    forall a m, al !! a = Some m -> a <> bp -> disj (a, m) b.
Proof.
  intros [L Hal Hd Had] Hbp HnN HNend Hpbp Hgap HNd Hcase.
  destruct (Hal bp n Hbp) as (Hn & Hn1 & Hlow & Hend).
  assert (Hp : p ∈ l1 ++ p :: k ++ l2') by set_solver. destruct (blk_bounds _ _ _ L Hp) as (Hp0 & Hp1 & Hp2).
  assert (HpD : forall a m, al !! a = Some m -> disj (a, m) p) by (intros; by eapply Hd).
  assert (Hstop : stop p <= bp) by (specialize (HpD _ _ Hbp); unfold disj, stop in *; cbn in *; lia).
  pose proof (lo_blk _ _ L) as HB. rewrite Forall_forall in HB. specialize (HB p Hp).
  destruct Hcase as [(Es & -> & ->)|(Es & -> & ->)].
  - intros b Hb. apply list_elem_of_singleton in Hb as ->. unfold stop in Es. split_and!; cbn [fst snd].
    + lia.
    + right. destruct HB as [->|]; unfold stop in *; cbn in *; lia.
    + intros c Hcc. specialize (Hgap c Hcc). unfold gap, stop in *. cbn in *. lia.
    + intros a m Ha Hne. specialize (HNd a m Ha Hne). specialize (HpD a m Ha).
      destruct (Hal _ _ Ha) as (_ & Hm & _). unfold disj, stop in *. cbn in *. lia.
  - intros b Hb. apply elem_of_cons in Hb as [->|Hb].
    + split_and!; [lia|done| |].
      * intros c Hcc. specialize (Hgap c Hcc). unfold gap, stop in *. cbn in *. lia.
      * intros a m Ha _. by apply HpD.
    + apply list_elem_of_singleton in Hb as ->. split_and!; cbn [fst snd].
      * lia.
      * right. unfold stop. cbn. lia.
      * done.
      * done.
Qed.

(** A block in use goes back to the free list, which stays well formed: its
    neighbours on either side are joined with it. *)
Lemma free_spec s al ns bp n :
  heap_ok s al ns -> al !! bp = Some n ->
  exists s' ns', free (bp + sizeof_Header) s = Some s' /\ heap_ok s' (delete bp al) ns' /\
    m_brk s' = m_brk s /\ (length ns' <= S (length ns))%nat /\ exists b, b ∈ ns' /\ n <= b.2.
Proof.
  intros H Hbp. pose proof H as [L Hal Hd Had]. destruct (Hal bp n Hbp) as (Hn & Hn1 & Hlow & Hend).
  pose proof (lo_brk _ _ L) as (Hb0 & Hb1 & Hb2). unfold KERNBASE in Hb2.
  assert (Hout : bp ∉ ns.*1).
  { intros Hin. apply list_elem_of_fmap in Hin as (b & E & Hb). pose proof (Hd _ _ _ Hbp Hb) as D.
    pose proof (lo_blk _ _ L) as HB. rewrite Forall_forall in HB. destruct (HB b Hb) as [->|]; unfold disj, stop in *; cbn in *; lia. }
  destruct (split_at _ _ bp L ltac:(lia) Hout) as (l1 & p & l2 & -> & Hlt & Hgt).
  pose proof (length_nodes _ _ L) as Hlen.
  rewrite (free_eq bp s p.1) by (apply (find_prev_spec s l1 p l2 bp (turns s) L Hlt Hgt); unfold turns; lia).
  destruct (join_right_spec s al l1 p l2 bp n H Hbp Hlt Hgt) as
    (k & l2' & N & -> & HnN & HNend & HX & Hfr & Hsome & _ & Hbrk1 & Hgap & HNd).
  set (s1 := join_right bp p.1 s) in *. assert (Hpbp := Hlt p ltac:(set_solver)).
  assert (Hp : p ∈ l1 ++ p :: k ++ l2') by set_solver. destruct (blk_bounds _ _ _ L Hp) as (Hp0 & Hp1 & Hp2).
  assert (Hps : size s1 p.1 = p.2).
  { destruct (chain_node _ _ _ _ _ (lo_chain _ _ L)) as [_ <-]. unfold size, hdr. by rewrite Hfr by lia. }
  pose proof (Hd _ _ _ Hbp Hp) as Dp. assert (Hstop : stop p <= bp) by (unfold disj, stop in *; cbn in *; lia).
  destruct (join_left_spec s1 bp p _ N HX Hsome Hps Hpbp Hp0 ltac:(lia)) as
    (b0 & mid & E0 & Hc & _ & _ & Hbrk2 & Hfr2 & Hcase); [unfold stop in *; lia|].
  set (s2 := join_left bp p.1 s1) in *.
  assert (HpD : forall a m, al !! a = Some m -> disj (a, m) p) by (intros; by eapply Hd).
  pose proof (join_mid s al l1 p k l2' bp n N b0 mid H Hbp HnN HNend Hpbp Hgap HNd Hcase) as Hmid.
  exists (set_freep s2 p.1), (l1 ++ (b0 :: mid) ++ l2'). split; [done|].
  destruct (list_split _ _ _ _ L) as [Hl1 Hl2].
  assert (L' : list_ok (set_freep s2 p.1) (l1 ++ (b0 :: mid) ++ l2')).
  { apply (relink s _ l1 p k l2'); try done.
    - intros c Hcc. cbn [m_hdr set_freep]. assert (Hpc : c.1 <> p.1 /\ c.1 <> bp); [|by rewrite Hfr2, Hfr by tauto].
      destruct Hcc as [Hcc|Hcc].
      + specialize (Hl1 c Hcc). assert (c ∈ l1 ++ p :: k ++ l2') as Hci by set_solver.
        destruct (blk_bounds _ _ _ L Hci). unfold stop in Hl1. lia.
      + specialize (Hl2 c ltac:(set_solver)). specialize (Hgt c ltac:(set_solver)). unfold stop in *. lia.
    - eapply chain_frame; [|exact Hc]. done.
    - intros ->. destruct Hcase as [(Es & _)|(Es & -> & _)]; [|done]. unfold stop in Es. cbn in Es. lia.
    - destruct Hcase as [(Es & -> & ->)|(Es & -> & ->)].
      + constructor; constructor.
      + constructor; [constructor; constructor|]. constructor; [|constructor]. unfold gap. cbn. lia.
    - intros b Hb. destruct (Hmid b Hb) as (? & ? & ? & _). done.
    - cbn [freep set_freep]. rewrite <- E0, fmap_app. apply elem_of_app. right. left.
    - by rewrite <- Hbrk1, <- Hbrk2. }
  split; [|split_and!].
  - split; [done| | |].
    + intros a m Ha. apply lookup_delete_Some in Ha as [Hne Ha]. destruct (Hal a m Ha) as (H1 & H2 & H3 & H4).
      cbn [m_brk set_freep]. rewrite Hbrk2, Hbrk1. split_and!; try done. rewrite <- H1.
      assert (a <> p.1). { intros ->. specialize (HpD _ _ Ha). unfold disj, stop in *. cbn in *.
        destruct (decide (p.2 = 0)) as [Ep|Ep]; [|lia].
        pose proof (lo_blk _ _ L) as HB. rewrite Forall_forall in HB. destruct (HB p Hp) as [->|]; cbn in *; lia. }
      unfold size, hdr. cbn [m_hdr set_freep]. by rewrite Hfr2, Hfr.
    + intros a m b Ha Hb. apply lookup_delete_Some in Ha as [Hne Ha].
      apply elem_of_app in Hb as [Hb|Hb]; [eapply Hd; [done|set_solver]|].
      apply elem_of_app in Hb as [Hb|Hb]; [by apply Hmid|eapply Hd; [done|set_solver]].
    + intros a m a' m' Ha Ha'. apply lookup_delete_Some in Ha as [_ Ha]. apply lookup_delete_Some in Ha' as [_ Ha'].
      by apply Had.
  - cbn. by rewrite Hbrk2, Hbrk1.
  - rewrite !length_app. cbn. rewrite !length_app.
    destruct Hcase as [(_ & _ & ->)|(_ & _ & ->)]; cbn; lia.
  - destruct Hcase as [(Es & -> & ->)|(Es & -> & ->)].
    + exists (p.1, p.2 + N). split; [set_solver|]. cbn. lia.
    + exists (bp, N). split; [set_solver|]. cbn. lia.
Qed.

(** ** [malloc] *)

(** The upper part of a free block goes into use. *)
Lemma carve s s' al ns ns' x p n :
  heap_ok s al ns -> x ∈ ns -> x.1 <= p -> p + 8 * n = stop x -> 1 <= n -> base + 8 <= x.1 ->
  list_ok s' ns' -> m_brk s' = m_brk s -> size s' p = n ->
  (forall a m, al !! a = Some m -> size s' a = size s a) ->
  (forall b, b ∈ ns' -> (b ∈ ns /\ b <> x) \/ b = (x.1, x.2 - n)) ->
  heap_ok s' (<[p := n]> al) ns' /\ al !! p = None.
Proof.
  intros [L Hal Hd Had] Hx Hp Hstop Hn Hxb L' Hbrk Hsp Hsa Hns.
  destruct (blk_bounds _ _ _ L Hx) as (Hx0 & Hx1 & Hx2). unfold stop in Hstop, Hx2.
  assert (Hfresh : forall a m, al !! a = Some m -> disj (a, m) x /\ 1 <= m).
  { intros a m Ha. split; [by eapply Hd|apply (Hal a m Ha)]. }
  split; [split; [done| | |]|].
  - intros a m Ha. rewrite Hbrk. apply lookup_insert_Some in Ha as [[<- <-]|[Hne Ha]]; [lia|].
    rewrite (Hsa a m Ha). by apply Hal.
  - intros a m b Ha Hb. apply lookup_insert_Some in Ha as [[<- <-]|[Hne Ha]].
    + destruct (Hns b Hb) as [[Hb' Hbx]| ->]; [|unfold disj, stop; cbn; lia].
      apply list_elem_of_split in Hx as (l1 & l2 & ->). destruct (list_split _ _ _ _ L) as [Hl1 Hl2].
      destruct (blk_bounds _ _ _ L Hb') as (Hb0 & _).
      apply elem_of_app in Hb' as [Hb'|Hb']; [apply Hl1 in Hb'; unfold disj, stop in *; cbn; lia|].
      apply elem_of_cons in Hb' as [->|Hb']; [done|]. apply Hl2 in Hb'. unfold disj, stop in *. cbn. lia.
    + destruct (Hns b Hb) as [[Hb' Hbx]| ->]; [by eapply Hd|].
      destruct (Hfresh a m Ha) as [D _]. unfold disj, stop in *. cbn in *. lia.
  - intros a m a' m' Ha Ha' Hne.
    apply lookup_insert_Some in Ha as [[<- <-]|[Hna Ha]]; apply lookup_insert_Some in Ha' as [[<- <-]|[Hna' Ha']].
    + done.
    + destruct (Hfresh _ _ Ha') as [D _]. unfold disj, stop in *. cbn in *. lia.
    + destruct (Hfresh _ _ Ha) as [D _]. unfold disj, stop in *. cbn in *. lia.
    + by eapply Had.
  - destruct (al !! p) as [m|] eqn:Ea; [|done]. destruct (Hfresh _ _ Ea) as [D ?]. unfold disj, stop in D. cbn in D. lia.
Qed.

(** Headers in use are not the free list's. *)
Lemma al_not_free s al ns a m b : heap_ok s al ns -> al !! a = Some m -> b ∈ ns -> a <> b.1.
Proof.
  intros [L Hal Hd _] Ha Hb ->. specialize (Hd _ _ _ Ha Hb). specialize (Hal _ _ Ha).
  pose proof (lo_blk _ _ L) as HB. rewrite Forall_forall in HB.
  destruct (HB b Hb) as [->|]; unfold disj, stop in *; cbn in *; lia.
Qed.

Lemma next_block s ns z x : list_ok s ns -> z ∈ ns -> x ∈ ns -> ptr s z.1 = x.1 -> base + 8 <= x.1 ->
  exists l1 l2, ns = l1 ++ z :: x :: l2.
Proof.
  intros L Hz Hx Hptr Hxb. apply list_elem_of_split in Hz as (l1 & l2 & ->).
  destruct (chain_node _ _ _ _ _ (lo_chain _ _ L)) as [Hp1 _]. rewrite Hptr in Hp1.
  destruct l2 as [|y l2]; cbn [first] in Hp1; [lia|].
  assert (Ey : y = x) by (symmetry; eapply addr_inj; [exact L|done|set_solver|done]). subst y. eauto.
Qed.

Lemma nodes_apart s l1 b l2 c : list_ok s (l1 ++ b :: l2) -> c ∈ l1 \/ c ∈ l2 ->
  c.1 < b.1 \/ stop b < c.1.
Proof.
  intros L Hc. destruct (list_split _ _ _ _ L) as [Hl1 Hl2]. destruct Hc as [Hc|Hc]; [left|right; by apply Hl2].
  assert (c ∈ l1 ++ b :: l2) as Hci by set_solver. destruct (blk_bounds _ _ _ L Hci).
  specialize (Hl1 c Hc). unfold stop in Hl1. lia.
Qed.

(** A free block that is large enough is taken, whole ... *)
Lemma take_whole s l1 z x l2 : list_ok s (l1 ++ z :: x :: l2) ->
  list_ok (set_freep (set_ptr s z.1 (ptr s x.1)) z.1) (l1 ++ [z] ++ l2).
Proof.
  intros L. pose proof (lo_chain _ _ L) as Hc. destruct (chain_node _ _ _ _ _ Hc) as [_ Hz].
  rewrite cons_middle, app_assoc in Hc. destruct (chain_node _ _ _ _ _ Hc) as [-> _].
  assert (Hzi : z ∈ l1 ++ z :: x :: l2) by set_solver. destruct (blk_bounds _ _ _ L Hzi) as (Hz0 & _).
  apply (relink s _ l1 z [x] l2 z []); try done.
  - intros c Hcc. unfold set_ptr, set_freep. cbn [m_hdr]. rewrite lookup_set_ne; [done|].
    destruct (nodes_apart _ _ _ _ c L); [set_solver|lia|unfold stop in *; lia].
  - cbn [chain first]. unfold hdr, set_freep, set_ptr, set_hdr. cbn. rewrite lookup_insert_eq. cbn.
    rewrite Hz. split_and!; [done|by eexists|done].
  - constructor; constructor.
  - intros b Hb. apply list_elem_of_singleton in Hb as ->. split; [lia|]. split.
    + pose proof (lo_blk _ _ L) as HB. rewrite Forall_forall in HB. by apply HB.
    + intros c Hcc. destruct (list_split _ _ _ _ L) as [_ Hl2]. apply Hl2. set_solver.
  - set_solver.
Qed.

(** ... or its upper part. *)
Lemma take_part s l1 z x l2 n p : list_ok s (l1 ++ z :: x :: l2) -> base + 8 <= x.1 -> 1 <= n < x.2 ->
  p = x.1 + 8 * (x.2 - n) ->
  list_ok (set_freep (set_size (set_size s x.1 (x.2 - n)) p n) z.1) ((l1 ++ [z]) ++ [(x.1, x.2 - n)] ++ l2).
Proof.
  intros L Hxb Hn ->. pose proof (lo_chain _ _ L) as Hc. rewrite cons_middle, app_assoc in Hc, L.
  destruct (chain_node _ _ _ _ _ Hc) as [Hx3 _].
  assert (Hxi : x ∈ (l1 ++ [z]) ++ x :: l2) by set_solver. destruct (blk_bounds _ _ _ L Hxi) as (Hx0 & Hx1 & Hx2).
  unfold stop in Hx2.
  apply (relink s _ (l1 ++ [z]) x [] l2 (x.1, x.2 - n) []); try done.
  - intros c Hcc. unfold set_size, set_freep. cbn [m_hdr].
    destruct (nodes_apart _ _ _ _ c L Hcc); unfold stop in *; rewrite !lookup_set_ne by lia; done.
  - cbn [chain first fst snd]. unfold set_freep, set_size. unfold hdr at 1. cbn [m_hdr].
    rewrite lookup_set_ne by lia. fold (hdr (set_hdr s x.1 (Header (ptr s x.1) (x.2 - n))) x.1).
    rewrite hdr_eq, Hx3. split_and!; [done| |done].
    unfold set_hdr. cbn. rewrite lookup_insert_eq. by eexists.
  - intros ->. cbn in Hxb. lia.
  - constructor; constructor.
  - intros b Hb. apply list_elem_of_singleton in Hb as ->. cbn [fst snd]. split; [lia|]. split.
    + right. unfold stop. cbn. lia.
    + intros c Hcc. destruct (list_split _ _ _ _ L) as [_ Hl2]. specialize (Hl2 c Hcc). unfold gap, stop in *. cbn. lia.
  - cbn [freep set_freep]. set_solver.
Qed.

Lemma take_block_spec s al ns z x nunits :
  heap_ok s al ns -> z ∈ ns -> x ∈ ns -> ptr s z.1 = x.1 -> 1 <= nunits <= x.2 ->
  exists p s' ns', take_block nunits z.1 x.1 s = (Some (p + sizeof_Header), s') /\
    heap_ok s' (<[p := nunits]> al) ns' /\ m_brk s' = m_brk s /\ al !! p = None.
Proof.
  intros H Hz Hx Hptr Hnu. pose proof H as [L Hal Hd Had].
  destruct (blk_bounds _ _ _ L Hx) as (Hx0 & Hx1 & Hx2). unfold stop in Hx2.
  assert (Hxb : base + 8 <= x.1).
  { pose proof (lo_blk _ _ L) as HB. rewrite Forall_forall in HB. destruct (HB x Hx) as [->|]; cbn in *; lia. }
  pose proof (lo_brk _ _ L) as (Hb0 & Hb1 & Hb2). unfold KERNBASE in Hb2.
  destruct (next_block _ _ _ _ L Hz Hx Hptr Hxb) as (l1 & l2 & ->).
  pose proof (lo_chain _ _ L) as Hc. pose proof L as Lx. rewrite cons_middle, app_assoc in Hc, Lx.
  destruct (chain_node _ _ _ _ _ Hc) as [Hx3 Hx4].
  assert (Hzx : z.1 < x.1).
  { destruct (list_split _ _ _ _ L) as [_ Hl2]. specialize (Hl2 x ltac:(set_solver)).
    destruct (blk_bounds _ _ _ L Hz). unfold stop in Hl2. lia. }
  assert (Hother : forall b, b ∈ (l1 ++ [z]) ++ l2 -> b ∈ l1 ++ z :: x :: l2 /\ b <> x).
  { intros b Hb. split; [set_solver|]. intros ->. destruct (nodes_apart _ _ _ _ x Lx); [set_solver|lia|unfold stop in *; lia]. }
  unfold take_block, sizeof_Header. rewrite Hx4. destruct (decide (x.2 = nunits)) as [E|E].
  - rewrite (proj2 (Z.eqb_eq _ _) E). eexists x.1, _, (l1 ++ [z] ++ l2). split; [done|].
    match goal with |- ?A /\ _ /\ ?C => cut (A /\ C); [by intros [? ?]|] end.
    apply (carve s _ al _ _ x x.1 nunits H); try done; try (unfold stop; lia).
    + by apply take_whole.
    + unfold size, hdr, set_freep, set_ptr. cbn [m_hdr]. rewrite lookup_set_ne by lia. by rewrite <- E.
    + intros a m Ha. unfold size, hdr, set_freep, set_ptr. cbn [m_hdr].
      rewrite lookup_set_ne by (by eapply al_not_free). done.
    + intros b Hb. left. apply Hother. by rewrite <- app_assoc.
  - rewrite (proj2 (Z.eqb_neq _ _) E). rewrite u32_small by lia.
    assert (E1 : size (set_size s x.1 (x.2 - nunits)) x.1 = x.2 - nunits) by (unfold size, set_size; by rewrite hdr_eq).
    cbv zeta. rewrite E1.
    eexists (x.1 + 8 * (x.2 - nunits)), _, ((l1 ++ [z]) ++ [(x.1, x.2 - nunits)] ++ l2). split; [done|].
    match goal with |- ?A /\ _ /\ ?C => cut (A /\ C); [by intros [? ?]|] end.
    apply (carve s _ al _ _ x _ nunits H); try done; try (unfold stop; lia).
    + apply take_part; (done || lia).
    + unfold size, hdr, set_freep, set_size, set_hdr. cbn [m_hdr]. by rewrite lookup_insert_eq.
    + intros a m Ha. unfold size, hdr, set_freep, set_size. cbn [m_hdr].
      assert (a <> x.1) by (eapply al_not_free; [exact H|done|set_solver]).
      pose proof (Hd _ _ _ Ha Hx) as D. destruct (Hal a m Ha) as (_ & Hm & _).
      rewrite !lookup_set_ne; [done|done|]. unfold disj, stop in D. cbn in D. lia.
    + intros b Hb. apply elem_of_app in Hb as [Hb|Hb]; [left; apply Hother; set_solver|].
      apply elem_of_app in Hb as [Hb|Hb]; [right; by apply list_elem_of_singleton in Hb|left; apply Hother; set_solver].
Qed.

(** The kernel grants no memory beyond [KERNBASE] (see [allocuvm]). *)
Context (grants_ok : forall brk n, grants brk n = true -> brk + n <= KERNBASE).

(** The bytes [morecore] asks for. *)
Definition more (nu : Z) : Z := 8 * Z.max nu 4096.

Lemma morecore_spec s al ns nu : heap_ok s al ns -> 1 <= nu -> 8 * nu < 2 ^ 31 ->
  (morecore nu s = Some (0, s) /\ grants (m_brk s) (more nu) = false) \/
  exists s' ns', morecore nu s = Some (freep s', s') /\ heap_ok s' al ns' /\
    m_brk s' = m_brk s + more nu /\ (length ns' <= S (length ns))%nat /\ exists b, b ∈ ns' /\ nu <= b.2.
Proof.
  intros H Hnu Hlim. pose proof H as [L Hal Hd Had]. pose proof (lo_brk _ _ L) as (Hb0 & Hb1 & Hb2).
  unfold morecore, more, sizeof_Header.
  replace (if nu <? 4096 then 4096 else nu) with (Z.max nu 4096) by (destruct (Z.ltb_spec nu 4096); lia).
  set (N := Z.max nu 4096). assert (HN : 4096 <= N /\ nu <= N /\ 8 * N < 2 ^ 31) by lia.
  rewrite s32_small by lia. rewrite Z.mul_comm. unfold sbrk. destruct (grants (m_brk s) (8 * N)) eqn:Eg; [right|by left].
  apply grants_ok in Eg. rewrite (proj2 (Z.eqb_neq (m_brk s) (-1))) by lia.
  set (brk := m_brk s) in *. set (s1 := Ust (m_hdr s) (freep s) (brk + 8 * N)).
  assert (Hfresh : forall b, b ∈ ns -> b.1 <> brk).
  { intros b Hb. destruct (blk_bounds _ _ _ L Hb) as (? & ? & Hs). fold brk in Hs. unfold stop in Hs.
    pose proof (lo_blk _ _ L) as HB. rewrite Forall_forall in HB. destruct (HB b Hb) as [->|]; cbn in *; lia. }
  assert (Hal1 : forall a m, al !! a = Some m -> a <> brk).
  { intros a m Ha. specialize (Hal a m Ha). lia. }
  assert (H1 : heap_ok (set_size s1 brk N) (<[brk := N]> al) ns).
  { split; [split| | |].
    - eapply chain_frame; [|exact (lo_chain _ _ L)]. intros b Hb. unfold set_size.
      by rewrite lookup_set_ne by (by apply Hfresh).
    - exact (lo_base _ _ L).
    - exact (lo_sorted _ _ L).
    - eapply Forall_impl; [exact (lo_blk _ _ L)|]. intros b [Hb|Hb]; [by left|right]. cbn. fold brk in Hb. lia.
    - exact (lo_freep _ _ L).
    - cbn. lia.
    - intros a m Ha. cbn [m_brk set_size set_hdr s1]. apply lookup_insert_Some in Ha as [[<- <-]|[Hne Ha]].
      + unfold size, set_size. rewrite hdr_eq. cbn. lia.
      + destruct (Hal a m Ha) as (Hs & Hr). unfold size, set_size. rewrite hdr_ne by done.
        change (hdr s1 a) with (hdr s a). unfold size in Hs. rewrite Hs. lia.
    - intros a m b Ha Hb. apply lookup_insert_Some in Ha as [[<- <-]|[Hne Ha]]; [|by eapply Hd].
      right. by destruct (blk_bounds _ _ _ L Hb) as (? & ? & Hs).
    - intros a m a' m' Ha Ha' Hne'.
      apply lookup_insert_Some in Ha as [[<- <-]|[Hna Ha]]; apply lookup_insert_Some in Ha' as [[<- <-]|[Hna' Ha']];
        [done| | |by eapply Had].
      + specialize (Hal _ _ Ha'). unfold disj, stop. cbn. lia.
      + specialize (Hal _ _ Ha). unfold disj, stop. cbn. lia. }
  destruct (free_spec _ _ _ brk N H1) as (s' & ns' & Ef & H' & Hbrk & Hlen & b & Hb & Hbn); [by rewrite lookup_insert_eq|].
  unfold sizeof_Header in Ef. rewrite Ef. exists s', ns'. rewrite delete_insert_id in H' by (destruct (al !! brk) eqn:E; [by apply Hal1 in E|done]).
  split_and!; [done|done|by rewrite Hbrk|done|]. exists b. split; [done|lia].
Qed.

(** The blocks [w] follow each other after [z]. *)
Fixpoint linked (s : ust) (z : block) (w : list block) : Prop :=
  match w with
  | [] => True
  | x :: w' => ptr s z.1 = x.1 /\ linked s x w'
  end.

Lemma chain_linked s l z e : chain s (z :: l) e -> linked s z l /\ ptr s (default z (last l)).1 = e.
Proof.
  revert z. induction l as [|x l IH]; intros z Hc.
  - by destruct (chain_node s [] z [] e Hc) as [? _].
  - destruct (chain_node s [] z (x :: l) e Hc) as [? _]. destruct Hc as (_ & _ & Hc).
    destruct (IH x Hc) as [H1 H2]. split; [done|]. rewrite last_cons. by destruct (last l).
Qed.

Lemma linked_app s w1 w2 z : linked s z (w1 ++ w2) <-> linked s z w1 /\ linked s (default z (last w1)) w2.
Proof.
  revert z. induction w1 as [|x w1 IH]; intros z; cbn [app linked]; [tauto|].
  rewrite IH, last_cons. destruct (last w1); cbn; tauto.
Qed.

(** The circle from any of its nodes. *)
Lemma circle s l1 f l2 : list_ok s (l1 ++ f :: l2) -> linked s f (l2 ++ l1 ++ [f]).
Proof.
  intros L. pose proof (lo_chain _ _ L) as Hc. apply chain_app in Hc as [Hc1 Hc2]. cbn [first] in Hc1.
  destruct (chain_linked _ _ _ _ Hc2) as [H1 H2]. apply linked_app. split; [done|].
  pose proof (lo_base _ _ L) as Hb. destruct l1 as [|x l1]; cbn in Hb; injection Hb as ->; [by split|].
  cbn [app linked]. split; [done|]. apply linked_app.
  destruct (chain_linked _ _ _ _ Hc1) as [H3 H4]. split; [done|]. by split.
Qed.

(** A search along [w], which ends with [freep]. *)
Lemma malloc_scan s ns f nu : list_ok s ns -> f ∈ ns -> freep s = f.1 ->
  forall w z fuel, (forall x, x ∈ z :: w -> x ∈ ns) -> linked s z (w ++ [f]) -> f ∉ w -> (length w < fuel)%nat ->
  (exists z' x, z' ∈ ns /\ x ∈ ns /\ ptr s z'.1 = x.1 /\ nu <= x.2 /\
     malloc_loop fuel nu z.1 (ptr s z.1) s = Some (take_block nu z'.1 x.1 s)) \/
  (Forall (fun x => x.2 < nu) (w ++ [f]) /\
   malloc_loop fuel nu z.1 (ptr s z.1) s =
     match morecore nu s with
     | None => None
     | Some (p, s') => if p =? 0 then Some (None, s')
                       else malloc_loop (fuel - length w - 1) nu p (ptr s' p) s'
     end).
Proof.
  intros L Hf Hfp. assert (Hsz : forall x, x ∈ ns -> size s x.1 = x.2).
  { intros x Hx. apply list_elem_of_split in Hx as (l1 & l2 & ->). apply (chain_node _ _ _ _ _ (lo_chain _ _ L)). }
  induction w as [|x w IH]; intros z fuel Hin Hlk Hnf Hfuel; (destruct fuel as [|fuel]; [lia|]); cbn [malloc_loop].
  - destruct Hlk as [Hzf _]. rewrite Hzf, (Hsz f Hf), Hfp, Z.eqb_refl. destruct (Z.leb_spec nu f.2).
    + left. exists z, f. split_and!; try done. apply Hin; left.
    + right. split; [by repeat constructor|]. cbn [length]. by replace (S fuel - 0 - 1)%nat with fuel by lia.
  - destruct Hlk as [Hzx Hlk]. rewrite Hzx. assert (Hx : x ∈ ns) by (apply Hin; right; left).
    rewrite (Hsz x Hx). destruct (Z.leb_spec nu x.2).
    + left. exists z, x. split_and!; try done. apply Hin; left.
    + rewrite Hfp, (proj2 (Z.eqb_neq x.1 f.1)).
      2: { intros E. rewrite (addr_inj _ _ _ _ L Hx Hf E) in Hnf. apply Hnf. left. }
      destruct (IH x fuel) as [(z' & y & Hz' & Hy & Hp & Hn & ->)|[Hall ->]]; try done.
      * intros y Hy. apply Hin. by right.
      * set_solver.
      * cbn in Hfuel. lia.
      * left. by exists z', y.
      * right. split; [by constructor|]. by replace (S fuel - length (x :: w) - 1)%nat with (fuel - length w - 1)%nat by (cbn; lia).
Qed.

(** The whole circle is searched. *)
Lemma malloc_round s ns nu fuel : list_ok s ns -> (length ns <= fuel)%nat ->
  (exists z x, z ∈ ns /\ x ∈ ns /\ ptr s z.1 = x.1 /\ nu <= x.2 /\
     malloc_loop fuel nu (freep s) (ptr s (freep s)) s = Some (take_block nu z.1 x.1 s)) \/
  (Forall (fun x => x.2 < nu) ns /\
   malloc_loop fuel nu (freep s) (ptr s (freep s)) s =
     match morecore nu s with
     | None => None
     | Some (p, s') => if p =? 0 then Some (None, s')
                       else malloc_loop (fuel - length ns) nu p (ptr s' p) s'
     end).
Proof.
  intros L Hfuel. pose proof (lo_freep _ _ L) as Hf. apply list_elem_of_fmap in Hf as (f & Ef & Hf).
  pose proof Hf as Hf'. apply list_elem_of_split in Hf' as (l1 & l2 & E). subst ns.
  rewrite length_app in Hfuel. cbn [length] in Hfuel. rewrite Ef.
  destruct (malloc_scan s _ f nu L Hf Ef (l2 ++ l1) f fuel) as [H|[Hall H]].
  - set_solver.
  - rewrite <- app_assoc. by apply circle.
  - intros Hin. destruct (nodes_apart _ _ _ _ f L); [set_solver|lia|].
    destruct (blk_bounds _ _ _ L Hf). unfold stop in *. lia.
  - rewrite length_app. lia.
  - by left.
  - right. split; [|rewrite H, !length_app; cbn [length]; by replace (fuel - (length l2 + length l1) - 1)%nat with (fuel - (length l1 + S (length l2)))%nat by lia].
    rewrite !Forall_app in Hall. rewrite Forall_app, Forall_cons. destruct Hall as [[? ?] Hff].
    apply Forall_cons in Hff as [? _]. done.
Qed.

Lemma units_spec nbytes : 0 <= nbytes <= 2 ^ 31 - 32 ->
  1 <= units nbytes /\ 8 * units nbytes < 2 ^ 31 /\ nbytes <= 8 * (units nbytes - 1).
Proof. intros H. unfold units, sizeof_Header. rewrite u32_small by lia. lia. Qed.

(** The state before the first call, and after. *)
Definition fresh (s : ust) : Prop := freep s = 0 /\ 0 < base /\ base + 8 <= m_brk s <= KERNBASE.
Definition ready (s : ust) (al : gmap Z Z) (ns : list block) : Prop :=
  heap_ok s al ns \/ (fresh s /\ al = ∅ /\ ns = []).

Lemma malloc_loop_spec s al ns nu : heap_ok s al ns -> 1 <= nu -> 8 * nu < 2 ^ 31 ->
  exists r s' ns', malloc_loop (turns s) nu (freep s) (ptr s (freep s)) s = Some (r, s') /\
    match r with
    | None => heap_ok s' al ns' /\ grants (m_brk s) (more nu) = false /\ Forall (fun x => x.2 < nu) ns
    | Some p => heap_ok s' (<[p - sizeof_Header := nu]> al) ns' /\ al !! (p - sizeof_Header) = None
    end.
Proof.
  intros H Hnu Hlim. pose proof (ho_list _ _ _ H) as L. pose proof (length_nodes _ _ L) as Hlen.
  destruct (malloc_round s ns nu (turns s) L ltac:(unfold turns; lia)) as [(z & x & Hz & Hx & Hp & Hn & ->)|[Hall ->]].
  - destruct (take_block_spec s al ns z x nu H Hz Hx Hp ltac:(lia)) as (p & s' & ns' & -> & H' & _ & Hnone).
    exists (Some (p + sizeof_Header)), s', ns'. replace (p + sizeof_Header - sizeof_Header) with p by lia. done.
  - destruct (morecore_spec s al ns nu H Hnu Hlim) as [[-> Hg]|(s' & ns' & -> & H' & _ & Hlen' & b & Hb & Hbn)].
    + by exists None, s, ns.
    + pose proof (ho_list _ _ _ H') as L'. pose proof (lo_freep _ _ L') as Hf.
      apply list_elem_of_fmap in Hf as (f & Ef & Hf). destruct (blk_bounds _ _ _ L' Hf) as (_ & Hfb & _).
      pose proof (lo_brk _ _ L') as (Hb0 & _). rewrite (proj2 (Z.eqb_neq (freep s') 0)) by lia.
      destruct (malloc_round s' ns' nu (turns s - length ns) L' ltac:(unfold turns; lia)) as [(z & x & Hz & Hx & Hp & Hn & ->)|[Hall' _]].
      * destruct (take_block_spec s' al ns' z x nu H' Hz Hx Hp ltac:(lia)) as (p & s2 & ns2 & -> & H2 & _ & Hnone).
        exists (Some (p + sizeof_Header)), s2, ns2. replace (p + sizeof_Header - sizeof_Header) with p by lia. done.
      * rewrite Forall_forall in Hall'. specialize (Hall' b Hb). cbn in Hall'. lia.
Qed.

Lemma init_heap s : fresh s ->
  heap_ok (Ust (<[base := Header base 0]> (m_hdr s)) base (m_brk s)) ∅ [(base, 0)].
Proof.
  intros (_ & Hb & Hbrk). split; [split| | |]; try (by intros a n; rewrite lookup_empty).
  - cbn. unfold hdr. cbn. rewrite lookup_insert_eq. split_and!; [done|by eexists|done].
  - done.
  - repeat constructor.
  - constructor; [by left|constructor].
  - left.
  - done.
Qed.

Lemma malloc_spec s al ns nbytes : ready s al ns -> 0 <= nbytes <= 2 ^ 31 - 32 ->
  exists r s' ns', malloc nbytes s = Some (r, s') /\
    match r with
    | None => heap_ok s' al ns' /\ grants (m_brk s) (more (units nbytes)) = false /\
        Forall (fun x => x.2 < units nbytes) ns
    | Some p => heap_ok s' (<[p - sizeof_Header := units nbytes]> al) ns' /\ al !! (p - sizeof_Header) = None
    end.
Proof.
  intros [H|(Hf & -> & ->)] Hn; destruct (units_spec nbytes Hn) as (Hu1 & Hu2 & _); unfold malloc; cbv zeta.
  - pose proof (ho_list _ _ _ H) as L. pose proof (lo_freep _ _ L) as Hf.
    apply list_elem_of_fmap in Hf as (f & Ef & Hf). destruct (blk_bounds _ _ _ L Hf) as (_ & Hfb & _).
    pose proof (lo_brk _ _ L) as (Hb0 & _). rewrite (proj2 (Z.eqb_neq (freep s) 0)) by lia.
    by apply malloc_loop_spec.
  - rewrite (proj2 (Z.eqb_eq (freep s) 0)) by apply Hf. pose proof (init_heap s Hf) as H. clear Hf.
    set (s0 := Ust _ _ _) in *.
    destruct (malloc_loop_spec s0 _ _ _ H Hu1 Hu2) as (r & s' & ns' & -> & Hr).
    exists r, s', ns'. split; [done|]. destruct r; [done|]. destruct Hr as (? & ? & _). split_and!; [done|done|constructor].
Qed.

(** ** A program and its heap

    [al] holds the blocks the program got from [malloc] and has not freed.  The
    program may write what it likes into them, and may call [sbrk] itself. *)
Inductive uses : ust -> gmap Z Z -> Prop :=
| uses_start s : fresh s -> uses s ∅
| uses_malloc s al nbytes p s' :
    uses s al -> 0 <= nbytes <= 2 ^ 31 - 32 -> malloc nbytes s = Some (Some p, s') ->
    uses s' (<[p - sizeof_Header := units nbytes]> al)
| uses_malloc_fail s al nbytes s' :
    uses s al -> 0 <= nbytes <= 2 ^ 31 - 32 -> malloc nbytes s = Some (None, s') -> uses s' al
| uses_free s al p n s' :
    uses s al -> al !! (p - sizeof_Header) = Some n -> free p s = Some s' ->
    uses s' (delete (p - sizeof_Header) al)
| uses_write s al a n m :
    uses s al -> al !! a = Some n -> (forall c, c <= a \/ a + 8 * n <= c -> m !! c = m_hdr s !! c) ->
    uses (Ust m (freep s) (m_brk s)) al
| uses_sbrk s al n : uses s al -> 0 <= n -> grants (m_brk s) n = true ->
    uses (Ust (m_hdr s) (freep s) (m_brk s + n)) al.

(** A block's bytes hold no other block's header. *)
Lemma write_ok s al ns a n m : heap_ok s al ns -> al !! a = Some n ->
  (forall c, c <= a \/ a + 8 * n <= c -> m !! c = m_hdr s !! c) ->
  heap_ok (Ust m (freep s) (m_brk s)) al ns.
Proof.
  intros [L Hal Hd Had] Ha Hm. destruct (Hal a n Ha) as (_ & Hn & Hlow & _).
  assert (Hns : forall b, b ∈ ns -> m !! b.1 = m_hdr s !! b.1).
  { intros b Hb. apply Hm. specialize (Hd _ _ _ Ha Hb). destruct (blk_bounds _ _ _ L Hb) as (? & ? & _).
    unfold disj, stop in Hd. cbn in Hd. lia. }
  split; [split; try apply L| |done|done].
  - eapply chain_frame; [|exact (lo_chain _ _ L)]. done.
  - intros a' n' Ha'. destruct (Hal a' n' Ha') as (Hs & Hr). split; [|done]. rewrite <- Hs.
    unfold size, hdr. cbn [m_hdr]. rewrite Hm; [done|]. destruct (decide (a = a')) as [->|Hne]; [lia|].
    specialize (Had _ _ _ _ Ha Ha' Hne). unfold disj, stop in Had. cbn in Had. lia.
Qed.

Lemma sbrk_ok s al ns n : heap_ok s al ns -> 0 <= n -> grants (m_brk s) n = true ->
  heap_ok (Ust (m_hdr s) (freep s) (m_brk s + n)) al ns.
Proof.
  intros [L Hal Hd Had] Hn Hg. apply grants_ok in Hg. pose proof (lo_brk _ _ L).
  split; [split; try apply L| |done|done].
  - eapply chain_frame; [|exact (lo_chain _ _ L)]. done.
  - eapply Forall_impl; [exact (lo_blk _ _ L)|]. intros b [Hb|Hb]; [by left|right]. cbn. lia.
  - cbn. lia.
  - intros a m Ha. destruct (Hal a m Ha) as (Hs & ? & ? & ?). split_and!; try done. cbn. lia.
Qed.

Lemma uses_ready s al : uses s al -> exists ns, ready s al ns.
Proof.
  induction 1 as [s Hf|s al nbytes p s' _ [ns IH] Hn Hm|s al nbytes s' _ [ns IH] Hn Hm|s al p n s' _ [ns IH] Ha Hf
    |s al a n m _ [ns IH] Ha Hm|s al n _ [ns IH] Hn Hg].
  - exists []. by right.
  - destruct (malloc_spec s al ns nbytes IH Hn) as (r & s2 & ns' & E & Hr). rewrite Hm in E. injection E as <- <-.
    exists ns'. left. apply Hr.
  - destruct (malloc_spec s al ns nbytes IH Hn) as (r & s2 & ns' & E & Hr). rewrite Hm in E. injection E as <- <-.
    exists ns'. left. apply Hr.
  - destruct IH as [IH|(_ & -> & _)]; [|by rewrite lookup_empty in Ha].
    destruct (free_spec s al ns _ n IH Ha) as (s2 & ns' & E & Hr & _).
    replace (p - sizeof_Header + sizeof_Header) with p in E by lia. rewrite Hf in E. injection E as <-. exists ns'. by left.
  - destruct IH as [IH|(_ & -> & _)]; [|by rewrite lookup_empty in Ha]. exists ns. left. by eapply write_ok.
  - destruct IH as [IH|((H1 & H2 & H3) & -> & ->)]; [exists ns; left; by apply sbrk_ok|].
    exists []. right. split; [|done]. apply grants_ok in Hg. split_and!; cbn; (done || lia).
Qed.

(** C24: the allocator hands out disjoint memory and never loops.  Whatever the
    program has done with the blocks it got, [malloc] returns: either a block
    with room for [nbytes] inside the process's memory, disjoint from every block in use;
    or 0, and then no free block is large enough and the kernel has refused
    more memory.  [free] of a block in use returns. *)
Theorem umalloc_correct s al : uses s al ->
  (forall nbytes, 0 <= nbytes <= 2 ^ 31 - 32 ->
     exists r s', malloc nbytes s = Some (r, s') /\
       match r with
       | None => grants (m_brk s) (more (units nbytes)) = false
       | Some p => base + 16 <= p /\ p + nbytes <= m_brk s' /\
           forall a n, al !! a = Some n -> a + 8 * n <= p - 8 \/ p + nbytes <= a
       end) /\
  (forall p n, al !! (p - sizeof_Header) = Some n -> exists s', free p s = Some s').
Proof.
  intros Hu. destruct (uses_ready s al Hu) as (ns & H). split.
  - intros nbytes Hn. destruct (malloc_spec s al ns nbytes H Hn) as (r & s' & ns' & E & Hr).
    exists r, s'. split; [done|]. destruct r as [p|]; [|apply Hr]. destruct Hr as [[_ Hal _ Had] Hnone].
    destruct (units_spec nbytes Hn) as (Hu1 & _ & Hu3).
    destruct (Hal (p - sizeof_Header) (units nbytes)) as (_ & _ & H1 & H2); [by rewrite lookup_insert_eq|].
    unfold sizeof_Header in *. split_and!; [lia|lia|]. intros a n Ha.
    assert (Hne : a <> p - 8) by congruence.
    assert (D := Had a n (p - 8) (units nbytes)). rewrite lookup_insert_ne, lookup_insert_eq in D by done.
    specialize (D Ha eq_refl Hne). unfold disj, stop in D. cbn in D. lia.
  - intros p n Ha. destruct H as [H|(_ & -> & _)]; [|by rewrite lookup_empty in Ha].
    destruct (free_spec s al ns _ n H Ha) as (s' & ns' & E & _).
    replace (p - sizeof_Header + sizeof_Header) with p in E by lia. by exists s'.
Qed.
End allocator.

(** A process of four pages that may grow to 16 MB. *)
Definition sample_grants (brk n : Z) : bool := brk + n <=? 2 ^ 24.
Definition sample_ust : ust := Ust ∅ 0 16384.

Lemma umalloc_correct_witness :
  exists s p q s', malloc 4096 sample_grants 100 sample_ust = Some (Some p, s) /\
    malloc 4096 sample_grants 100 s = Some (Some q, s') /\ (p + 100 <= q \/ q + 100 <= p).
Proof.
  assert (G : forall brk n, sample_grants brk n = true -> brk + n <= KERNBASE).
  { unfold sample_grants, KERNBASE. intros. lia. }
  assert (U : uses 4096 sample_grants sample_ust ∅).
  { constructor. unfold fresh, KERNBASE. cbn. lia. }
  destruct (proj1 (umalloc_correct 4096 sample_grants G sample_ust ∅ U) 100 ltac:(lia)) as (r & s & E & Hr).
  destruct r as [p|]; [|vm_compute in Hr; discriminate Hr].
  pose proof (uses_malloc 4096 sample_grants sample_ust ∅ 100 p s U ltac:(lia) E) as U2.
  destruct (proj1 (umalloc_correct 4096 sample_grants G s _ U2) 100 ltac:(lia)) as (r2 & s2 & E2 & Hr2).
  vm_compute in E. injection E as <- <-. vm_compute in E2. injection E2 as <- <-.
  destruct Hr2 as (_ & _ & Hd). do 4 eexists. split_and!; [vm_compute; reflexivity|vm_compute; reflexivity|lia].
Defined.

(** A request of almost the whole address space is granted a block of one unit:
    the addition in the computation of [nunits] wraps. *)
Lemma malloc_wraps : units (2 ^ 32 - 1) = 1.
Proof. reflexivity. Qed.
