(* ===== verification/Printf.v ===== *)
(** * Formatted output ([user/printf.c], and [printint] and [cprintf] of
    [kernel/console.c])

    A call of the user library is the list of its one-byte [write]s, in order,
    each with its file descriptor; a call of the kernel is the list of the
    characters it gives to [consputc].  The arguments are the 32-bit words after
    the format on the stack; a string argument is a pointer into the memory. *)

From S2P Require Import Prelude CString.
Local Open Scope Z_scope.

(** ["0123456789ABCDEF"] and, in the kernel, ["0123456789abcdef"] *)
Definition udigits : list Z := [48; 49; 50; 51; 52; 53; 54; 55; 56; 57; 65; 66; 67; 68; 69; 70].
Definition kdigits : list Z := [48; 49; 50; 51; 52; 53; 54; 55; 56; 57; 97; 98; 99; 100; 101; 102].

(** The [do] loop: what it stores in [buf], from index 0.  A [uint] has at most
    32 digits. *)
Fixpoint digit_loop (fuel : nat) (digits : list Z) (x base : Z) : list Z :=
  match fuel with
  | O => []
  | S fuel' =>
      default 0 (digits !! Z.to_nat (x mod base)) ::
      (if x / base =? 0 then [] else digit_loop fuel' digits (x / base) base)
  end.

(** What [write(fd, &c, 1)] writes, and where. *)
Definition putc (fd c : Z) : list (Z * Z) := [(fd, c)].

(** [buf] before the last loop. *)
Definition printint_buf (xx base : Z) (sgn : bool) : list Z :=
  let neg := sgn && (xx <? 0) in
  let x := if neg then u32 (- xx) else u32 xx in
  let buf := digit_loop 32 udigits x base in
  if neg then buf ++ [45] else buf.

Definition printint (fd xx base : Z) (sgn : bool) : list (Z * Z) :=
  rev (printint_buf xx base sgn) ≫= putc fd.

(** The kernel's own copy; [sign] is set to whether there is one. *)
Definition kprintint (xx base : Z) (sign : bool) : list Z :=
  let sign := sign && (xx <? 0) in
  let x := if sign then u32 (- xx) else u32 xx in
  let buf := digit_loop 32 kdigits x base in
  rev (if sign then buf ++ [45] else buf).

(** The word of an argument read as an [int]. *)
Definition as_int (w : Z) : Z := s32 w.

Section memory.
(** The string at an address. *)
Context (str : Z -> list Z).

(** ["(null)"] *)
Definition null_text : list Z := [40; 110; 117; 108; 108; 41].
Definition string_arg (w : Z) : list Z := if w =? 0 then null_text else str w.

(** The loop of [vprintf] with [state]; [None] when it reads an argument that
    is not there. *)
Fixpoint vprintf (fd : Z) (state : bool) (fmt : list Z) (args : list Z) : option (list (Z * Z)) :=
  match fmt with
  | [] => Some []
  | c :: fmt' =>
      if negb state then
        if c =? 37 then vprintf fd true fmt' args
        else app (putc fd c) <$> vprintf fd false fmt' args
      else
        let literal l := app l <$> vprintf fd false fmt' args in
        let argument f :=
          match args with
          | [] => None
          | w :: args' => app (f w) <$> vprintf fd false fmt' args'
          end in
        if c =? 100 then argument (fun w => printint fd (as_int w) 10 true)
        else if (c =? 120) || (c =? 112) then argument (fun w => printint fd (as_int w) 16 false)
        else if c =? 115 then argument (fun w => string_arg w ≫= putc fd)
        else if c =? 99 then argument (fun w => putc fd (u8 w))
        else if c =? 37 then literal (putc fd c)
        else literal (putc fd 37 ++ putc fd c)
  end.

Definition fprintf (fd : Z) (fmt args : list Z) : option (list (Z * Z)) := vprintf fd false fmt args.
Definition printf (fmt args : list Z) : option (list (Z * Z)) := vprintf 1 false fmt args.

(** The kernel's; [consputc] writes one character. *)
Fixpoint cprintf (fmt : list Z) (args : list Z) : option (list Z) :=
  match fmt with
  | [] => Some []
  | c :: fmt' =>
      if negb (c =? 37) then app [c] <$> cprintf fmt' args else
      match fmt' with
      | [] => Some []
      | c :: fmt' =>
          let literal l := app l <$> cprintf fmt' args in
          let argument f :=
            match args with
            | [] => None
            | w :: args' => app (f w) <$> cprintf fmt' args'
            end in
          if c =? 100 then argument (fun w => kprintint (as_int w) 10 true)
          else if (c =? 120) || (c =? 112) then argument (fun w => kprintint (as_int w) 16 false)
          else if c =? 115 then argument string_arg
          else if c =? 37 then literal [37]
          else literal [37; c]
      end
  end.

(** ** What a format means *)

Inductive piece :=
| Text (c : Z)             (* a character other than % *)
| Decimal (w : Z)
| Hexadecimal (w : Z)
| Pointer (w : Z)
| String (w : Z)
| Character (w : Z)
| Percent
| Unknown (c : Z).

(** [user]: for the user library, which knows [%c]; the kernel does not. *)
Definition piece_ok (user : bool) (p : piece) : Prop :=
  match p with
  | Text c => c <> 37
  | Character _ => user = true
  | Unknown c => c <> 37 /\ c <> 100 /\ c <> 120 /\ c <> 112 /\ c <> 115 /\ (user = true -> c <> 99)
  | _ => True
  end.

Definition piece_fmt (p : piece) : list Z :=
  match p with
  | Text c => [c]
  | Decimal _ => [37; 100]
  | Hexadecimal _ => [37; 120]
  | Pointer _ => [37; 112]
  | String _ => [37; 115]
  | Character _ => [37; 99]
  | Percent => [37; 37]
  | Unknown c => [37; c]
  end.

Definition piece_args (p : piece) : list Z :=
  match p with
  | Decimal w | Hexadecimal w | Pointer w | String w | Character w => [w]
  | _ => []
  end.

(** A numeral: its digits' values, most significant first. *)
Definition value (base : Z) (ds : list Z) : Z := foldl (fun x d => base * x + d) 0 ds.
Definition numeral (base x : Z) (ds : list Z) : Prop :=
  value base ds = x /\ Forall (fun d => 0 <= d < base) ds /\ (ds = [0] \/ (ds <> [] /\ head ds <> Some 0)).

Definition spell (digits ds : list Z) : list Z := (fun d => default 0 (digits !! Z.to_nat d)) <$> ds.

(** The text of a piece: an [int] in decimal with its sign, a word in
    hexadecimal. *)
Definition renders (digits : list Z) (p : piece) (l : list Z) : Prop :=
  match p with
  | Text c => l = [c]
  | Decimal w => exists ds, numeral 10 (Z.abs (as_int w)) ds /\
      l = (if as_int w <? 0 then [45] else []) ++ spell digits ds
  | Hexadecimal w | Pointer w => exists ds, numeral 16 (u32 w) ds /\ l = spell digits ds
  | String w => l = string_arg w
  | Character w => l = [u8 w]
  | Percent => l = [37]
  | Unknown c => l = [37; c]
  end.
End memory.

(** ** Numerals *)

Lemma value_snoc base ds d : value base (ds ++ [d]) = base * value base ds + d.
Proof. unfold value. by rewrite foldl_app. Qed.

(** The loop's digits, least significant first. *)
Fixpoint loop_values (fuel : nat) (x base : Z) : list Z :=
  match fuel with
  | O => []
  | S fuel' => x mod base :: (if x / base =? 0 then [] else loop_values fuel' (x / base) base)
  end.

Lemma digit_loop_values fuel digits : forall x base,
  digit_loop fuel digits x base = spell digits (loop_values fuel x base).
Proof.
  induction fuel as [|fuel IH]; intros x base; [done|]. cbn [digit_loop loop_values spell fmap list_fmap].
  f_equal. destruct (x / base =? 0); [done|]. apply IH.
Qed.

Lemma loop_values_spec base : 2 <= base -> forall fuel x, 0 <= x < base ^ Z.of_nat (S fuel) ->
  numeral base x (rev (loop_values (S fuel) x base)) /\
  (x <> 0 -> head (rev (loop_values (S fuel) x base)) <> Some 0) /\
  (length (loop_values (S fuel) x base) <= S fuel)%nat.
Proof.
  intros Hb. induction fuel as [|fuel IH]; intros x Hx.
  - rewrite Z.pow_1_r in Hx. cbn [loop_values]. rewrite Z.mod_small, Z.div_small by lia. cbn.
    split; [|split; [intros H [= E]; done|lia]]. unfold numeral, value. cbn. split_and!; [lia|by constructor|].
    destruct (decide (x = 0)) as [->|]; [by left|right]. split; [done|by intros [= ?]].
  - change (loop_values (S (S fuel)) x base) with
      (x mod base :: (if x / base =? 0 then [] else loop_values (S fuel) (x / base) base)).
    destruct (Z.eqb_spec (x / base) 0) as [E|E].
    + assert (0 <= x < base) by (apply Z.div_small_iff in E; lia). rewrite Z.mod_small by lia. cbn.
      split; [|split; [intros ? [= ?]; done|lia]]. unfold numeral, value. cbn. split_and!; [lia|by constructor|].
      destruct (decide (x = 0)) as [->|]; [by left|right]. split; [done|by intros [= ?]].
    + assert (Hq : 0 <= x / base < base ^ Z.of_nat (S fuel)).
      { split; [apply Z.div_pos; lia|]. apply Z.div_lt_upper_bound; [lia|].
        rewrite <- Z.pow_succ_r by lia. replace (Z.succ (Z.of_nat (S fuel))) with (Z.of_nat (S (S fuel))) by lia. apply Hx. }
      destruct (IH _ Hq) as ((Hv & Hd & Hc) & Hh & Hl). specialize (Hh E).
      set (r := loop_values (S fuel) (x / base) base) in *. cbn [rev]. 
      assert (Hne : rev r <> []) by (destruct Hc as [-> | [? _]]; done).
      assert (Hhd : head (rev r ++ [x mod base]) <> Some 0) by (by destruct (rev r)).
      split; [split_and!|split; [done|cbn [length]; lia]].
      * rewrite value_snoc, Hv. pose proof (Z.div_mod x base). lia.
      * apply Forall_app. split; [done|]. constructor; [apply Z.mod_pos_bound; lia|done].
      * right. split; [by destruct (rev r)|done].
Qed.

Lemma rev_spell digits ds : rev (spell digits ds) = spell digits (rev ds).
Proof.
  induction ds as [|d ds IH]; [done|]. cbn [spell fmap list_fmap rev]. unfold spell in *.
  by rewrite fmap_app, IH.
Qed.

Lemma length_loop_values base : 2 <= base -> forall fuel k x, (S k <= fuel)%nat -> 0 <= x < base ^ Z.of_nat (S k) ->
  (length (loop_values fuel x base) <= S k)%nat.
Proof.
  intros Hb. induction fuel as [|fuel IH]; intros k x Hk Hx; [cbn; lia|]. cbn [loop_values length].
  destruct (Z.eqb_spec (x / base) 0) as [E|E]; [cbn; lia|].
  destruct k as [|k].
  - rewrite Z.pow_1_r in Hx. rewrite Z.div_small in E by lia. done.
  - assert (length (loop_values fuel (x / base) base) <= S k)%nat; [|lia]. apply IH; [lia|].
    split; [apply Z.div_pos; lia|]. apply Z.div_lt_upper_bound; [lia|].
    rewrite <- Z.pow_succ_r by lia. replace (Z.succ (Z.of_nat (S k))) with (Z.of_nat (S (S k))) by lia. apply Hx.
Qed.

(** ** [printint] *)

(** The characters of a number: the user library's and the kernel's. *)
Definition number (digits : list Z) (xx base : Z) (sgn : bool) : list Z :=
  let neg := sgn && (xx <? 0) in
  rev (let buf := digit_loop 32 digits (if neg then u32 (- xx) else u32 xx) base in if neg then buf ++ [45] else buf).

Lemma putc_each fd l : l ≫= putc fd = pair fd <$> l.
Proof. induction l as [|c l IH]; [done|]. cbn [mbind list_bind fmap list_fmap] in *. by rewrite IH. Qed.

Lemma printint_number fd xx base sgn : printint fd xx base sgn = pair fd <$> number udigits xx base sgn.
Proof. apply putc_each. Qed.

Lemma kprintint_number xx base sign : kprintint xx base sign = number kdigits xx base sign.
Proof. done. Qed.

Lemma number_numeral digits xx base sgn :
  base = 10 \/ base = 16 -> - 2 ^ 31 <= xx < 2 ^ 31 ->
  let x := if sgn && (xx <? 0) then - xx else u32 xx in
  exists ds, numeral base x ds /\ (length ds <= 10)%nat /\
    number digits xx base sgn = (if sgn && (xx <? 0) then [45] else []) ++ spell digits ds.
Proof.
  intros Hb Hxx x. exists (rev (loop_values 32 x base)).
  assert (Hx : 0 <= x < 2 ^ 32).
  { unfold x. destruct (sgn && (xx <? 0)) eqn:E; [lia|apply u32_range]. }
  assert (Hpow : 2 ^ 32 <= base ^ Z.of_nat 10 /\ 2 ^ 32 <= base ^ Z.of_nat 32 /\ 2 <= base)
    by (destruct Hb as [-> | ->]; by vm_compute).
  destruct (loop_values_spec base ltac:(lia) 31 x ltac:(lia)) as (Hn & _).
  split_and!; [done| |].
  - rewrite length_rev. apply length_loop_values; lia.
  - assert (Ex : (if sgn && (xx <? 0) then u32 (- xx) else u32 xx) = x).
    { unfold x. destruct (sgn && (xx <? 0)) eqn:E; [apply u32_small; lia|done]. }
    unfold number. cbv zeta. rewrite Ex, digit_loop_values, <- rev_spell.
    destruct (sgn && (xx <? 0)); [|done]. by rewrite rev_app_distr.
Qed.

Lemma number_length digits xx base sgn :
  base = 10 \/ base = 16 -> - 2 ^ 31 <= xx < 2 ^ 31 -> (length (number digits xx base sgn) <= 16)%nat.
Proof.
  intros Hb Hx. destruct (number_numeral digits xx base sgn Hb Hx) as (ds & _ & Hl & ->).
  rewrite length_app. unfold spell. rewrite length_fmap. destruct (sgn && _); cbn; lia.
Qed.

Lemma as_int_range w : - 2 ^ 31 <= as_int w < 2 ^ 31.
Proof. unfold as_int, s32. lia. Qed.

Lemma number_decimal str digits w : renders str digits (Decimal w) (number digits (as_int w) 10 true).
Proof.
  pose proof (as_int_range w) as Hw. destruct (number_numeral digits (as_int w) 10 true) as (ds & Hn & _ & E); [tauto|done|].
  exists ds. rewrite E. cbn [andb] in *. split; [|done].
  destruct (Z.ltb_spec (as_int w) 0).
  - by rewrite Z.abs_neq by lia.
  - rewrite u32_small in Hn by lia. by rewrite Z.abs_eq by lia.
Qed.

Lemma number_hex str digits w : renders str digits (Hexadecimal w) (number digits (as_int w) 16 false).
Proof.
  pose proof (as_int_range w) as Hw. destruct (number_numeral digits (as_int w) 16 false) as (ds & Hn & _ & E); [tauto|done|].
  exists ds. rewrite E. cbn [andb app] in *. split; [|done].
  replace (u32 w) with (u32 (as_int w)); [done|]. unfold u32, as_int, s32. lia.
Qed.

(** [atoi] reads what [printint] writes. *)
Lemma atoi_spell ds : forall n, Forall (fun d => 0 <= d < 10) ds -> 0 <= n ->
  foldl (fun x d => 10 * x + d) n ds < 2 ^ 31 ->
  atoi_loop (spell udigits ds) n = foldl (fun x d => 10 * x + d) n ds.
Proof.
  induction ds as [|d ds IH]; intros n Hd Hn Hb; [done|]. apply Forall_cons in Hd as [Hd Hds].
  cbn [spell fmap list_fmap atoi_loop foldl] in *.
  assert (Hc : default 0 (udigits !! Z.to_nat d) = 48 + d).
  { assert (d = 0 \/ d = 1 \/ d = 2 \/ d = 3 \/ d = 4 \/ d = 5 \/ d = 6 \/ d = 7 \/ d = 8 \/ d = 9) as E by lia.
    destruct_or! E; by subst. }
  rewrite Hc. replace ((48 <=? 48 + d) && (48 + d <=? 57)) with true by lia.
  assert (Hge : forall l m, Forall (fun d => 0 <= d < 10) l -> 0 <= m -> m <= foldl (fun x d => 10 * x + d) m l).
  { clear. induction l as [|e l IH]; intros m Hl Hm; [cbn; lia|]. apply Forall_cons in Hl as [He Hl].
    cbn [foldl]. specialize (IH (10 * m + e) Hl ltac:(lia)). lia. }
  specialize (Hge ds (10 * n + d) Hds ltac:(lia)).
  rewrite s32_small by lia. replace (n * 10 + (48 + d) - 48) with (10 * n + d) by lia.
  apply IH; [done|lia|done].
Qed.

(** A number below zero starts with a character that [atoi] does not know. *)
Lemma number_atoi n : - 2 ^ 31 <= n < 2 ^ 31 -> atoi (number udigits n 10 true) = Z.max 0 n.
Proof.
  intros Hn. destruct (number_numeral udigits n 10 true) as (ds & (Hv & Hd & _) & _ & ->); [tauto|lia|].
  unfold atoi. destruct (Z.ltb_spec n 0) as [Hneg|Hpos]; cbn [andb app] in *.
  - cbn [atoi_loop]. replace ((48 <=? 45) && (45 <=? 57)) with false by done. lia.
  - rewrite u32_small in Hv by lia. unfold value in Hv. rewrite atoi_spell by (done || lia). lia.
Qed.

(** ** The formats *)

Section formats.
Context (str : Z -> list Z).

(** What is left of a format after its last piece: nothing, or a single
    percent sign, which prints nothing. *)
Definition format_end (l : list Z) : Prop := l = [] \/ l = [37].

Lemma vprintf_pieces last rest ps : format_end last -> Forall (piece_ok true) ps ->
  exists ls, Forall2 (renders str udigits) ps ls /\ forall fd,
    fprintf str fd (concat (piece_fmt <$> ps) ++ last) (concat (piece_args <$> ps) ++ rest) = Some (pair fd <$> concat ls).
Proof.
  intros Hlast. induction 1 as [|p ps Hp _ (ls & Hls & IH)]; unfold fprintf in *.
  { exists []. split; [done|]. by destruct Hlast as [-> | ->]. }
  assert (G : exists l, renders str udigits p l /\ forall fd,
    vprintf str fd false (piece_fmt p ++ concat (piece_fmt <$> ps) ++ last)
      (piece_args p ++ concat (piece_args <$> ps) ++ rest) = app (pair fd <$> l) <$> Some (pair fd <$> concat ls)).
  { destruct p as [c|w|w|w|w|w| |c]; cbn [piece_fmt piece_args app vprintf negb Z.eqb Pos.eqb orb] in *.
    - exists [c]. split; [done|]. intros fd. rewrite (proj2 (Z.eqb_neq c 37)) by done. by rewrite IH.
    - eexists. split; [apply number_decimal|]. intros fd. by rewrite printint_number, IH.
    - exists (number udigits (as_int w) 16 false). split; [apply (number_hex str udigits)|]. intros fd. by rewrite printint_number, IH.
    - exists (number udigits (as_int w) 16 false). split; [apply (number_hex str udigits)|]. intros fd. by rewrite printint_number, IH.
    - eexists. split; [done|]. intros fd. by rewrite putc_each, IH.
    - exists [u8 w]. split; [done|]. intros fd. by rewrite IH.
    - exists [37]. split; [done|]. intros fd. by rewrite IH.
    - destruct Hp as (H1 & H2 & H3 & H4 & H5 & H6). specialize (H6 eq_refl). exists [37; c]. split; [done|]. intros fd.
      rewrite !(proj2 (Z.eqb_neq _ _)) by done. cbn [orb]. by rewrite IH. }
  destruct G as (l & Hl & E). exists (l :: ls). split; [by constructor|]. intros fd. cbn [fmap list_fmap concat].
  rewrite <- !(assoc_L (++)), E. cbn [fmap option_fmap option_map]. by rewrite fmap_app.
Qed.

Lemma cprintf_pieces last rest ps : format_end last -> Forall (piece_ok false) ps ->
  exists ls, Forall2 (renders str kdigits) ps ls /\
    cprintf str (concat (piece_fmt <$> ps) ++ last) (concat (piece_args <$> ps) ++ rest) = Some (concat ls).
Proof.
  intros Hlast. induction 1 as [|p ps Hp _ (ls & Hls & IH)].
  { exists []. split; [done|]. by destruct Hlast as [-> | ->]. }
  assert (G : exists l, renders str kdigits p l /\
    cprintf str (piece_fmt p ++ concat (piece_fmt <$> ps) ++ last)
      (piece_args p ++ concat (piece_args <$> ps) ++ rest) = app l <$> Some (concat ls)).
  { destruct p as [c|w|w|w|w|w| |c]; cbn [piece_fmt piece_args app cprintf negb Z.eqb Pos.eqb orb] in *;
      rewrite ?kprintint_number.
    - exists [c]. split; [done|]. rewrite (proj2 (Z.eqb_neq c 37)) by done. by rewrite IH.
    - eexists. split; [apply (number_decimal str kdigits)|]. by rewrite IH.
    - exists (number kdigits (as_int w) 16 false). split; [apply (number_hex str kdigits)|]. by rewrite IH.
    - exists (number kdigits (as_int w) 16 false). split; [apply (number_hex str kdigits)|]. by rewrite IH.
    - eexists. split; [done|]. by rewrite IH.
    - done.
    - eexists. split; [done|]. by rewrite IH.
    - destruct Hp as (H1 & H2 & H3 & H4 & H5 & _). eexists. split; [done|].
      rewrite !(proj2 (Z.eqb_neq _ _)) by done. cbn [orb]. by rewrite IH. }
  destruct G as (l & Hl & E). exists (l :: ls). split; [by constructor|]. cbn [fmap list_fmap concat].
  by rewrite <- !(assoc_L (++)), E.
Qed.
End formats.

(** C34: [fprintf] and [printf] of the user library and [cprintf] of the kernel print what
    the format says, to the given descriptor, to descriptor 1 and to the
    console: text as it is, [%d] the canonical decimal numeral of the argument
    as a signed [int] (the smallest included), [%x] and [%p] the canonical
    hexadecimal numeral of the word, [%s] the string or ["(null)"], [%c] (user
    library only) the low byte, and unknown sequences unchanged, which in the
    kernel includes [%c]; each takes its arguments in order, and a percent sign
    at the end of the format prints nothing.  No number overruns the 16-byte
    buffer of [printint], and [atoi] reads a printed number back, one below
    zero as 0. *)
Theorem printf_correct str fd last rest :
  format_end last ->
  (forall ps, Forall (piece_ok true) ps -> exists ls, Forall2 (renders str udigits) ps ls /\
    fprintf str fd (concat (piece_fmt <$> ps) ++ last) (concat (piece_args <$> ps) ++ rest) =
      Some (pair fd <$> concat ls) /\
    printf str (concat (piece_fmt <$> ps) ++ last) (concat (piece_args <$> ps) ++ rest) =
      Some (pair 1 <$> concat ls)) /\
  (forall ps, Forall (piece_ok false) ps -> exists ls, Forall2 (renders str kdigits) ps ls /\
    cprintf str (concat (piece_fmt <$> ps) ++ last) (concat (piece_args <$> ps) ++ rest) = Some (concat ls)) /\
  (forall w base sgn, base = 10 \/ base = 16 ->
    (length (printint_buf (as_int w) base sgn) <= 16)%nat /\ (length (kprintint (as_int w) base sgn) <= 16)%nat) /\
  (forall n, - 2 ^ 31 <= n < 2 ^ 31 -> atoi (snd <$> printint fd n 10 true) = Z.max 0 n).
Proof.
  intros Hlast. split_and!.
  - intros ps Hps. destruct (vprintf_pieces str last rest ps Hlast Hps) as (ls & Hls & E). exists ls.
    split_and!; [done|apply E|apply (E 1)].
  - intros ps Hps. by apply cprintf_pieces.
  - intros w base sgn Hb. pose proof (fun d => number_length d (as_int w) base sgn Hb (as_int_range w)) as H.
    split; [|apply (H kdigits)]. rewrite <- length_rev. apply (H udigits).
  - intros n Hn. rewrite printint_number, <- list_fmap_compose. rewrite list_fmap_id. by apply number_atoi.
Qed.

(** The formats [n=%d] with the smallest [int], and [%p%c] with a trailing
    percent sign. *)
Lemma printf_correct_witness :
  fprintf (fun _ => []) 2 [110; 61; 37; 100] [2147483648] =
    Some (pair 2 <$> [110; 61; 45; 50; 49; 52; 55; 52; 56; 51; 54; 52; 56]) /\
  exists l1 l2, renders (fun _ => []) udigits (Pointer 4294967295) l1 /\ l2 = [66] /\
    printf (fun _ => []) [37; 112; 37; 99; 37] [4294967295; 66] = Some (pair 1 <$> l1 ++ l2).
Proof.
  split; [vm_compute; reflexivity|].
  destruct (proj1 (printf_correct (fun _ => []) 2 [37] [] (or_intror eq_refl)) [Pointer 4294967295; Character 66]
    ltac:(repeat constructor)) as (ls & Hls & _ & E).
  apply Forall2_cons_inv_l in Hls as (l1 & ls1 & H1 & Hls & ->).
  apply Forall2_cons_inv_l in Hls as (l2 & ls2 & H2 & Hls & ->). apply Forall2_nil_inv_l in Hls as ->.
  exists l1, l2. split_and!; [exact H1|exact H2|]. cbn [concat] in E. rewrite !app_nil_r in E. exact E.
Defined.
