(* ===== verification/Sh.v ===== *)
(** * The shell's parser ([user/sh.c])

    The parser works on positions in the line; [nulterminate] then writes a NUL
    after every word, and a command's strings are read from the line. *)

From S2P Require Import Prelude Params CString.
Local Open Scope Z_scope.

Definition MAXARGS : nat := 10.

(** [struct cmd] and its variants.  A word is the pair of the positions of its
    first character and of its end. *)
Definition word : Type := nat * nat.
Inductive cmd :=
| EXEC (argv : list word)
| REDIR (c : cmd) (file : word) (mode fd : Z)
| PIPE (left right : cmd)
| LIST (left right : cmd)
| BACK (c : cmd).

(** [" \t\r\n\v"] and ["<|>&;()"] *)
Definition whitespace : list Z := [32; 9; 13; 10; 11].
Definition symbols : list Z := [60; 124; 62; 38; 59; 40; 41].

Definition has (l : list Z) (c : Z) : bool := bool_decide (c ∈ l).
Definition is_word (c : Z) : bool := negb (has whitespace c) && negb (has symbols c).

(** How many leading elements satisfy [p]. *)
Fixpoint span (p : Z -> bool) (l : list Z) : nat :=
  match l with
  | [] => 0
  | c :: l' => if p c then S (span p l') else 0
  end.

Section line.
(** The line, without its NUL. *)
Context (s : list Z).

Definition char_at (i : nat) : Z := default 0 (s !! i).
Definition skip (p : Z -> bool) (i : nat) : nat := (i + span p (drop i s))%nat.

(** The token, its position and its end, and the position after it. *)
Definition gettoken (ps : nat) : Z * word * nat :=
  let q := skip (has whitespace) ps in
  let c := char_at q in
  let '(ret, eq) :=
    if c =? 0 then (0, q)
    else if has [124; 40; 41; 59; 38; 60] c then (c, S q)
    else if c =? 62 then
      if char_at (S q) =? 62 then (43, S (S q)) else (62, S q)
    else (97, skip is_word q) in
  (ret, (q, eq), skip (has whitespace) eq).

Definition peek (ps : nat) (toks : list Z) : bool * nat :=
  let i := skip (has whitespace) ps in
  (negb (char_at i =? 0) && has toks (char_at i), i).

(** The result of a parsing function, with the new position. *)
Inductive parsed (A : Type) :=
| Parsed (a : A) (ps : nat)
| Syntax (msg : string)      (* [panic] *)
| NoFuel.
Arguments Parsed {A} a ps.
Arguments Syntax {A} msg.
Arguments NoFuel {A}.

Definition pbind {A B} (m : parsed A) (k : A -> nat -> parsed B) : parsed B :=
  match m with
  | Parsed a ps => k a ps
  | Syntax msg => Syntax msg
  | NoFuel => NoFuel
  end.

(** A turn of a loop and a call of a function read a character each, or are
    followed by one that does. *)
Fixpoint parseredirs (fuel : nat) (c : cmd) (ps : nat) : parsed cmd :=
  match fuel with
  | O => NoFuel
  | S fuel' =>
      let '(b, ps) := peek ps [60; 62] in
      if b then
        let '(tok, _, ps) := gettoken ps in
        let '(tok2, w, ps) := gettoken ps in
        if negb (tok2 =? 97) then Syntax "missing file for redirection" else
        if tok =? 60 then parseredirs fuel' (REDIR c w O_RDONLY 0) ps
        else if tok =? 62 then parseredirs fuel' (REDIR c w (Z.lor O_WRONLY O_CREATE) 1) ps
        else if tok =? 43 then parseredirs fuel' (REDIR c w (Z.lor O_WRONLY O_CREATE) 1) ps
        else parseredirs fuel' c ps
      else Parsed c ps
  end.

(** [cmd->argv[argc] = q]: [cmd] is the [EXEC] inside [ret]. *)
Fixpoint add_arg (ret : cmd) (w : word) : cmd :=
  match ret with
  | EXEC argv => EXEC (argv ++ [w])
  | REDIR c f mode fd => REDIR (add_arg c w) f mode fd
  | _ => ret
  end.

(** The [while] loop of [parseexec]. *)
Fixpoint parseargs (fuel : nat) (ret : cmd) (argc : nat) (ps : nat) : parsed cmd :=
  match fuel with
  | O => NoFuel
  | S fuel' =>
      let '(b, ps) := peek ps [124; 41; 38; 59] in
      if b then Parsed ret ps else
      let '(tok, w, ps) := gettoken ps in
      if tok =? 0 then Parsed ret ps else
      if negb (tok =? 97) then Syntax "syntax" else
      let ret := add_arg ret w in
      if (MAXARGS <=? S argc)%nat then Syntax "too many args" else
      pbind (parseredirs fuel' ret ps) (fun ret ps => parseargs fuel' ret (S argc) ps)
  end.

(** The [while] loop of [parseline]. *)
Fixpoint parsebacks (fuel : nat) (c : cmd) (ps : nat) : parsed cmd :=
  match fuel with
  | O => NoFuel
  | S fuel' =>
      let '(b, ps) := peek ps [38] in
      if b then
        let '(_, _, ps) := gettoken ps in parsebacks fuel' (BACK c) ps
      else Parsed c ps
  end.

Fixpoint parseline (fuel : nat) (ps : nat) : parsed cmd :=
  match fuel with
  | O => NoFuel
  | S fuel' =>
      pbind (parsepipe fuel' ps) (fun c ps =>
      pbind (parsebacks fuel' c ps) (fun c ps =>
      let '(b, ps) := peek ps [59] in
      if b then
        let '(_, _, ps) := gettoken ps in
        pbind (parseline fuel' ps) (fun c2 ps => Parsed (LIST c c2) ps)
      else Parsed c ps))
  end
with parsepipe (fuel : nat) (ps : nat) : parsed cmd :=
  match fuel with
  | O => NoFuel
  | S fuel' =>
      pbind (parseexec fuel' ps) (fun c ps =>
      let '(b, ps) := peek ps [124] in
      if b then
        let '(_, _, ps) := gettoken ps in
        pbind (parsepipe fuel' ps) (fun c2 ps => Parsed (PIPE c c2) ps)
      else Parsed c ps)
  end
with parseexec (fuel : nat) (ps : nat) : parsed cmd :=
  match fuel with
  | O => NoFuel
  | S fuel' =>
      let '(b, ps) := peek ps [40] in
      if b then parseblock fuel' ps else
      pbind (parseredirs fuel' (EXEC []) ps) (fun ret ps => parseargs fuel' ret 0 ps)
  end
with parseblock (fuel : nat) (ps : nat) : parsed cmd :=
  match fuel with
  | O => NoFuel
  | S fuel' =>
      let '(b, ps) := peek ps [40] in
      if negb b then Syntax "parseblock" else
      let '(_, _, ps) := gettoken ps in
      pbind (parseline fuel' ps) (fun c ps =>
      let '(b, ps) := peek ps [41] in
      if negb b then Syntax "syntax - missing )" else
      let '(_, _, ps) := gettoken ps in
      parseredirs fuel' c ps)
  end.

(** [parsecmd] without its last step. *)
Definition parse_all : parsed cmd :=
  pbind (parseline (4 * (length s + 2)) 0) (fun c ps =>
  let '(_, ps) := peek ps [] in
  if negb (ps =? length s)%nat then Syntax "syntax" else Parsed c ps).
End line.

Arguments Parsed {A} a ps.
Arguments Syntax {A} msg.
Arguments NoFuel {A}.

(** The line with its NUL, after [nulterminate]. *)
Fixpoint nulterminate (c : cmd) (buf : list Z) : list Z :=
  match c with
  | EXEC argv => foldl (fun buf w => <[snd w := 0]> buf) buf argv
  | REDIR c f _ _ => <[snd f := 0]> (nulterminate c buf)
  | PIPE l r | LIST l r => nulterminate r (nulterminate l buf)
  | BACK c => nulterminate c buf
  end.

(** The command and the line it points into. *)
Definition parsecmd (s : list Z) : parsed (cmd * list Z) :=
  pbind (parse_all s) (fun c ps => Parsed (c, nulterminate c (s ++ [0])) ps).

(** ** Commands as text *)

Inductive ast :=
| AExec (argv : list (list Z))
| ARedir (c : ast) (file : list Z) (mode fd : Z)
| APipe (left right : ast)
| AList (left right : ast)
| ABack (c : ast).

(** The command with its strings read from the line. *)
Definition string_at (buf : list Z) (w : word) : list Z := cstr (length buf) (drop w.1 buf).
Fixpoint read_cmd (buf : list Z) (c : cmd) : ast :=
  match c with
  | EXEC argv => AExec (string_at buf <$> argv)
  | REDIR c f mode fd => ARedir (read_cmd buf c) (string_at buf f) mode fd
  | PIPE l r => APipe (read_cmd buf l) (read_cmd buf r)
  | LIST l r => AList (read_cmd buf l) (read_cmd buf r)
  | BACK c => ABack (read_cmd buf c)
  end.

(** Words and redirections that can be written down. *)
Definition word_ok (w : list Z) : Prop := w <> [] /\ Forall (fun c => is_word c = true /\ c <> 0) w.
Definition redir_ok (mode fd : Z) : Prop :=
  (mode = O_RDONLY /\ fd = 0) \/ (mode = Z.lor O_WRONLY O_CREATE /\ fd = 1).
Fixpoint ast_ok (c : ast) : Prop :=
  match c with
  | AExec argv => Forall word_ok argv /\ (length argv < MAXARGS)%nat
  | ARedir c f mode fd => ast_ok c /\ word_ok f /\ redir_ok mode fd
  | APipe l r | AList l r => ast_ok l /\ ast_ok r
  | ABack c => ast_ok c
  end.

Definition paren (b : bool) (l : list Z) : list Z := if b then 40 :: l ++ [41] else l.

(** A line for a command; [lvl] is 0 where [parseline] reads it, 1 before
    [&], 2 where [parsepipe] reads it and 3 where [parseexec] does. *)
Fixpoint show (lvl : nat) (c : ast) : list Z :=
  match c with
  | AExec argv => concat ((fun w => w ++ [32]) <$> argv)
  | ARedir c f mode fd => show 3 c ++ (if fd =? 0 then 60 else 62) :: f ++ [32]
  | APipe l r => paren (2 <? lvl)%nat (show 3 l ++ 124 :: show 2 r)
  | ABack c => paren (1 <? lvl)%nat (show 1 c ++ [38])
  | AList l r => paren (0 <? lvl)%nat (show 1 l ++ 59 :: show 0 r)
  end.

(** ** Tokens *)

Definition ws : Z -> bool := has whitespace.
Definition trim (l : list Z) : list Z := drop (span ws l) l.
Definition nonul (l : list Z) : Prop := Forall (fun c => c <> 0) l.

(** The first character is none of [toks]. *)
Definition not_in (toks l : list Z) : Prop := match l with [] => True | c :: _ => c ∉ toks end.

Lemma span_le p l : (span p l <= length l)%nat.
Proof. induction l as [|c l IH]; cbn; [lia|]. destruct (p c); cbn; lia. Qed.

Lemma span_app p w l : Forall (fun c => p c = true) w -> match l with [] => True | c :: _ => p c = false end ->
  span p (w ++ l) = length w.
Proof.
  induction 1 as [|c w Hc _ IH]; intros Hl; cbn.
  - destruct l as [|c l]; [done|]. cbn. by rewrite Hl.
  - rewrite Hc. by rewrite IH.
Qed.

Lemma span_zero p l : match l with [] => True | c :: _ => p c = false end -> span p l = 0%nat.
Proof. destruct l as [|c l]; [done|]. cbn. by intros ->. Qed.

Lemma trim_head l : match trim l with [] => True | c :: _ => ws c = false end.
Proof. unfold trim. induction l as [|c l IH]; cbn; [done|]. destruct (ws c) eqn:E; [apply IH|by cbn]. Qed.

Lemma trim_trim l : trim (trim l) = trim l.
Proof. unfold trim at 1. rewrite (span_zero ws (trim l) (trim_head l)). done. Qed.

Lemma trim_cons c l : ws c = false -> trim (c :: l) = c :: l.
Proof. intros E. unfold trim. cbn. by rewrite E. Qed.

Lemma trim_ws c l : ws c = true -> trim (c :: l) = trim l.
Proof. intros E. unfold trim. cbn. by rewrite E. Qed.

Lemma nonul_trim l : nonul l -> nonul (trim l).
Proof. apply Forall_drop. Qed.

Lemma length_trim l : (length (trim l) <= length l)%nat.
Proof. unfold trim. rewrite length_drop. lia. Qed.

Section tokens.
Context (s : list Z) (Hs : nonul s).

(** The suffix at a position. *)
Definition at_ (i : nat) (l : list Z) : Prop := (i <= length s)%nat /\ drop i s = l.

Lemma at_len i l : at_ i l -> (i + length l = length s)%nat.
Proof. intros [H <-]. rewrite length_drop. lia. Qed.

Lemma at_nonul i l : at_ i l -> nonul l.
Proof. intros [_ <-]. by apply Forall_drop. Qed.

Lemma at_skip p i l : at_ i l -> at_ (skip s p i) (drop (span p l) l).
Proof.
  intros [H E]. unfold skip. rewrite E. split; [|by rewrite <- drop_drop, E].
  pose proof (span_le p l). apply (f_equal length) in E. rewrite length_drop in E. lia.
Qed.

Lemma at_trim i l : at_ i l -> at_ (skip s ws i) (trim l).
Proof. apply at_skip. Qed.

Lemma at_char i l : at_ i l -> char_at s i = chd l.
Proof.
  intros [H E]. unfold char_at, chd. rewrite <- (Nat.add_0_r i), <- lookup_drop, E. by destruct l.
Qed.

Lemma at_tail i c l : at_ i (c :: l) -> at_ (S i) l.
Proof.
  intros [H E]. assert (Hl := f_equal length E). rewrite length_drop in Hl. cbn in Hl. split; [lia|].
  replace (S i) with (i + 1)%nat by lia. by rewrite <- drop_drop, E.
Qed.

Lemma at_app i w l : at_ i (w ++ l) -> at_ (i + length w) l.
Proof.
  intros [H E]. assert (Hl := f_equal length E). rewrite length_drop, length_app in Hl. split; [lia|].
  rewrite <- drop_drop, E. apply drop_app_length.
Qed.

Lemma peek_at i l toks : at_ i l ->
  exists i', peek s i toks = (match trim l with [] => false | c :: _ => has toks c end, i') /\ at_ i' (trim l).
Proof.
  intros H. exists (skip s ws i). pose proof (at_trim i l H) as H'. split; [|done].
  unfold peek. fold ws. rewrite (at_char _ _ H'). destruct (trim l) as [|c l'] eqn:E; [done|].
  change (chd (c :: l')) with c. pose proof (at_nonul _ _ H') as Hn. apply Forall_cons in Hn as [Hn _].
  by rewrite (proj2 (Z.eqb_neq c 0) Hn).
Qed.

Lemma gettoken_end i l : at_ i l -> trim l = [] -> exists w i', gettoken s i = (0, w, i') /\ at_ i' [].
Proof.
  intros H E. pose proof (at_trim i l H) as H'. rewrite E in H'. unfold gettoken. fold ws.
  rewrite (at_char _ _ H'). cbn. eexists _, _. split; [done|]. pose proof (at_trim _ _ H') as H2. exact H2.
Qed.

Lemma gettoken_sym i l c l' : at_ i l -> trim l = c :: l' -> has [124; 40; 41; 59; 38; 60] c = true ->
  exists w i', gettoken s i = (c, w, i') /\ at_ i' (trim l').
Proof.
  intros H E Hc. pose proof (at_trim i l H) as H'. rewrite E in H'. unfold gettoken. fold ws.
  rewrite (at_char _ _ H'). change (chd (c :: l')) with c. pose proof (at_nonul _ _ H') as Hn.
  apply Forall_cons in Hn as [Hn _]. rewrite (proj2 (Z.eqb_neq c 0) Hn), Hc.
  eexists _, _. split; [done|]. by apply at_trim, (at_tail _ c).
Qed.

Lemma gettoken_gt i l l' : at_ i l -> trim l = 62 :: l' -> chd l' <> 62 ->
  exists w i', gettoken s i = (62, w, i') /\ at_ i' (trim l').
Proof.
  intros H E Hc. pose proof (at_trim i l H) as H'. rewrite E in H'. unfold gettoken. fold ws.
  rewrite (at_char _ _ H'). change (chd (62 :: l')) with 62. pose proof (at_tail _ _ _ H') as H2.
  rewrite (at_char _ _ H2). change (has _ 62) with false. cbn [Z.eqb Pos.eqb].
  rewrite (proj2 (Z.eqb_neq _ _) Hc). eexists _, _. split; [done|]. by apply at_trim.
Qed.

(** A word of the line: its characters, and what follows it. *)
Definition word_at (w : word) (l : list Z) : Prop :=
  sub s w.1 (length l) = l /\ w.2 = (w.1 + length l)%nat /\ (w.2 <= length s)%nat /\ word_ok l /\
  (w.2 = length s \/ is_word (char_at s w.2) = false).

Lemma is_word_ws c : is_word c = true -> ws c = false /\ has symbols c = false.
Proof. unfold is_word, ws. destruct (has whitespace c), (has symbols c); done. Qed.

Lemma word_head w l : word_ok w -> exists c l', w ++ l = c :: l' /\ is_word c = true /\ c <> 0.
Proof.
  intros [Hne Hw]. destruct w as [|c w]; [done|]. apply Forall_cons in Hw as [[H1 H2] _]. by exists c, (w ++ l).
Qed.

Lemma gettoken_word i l w rest :
  at_ i l -> trim l = w ++ rest -> word_ok w -> match rest with [] => True | c :: _ => is_word c = false end ->
  exists q i', gettoken s i = (97, q, i') /\ at_ i' (trim rest) /\ word_at q w.
Proof.
  intros H E Hw Hr. pose proof (at_trim i l H) as H'. rewrite E in H'.
  set (q := skip s ws i) in *. pose proof (at_skip is_word q _ H') as He.
  destruct (word_head w rest Hw) as (c & l' & E' & Hc & Hc0).
  assert (Esp : span is_word (w ++ rest) = length w).
  { apply span_app; [|done]. eapply Forall_impl; [exact (proj2 Hw)|]. cbn. tauto. }
  rewrite Esp, drop_app_length in He.
  assert (Eq : skip s is_word q = (q + length w)%nat).
  { unfold skip. destruct H' as [_ H']. by rewrite H', Esp. }
  exists (q, (q + length w)%nat), (skip s ws (q + length w)). rewrite Eq in He. split_and!.
  - unfold gettoken. fold ws q. rewrite (at_char _ _ H'), E'. change (chd (c :: l')) with c.
    rewrite (proj2 (Z.eqb_neq c 0) Hc0). destruct (is_word_ws c Hc) as [_ Hsym].
    assert (Hn : c ∉ symbols) by (unfold has in Hsym; by apply bool_decide_eq_false in Hsym).
    replace (has [124; 40; 41; 59; 38; 60] c) with false.
    2: { symmetry. apply bool_decide_eq_false. unfold symbols in Hn. set_solver. }
    rewrite (proj2 (Z.eqb_neq c 62)) by (unfold symbols in Hn; set_solver). by rewrite Eq.
  - by apply at_trim.
  - unfold word_at. cbn [fst snd]. split_and!; [| |exact (proj1 He)|done|].
    + destruct H' as [_ H']. unfold sub. by rewrite H', take_app_length.
    + done.
    + destruct rest as [|r rest]; [left; pose proof (at_len _ _ He); cbn in *; lia|right].
      by rewrite (at_char _ _ He).
Qed.

(** ** Parsing what [show] writes *)

(** A command of the line stands for a command with strings. *)
Fixpoint denotes (c : cmd) (a : ast) : Prop :=
  match c, a with
  | EXEC argv, AExec ws => Forall2 word_at argv ws
  | REDIR c f mode fd, ARedir a f' mode' fd' => denotes c a /\ word_at f f' /\ mode = mode' /\ fd = fd'
  | PIPE l r, APipe l' r' | LIST l r, AList l' r' => denotes l l' /\ denotes r r'
  | BACK c, ABack a => denotes c a
  | _, _ => False
  end.

Definition redir : Type := list Z * Z * Z.
Definition show_redir (r : redir) : list Z := (if r.2 =? 0 then 60 else 62) :: r.1.1 ++ [32].
Definition redir_wf (r : redir) : Prop := word_ok r.1.1 /\ redir_ok r.1.2 r.2.
Definition redirs_ast (a : ast) (rs : list redir) : ast := foldl (fun a r => ARedir a r.1.1 r.1.2 r.2) a rs.

Lemma parseredirs_show rs : forall fuel c a i l rest,
  Forall redir_wf rs -> denotes c a -> at_ i l -> trim l = trim (concat (show_redir <$> rs) ++ rest) ->
  not_in [60; 62] (trim rest) ->
  (length l < fuel)%nat ->
  exists c' i', parseredirs s fuel c i = Parsed c' i' /\ at_ i' (trim rest) /\ denotes c' (redirs_ast a rs).
Proof.
  induction rs as [|[[f mode] fd] rs IH]; intros fuel c a i l rest Hrs Hc Hi El Hrest Hf;
    (destruct fuel as [|fuel]; [lia|]); cbn [parseredirs].
  - destruct (peek_at i l [60; 62] Hi) as (i' & -> & Hi').
    change (concat (show_redir <$> []) ++ rest) with rest in El. rewrite El in *.
    exists c, i'. split_and!; [|done|done].
    destruct (trim rest) as [|r rest']; [done|]. cbn in Hrest. unfold has. by rewrite bool_decide_eq_false_2.
  - apply Forall_cons in Hrs as [[Hfw Hro] Hrs]. cbn in Hfw, Hro.
    cbn [fmap list_fmap concat] in El. unfold show_redir at 1 in El. cbn [fst snd] in El. rewrite <- !app_comm_cons, <- !app_assoc in El.
    set (tl := concat (show_redir <$> rs) ++ rest) in *. set (k := if fd =? 0 then 60 else 62) in *.
    rewrite trim_cons in El by (unfold k; by destruct (fd =? 0)).
    destruct (peek_at i l [60; 62] Hi) as (i1 & -> & Hi1). rewrite El in Hi1 |- *.
    assert (Hk : ws k = false /\ has [60; 62] k = true) by (unfold k; by destruct (fd =? 0)).
    destruct Hk as [Hkw Hk]. rewrite Hk.
    assert (G : exists w i2, gettoken s i1 = (k, w, i2) /\ at_ i2 (trim (f ++ [32] ++ tl))).
    { unfold k in *. destruct (fd =? 0).
      - eapply gettoken_sym; [exact Hi1|by rewrite trim_cons|done].
      - eapply gettoken_gt; [exact Hi1|by rewrite trim_cons|].
        destruct (word_head f ([32] ++ tl) Hfw) as (x & y & -> & Hx & _). change (chd (x :: y)) with x.
        intros ->. done. }
    destruct G as (w & i2 & -> & Hi2).
    destruct (word_head f ([32] ++ tl) Hfw) as (x & y & Ex & Hx & _).
    assert (Etr : trim (f ++ [32] ++ tl) = f ++ [32] ++ tl) by (rewrite Ex; apply trim_cons; by apply is_word_ws).
    destruct (gettoken_word i2 _ f ([32] ++ tl) Hi2 ltac:(by rewrite trim_trim) Hfw ltac:(done)) as (q & i3 & -> & Hi3 & Hq).
    change ([32] ++ tl) with (32 :: tl) in Hi3. rewrite trim_ws in Hi3 by done. change (negb (97 =? 97)) with false. cbv iota.
    assert (Hnext : exists c' i', parseredirs s fuel (REDIR c q mode fd) i3 = Parsed c' i' /\ at_ i' (trim rest) /\
       denotes c' (redirs_ast a ((f, mode, fd) :: rs))).
    { apply (IH fuel (REDIR c q mode fd) (ARedir a f mode fd) i3 (trim tl) rest); try done.
      - by rewrite trim_trim.
      - pose proof (length_trim tl). pose proof (length_trim l). rewrite El in *. cbn in *. rewrite !length_app in *. cbn in *. lia. }
    destruct Hro as [[-> ->]|[-> ->]]; exact Hnext.
Qed.

(** What may come next. *)
Definition follows (toks l : list Z) : Prop := match trim l with [] => True | c :: _ => c ∈ toks end.

Lemma follows_not_in toks toks' l : follows toks l -> (forall c, c ∈ toks -> c ∉ toks') -> not_in toks' (trim l).
Proof. unfold follows. destruct (trim l); [done|]. cbn. auto. Qed.

Lemma peek_follow i l toks toks' : at_ i l -> follows toks l -> (forall c, c ∈ toks -> c ∉ toks') ->
  exists i', peek s i toks' = (false, i') /\ at_ i' (trim l).
Proof.
  intros Hi Hf Hd. destruct (peek_at i l toks' Hi) as (i' & -> & Hi'). exists i'. split; [|done].
  unfold follows in Hf. destruct (trim l) as [|c l']; [done|]. unfold has. by rewrite bool_decide_eq_false_2 by auto.
Qed.

Definition show_args (args : list (list Z)) : list Z := concat ((fun w => w ++ [32]) <$> args).

Lemma parseargs_stop fuel ret argc i l : at_ i l -> follows [124; 41; 38; 59] l ->
  exists i', parseargs s (S fuel) ret argc i = Parsed ret i' /\ at_ i' (trim l).
Proof.
  intros Hi Hf. cbn [parseargs]. destruct (peek_at i l [124; 41; 38; 59] Hi) as (i' & -> & Hi').
  unfold follows in Hf. destruct (trim l) as [|c l'] eqn:E.
  - destruct (gettoken_end i' _ Hi' eq_refl) as (w & i2 & -> & Hi2). by exists i2.
  - exists i'. unfold has. by rewrite bool_decide_eq_true_2.
Qed.

Lemma not_in_redirs args rs rest : args <> [] -> Forall word_ok args ->
  not_in [60; 62] (trim (show_args args ++ concat (show_redir <$> rs) ++ rest)).
Proof.
  intros Hne Hw. destruct args as [|w args]; [done|]. apply Forall_cons in Hw as [Hw _].
  unfold show_args. cbn [fmap list_fmap concat]. rewrite <- !app_assoc.
  destruct (word_head w ([32] ++ concat ((fun w => w ++ [32]) <$> args) ++ concat (show_redir <$> rs) ++ rest) Hw)
    as (c & l & -> & Hc & _). destruct (is_word_ws c Hc) as [Hc1 Hc2].
  rewrite trim_cons by done. cbn. unfold has in Hc2. apply bool_decide_eq_false in Hc2. unfold symbols in Hc2. set_solver.
Qed.

Lemma parseargs_show args : forall fuel argv prev i l rs rest,
  args <> [] -> Forall word_ok args -> Forall2 word_at argv prev -> (length (prev ++ args) < MAXARGS)%nat ->
  at_ i l -> trim l = trim (show_args args ++ concat (show_redir <$> rs) ++ rest) ->
  Forall redir_wf rs -> follows [124; 41; 38; 59] rest -> (length l < fuel)%nat ->
  exists c i', parseargs s fuel (EXEC argv) (length prev) i = Parsed c i' /\ at_ i' (trim rest) /\
    denotes c (redirs_ast (AExec (prev ++ args)) rs).
Proof.
  induction args as [|w args IH]; intros fuel argv prev i l rs rest Hne Hw Hargv Hmax Hi El Hrs Hf Hfuel; [done|].
  apply Forall_cons in Hw as [Hw Hws]. destruct fuel as [|fuel]; [lia|]. cbn [parseargs].
  unfold show_args in El. cbn [fmap list_fmap concat] in El. rewrite <- !app_assoc in El. fold (show_args args) in El.
  set (tl := show_args args ++ concat (show_redir <$> rs) ++ rest) in *.
  destruct (word_head w ([32] ++ tl) Hw) as (x & y & Ex & Hx & _). destruct (is_word_ws x Hx) as [Hx1 Hx2].
  rewrite Ex, trim_cons in El by done.
  destruct (peek_at i l [124; 41; 38; 59] Hi) as (i1 & -> & Hi1). rewrite El in Hi1 |- *.
  replace (has [124; 41; 38; 59] x) with false.
  2: { symmetry. apply bool_decide_eq_false. unfold has in Hx2. apply bool_decide_eq_false in Hx2. unfold symbols in Hx2. set_solver. }
  destruct (gettoken_word i1 _ w ([32] ++ tl) Hi1 ltac:(by rewrite trim_cons) Hw ltac:(done)) as (q & i2 & -> & Hi2 & Hq).
  change ([32] ++ tl) with (32 :: tl) in Hi2. rewrite trim_ws in Hi2 by done.
  change (97 =? 0) with false. change (negb (97 =? 97)) with false. cbv iota.
  rewrite length_app in Hmax. cbn [length] in Hmax. rewrite (proj2 (Nat.leb_gt _ _)) by lia.
  assert (Hargv' : denotes (EXEC (argv ++ [q])) (AExec (prev ++ [w]))).
  { cbn. apply Forall2_app; [done|]. constructor; [done|constructor]. }
  assert (Hl : (length (trim tl) < fuel)%nat).
  { pose proof (length_trim tl). pose proof (length_trim l). rewrite El in *. apply (f_equal length) in Ex.
    rewrite !length_app in Ex. cbn in Ex, Hfuel |- *. cbn [length] in *. destruct w; [by destruct Hw|]. cbn in *. lia. }
  cbn [add_arg]. destruct args as [|w2 args].
  - destruct (parseredirs_show rs fuel (EXEC (argv ++ [q])) _ i2 (trim tl) rest Hrs Hargv' Hi2) as (c & i3 & -> & Hi3 & Hc).
    + unfold tl. by rewrite trim_trim.
    + eapply follows_not_in; [exact Hf|]. set_solver.
    + done.
    + cbn [pbind]. destruct fuel as [|fuel]; [lia|].
      destruct (parseargs_stop fuel c (S (length prev)) i3 (trim rest) Hi3) as (i4 & -> & Hi4).
      { unfold follows. rewrite trim_trim. exact Hf. }
      exists c, i4. rewrite trim_trim in Hi4. done.
  - destruct (parseredirs_show [] fuel (EXEC (argv ++ [q])) _ i2 (trim tl) tl ltac:(constructor) Hargv' Hi2) as (c & i3 & -> & Hi3 & Hc).
    + by rewrite trim_trim.
    + by apply not_in_redirs.
    + done.
    + cbn [pbind]. destruct c as [argv' | | | |]; try done.
      destruct (IH fuel argv' (prev ++ [w]) i3 (trim tl) rs rest) as (c & i4 & E & Hi4 & Hc'); try done.
      * rewrite !length_app. cbn in *. lia.
      * by rewrite trim_trim.
      * replace (S (length prev)) with (length (prev ++ [w])) by (rewrite length_app; cbn; lia).
        exists c, i4. rewrite <- app_assoc in Hc'. done.
Qed.

(** A simple command and its redirections. *)
Lemma parseexec_show args rs fuel i l rest :
  Forall word_ok args -> (length args < MAXARGS)%nat -> Forall redir_wf rs ->
  at_ i l -> trim l = trim (show_args args ++ concat (show_redir <$> rs) ++ rest) ->
  follows [124; 41; 38; 59] rest -> (length l + 2 <= fuel)%nat ->
  exists c i', parseexec s fuel i = Parsed c i' /\ at_ i' (trim rest) /\ denotes c (redirs_ast (AExec args) rs).
Proof.
  intros Hw Hmax Hrs Hi El Hf Hfuel. destruct fuel as [|fuel]; [lia|]. cbn [parseexec].
  destruct (peek_at i l [40] Hi) as (i1 & -> & Hi1).
  pose proof (length_trim l) as Hlt. rewrite El in Hi1, Hlt |- *.
  set (t := trim (show_args args ++ concat (show_redir <$> rs) ++ rest)) in *.
  assert (Hb : match t with [] => false | c :: _ => has [40] c end = false).
  { assert (Hn : not_in [40] t); [|destruct t; [done|by apply bool_decide_eq_false_2]].
    destruct args as [|w args].
    - destruct rs as [|r rs]; [by eapply follows_not_in; [exact Hf|set_solver]|].
      unfold t, show_redir, show_args. cbn [fmap list_fmap concat app]. rewrite trim_cons by (by destruct (_ =? 0)).
      cbn [not_in]. destruct (_ =? 0); set_solver.
    - apply Forall_cons in Hw as [Hw _]. unfold t, show_args. cbn [fmap list_fmap concat]. rewrite <- !app_assoc.
      destruct (word_head w ([32] ++ concat ((fun w => w ++ [32]) <$> args) ++ concat (show_redir <$> rs) ++ rest) Hw)
        as (c & l' & -> & Hc & _). destruct (is_word_ws c Hc) as [Hc1 Hc2].
      rewrite trim_cons by done. cbn. unfold has in Hc2. apply bool_decide_eq_false in Hc2. unfold symbols in Hc2. set_solver. }
  rewrite Hb. destruct args as [|w args].
  - destruct (parseredirs_show rs fuel (EXEC []) (AExec []) i1 t rest Hrs) as (c & i2 & -> & Hi2 & Hc); try done.
    + constructor.
    + unfold t. by rewrite trim_trim.
    + eapply follows_not_in; [exact Hf|]. set_solver.
    + lia.
    + cbn [pbind]. destruct fuel as [|fuel]; [lia|].
      destruct (parseargs_stop fuel c 0 i2 (trim rest) Hi2) as (i3 & -> & Hi3).
      { unfold follows. rewrite trim_trim. exact Hf. }
      exists c, i3. rewrite trim_trim in Hi3. done.
  - destruct (parseredirs_show [] fuel (EXEC []) (AExec []) i1 t t ltac:(constructor)) as (c & i2 & -> & Hi2 & Hc); try done.
    + constructor.
    + unfold t. rewrite trim_trim. by apply not_in_redirs.
    + lia.
    + cbn [pbind]. destruct c as [argv | | | |]; try done. apply Forall2_nil_inv_r in Hc as ->.
      destruct (parseargs_show (w :: args) fuel [] [] i2 (trim t) rs rest) as (c & i3 & E & Hi3 & Hc); try done.
      * unfold t. by rewrite !trim_trim.
      * pose proof (length_trim t). lia.
      * by exists c, i3.
Qed.
End tokens.

(** ** The parser always returns *)

Section total.
Context (s : list Z) (Hs : nonul s).

Lemma skip_bounds p i : (i <= length s)%nat -> (i <= skip s p i <= length s)%nat.
Proof. intros H. unfold skip. pose proof (span_le p (drop i s)) as Hl. rewrite length_drop in Hl. lia. Qed.

Lemma char_at_lt i : char_at s i <> 0 -> (i < length s)%nat.
Proof.
  intros H. unfold char_at in H. destruct (s !! i) eqn:E; [by eapply lookup_lt_Some|done].
Qed.

Lemma skip_word i : (i < length s)%nat -> is_word (char_at s i) = true -> (i < skip s is_word i)%nat.
Proof.
  intros H Hw. unfold skip, char_at in *. destruct (lookup_lt_is_Some_2 s i H) as [c E]. rewrite E in Hw. cbn in Hw.
  rewrite (drop_S s c i E). cbn. rewrite Hw. lia.
Qed.

Lemma gettoken_bounds i : (i <= length s)%nat ->
  let '(t, _, i') := gettoken s i in (i <= i' <= length s)%nat /\ (t <> 0 -> (i < i')%nat).
Proof.
  intros H. unfold gettoken. pose proof (skip_bounds (has whitespace) i H) as Hq.
  set (q := skip s (has whitespace) i) in *.
  destruct (Z.eqb_spec (char_at s q) 0) as [E0|E0].
  { pose proof (skip_bounds (has whitespace) q ltac:(lia)). split; [lia|done]. }
  pose proof (char_at_lt q E0) as Hlt.
  destruct (has [124; 40; 41; 59; 38; 60] (char_at s q)) eqn:E1.
  { pose proof (skip_bounds (has whitespace) (S q) ltac:(lia)). lia. }
  destruct (Z.eqb_spec (char_at s q) 62) as [E2|E2].
  { destruct (Z.eqb_spec (char_at s (S q)) 62) as [E3|E3].
    - pose proof (char_at_lt (S q) ltac:(lia)). pose proof (skip_bounds (has whitespace) (S (S q)) ltac:(lia)). lia.
    - pose proof (skip_bounds (has whitespace) (S q) ltac:(lia)). lia. }
  assert (Hw : is_word (char_at s q) = true).
  { unfold is_word. apply bool_decide_eq_false in E1. rewrite andb_true_iff, !negb_true_iff. split.
    - destruct (at_trim s i _ (conj H eq_refl)) as [_ Ht]. fold ws in q. fold q in Ht.
      pose proof (trim_head (drop i s)) as Hh. destruct (trim (drop i s)) as [|c l] eqn:El.
      + apply (f_equal length) in Ht. rewrite length_drop in Ht. cbn in Ht. lia.
      + rewrite (at_char s q (c :: l)); [exact Hh|]. split; [lia|done].
    - apply bool_decide_eq_false. unfold symbols. set_solver. }
  pose proof (skip_word q Hlt Hw). pose proof (skip_bounds is_word q ltac:(lia)).
  pose proof (skip_bounds (has whitespace) (skip s is_word q) ltac:(lia)). lia.
Qed.

Lemma peek_bounds i toks : (i <= length s)%nat ->
  let '(b, i') := peek s i toks in (i <= i' <= length s)%nat /\
    (b = true -> let '(t, _, i2) := gettoken s i' in (i' < i2 <= length s)%nat).
Proof.
  intros H. unfold peek. pose proof (skip_bounds (has whitespace) i H) as Hq.
  set (q := skip s (has whitespace) i) in *. split; [lia|]. intros Hb. apply andb_true_iff in Hb as [Hb _].
  pose proof (gettoken_bounds q ltac:(lia)) as G. unfold gettoken in *.
  assert (Esk : skip s (has whitespace) q = q).
  { unfold skip. destruct (at_trim s i _ (conj H eq_refl)) as [_ Ht]. fold ws in q. fold q in Ht. fold ws.
    rewrite Ht. rewrite (span_zero ws _ (trim_head _)). lia. }
  rewrite Esk in *. destruct (char_at s q =? 0) eqn:E0; [done|].
  destruct (has [124; 40; 41; 59; 38; 60] (char_at s q)).
  { destruct G as [? G]. split; [|lia]. apply G. lia. }
  destruct (char_at s q =? 62); [destruct (char_at s (S q) =? 62)|]; (destruct G as [? G]; split; [|lia]; apply G; lia).
Qed.

(** Not out of fuel, and not before the start. *)
Definition fine {A} (m : parsed A) (i : nat) : Prop :=
  match m with
  | Parsed _ i' => (i <= i' <= length s)%nat
  | Syntax _ => True
  | NoFuel => False
  end.

Lemma fine_weaken {A} (m : parsed A) i i' : (i <= i')%nat -> fine m i' -> fine m i.
Proof. destruct m; cbn; [lia|done|done]. Qed.

Lemma fine_bind {A B} (m : parsed A) (k : A -> nat -> parsed B) i :
  fine m i -> (forall a i', (i <= i' <= length s)%nat -> fine (k a i') i') -> fine (pbind m k) i.
Proof.
  intros Hm Hk. destruct m as [a i'| |]; cbn in *; [|done|done]. eapply fine_weaken; [|by apply Hk]. lia.
Qed.

(** One [peek], and the token that follows it. *)
Lemma fine_peek i toks (k1 k2 : nat -> parsed cmd) : (i <= length s)%nat ->
  (forall i1 t w i2, gettoken s i1 = (t, w, i2) -> (i <= i1 < i2)%nat -> (i2 <= length s)%nat -> fine (k1 i1) i1) ->
  (forall i1, (i <= i1 <= length s)%nat -> fine (k2 i1) i1) ->
  fine (let '(b, i1) := peek s i toks in if b then k1 i1 else k2 i1) i.
Proof.
  intros Hi H1 H2. pose proof (peek_bounds i toks Hi) as P. destruct (peek s i toks) as [[] i1].
  - destruct P as [P1 P2]. specialize (P2 eq_refl). destruct (gettoken s i1) as [[t w] i2] eqn:E.
    eapply fine_weaken; [|eapply H1; [exact E|lia|lia]]. lia.
  - eapply fine_weaken; [|apply H2; lia]. lia.
Qed.

Lemma parseredirs_fine fuel : forall c i, (i <= length s)%nat -> (length s - i < fuel)%nat -> fine (parseredirs s fuel c i) i.
Proof.
  induction fuel as [|fuel IH]; intros c i Hi Hf; [lia|]. cbn [parseredirs]. apply fine_peek; [done| |cbn; lia].
  intros i1 t w i2 E H1 H2. rewrite E. pose proof (gettoken_bounds i2 H2) as G.
  destruct (gettoken s i2) as [[t2 w2] i3]. destruct (negb (t2 =? 97)); [done|].
  repeat case_match; (eapply fine_weaken; [|apply IH]); lia.
Qed.

Lemma parseargs_fine fuel : forall c n i, (i <= length s)%nat -> (length s - i < fuel)%nat -> fine (parseargs s fuel c n i) i.
Proof.
  induction fuel as [|fuel IH]; intros c n i Hi Hf; [lia|]. cbn [parseargs]. apply fine_peek; [done| |].
  - intros i1 t w i2 E H1 H2. cbn. lia.
  - intros i1 H1. pose proof (gettoken_bounds i1 ltac:(lia)) as G. destruct (gettoken s i1) as [[t w] i2].
    destruct (Z.eqb_spec t 0); [cbn; lia|]. destruct (negb (t =? 97)); [done|].
    destruct (MAXARGS <=? S n)%nat; [done|]. eapply fine_weaken; [|apply fine_bind; [apply parseredirs_fine|]]; [lia|lia|lia|].
    intros a i3 H3. apply IH; lia.
Qed.

Lemma parsebacks_fine fuel : forall c i, (i <= length s)%nat -> (length s - i < fuel)%nat -> fine (parsebacks s fuel c i) i.
Proof.
  induction fuel as [|fuel IH]; intros c i Hi Hf; [lia|]. cbn [parsebacks]. apply fine_peek; [done| |cbn; lia].
  intros i1 t w i2 E H1 H2. rewrite E. eapply fine_weaken; [|apply IH]; lia.
Qed.

Lemma parser_fine fuel : forall i, (i <= length s)%nat ->
  ((4 * (length s - i) + 4 <= fuel)%nat -> fine (parseline s fuel i) i) /\
  ((4 * (length s - i) + 3 <= fuel)%nat -> fine (parsepipe s fuel i) i) /\
  ((4 * (length s - i) + 2 <= fuel)%nat -> fine (parseexec s fuel i) i) /\
  ((4 * (length s - i) + 1 <= fuel)%nat -> fine (parseblock s fuel i) i).
Proof.
  induction fuel as [|fuel IH]; intros i Hi; [lia|]. split_and!; intros Hf.
  - cbn [parseline]. apply fine_bind; [apply IH; lia|]. intros c i1 H1.
    apply fine_bind; [apply parsebacks_fine; lia|]. intros c' i2 H2. apply fine_peek; [lia| |cbn; lia].
    intros i3 t w i4 E H3 H4. rewrite E. eapply (fine_weaken _ _ i4); [lia|].
    apply fine_bind; [apply IH; lia|]. cbn. lia.
  - cbn [parsepipe]. apply fine_bind; [apply IH; lia|]. intros c i1 H1. apply fine_peek; [lia| |cbn; lia].
    intros i3 t w i4 E H3 H4. rewrite E. eapply (fine_weaken _ _ i4); [lia|].
    apply fine_bind; [apply IH; lia|]. cbn. lia.
  - cbn [parseexec]. apply fine_peek; [lia| |].
    + intros i3 t w i4 E H3 H4. apply IH; lia.
    + intros i1 H1. apply fine_bind; [apply parseredirs_fine; lia|]. intros. apply parseargs_fine; lia.
  - cbn [parseblock]. pose proof (peek_bounds i [40] Hi) as P. destruct (peek s i [40]) as [[] i1]; cbn [negb]; [|done].
    destruct P as [P1 P2]. specialize (P2 eq_refl). destruct (gettoken s i1) as [[t w] i2].
    eapply (fine_weaken _ _ i2); [lia|]. apply fine_bind; [apply IH; lia|]. intros c i3 H3.
    pose proof (peek_bounds i3 [41] ltac:(lia)) as P. destruct (peek s i3 [41]) as [[] i4]; cbn [negb]; [|done].
    destruct P as [P3 P4]. specialize (P4 eq_refl). destruct (gettoken s i4) as [[t2 w2] i5].
    eapply (fine_weaken _ _ i5); [lia|]. apply parseredirs_fine; lia.
Qed.
End total.

(** ** The round trip *)

(** A command is its redirections around a core. *)
Fixpoint core (c : ast) : ast := match c with ARedir c _ _ _ => core c | _ => c end.
Fixpoint redirs (c : ast) : list redir :=
  match c with ARedir c f mode fd => redirs c ++ [(f, mode, fd)] | _ => [] end.
Fixpoint ast_size (c : ast) : nat :=
  match c with
  | AExec _ => 1
  | ARedir c _ _ _ | ABack c => S (ast_size c)
  | APipe l r | AList l r => S (ast_size l + ast_size r)
  end.

Lemma core_redirs c : redirs_ast (core c) (redirs c) = c.
Proof.
  induction c as [argv|c IH f mode fd|l _ r _|l _ r _|c _]; try done. cbn [core redirs].
  unfold redirs_ast in *. rewrite foldl_app. cbn. by rewrite IH.
Qed.

Lemma show_core c : show 3 c = show 3 (core c) ++ concat (show_redir <$> redirs c).
Proof.
  induction c as [argv|c IH f mode fd|l _ r _|l _ r _|c _]; try (by rewrite app_nil_r). cbn [core redirs show].
  rewrite fmap_app, concat_app, app_assoc, <- IH. cbn. by rewrite app_nil_r.
Qed.

Lemma core_ok c : ast_ok c -> ast_ok (core c) /\ Forall redir_wf (redirs c).
Proof.
  induction c as [argv|c IH f mode fd|l _ r _|l _ r _|c _]; try done. cbn [core redirs ast_ok].
  intros (Hc & Hf & Hr). destruct (IH Hc). split; [done|]. apply Forall_app. split; [done|]. by constructor.
Qed.

Lemma core_size c : (ast_size (core c) <= ast_size c)%nat.
Proof. induction c; cbn; lia. Qed.

Section roundtrip.
Context (s : list Z) (Hs : nonul s).
Local Abbreviation at_ := (at_ s).
Local Abbreviation denotes := (denotes s).

Definition reads (parse : nat -> nat -> parsed cmd) (lvl k : nat) (toks : list Z) (c : ast) : Prop :=
  forall fuel i l rest, at_ i l -> trim l = trim (show lvl c ++ rest) -> follows toks rest ->
    (4 * length l + k <= fuel)%nat ->
    exists d i', parse fuel i = Parsed d i' /\ at_ i' (trim rest) /\ denotes d c.

Definition line_ok := reads (parseline s) 0 4 [41].
Definition pipe_ok := reads (parsepipe s) 2 3 [41; 38; 59].
Definition exec_ok := reads (parseexec s) 3 2 [124; 41; 38; 59].

(** A pipeline and the [&]s that follow it. *)
Definition back_ok (c : ast) : Prop :=
  forall fuel i l rest, at_ i l -> trim l = trim (show 1 c ++ rest) -> follows [41; 38; 59] rest ->
    (4 * length l + 3 <= fuel)%nat ->
    exists d0 i0 n d i1, parsepipe s fuel i = Parsed d0 i0 /\ (i0 + n <= i1)%nat /\ at_ i1 (trim rest) /\ denotes d c /\
      forall f, parsebacks s (n + f) d0 i0 = parsebacks s f d i1.

Lemma at_fuel i l : at_ i l -> (length s - i = length l)%nat.
Proof. intros H. pose proof (at_len s i l H). lia. Qed.

(** Positions only grow. *)
Lemma parseexec_le fuel i l d i' : at_ i l -> (4 * length l + 2 <= fuel)%nat -> parseexec s fuel i = Parsed d i' -> (i <= i')%nat.
Proof.
  intros Hi Hf E. destruct (parser_fine s Hs fuel i (proj1 Hi)) as (_ & _ & F & _).
  rewrite E, (at_fuel i l Hi) in F. cbn in F. lia.
Qed.

Lemma parsepipe_le fuel i l d i' : at_ i l -> (4 * length l + 3 <= fuel)%nat -> parsepipe s fuel i = Parsed d i' -> (i <= i')%nat.
Proof.
  intros Hi Hf E. destruct (parser_fine s Hs fuel i (proj1 Hi)) as (_ & F & _).
  rewrite E, (at_fuel i l Hi) in F. cbn in F. lia.
Qed.

Lemma parseline_le fuel i l d i' : at_ i l -> (4 * length l + 4 <= fuel)%nat -> parseline s fuel i = Parsed d i' -> (i <= i')%nat.
Proof.
  intros Hi Hf E. destruct (parser_fine s Hs fuel i (proj1 Hi)) as (F & _).
  rewrite E, (at_fuel i l Hi) in F. cbn in F. lia.
Qed.

(** A symbol that is there: [peek] sees it and [gettoken] takes it. *)
Lemma take_symbol i c rest toks : at_ i (c :: rest) -> ws c = false -> has toks c = true ->
  has [124; 40; 41; 59; 38; 60] c = true ->
  exists i1 t w i2, peek s i toks = (true, i1) /\ gettoken s i1 = (t, w, i2) /\ at_ i2 (trim rest) /\ (i < i2)%nat.
Proof.
  intros Hi Hw Ht Hc. destruct (peek_at s Hs i _ toks Hi) as (i1 & E & Hi1). rewrite trim_cons in E, Hi1 by done.
  rewrite Ht in E. destruct (gettoken_sym s Hs i1 _ c rest Hi1) as (w & i2 & E2 & Hi2); [by apply trim_cons|done|].
  exists i1, c, w, i2. split_and!; try done.
  pose proof (at_len _ _ _ Hi). pose proof (at_len _ _ _ Hi2). pose proof (length_trim rest). cbn in *. lia.
Qed.

Lemma follows_cons toks c rest : ws c = false -> c ∈ toks -> follows toks (c :: rest).
Proof. intros Hw Hc. unfold follows. by rewrite trim_cons. Qed.

Lemma follows_trim toks rest : follows toks rest -> follows toks (trim rest).
Proof. unfold follows. by rewrite trim_trim. Qed.

Lemma follows_weaken toks toks' rest : toks ⊆ toks' -> follows toks rest -> follows toks' rest.
Proof. unfold follows. intros H. destruct (trim rest); [done|]. apply H. Qed.

(** [parsepipe] of what is no pipeline. *)
Lemma pipe_of_exec c : exec_ok c -> show 2 c = show 3 c -> pipe_ok c.
Proof.
  intros He Esh fuel i l rest Hi El Hf Hfuel. rewrite Esh in El. destruct fuel as [|fuel]; [lia|]. cbn [parsepipe].
  destruct (He fuel i l rest Hi El ltac:(eapply follows_weaken; [|exact Hf]; set_solver) ltac:(lia)) as (d & i' & -> & Hi' & Hd).
  cbn [pbind]. destruct (peek_follow s Hs i' _ [41; 38; 59] [124] Hi') as (i2 & -> & Hi2);
    [by apply follows_trim|set_solver|].
  exists d, i2. rewrite trim_trim in Hi2. done.
Qed.

Lemma pipe_of_pipe a b : exec_ok a -> pipe_ok b -> pipe_ok (APipe a b).
Proof.
  intros Ha Hb fuel i l rest Hi El Hf Hfuel. cbn [show Nat.ltb Nat.leb paren] in El. rewrite <- app_assoc, <- app_comm_cons in El.
  destruct fuel as [|fuel]; [lia|]. cbn [parsepipe].
  destruct (Ha fuel i l (124 :: show 2 b ++ rest) Hi El ltac:(by apply follows_cons; [|set_solver]) ltac:(lia)) as (d & i1 & E & Hi1 & Hd).
  pose proof (parseexec_le fuel i l _ _ Hi ltac:(lia) E) as Hle. rewrite E. cbn [pbind]. rewrite trim_cons in Hi1 by done.
  destruct (take_symbol i1 124 _ [124] Hi1) as (i2 & t & w & i3 & -> & -> & Hi3 & Hlt); try done.
  pose proof (at_len _ _ _ Hi) as L1. pose proof (at_len _ _ _ Hi3) as L3.
  destruct (Hb fuel i3 _ rest Hi3 ltac:(by rewrite trim_trim) Hf ltac:(lia)) as (d2 & i4 & -> & Hi4 & Hd2).
  by exists (PIPE d d2), i4.
Qed.

Lemma back_of_pipe c : pipe_ok c -> show 1 c = show 2 c -> back_ok c.
Proof.
  intros Hp Esh fuel i l rest Hi El Hf Hfuel. rewrite Esh in El.
  destruct (Hp fuel i l rest Hi El Hf Hfuel) as (d & i1 & E & Hi1 & Hd).
  exists d, i1, 0%nat, d, i1. split_and!; try done. lia.
Qed.

Lemma back_of_back c : back_ok c -> back_ok (ABack c).
Proof.
  intros Hb fuel i l rest Hi El Hf Hfuel. cbn [show Nat.ltb Nat.leb paren] in El. rewrite <- app_assoc in El.
  destruct (Hb fuel i l ([38] ++ rest) Hi El ltac:(by apply follows_cons; [|set_solver]) Hfuel)
    as (d0 & i0 & n & d & i1 & E & Hle & Hi1 & Hd & Hn).
  change ([38] ++ rest) with (38 :: rest) in Hi1. rewrite trim_cons in Hi1 by done.
  destruct (take_symbol i1 38 _ [38] Hi1) as (i2 & t & w & i3 & E2 & E3 & Hi3 & Hlt); try done.
  exists d0, i0, (S n), (BACK d), i3. split_and!; try done; [lia|].
  intros f. replace (S n + f)%nat with (n + S f)%nat by lia. rewrite Hn. cbn [parsebacks]. by rewrite E2, E3.
Qed.

(** The end of the [&]s. *)
Lemma parsebacks_end fuel d i l : at_ i l -> not_in [38] (trim l) ->
  exists i', parsebacks s (S fuel) d i = Parsed d i' /\ at_ i' (trim l) /\ (i <= i')%nat.
Proof.
  intros Hi Hn. cbn [parsebacks]. destruct (peek_at s Hs i l [38] Hi) as (i' & -> & Hi'). exists i'. split_and!; [|done|].
  - destruct (trim l); [done|]. cbn in Hn. unfold has. by rewrite bool_decide_eq_false_2.
  - pose proof (at_len _ _ _ Hi). pose proof (at_len _ _ _ Hi'). pose proof (length_trim l). lia.
Qed.

(** A line that does not go on after its first command. *)
Lemma line_of_back c : back_ok c -> show 0 c = show 1 c -> line_ok c.
Proof.
  intros Hb Esh fuel i l rest Hi El Hf Hfuel. rewrite Esh in El. destruct fuel as [|fuel]; [lia|]. cbn [parseline].
  destruct (Hb fuel i l rest Hi El ltac:(eapply follows_weaken; [|exact Hf]; set_solver) ltac:(lia))
    as (d0 & i0 & n & d & i1 & E & Hle & Hi1 & Hd & Hn).
  pose proof (parsepipe_le fuel i l _ _ Hi ltac:(lia) E) as Hle0. rewrite E. cbn [pbind].
  pose proof (at_len _ _ _ Hi) as L0. pose proof (at_len _ _ _ Hi1) as L1.
  replace fuel with (n + S (fuel - n - 1))%nat by lia. rewrite Hn.
  destruct (parsebacks_end (fuel - n - 1) d i1 _ Hi1) as (i2 & -> & Hi2 & _).
  { rewrite trim_trim. eapply follows_not_in; [exact Hf|set_solver]. }
  cbn [pbind]. rewrite trim_trim in Hi2.
  destruct (peek_follow s Hs i2 _ [41] [59] Hi2) as (i3 & -> & Hi3); [by apply follows_trim|set_solver|].
  exists d, i3. rewrite trim_trim in Hi3. done.
Qed.

Lemma line_of_list a b : back_ok a -> line_ok b -> line_ok (AList a b).
Proof.
  intros Ha Hb fuel i l rest Hi El Hf Hfuel. cbn [show Nat.ltb Nat.leb paren] in El. rewrite <- app_assoc, <- app_comm_cons in El.
  destruct fuel as [|fuel]; [lia|]. cbn [parseline].
  destruct (Ha fuel i l (59 :: show 0 b ++ rest) Hi El ltac:(by apply follows_cons; [|set_solver]) ltac:(lia))
    as (d0 & i0 & n & d & i1 & E & Hle & Hi1 & Hd & Hn).
  pose proof (parsepipe_le fuel i l _ _ Hi ltac:(lia) E) as Hle0. rewrite E. cbn [pbind]. rewrite trim_cons in Hi1 by done.
  pose proof (at_len _ _ _ Hi) as L0. pose proof (at_len _ _ _ Hi1) as L1.
  replace (parsebacks s fuel d0 i0) with (parsebacks s (n + S (fuel - n - 1)) d0 i0) by (f_equal; lia). rewrite Hn.
  destruct (parsebacks_end (fuel - n - 1) d i1 _ Hi1) as (i2 & -> & Hi2 & Hle2); [by rewrite trim_cons; [set_solver|]|].
  cbn [pbind]. rewrite trim_cons in Hi2 by done.
  destruct (take_symbol i2 59 _ [59] Hi2) as (i3 & t & w & i4 & -> & -> & Hi4 & Hlt); try done.
  pose proof (at_len _ _ _ Hi4) as L4.
  destruct (Hb fuel i4 _ rest Hi4 ltac:(by rewrite trim_trim) Hf ltac:(lia)) as (d2 & i5 & -> & Hi5 & Hd2).
  by exists (LIST d d2), i5.
Qed.

(** A command in parentheses, and its redirections. *)
Lemma exec_of_block c rs : line_ok c -> Forall redir_wf rs ->
  forall fuel i l rest, at_ i l -> trim l = trim ((40 :: show 0 c ++ [41]) ++ concat (show_redir <$> rs) ++ rest) ->
    follows [124; 41; 38; 59] rest -> (4 * length l + 2 <= fuel)%nat ->
    exists d i', parseexec s fuel i = Parsed d i' /\ at_ i' (trim rest) /\ denotes d (redirs_ast c rs).
Proof.
  intros Hc Hrs fuel i l rest Hi El Hf Hfuel. destruct fuel as [|[|fuel]]; [lia|lia|]. cbn [parseexec].
  rewrite <- app_comm_cons, <- !app_assoc, trim_cons in El by done.
  set (tl := concat (show_redir <$> rs) ++ rest) in *.
  pose proof (at_len _ _ _ Hi) as L0. pose proof (length_trim l) as Ll. rewrite El in Ll. cbn in Ll.
  destruct (peek_at s Hs i l [40] Hi) as (i1 & -> & Hi1). rewrite El in Hi1 |- *. change (has [40] 40) with true. cbv iota.
  cbn [parseblock].
  destruct (take_symbol i1 40 _ [40] Hi1) as (i2 & t & w & i3 & -> & -> & Hi3 & Hlt); try done. cbn [negb].
  pose proof (at_len _ _ _ Hi1) as L1. cbn in L1. pose proof (at_len _ _ _ Hi3) as L3.
  destruct (Hc fuel i3 _ ([41] ++ tl) Hi3 ltac:(by rewrite trim_trim) ltac:(by apply follows_cons; [|set_solver]) ltac:(lia))
    as (d & i4 & E & Hi4 & Hd).
  pose proof (parseline_le fuel i3 _ _ _ Hi3 ltac:(lia) E) as Hle. rewrite E. cbn [pbind].
  change ([41] ++ tl) with (41 :: tl) in Hi4. rewrite trim_cons in Hi4 by done.
  destruct (take_symbol i4 41 _ [41] Hi4) as (i5 & t' & w' & i6 & -> & -> & Hi6 & Hlt6); try done. cbn [negb].
  pose proof (at_len _ _ _ Hi6) as L6.
  apply (parseredirs_show s Hs rs fuel d c i6 (trim tl) rest); try done; [by rewrite trim_trim| |lia].
  eapply follows_not_in; [exact Hf|set_solver].
Qed.

Lemma exec_of_core c : ast_ok c -> match core c with AExec _ => True | d => line_ok d end -> exec_ok c.
Proof.
  intros Hok Hcore fuel i l rest Hi El Hf Hfuel. rewrite show_core, <- app_assoc in El.
  destruct (core_ok c Hok) as [Hco Hrs]. rewrite <- (core_redirs c).
  destruct (core c) as [argv|c' f mode fd|a b|a b|c'] eqn:Ec.
  - destruct Hco as [Hw Hmax]. eapply parseexec_show; try done. lia.
  - exfalso. clear -Ec. revert Ec. induction c; cbn; intros; try done.
  - by eapply exec_of_block.
  - by eapply exec_of_block.
  - by eapply exec_of_block.
Qed.

Lemma parser_reads n : forall c, (ast_size c <= n)%nat -> ast_ok c ->
  line_ok c /\ back_ok c /\ pipe_ok c /\ exec_ok c.
Proof.
  induction n as [|n IH]; intros c Hn Hok; [destruct c; cbn in Hn; lia|].
  destruct c as [argv|c f mode fd|a b|a b|c].
  - assert (He : exec_ok (AExec argv)) by (by apply exec_of_core).
    assert (Hp := pipe_of_exec _ He eq_refl). assert (Hb := back_of_pipe _ Hp eq_refl).
    split_and!; try done. by apply line_of_back.
  - assert (He : exec_ok (ARedir c f mode fd)).
    { apply exec_of_core; [done|]. cbn [core]. pose proof (core_size c) as Hsz. cbn in Hn.
      destruct (core_ok c (proj1 Hok)) as [Hco _]. destruct (IH (core c) ltac:(lia) Hco) as [Hl _].
      by destruct (core c). }
    assert (Hp := pipe_of_exec _ He eq_refl). assert (Hb := back_of_pipe _ Hp eq_refl).
    split_and!; try done. by apply line_of_back.
  - destruct Hok as [Ha Hb]. cbn in Hn. destruct (IH a ltac:(lia) Ha) as (_ & _ & _ & He).
    destruct (IH b ltac:(lia) Hb) as (_ & _ & Hp' & _).
    assert (Hp := pipe_of_pipe _ _ He Hp'). assert (Hbk := back_of_pipe _ Hp eq_refl).
    assert (Hl := line_of_back _ Hbk eq_refl). split_and!; try done. by apply exec_of_core.
  - destruct Hok as [Ha Hb]. cbn in Hn. destruct (IH a ltac:(lia) Ha) as (_ & Hbk & _).
    destruct (IH b ltac:(lia) Hb) as (Hl' & _).
    assert (Hl := line_of_list _ _ Hbk Hl').
    assert (He : exec_ok (AList a b)) by (by apply exec_of_core).
    assert (Hp := pipe_of_exec _ He eq_refl). split_and!; try done. by apply back_of_pipe.
  - cbn in Hn, Hok. destruct (IH c ltac:(lia) Hok) as (_ & Hbk' & _).
    assert (Hbk := back_of_back _ Hbk'). assert (Hl := line_of_back _ Hbk eq_refl).
    assert (He : exec_ok (ABack c)) by (by apply exec_of_core).
    split_and!; try done. by apply pipe_of_exec.
Qed.
End roundtrip.

(** The ends of the words. *)
Fixpoint ends (c : cmd) : list nat :=
  match c with
  | EXEC argv => snd <$> argv
  | REDIR c f _ _ => snd f :: ends c
  | PIPE l r | LIST l r => ends l ++ ends r
  | BACK c => ends c
  end.

Lemma nul_words (argv : list word) : forall buf j,
  foldl (fun buf w => <[snd w := 0]> buf) buf argv !! j =
    if decide (j ∈ snd <$> argv /\ (j < length buf)%nat) then Some 0 else buf !! j.
Proof.
  induction argv as [|w argv IH]; intros buf j; cbn [foldl].
  - rewrite decide_False; [done|]. set_solver.
  - rewrite IH, length_insert. destruct (decide (j ∈ snd <$> argv /\ (j < length buf)%nat)) as [H|H].
    + rewrite decide_True; [done|]. set_solver.
    + destruct (decide (j = w.2)) as [->|Hne].
      * destruct (decide (w.2 < length buf)%nat).
        -- rewrite list_lookup_insert_eq by done. rewrite decide_True; [done|]. set_solver.
        -- rewrite list_insert_ge by lia. rewrite decide_False; [done|]. lia.
      * rewrite list_lookup_insert_ne by done. rewrite decide_False; [done|]. set_solver.
Qed.

Lemma length_nulterminate c : forall buf, length (nulterminate c buf) = length buf.
Proof.
  induction c as [argv|c IH f mode fd|l IHl r IHr|l IHl r IHr|c IH]; intros buf; cbn [nulterminate].
  - revert buf. induction argv as [|w argv IH]; intros buf; [done|]. cbn [foldl]. by rewrite IH, length_insert.
  - by rewrite length_insert, IH.
  - by rewrite IHr, IHl.
  - by rewrite IHr, IHl.
  - apply IH.
Qed.

Lemma lookup_nulterminate c : forall buf j,
  nulterminate c buf !! j = if decide (j ∈ ends c /\ (j < length buf)%nat) then Some 0 else buf !! j.
Proof.
  induction c as [argv|c IH f mode fd|l IHl r IHr|l IHl r IHr|c IH]; intros buf j; cbn [nulterminate ends].
  - apply nul_words.
  - destruct (decide (j = f.2)) as [->|Hne].
    + destruct (decide (f.2 < length buf)%nat).
      * rewrite list_lookup_insert_eq by (by rewrite length_nulterminate). rewrite decide_True; [done|]. set_solver.
      * rewrite list_insert_ge by (rewrite length_nulterminate; lia). rewrite IH. rewrite !decide_False; [done|lia|lia].
    + rewrite list_lookup_insert_ne, IH by done.
      destruct (decide (j ∈ ends c /\ (j < length buf)%nat)); case_decide; try done; set_solver.
  - rewrite IHr, length_nulterminate, IHl. repeat case_decide; try done; set_solver.
  - rewrite IHr, length_nulterminate, IHl. repeat case_decide; try done; set_solver.
  - apply IH.
Qed.

(** A word ends where no word is. *)
Definition word_end (s : list Z) (e : nat) : Prop := e = length s \/ ((e < length s)%nat /\ is_word (char_at s e) = false).

Lemma word_at_end s w l : word_at s w l -> word_end s w.2.
Proof.
  intros (_ & _ & Hle & _ & [H|H]); [by left|]. destruct (decide (w.2 = length s)) as [?|Hne]; [by left|right]. split; [lia|done].
Qed.

Lemma denotes_ends s c : forall a, denotes s c a -> Forall (word_end s) (ends c).
Proof.
  induction c as [argv|c IH f mode fd|l IHl r IHr|l IHl r IHr|c IH]; intros [ws_|a f' mode' fd'|a b|a b|a] H; try done; cbn [ends denotes] in *.
  - rewrite Forall_fmap. induction H as [|w l argv ls Hw _ IH]; constructor; [by eapply word_at_end|done].
  - destruct H as (H1 & H2 & _). constructor; [by eapply word_at_end|by eapply IH].
  - destruct H. apply Forall_app. split; [by eapply IHl|by eapply IHr].
  - destruct H. apply Forall_app. split; [by eapply IHl|by eapply IHr].
  - by eapply IH.
Qed.

(** A line with NULs between its words: [W] are the ends they are written to. *)
Definition terminated (s buf : list Z) (W : list nat) : Prop :=
  length buf = S (length s) /\ (forall e, e ∈ W -> buf !! e = Some 0) /\
  (forall j, (j < length s)%nat -> is_word (char_at s j) = true -> buf !! j = s !! j).

Lemma string_at_word s buf W w l : terminated s buf W -> w.2 ∈ W -> word_at s w l -> string_at buf w = l.
Proof.
  intros (Hlen & Hnul & Hword) Hw (Hsub & He & Hle & [Hne Hl] & _). unfold string_at.
  assert (E : drop w.1 buf = l ++ 0 :: drop (S w.2) buf).
  { apply list_eq. intros k. rewrite lookup_drop. destruct (decide (k < length l)%nat) as [Hk|Hk].
    - rewrite lookup_app_l by done.
      assert (Hsk : s !! (w.1 + k)%nat = l !! k) by (by rewrite <- Hsub, lookup_sub).
      rewrite <- Hsk. apply Hword; [lia|]. destruct (lookup_lt_is_Some_2 l k Hk) as [c Ec].
      unfold char_at. rewrite Hsk, Ec. eapply Forall_lookup_1 in Hl; [|exact Ec]. apply Hl.
    - rewrite lookup_app_r by lia. destruct (k - length l)%nat as [|k'] eqn:Ek.
      + cbn. rewrite <- (Hnul w.2 Hw). f_equal. lia.
      + change ((0 :: drop (S w.2) buf) !! S k') with (drop (S w.2) buf !! k'). rewrite lookup_drop. f_equal. lia. }
  rewrite E. apply cstr_terminated; [|lia]. eapply Forall_impl; [exact Hl|]. cbn. tauto.
Qed.

Lemma read_cmd_spec s buf W c : forall a, terminated s buf W -> ends c ⊆ W -> denotes s c a -> read_cmd buf c = a.
Proof.
  intros a Ht. revert a.
  induction c as [argv|c IH f mode fd|l IHl r IHr|l IHl r IHr|c IH]; intros [ws_|a f' mode' fd'|a b|a b|a] Hsub H; try done;
    cbn [ends denotes read_cmd] in *.
  - f_equal. induction H as [|w l argv ls Hw _ IH]; [done|]. cbn. f_equal.
    + eapply string_at_word; [exact Ht| |exact Hw]. apply Hsub. left.
    + apply IH. set_solver.
  - destruct H as (H1 & H2 & -> & ->). f_equal; [apply IH; set_solver|].
    eapply string_at_word; [exact Ht| |exact H2]. apply Hsub. left.
  - destruct H. f_equal; [apply IHl|apply IHr]; set_solver.
  - destruct H. f_equal; [apply IHl|apply IHr]; set_solver.
  - f_equal. by apply IH.
Qed.

Lemma nulterminate_spec s c a : denotes s c a -> terminated s (nulterminate c (s ++ [0])) (ends c).
Proof.
  intros H. apply denotes_ends in H. rewrite Forall_forall in H.
  assert (Hlen : length (s ++ [0]) = S (length s)) by (rewrite length_app; cbn; lia).
  split_and!.
  - by rewrite length_nulterminate.
  - intros e He. rewrite lookup_nulterminate, decide_True; [done|]. split; [done|].
    destruct (H e He) as [->|[? _]]; lia.
  - intros j Hj Hw. rewrite lookup_nulterminate, decide_False.
    + by rewrite lookup_app_l.
    + intros [Hin _]. destruct (H j Hin) as [->|[_ ?]]; [lia|congruence].
Qed.

Lemma nonul_show c : forall lvl, ast_ok c -> nonul (show lvl c).
Proof.
  assert (Hp : forall b l, nonul l -> nonul (paren b l)).
  { intros [] l Hl; [|done]. constructor; [done|]. apply Forall_app. split; [done|]. by constructor. }
  assert (Hw : forall w, word_ok w -> nonul (w ++ [32])).
  { intros w [_ H]. apply Forall_app. split; [|by constructor]. eapply Forall_impl; [exact H|]. cbn. tauto. }
  induction c as [argv|c IH f mode fd|l IHl r IHr|l IHl r IHr|c IH]; intros lvl Hok; cbn [show ast_ok] in *.
  - destruct Hok as [H _]. induction H as [|w argv H _ IH]; [constructor|]. cbn. apply Forall_app. split; [by apply Hw|done].
  - destruct Hok as (H1 & H2 & _). apply Forall_app. split; [by apply IH|]. constructor; [by destruct (fd =? 0)|by apply Hw].
  - destruct Hok. apply Hp, Forall_app. split; [by apply IHl|]. constructor; [done|by apply IHr].
  - destruct Hok. apply Hp, Forall_app. split; [by apply IHl|]. constructor; [done|by apply IHr].
  - apply Hp, Forall_app. split; [by apply IH|]. by constructor.
Qed.

(** C22: the shell's parser always returns a command or a syntax error, and it
    reads back every command from its text: for all pipelines, lists,
    background jobs, blocks in parentheses and redirections, the line that
    [show] writes parses to the same command, and after [nulterminate] the
    argument and file strings in the line are the command's words. *)
Theorem sh_parse_show :
  (forall s, nonul s -> parsecmd s <> NoFuel) /\
  (forall c, ast_ok c -> exists d buf ps, parsecmd (show 0 c) = Parsed (d, buf) ps /\ read_cmd buf d = c).
Proof.
  split.
  - intros s Hs. unfold parsecmd, parse_all. destruct (parser_fine s Hs (4 * (length s + 2)) 0 ltac:(lia)) as (F & _).
    specialize (F ltac:(lia)). destruct (parseline s (4 * (length s + 2)) 0); cbn [pbind]; [|done|done].
    destruct (peek s ps []) as [b i]. by destruct (negb (i =? length s)%nat).
  - intros c Hok. set (s := show 0 c). assert (Hs : nonul s) by (by apply nonul_show).
    destruct (parser_reads s Hs (ast_size c) c ltac:(lia) Hok) as (Hl & _).
    assert (H0 : at_ s 0 s) by (split; [lia|done]).
    destruct (Hl (4 * (length s + 2))%nat 0%nat s [] H0 ltac:(by rewrite app_nil_r) ltac:(done) ltac:(lia)) as (d & i & E & Hi & Hd).
    unfold parsecmd, parse_all. rewrite E. cbn [pbind].
    destruct (peek_at s Hs i _ [] Hi) as (i' & -> & Hi'). pose proof (at_len _ _ _ Hi') as L. cbn in L.
    replace (i' =? length s)%nat with true by (symmetry; apply Nat.eqb_eq; lia). cbn [negb pbind].
    exists d, (nulterminate d (s ++ [0])), i'. split; [done|].
    eapply read_cmd_spec; [by eapply nulterminate_spec|done|done].
Qed.

(** The line [(ls;a b)|wc >f &]. *)
Lemma sh_parse_show_example :
  exists d buf ps, parsecmd [40; 108; 115; 59; 97; 32; 98; 41; 124; 119; 99; 32; 62; 102; 32; 38] = Parsed (d, buf) ps /\
    read_cmd buf d =
      ABack (APipe (AList (AExec [[108; 115]]) (AExec [[97]; [98]]))
                   (ARedir (AExec [[119; 99]]) [102] (Z.lor O_WRONLY O_CREATE) 1)).
Proof. do 3 eexists. split; vm_compute; reflexivity. Qed.
