(* ===== verification/Runcmd.v ===== *)
(** * How the shell runs a command ([runcmd] of [user/sh.c])

    A process is the tree of its system calls, with a branch for every result;
    [runcmd] builds the tree of a command.  The trees are run on descriptor
    tables as the system calls are documented, not on the kernel's state: the
    lowest free descriptor is allocated, a child has a copy of its parent's
    table, [fork] succeeds, and [wait] only orders the processes. *)

From S2P Require Import Prelude Params CString Sh.
Local Open Scope Z_scope.

(** System calls. *)
Inductive proc :=
| Exit
| Exec (path : list Z) (argv : list (list Z)) (k : proc)    (* [k]: it failed *)
| Close (fd : Z) (k : proc)
| Open (file : list Z) (mode : Z) (k : Z -> proc)
| MkPipe (k : option (Z * Z) -> proc)
| Dup (fd : Z) (k : proc)
| Fork (child : proc) (parent : Z -> proc)
| Wait (k : proc)
| Print (msg : list Z) (k : proc).

(** [panic(s)]: [fprintf(2, "%s\n", s); exit()] *)
Definition panic (msg : list Z) : proc := Print (msg ++ [10]) Exit.

(** ["exec %s failed\n"] and ["open %s failed\n"] *)
Definition failed : list Z := [32; 102; 97; 105; 108; 101; 100; 10].
Definition exec_failed (path : list Z) : list Z := [101; 120; 101; 99; 32] ++ path ++ failed.
Definition open_failed (file : list Z) : list Z := [111; 112; 101; 110; 32] ++ file ++ failed.

(** [if(fork1() == 0) child; k] *)
Definition fork1 (child k : proc) : proc :=
  Fork child (fun pid => if pid =? -1 then panic [102; 111; 114; 107] else k).

(** ["/bin/"] and the first 13 characters of the command: [safestrcpy] with 14
    bytes. *)
Definition binpath (arg : list Z) : list Z := [47; 98; 105; 110; 47] ++ cstr 14 (safestrcpy arg 14).

Fixpoint runcmd (c : ast) : proc :=
  match c with
  | AExec [] => Exit
  | AExec (arg :: argv) => Exec (binpath arg) (arg :: argv) (Print (exec_failed (binpath arg)) Exit)
  | ARedir c file mode fd =>
      Close fd (Open file mode (fun r => if r <? 0 then Print (open_failed file) Exit else runcmd c))
  | AList l r => fork1 (runcmd l) (Wait (runcmd r))
  | APipe l r =>
      MkPipe (fun p =>
        match p with
        | None => panic [112; 105; 112; 101]
        | Some (p0, p1) =>
            fork1 (Close 1 (Dup p1 (Close p0 (Close p1 (runcmd l)))))
           (fork1 (Close 0 (Dup p0 (Close p0 (Close p1 (runcmd r)))))
           (Close p0 (Close p1 (Wait (Wait Exit)))))
        end)
  | ABack c => fork1 (runcmd c) Exit
  end.

(** ** Descriptor tables *)

(** A pipe is named after the place in the tree of processes where it is made. *)
Inductive desc :=
| DFile (name : list Z) (mode : Z)
| DPipe (id : list bool) (write : bool)
| DInherited (n : nat).

Notation fds := (list (option desc)).
Definition close (fd : Z) (t : fds) : fds := <[Z.to_nat fd := None]> t.
(** The lowest free descriptor. *)
Fixpoint lowest (t : fds) : option nat :=
  match t with
  | [] => None
  | None :: _ => Some 0%nat
  | Some _ :: t' => S <$> lowest t'
  end.
Definition alloc (d : desc) (t : fds) : Z * fds :=
  match lowest t with
  | None => (-1, t)
  | Some i => (Z.of_nat i, <[i := Some d]> t)
  end.
Definition dup (fd : Z) (t : fds) : fds :=
  match t !! Z.to_nat fd with
  | Some (Some d) => (alloc d t).2
  | _ => t
  end.

(** The programs that are executed, with their descriptors. *)
Notation job := (list Z * list (list Z) * fds)%type.

Section run.
(** The files that [open] opens. *)
Context (opens : list Z -> Z -> bool).

(** Forks succeed; an executed program does not return. *)
Fixpoint run (p : proc) (id : list bool) (t : fds) : list job :=
  match p with
  | Exit => []
  | Exec path argv _ => [(path, argv, t)]
  | Close fd k => run k id (close fd t)
  | Open file mode k =>
      if opens file mode then let '(fd, t) := alloc (DFile file mode) t in run (k fd) id t
      else run (k (-1)) id t
  | MkPipe k =>
      let '(p0, t0) := alloc (DPipe id false) t in
      if p0 <? 0 then run (k None) id t else
      let '(p1, t1) := alloc (DPipe id true) t0 in
      if p1 <? 0 then run (k None) id t else run (k (Some (p0, p1))) id t1
  | Dup fd k => run k id (dup fd t)
  | Fork child parent => run child (true :: id) t ++ run (parent 1) (false :: id) t
  | Wait k => run k id t
  | Print _ k => run k id t
  end.

(** ** What a command means *)

Fixpoint jobs (c : ast) (id : list bool) (t : fds) : list job :=
  match c with
  | AExec [] => []
  | AExec (arg :: argv) => [(binpath arg, arg :: argv, t)]
  | ARedir c file mode fd =>
      if opens file mode then jobs c id (<[Z.to_nat fd := Some (DFile file mode)]> t) else []
  | AList l r => jobs l (true :: id) t ++ jobs r (false :: id) t
  | APipe l r =>
      jobs l (true :: id) (<[1%nat := Some (DPipe id true)]> t) ++
      jobs r (true :: false :: id) (<[0%nat := Some (DPipe id false)]> t)
  | ABack c => jobs c (true :: id) t
  end.

(** The standard descriptors are open and two more are free. *)
Definition std (t : fds) : Prop :=
  (exists d0 d1 d2 t', t = Some d0 :: Some d1 :: Some d2 :: t' /\
    exists i j, (i < j)%nat /\ t' !! i = Some None /\ t' !! j = Some None).

Lemma std_insert t i d : std t -> (i < 2)%nat -> std (<[i := Some d]> t).
Proof.
  intros (d0 & d1 & d2 & t' & -> & H) Hi. destruct i as [|[|i]]; [| |lia]; cbn; unfold std; eauto 10.
Qed.

Lemma lowest_free t i : t !! i = Some None -> exists k, lowest t = Some k /\ (k <= i)%nat /\ t !! k = Some None.
Proof.
  revert i. induction t as [|[d|] t IH]; intros i Hi; [done| |].
  - destruct i as [|i]; [done|]. destruct (IH i Hi) as (k & E & Hk & Hn). exists (S k). cbn. rewrite E. cbn. split_and!; [done|lia|done].
  - exists 0%nat. cbn. split_and!; [done|lia|done].
Qed.

(** [close(fd)] and the next allocation, where the lower ones are open. *)
Lemma close_alloc t fd d : std t -> fd = 0 \/ fd = 1 ->
  alloc d (close fd t) = (fd, <[Z.to_nat fd := Some d]> t).
Proof. intros (d0 & d1 & d2 & t' & -> & _) [-> | ->]; done. Qed.

Lemma close_dup t fd q d : std t -> fd = 0 \/ fd = 1 -> (3 <= q)%nat -> t !! q = Some (Some d) ->
  dup (Z.of_nat q) (close fd t) = <[Z.to_nat fd := Some d]> t.
Proof.
  intros Ht Hfd Hq E. unfold dup. rewrite Nat2Z.id.
  assert (Hc : close fd t !! q = Some (Some d)) by (unfold close; by rewrite list_lookup_insert_ne by lia).
  rewrite Hc. by rewrite (close_alloc t fd d Ht Hfd).
Qed.

(** The two descriptors of a new pipe. *)
Lemma alloc_pipe t a b : std t ->
  exists p0 p1, (3 <= p0)%nat /\ (3 <= p1)%nat /\ p0 <> p1 /\ t !! p0 = Some None /\ t !! p1 = Some None /\
    alloc a t = (Z.of_nat p0, <[p0 := Some a]> t) /\
    alloc b (<[p0 := Some a]> t) = (Z.of_nat p1, <[p1 := Some b]> (<[p0 := Some a]> t)).
Proof.
  intros (d0 & d1 & d2 & t' & -> & i & j & Hij & Hi & Hj).
  destruct (lowest_free t' i Hi) as (k & E & Hk & Hkn).
  assert (Hk2 : <[k := Some a]> t' !! j = Some None) by (rewrite list_lookup_insert_ne by lia; done).
  destruct (lowest_free _ _ Hk2) as (k2 & E2 & _ & Hkn2).
  assert (Hne : k2 <> k).
  { intros ->. rewrite list_lookup_insert_eq in Hkn2 by (by eapply lookup_lt_Some). done. }
  rewrite list_lookup_insert_ne in Hkn2 by done.
  exists (3 + k)%nat, (3 + k2)%nat. split_and!; try done; try lia.
  - unfold alloc. cbn [lowest]. by rewrite E.
  - change (<[(3 + k)%nat := Some a]> (Some d0 :: Some d1 :: Some d2 :: t'))
      with (Some d0 :: Some d1 :: Some d2 :: <[k := Some a]> t').
    unfold alloc. cbn [lowest]. by rewrite E2.
Qed.

(** Closing both ends again. *)
Lemma close_pipe t p0 p1 a b : p0 <> p1 -> t !! p0 = Some None -> t !! p1 = Some None ->
  close (Z.of_nat p1) (close (Z.of_nat p0) (<[p1 := Some b]> (<[p0 := Some a]> t))) = t.
Proof.
  intros Hne H0 H1. unfold close. rewrite !Nat2Z.id.
  assert (L0 := lookup_lt_Some _ _ _ H0). assert (L1 := lookup_lt_Some _ _ _ H1).
  apply list_eq. intros i. destruct (decide (i = p1)) as [->|N1].
  { rewrite list_lookup_insert_eq; [done|]. by rewrite !length_insert. }
  rewrite list_lookup_insert_ne by done. destruct (decide (i = p0)) as [->|N0].
  { rewrite list_lookup_insert_eq; [done|]. by rewrite !length_insert. }
  by rewrite !list_lookup_insert_ne by done.
Qed.

Lemma run_fork1 child k id t : run (fork1 child k) id t = run child (true :: id) t ++ run k (false :: id) t.
Proof. done. Qed.

(** One side of a pipeline: an end of the pipe takes the place of [fd], and the
    other descriptors of the pipe are closed. *)
Lemma pipe_side t fd p0 p1 a b q d k id :
  std t -> fd = 0 \/ fd = 1 -> (3 <= p0)%nat -> (3 <= p1)%nat -> p0 <> p1 ->
  t !! p0 = Some None -> t !! p1 = Some None -> (q = p0 /\ d = a) \/ (q = p1 /\ d = b) ->
  run (Close fd (Dup (Z.of_nat q) (Close (Z.of_nat p0) (Close (Z.of_nat p1) k)))) id
    (<[p1 := Some b]> (<[p0 := Some a]> t)) = run k id (<[Z.to_nat fd := Some d]> t).
Proof.
  intros Ht Hfd H0 H1 Hne E0 E1 Hq. cbn [run]. f_equal. set (t2 := <[p1 := Some b]> (<[p0 := Some a]> t)).
  assert (L0 := lookup_lt_Some _ _ _ E0). assert (L1 := lookup_lt_Some _ _ _ E1).
  assert (Hq2 : t2 !! q = Some (Some d)).
  { unfold t2. destruct Hq as [[-> ->]|[-> ->]].
    - rewrite list_lookup_insert_ne by done. by rewrite list_lookup_insert_eq.
    - rewrite list_lookup_insert_eq; [done|]. by rewrite length_insert. }
  assert (Hdup : dup (Z.of_nat q) (close fd t2) = <[Z.to_nat fd := Some d]> t2).
  { unfold dup. rewrite Nat2Z.id. assert (Hc : close fd t2 !! q = Some (Some d)).
    { unfold close. rewrite list_lookup_insert_ne; [done|]. destruct Hq as [[-> _]|[-> _]]; lia. }
    rewrite Hc. destruct Ht as (d0 & d1 & d2 & t' & -> & _).
    destruct p0 as [|[|[|p0]]]; [lia|lia|lia|]. destruct p1 as [|[|[|p1]]]; [lia|lia|lia|].
    by destruct Hfd as [-> | ->]. }
  rewrite Hdup. unfold t2.
  rewrite (list_insert_insert_ne _ (Z.to_nat fd) p1), (list_insert_insert_ne _ (Z.to_nat fd) p0) by lia.
  apply close_pipe; [done| |]; by rewrite list_lookup_insert_ne by lia.
Qed.

Lemma runcmd_jobs c : forall id t, ast_ok c -> std t -> run (runcmd c) id t = jobs c id t.
Proof.
  induction c as [argv|c IH f mode fd|l IHl r IHr|l IHl r IHr|c IH]; intros id t Hok Ht; cbn [ast_ok] in Hok.
  - by destruct argv.
  - destruct Hok as (Hok & _ & Hro). assert (Hfd : fd = 0 \/ fd = 1) by (destruct Hro as [[_ ->]|[_ ->]]; tauto).
    cbn [runcmd run jobs]. destruct (opens f mode); [|done].
    rewrite (close_alloc t fd (DFile f mode) Ht Hfd). rewrite (proj2 (Z.ltb_ge fd 0)) by lia.
    apply IH; [done|]. apply std_insert; [done|lia].
  - destruct Hok as [Hl Hr]. cbn [runcmd run jobs].
    destruct (alloc_pipe t (DPipe id false) (DPipe id true) Ht) as (p0 & p1 & H0 & H1 & Hne & E0 & E1 & -> & A1).
    rewrite (proj2 (Z.ltb_ge (Z.of_nat p0) 0)) by lia. rewrite A1. rewrite (proj2 (Z.ltb_ge (Z.of_nat p1) 0)) by lia.
    rewrite run_fork1, (pipe_side t 1 p0 p1 _ _ p1 (DPipe id true)); try done; [|tauto|tauto].
    rewrite run_fork1, (pipe_side t 0 p0 p1 _ _ p0 (DPipe id false)); try done; [|tauto|tauto].
    cbn [run]. rewrite app_nil_r, IHl, IHr; try done; apply std_insert; (done || lia).
  - destruct Hok as [Hl Hr]. cbn [runcmd run jobs fork1 Z.eqb]. by rewrite IHl, IHr.
  - cbn [runcmd run jobs fork1 Z.eqb]. rewrite IH by done. apply app_nil_r.
Qed.
End run.

(** C23: [runcmd] starts the programs of a command with the descriptors the
    command asks for.  Each side of a pipeline gets its end of the pipe as
    standard output or input and no other descriptor of the pipe, the shell
    keeps none, redirections replace the descriptor they name, and all other
    descriptors are inherited; [&], [;] and parentheses do not change them. *)
Theorem runcmd_descriptors opens c id t :
  ast_ok c -> std t -> run opens (runcmd c) id t = jobs opens c id t.
Proof. apply runcmd_jobs. Qed.

(** A shell whose three standard descriptors are the console. *)
Definition shell_fds : fds := [Some (DInherited 0); Some (DInherited 1); Some (DInherited 2)] ++ replicate 13 None.

(** [ls|wc >f] *)
Lemma runcmd_descriptors_witness :
  run (fun _ _ => true) (runcmd (APipe (AExec [[108; 115]]) (ARedir (AExec [[119; 99]]) [102] (Z.lor O_WRONLY O_CREATE) 1))) []
    shell_fds =
  [([47; 98; 105; 110; 47; 108; 115], [[108; 115]], <[1%nat := Some (DPipe [] true)]> shell_fds);
   ([47; 98; 105; 110; 47; 119; 99], [[119; 99]],
    <[1%nat := Some (DFile [102] (Z.lor O_WRONLY O_CREATE))]> (<[0%nat := Some (DPipe [] false)]> shell_fds))].
Proof.
  rewrite runcmd_descriptors.
  - vm_compute. reflexivity.
  - cbn. unfold MAXARGS, word_ok, redir_ok.
    repeat match goal with |- _ /\ _ => split | |- Forall _ [] => constructor | |- Forall _ (_ :: _) => constructor end;
      (done || lia || by right).
  - do 4 eexists. split; [reflexivity|]. exists 0%nat, 1%nat. split_and!; [lia|reflexivity|reflexivity].
Defined.
