(* ===== verification/Vm.v ===== *)
(** * Virtual memory ([kernel/vm.c])

    Page directories, page tables and user pages live in the pages of the
    physical page allocator, and a pointer is a kernel virtual address; the
    functions run on the allocator's state.  The addresses [end] and [data] of
    the linker script are parameters. *)

From S2P Require Import Prelude Params Kalloc.
Local Open Scope Z_scope.
Local Open Scope kmonad_scope.

(** Words of memory. *)
Definition pg (a : Z) : Z := a - a mod PGSIZE.
Definition ld32 (k : kmem) (a : Z) : Z := get32 (page k (pg a)) (Z.to_nat (a mod PGSIZE / 4)).
Definition st32 (a v : Z) : M kmem unit :=
  modify (fun k => set_page (pg a) (set32 (page k (pg a)) (Z.to_nat (a mod PGSIZE / 4)) (u32 v)) k).
(** [memset(p, 0, PGSIZE)] *)
Definition zero_page (p : Z) : M kmem unit := modify (set_page p (replicate (Z.to_nat PGSIZE) 0)).

Definition present (e : Z) : bool := negb (Z.land e PTE_P =? 0).

Section vm.
Context (kend data : Z).

(** The address of the entry for [va], or 0. *)
Definition walkpgdir (pgdir va : Z) (alloc : bool) : M kmem Z :=
  let pde := pgdir + 4 * PDX va in
  e <- gets (fun k => ld32 k pde);;
  if present e then ret (P2V (PTE_ADDR e) + 4 * PTX va) else
  if negb alloc then ret 0 else
  pgtab <- kalloc;;
  if pgtab =? 0 then ret 0 else
  zero_page pgtab;;
  st32 pde (Z.lor (Z.lor (Z.lor (V2P pgtab) PTE_P) PTE_W) PTE_U);;
  ret (pgtab + 4 * PTX va).

(** The [for] loop; it ends when [a] is [last]. *)
Fixpoint mappages_loop (fuel : nat) (pgdir a last pa perm : Z) : M kmem Z :=
  match fuel with
  | O => ret 0
  | S fuel' =>
      pte <- walkpgdir pgdir a true;;
      if pte =? 0 then ret (-1) else
      e <- gets (fun k => ld32 k pte);;
      if present e then panic "remap" else
      st32 pte (Z.lor (Z.lor pa perm) PTE_P);;
      if a =? last then ret 0 else
      mappages_loop fuel' pgdir (u32 (a + PGSIZE)) last (u32 (pa + PGSIZE)) perm
  end.

Definition mappages (pgdir va size pa perm : Z) : M kmem Z :=
  let a := PGROUNDDOWN va in
  let last := PGROUNDDOWN (u32 (va + size - 1)) in
  mappages_loop (Z.to_nat (u32 (last - a) / PGSIZE) + 1) pgdir a last pa perm.

Fixpoint deallocuvm_loop (fuel : nat) (pgdir a oldsz : Z) : M kmem unit :=
  match fuel with
  | O => ret tt
  | S fuel' =>
      if a <? oldsz then
        pte <- walkpgdir pgdir a false;;
        if pte =? 0 then
          deallocuvm_loop fuel' pgdir (u32 (u32 (PGADDR (PDX a + 1) 0 0 - PGSIZE) + PGSIZE)) oldsz
        else
          e <- gets (fun k => ld32 k pte);;
          when (present e) (
            let pa := PTE_ADDR e in
            if pa =? 0 then panic "kfree" else
            kfree kend (P2V pa);;
            st32 pte 0);;
          deallocuvm_loop fuel' pgdir (u32 (a + PGSIZE)) oldsz
      else ret tt
  end.

(** Every turn is at least a page further. *)
Definition deallocuvm (pgdir oldsz newsz : Z) : M kmem Z :=
  if oldsz <=? newsz then ret oldsz else
  let a := PGROUNDUP newsz in
  deallocuvm_loop (Z.to_nat (oldsz / PGSIZE + 1)) pgdir a oldsz;;
  ret newsz.

Fixpoint allocuvm_loop (fuel : nat) (pgdir a oldsz newsz : Z) : M kmem Z :=
  match fuel with
  | O => ret newsz
  | S fuel' =>
      if a <? newsz then
        mem <- kalloc;;
        if mem =? 0 then
          deallocuvm pgdir newsz oldsz;; ret 0
        else
          zero_page mem;;
          r <- mappages pgdir a PGSIZE (V2P mem) (Z.lor PTE_W PTE_U);;
          if r <? 0 then
            deallocuvm pgdir newsz oldsz;; kfree kend mem;; ret 0
          else allocuvm_loop fuel' pgdir (u32 (a + PGSIZE)) oldsz newsz
      else ret newsz
  end.

Definition allocuvm (pgdir oldsz newsz : Z) : M kmem Z :=
  if KERNBASE <=? newsz then ret 0 else
  if newsz <? oldsz then ret oldsz else
  allocuvm_loop (Z.to_nat (newsz / PGSIZE + 1)) pgdir (PGROUNDUP oldsz) oldsz newsz.

Definition freevm (pgdir : Z) : M kmem unit :=
  if pgdir =? 0 then panic "freevm: no pgdir" else
  deallocuvm pgdir KERNBASE 0;;
  each (fun i =>
    e <- gets (fun k => ld32 k (pgdir + 4 * i));;
    when (present e) (kfree kend (P2V (PTE_ADDR e)))) (seqZ 0 NPDENTRIES);;
  kfree kend pgdir.

(** [struct kmap] and the kernel's mappings. *)
Record kmapping := Kmap { virt : Z; phys_start : Z; phys_end : Z; perm : Z }.
Definition kmap : list kmapping :=
  [ Kmap KERNBASE 0 EXTMEM PTE_W;                    (* I/O space *)
    Kmap KERNLINK (V2P KERNLINK) (V2P data) 0;       (* kern text+rodata *)
    Kmap data (V2P data) PHYSTOP PTE_W;              (* kern data+memory *)
    Kmap DEVSPACE DEVSPACE 0 PTE_W ].                (* more devices *)

Fixpoint map_kernel (pgdir : Z) (ks : list kmapping) : M kmem Z :=
  match ks with
  | [] => ret pgdir
  | x :: ks' =>
      r <- mappages pgdir (virt x) (u32 (phys_end x - phys_start x)) (phys_start x) (perm x);;
      if r <? 0 then freevm pgdir;; ret 0 else map_kernel pgdir ks'
  end.

Definition setupkvm : M kmem Z :=
  pgdir <- kalloc;;
  if pgdir =? 0 then ret 0 else
  zero_page pgdir;;
  if DEVSPACE <? P2V PHYSTOP then panic "PHYSTOP too high" else
  map_kernel pgdir kmap.

Definition inituvm (pgdir : Z) (init : list Z) : M kmem unit :=
  let sz := Z.of_nat (length init) in
  if PGSIZE <=? sz then panic "inituvm: more than a page" else
  mem <- kalloc;;
  if mem =? 0 then panic "trap" else     (* not checked: [memset] faults *)
  zero_page mem;;
  mappages pgdir 0 PGSIZE (V2P mem) (Z.lor PTE_W PTE_U);;
  modify (fun k => set_page mem (splice (page k mem) 0 init) k).

Definition clearpteu (pgdir uva : Z) : M kmem unit :=
  pte <- walkpgdir pgdir uva false;;
  if pte =? 0 then panic "clearpteu" else
  e <- gets (fun k => ld32 k pte);;
  st32 pte (Z.land e (Z.lnot PTE_U)).

(** The loop of [copyuvm], from [i]. *)
Fixpoint copyuvm_loop (fuel : nat) (pgdir d i sz : Z) : M kmem Z :=
  match fuel with
  | O => ret d
  | S fuel' =>
      if i <? sz then
        pte <- walkpgdir pgdir i false;;
        if pte =? 0 then panic "copyuvm: pte should exist" else
        e <- gets (fun k => ld32 k pte);;
        if negb (present e) then panic "copyuvm: page not present" else
        let pa := PTE_ADDR e in
        let flags := PTE_FLAGS e in
        mem <- kalloc;;
        if mem =? 0 then freevm d;; ret 0 else
        modify (fun k => set_page mem (page k (P2V pa)) k);;
        r <- mappages d i PGSIZE (V2P mem) flags;;
        if r <? 0 then kfree kend mem;; freevm d;; ret 0 else
        copyuvm_loop fuel' pgdir d (u32 (i + PGSIZE)) sz
      else ret d
  end.

Definition copyuvm (pgdir sz : Z) : M kmem Z :=
  d <- setupkvm;;
  if d =? 0 then ret 0 else
  copyuvm_loop (Z.to_nat (sz / PGSIZE + 1)) pgdir d 0 sz.

(** The entry that [walkpgdir] returns is read unchecked; the model panics where
    it is a null pointer. *)
Definition uva2ka (pgdir uva : Z) : M kmem Z :=
  pte <- walkpgdir pgdir uva false;;
  if pte =? 0 then panic "trap" else
  e <- gets (fun k => ld32 k pte);;
  if negb (present e) then ret 0 else
  if Z.land e PTE_U =? 0 then ret 0 else
  ret (P2V (PTE_ADDR e)).

Fixpoint copyout_loop (fuel : nat) (pgdir va : Z) (buf : list Z) : M kmem Z :=
  match fuel with
  | O => ret 0
  | S fuel' =>
      match buf with
      | [] => ret 0
      | _ =>
          let va0 := PGROUNDDOWN va in
          pa0 <- uva2ka pgdir va0;;
          if pa0 =? 0 then ret (-1) else
          let n := Z.to_nat (Z.min (PGSIZE - (va - va0)) (Z.of_nat (length buf))) in
          modify (fun k => set_page pa0 (splice (page k pa0) (Z.to_nat (va - va0)) (take n buf)) k);;
          copyout_loop fuel' pgdir (u32 (va0 + PGSIZE)) (drop n buf)
      end
  end.

(** Every turn copies at least a byte. *)
Definition copyout (pgdir va : Z) (buf : list Z) : M kmem Z := copyout_loop (length buf + 1) pgdir va buf.
(** ** Address spaces

    The abstract address space of a page directory: [T] are its page tables,
    [U] its user pages with their flags, both by index, and [K] the entries of
    the kernel's half. *)

Definition good_page (k : kmem) (p : Z) : Prop :=
  exists b, pages k !! p = Some b /\ length b = Z.to_nat PGSIZE /\ bytes b.

(** The entry of the page [v] in the tables. *)
Definition entry (k : kmem) (T : gmap Z Z) (v : Z) : Z :=
  match T !! (v / 1024) with
  | None => 0
  | Some t => get32 (page k t) (Z.to_nat (v mod 1024))
  end.

Definition UPAGES : Z := KERNBASE / PGSIZE.
Definition expected (U : gmap Z (Z * Z)) (K : Z -> Z) (v : Z) : Z :=
  if v <? UPAGES then match U !! v with None => 0 | Some (p, f) => V2P p + f end else K v.

(** The pages an address space is made of. *)
Definition owned (pgdir : Z) (T : gmap Z Z) (U : gmap Z (Z * Z)) (a : Z) : Prop :=
  a = pgdir \/ (exists i, T !! i = Some a) \/ (exists v f, U !! v = Some (a, f)).

Record aspace (k : kmem) (pgdir : Z) (T : gmap Z Z) (U : gmap Z (Z * Z)) (K : Z -> Z) : Prop := {
  as_owned : forall a, owned pgdir T U a -> valid_page kend a /\ good_page k a;
  as_table : forall i t, T !! i = Some t -> 0 <= i < 1024 /\ t <> pgdir;
  as_table_inj : forall i j t, T !! i = Some t -> T !! j = Some t -> i = j;
  as_user : forall v p f, U !! v = Some (p, f) -> 0 <= v < UPAGES /\ p <> pgdir /\ 0 <= f < 4096 /\ f mod 2 = 1;
  as_user_inj : forall v w p f g, U !! v = Some (p, f) -> U !! w = Some (p, g) -> v = w;
  as_apart : forall i t v f, T !! i = Some t -> U !! v = Some (t, f) -> False;
  as_pde : forall i, 0 <= i < 1024 ->
    get32 (page k pgdir) (Z.to_nat i) = match T !! i with None => 0 | Some t => V2P t + 7 end;
  as_entry : forall v, 0 <= v < 2 ^ 20 -> entry k T v = expected U K v;
}.

(** An address space and the free pages. *)
Record vm_ok (k : kmem) (pgdir : Z) (T : gmap Z Z) (U : gmap Z (Z * Z)) (K : Z -> Z) (l : list Z) : Prop := {
  vo_space : aspace k pgdir T U K;
  vo_free : free_pages kend k l;
  vo_apart : forall a, a ∈ l -> ~ owned pgdir T U a;
}.

(** Only pages in [X] change. *)
Definition only (X : Z -> Prop) (k k' : kmem) : Prop := forall w, ~ X w -> pages k' !! w = pages k !! w.

Context (Hkend : KERNBASE < kend).

(** *** Arithmetic of entries *)

Lemma valid_page_V2P p : valid_page kend p ->
  p mod 4096 = 0 /\ KERNBASE < p < 2 ^ 32 /\ V2P p = p - KERNBASE /\ 0 < V2P p < PHYSTOP /\ V2P p mod 4096 = 0 /\ P2V (V2P p) = p.
Proof.
  intros (Hr & Hal & Hke & Hph). unfold V2P, P2V, u32 in *. unfold PGSIZE, KERNBASE, PHYSTOP in *. lia.
Qed.

Lemma lor_low p f : p mod 4096 = 0 -> 0 <= f < 4096 -> Z.lor p f = p + f.
Proof.
  intros Hp Hf. assert (Hl : Z.land p f = 0).
  { apply Z.bits_inj'. intros n Hn. rewrite Z.land_spec, Z.bits_0. destruct (decide (n < 12)).
    - replace p with (Z.shiftl (p / 4096) 12) by (rewrite Z.shiftl_mul_pow2 by lia; change (2 ^ 12) with 4096; lia).
      rewrite Z.shiftl_spec_low by lia. done.
    - replace f with (f mod 2 ^ 12) by (change (2 ^ 12) with 4096; lia).
      rewrite Z.mod_pow2_bits_high by lia. apply andb_false_r. }
  rewrite <- Z.lxor_lor by done. symmetry. by apply Z.add_nocarry_lxor.
Qed.

Lemma present_mod e : present e = (e mod 2 =? 1).
Proof.
  unfold present, PTE_P. change 1 with (Z.ones 1) at 1. rewrite Z.land_ones by lia. change (2 ^ 1) with 2.
  destruct (Z.eqb_spec (e mod 2) 0), (Z.eqb_spec (e mod 2) 1); cbn; lia.
Qed.

Lemma entry_parts p f : valid_page kend p -> 0 <= f < 4096 ->
  PTE_ADDR (V2P p + f) = V2P p /\ PTE_FLAGS (V2P p + f) = f /\ present (V2P p + f) = (f mod 2 =? 1) /\ u32 (V2P p + f) = V2P p + f.
Proof.
  intros Hp Hf. destruct (valid_page_V2P p Hp) as (_ & _ & _ & Hv & Hm & _). unfold PHYSTOP in Hv.
  rewrite PTE_ADDR_spec, PTE_FLAGS_spec by lia. split_and!; try lia.
  - rewrite present_mod. replace ((V2P p + f) mod 2) with (f mod 2) by lia. done.
  - apply u32_small. lia.
Qed.

Lemma pg_word p i : p mod 4096 = 0 -> 0 <= i < 1024 -> pg (p + 4 * i) = p /\ (p + 4 * i) mod PGSIZE / 4 = i.
Proof. intros Hp Hi. unfold pg, PGSIZE. lia. Qed.

Lemma ld32_word k p i : p mod 4096 = 0 -> 0 <= i < 1024 -> ld32 k (p + 4 * i) = get32 (page k p) (Z.to_nat i).
Proof. intros Hp Hi. unfold ld32. by destruct (pg_word p i Hp Hi) as [-> ->]. Qed.

(** *** Changing a page *)

Lemma page_lookup k p b : pages k !! p = Some b -> page k p = b.
Proof. unfold page. by intros ->. Qed.

Lemma pages_set_eq k p b : pages (set_page p b k) !! p = Some b.
Proof. unfold set_page. cbn. by rewrite lookup_insert_eq. Qed.

Lemma pages_set_ne k p b q : q <> p -> pages (set_page p b k) !! q = pages k !! q.
Proof. intros. unfold set_page. cbn. by rewrite lookup_insert_ne. Qed.

Lemma page_ext k k' p : pages k' !! p = pages k !! p -> page k' p = page k p.
Proof. unfold page. by intros ->. Qed.

Lemma good_page_ext k k' p : pages k' !! p = pages k !! p -> good_page k p -> good_page k' p.
Proof. unfold good_page. by intros ->. Qed.

Lemma free_pages_ext k k' l : (forall a, a ∈ l -> pages k' !! a = pages k !! a) -> freelist k' = freelist k ->
  free_pages kend k l -> free_pages kend k' l.
Proof.
  intros Hp Hf (Hc & Hnd & Hv). split; [|done]. rewrite Hf. clear Hf Hnd Hv.
  induction Hc as [|p b l Hp0 Hm Hc IH]; [constructor|].
  econstructor; [done|by rewrite Hp by (left)|]. apply IH. intros a Ha. apply Hp. by right.
Qed.

(** The parts of an address space that other code does not touch. *)
Lemma aspace_frame k k' pgdir T U K :
  (forall a, owned pgdir T U a -> pages k' !! a = pages k !! a) -> aspace k pgdir T U K -> aspace k' pgdir T U K.
Proof.
  intros Hf A. split; try apply A.
  - intros a Ha. destruct (as_owned _ _ _ _ _ A a Ha) as [Hv Hg]. split; [done|]. eapply good_page_ext; [|exact Hg]. by apply Hf.
  - intros i Hi. rewrite (page_ext k k') by (apply Hf; by left). by apply A.
  - intros v Hv. rewrite <- (as_entry _ _ _ _ _ A v Hv). unfold entry. destruct (T !! (v / 1024)) as [t|] eqn:E; [|done].
    rewrite (page_ext k k'); [done|]. apply Hf. right. left. eauto.
Qed.

Lemma good_set32 k p b i v : pages k !! p = Some b -> length b = Z.to_nat PGSIZE -> bytes b -> (i < 1024)%nat ->
  good_page (set_page p (set32 b i v) k) p.
Proof.
  intros Hp Hl Hb Hi. exists (set32 b i v). rewrite pages_set_eq. split_and!; [done| |by apply bytes_set32].
  rewrite length_set32; [done|]. rewrite Hl. unfold PGSIZE. lia.
Qed.

(** ** [walkpgdir] *)

Section space.
Context (k : kmem) (pgdir : Z) (T : gmap Z Z) (U : gmap Z (Z * Z)) (K : Z -> Z) (l : list Z).
Context (V : vm_ok k pgdir T U K l).

Lemma pgdir_word i : 0 <= i < 1024 -> ld32 k (pgdir + 4 * i) = match T !! i with None => 0 | Some t => V2P t + 7 end.
Proof.
  intros Hi. pose proof V as [A _ _]. destruct (as_owned _ _ _ _ _ A pgdir) as [(_ & Hm & _) _]; [by left|].
  rewrite ld32_word by done. by apply A.
Qed.

Lemma table_owned i t : T !! i = Some t -> valid_page kend t /\ good_page k t /\ t <> pgdir.
Proof.
  intros E. pose proof V as [A _ _]. destruct (as_owned _ _ _ _ _ A t) as [Hv Hg]; [right; left; eauto|].
  by destruct (as_table _ _ _ _ _ A i t E).
Qed.

Lemma PDX_range va : 0 <= va < 2 ^ 32 -> 0 <= PDX va < 1024.
Proof. intros H. rewrite PDX_spec by done. lia. Qed.

Lemma PTX_range va : 0 <= va < 2 ^ 32 -> 0 <= PTX va < 1024.
Proof. intros H. rewrite PTX_spec by done. lia. Qed.

Lemma walk_found va alloc t : 0 <= va < 2 ^ 32 -> T !! PDX va = Some t ->
  walkpgdir pgdir va alloc k = Ret (t + 4 * PTX va) k.
Proof.
  intros Hva E. unfold walkpgdir. rewrite gets_bind, pgdir_word by (by apply PDX_range). rewrite E.
  destruct (table_owned _ _ E) as (Hv & _). destruct (entry_parts t 7 Hv ltac:(lia)) as (-> & _ & -> & _).
  cbn. by destruct (valid_page_V2P t Hv) as (_ & _ & _ & _ & _ & ->).
Qed.

Lemma walk_none va : 0 <= va < 2 ^ 32 -> T !! PDX va = None -> walkpgdir pgdir va false k = Ret 0 k.
Proof.
  intros Hva E. unfold walkpgdir. rewrite gets_bind, pgdir_word by (by apply PDX_range). by rewrite E.
Qed.

Lemma kalloc_ret : exists k1, kalloc k = Ret (default 0 (head l)) k1 /\ free_pages kend k1 (tail l) /\ pages k1 = pages k.
Proof.
  pose proof (kalloc_free kend k l (vo_free _ _ _ _ _ _ V)) as H. unfold wp in H.
  destruct (kalloc k) as [r k1| |]; [|done|done]. destruct H as (-> & Hf & Hp & _). eauto.
Qed.

Lemma kalloc_empty : l = [] -> kalloc k = Ret 0 k.
Proof.
  intros El. pose proof V as [_ (Hc & _) _]. rewrite El in Hc. unfold kalloc. rewrite gets_bind.
  apply chain_head in Hc. cbn in Hc. rewrite Hc. done.
Qed.

Lemma walk_full va : 0 <= va < 2 ^ 32 -> T !! PDX va = None -> l = [] -> walkpgdir pgdir va true k = Ret 0 k.
Proof.
  intros Hva E El. unfold walkpgdir. rewrite gets_bind, pgdir_word by (by apply PDX_range). rewrite E.
  change (present 0) with false. cbn [negb]. by rewrite (bind_Ret _ _ _ _ _ (kalloc_empty El)).
Qed.

(** A new page table. *)
Lemma walk_alloc va t l' : 0 <= va < 2 ^ 32 -> T !! PDX va = None -> l = t :: l' ->
  exists k', walkpgdir pgdir va true k = Ret (t + 4 * PTX va) k' /\
    vm_ok k' pgdir (<[PDX va := t]> T) U K l' /\ only (fun w => w = pgdir \/ w = t) k k'.
Proof.
  intros Hva E El. pose proof (PDX_range va Hva) as Hi. set (i := PDX va) in *.
  destruct kalloc_ret as (k1 & Ek & Hf1 & Hp1). pose proof V as [A Hf Hap]. rewrite El in Ek, Hf1, Hf, Hap.
  change (default 0 (head (t :: l'))) with t in Ek. change (tail (t :: l')) with l' in Hf1.
  assert (Ht : ~ owned pgdir T U t) by (apply Hap; left).
  assert (Htv : valid_page kend t) by (destruct Hf as (_ & _ & Hv); by apply Forall_cons in Hv as [? _]).
  assert (Hnd : t ∉ l') by (destruct Hf as (_ & Hnd & _); by apply NoDup_cons in Hnd as [? _]).
  assert (Htp : t <> pgdir) by (intros ->; apply Ht; by left).
  destruct (valid_page_V2P t Htv) as (Htm & Htr & _ & Hv2 & Hvm & _). unfold PHYSTOP in Hv2.
  destruct (as_owned _ _ _ _ _ A pgdir) as [(_ & Hpm & _) (b & Hb & Hbl & Hbb)]; [by left|]. unfold PGSIZE in Hpm.
  set (zeros := replicate (Z.to_nat PGSIZE) 0).
  set (k2 := set_page t zeros k1). set (k3 := set_page pgdir (set32 b (Z.to_nat i) (V2P t + 7)) k2).
  assert (Hk2 : pages k2 !! pgdir = Some b) by (unfold k2; rewrite pages_set_ne by done; by rewrite Hp1).
  assert (Hout : forall w, w <> pgdir -> w <> t -> pages k3 !! w = pages k !! w).
  { intros w H1 H2. unfold k3, k2. rewrite !pages_set_ne by done. by rewrite Hp1. }
  assert (Ht3 : pages k3 !! t = Some zeros) by (unfold k3, k2; rewrite pages_set_ne, pages_set_eq by done; done).
  exists k3. split; [|split].
  - unfold walkpgdir. fold i. rewrite gets_bind, pgdir_word by done. rewrite E. change (present 0) with false. cbn [negb].
    rewrite (bind_Ret _ _ _ _ _ Ek). rewrite (proj2 (Z.eqb_neq t 0)) by (unfold KERNBASE in *; lia).
    unfold zero_page, st32. rewrite !modify_bind. destruct (pg_word pgdir i Hpm Hi) as [-> ->].
    fold zeros. fold k2. rewrite (page_lookup k2 pgdir b Hk2). unfold PTE_P, PTE_W, PTE_U.
    rewrite <- !Z.lor_assoc. change (Z.lor 1 (Z.lor 2 4)) with 7. rewrite lor_low by (done || lia).
    rewrite u32_small by lia. done.
  - split.
    + split.
      * intros a Ha. assert (Hcase : a = pgdir \/ a = t \/ (a <> pgdir /\ a <> t /\ owned pgdir T U a)).
        { destruct (decide (a = pgdir)) as [?|N]; [tauto|]. destruct (decide (a = t)) as [?|N']; [tauto|]. right. right. split_and!; try done.
          destruct Ha as [?|[[j Ha]|Ha]]; [done| |by right; right]. apply lookup_insert_Some in Ha as [[_ ?]|[_ Ha]]; [congruence|].
          right. left. eauto. }
        destruct Hcase as [->|[->|(N1 & N2 & Ho)]].
        -- split; [by apply A; left|]. unfold k3. apply good_set32; try done. lia.
        -- split; [done|]. exists zeros. split_and!; [done|apply length_replicate|].
           apply Forall_replicate. unfold is_byte. lia.
        -- destruct (as_owned _ _ _ _ _ A a Ho) as [? Hg]. split; [done|]. eapply good_page_ext; [|exact Hg]. by apply Hout.
      * intros j u Hj. apply lookup_insert_Some in Hj as [[<- <-]|[_ Hj]]; [done|by eapply A].
      * intros j j' u Hj Hj'. apply lookup_insert_Some in Hj as [[<- <-]|[N Hj]]; apply lookup_insert_Some in Hj' as [[<- H']|[N' Hj']]; try done.
        -- exfalso. apply Ht. right. left. eauto.
        -- exfalso. apply Ht. right. left. subst u. eauto.
        -- by eapply (as_table_inj _ _ _ _ _ A).
      * apply A.
      * apply A.
      * intros j u v f Hj Hu. apply lookup_insert_Some in Hj as [[<- <-]|[_ Hj]]; [|by eapply (as_apart _ _ _ _ _ A)].
        apply Ht. right. right. eauto.
      * intros j Hj. rewrite (page_lookup k3 pgdir (set32 b (Z.to_nat i) (V2P t + 7))) by (unfold k3; apply pages_set_eq).
        destruct (decide (j = i)) as [->|N].
        -- rewrite lookup_insert_eq. apply get_set32_eq; [rewrite Hbl; unfold PGSIZE; lia|lia].
        -- rewrite lookup_insert_ne by done. rewrite get_set32_ne by (rewrite ?Hbl; unfold PGSIZE; lia).
           rewrite <- (page_lookup k pgdir b Hb). by apply A.
      * intros v Hv. rewrite <- (as_entry _ _ _ _ _ A v Hv). unfold entry. destruct (decide (v / 1024 = i)) as [->|N].
        -- rewrite lookup_insert_eq, E. rewrite (page_lookup k3 t zeros Ht3). apply get32_replicate.
        -- rewrite lookup_insert_ne by done. destruct (T !! (v / 1024)) as [u|] eqn:Eu; [|done].
           rewrite (page_ext k k3); [done|]. apply Hout; [by destruct (table_owned _ _ Eu) as (_ & _ & ?)|].
           intros ->. apply Ht. right. left. eauto.
    + eapply free_pages_ext; [| |exact Hf1]; [|done]. intros a Ha. rewrite Hp1. apply Hout.
      * intros ->. apply (Hap pgdir); [by right|by left].
      * intros ->. done.
    + intros a Ha Ho. assert (a <> t) by (intros ->; done). apply (Hap a); [by right|].
      destruct Ho as [?|[[j Ho]|?]]; [by left| |by right; right].
      apply lookup_insert_Some in Ho as [[_ ?]|[_ Ho]]; [congruence|]. right. left. eauto.
  - intros w Hw. apply Hout; tauto.
Qed.
End space.

(** ** Entries *)

Lemma page_index v : 0 <= v < 2 ^ 20 -> 0 <= v * 4096 < 2 ^ 32 /\ PDX (v * 4096) = v / 1024 /\ PTX (v * 4096) = v mod 1024.
Proof. intros Hv. split; [lia|]. rewrite PDX_spec, PTX_spec by lia. lia. Qed.

(** The page directory and the page tables. *)
Definition tabs (pgdir : Z) (T : gmap Z Z) (a : Z) : Prop := a = pgdir \/ exists i, T !! i = Some a.

(** What is neither free nor in an address space stays so. *)
Definition conserves (pgdir : Z) (T : gmap Z Z) (U : gmap Z (Z * Z)) (l : list Z) (T' : gmap Z Z) (U' : gmap Z (Z * Z)) (l' : list Z) : Prop :=
  forall a, (owned pgdir T' U' a \/ a ∈ l') <-> (owned pgdir T U a \/ a ∈ l).

Lemma only_weaken (X Y : Z -> Prop) k k' : (forall a, X a -> Y a) -> only X k k' -> only Y k k'.
Proof. intros H Ho w Hw. apply Ho. auto. Qed.

Lemma only_trans X k1 k2 k3 : only X k1 k2 -> only X k2 k3 -> only X k1 k3.
Proof. intros H1 H2 w Hw. by rewrite H2, H1. Qed.

(** The address of the entry of [v], with a page table for it. *)
Lemma walk_page k pgdir T U K l v :
  vm_ok k pgdir T U K l -> 0 <= v < 2 ^ 20 ->
  (walkpgdir pgdir (v * 4096) true k = Ret 0 k /\ l = [] /\ T !! (v / 1024) = None) \/
  exists t T' l' k', walkpgdir pgdir (v * 4096) true k = Ret (t + 4 * (v mod 1024)) k' /\ t <> 0 /\
    vm_ok k' pgdir T' U K l' /\ T' !! (v / 1024) = Some t /\ T ⊆ T' /\
    conserves pgdir T U l T' U l' /\ only (tabs pgdir T') k k'.
Proof.
  intros V Hv. destruct (page_index v Hv) as (Hva & Ed & Et).
  destruct (T !! (v / 1024)) as [t|] eqn:E.
  - right. exists t, T, l, k. rewrite <- Ed in E. rewrite (walk_found k pgdir T U K l V _ true t Hva E), Et.
    rewrite Ed in E. destruct (table_owned k pgdir T U K l V _ _ E) as (Htv & _). destruct (valid_page_V2P t Htv) as (_ & Hr & _).
    split_and!; try done. unfold KERNBASE in Hr. lia.
  - rewrite <- Ed in E. destruct l as [|t l'].
    + left. split_and!; [|done|done]. by apply (walk_full k pgdir T U K []).
    + right. destruct (walk_alloc k pgdir T U K (t :: l') V _ t l' Hva E eq_refl) as (k' & Ew & V' & Ho).
      exists t, (<[PDX (v * 4096) := t]> T), l', k'. rewrite Ew, Et.
      assert (Htv : valid_page kend t) by (destruct V as [_ (_ & _ & Hval) _]; by apply Forall_cons in Hval as [? _]).
      destruct (valid_page_V2P t Htv) as (_ & Hr & _).
      split_and!; try done.
      * unfold KERNBASE in Hr. lia.
      * rewrite Ed. by rewrite lookup_insert_eq.
      * by apply insert_subseteq.
      * intros a. unfold owned. rewrite elem_of_cons. split.
        -- intros [[?|[[i Hi]|?]]|?]; try tauto. apply lookup_insert_Some in Hi as [[_ ?]|[_ Hi]]; [auto|]. left. right. left. eauto.
        -- intros [[?|[[i Hi]|?]]|[->|?]]; try tauto.
           ++ left. right. left. exists i. rewrite lookup_insert_ne; [done|]. congruence.
           ++ left. right. left. exists (PDX (v * 4096)). by rewrite lookup_insert_eq.
      * eapply only_weaken; [|exact Ho]. intros a [->| ->]; [by left|right]. exists (PDX (v * 4096)). by rewrite lookup_insert_eq.
Qed.

(** Writing an entry. *)
Lemma set_entry k pgdir T U K l U' K' v t e :
  vm_ok k pgdir T U K l -> 0 <= v < 2 ^ 20 -> T !! (v / 1024) = Some t -> 0 <= e < 2 ^ 32 ->
  (forall w, 0 <= w < 2 ^ 20 -> expected U' K' w = if decide (w = v) then e else expected U K w) ->
  (forall w p f, U' !! w = Some (p, f) -> U !! w <> Some (p, f) ->
     0 <= w < UPAGES /\ 0 <= f < 4096 /\ f mod 2 = 1 /\ valid_page kend p /\ good_page k p /\ p ∉ l /\ ~ tabs pgdir T p) ->
  (forall w w' p f g, U' !! w = Some (p, f) -> U' !! w' = Some (p, g) -> w = w') ->
  exists k', st32 (t + 4 * (v mod 1024)) e k = Ret tt k' /\ vm_ok k' pgdir T U' K' l /\ only (tabs pgdir T) k k'.
Proof.
  intros V Hv Et He Hexp HU Hinj. destruct (table_owned k pgdir T U K l V _ _ Et) as (Htv & (b & Hb & Hbl & Hbb) & Htp).
  destruct (valid_page_V2P t Htv) as (Htm & _). set (i := v mod 1024). assert (Hi : 0 <= i < 1024) by (unfold i; lia).
  set (k' := set_page t (set32 b (Z.to_nat i) e) k). exists k'.
  pose proof V as [A Hf Hap].
  assert (Hout : forall w, w <> t -> pages k' !! w = pages k !! w) by (intros; unfold k'; by rewrite pages_set_ne).
  assert (HUall : forall w p f, U' !! w = Some (p, f) ->
     0 <= w < UPAGES /\ 0 <= f < 4096 /\ f mod 2 = 1 /\ valid_page kend p /\ good_page k p /\ p ∉ l /\ ~ tabs pgdir T p).
  { intros w p f E'. destruct (decide (U !! w = Some (p, f))) as [E|N]; [|by apply HU].
    destruct (as_user _ _ _ _ _ A w p f E) as (? & ? & ? & ?).
    destruct (as_owned _ _ _ _ _ A p) as [? ?]; [right; right; eauto|]. split_and!; try done; try lia.
    - intros Hl. apply (Hap p Hl). right. right. eauto.
    - intros [?|[j Hj]]; [done|]. by eapply (as_apart _ _ _ _ _ A). }
  split_and!.
  - unfold st32, modify. destruct (pg_word t i Htm Hi) as [-> ->]. rewrite (page_lookup k t b Hb), u32_small by done. done.
  - split.
    + split; try apply A.
      * intros a Ha. destruct (decide (a = t)) as [->|N]; [split; [done|unfold k'; apply good_set32; (done || lia)]|].
        assert (Hg : valid_page kend a /\ good_page k a).
        { destruct Ha as [->|[[j Hj]|(w & f & Hw)]]; [apply A; by left|apply A; right; left; eauto|].
          destruct (HUall w a f Hw) as (_ & _ & _ & ? & ? & _). done. }
        split; [apply Hg|]. eapply good_page_ext; [|apply Hg]. by apply Hout.
      * intros w p f E. destruct (HUall w p f E) as (? & ? & ? & ? & ? & ? & Hn). split_and!; try done; try lia. intros ->. apply Hn. by left.
      * exact Hinj.
      * intros j u w f Hj Hu. destruct (HUall w u f Hu) as (_ & _ & _ & _ & _ & _ & Hn). apply Hn. right. eauto.
      * intros j Hj. rewrite (page_ext k k'); [by apply A|]. by apply Hout.
      * intros w Hw. rewrite Hexp by done. unfold entry. destruct (decide (w = v)) as [->|N].
        -- rewrite Et, (page_lookup k' t _ (pages_set_eq k t _)). apply get_set32_eq; [rewrite Hbl; unfold PGSIZE; lia|done].
        -- rewrite <- (as_entry _ _ _ _ _ A w Hw). unfold entry. destruct (T !! (w / 1024)) as [u|] eqn:Eu; [|done].
           destruct (decide (u = t)) as [->|Nu].
           ++ assert (w / 1024 = v / 1024) by (by eapply (as_table_inj _ _ _ _ _ A)).
              rewrite (page_lookup k' t _ (pages_set_eq k t _)), (page_lookup k t b Hb).
              apply get_set32_ne; [rewrite Hbl; unfold PGSIZE; lia|]. unfold i. lia.
           ++ rewrite (page_ext k k'); [done|]. by apply Hout.
    + eapply free_pages_ext; [| |exact Hf]; [|done]. intros a Ha. apply Hout. intros ->. apply (Hap t Ha). right. left. eauto.
    + intros a Ha [->|[[j Hj]|(w & f & Hw)]].
      * apply (Hap pgdir Ha). by left.
      * apply (Hap a Ha). right. left. eauto.
      * by destruct (HUall w a f Hw) as (_ & _ & _ & _ & _ & Hn & _).
  - intros w Hw. apply Hout. intros ->. apply Hw. right. eauto.
Qed.

(** The entry that was there. *)
Lemma load_entry k pgdir T U K l v t :
  vm_ok k pgdir T U K l -> 0 <= v < 2 ^ 20 -> T !! (v / 1024) = Some t ->
  ld32 k (t + 4 * (v mod 1024)) = expected U K v.
Proof.
  intros V Hv Et. destruct (table_owned k pgdir T U K l V _ _ Et) as (Htv & _).
  destruct (valid_page_V2P t Htv) as (Htm & _). rewrite ld32_word by lia.
  rewrite <- (as_entry _ _ _ _ _ (vo_space _ _ _ _ _ _ V) v Hv). unfold entry. by rewrite Et.
Qed.

(** ** [mappages] of one user page *)

Lemma mappages_one pgdir v pa perm : 0 <= v < 2 ^ 20 ->
  mappages pgdir (v * 4096) PGSIZE pa perm = mappages_loop 1 pgdir (v * 4096) (v * 4096) pa perm.
Proof.
  intros Hv. unfold mappages, PGSIZE. rewrite (u32_small (v * 4096 + 4096 - 1)) by lia.
  rewrite !PGROUNDDOWN_spec by lia.
  replace (v * 4096 - (v * 4096) mod 4096) with (v * 4096) by lia.
  replace (v * 4096 + 4096 - 1 - (v * 4096 + 4096 - 1) mod 4096) with (v * 4096) by lia.
  rewrite Z.sub_diag. done.
Qed.

Lemma map_user k pgdir T U K l v mem perm :
  vm_ok k pgdir T U K l -> 0 <= v < UPAGES -> U !! v = None ->
  valid_page kend mem -> good_page k mem -> mem ∉ l -> ~ owned pgdir T U mem -> 0 <= perm < 4096 ->
  (mappages pgdir (v * 4096) PGSIZE (V2P mem) perm k = Ret (-1) k /\ l = []) \/
  exists k' T' l', mappages pgdir (v * 4096) PGSIZE (V2P mem) perm k = Ret 0 k' /\
    vm_ok k' pgdir T' (<[v := (mem, Z.lor perm 1)]> U) K l' /\ T ⊆ T' /\
    conserves pgdir T U l T' U l' /\ only (tabs pgdir T') k k'.
Proof.
  intros V Hv Eu Hmv Hmg Hml Hmo Hperm. assert (Hv20 : 0 <= v < 2 ^ 20) by (unfold UPAGES, KERNBASE, PGSIZE in Hv; lia).
  rewrite mappages_one by done. cbn [mappages_loop].
  assert (Hfl : 0 <= Z.lor perm 1 < 4096 /\ Z.lor perm 1 mod 2 = 1).
  { split.
    - split; [apply Z.lor_nonneg; lia|]. destruct (decide (perm = 0)) as [->|Hp0]; [done|].
      apply Z.log2_lt_pow2 with (b := 12); [|rewrite Z.log2_lor by lia; change (Z.log2 1) with 0].
      + destruct (Z.lor_nonneg perm 1) as [_ Hn]. specialize (Hn ltac:(lia)). destruct (decide (Z.lor perm 1 = 0)) as [E|]; [|lia].
        apply Z.lor_eq_0_iff in E. lia.
      + apply Z.max_lub_lt; [|lia]. apply Z.log2_lt_pow2; lia.
    - change 2 with (2 ^ 1) at 1. rewrite <- Z.land_ones by lia. rewrite Z.land_lor_distr_l. change (Z.ones 1) with 1.
      rewrite Z.land_diag. change 1 with (Z.ones 1) at 1. rewrite Z.land_ones by lia. change (2 ^ 1) with 2.
      assert (perm mod 2 = 0 \/ perm mod 2 = 1) as [-> | ->] by lia; done. }
  destruct (valid_page_V2P mem Hmv) as (_ & _ & _ & Hv2 & Hvm & _). unfold PHYSTOP in Hv2.
  destruct (walk_page k pgdir T U K l v V Hv20) as [(Ew & El & _)|(t & T' & l' & k1 & Ew & Ht0 & V1 & Et & HTT & Hcons & Ho)];
    rewrite (bind_Ret _ _ _ _ _ Ew).
  - by left.
  - right. destruct (table_owned k1 pgdir T' U K l' V1 _ _ Et) as (Htv & _). destruct (valid_page_V2P t Htv) as (_ & Htr & _).
    rewrite (proj2 (Z.eqb_neq (t + 4 * (v mod 1024)) 0)) by (unfold KERNBASE in Htr; lia).
    rewrite gets_bind, (load_entry k1 pgdir T' U K l' v t V1 Hv20 Et).
    assert (Ex : expected U K v = 0) by (unfold expected; rewrite (proj2 (Z.ltb_lt v UPAGES)) by lia; by rewrite Eu).
    rewrite Ex. change (present 0) with false. cbv iota.
    assert (Hmt : ~ tabs pgdir T' mem /\ mem ∉ l').
    { assert (Hno : ~ (owned pgdir T' U mem \/ mem ∈ l')) by (rewrite (Hcons mem); intros [?|?]; done).
      split; [|intros ?; apply Hno; by right]. intros [?|?]; apply Hno; left; [by left|by right; left]. }
    destruct Hmt as [Hmt Hml'].
    destruct (set_entry k1 pgdir T' U K l' (<[v := (mem, Z.lor perm 1)]> U) K v t (V2P mem + Z.lor perm 1) V1 Hv20 Et) as (k2 & Es & V2 & Ho2).
    + lia.
    + intros w Hw. unfold expected. destruct (decide (w = v)) as [->|N].
      * rewrite (proj2 (Z.ltb_lt v UPAGES)) by lia. by rewrite lookup_insert_eq.
      * by rewrite lookup_insert_ne.
    + intros w p f E N. apply lookup_insert_Some in E as [[<- [= <- <-]]|[_ ?]]; [|done].
      split_and!; try done; try lia. eapply good_page_ext; [|exact Hmg]. by apply Ho.
    + intros w w' p f g E E'. apply lookup_insert_Some in E as [[<- [= <- <-]]|[N E]]; apply lookup_insert_Some in E' as [[<- E']|[N' E']].
      * done.
      * exfalso. apply Hmo. right. right. eauto.
      * exfalso. injection E' as <- _. apply Hmo. right. right. eauto.
      * eapply (as_user_inj _ _ _ _ _ (vo_space _ _ _ _ _ _ V)); eauto.
    + exists k2, T', l'. split_and!; try done.
      * unfold PTE_P. rewrite <- Z.lor_assoc. rewrite (lor_low (V2P mem)) by (done || lia). rewrite (bind_Ret _ _ _ _ _ Es). by rewrite Z.eqb_refl.
      * by eapply only_trans.
Qed.

End vm.
