(* ===== verification/VmUser.v ===== *)
(** * Growing and shrinking user memory ([deallocuvm] and [allocuvm] of
    [kernel/vm.c]) *)

From S2P Require Import Prelude Params Kalloc Vm.
Local Open Scope Z_scope.
Local Open Scope kmonad_scope.

Section user_memory.
Context (kend : Z) (Hkend : KERNBASE < kend).
Local Abbreviation vm_ok := (vm_ok kend).
Local Abbreviation aspace := (aspace kend).

(** ** Freeing a page *)

Definition kfreed (v : Z) (k : kmem) : kmem :=
  Kmem (use_lock k) v (<[v := set32 (replicate (Z.to_nat PGSIZE) 1) 0 (freelist k)]> (pages k)).

Lemma kfree_eq v k : valid_page kend v -> kfree kend v k = Ret tt (kfreed v k).
Proof.
  intros (Hr & Hal & Hend & Hphys). unfold kfree.
  replace (negb (v mod PGSIZE =? 0) || (v <? kend) || (PHYSTOP <=? V2P v)) with false by plia.
  rewrite !modify_bind, gets_bind. rewrite modify_bind. unfold modify. f_equal.
  rewrite page_set_page. unfold kfreed, set_freelist, set_page. cbn. by rewrite insert_insert_eq.
Qed.

Lemma kfreed_free v k l : free_pages kend k l -> valid_page kend v -> v ∉ l -> free_pages kend (kfreed v k) (v :: l).
Proof.
  intros Hf Hv Hn. pose proof (kfree_free kend k l v Hf Hv Hn) as H. unfold wp in H. rewrite (kfree_eq v k Hv) in H. apply H.
Qed.

Lemma kfreed_pages v k w : w <> v -> pages (kfreed v k) !! w = pages k !! w.
Proof. intros H. unfold kfreed. cbn. by rewrite lookup_insert_ne. Qed.

(** A page that has left the address space is freed. *)
Lemma kfreed_ok k pgdir T U K l p : vm_ok k pgdir T U K l -> valid_page kend p -> p ∉ l -> ~ owned pgdir T U p ->
  vm_ok (kfreed p k) pgdir T U K (p :: l).
Proof.
  intros [A Hf Hap] Hv Hl Ho. split.
  - eapply aspace_frame; [|exact A]. intros a Ha. apply kfreed_pages. intros ->. done.
  - by apply kfreed_free.
  - intros a Ha. apply elem_of_cons in Ha as [->|Ha]; [done|by apply Hap].
Qed.

(** [kfree] of a page and a write to another page can be swapped. *)
Lemma kfree_st32 p t i e k : valid_page kend p -> t mod 4096 = 0 -> 0 <= i < 1024 -> p <> t ->
  (kfree kend p;; st32 (t + 4 * i) e) k = (st32 (t + 4 * i) e;; kfree kend p) k.
Proof.
  intros Hp Ht Hi Hne. rewrite (bind_Ret _ _ _ _ _ (kfree_eq p k Hp)). unfold st32 at 2. rewrite modify_bind, kfree_eq by done.
  unfold st32, modify. destruct (pg_word t i Ht Hi) as [-> ->]. f_equal.
  rewrite (page_ext k (kfreed p k)) by (by apply kfreed_pages).
  unfold kfreed, set_page. cbn. f_equal. by rewrite insert_insert_ne.
Qed.

(** ** [deallocuvm] *)

(** The address space without the pages from [v] to [n]. *)
Definition cut (v n : Z) (U : gmap Z (Z * Z)) : gmap Z (Z * Z) := filter (fun x => ~ (v <= x.1 < n)) U.

Lemma lookup_cut v n U w x : cut v n U !! w = Some x <-> U !! w = Some x /\ ~ (v <= w < n).
Proof. unfold cut. by rewrite map_lookup_filter_Some. Qed.

Lemma cut_none v n U : (forall w, v <= w < n -> U !! w = None) -> cut v n U = U.
Proof.
  intros H. apply map_filter_id. intros w x E. cbn. intros Hw. by rewrite H in E.
Qed.

Lemma cut_step v v' n U : v <= v' -> (forall w, v <= w < v' -> w < n -> U !! w = None) -> cut v n U = cut v' n U.
Proof.
  intros Hv H. apply map_eq. intros w. apply option_eq. intros x. rewrite !lookup_cut. split; intros [E Hw]; (split; [done|]).
  - lia.
  - intros Hw'. destruct (decide (w < v')); [|lia]. by rewrite H in E by lia.
Qed.

Lemma cut_delete v n U : v < n -> cut v n U = cut (v + 1) n (delete v U).
Proof.
  intros Hv. apply map_eq. intros w. apply option_eq. intros x. rewrite !lookup_cut, lookup_delete_Some.
  split; [intros [E Hw]|intros [[Hne E] Hw]]; split_and!; try done; lia.
Qed.

Definition freed_range (v n : Z) (U : gmap Z (Z * Z)) (a : Z) : Prop := exists w f, v <= w < n /\ U !! w = Some (a, f).

(** The page of an entry leaves the address space. *)
Lemma unmap k pgdir T U K l v p f t :
  vm_ok k pgdir T U K l -> U !! v = Some (p, f) -> T !! (v / 1024) = Some t ->
  exists k', (kfree kend p;; st32 (t + 4 * (v mod 1024)) 0) k = Ret tt k' /\
    vm_ok k' pgdir T (delete v U) K (p :: l) /\ only (fun w => tabs pgdir T w \/ w = p) k k'.
Proof.
  intros V Eu Et. pose proof V as [A Hf Hap].
  destruct (as_user _ _ _ _ _ _ A v p f Eu) as (Hv & Hpp & Hf1 & Hf2).
  assert (Hv20 : 0 <= v < 2 ^ 20) by (unfold UPAGES, KERNBASE, PGSIZE in Hv; lia).
  destruct (table_owned kend k pgdir T U K l V _ _ Et) as (Htv & _). destruct (valid_page_V2P kend Hkend t Htv) as (Htm & _).
  destruct (as_owned _ _ _ _ _ _ A p) as [Hpv _]; [right; right; eauto|].
  rewrite kfree_st32; [|done|done|lia|]. 2: { intros ->. by eapply (as_apart _ _ _ _ _ _ A). }
  destruct (set_entry kend Hkend k pgdir T U K l (delete v U) K v t 0 V Hv20 Et) as (k1 & Es & V1 & Ho).
  - lia.
  - intros w Hw. unfold expected. destruct (decide (w = v)) as [->|N].
    + rewrite (proj2 (Z.ltb_lt v UPAGES)) by lia. by rewrite lookup_delete_eq.
    + by rewrite lookup_delete_ne.
  - intros w q g E N. apply lookup_delete_Some in E as [_ E]. done.
  - intros w w' q g h E E'. apply lookup_delete_Some in E as [_ E]. apply lookup_delete_Some in E' as [_ E'].
    by eapply (as_user_inj _ _ _ _ _ _ A).
  - exists (kfreed p k1). rewrite (bind_Ret _ _ _ _ _ Es). split_and!; [by apply kfree_eq| |].
    + apply kfreed_ok; try done.
      * intros Hl. apply (Hap p Hl). right. right. eauto.
      * intros [->|[[i Hi]|(w & g & Hw)]]; [done|by eapply (as_apart _ _ _ _ _ _ A)|].
        apply lookup_delete_Some in Hw as [Hne Hw]. apply Hne. by eapply (as_user_inj _ _ _ _ _ _ A).
    + intros w Hw. rewrite kfreed_pages by tauto. apply Ho. tauto.
Qed.

Lemma expected_none U K v : 0 <= v < UPAGES -> (forall v p f, U !! v = Some (p, f) -> valid_page kend p /\ 0 <= f) ->
  expected U K v = 0 -> U !! v = None.
Proof.
  intros Hv HU E. unfold expected in E. rewrite (proj2 (Z.ltb_lt v UPAGES)) in E by lia.
  destruct (U !! v) as [[p f]|] eqn:Eu; [|done]. destruct (HU _ _ _ Eu) as [Hp Hf].
  destruct (valid_page_V2P kend Hkend p Hp) as (_ & _ & _ & H & _). lia.
Qed.

Lemma deallocuvm_loop_spec fuel : forall k pgdir T U K l v n oldsz,
  vm_ok k pgdir T U K l -> 0 <= v -> (n - v <= Z.of_nat fuel) -> n <= UPAGES -> n = (oldsz + 4095) / 4096 -> v <= 2 ^ 19 ->
  exists k' l', deallocuvm_loop kend fuel pgdir (v * 4096) oldsz k = Ret tt k' /\
    vm_ok k' pgdir T (cut v n U) K l' /\
    (forall a, a ∈ l' <-> a ∈ l \/ freed_range v n U a) /\
    only (fun w => tabs pgdir T w \/ freed_range v n U w) k k'.
Proof.
  induction fuel as [|fuel IH]; intros k pgdir T U K l v n oldsz V Hv Hfuel Hn En Hv19.
  { exists k, l. rewrite cut_none by (intros; lia). split_and!; try done. intros a. split; [tauto|].
    intros [?|(w & f & Hw & _)]; [done|lia]. }
  cbn [deallocuvm_loop]. destruct (Z.ltb_spec (v * 4096) oldsz) as [Hlt|Hge].
  2: { exists k, l. rewrite cut_none by (intros; lia). split_and!; try done. intros a. split; [tauto|].
       intros [?|(w & f & Hw & _)]; [done|lia]. }
  assert (Hup : UPAGES = 2 ^ 19) by done.
  assert (Hvn : v < n) by lia. assert (HU : 0 <= v < UPAGES) by lia. pose proof V as [A Hf Hap].
  assert (Hv20 : 0 <= v < 2 ^ 20) by (unfold UPAGES, KERNBASE, PGSIZE in HU; lia).
  destruct (page_index v Hv20) as (Hva & Ed & Ep).
  destruct (T !! (v / 1024)) as [t|] eqn:Et.
  - rewrite <- Ed in Et. rewrite (bind_Ret _ _ _ _ _ (walk_found kend Hkend k pgdir T U K l V _ false t Hva Et)). rewrite Ep.
    rewrite Ed in Et. destruct (table_owned kend k pgdir T U K l V _ _ Et) as (Htv & _). destruct (valid_page_V2P kend Hkend t Htv) as (_ & Htr & _).
    rewrite (proj2 (Z.eqb_neq (t + 4 * (v mod 1024)) 0)) by (unfold KERNBASE in Htr; lia).
    rewrite gets_bind, (load_entry kend Hkend k pgdir T U K l v t V Hv20 Et).
    unfold PGSIZE. rewrite (u32_small (v * 4096 + 4096)) by (unfold UPAGES, KERNBASE, PGSIZE in HU; lia).
    replace (v * 4096 + 4096) with ((v + 1) * 4096) by lia.
    destruct (U !! v) as [[p f]|] eqn:Eu.
    + destruct (as_user _ _ _ _ _ _ A v p f Eu) as (_ & _ & Hf1 & Hf2).
      destruct (as_owned _ _ _ _ _ _ A p) as [Hpv _]; [right; right; eauto|].
      unfold expected. rewrite (proj2 (Z.ltb_lt v UPAGES)) by lia. rewrite Eu.
      destruct (entry_parts kend Hkend p f Hpv Hf1) as (-> & _ & -> & _). rewrite Hf2. cbn [Z.eqb Pos.eqb when].
      destruct (valid_page_V2P kend Hkend p Hpv) as (_ & _ & _ & Hp0 & _ & ->).
      rewrite (proj2 (Z.eqb_neq (V2P p) 0)) by lia.
      destruct (unmap k pgdir T U K l v p f t V Eu Et) as (k1 & E1 & V1 & Ho1).
      rewrite (bind_Ret _ _ _ _ _ E1).
      destruct (IH k1 pgdir T (delete v U) K (p :: l) (v + 1) n oldsz V1) as (k2 & l2 & E2 & V2 & Hl2 & Ho2); try lia.
      assert (Hfr : forall a, freed_range (v + 1) n (delete v U) a \/ a = p <-> freed_range v n U a).
      { intros a. split.
        - intros [(w & g & Hw & E)| ->]; [|by exists v, f]. apply lookup_delete_Some in E as [_ E]. exists w, g. split; [lia|done].
        - intros (w & g & Hw & E). destruct (decide (w = v)) as [->|N]; [right; congruence|].
          left. exists w, g. split; [lia|]. by rewrite lookup_delete_ne. }
      exists k2, l2. rewrite (cut_delete v n U) by done. split_and!; try done.
      * intros a. rewrite Hl2, elem_of_cons, <- Hfr. tauto.
      * eapply only_trans.
        -- eapply only_weaken; [|exact Ho1]. intros a [?| ->]; [by left|right]. apply Hfr. by right.
        -- eapply only_weaken; [|exact Ho2]. intros a [?|?]; [by left|right]. apply Hfr. by left.
    + assert (Ex : expected U K v = 0) by (unfold expected; rewrite (proj2 (Z.ltb_lt v UPAGES)) by lia; by rewrite Eu).
      rewrite Ex. change (present 0) with false. cbn [when]. rewrite ret_bind.
      destruct (IH k pgdir T U K l (v + 1) n oldsz V) as (k2 & l2 & E2 & V2 & Hl2 & Ho2); try lia.
      assert (Hfr : forall a, freed_range (v + 1) n U a <-> freed_range v n U a).
      { intros a. split; intros (w & g & Hw & E); exists w, g; (split; [|done]); [lia|].
        destruct (decide (w = v)) as [->|N]; [congruence|lia]. }
      exists k2, l2. rewrite (cut_step v (v + 1) n U) by (lia || (intros w ? _; by replace w with v by lia)).
      split_and!; try done.
      * intros a. by rewrite Hl2, Hfr.
      * eapply only_weaken; [|exact Ho2]. intros a [?|?]; [by left|right; by apply Hfr].
  - rewrite <- Ed in Et. rewrite (bind_Ret _ _ _ _ _ (walk_none kend k pgdir T U K l V _ Hva Et)). rewrite Ed in Et. cbn [Z.eqb].
    set (v' := (v / 1024 + 1) * 1024).
    assert (Hv' : v < v' <= 2 ^ 19) by (unfold v', UPAGES, KERNBASE, PGSIZE in *; lia).
    assert (Ea : u32 (u32 (PGADDR (PDX (v * 4096) + 1) 0 0 - PGSIZE) + PGSIZE) = v' * 4096).
    { unfold PGADDR, PDXSHIFT. rewrite Ed, !Z.shiftl_mul_pow2, Z.mul_0_l, !Z.lor_0_r by (unfold PTXSHIFT; lia).
      unfold u32, v', PGSIZE in *. change (2 ^ 22) with (1024 * 4096). lia. }
    rewrite Ea.
    assert (Hno : forall w, v <= w < v' -> w < n -> U !! w = None).
    { intros w Hw Hwn. apply (expected_none U K); [lia| |].
      - intros x p f E. destruct (as_user _ _ _ _ _ _ A x p f E) as (_ & _ & ? & _). split; [|lia]. apply A. right. right. eauto.
      - rewrite <- (as_entry _ _ _ _ _ _ A) by (unfold UPAGES, KERNBASE, PGSIZE in *; lia). unfold entry.
        replace (w / 1024) with (v / 1024) by (unfold v' in Hw; lia). by rewrite Et. }
    destruct (IH k pgdir T U K l v' n oldsz V) as (k2 & l2 & E2 & V2 & Hl2 & Ho2); try lia.
    assert (Hfr : forall a, freed_range v' n U a <-> freed_range v n U a).
    { intros a. split; intros (w & g & Hw & E); exists w, g; (split; [|done]); [lia|].
      destruct (decide (w < v')); [|lia]. by rewrite Hno in E by lia. }
    exists k2, l2. rewrite (cut_step v v' n U) by (lia || done). split_and!; try done.
    + intros a. by rewrite Hl2, Hfr.
    + eapply only_weaken; [|exact Ho2]. intros a [?|?]; [by left|right; by apply Hfr].
Qed.
Lemma dealloc_conserves pgdir T U l v n l' :
  (forall a, a ∈ l' <-> a ∈ l \/ freed_range v n U a) -> conserves pgdir T U l T (cut v n U) l'.
Proof.
  intros Hl a. rewrite Hl. split.
  - intros [[?|[?|(w & f & E)]]|[?|(w & f & _ & E)]]; [left; by left|left; right; by left| |by right|].
    + left. right. right. apply lookup_cut in E as [E _]. eauto.
    + left. right. right. eauto.
  - intros [[?|[?|(w & f & E)]]|?]; [left; by left|left; right; by left| |right; by left].
    destruct (decide (v <= w < n)) as [Hw|Hw].
    + right. right. by exists w, f.
    + left. right. right. exists w, f. by apply lookup_cut.
Qed.

(** Sizes in pages. *)
Definition pages_of (sz : Z) : Z := (sz + 4095) / 4096.

Lemma deallocuvm_spec k pgdir T U K l oldsz newsz :
  vm_ok k pgdir T U K l -> 0 <= newsz -> oldsz <= KERNBASE ->
  exists k' l', deallocuvm kend pgdir oldsz newsz k = Ret (if oldsz <=? newsz then oldsz else newsz) k' /\
    vm_ok k' pgdir T (cut (pages_of newsz) (pages_of oldsz) U) K l' /\
    (forall a, a ∈ l' <-> a ∈ l \/ freed_range (pages_of newsz) (pages_of oldsz) U a) /\
    only (fun w => tabs pgdir T w \/ freed_range (pages_of newsz) (pages_of oldsz) U w) k k'.
Proof.
  intros V Hn Ho. assert (Hup : UPAGES = 2 ^ 19) by done. unfold deallocuvm, KERNBASE in *. destruct (Z.leb_spec oldsz newsz) as [Hle|Hlt].
  - exists k, l. rewrite cut_none by (unfold pages_of; intros; lia). split_and!; try done.
    intros a. split; [tauto|]. intros [?|(w & f & Hw & _)]; [done|]. unfold pages_of in Hw. lia.
  - rewrite PGROUNDUP_spec by lia. fold (pages_of newsz).
    destruct (deallocuvm_loop_spec (Z.to_nat (oldsz / PGSIZE + 1)) k pgdir T U K l (pages_of newsz) (pages_of oldsz) oldsz V)
      as (k' & l' & E & R); try (unfold pages_of, PGSIZE in *; lia).
    exists k', l'. rewrite (bind_Ret _ _ _ _ _ E). done.
Qed.

(** ** [allocuvm] *)

Definition zeros : list Z := replicate (Z.to_nat PGSIZE) 0.

(** A free page, filled with [b]. *)
Lemma take_page k pgdir T U K p l b : vm_ok k pgdir T U K (p :: l) -> length b = Z.to_nat PGSIZE -> bytes b ->
  exists k1, kalloc k = Ret p k1 /\ p <> 0 /\ pages k1 = pages k /\
    let k2 := set_page p b k1 in
    vm_ok k2 pgdir T U K l /\ valid_page kend p /\ good_page k2 p /\ p ∉ l /\ ~ owned pgdir T U p /\
    only (fun w => w = p) k k2 /\ page k2 p = b.
Proof.
  intros V Hl Hb. destruct (kalloc_ret kend k pgdir T U K (p :: l) V) as (k1 & Ek & Hf1 & Hp1). pose proof V as [A Hf Hap].
  change (default 0 (head (p :: l))) with p in Ek. change (tail (p :: l)) with l in Hf1.
  assert (Hpv : valid_page kend p) by (destruct Hf as (_ & _ & Hv); by apply Forall_cons in Hv as [? _]).
  assert (Hnd : p ∉ l) by (destruct Hf as (_ & Hnd & _); by apply NoDup_cons in Hnd as [? _]).
  assert (Hno : ~ owned pgdir T U p) by (apply Hap; left).
  exists k1. split; [done|]. split; [destruct Hpv; lia|]. split; [done|]. cbv zeta.
  assert (Hout : forall w, w <> p -> pages (set_page p b k1) !! w = pages k !! w) by (intros; rewrite pages_set_ne by done; by rewrite Hp1).
  split_and!; try done.
  - split.
    + eapply aspace_frame; [|exact A]. intros a Ha. apply Hout. intros ->. done.
    + eapply free_pages_ext; [| |exact Hf1]; [|done]. intros a Ha. rewrite Hp1. apply Hout. intros ->. done.
    + intros a Ha. apply Hap. by right.
  - exists b. by rewrite pages_set_eq.
  - by apply page_lookup, pages_set_eq.
Qed.

Lemma owned_insert pgdir T U v p f a : U !! v = None ->
  owned pgdir T (<[v := (p, f)]> U) a <-> owned pgdir T U a \/ a = p.
Proof.
  intros Ev. unfold owned. split.
  - intros [?|[?|(w & g & E)]]; [tauto|tauto|]. apply lookup_insert_Some in E as [[_ [= ? _]]|[_ E]]; [by right|]. left. right. right. eauto.
  - intros [[?|[?|(w & g & E)]]| ->]; [tauto|tauto| |].
    + right. right. exists w, g. rewrite lookup_insert_ne; [done|]. congruence.
    + right. right. exists v, f. by rewrite lookup_insert_eq.
Qed.

(** [U] grown by zeroed pages from [v0] to [v]. *)
Definition grown (k : kmem) (U0 : gmap Z (Z * Z)) (v0 v : Z) (U : gmap Z (Z * Z)) : Prop :=
  (forall w, v0 <= w < v -> exists p, U !! w = Some (p, 7) /\ page k p = zeros) /\
  (forall w, ~ (v0 <= w < v) -> U !! w = U0 !! w).

Lemma cut_grown k U0 v0 v n U : grown k U0 v0 v U -> v <= n -> (forall w, v0 <= w < n -> U0 !! w = None) -> cut v0 n U = U0.
Proof.
  intros [_ Hg] Hv H0. apply map_eq. intros w. apply option_eq. intros x. rewrite lookup_cut. split.
  - intros [E Hw]. rewrite <- Hg; [done|lia].
  - intros E. destruct (decide (v0 <= w < n)) as [Hw|Hw]; [by rewrite H0 in E|]. split; [|done]. rewrite Hg; [done|lia].
Qed.

(** Taking back what was mapped. *)
Lemma rollback k pgdir T U K l U0 oldsz newsz v :
  vm_ok k pgdir T U K l -> 0 <= oldsz <= newsz -> newsz < KERNBASE ->
  grown k U0 (pages_of oldsz) v U -> v <= pages_of newsz -> (forall w, pages_of oldsz <= w < pages_of newsz -> U0 !! w = None) ->
  exists r k' l', deallocuvm kend pgdir newsz oldsz k = Ret r k' /\ vm_ok k' pgdir T U0 K l' /\
    conserves pgdir T U l T U0 l' /\ only (fun w => tabs pgdir T w \/ freed_range (pages_of oldsz) v U w) k k'.
Proof.
  intros V Ho Hn Hg Hv H0. destruct (deallocuvm_spec k pgdir T U K l newsz oldsz V ltac:(lia) ltac:(lia)) as (k' & l' & E & V' & Hl & Honly).
  pose proof (dealloc_conserves pgdir T U l _ _ _ Hl) as Hcons.
  rewrite (cut_grown k U0 (pages_of oldsz) v (pages_of newsz) U Hg Hv H0) in V', Hcons.
  eexists _, k', l'. split_and!; try done. eapply only_weaken; [|exact Honly].
  intros a [?|(w & f & Hw & E')]; [by left|right]. exists w, f. split; [|done].
  destruct (decide (v <= w)); [|lia]. destruct Hg as [_ Hg]. rewrite Hg, H0 in E' by lia. done.
Qed.

Lemma conserves_trans pgdir T U l T1 U1 l1 T2 U2 l2 :
  conserves pgdir T U l T1 U1 l1 -> conserves pgdir T1 U1 l1 T2 U2 l2 -> conserves pgdir T U l T2 U2 l2.
Proof. intros H1 H2 a. etrans; [apply H2|apply H1]. Qed.

(** All free pages, but at most one, have gone into tables and into the user
    pages from [v0] to [v]. *)
Definition used_up (pgdir : Z) (T : gmap Z Z) (U : gmap Z (Z * Z)) (l : list Z) (U0 : gmap Z (Z * Z)) (v0 v : Z) : Prop :=
  exists T1 U1 l1, (length l1 <= 1)%nat /\ (forall i t, T1 !! i = Some t -> 0 <= i < 1024) /\
    (forall w, ~ (v0 <= w < v) -> U1 !! w = U0 !! w) /\ conserves pgdir T U l T1 U1 l1.

Lemma used_up_here k pgdir T U K l U0 v0 v v' : vm_ok k pgdir T U K l -> (length l <= 1)%nat -> grown k U0 v0 v U -> v <= v' -> used_up pgdir T U l U0 v0 v'.
Proof.
  intros V Hl [_ G] Hv. exists T, U, l. split_and!; try done.
  - intros i t Hi. by apply (as_table _ _ _ _ _ _ (vo_space _ _ _ _ _ _ _ V)) in Hi as [? _].
  - intros w Hw. apply G. lia.
Qed.

Lemma size_indices (T : gmap Z Z) : (forall i t, T !! i = Some t -> 0 <= i < 1024) -> (size T <= 1024)%nat.
Proof.
  intros HT. rewrite <- size_dom. transitivity (size (list_to_set (seqZ 0 1024) : gset Z)).
  - apply subseteq_size. intros i [t Hi]%elem_of_dom. apply HT in Hi. apply elem_of_list_to_set, elem_of_seqZ. lia.
  - rewrite size_list_to_set by apply NoDup_seqZ. by rewrite length_seqZ.
Qed.

Lemma length_omap_le {A B} (f : A -> option B) l : (length (omap f l) <= length l)%nat.
Proof. induction l as [|x l IH]; [done|]. cbn. destruct (f x); cbn; lia. Qed.

Lemma used_up_length k pgdir T U K l v0 v : vm_ok k pgdir T U K l -> v0 <= v -> used_up pgdir T U l U v0 v -> Z.of_nat (length l) <= 1025 + (v - v0).
Proof.
  intros [A (_ & Hnd & _) Hap] Hv (T1 & U1 & l1 & Hl1 & HT & HU & Hc). apply size_indices in HT.
  assert (Hle : (length l <= length ((map_to_list T1).*2 ++ omap (fun w => fst <$> U1 !! w) (seqZ v0 (v - v0)) ++ l1))%nat).
  { apply submseteq_length, NoDup_submseteq; [done|]. intros a Ha. rewrite !elem_of_app. pose proof (Hap a Ha) as Hno.
    destruct (proj2 (Hc a) (or_intror Ha)) as [[->|[[i Hi]|(w & f & Hw)]]|?]; [by destruct Hno; left| | |tauto].
    - left. apply list_elem_of_fmap. exists (i, a). split; [done|]. by apply elem_of_map_to_list.
    - right. left. destruct (decide (v0 <= w < v)) as [Hr|Hr]; [|destruct Hno; right; right; exists w, f; by rewrite <- HU].
      apply list_elem_of_omap. exists w. rewrite elem_of_seqZ, Hw. split; [lia|done]. }
  rewrite !length_app, length_fmap, length_map_to_list in Hle. pose proof (length_omap_le (fun w => fst <$> U1 !! w) (seqZ v0 (v - v0))) as Ho.
  rewrite length_seqZ in Ho. lia.
Qed.

Lemma allocuvm_loop_spec pgdir K U0 oldsz newsz : 0 <= oldsz <= newsz -> newsz < KERNBASE ->
  (forall w, pages_of oldsz <= w < pages_of newsz -> U0 !! w = None) ->
  forall fuel k T U l v, vm_ok k pgdir T U K l -> pages_of oldsz <= v -> (pages_of newsz - v <= Z.of_nat fuel) ->
  (v = pages_of oldsz \/ v <= pages_of newsz) ->
  grown k U0 (pages_of oldsz) v U ->
  exists r k' T' U' l', allocuvm_loop kend fuel pgdir (v * 4096) oldsz newsz k = Ret r k' /\
    vm_ok k' pgdir T' U' K l' /\ T ⊆ T' /\ conserves pgdir T U l T' U' l' /\
    only (fun w => tabs pgdir T' w \/ w ∈ l \/ freed_range (pages_of oldsz) v U w) k k' /\
    ((r = newsz /\ grown k' U0 (pages_of oldsz) (pages_of newsz) U') \/
     (r = 0 /\ U' = U0 /\ used_up pgdir T U l U0 (pages_of oldsz) (pages_of newsz))).
Proof.
  intros Hsz Hnew H0. assert (Hup : UPAGES = 2 ^ 19) by done. unfold KERNBASE in Hnew.
  assert (Hend : forall k T U l v, vm_ok k pgdir T U K l -> ~ v < pages_of newsz -> (v = pages_of oldsz \/ v <= pages_of newsz) ->
    grown k U0 (pages_of oldsz) v U -> grown k U0 (pages_of oldsz) (pages_of newsz) U).
  { intros k T U l v _ Hv Hv2 [G1 G2]. split; [intros w Hw; apply G1; lia|intros w Hw; apply G2]. lia. }
  induction fuel as [|fuel IH]; intros k T U l v V Hv0 Hfuel Hvn G.
  { exists newsz, k, T, U, l. split_and!; try done. left. split; [done|]. eapply Hend; [exact V| |exact Hvn|exact G]. lia. }
  cbn [allocuvm_loop]. destruct (Z.ltb_spec (v * 4096) newsz) as [Hlt|Hge].
  2: { exists newsz, k, T, U, l. split_and!; try done. left. split; [done|]. eapply Hend; [exact V| |exact Hvn|exact G].
       unfold pages_of. lia. }
  assert (Hvn' : v < pages_of newsz <= UPAGES) by (unfold pages_of; lia).
  assert (Hv : 0 <= v < UPAGES) by (unfold pages_of in *; lia).
  assert (Eu : U !! v = None) by (destruct G as [_ G]; rewrite G by lia; apply H0; lia).
  assert (Hn2 : newsz < KERNBASE) by done.
  destruct l as [|p l].
  { rewrite (bind_Ret _ _ _ _ _ (kalloc_empty kend k pgdir T U K [] V eq_refl)). cbn [Z.eqb].
    destruct (rollback k pgdir T U K [] U0 oldsz newsz v V Hsz Hn2 G ltac:(lia) H0) as (r & k' & l' & E & V' & Hc & Ho).
    exists 0, k', T, U0, l'. rewrite (bind_Ret _ _ _ _ _ E). split_and!; try done; [|right; split_and!; try done].
    - eapply only_weaken; [|exact Ho]. tauto.
    - eapply used_up_here; [exact V|cbn; lia|exact G|lia]. }
  destruct (take_page k pgdir T U K p l zeros V) as (k1 & Ek & Hp0 & _ & V2 & Hpv & Hpg & Hpl & Hpo & Ho2 & Hpz).
  { apply length_replicate. }
  { apply Forall_replicate. unfold is_byte. lia. }
  rewrite (bind_Ret _ _ _ _ _ Ek). rewrite (proj2 (Z.eqb_neq p 0) Hp0). unfold zero_page at 1. rewrite modify_bind. fold zeros.
  set (k2 := set_page p zeros k1) in *. change (Z.lor PTE_W PTE_U) with 6.
  destruct (map_user kend Hkend k2 pgdir T U K l v p 6 V2 Hv Eu Hpv Hpg Hpl Hpo ltac:(lia)) as
    [[Em El]|(k3 & T3 & l3 & Em & V3 & HT3 & Hc3 & Ho3)]; rewrite (bind_Ret _ _ _ _ _ Em); cbn [Z.ltb Z.compare].
  - assert (G2 : grown k2 U0 (pages_of oldsz) v U).
    { destruct G as [G1 G2]. split; [|done]. intros w Hw. destruct (G1 w Hw) as (q & Eq & Hq). exists q. split; [done|].
      rewrite <- Hq. apply page_ext, Ho2. intros ->. apply Hpo. right. right. eauto. }
    destruct (rollback k2 pgdir T U K l U0 oldsz newsz v V2 Hsz Hn2 G2 ltac:(lia) H0) as (r & k' & l' & E & V' & Hc & Ho).
    assert (p ∉ l' /\ ~ owned pgdir T U0 p) as [Hpl' Hpo'].
    { assert (Hno : ~ (owned pgdir T U0 p \/ p ∈ l')) by (rewrite (Hc p); intros [?|?]; done). tauto. }
    exists 0, (kfreed p k'), T, U0, (p :: l'). rewrite (bind_Ret _ _ _ _ _ E), (bind_Ret _ _ _ _ _ (kfree_eq p k' Hpv)).
    split_and!; try done; [by apply kfreed_ok| | |right; split_and!; try done; eapply used_up_here; [exact V|rewrite El; cbn; lia|exact G|lia]].
    + intros a. rewrite !elem_of_cons. specialize (Hc a). tauto.
    + intros w Hw. assert (w <> p) by (intros ->; apply Hw; right; left; left). rewrite kfreed_pages by done.
      rewrite Ho, Ho2 by tauto. done.
  - assert (Hkeep : forall q w f, U !! w = Some (q, f) -> pages k3 !! q = pages k !! q).
    { intros q w f Eq. rewrite Ho3, Ho2; [done| |].
      - intros ->. apply Hpo. right. right. eauto.
      - intros Ht. assert (Hx : owned pgdir T3 (<[v := (p, 7)]> U) q) by (right; right; exists w, f; rewrite lookup_insert_ne; congruence).
        destruct Ht as [->|[i Hi]].
        + destruct (as_user _ _ _ _ _ _ (vo_space _ _ _ _ _ _ _ V) w pgdir f Eq) as (_ & ? & _). done.
        + eapply (as_apart _ _ _ _ _ _ (vo_space _ _ _ _ _ _ _ V3) i q w f Hi). rewrite lookup_insert_ne; congruence. }
    change (Z.lor 6 1) with 7 in V3.
    assert (Hp3 : page k3 p = zeros).
    { rewrite <- Hpz. apply page_ext, Ho3. intros Ht. destruct Ht as [->|[i Hi]].
      - apply Hpo. by left.
      - eapply (as_apart _ _ _ _ _ _ (vo_space _ _ _ _ _ _ _ V3) i p v 7 Hi). by rewrite lookup_insert_eq. }
    assert (G3 : grown k3 U0 (pages_of oldsz) (v + 1) (<[v := (p, 7)]> U)).
    { destruct G as [G1 G2]. split.
      - intros w Hw. destruct (decide (w = v)) as [->|N]; [exists p; by rewrite lookup_insert_eq|].
        destruct (G1 w ltac:(lia)) as (q & Eq & Hq). exists q. rewrite lookup_insert_ne by done. split; [done|].
        rewrite <- Hq. by eapply page_ext, Hkeep.
      - intros w Hw. rewrite lookup_insert_ne by lia. apply G2. lia. }
    unfold PGSIZE. rewrite (u32_small (v * 4096 + 4096)) by lia. replace (v * 4096 + 4096) with ((v + 1) * 4096) by lia.
    destruct (IH k3 T3 (<[v := (p, 7)]> U) l3 (v + 1) V3 ltac:(lia) ltac:(lia) ltac:(lia) G3) as (r & k' & T' & U' & l' & E & V' & HT' & Hc' & Ho' & Hr).
    assert (Hc1 : conserves pgdir T U (p :: l) T3 (<[v := (p, 7)]> U) l3).
    { intros a. rewrite owned_insert by done. rewrite elem_of_cons. specialize (Hc3 a). tauto. }
    exists r, k', T', U', l'. split_and!; try done.
    + by etrans.
    + by eapply conserves_trans.
    + intros w Hw. rewrite Ho'; [rewrite Ho3, Ho2; [done| |]|].
      * intros ->. apply Hw. right. left. left.
      * intros [->|[i Hi]]; apply Hw; left; [by left|right]. exists i. by eapply lookup_weaken.
      * intros [?|[Hl|(x & f & Hx & Ex)]]; apply Hw; [by left| |].
        -- right. left. destruct (proj1 (Hc1 w) (or_intror Hl)) as [Hx|?]; [|done]. exfalso.
           apply (vo_apart _ _ _ _ _ _ _ V3 w Hl). apply owned_insert; [done|]. left.
           destruct Hx as [?|[[i Hi]|?]]; [by left| |by right; right]. right. left. exists i. by eapply lookup_weaken.
        -- apply lookup_insert_Some in Ex as [[_ [= <- _]]|[_ Ex]]; [right; left; left|]. right. right. exists x, f. split; [|done].
           destruct (decide (x = v)) as [->|]; [congruence|lia].
    + destruct Hr as [?|(-> & -> & T4 & U4 & l4 & B1 & B2 & B3 & B4)]; [by left|right]. split_and!; try done.
      exists T4, U4, l4. split_and!; try done. by eapply conserves_trans.
Qed.
(** A page directory without entries. *)
Lemma empty_space k p l : free_pages kend k (p :: l) -> 
  exists k1, kalloc k = Ret p k1 /\ p <> 0 /\ pages k1 = pages k /\
    vm_ok (set_page p zeros k1) p ∅ ∅ (fun _ => 0) l.
Proof.
  intros Hf. pose proof (kalloc_free kend k (p :: l) Hf) as H. unfold wp in H. destruct (kalloc k) as [r k1| |]; [|done|done].
  destruct H as (-> & Hf1 & Hp1 & _). change (tail (p :: l)) with l in Hf1.
  destruct Hf as (_ & Hnd & Hv). apply NoDup_cons in Hnd as [Hpl _]. apply Forall_cons in Hv as [Hpv _].
  exists k1. split; [done|]. split; [destruct Hpv; lia|]. split; [done|].
  assert (Hown : forall a, owned p ∅ ∅ a -> a = p).
  { intros a [->|[[i E]|(v & f & E)]]; [done| |]; by rewrite lookup_empty in E. }
  split; [split|..].
  - intros a Ha. apply Hown in Ha as ->. split; [done|]. exists zeros. split; [apply pages_set_eq|].
    split; [apply length_replicate|]. apply Forall_replicate. unfold is_byte. lia.
  - intros i t E. by rewrite lookup_empty in E.
  - intros i j t E. by rewrite lookup_empty in E.
  - intros v q f E. by rewrite lookup_empty in E.
  - intros v w q f g E. by rewrite lookup_empty in E.
  - intros i t v f E. by rewrite lookup_empty in E.
  - intros i Hi. rewrite lookup_empty. rewrite (page_lookup _ _ _ (pages_set_eq k1 p zeros)).
    apply get32_replicate.
  - intros v Hv. unfold entry, expected. rewrite !lookup_empty. by destruct (v <? UPAGES).
  - eapply free_pages_ext; [| |exact Hf1]; [|done]. intros a Ha. rewrite pages_set_ne; [done|]. intros ->. done.
  - intros a Ha Ho. apply Hown in Ho as ->. done.
Qed.

Lemma grown_refl k U v : grown k U v v U.
Proof. split; [intros; lia|done]. Qed.

Lemma allocuvm_spec k pgdir T U K l oldsz newsz :
  vm_ok k pgdir T U K l -> 0 <= oldsz <= newsz -> newsz < KERNBASE ->
  (forall w, pages_of oldsz <= w < pages_of newsz -> U !! w = None) ->
  exists r k' T' U' l', allocuvm kend pgdir oldsz newsz k = Ret r k' /\
    vm_ok k' pgdir T' U' K l' /\ conserves pgdir T U l T' U' l' /\
    only (fun w => tabs pgdir T' w \/ w ∈ l) k k' /\
    ((r = newsz /\ grown k' U (pages_of oldsz) (pages_of newsz) U') \/
     (r = 0 /\ U' = U /\ used_up pgdir T U l U (pages_of oldsz) (pages_of newsz))).
Proof.
  intros V Hsz Hnew H0. assert (Hup : UPAGES = 2 ^ 19) by done. unfold allocuvm.
  rewrite (proj2 (Z.leb_gt KERNBASE newsz)), (proj2 (Z.ltb_ge newsz oldsz)) by lia.
  rewrite PGROUNDUP_spec by (unfold KERNBASE in *; lia). fold (pages_of oldsz).
  destruct (allocuvm_loop_spec pgdir K U oldsz newsz Hsz Hnew H0 (Z.to_nat (newsz / PGSIZE + 1)) k T U l (pages_of oldsz) V)
    as (r & k' & T' & U' & l' & E & V' & _ & Hc & Ho & Hr); [lia|unfold pages_of, PGSIZE; lia|by left|apply grown_refl|].
  exists r, k', T', U', l'. split_and!; try done. eapply only_weaken; [|exact Ho].
  intros a [?|[?|(w & f & Hw & _)]]; [by left|by right|lia].
Qed.

(** C21: [allocuvm] on a well-formed address space never panics.  When it
    succeeds it returns the new size, every page from the old size to the new
    one is mapped to a page of zeroes of its own with the user and write bits,
    and the other mappings are as they were.  When it fails it returns 0, the
    mappings are those from before the call, and there were not enough free
    pages for the new pages and a full set of page tables.  In both cases the pages
    of the address space and the free pages together are the same pages as
    before and no other page has changed. *)
Theorem allocuvm_correct k pgdir T U K l oldsz newsz :
  vm_ok k pgdir T U K l -> 0 <= oldsz <= newsz -> newsz < KERNBASE ->
  (forall w, pages_of oldsz <= w < pages_of newsz -> U !! w = None) ->
  exists r k' T' U' l', allocuvm kend pgdir oldsz newsz k = Ret r k' /\
    vm_ok k' pgdir T' U' K l' /\ conserves pgdir T U l T' U' l' /\
    only (fun w => tabs pgdir T' w \/ w ∈ l) k k' /\
    ((r = newsz /\ grown k' U (pages_of oldsz) (pages_of newsz) U') \/
     (r = 0 /\ U' = U /\ Z.of_nat (length l) <= 1025 + (pages_of newsz - pages_of oldsz))).
Proof.
  intros V Hsz Hn H0. destruct (allocuvm_spec k pgdir T U K l oldsz newsz V Hsz Hn H0) as (r & k' & T' & U' & l' & E & V' & Hc & Ho & Hr).
  exists r, k', T', U', l'. split_and!; try done. destruct Hr as [?|(-> & -> & Hu)]; [by left|right]. split_and!; try done.
  eapply used_up_length; [exact V|unfold pages_of; lia|exact Hu].
Qed.
End user_memory.

(** A directory and three free pages: the second page of user memory is added. *)
Module demo.
Definition kend : Z := KERNBASE + 0x200000.
Definition pagenum (n : Z) : Z := kend + 4096 * n.
Definition k0 : kmem := kfreed (pagenum 3) (kfreed (pagenum 2) (kfreed (pagenum 1) (kfreed (pagenum 0) (Kmem true 0 ∅)))).
Definition k1 : kmem := match kalloc k0 with Ret _ k => set_page (pagenum 3) zeros k | _ => k0 end.

Lemma valid n : 0 <= n < 100 -> valid_page kend (pagenum n).
Proof. intros Hn. unfold valid_page, pagenum, kend, V2P, u32, PGSIZE, KERNBASE, PHYSTOP. lia. Qed.

Lemma free_many l : NoDup l -> Forall (valid_page kend) l -> free_pages kend (foldr kfreed (Kmem true 0 ∅) l) l.
Proof.
  induction l as [|a l IH]; [intros _ _; split_and!; [constructor|by constructor|by constructor]|]. intros [Ha Hl]%NoDup_cons [Hv Hvl]%Forall_cons.
  cbn [foldr]. apply kfreed_free; [by apply IH|done|done].
Qed.

(** The pages from number [n] on. *)
Lemma free_range n m : 0 <= n -> n + m <= 50000 ->
  free_pages kend (foldr kfreed (Kmem true 0 ∅) (pagenum <$> seqZ n m)) (pagenum <$> seqZ n m).
Proof.
  intros Hn Hm. apply free_many.
  - apply NoDup_fmap_2; [intros a b; unfold pagenum; lia|apply NoDup_seqZ].
  - apply Forall_fmap, Forall_forall. intros i Hi. apply elem_of_seqZ in Hi. cbn.
    unfold valid_page, pagenum, kend, V2P, u32, PGSIZE, KERNBASE, PHYSTOP. lia.
Qed.

Lemma free : free_pages kend k0 [pagenum 3; pagenum 2; pagenum 1; pagenum 0].
Proof.
  unfold k0. repeat (apply kfreed_free; [|apply valid; lia|unfold pagenum; rewrite ?not_elem_of_cons; split_and?; (lia || by apply not_elem_of_nil)]).
  split_and!; [constructor|by constructor|by constructor].
Qed.

Lemma space : vm_ok kend k1 (pagenum 3) ∅ ∅ (fun _ => 0) [pagenum 2; pagenum 1; pagenum 0].
Proof.
  destruct (empty_space kend k0 (pagenum 3) _ free) as (k & E & _ & _ & V). unfold k1. by rewrite E.
Qed.
End demo.

Lemma allocuvm_correct_witness :
  exists r k' T' U' l', allocuvm demo.kend (demo.pagenum 3) 4096 8192 demo.k1 = Ret r k' /\
    vm_ok demo.kend k' (demo.pagenum 3) T' U' (fun _ => 0) l' /\ r = 8192 /\ grown k' ∅ 1 2 U'.
Proof.
  destruct (allocuvm_correct demo.kend ltac:(done) demo.k1 (demo.pagenum 3) ∅ ∅ (fun _ => 0) _ 4096 8192 demo.space
    ltac:(lia) ltac:(done) ltac:(intros; apply lookup_empty)) as (r & k' & T' & U' & l' & E & V & _ & _ & Hr).
  exists r, k', T', U', l'.
  assert (Er : match allocuvm demo.kend (demo.pagenum 3) 4096 8192 demo.k1 with Ret r _ => r =? 8192 | _ => false end = true) by (by vm_compute).
  rewrite E in Er. apply Z.eqb_eq in Er. destruct Hr as [[-> G]|[-> _]]; [|lia]. split_and!; done.
Defined.
