(* ===== verification/VmCopy.v ===== *)
(** * Whole address spaces ([setupkvm], [freevm] and [copyuvm] of [kernel/vm.c]) *)

From S2P Require Import Prelude Params Kalloc Vm VmUser.
Local Open Scope Z_scope.
Local Open Scope kmonad_scope.

Section whole_spaces.
Context (kend : Z) (Hkend : KERNBASE < kend).
Local Abbreviation vm_ok := (vm_ok kend).
Local Abbreviation aspace := (aspace kend).
Local Abbreviation free_pages := (free_pages kend).

(** ** Freeing an address space *)

(** The page tables found in the first [n] entries of a directory from [i] are freed. *)
Lemma free_tables pgdir (T : gmap Z Z) n : forall k l i,
  0 <= i -> i + Z.of_nat n <= 1024 -> pgdir mod 4096 = 0 ->
  free_pages k l ->
  (forall j, i <= j < 1024 -> get32 (page k pgdir) (Z.to_nat j) = match T !! j with None => 0 | Some t => V2P t + 7 end) ->
  (forall j t, i <= j -> T !! j = Some t -> valid_page kend t /\ t ∉ l /\ t <> pgdir) ->
  (forall j j' t, T !! j = Some t -> T !! j' = Some t -> j = j') ->
  exists k' l', each (fun i =>
      e <- gets (fun k => ld32 k (pgdir + 4 * i));;
      when (present e) (kfree kend (P2V (PTE_ADDR e)))) (seqZ i (Z.of_nat n)) k = Ret tt k' /\
    free_pages k' l' /\
    (forall a, a ∈ l' <-> a ∈ l \/ exists j, i <= j < i + Z.of_nat n /\ T !! j = Some a) /\
    only (fun w => exists j, i <= j < i + Z.of_nat n /\ T !! j = Some w) k k'.
Proof.
  induction n as [|n IH]; intros k l i Hi Hn Hpg Hf Hpde HT Hinj.
  { exists k, l. split_and!; try done. intros a. split; [tauto|]. intros [?|(j & Hj & _)]; [done|lia]. }
  rewrite seqZ_cons by lia. cbn [each]. replace (Z.pred (Z.of_nat (S n))) with (Z.of_nat n) by lia.
  assert (Hstep : exists k1 l1, (e <- gets (fun k => ld32 k (pgdir + 4 * i));; when (present e) (kfree kend (P2V (PTE_ADDR e)))) k = Ret tt k1 /\
    free_pages k1 l1 /\ (forall a, a ∈ l1 <-> a ∈ l \/ T !! i = Some a) /\ only (fun w => T !! i = Some w) k k1).
  { rewrite gets_bind, ld32_word, Hpde by lia. destruct (T !! i) as [t|] eqn:Et.
    - destruct (HT i t ltac:(lia) Et) as (Htv & Htl & Htp).
      destruct (entry_parts kend Hkend t 7 Htv ltac:(lia)) as (-> & _ & -> & _). destruct (valid_page_V2P kend Hkend t Htv) as (_ & _ & _ & _ & _ & ->).
      exists (kfreed t k), (t :: l). split_and!.
      + by apply kfree_eq.
      + by apply kfreed_free.
      + intros a. rewrite elem_of_cons. naive_solver.
      + intros w Hw. apply kfreed_pages. intros ->. done.
    - exists k, l. split_and!; try done. intros a. naive_solver. }
  destruct Hstep as (k1 & l1 & E1 & Hf1 & Hl1 & Ho1). rewrite (bind_Ret _ _ _ _ _ E1).
  destruct (IH k1 l1 (i + 1) ltac:(lia) ltac:(lia) Hpg Hf1) as (k2 & l2 & E2 & Hf2 & Hl2 & Ho2); try done.
  - intros j Hj. rewrite (page_ext k k1); [apply Hpde; lia|]. apply Ho1. intros E. by destruct (HT i pgdir ltac:(lia) E) as (_ & _ & ?).
  - intros j t Hj E. destruct (HT j t ltac:(lia) E) as (? & ? & ?). split_and!; try done. rewrite Hl1. intros [?|E']; [done|].
    specialize (Hinj _ _ _ E E'). lia.
  - replace (Z.succ i) with (i + 1) by lia. exists k2, l2. split_and!; try done.
    + intros a. rewrite Hl2, Hl1. split.
      * intros [[?|?]|(j & Hj & ?)]; [by left|right; exists i; split; [lia|done]|right; exists j; split; [lia|done]].
      * intros [?|(j & Hj & ?)]; [by left; left|]. destruct (decide (j = i)) as [->|]; [by left; right|right; exists j; split; [lia|done]].
    + intros w Hw. rewrite Ho2, Ho1; [done| |]; [intros E|intros (j & Hj & E)]; apply Hw; [exists i|exists j]; (split; [lia|done]).
Qed.

Lemma freevm_spec k pgdir T U K l : vm_ok k pgdir T U K l ->
  exists k' l', freevm kend pgdir k = Ret tt k' /\ free_pages k' l' /\
    (forall a, a ∈ l' <-> a ∈ l \/ owned pgdir T U a) /\ only (owned pgdir T U) k k'.
Proof.
  intros V. pose proof V as [A Hf Hap]. destruct (as_owned _ _ _ _ _ _ A pgdir) as [Hpv _]; [by left|].
  destruct (valid_page_V2P kend Hkend pgdir Hpv) as (Hpm & Hpr & _).
  unfold freevm. rewrite (proj2 (Z.eqb_neq pgdir 0)) by (unfold KERNBASE in Hpr; lia).
  destruct (deallocuvm_spec kend Hkend k pgdir T U K l KERNBASE 0 V ltac:(lia) ltac:(lia)) as (k1 & l1 & E1 & V1 & Hl1 & Ho1).
  rewrite (bind_Ret _ _ _ _ _ E1). change (pages_of 0) with 0 in *. change (pages_of KERNBASE) with UPAGES in *.
  assert (Hfr : forall a, freed_range 0 UPAGES U a <-> exists v f, U !! v = Some (a, f)).
  { intros a. split; [intros (w & f & _ & E); eauto|]. intros (w & f & E). exists w, f. split; [|done].
    by destruct (as_user _ _ _ _ _ _ A w a f E) as (? & _). }
  pose proof V1 as [A1 Hf1 Hap1].
  assert (exists n, Z.of_nat n = NPDENTRIES) as [n Hn] by (exists (Z.to_nat NPDENTRIES); by vm_compute).
  rewrite <- Hn. unfold NPDENTRIES in Hn.
  destruct (free_tables pgdir T n k1 l1 0 ltac:(lia) ltac:(lia) Hpm Hf1) as (k2 & l2 & E2 & Hf2 & Hl2 & Ho2).
  { intros j Hj. apply A1. lia. }
  { intros j t Hj E. destruct (table_owned kend k1 pgdir T _ K l1 V1 j t E) as (? & _ & ?). split_and!; try done.
    intros Hl. apply (Hap1 t Hl). right. left. eauto. }
  { intros j j' t. apply (as_table_inj _ _ _ _ _ _ A). }
  rewrite (bind_Ret _ _ _ _ _ E2).
  assert (Ht : forall a, (exists j, 0 <= j < 0 + Z.of_nat n /\ T !! j = Some a) <-> exists j, T !! j = Some a).
  { intros a. split; [naive_solver|]. intros [j E]. exists j. destruct (as_table _ _ _ _ _ _ A j a E). split; [lia|done]. }
  assert (Hnl : pgdir ∉ l2).
  { rewrite Hl2, Ht. intros [Hl|[j E]]; [apply (Hap1 pgdir Hl); by left|]. by destruct (as_table _ _ _ _ _ _ A j pgdir E). }
  exists (kfreed pgdir k2), (pgdir :: l2). split_and!.
  - by apply kfree_eq.
  - by apply kfreed_free.
  - intros a. rewrite elem_of_cons, Hl2, Hl1, Ht, Hfr. unfold owned. tauto.
  - intros w Hw. rewrite kfreed_pages, Ho2, Ho1; [done| | |].
    + rewrite Hfr. intros [[->|?]|?]; apply Hw; [by left|right; by left|by right; right].
    + rewrite Ht. intros ?. apply Hw. right. by left.
    + intros ->. apply Hw. by left.
Qed.

(** ** The kernel's part *)

Lemma vm_ok_ext k pgdir T U K K' l : (forall w, UPAGES <= w < 2 ^ 20 -> K' w = K w) -> vm_ok k pgdir T U K l -> vm_ok k pgdir T U K' l.
Proof.
  intros E [A ? ?]. split; try done. split; try apply A. intros v Hv. rewrite (as_entry _ _ _ _ _ _ A v Hv).
  unfold expected. destruct (Z.ltb_spec v UPAGES); [done|]. symmetry. apply E. lia.
Qed.

(** The entries that a run of kernel pages gets. *)
Definition run (v n q perm : Z) (K : Z -> Z) (w : Z) : Z :=
  if (v <=? w) && (w <? v + n) then (q + (w - v)) * 4096 + Z.lor perm 1 else K w.

Lemma perm_range perm : 0 <= perm < 4096 -> 0 <= Z.lor perm 1 < 4096.
Proof.
  intros Hperm. assert (0 <= Z.lor perm 1) by (apply Z.lor_nonneg; lia). split; [done|].
  destruct (decide (Z.lor perm 1 = 0)); [lia|].
  apply Z.log2_lt_pow2 with (b := 12); [lia|]. rewrite Z.log2_lor by lia. change (Z.log2 1) with 0.
  destruct (decide (perm = 0)) as [->|Hp]; [done|]. assert (Z.log2 perm < 12) by (apply Z.log2_lt_pow2; lia). lia.
Qed.

(** One turn of [mappages] on a kernel page. *)
Lemma map_run_step n k pgdir T U K l v q last perm :
  vm_ok k pgdir T U K l -> UPAGES <= v < 2 ^ 20 -> K v = 0 -> 0 <= q < 2 ^ 20 -> 0 <= perm < 4096 ->
  (mappages_loop (S n) pgdir (v * 4096) last (q * 4096) perm k = Ret (-1) k /\ l = []) \/
  exists k2 T2 l2, mappages_loop (S n) pgdir (v * 4096) last (q * 4096) perm k =
      (if v * 4096 =? last then ret 0 else mappages_loop n pgdir (u32 (v * 4096 + PGSIZE)) last (u32 (q * 4096 + PGSIZE)) perm) k2 /\
    vm_ok k2 pgdir T2 U (run v 1 q perm K) l2 /\ T ⊆ T2 /\ conserves pgdir T U l T2 U l2 /\ only (tabs pgdir T2) k k2.
Proof.
  intros V Hv HK Hq Hperm. pose proof (perm_range perm Hperm) as Hfl. assert (Hup : UPAGES = 2 ^ 19) by done.
  cbn [mappages_loop].
  destruct (walk_page kend Hkend k pgdir T U K l v V ltac:(lia)) as [(E & El & _)|(t & T1 & l1 & k1 & E & Ht0 & V1 & Et & HT1 & Hc1 & Ho1)];
    rewrite (bind_Ret _ _ _ _ _ E); [by left|right].
  assert (Hpt : t + 4 * (v mod 1024) <> 0).
  { destruct (table_owned kend k1 pgdir T1 U K l1 V1 _ _ Et) as (Htv & _).
    destruct (valid_page_V2P kend Hkend t Htv) as (_ & Hr & _). unfold KERNBASE in Hr. lia. }
  rewrite (proj2 (Z.eqb_neq _ 0) Hpt), gets_bind, (load_entry kend Hkend k1 pgdir T1 U K l1 v t V1 ltac:(lia) Et).
  replace (expected U K v) with 0 by (unfold expected; by rewrite (proj2 (Z.ltb_ge v UPAGES)) by lia).
  change (present 0) with false. cbv iota. rewrite <- Z.lor_assoc. unfold PTE_P. rewrite (lor_low (q * 4096) (Z.lor perm 1)) by lia.
  destruct (set_entry kend Hkend k1 pgdir T1 U K l1 U (run v 1 q perm K) v t (q * 4096 + Z.lor perm 1) V1 ltac:(lia) Et ltac:(lia)) as (k2 & E2 & V2 & Ho2).
  - intros w Hw. unfold expected, run. destruct (decide (w = v)) as [->|N].
    + rewrite (proj2 (Z.ltb_ge v UPAGES)) by lia. replace ((v <=? v) && (v <? v + 1)) with true by lia. lia.
    + destruct (w <? UPAGES); [done|]. by replace ((v <=? w) && (w <? v + 1)) with false by lia.
  - intros w p f Ea Eb. done.
  - apply (as_user_inj _ _ _ _ _ _ (vo_space _ _ _ _ _ _ _ V1)).
  - exists k2, T1, l1. rewrite (bind_Ret _ _ _ _ _ E2). split_and!; try done. by eapply only_trans.
Qed.

Lemma run_succ v n q perm K w : 0 < n -> run v (n + 1) q perm K w = run (v + 1) n (q + 1) perm (run v 1 q perm K) w.
Proof.
  intros Hn. unfold run. destruct (decide (w = v)) as [->|N].
  - replace ((v <=? v) && (v <? v + (n + 1))) with true by lia. replace ((v + 1 <=? v) && (v <? v + 1 + n)) with false by lia.
    by replace ((v <=? v) && (v <? v + 1)) with true by lia.
  - replace ((v + 1 <=? w) && (w <? v + 1 + n)) with ((v <=? w) && (w <? v + (n + 1))) by lia.
    replace ((v <=? w) && (w <? v + 1)) with false by lia.
    destruct ((v <=? w) && (w <? v + (n + 1))); [|done]. by replace (q + (w - v)) with (q + 1 + (w - (v + 1))) by lia.
Qed.

Lemma tabs_mono pgdir (T T' : gmap Z Z) k k' : T ⊆ T' -> only (tabs pgdir T) k k' -> only (tabs pgdir T') k k'.
Proof. intros HT. apply only_weaken. intros a [->|[j Hj]]; [by left|right]. exists j. by eapply lookup_weaken. Qed.

Lemma map_run pgdir U perm last : 0 <= perm < 4096 -> UPAGES <= last < 2 ^ 20 -> forall n k T K l v q,
  last = v + Z.of_nat n -> UPAGES <= v -> 0 <= q -> q + Z.of_nat n < 2 ^ 20 ->
  (forall w, v <= w <= last -> K w = 0) -> vm_ok k pgdir T U K l ->
  exists r k' T' K' l', mappages_loop (S n) pgdir (v * 4096) (last * 4096) (q * 4096) perm k = Ret r k' /\
    vm_ok k' pgdir T' U K' l' /\ T ⊆ T' /\ conserves pgdir T U l T' U l' /\ only (tabs pgdir T') k k' /\
    (r = -1 /\ l' = [] \/ r = 0 /\ K' = run v (Z.of_nat n + 1) q perm K).
Proof.
  intros Hperm Hlast. assert (Hup : UPAGES = 2 ^ 19) by done.
  induction n as [|n IH]; intros k T K l v q Hl Hv Hq Hqn HK V.
  - destruct (map_run_step 0 k pgdir T U K l v q (last * 4096) perm V ltac:(lia) (HK v ltac:(lia)) ltac:(lia) Hperm)
      as [[E El]|(k2 & T2 & l2 & E & V2 & HT2 & Hc2 & Ho2)]; [exists (-1), k, T, K, l; split_and!; try done; by left|].
    rewrite (proj2 (Z.eqb_eq (v * 4096) (last * 4096))) in E by lia.
    exists 0, k2, T2, (run v 1 q perm K), l2. split_and!; try done. by right.
  - destruct (map_run_step (S n) k pgdir T U K l v q (last * 4096) perm V ltac:(lia) (HK v ltac:(lia)) ltac:(lia) Hperm)
      as [[E El]|(k2 & T2 & l2 & E & V2 & HT2 & Hc2 & Ho2)]; [exists (-1), k, T, K, l; split_and!; try done; by left|].
    rewrite (proj2 (Z.eqb_neq (v * 4096) (last * 4096))) in E by lia.
    unfold PGSIZE in E. rewrite !u32_small in E by lia.
    replace (v * 4096 + 4096) with ((v + 1) * 4096) in E by lia. replace (q * 4096 + 4096) with ((q + 1) * 4096) in E by lia.
    destruct (IH k2 T2 (run v 1 q perm K) l2 (v + 1) (q + 1)) as (r & k3 & T3 & K3 & l3 & E3 & V3 & HT3 & Hc3 & Ho3 & Hr); try lia; try done.
    { intros w Hw. unfold run. replace ((v <=? w) && (w <? v + 1)) with false by lia. apply HK. lia. }
    assert (Ho : only (tabs pgdir T3) k k3) by (eapply only_trans; [by eapply tabs_mono|exact Ho3]).
    assert (HT : T ⊆ T3) by (by etrans). assert (Hc : conserves pgdir T U l T3 U l3) by (by eapply conserves_trans).
    exists r, k3, T3. rewrite E. destruct Hr as [[-> ->]|[-> ->]].
    + exists K3, []. split_and!; try done. by left.
    + exists (run v (Z.of_nat (S n) + 1) q perm K), l3. split_and!; try done; [|by right].
      eapply vm_ok_ext; [|exact V3]. intros w Hw. rewrite run_succ by lia. f_equal. lia.
Qed.
(** ** [setupkvm] *)

(** What is asked of the kernel's table of mappings: whole pages of the
    kernel's half of the address space, and no page twice. *)
Definition span (x : kmapping) : Z := u32 (phys_end x - phys_start x) / 4096.
Definition covers (w : Z) (x : kmapping) : bool := (virt x / 4096 <=? w) && (w <? virt x / 4096 + span x).
Definition mapping_ok (x : kmapping) : Prop :=
  virt x mod 4096 = 0 /\ phys_start x mod 4096 = 0 /\ u32 (phys_end x - phys_start x) mod 4096 = 0 /\ 0 < span x /\
  UPAGES <= virt x / 4096 /\ virt x / 4096 + span x <= 2 ^ 20 /\
  0 <= phys_start x / 4096 /\ phys_start x / 4096 + span x <= 2 ^ 20 /\ 0 <= perm x < 4096.
Definition disjoint (x y : kmapping) : Prop := forall w, covers w x = true -> covers w y = false.

(** The entry of page [w]: that of the mapping that covers it. *)
Fixpoint kentries (ks : list kmapping) (K : Z -> Z) (w : Z) : Z :=
  match ks with
  | [] => K w
  | x :: ks' => kentries ks' (run (virt x / 4096) (span x) (phys_start x / 4096) (perm x) K) w
  end.

Lemma map_range k pgdir T U K l x : mapping_ok x -> (forall w, covers w x = true -> K w = 0) -> vm_ok k pgdir T U K l ->
  exists r k' T' K' l', mappages pgdir (virt x) (u32 (phys_end x - phys_start x)) (phys_start x) (perm x) k = Ret r k' /\
    vm_ok k' pgdir T' U K' l' /\ conserves pgdir T U l T' U l' /\ only (tabs pgdir T') k k' /\
    (r = -1 /\ l' = [] \/ r = 0 /\ K' = run (virt x / 4096) (span x) (phys_start x / 4096) (perm x) K).
Proof.
  intros (Hv & Hp & Hs & Hn & Hup & Hv20 & Hq & Hq20 & Hperm) HK V. assert (Eup : UPAGES = 2 ^ 19) by done.
  unfold mappages. set (v := virt x / 4096) in *. set (q := phys_start x / 4096) in *.
  replace (u32 (phys_end x - phys_start x)) with (span x * 4096) in * by (unfold span; lia).
  assert (Ev : virt x = v * 4096) by (unfold v; lia). assert (Eq : phys_start x = q * 4096) by (unfold q; lia). rewrite Ev, Eq.
  rewrite (u32_small (v * 4096 + span x * 4096 - 1)) by lia. rewrite !PGROUNDDOWN_spec by lia.
  replace (v * 4096 - (v * 4096) mod 4096) with (v * 4096) by lia.
  replace (v * 4096 + span x * 4096 - 1 - (v * 4096 + span x * 4096 - 1) mod 4096) with ((v + span x - 1) * 4096) by lia.
  rewrite (u32_small ((v + span x - 1) * 4096 - v * 4096)) by lia. unfold PGSIZE.
  replace (((v + span x - 1) * 4096 - v * 4096) / 4096) with (span x - 1) by lia. rewrite Nat.add_1_r.
  destruct (map_run pgdir U (perm x) (v + span x - 1) Hperm ltac:(lia) (Z.to_nat (span x - 1)) k T K l v q) as
    (r & k' & T' & K' & l' & E & V' & _ & Hc & Ho & Hr); try lia; try done.
  { intros w Hw. apply HK. unfold covers. fold v. lia. }
  exists r, k', T', K', l'. split_and!; try done. replace (Z.of_nat (Z.to_nat (span x - 1)) + 1) with (span x) in Hr by lia. done.
Qed.

(** Every page of [X] is the directory, a table or a user page. *)
Definition exhausted (pgdir : Z) (U : gmap Z (Z * Z)) (X : Z -> Prop) : Prop :=
  exists T : gmap Z Z, (forall i t, T !! i = Some t -> 0 <= i < 1024) /\ forall a, X a -> owned pgdir T U a.

(** A directory has at most 1024 tables. *)
Lemma owned_length pgdir (T : gmap Z Z) (l l2 : list Z) : NoDup l -> (forall i t, T !! i = Some t -> 0 <= i < 1024) ->
  (forall a, a ∈ l -> owned pgdir T ∅ a \/ a ∈ l2) -> (length l <= 1025 + length l2)%nat.
Proof.
  intros Hnd HT Hown. apply size_indices in HT.
  transitivity (length (pgdir :: (map_to_list T).*2 ++ l2)).
  - apply submseteq_length, NoDup_submseteq; [done|]. intros a Ha. rewrite elem_of_cons, elem_of_app.
    destruct (Hown a Ha) as [[->|[[i Hi]|(v & f & Hv)]]|?]; [by left| |by rewrite lookup_empty in Hv|tauto].
    right. left. apply list_elem_of_fmap. exists (i, a). split; [done|]. by apply elem_of_map_to_list.
  - cbn [length]. rewrite length_app, length_fmap, length_map_to_list. lia.
Qed.

Lemma exhausted_length pgdir X (l : list Z) : NoDup l -> (forall a, a ∈ l -> X a) -> exhausted pgdir ∅ X -> (length l <= 1025)%nat.
Proof.
  intros Hnd HX (T & HT & Hown). apply (owned_length pgdir T l []); [done|done|]. intros a Ha. left. by apply Hown, HX.
Qed.

Lemma map_kernel_spec pgdir U ks : Forall mapping_ok ks -> ForallOrdPairs disjoint ks ->
  forall k T K l, (forall x w, x ∈ ks -> covers w x = true -> K w = 0) -> vm_ok k pgdir T U K l ->
  exists r k', map_kernel kend pgdir ks k = Ret r k' /\ (r = 0 -> pgdir <> 0 -> exhausted pgdir U (fun a => owned pgdir T U a \/ a ∈ l)) /\
    only (fun w => owned pgdir T U w \/ w ∈ l) k k' /\
    ((r = 0 /\ exists l', free_pages k' l' /\ forall a, a ∈ l' <-> owned pgdir T U a \/ a ∈ l) \/
     (r = pgdir /\ exists T' l', vm_ok k' pgdir T' U (kentries ks K) l' /\ conserves pgdir T U l T' U l')).
Proof.
  induction ks as [|x ks IH]; intros Hok Hdis k T K l HK V.
  { exists pgdir, k. split_and!; try done. right. split; [done|]. by exists T, l. }
  apply Forall_cons in Hok as [Hx Hok]. inversion Hdis as [|? ? Hd Hdis']; subst.
  destruct (map_range k pgdir T U K l x Hx) as (r & k1 & T1 & K1 & l1 & E1 & V1 & Hc1 & Ho1 & Hr); [|done|].
  { intros w. apply HK. left. }
  assert (Hown : only (fun w => owned pgdir T U w \/ w ∈ l) k k1).
  { eapply only_weaken; [|exact Ho1]. intros a Ha. apply (Hc1 a). left. destruct Ha as [->|?]; [by left|right; by left]. }
  cbn [map_kernel kentries]. rewrite (bind_Ret _ _ _ _ _ E1). destruct Hr as [[-> ->]|[-> ->]]; cbn [Z.ltb Z.compare].
  - destruct (freevm_spec k1 pgdir T1 U K1 [] V1) as (k2 & l2 & E2 & Hf2 & Hl2 & Ho2). rewrite (bind_Ret _ _ _ _ _ E2).
    exists 0, k2. split; [done|]. split.
    { intros _ _. exists T1. split; [intros i t Hi; by apply (as_table _ _ _ _ _ _ (vo_space _ _ _ _ _ _ _ V1)) in Hi as [? _]|].
      intros a Ha. apply (Hc1 a) in Ha as [?|Ha]; [done|]. by apply not_elem_of_nil in Ha. }
    split.
    + eapply only_trans; [exact Hown|]. eapply only_weaken; [|exact Ho2]. intros a Ha. apply (Hc1 a). by left.
    + left. split; [done|]. exists l2. split; [done|]. intros a. rewrite Hl2. specialize (Hc1 a). tauto.
  - destruct (IH Hok Hdis' k1 T1 (run (virt x / 4096) (span x) (phys_start x / 4096) (perm x) K) l1) as (r & k2 & E2 & Hx2 & Ho2 & Hr); [|done|].
    { intros y w Hy Hw. unfold run. rewrite Forall_forall in Hd. specialize (Hd y Hy w).
      destruct (covers w x) eqn:Ex; [rewrite Hd in Hw; done|]. unfold covers in Ex. rewrite Ex. by apply (HK y); [right|]. }
    exists r, k2. split; [done|]. split.
    { intros Er Hd0. destruct (Hx2 Er Hd0) as (T2 & HT2 & HX). exists T2. split; [done|]. intros a Ha. apply HX, (Hc1 a), Ha. }
    split.
    + eapply only_trans; [exact Hown|]. eapply only_weaken; [|exact Ho2]. intros a. apply (Hc1 a).
    + destruct Hr as [(-> & l' & Hf' & Hl')|(-> & T' & l' & V' & Hc')]; [left|right]; (split; [done|]).
      * exists l'. split; [done|]. intros a. rewrite Hl'. apply (Hc1 a).
      * exists T', l'. split; [done|]. by eapply conserves_trans.
Qed.

Context (data : Z) (Hdata : data mod 4096 = 0) (Hdata_range : KERNLINK < data < KERNBASE + PHYSTOP).

Definition kernel_entry : Z -> Z := kentries (kmap data) (fun _ => 0).

Lemma kmap_ok : Forall mapping_ok (kmap data) /\ ForallOrdPairs disjoint (kmap data).
Proof.
  unfold KERNLINK, KERNBASE, PHYSTOP, EXTMEM in Hdata_range.
  assert (Ed : V2P data = data - 2147483648) by (unfold V2P, u32, KERNBASE; lia).
  assert (Ek : V2P KERNLINK = 1048576) by done. assert (Hup : UPAGES = 2 ^ 19) by done.
  split.
  - unfold kmap. rewrite Ed, Ek. rewrite !Forall_cons. unfold mapping_ok, span. cbn [virt phys_start phys_end perm]. rewrite Hup.
    unfold u32, KERNLINK, KERNBASE, EXTMEM, DEVSPACE, PHYSTOP, PTE_W. split_and!; try lia. by apply Forall_nil.
  - unfold kmap. rewrite Ed, Ek. repeat apply FOP_cons; try apply FOP_nil; rewrite ?Forall_cons; split_and?; try apply Forall_nil; try done.
    all: unfold disjoint, covers, span; cbn [virt phys_start phys_end perm]; intros w.
    all: unfold u32, KERNLINK, KERNBASE, EXTMEM, DEVSPACE, PHYSTOP; lia.
Qed.

(** [setupkvm] builds an address space with the kernel's entries and no user
    page, or leaves every page free. *)
Lemma setupkvm_spec k l : free_pages k l ->
  exists r k', setupkvm kend data k = Ret r k' /\ (r = 0 -> (length l <= 1025)%nat) /\ only (fun w => w ∈ l) k k' /\
    ((r = 0 /\ exists l', free_pages k' l' /\ forall a, a ∈ l' <-> a ∈ l) \/
     (r <> 0 /\ exists T l', vm_ok k' r T ∅ kernel_entry l' /\ forall a, owned r T ∅ a \/ a ∈ l' <-> a ∈ l)).
Proof.
  intros Hf. unfold setupkvm. destruct l as [|p l].
  { pose proof (kalloc_free kend k [] Hf) as H. unfold wp in H. destruct (kalloc k) as [r k1| |] eqn:E; [|done|done].
    destruct H as (-> & Hf1 & Hp1 & _). rewrite (bind_Ret _ _ _ _ _ E). cbn [default head Z.eqb].
    exists 0, k1. split_and!; try done; [cbn; lia|intros w _; by rewrite Hp1|]. left. split; [done|]. by exists []. }
  destruct (empty_space kend k p l Hf) as (k1 & E1 & Hp0 & Hp1 & V1). rewrite (bind_Ret _ _ _ _ _ E1).
  rewrite (proj2 (Z.eqb_neq p 0) Hp0). unfold zero_page. rewrite modify_bind. fold zeros. change (DEVSPACE <? P2V PHYSTOP) with false. cbv iota.
  destruct kmap_ok as [Hok Hdis].
  destruct (map_kernel_spec p ∅ (kmap data) Hok Hdis _ ∅ (fun _ => 0) l ltac:(done) V1) as (r & k2 & E2 & Hx2 & Ho2 & Hr).
  assert (Hel : forall a, owned p ∅ ∅ a \/ a ∈ l <-> a ∈ p :: l).
  { intros a. rewrite elem_of_cons. split; [|intros [->|?]; [left; by left|by right]].
    intros [[->|[[j E]|(w & g & E)]]|?]; [by left| | |by right]; by rewrite lookup_empty in E. }
  exists r, k2. split; [done|]. split.
  { intros Er. eapply exhausted_length; [apply Hf| |by apply Hx2]. intros a. by rewrite Hel. }
  split.
  - intros w Hw. rewrite Ho2 by (by rewrite Hel). rewrite pages_set_ne; [by rewrite Hp1|]. intros ->. apply Hw. left.
  - destruct Hr as [(-> & l' & Hf' & Hl')|(-> & T' & l' & V' & Hc')]; [left|right]; (split; [done|]).
    + exists l'. split; [done|]. intros a. by rewrite Hl', Hel.
    + exists T', l'. split; [done|]. intros a. by rewrite (Hc' a), Hel.
Qed.
(** ** [copyuvm] *)

(** The child's first [v] pages are copies of the parent's. *)
Definition copied (k : kmem) (U : gmap Z (Z * Z)) (v : Z) (Ud : gmap Z (Z * Z)) : Prop :=
  (forall w, 0 <= w < v -> exists p q f, U !! w = Some (p, f) /\ Ud !! w = Some (q, f) /\ page k q = page k p) /\
  (forall w, v <= w -> Ud !! w = None).

(** The parent's address space, apart from the pages in [X]. *)
Definition parent (k : kmem) (pgdir : Z) (T : gmap Z Z) (U : gmap Z (Z * Z)) (K : Z -> Z) (X : Z -> Prop) : Prop :=
  aspace k pgdir T U K /\ forall a, owned pgdir T U a -> ~ X a.

Lemma parent_only k k' pgdir T U K X : parent k pgdir T U K X -> only X k k' -> parent k' pgdir T U K X.
Proof. intros [A Hx] Ho. split; [|done]. eapply aspace_frame; [|exact A]. intros a Ha. apply Ho. by apply Hx. Qed.

Lemma parent_ext k pgdir T U K (X Y : Z -> Prop) : (forall a, Y a <-> X a) -> parent k pgdir T U K X -> parent k pgdir T U K Y.
Proof. intros E [A Hx]. split; [done|]. intros a Ha. rewrite E. by apply Hx. Qed.

(** What reading the parent's page [v] gives. *)
Lemma read_entry k pgdir T U K v p f : aspace k pgdir T U K -> U !! v = Some (p, f) ->
  exists t, walkpgdir pgdir (v * 4096) false k = Ret (t + 4 * (v mod 1024)) k /\ t + 4 * (v mod 1024) <> 0 /\
    ld32 k (t + 4 * (v mod 1024)) = V2P p + f /\ valid_page kend p /\ 0 <= f < 4096 /\ f mod 2 = 1 /\ good_page k p /\ T !! (v / 1024) = Some t.
Proof.
  intros A E. destruct (as_user _ _ _ _ _ _ A v p f E) as (Hv & _ & Hf1 & Hf2). assert (Hup : UPAGES = 2 ^ 19) by done.
  destruct (as_owned _ _ _ _ _ _ A p) as [Hpv Hpg]; [right; right; eauto|].
  pose proof (as_entry _ _ _ _ _ _ A v ltac:(lia)) as Ee. unfold entry, expected in Ee.
  rewrite (proj2 (Z.ltb_lt v UPAGES)), E in Ee by lia.
  destruct (T !! (v / 1024)) as [t|] eqn:Et.
  2: { destruct (valid_page_V2P kend Hkend p Hpv) as (_ & _ & _ & ? & _). lia. }
  destruct (as_owned _ _ _ _ _ _ A t) as [Htv _]; [right; left; eauto|]. destruct (valid_page_V2P kend Hkend t Htv) as (Htm & Htr & _).
  destruct (as_owned _ _ _ _ _ _ A pgdir) as [Hdv _]; [by left|]. destruct (valid_page_V2P kend Hkend pgdir Hdv) as (Hdm & _).
  destruct (page_index v ltac:(lia)) as (_ & Ed & Ept).
  exists t. split_and!; try done; try lia.
  - unfold walkpgdir. rewrite gets_bind, Ed, ld32_word, (as_pde _ _ _ _ _ _ A), Et by lia.
    destruct (entry_parts kend Hkend t 7 Htv ltac:(lia)) as (-> & _ & -> & _). cbn [Z.eqb Pos.eqb].
    destruct (valid_page_V2P kend Hkend t Htv) as (_ & _ & _ & _ & _ & ->). by rewrite Ept.
  - unfold KERNBASE in Htr. lia.
  - rewrite ld32_word by lia. done.
Qed.

Lemma lor_flag f : f mod 2 = 1 -> Z.lor f 1 = f.
Proof.
  intros H. apply Z.bits_inj'. intros n Hn. rewrite Z.lor_spec. destruct (decide (n = 0)) as [->|N].
  - rewrite Z.bit0_odd. replace (Z.odd f) with true; [done|]. rewrite Zodd_mod. by rewrite H.
  - change 1 with (2 ^ 0). rewrite Z.pow2_bits_false by lia. apply orb_false_r.
Qed.

(** One page more, with the contents [b] of the parent's page. *)
Lemma copied_snoc k k2 k3 pgdir T U K d Td Ud Kd l T3 l3 v m p f b :
  copied k U v Ud -> 0 <= v -> U !! v = Some (p, f) -> pages k !! p = Some b -> page k2 m = b ->
  parent k pgdir T U K (fun a => owned d Td Ud a \/ a ∈ m :: l) -> ~ owned d Td Ud m ->
  only (fun w => w = m) k k2 -> only (tabs d T3) k2 k3 -> only (fun a => owned d Td Ud a \/ a ∈ m :: l) k k3 ->
  vm_ok k3 d T3 (<[v := (m, f)]> Ud) Kd l3 ->
  copied k3 U (v + 1) (<[v := (m, f)]> Ud).
Proof.
  intros C Hv Ep Eb Hmb [_ Hapart] Hmo Ho2 Ho3 Ho V3.
  assert (Hnt : forall w q g, <[v := (m, f)]> Ud !! w = Some (q, g) -> page k3 q = page k2 q).
  { intros w q g Hw. apply page_ext, Ho3. intros [->|[i Hi]].
    - by destruct (as_user _ _ _ _ _ _ (vo_space _ _ _ _ _ _ _ V3) w d g Hw) as (_ & ? & _).
    - by eapply (as_apart _ _ _ _ _ _ (vo_space _ _ _ _ _ _ _ V3)). }
  assert (Hpar : forall q g w, U !! w = Some (q, g) -> page k3 q = page k q).
  { intros q g w Hw. apply page_ext, Ho, Hapart. right. right. eauto. }
  split.
  - intros w Hw. destruct (decide (w = v)) as [->|N].
    + exists p, m, f. rewrite lookup_insert_eq. split_and!; try done. rewrite (Hpar p f v Ep), (page_lookup k p b Eb), <- Hmb.
      apply (Hnt v m f). apply lookup_insert_eq.
    + destruct (proj1 C w ltac:(lia)) as (p' & q' & f' & E1 & E2 & E3). exists p', q', f'. rewrite lookup_insert_ne by done.
      split_and!; try done. rewrite (Hpar p' f' w E1), <- E3, (Hnt w q' f') by (by rewrite lookup_insert_ne).
      apply page_ext, Ho2. intros ->. apply Hmo. right. right. eauto.
  - intros w Hw. rewrite lookup_insert_ne by lia. apply C. lia.
Qed.

(** The pages have run out while the first pages were being copied. *)
Lemma copied_used_up k d Td Ud K l U v n : vm_ok k d Td Ud K l -> (length l <= 1)%nat -> copied k U v Ud -> v <= n -> used_up d Td Ud l ∅ 0 n.
Proof.
  intros V Hl [_ C] Hv. exists Td, Ud, l. split_and!; try done.
  - intros i t Hi. by apply (as_table _ _ _ _ _ _ (vo_space _ _ _ _ _ _ _ V)) in Hi as [? _].
  - intros w Hw. rewrite lookup_empty. destruct (Ud !! w) as [[p f]|] eqn:E; [|done].
    apply (as_user _ _ _ _ _ _ (vo_space _ _ _ _ _ _ _ V)) in E as H. destruct H as [Hw0 _].
    rewrite C in E by lia. done.
Qed.

Lemma used_up_conserves d T U l T1 U1 l1 U0 v0 v : conserves d T U l T1 U1 l1 -> used_up d T1 U1 l1 U0 v0 v -> used_up d T U l U0 v0 v.
Proof.
  intros Hc (T2 & U2 & l2 & B1 & B2 & B3 & B4). exists T2, U2, l2. split_and!; try done. by eapply conserves_trans.
Qed.

(** How many pages that makes, the directory included. *)
Lemma used_up_pages d T U l v (ps : list Z) : NoDup ps -> (forall a, a ∈ ps -> owned d T U a \/ a ∈ l) -> 0 <= v ->
  used_up d T U l ∅ 0 v -> Z.of_nat (length ps) <= 1026 + v.
Proof.
  intros Hnd Hps Hv (T1 & U1 & l1 & Hl1 & HT & HU & Hc).
  pose proof (owned_length d T1 ps (omap (fun w => fst <$> U1 !! w) (seqZ 0 v) ++ l1) Hnd HT) as H.
  pose proof (length_omap_le (fun w => fst <$> U1 !! w) (seqZ 0 v)) as Ho. rewrite length_seqZ in Ho.
  rewrite length_app in H. enough (length ps <= 1025 + (length (omap (fun w => fst <$> U1 !! w) (seqZ 0 v)) + length l1))%nat by lia.
  apply H. intros a [Ha|Ha]%Hps%Hc; rewrite elem_of_app; [|tauto].
  destruct Ha as [->|[?|(w & f & Hw)]]; [left; by left|left; right; by left|]. right. left.
  destruct (decide (0 <= w < v)) as [Hr|Hr]; [|rewrite HU, lookup_empty in Hw by done; done].
  apply list_elem_of_omap. exists w. rewrite elem_of_seqZ, Hw. split; [lia|done].
Qed.

Lemma copyuvm_loop_spec pgdir T U K d Kd sz : 0 <= sz <= KERNBASE ->
  (forall w, 0 <= w < pages_of sz -> is_Some (U !! w)) ->
  forall fuel k Td Ud l v, 0 <= v <= pages_of sz -> pages_of sz - v <= Z.of_nat fuel ->
  vm_ok k d Td Ud Kd l -> parent k pgdir T U K (fun a => owned d Td Ud a \/ a ∈ l) -> copied k U v Ud ->
  exists r k', copyuvm_loop kend fuel pgdir d (v * 4096) sz k = Ret r k' /\
    only (fun a => owned d Td Ud a \/ a ∈ l) k k' /\
    ((r = 0 /\ (exists l', free_pages k' l' /\ forall a, a ∈ l' <-> owned d Td Ud a \/ a ∈ l) /\ used_up d Td Ud l ∅ 0 (pages_of sz)) \/
     (r = d /\ exists Td' Ud' l', vm_ok k' d Td' Ud' Kd l' /\ conserves d Td Ud l Td' Ud' l' /\ copied k' U (pages_of sz) Ud')).
Proof.
  intros Hsz HU. assert (Hup : UPAGES = 2 ^ 19) by done. unfold KERNBASE in Hsz.
  induction fuel as [|fuel IH]; intros k Td Ud l v Hv Hfuel V P C.
  { exists d, k. split_and!; try done. right. split; [done|]. exists Td, Ud, l. split_and!; try done.
    by replace (pages_of sz) with v by lia. }
  cbn [copyuvm_loop]. destruct (Z.ltb_spec (v * 4096) sz) as [Hlt|Hge].
  2: { exists d, k. split_and!; try done. right. split; [done|]. exists Td, Ud, l. split_and!; try done.
       replace (pages_of sz) with v by (unfold pages_of in *; lia). done. }
  assert (Hvn : v < pages_of sz) by (unfold pages_of; lia). assert (Hvu : 0 <= v < UPAGES) by (unfold pages_of in *; lia).
  destruct (HU v ltac:(lia)) as [[p f] Ep]. pose proof P as [A Hapart].
  destruct (read_entry k pgdir T U K v p f A Ep) as (t & Ew & Ht0 & Eld & Hpv & Hf1 & Hf2 & Hpg & _).
  rewrite (bind_Ret _ _ _ _ _ Ew), (proj2 (Z.eqb_neq _ 0) Ht0), gets_bind, Eld.
  destruct (entry_parts kend Hkend p f Hpv Hf1) as (-> & -> & -> & _). rewrite Hf2. cbn [Z.eqb Pos.eqb negb]. cbv zeta.
  destruct (valid_page_V2P kend Hkend p Hpv) as (_ & _ & _ & _ & _ & EP2V).
  destruct l as [|m l].
  { rewrite (bind_Ret _ _ _ _ _ (kalloc_empty kend k d Td Ud Kd [] V eq_refl)). cbn [Z.eqb].
    destruct (freevm_spec k d Td Ud Kd [] V) as (k' & l' & E & Hf & Hl & Ho). rewrite (bind_Ret _ _ _ _ _ E).
    exists 0, k'. split_and!; try done; [eapply only_weaken; [|exact Ho]; tauto|].
    left. split_and!; [done| |by apply (copied_used_up k d Td Ud Kd [] U v); [|cbn; lia| |lia]]. exists l'. split; [done|]. intros a. rewrite Hl. tauto. }
  destruct Hpg as (b & Eb & Hbl & Hbb).
  destruct (take_page kend k d Td Ud Kd m l b V Hbl Hbb) as (k1 & Ek & Hm0 & Epg & V2 & Hmv & Hmg & Hml & Hmo & Ho2 & Hmb).
  rewrite (bind_Ret _ _ _ _ _ Ek), (proj2 (Z.eqb_neq m 0) Hm0), EP2V, modify_bind.
  assert (Epb : page k1 p = b) by (apply page_lookup; by rewrite Epg). rewrite Epb.
  set (k2 := set_page m b k1) in *.
  assert (Hpo : ~ (owned d Td Ud p \/ p ∈ m :: l)) by (apply Hapart; right; right; eauto).
  destruct (map_user kend Hkend k2 d Td Ud Kd l v m f V2 Hvu (proj2 C v ltac:(lia)) Hmv Hmg Hml Hmo Hf1) as
    [[Em El]|(k3 & T3 & l3 & Em & V3 & HT3 & Hc3 & Ho3)]; rewrite (bind_Ret _ _ _ _ _ Em); cbn [Z.ltb Z.compare].
  - rewrite (bind_Ret _ _ _ _ _ (kfree_eq kend m k2 Hmv)).
    destruct (freevm_spec (kfreed m k2) d Td Ud Kd (m :: l) ltac:(by apply kfreed_ok)) as (k' & l' & E & Hf & Hl & Ho).
    rewrite (bind_Ret _ _ _ _ _ E). exists 0, k'. split_and!; try done.
    + intros a Ha. rewrite elem_of_cons in Ha. rewrite Ho, kfreed_pages, Ho2 by (intros ?; tauto). done.
    + left. split_and!; [done| |apply (copied_used_up k d Td Ud Kd (m :: l) U v); [done|rewrite El; cbn; lia|done|lia]].
      exists l'. split; [done|]. intros a. rewrite Hl. tauto.
  - rewrite (lor_flag f Hf2) in V3.
    unfold PGSIZE. rewrite (u32_small (v * 4096 + 4096)) by lia. replace (v * 4096 + 4096) with ((v + 1) * 4096) by lia.
    assert (Eu : Ud !! v = None) by (apply C; lia).
    assert (Hc1 : conserves d Td Ud (m :: l) T3 (<[v := (m, f)]> Ud) l3).
    { intros a. rewrite owned_insert by done. rewrite elem_of_cons. specialize (Hc3 a). tauto. }
    assert (Ho : only (fun a => owned d Td Ud a \/ a ∈ m :: l) k k3).
    { intros a Ha. rewrite Ho3, Ho2; [done|intros ->; apply Ha; right; left|]. intros Ht. apply Ha, (Hc1 a). left.
      destruct Ht as [->|?]; [by left|right; by left]. }
    destruct (IH k3 T3 (<[v := (m, f)]> Ud) l3 (v + 1)) as (r & k' & E & Ho' & Hr); try lia; try done.
    + eapply parent_ext; [|by eapply parent_only]. intros a. apply (Hc1 a).
    + eapply (copied_snoc k k2 k3); try done; lia.
    + exists r, k'. split; [done|]. split; [eapply only_trans; [exact Ho|]; eapply only_weaken; [|exact Ho']; intros a; apply (Hc1 a)|].
      destruct Hr as [(-> & (l' & Hf' & Hl') & Hu)|(-> & Td' & Ud' & l' & V' & Hc' & C')]; [left|right]; (split; [done|]).
      * split; [|by eapply used_up_conserves]. exists l'. split; [done|]. intros a. rewrite Hl'. apply (Hc1 a).
      * exists Td', Ud', l'. split_and!; try done. by eapply conserves_trans.
Qed.
Lemma copyuvm_spec k pgdir T U K l sz :
  free_pages k l -> parent k pgdir T U K (fun a => a ∈ l) ->
  0 <= sz <= KERNBASE -> (forall w, 0 <= w < pages_of sz -> is_Some (U !! w)) ->
  exists r k', copyuvm kend data pgdir sz k = Ret r k' /\
    only (fun w => w ∈ l) k k' /\
    ((r = 0 /\ (exists l', free_pages k' l' /\ forall a, a ∈ l' <-> a ∈ l) /\ Z.of_nat (length l) <= 1026 + pages_of sz) \/
     (r <> 0 /\ exists T' U' l', vm_ok k' r T' U' kernel_entry l' /\ copied k' U (pages_of sz) U' /\
        forall a, owned r T' U' a \/ a ∈ l' <-> a ∈ l)).
Proof.
  intros Hf P Hsz HU. unfold copyuvm. destruct (setupkvm_spec k l Hf) as (d & k1 & E1 & Hlen & Ho1 & Hr1). rewrite (bind_Ret _ _ _ _ _ E1).
  assert (0 <= pages_of sz) as Hps by (unfold pages_of; lia).
  destruct Hr1 as [(-> & l' & Hf' & Hl')|(Hd & Td & l1 & V1 & Hl1)].
  - cbn [Z.eqb]. exists 0, k1. split_and!; try done. left. split_and!; [done|by exists l'|]. specialize (Hlen eq_refl). lia.
  - rewrite (proj2 (Z.eqb_neq d 0) Hd).
    destruct (copyuvm_loop_spec pgdir T U K d kernel_entry sz Hsz HU (Z.to_nat (sz / PGSIZE + 1)) k1 Td ∅ l1 0) as (r & k2 & E2 & Ho2 & Hr2).
    + unfold pages_of. lia.
    + unfold pages_of, PGSIZE. lia.
    + done.
    + eapply parent_ext; [|by eapply parent_only]. exact Hl1.
    + split; [intros; lia|intros; apply lookup_empty].
    + assert (Ho : only (fun w => w ∈ l) k k2).
      { eapply only_trans; [exact Ho1|]. eapply only_weaken; [|exact Ho2]. intros a. apply Hl1. }
      exists r, k2. split_and!; try done.
      destruct Hr2 as [(-> & (l' & Hf' & Hl') & Hu)|(-> & T' & U' & l' & V' & Hc' & C')]; [left|right]; (split; [done|]).
      * split; [exists l'; split; [done|]; intros a; by rewrite Hl', Hl1|].
        eapply (used_up_pages d Td ∅ l1); [apply Hf|intros a; apply Hl1|done|done].
      * exists T', U', l'. split_and!; try done. intros a. etrans; [apply (Hc' a)|apply Hl1].
Qed.

(** Without its first page, an address space cannot be copied. *)
Lemma copyuvm_doomed k pgdir T U K l sz r k' :
  free_pages k l -> parent k pgdir T U K (fun a => a ∈ l) -> 0 < sz -> U !! 0 = None ->
  copyuvm kend data pgdir sz k = Ret r k' -> r = 0 /\ only (fun w => w ∈ l) k k' /\ exists l', free_pages k' l' /\ forall a, a ∈ l' <-> a ∈ l.
Proof.
  intros Hf P Hsz HU H. unfold copyuvm in H. destruct (setupkvm_spec k l Hf) as (d & k1 & E1 & _ & Ho1 & Hr1). rewrite (bind_Ret _ _ _ _ _ E1) in H.
  destruct Hr1 as [(-> & l' & Hf' & Hl')|(Hd & _)]; [unfold ret in H; injection H as <- <-; eauto|].
  rewrite (proj2 (Z.eqb_neq d 0) Hd) in H. destruct (Z.to_nat (sz / PGSIZE + 1)) as [|fuel] eqn:Ef; [unfold PGSIZE in Ef; lia|].
  cbn [copyuvm_loop] in H. rewrite (proj2 (Z.ltb_lt 0 sz)) in H by done. pose proof (parent_only _ _ _ _ _ _ _ P Ho1) as [A _].
  destruct (as_owned _ _ _ _ _ _ A pgdir) as [Hdv _]; [by left|]. destruct (valid_page_V2P kend Hkend pgdir Hdv) as (Hdm & _).
  pose proof (as_pde _ _ _ _ _ _ A 0 ltac:(lia)) as Epde. change (Z.to_nat 0) with 0%nat in Epde. pose proof (as_entry _ _ _ _ _ _ A 0 ltac:(lia)) as Ee. unfold entry, expected in Ee.
  change (0 <? UPAGES) with true in Ee. rewrite HU in Ee. change (0 / 1024) with 0 in Ee. change (Z.to_nat (0 mod 1024)) with 0%nat in Ee.
  assert (Eld : ld32 k1 (pgdir + 4 * PDX 0) = get32 (page k1 pgdir) 0) by (change (PDX 0) with 0; by rewrite ld32_word by lia).
  destruct (T !! 0) as [t|] eqn:Et.
  - destruct (as_owned _ _ _ _ _ _ A t) as [Htv _]; [right; left; eauto|]. destruct (valid_page_V2P kend Hkend t Htv) as (Htm & Htr & _ & _ & _ & EP).
    assert (Ew : walkpgdir pgdir 0 false k1 = Ret (t + 4 * 0) k1).
    { unfold walkpgdir. rewrite gets_bind, Eld, Epde. destruct (entry_parts kend Hkend t 7 Htv ltac:(lia)) as (-> & _ & -> & _).
      cbn [Z.eqb Pos.eqb]. by rewrite EP. }
    rewrite (bind_Ret _ _ _ _ _ Ew), (proj2 (Z.eqb_neq (t + 4 * 0) 0)), gets_bind in H by (unfold KERNBASE in Htr; lia).
    rewrite ld32_word in H by lia. change (Z.to_nat 0) with 0%nat in H. rewrite Ee in H. done.
  - assert (Ew : walkpgdir pgdir 0 false k1 = Ret 0 k1) by (unfold walkpgdir; by rewrite gets_bind, Eld, Epde).
    by rewrite (bind_Ret _ _ _ _ _ Ew) in H.
Qed.

(** C20: [copyuvm] of an address space whose pages up to [sz] are all mapped
    never panics and leaves the parent's directory, tables and pages as they
    are.  It returns either the directory of an address space with the
    kernel's mappings, in which every page of the parent below [sz] has a copy
    of its own with the same contents and flags and nothing else is mapped, or
    0, and then every page it had taken is free again, and there were not
    enough free pages for the copies, a directory and a full set of page
    tables.  In either case the
    pages that were free are now exactly the free pages and those of the
    child. *)
Theorem copyuvm_correct k pgdir T U K l sz :
  free_pages k l -> parent k pgdir T U K (fun a => a ∈ l) ->
  0 <= sz <= KERNBASE -> (forall w, 0 <= w < pages_of sz -> is_Some (U !! w)) ->
  exists r k', copyuvm kend data pgdir sz k = Ret r k' /\
    parent k' pgdir T U K (fun a => a ∈ l) /\ (forall a, owned pgdir T U a -> page k' a = page k a) /\
    ((r = 0 /\ (exists l', free_pages k' l' /\ forall a, a ∈ l' <-> a ∈ l) /\ Z.of_nat (length l) <= 1026 + pages_of sz) \/
     (r <> 0 /\ exists T' U' l', vm_ok k' r T' U' kernel_entry l' /\ copied k' U (pages_of sz) U' /\
        forall a, owned r T' U' a \/ a ∈ l' <-> a ∈ l)).
Proof.
  intros Hf P Hsz HU. destruct (copyuvm_spec k pgdir T U K l sz Hf P Hsz HU) as (r & k' & E & Ho & Hr).
  exists r, k'. split; [done|]. split; [by eapply parent_only|]. split; [|done]. intros a Ha. apply page_ext, Ho. by apply P.
Qed.
End whole_spaces.

(** An address space with one page of user memory, among 2300 pages. *)
Module copydemo.
Definition pagelist : list Z := demo.pagenum <$> seqZ 0 2300.
Definition mem0 : kmem := foldr kfreed (Kmem true 0 ∅) pagelist.
Definition data : Z := KERNBASE + 0x180000.

Lemma copy_space : exists k d T U l, vm_ok demo.kend k d T U (fun _ => 0) l /\ is_Some (U !! 0) /\ (1028 <= length l)%nat.
Proof.
  assert (Hf : free_pages demo.kend mem0 pagelist) by (apply demo.free_range; lia).
  assert (Hlen : length pagelist = 2300%nat) by (unfold pagelist; by rewrite length_fmap, length_seqZ).
  destruct pagelist as [|p l] eqn:Epl; [done|]. injection Hlen as Hlen.
  destruct (empty_space demo.kend mem0 p l Hf) as (k1 & _ & _ & _ & V1).
  destruct (allocuvm_spec demo.kend eq_refl _ p ∅ ∅ (fun _ => 0) l 0 4096 V1 ltac:(lia) eq_refl ltac:(done)) as (r & k2 & T & U & l2 & _ & V2 & Hc & _ & Hr).
  change (pages_of 0) with 0 in Hr. change (pages_of 4096) with 1 in Hr. destruct Hr as [[_ [G1 G2]]|(_ & _ & Hu)].
  2: { pose proof (used_up_length demo.kend _ _ _ _ _ _ 0 1 V1 ltac:(lia) Hu). lia. }
  destruct (G1 0 ltac:(lia)) as (q & Eq & _). exists k2, p, T, U, l2. split; [exact V2|]. split; [eauto|].
  pose proof (owned_length p T (p :: l) (q :: l2) ltac:(apply Hf)) as H. cbn [length] in H.
  specialize (H ltac:(intros j t Hj; by apply (as_table _ _ _ _ _ _ (vo_space _ _ _ _ _ _ _ V2)) in Hj as [? _])).
  enough (S (length l) <= 1025 + S (length l2))%nat by lia. apply H. clear H.
  intros a [->|Ha]%elem_of_cons; [left; by left|]. rewrite elem_of_cons.
  destruct (proj2 (Hc a) (or_intror Ha)) as [[->|[?|(w & f & Hw)]]|?]; [left; by left|left; right; by left| |by right; right].
  right. left. destruct (decide (w = 0)) as [->|Hne]; [congruence|]. rewrite G2, lookup_empty in Hw by lia. done.
Qed.
End copydemo.

(** There are enough pages: the child gets its copy. *)
Lemma copyuvm_correct_witness :
  exists k d T (U : gmap Z (Z * Z)) (l : list Z) r k', is_Some (U !! 0) /\ copyuvm demo.kend copydemo.data d 4096 k = Ret r k' /\
    parent demo.kend k' d T U (fun _ => 0) (fun a => a ∈ l) /\ r <> 0 /\ exists U', copied k' U 1 U'.
Proof.
  destruct copydemo.copy_space as (k & d & T & U & l & V & HU & Hl). pose proof V as [A Hf Hap].
  destruct (copyuvm_correct demo.kend ltac:(done) copydemo.data ltac:(done) ltac:(done) k d T U (fun _ => 0) l 4096 Hf)
    as (r & k' & E & P & _ & Hr).
  - split; [done|]. intros a Ha Hla. by apply (Hap a Hla).
  - done.
  - intros w Hw. change (pages_of 4096) with 1 in Hw. by replace w with 0 by lia.
  - exists k, d, T, U, l, r, k'. split; [exact HU|]. split; [exact E|]. split; [exact P|].
    change (pages_of 4096) with 1 in Hr. destruct Hr as [(_ & _ & Hfew)|(Hr & T' & U' & l' & _ & C & _)]; [exfalso; lia|].
    split; [exact Hr|]. exists U'. exact C.
Defined.
