(* ===== verification/Proc.v ===== *)
(** * Processes ([kernel/proc.c], [kernel/proc.h], [kernel/sysproc.c])

    The process table over the rest of the kernel.  A pointer to a process is
    the number of its slot.  What a function does under [ptable.lock] is one
    definition, so that the functions can be interleaved at the points where
    they give up the lock; [cur] is [myproc()] and [c] the cpu it runs on. *)

From S2P Require Import Prelude Params CString Locks Kalloc Bio Log Crash Block Balloc Inode Bmap Content Pipe Path Syscall File Vm.
Local Open Scope Z_scope.
Local Open Scope kmonad_scope.

Inductive procstate := UNUSED | EMBRYO | SLEEPING | RUNNABLE | RUNNING | ZOMBIE.

#[global] Instance procstate_eq_dec : EqDecision procstate.
Proof. solve_decision. Defined.

(** [void *chan]: the address of a process, or another address. *)
Inductive chan := ChProc (i : nat) | ChAddr (a : Z).

#[global] Instance chan_eq_dec : EqDecision chan.
Proof. solve_decision. Defined.

(** [struct context]: where a switch to the process goes on. *)
Inductive context := AtForkret | InYield | InSleep | InWait.

(** [struct trapframe]; [tf_regs] are the registers the kernel only saves. *)
Record trapframe := Tf {
  tf_eax : Z; tf_eip : Z; tf_esp : Z; tf_cs : Z; tf_ds : Z; tf_es : Z; tf_ss : Z; tf_eflags : Z; tf_regs : list Z
}.

Record proc := Proc {
  p_sz : Z;
  p_pgdir : Z;
  p_kstack : Z;
  p_state : procstate;
  p_pid : Z;
  p_parent : option nat;
  p_tf : trapframe;
  p_context : context;
  p_chan : option chan;
  p_killed : bool;
  p_ofile : list (option nat);
  p_cwd : option nat;
  p_name : list Z
}.

(** [struct cpu]: the process it runs, and how far the loop of [scheduler] has got. *)
Record cpu := Cpu { c_proc : option nat; c_next : nat }.

Record kern := Kern {
  shared : kstate;              (* files, pipes, file system and memory *)
  ptable : list proc;
  nextpid : Z;
  initproc : option nat;
  cpus : list cpu;
  ticks : Z
}.

Definition zero_tf : trapframe := Tf 0 0 0 0 0 0 0 0 [].
Definition zero_proc : proc :=
  Proc 0 0 0 UNUSED 0 None zero_tf AtForkret None false (replicate (Z.to_nat NOFILE) None) None (replicate 16 0).

Definition set_shared (x : kstate) (s : kern) := Kern x (ptable s) (nextpid s) (initproc s) (cpus s) (ticks s).
Definition set_ptable (x : list proc) (s : kern) := Kern (shared s) x (nextpid s) (initproc s) (cpus s) (ticks s).
Definition set_nextpid (x : Z) (s : kern) := Kern (shared s) (ptable s) x (initproc s) (cpus s) (ticks s).
Definition set_initproc (x : option nat) (s : kern) := Kern (shared s) (ptable s) (nextpid s) x (cpus s) (ticks s).
Definition set_cpus (x : list cpu) (s : kern) := Kern (shared s) (ptable s) (nextpid s) (initproc s) x (ticks s).
Definition set_ticks (x : Z) (s : kern) := Kern (shared s) (ptable s) (nextpid s) (initproc s) (cpus s) x.

Definition onshared {A} (m : M kstate A) : M kern A := lift shared set_shared m.
Definition onmem {A} (m : M kmem A) : M kern A := onshared (onkmem m).

Definition getproc (i : nat) (s : kern) : proc := default zero_proc (ptable s !! i).
Definition modproc (i : nat) (f : proc -> proc) : M kern unit :=
  modify (fun s => set_ptable (<[i := f (getproc i s)]> (ptable s)) s).

(** Assignments to one field. *)
Definition with_state x (p : proc) := Proc (p_sz p) (p_pgdir p) (p_kstack p) x (p_pid p) (p_parent p) (p_tf p) (p_context p) (p_chan p) (p_killed p) (p_ofile p) (p_cwd p) (p_name p).
Definition with_pid x (p : proc) := Proc (p_sz p) (p_pgdir p) (p_kstack p) (p_state p) x (p_parent p) (p_tf p) (p_context p) (p_chan p) (p_killed p) (p_ofile p) (p_cwd p) (p_name p).
Definition with_kstack x (p : proc) := Proc (p_sz p) (p_pgdir p) x (p_state p) (p_pid p) (p_parent p) (p_tf p) (p_context p) (p_chan p) (p_killed p) (p_ofile p) (p_cwd p) (p_name p).
Definition with_parent x (p : proc) := Proc (p_sz p) (p_pgdir p) (p_kstack p) (p_state p) (p_pid p) x (p_tf p) (p_context p) (p_chan p) (p_killed p) (p_ofile p) (p_cwd p) (p_name p).
Definition with_space sz pgdir (p : proc) := Proc sz pgdir (p_kstack p) (p_state p) (p_pid p) (p_parent p) (p_tf p) (p_context p) (p_chan p) (p_killed p) (p_ofile p) (p_cwd p) (p_name p).
Definition with_tf x (p : proc) := Proc (p_sz p) (p_pgdir p) (p_kstack p) (p_state p) (p_pid p) (p_parent p) x (p_context p) (p_chan p) (p_killed p) (p_ofile p) (p_cwd p) (p_name p).
Definition with_context x (p : proc) := Proc (p_sz p) (p_pgdir p) (p_kstack p) (p_state p) (p_pid p) (p_parent p) (p_tf p) x (p_chan p) (p_killed p) (p_ofile p) (p_cwd p) (p_name p).
Definition with_chan x (p : proc) := Proc (p_sz p) (p_pgdir p) (p_kstack p) (p_state p) (p_pid p) (p_parent p) (p_tf p) (p_context p) x (p_killed p) (p_ofile p) (p_cwd p) (p_name p).
Definition with_killed x (p : proc) := Proc (p_sz p) (p_pgdir p) (p_kstack p) (p_state p) (p_pid p) (p_parent p) (p_tf p) (p_context p) (p_chan p) x (p_ofile p) (p_cwd p) (p_name p).
Definition with_ofile x (p : proc) := Proc (p_sz p) (p_pgdir p) (p_kstack p) (p_state p) (p_pid p) (p_parent p) (p_tf p) (p_context p) (p_chan p) (p_killed p) x (p_cwd p) (p_name p).
Definition with_pcwd x (p : proc) := Proc (p_sz p) (p_pgdir p) (p_kstack p) (p_state p) (p_pid p) (p_parent p) (p_tf p) (p_context p) (p_chan p) (p_killed p) (p_ofile p) x (p_name p).
Definition with_name x (p : proc) := Proc (p_sz p) (p_pgdir p) (p_kstack p) (p_state p) (p_pid p) (p_parent p) (p_tf p) (p_context p) (p_chan p) (p_killed p) (p_ofile p) (p_cwd p) x.
(** [safestrcpy(p->name, t, sizeof(p->name))] *)
Definition copy_name (t : list Z) (p : proc) : proc := with_name (splice (p_name p) 0 (safestrcpy t 16)) p.

Definition tf_set_eax x (t : trapframe) := Tf x (tf_eip t) (tf_esp t) (tf_cs t) (tf_ds t) (tf_es t) (tf_ss t) (tf_eflags t) (tf_regs t).

Definition slots (s : kern) : list nat := seq 0 (length (ptable s)).

(** ** Switching *)

Definition setcpu (c : nat) (x : cpu) : M kern unit := modify (fun s => set_cpus (<[c := x]> (cpus s)) s).
Definition getcpu (c : nat) (s : kern) : cpu := default (Cpu None 0) (cpus s !! c).

(** [myproc()->state] has been changed by the caller; [ctx] is where the switch
    back goes on.  The scheduler then clears [c->proc].  The callers are critical
    sections of [ptable.lock] and hold no other lock, so the tests of [sched]
    that [ptable.lock] is held, once, with interrupts off, are not repeated
    here. *)
Definition sched (c cur : nat) (ctx : context) : M kern unit :=
  st <- gets (fun s => p_state (getproc cur s));;
  if decide (st = RUNNING) then panic "sched running" else
  modproc cur (with_context ctx);;
  x <- gets (getcpu c);;
  setcpu c (Cpu None (c_next x)).

Definition wakeup1 (ch : option chan) : M kern unit :=
  modify (fun s => set_ptable
    ((fun p => if decide (p_state p = SLEEPING /\ p_chan p = ch) then with_state RUNNABLE p else p) <$> ptable s) s).

Definition wakeup (ch : chan) : M kern unit := wakeup1 (Some ch).

(** [sleep] up to the switch. *)
Definition sleep (c cur : nat) (ch : option chan) (ctx : context) : M kern unit :=
  modproc cur (with_chan ch);;
  modproc cur (with_state SLEEPING);;
  sched c cur ctx.

Definition yield (c cur : nat) : M kern unit :=
  modproc cur (with_state RUNNABLE);;
  sched c cur InYield.

(** ** Creation *)

Section operations.
Context (sb : superblock) (kend data : Z).
Context (devsw_read : Z -> option (nat -> Z -> M (fstate lstate) (Z * list Z))).

(** [allocproc] under the lock. *)
Definition allocproc_slot : M kern (option nat) :=
  t <- gets ptable;;
  match list_find (fun p => p_state p = UNUSED) t with
  | None => ret None
  | Some (i, _) =>
      modproc i (with_state EMBRYO);;
      pid <- gets nextpid;;
      modproc i (with_pid pid);;
      modify (set_nextpid (s32 (pid + 1)));;
      ret (Some i)
  end.

(** The kernel stack.  The trap frame at its top and the context that starts at
    [forkret] are in the fields of the process. *)
Definition allocproc_stack (i : nat) : M kern bool :=
  a <- onmem kalloc;;
  modproc i (with_kstack a);;
  if a =? 0 then modproc i (with_state UNUSED);; ret false else
  modproc i (with_context AtForkret);; ret true.

Definition allocproc : M kern (option nat) :=
  r <- allocproc_slot;;
  match r with
  | None => ret None
  | Some i => ok <- allocproc_stack i;; ret (if ok : bool then Some i else None)
  end.

(** [fork] from the second half of [allocproc] to the end of the copying. *)
Definition fork_copy (cur np : nat) : M kern bool :=
  ok <- allocproc_stack np;;
  if negb ok then ret false else
  p <- gets (getproc cur);;
  d <- onmem (copyuvm kend data (p_pgdir p) (p_sz p));;
  if d =? 0 then
    x <- gets (getproc np);;
    modproc np (with_space (p_sz x) 0);;
    onmem (kfree kend (p_kstack x));;
    modproc np (with_kstack 0);;
    modproc np (with_state UNUSED);;
    ret false
  else
  modproc np (with_space (p_sz p) d);;
  modproc np (with_parent (Some cur));;
  modproc np (with_tf (tf_set_eax 0 (p_tf p)));;
  each (fun i =>
    match p_ofile p !! i with
    | Some (Some f) =>
        g <- onshared (filedup f);;
        modproc np (fun x => with_ofile (<[i := Some g]> (p_ofile x)) x)
    | _ => ret tt
    end) (seq 0 (Z.to_nat NOFILE));;
  match p_cwd p with
  | None => panic "trap"
  | Some ip =>
      jp <- onshared (onfs (idup ip));;
      modproc np (with_pcwd (Some jp));;
      modproc np (copy_name (p_name p));;
      ret true
  end.

(** The child may run. *)
Definition fork_done (np : nat) : M kern Z :=
  pid <- gets (fun s => p_pid (getproc np s));;
  modproc np (with_state RUNNABLE);;
  ret pid.

Definition fork (cur : nat) : M kern Z :=
  r <- allocproc_slot;;
  match r with
  | None => ret (-1)
  | Some np => ok <- fork_copy cur np;; if ok : bool then fork_done np else ret (-1)
  end.

(** ["initcode"] *)
Definition initcode_name : list Z := [105; 110; 105; 116; 99; 111; 100; 101].
Definition SEG_UCODE : Z := 3.
Definition SEG_UDATA : Z := 4.
Definition DPL_USER : Z := 3.
Definition FL_IF : Z := 0x200.

Definition userinit (initcode : list Z) : M kern unit :=
  r <- allocproc;;
  modify (set_initproc r);;
  match r with
  | None => panic "trap"
  | Some i =>
      d <- onmem (setupkvm kend data);;
      if d =? 0 then panic "userinit: out of memory?" else
      onmem (inituvm d initcode);;
      modproc i (with_space PGSIZE d);;
      let ds := Z.lor (Z.shiftl SEG_UDATA 3) DPL_USER in
      modproc i (with_tf (Tf 0 0 PGSIZE (Z.lor (Z.shiftl SEG_UCODE 3) DPL_USER) ds ds ds FL_IF []));;
      modproc i (copy_name initcode_name);;
      pid <- gets (fun s => p_pid (getproc i s));;
      ip <- onshared (onfs (namei (BlockLayer0 := log_layer pid) pid sb 0 devsw_read [47]));;
      modproc i (with_pcwd ip);;
      modproc i (with_state RUNNABLE)
  end.

Definition growproc (cur : nat) (n : Z) : M kern Z :=
  p <- gets (getproc cur);;
  let sz := p_sz p in
  if 0 <? n then
    sz' <- onmem (allocuvm kend (p_pgdir p) sz (u32 (sz + n)));;
    if sz' =? 0 then ret (-1) else
    modproc cur (fun x => with_space sz' (p_pgdir x) x);; ret 0
  else if n <? 0 then
    sz' <- onmem (deallocuvm kend (p_pgdir p) sz (u32 (sz + n)));;
    if sz' =? 0 then ret (-1) else
    modproc cur (fun x => with_space sz' (p_pgdir x) x);; ret 0
  else
    modproc cur (fun x => with_space sz (p_pgdir x) x);; ret 0.

(** ** The end of a process *)

(** [exit] before it takes the lock. *)
Definition exit_files (cur : nat) : M kern unit :=
  i0 <- gets initproc;;
  if decide (i0 = Some cur) then panic "init exiting" else
  pid <- gets (fun s => p_pid (getproc cur s));;
  each (fun fd =>
    o <- gets (fun s => p_ofile (getproc cur s) !! fd);;
    match o with
    | Some (Some f) =>
        onshared (fileclose pid sb kend f);;
        modproc cur (fun x => with_ofile (<[fd := None]> (p_ofile x)) x)
    | _ => ret tt
    end) (seq 0 (Z.to_nat NOFILE));;
  onshared (onfs (onblk begin_op));;
  cwd <- gets (fun s => p_cwd (getproc cur s));;
  match cwd with
  | None => panic "trap"
  | Some ip => onshared (onfs (iput (BlockLayer0 := log_layer pid) pid sb ip))
  end;;
  onshared (onfs (onblk (end_op pid)));;
  modproc cur (with_pcwd None).

(** [exit] from there on; it does not return. *)
Definition exit_sched (c cur : nat) : M kern unit :=
  parent <- gets (fun s => p_parent (getproc cur s));;
  wakeup1 (ChProc <$> parent);;
  ps <- gets slots;;
  init <- gets initproc;;
  each (fun i =>
    p <- gets (getproc i);;
    when (bool_decide (p_parent p = Some cur)) (
      modproc i (with_parent init);;
      when (bool_decide (p_state p = ZOMBIE)) (wakeup1 (ChProc <$> init)))) ps;;
  modproc cur (with_state ZOMBIE);;
  sched c cur InSleep.

Inductive waited :=
| Reaped (pid : Z)
| NoChild
| Asleep.

(** One turn of the [for(;;)] of [wait], with the lock held: the inner loop ends
    at the first zombie, and keeps [havekids] otherwise. *)
Fixpoint wait_scan (cur : nat) (ps : list nat) (havekids : bool) : M kern (Z + bool) :=
  match ps with
  | [] => ret (inr havekids)
  | i :: ps' =>
      p <- gets (getproc i);;
      if negb (bool_decide (p_parent p = Some cur)) then wait_scan cur ps' havekids else
      if negb (bool_decide (p_state p = ZOMBIE)) then wait_scan cur ps' true else
      onmem (kfree kend (p_kstack p));;
      modproc i (with_kstack 0);;
      onmem (freevm kend (p_pgdir p));;
      modproc i (with_pid 0);;
      modproc i (with_parent None);;
      modproc i (fun x => with_name (<[0%nat := 0]> (p_name x)) x);;
      modproc i (with_killed false);;
      modproc i (with_state UNUSED);;
      ret (inl (p_pid p))
  end.

Definition wait_turn (c cur : nat) : M kern waited :=
  ps <- gets slots;;
  r <- wait_scan cur ps false;;
  match r with
  | inl pid => ret (Reaped pid)
  | inr havekids =>
      killed <- gets (fun s => p_killed (getproc cur s));;
      if negb havekids || killed then ret NoChild else
      sleep c cur (Some (ChProc cur)) InWait;; ret Asleep
  end.

Definition kill (pid : Z) : M kern Z :=
  t <- gets ptable;;
  match list_find (fun p => p_pid p = pid) t with
  | None => ret (-1)
  | Some (i, _) =>
      modproc i (with_killed true);;
      st <- gets (fun s => p_state (getproc i s));;
      when (bool_decide (st = SLEEPING)) (modproc i (with_state RUNNABLE));;
      ret 0
  end.

(** ** The scheduler

    What a process does when it is switched to, up to its next release of
    [ptable.lock]: [forkret] and [yield] release it at once, [sleep] clears the
    channel first, and in [wait] the lock is kept for another turn. *)
Definition resume (c p : nat) : M kern (option waited) :=
  x <- gets (getproc p);;
  match p_context x with
  | AtForkret | InYield => ret None
  | InSleep => modproc p (with_chan None);; ret None
  | InWait => modproc p (with_chan None);; r <- wait_turn c p;; ret (Some r)
  end.

(** The checks of [switchuvm]; the rest of it loads the segment and page table
    registers. *)
Definition switchuvm (p : nat) : M kern unit :=
  x <- gets (getproc p);;
  if p_kstack x =? 0 then panic "switchuvm: no kstack" else
  if p_pgdir x =? 0 then panic "switchuvm: no pgdir" else ret tt.

(** The next runnable process from the cpu's place in the table on; at the end
    of the table the loop starts again. *)
Definition scheduler (c : nat) : M kern (option waited) :=
  x <- gets (getcpu c);;
  t <- gets ptable;;
  match list_find (fun p => p_state p = RUNNABLE) (drop (c_next x) t) with
  | None => setcpu c (Cpu None 0);; ret None
  | Some (k, _) =>
      let p := (c_next x + k)%nat in
      setcpu c (Cpu (Some p) (S p));;
      switchuvm p;;
      modproc p (with_state RUNNING);;
      resume c p
  end.
End operations.
