(* ===== verification/ProcInv.v ===== *)
(** * The process table under concurrency

    The functions of [Proc] as steps of processes that run on several cpus,
    and the invariant of the process table. *)

From S2P Require Import Prelude Params Kalloc Log Inode Pipe File Vm Proc.
Local Open Scope Z_scope.
Local Open Scope kmonad_scope.

(** An assignment to process [i]. *)
Definition upd (i : nat) (f : proc -> proc) (s : kern) : kern := set_ptable (<[i := f (getproc i s)]> (ptable s)) s.

(** ** The system

    Where a process is between the parts of [fork] and of [exit] that are not
    one critical section. *)
Inductive kpc :=
| KRun
| KFork1 (np : nat)          (* [allocproc] has found the slot *)
| KFork2 (np : nat)          (* the copy is made *)
| KExit.                     (* the files are closed *)

Record sys := Sys { kn : kern; pcs : nat -> kpc }.

Definition at_pc (p : nat) (x : kpc) (pc : nat -> kpc) : nat -> kpc := fun q => if decide (q = p) then x else pc q.

(** [cur] is the process that cpu [c] runs. *)
Definition runs (s : sys) (c cur : nat) : Prop := c_proc (getcpu c (kn s)) = Some cur /\ (c < length (cpus (kn s)))%nat.

Section system.
Context (sb : superblock) (kend data : Z).
(** What the system calls on files and the user program of a process do to the
    rest of the kernel and to the memory. *)
Context (other : proc -> kstate -> kstate -> Prop).

(** [pstep who s s']: a step of the process [who], or of the scheduler or an
    interrupt.  A step is a section of [proc.c] under [ptable.lock], or what
    [fork] and [exit] do between two of them: [fork_copy] builds the child's
    memory in a slot that is its own until it is runnable, and takes pages from
    [kalloc] and counts references; [exit_files] drops the references of the
    process.  [ps_other] is a system call on files or a user program at work.
    [exec], which replaces the address space, is in [Exec]. *)
Inductive pstep : option nat -> sys -> sys -> Prop :=
| ps_sched s c r k' :
    c_proc (getcpu c (kn s)) = None -> (c < length (cpus (kn s)))%nat ->
    scheduler kend c (kn s) = Ret r k' -> pstep None s (Sys k' (pcs s))
| ps_yield s c cur k' :
    runs s c cur -> yield c cur (kn s) = Ret tt k' -> pstep (Some cur) s (Sys k' (pcs s))
| ps_sleep s c cur a k' :
    runs s c cur -> pcs s cur = KRun -> sleep c cur (Some (ChAddr a)) InSleep (kn s) = Ret tt k' -> pstep (Some cur) s (Sys k' (pcs s))
| ps_wakeup s a k' :
    wakeup (ChAddr a) (kn s) = Ret tt k' -> pstep None s (Sys k' (pcs s))
| ps_fork s c cur np k' :
    runs s c cur -> pcs s cur = KRun -> allocproc_slot (kn s) = Ret (Some np) k' ->
    pstep (Some cur) s (Sys k' (at_pc cur (KFork1 np) (pcs s)))
| ps_copy s c cur np ok k' :
    runs s c cur -> pcs s cur = KFork1 np -> fork_copy kend data cur np (kn s) = Ret ok k' ->
    pstep (Some cur) s (Sys k' (at_pc cur (if ok : bool then KFork2 np else KRun) (pcs s)))
| ps_forked s c cur np pid k' :
    runs s c cur -> pcs s cur = KFork2 np -> fork_done np (kn s) = Ret pid k' -> pstep (Some cur) s (Sys k' (at_pc cur KRun (pcs s)))
| ps_exit s c cur k' :
    runs s c cur -> pcs s cur = KRun -> exit_files sb kend cur (kn s) = Ret tt k' -> pstep (Some cur) s (Sys k' (at_pc cur KExit (pcs s)))
| ps_zombie s c cur k' :
    runs s c cur -> pcs s cur = KExit -> exit_sched c cur (kn s) = Ret tt k' -> pstep (Some cur) s (Sys k' (at_pc cur KRun (pcs s)))
| ps_wait s c cur r k' :
    runs s c cur -> pcs s cur = KRun -> wait_turn kend c cur (kn s) = Ret r k' -> pstep (Some cur) s (Sys k' (pcs s))
| ps_kill s c cur pid r k' :
    runs s c cur -> pcs s cur = KRun -> kill pid (kn s) = Ret r k' -> pstep (Some cur) s (Sys k' (pcs s))
| ps_grow s c cur n r k' :
    runs s c cur -> pcs s cur = KRun -> - 2 ^ 31 <= n < 2 ^ 31 -> growproc kend cur n (kn s) = Ret r k' -> pstep (Some cur) s (Sys k' (pcs s))
| ps_other s c cur tf ofile cwd x :
    runs s c cur -> pcs s cur = KRun -> other (getproc cur (kn s)) (shared (kn s)) x ->
    pstep (Some cur) s (Sys (upd cur (fun p => with_tf tf (with_pcwd cwd (with_ofile ofile p))) (set_shared x (kn s))) (pcs s)).
End system.

(** ** Reading the result of an operation *)

Lemma bind_inv {St A B} (m : M St A) (k : A -> M St B) s r s' : bind m k s = Ret r s' -> exists a s1, m s = Ret a s1 /\ k a s1 = Ret r s'.
Proof. unfold bind. destruct (m s) as [a s1| |] eqn:E; [eauto|done|done]. Qed.

Lemma bind_assoc {St A B C} (m : M St A) (f : A -> M St B) (g : B -> M St C) s : bind (bind m f) g s = bind m (fun a => bind (f a) g) s.
Proof. unfold bind. by destruct (m s). Qed.

Lemma Ret_inj {St A} (a b : A) (s t : St) : @Ret St A a s = Ret b t -> a = b /\ s = t.
Proof. by intros [= -> ->]. Qed.

Lemma lift_inv {St T A} (get : T -> St) (put : St -> T -> T) (m : M St A) t r t' :
  lift get put m t = Ret r t' -> exists s', m (get t) = Ret r s' /\ t' = put s' t.
Proof. unfold lift. destruct (m (get t)) as [a s1| |] eqn:E; intros [= <- <-]; eauto. Qed.

Lemma modproc_eq i f s : modproc i f s = Ret tt (upd i f s).
Proof. done. Qed.

Lemma getproc_upd i f s j : (i < length (ptable s))%nat -> getproc j (upd i f s) = if decide (j = i) then f (getproc i s) else getproc j s.
Proof.
  intros Hi. unfold upd, getproc, set_ptable. cbn [ptable]. destruct (decide (j = i)) as [->|N].
  - by rewrite list_lookup_insert_eq.
  - by rewrite list_lookup_insert_ne.
Qed.

Lemma length_upd i f s : length (ptable (upd i f s)) = length (ptable s).
Proof. unfold upd, set_ptable. cbn. apply length_insert. Qed.

Lemma getproc_shared x s j : getproc j (set_shared x s) = getproc j s.
Proof. done. Qed.

Lemma getproc_pid x s j : getproc j (set_nextpid x s) = getproc j s.
Proof. done. Qed.

Lemma getproc_cpus x s j : getproc j (set_cpus x s) = getproc j s.
Proof. done. Qed.

Lemma in_table i s : p_state (getproc i s) <> UNUSED -> (i < length (ptable s))%nat.
Proof. unfold getproc. destruct (ptable s !! i) eqn:E; [intros _; by eapply lookup_lt_Some|done]. Qed.

(** The parts of the kernel that the invariant is about. *)
Definition same_procs (s s' : kern) : Prop :=
  ptable s' = ptable s /\ nextpid s' = nextpid s /\ initproc s' = initproc s /\ cpus s' = cpus s.

Lemma onshared_inv {A} (m : M kstate A) s r s' : onshared m s = Ret r s' -> exists x, m (shared s) = Ret r x /\ s' = set_shared x s.
Proof. apply lift_inv. Qed.

Lemma onmem_inv {A} (m : M kmem A) s r s' : onmem m s = Ret r s' ->
  exists x, m (k_kmem (shared s)) = Ret r x /\ s' = set_shared (set_kmem x (shared s)) s.
Proof. intros (y & E & ->)%onshared_inv. apply lift_inv in E as (x & E & ->). eauto. Qed.

(** Takes an equation [m s = Ret r s'] apart. *)
Ltac ret_inv H :=
  lazymatch type of H with
  | bind (gets _) _ _ = Ret _ _ => rewrite gets_bind in H; ret_inv H
  | bind (modify _) _ _ = Ret _ _ => rewrite modify_bind in H; ret_inv H
  | bind (ret _) _ _ = Ret _ _ => rewrite ret_bind in H; ret_inv H
  | bind (modproc ?i ?f) _ ?s = Ret _ _ => rewrite (bind_Ret _ _ _ _ _ (modproc_eq i f s)) in H; ret_inv H
  | modproc ?i ?f ?s = Ret _ _ => rewrite (modproc_eq i f s) in H
  | bind (onmem _) _ _ = Ret _ _ =>
      let a := fresh "a" in let s1 := fresh "s" in let x := fresh "x" in let E := fresh "E" in
      apply bind_inv in H as (a & s1 & E & H); apply onmem_inv in E as (x & E & ->); ret_inv H
  | bind (onshared _) _ _ = Ret _ _ =>
      let a := fresh "a" in let s1 := fresh "s" in let x := fresh "x" in let E := fresh "E" in
      apply bind_inv in H as (a & s1 & E & H); apply onshared_inv in E as (x & E & ->); ret_inv H
  | bind _ _ _ = Ret _ _ =>
      let a := fresh "a" in let s1 := fresh "s" in let E := fresh "E" in
      apply bind_inv in H as (a & s1 & E & H)
  | ret _ _ = Ret _ _ => unfold ret in H
  | panic _ _ = Ret _ _ => discriminate H
  | (if ?b then _ else _) _ = Ret _ _ => let B := fresh "B" in destruct b eqn:B; ret_inv H
  | when ?b _ _ = Ret _ _ => let B := fresh "B" in destruct b eqn:B; cbn [when] in H; ret_inv H
  | _ => idtac
  end.

(** ** The invariant *)

Definition live (st : procstate) : Prop := st = SLEEPING \/ st = RUNNABLE \/ st = RUNNING.
Definition forking (pc : nat -> kpc) (q p : nat) : Prop := pc q = KFork1 p \/ pc q = KFork2 p.

Record procs_ok (P : nat -> proc) (C : nat -> option nat) (pc : nat -> kpc) (init : nat) (bound : Z) : Prop := {
  (* a running process is on exactly one cpu *)
  po_cpu : forall c p, C c = Some p -> p_state (P p) = RUNNING;
  po_cpu_inj : forall c c' p, C c = Some p -> C c' = Some p -> c = c';
  po_run : forall p, p_state (P p) = RUNNING -> exists c, C c = Some p;
  (* no two processes have the same pid *)
  po_pid : forall p, 0 <= p_pid (P p) < bound /\ (p_state (P p) <> UNUSED -> 0 < p_pid (P p));
  po_pid_inj : forall p q, p_pid (P p) = p_pid (P q) -> p_pid (P p) <> 0 -> p = q;
  (* every process but the first has a parent that has not exited *)
  po_init : live (p_state (P init)) /\ p_parent (P init) = None;
  po_parent : forall p, p <> init -> p_state (P p) <> UNUSED -> p_state (P p) <> EMBRYO ->
    exists q, p_parent (P p) = Some q /\ q <> p /\ live (p_state (P q));
  po_unused : forall p, p_state (P p) = UNUSED -> p_parent (P p) = None;
  (* a process in creation belongs to the one that creates it *)
  po_embryo : forall p, p_state (P p) = EMBRYO ->
    exists q, (pc q = KFork1 p /\ p_parent (P p) = None) \/ (pc q = KFork2 p /\ p_parent (P p) = Some q);
  po_fork : forall q p, forking pc q p -> p_state (P p) = EMBRYO;
  po_fork_inj : forall q q' p, forking pc q p -> forking pc q' p -> q = q';
  po_pc : forall p, pc p <> KRun -> p_state (P p) = RUNNING \/ (p_state (P p) = RUNNABLE /\ p_context (P p) = InYield);
  po_exit : forall p, pc p = KExit -> p <> init;
  (* a process that sleeps in [wait] has a child to wait for, and nothing to do *)
  po_sleep : forall p, p_state (P p) = SLEEPING -> p_context (P p) = InSleep \/ p_context (P p) = InWait;
  po_wait : forall p, p_state (P p) = SLEEPING -> p_context (P p) = InWait ->
    p_chan (P p) = Some (ChProc p) /\ p_killed (P p) = false /\ (exists q, p_parent (P q) = Some p) /\
    forall q, p_parent (P q) = Some p -> p_state (P q) <> ZOMBIE;
}.

(** The components of the system. *)
Definition procs_of (s : kern) : nat -> proc := fun p => getproc p s.
Definition cpus_of (s : kern) : nat -> option nat := fun c => c_proc (getcpu c s).

Lemma procs_ok_ext P P' C C' pc pc' init bound : (forall p, P' p = P p) -> (forall c, C' c = C c) -> (forall p, pc' p = pc p) ->
  procs_ok P C pc init bound -> procs_ok P' C' pc' init bound.
Proof.
  intros EP EC Epc [H1 H2 H3 H4 H5 H6 H7 H8 H9 H10 H11 H12 H13 H14 H15].
  split; unfold forking in *; repeat setoid_rewrite EP; repeat setoid_rewrite EC; repeat setoid_rewrite Epc; assumption.
Qed.

(** Changes to fields that the invariant does not mention. *)
Definition same_thread (p p' : proc) : Prop :=
  p_state p' = p_state p /\ p_pid p' = p_pid p /\ p_parent p' = p_parent p /\ p_context p' = p_context p /\
  p_chan p' = p_chan p /\ p_killed p' = p_killed p.

Lemma procs_ok_same P P' C pc init bound : (forall p, same_thread (P p) (P' p)) ->
  procs_ok P C pc init bound -> procs_ok P' C pc init bound.
Proof.
  intros E. assert (E1 : forall p, p_state (P' p) = p_state (P p)) by apply E. assert (E2 : forall p, p_pid (P' p) = p_pid (P p)) by apply E.
  assert (E3 : forall p, p_parent (P' p) = p_parent (P p)) by apply E. assert (E4 : forall p, p_context (P' p) = p_context (P p)) by apply E.
  assert (E5 : forall p, p_chan (P' p) = p_chan (P p)) by apply E. assert (E6 : forall p, p_killed (P' p) = p_killed (P p)) by apply E.
  intros [H1 H2 H3 H4 H5 H6 H7 H8 H9 H10 H11 H12 H13 H14 H15].
  split; repeat setoid_rewrite E1; repeat setoid_rewrite E2; repeat setoid_rewrite E3; repeat setoid_rewrite E4;
    repeat setoid_rewrite E5; repeat setoid_rewrite E6; assumption.
Qed.

(** ** Steps on the table *)

Definition put (i : nat) {A} (x : A) (f : nat -> A) : nat -> A := fun j => if decide (j = i) then x else f j.

Lemma put_eq {A} i (x : A) f : put i x f i = x.
Proof. unfold put. by rewrite decide_True. Qed.

Lemma put_ne {A} i (x : A) f j : j <> i -> put i x f j = f j.
Proof. intros. unfold put. by rewrite decide_False. Qed.

Ltac put_case := unfold put, at_pc, forking, live in *; repeat case_decide;
  repeat match goal with H : @eq nat ?x ?y |- _ => first [subst x | subst y] end; cbn [p_state p_pid p_parent p_context p_chan p_killed
  with_state with_pid with_parent with_context with_chan with_killed with_kstack with_space with_tf with_ofile with_pcwd with_name] in *.

Section steps.
Context (P : nat -> proc) (C : nat -> option nat) (pc : nat -> kpc) (init : nat) (bound : Z).
Context (I : procs_ok P C pc init bound).

(** A runnable process gets a cpu. *)
Lemma ok_dispatch c p : C c = None -> p_state (P p) = RUNNABLE ->
  procs_ok (put p (with_state RUNNING (P p)) P) (put c (Some p) C) pc init bound.
Proof.
  intros Hc Hp. pose proof I as [H1 H2 H3 H4 H5 H6 H7 H8 H9 H10 H11 H12 H13 H14 H15].
  split.
  - intros c' q. put_case; try congruence. apply H1.
  - intros c1 c2 q. put_case; try congruence; [intros [= <-] E|intros E [= <-]|apply H2]; apply H1 in E; congruence.
  - intros q. put_case.
    + exists c. by rewrite decide_True.
    + intros E. destruct (H3 q E) as [c' E']. exists c'. rewrite decide_False by congruence. done.
  - intros q. put_case; [|apply H4]. split; [apply H4|]. intros _. apply H4. congruence.
  - intros q q'. put_case; apply H5.
  - put_case; [|exact H6]. split; [tauto|apply H6].
  - intros q Hq. put_case; intros E1 E2.
    + destruct (H7 p Hq) as (r & ? & ? & ?); [congruence|congruence|]. exists r. rewrite decide_False by done. done.
    + destruct (H7 q Hq E1 E2) as (r & ? & ? & ?). exists r. case_decide; subst; cbn; tauto.
  - intros q. put_case; [done|apply H8].
  - intros q. put_case; [done|apply H9].
  - intros q r. put_case; [|apply H10]. intros E. apply H10 in E. congruence.
  - intros q q' r. put_case; apply H11.
  - intros q. put_case; [tauto|apply H12].
  - exact H13.
  - intros q. put_case; [done|apply H14].
  - intros q. put_case; [done|]. intros E1 E2. destruct (H15 q E1 E2) as (? & ? & (r & Hr) & Hz). split_and!; try done.
    + exists r. case_decide; by subst.
    + intros r'. case_decide; subst; cbn; [done|apply Hz].
Qed.
(** The process of cpu [c] stops running. *)
Lemma ok_stop c cur x : C c = Some cur -> p_pid x = p_pid (P cur) -> p_parent x = p_parent (P cur) ->
  (p_state x = RUNNABLE /\ p_context x = InYield) \/
  (p_state x = SLEEPING /\ pc cur = KRun /\ (p_context x = InSleep \/
     (p_context x = InWait /\ p_chan x = Some (ChProc cur) /\ p_killed x = false /\ (exists q, p_parent (P q) = Some cur) /\
      forall q, p_parent (P q) = Some cur -> p_state (P q) <> ZOMBIE))) ->
  procs_ok (put cur x P) (put c None C) pc init bound.
Proof.
  intros Hc Epid Epar Hx. pose proof I as [H1 H2 H3 H4 H5 H6 H7 H8 H9 H10 H11 H12 H13 H14 H15].
  assert (Hlive : live (p_state x)) by (unfold live; destruct Hx as [[-> _]|[-> _]]; tauto).
  assert (Hrun : p_state (P cur) = RUNNING) by (by eapply H1).
  split.
  - intros c' q. put_case; try congruence; [|apply H1]. intros E. specialize (H2 _ _ _ Hc E). congruence.
  - intros c1 c2 q. put_case; try congruence. apply H2.
  - intros q. put_case.
    + destruct Hx as [[-> _]|[-> _]]; done.
    + intros E. destruct (H3 q E) as [c' E']. exists c'. rewrite decide_False by congruence. done.
  - intros q. put_case; [|apply H4]. rewrite Epid. split; [apply H4|]. intros _. apply H4. congruence.
  - intros q q'. put_case; rewrite ?Epid; try apply H5.
  - put_case; [|exact H6]. split; [tauto|]. rewrite Epar. apply H6.
  - intros q Hq. put_case; intros E1 E2.
    + rewrite Epar. destruct (H7 cur Hq) as (r & ? & ? & ?); [congruence|congruence|]. exists r. rewrite decide_False by done. done.
    + destruct (H7 q Hq E1 E2) as (r & ? & ? & ?). exists r. case_decide; subst; cbn; tauto.
  - intros q. put_case; [|apply H8]. unfold live in Hlive. destruct Hlive as [->|[->| ->]]; done.
  - intros q. put_case; [|apply H9]. unfold live in Hlive. destruct Hlive as [->|[->| ->]]; done.
  - intros q r. put_case; [|apply H10]. intros E. apply H10 in E. congruence.
  - exact H11.
  - intros q. put_case; [|apply H12]. intros Hq. right. destruct Hx as [?|(_ & ? & _)]; [done|congruence].
  - exact H13.
  - intros q. put_case; [|apply H14]. intros E0. destruct Hx as [[E _]|(_ & _ & [?|[? _]])]; [congruence|tauto|tauto].
  - assert (Hz : forall r, p_state (if decide (r = cur) then x else P r) <> ZOMBIE <-> p_state (P r) <> ZOMBIE).
    { intros r. case_decide; subst; [|done]. rewrite Hrun. split; [done|]. intros _. destruct Hx as [[-> _]|[-> _]]; done. }
    assert (Hpar : forall r, p_parent (if decide (r = cur) then x else P r) = p_parent (P r)) by (intros r; case_decide; by subst).
    intros q E1 E2. setoid_rewrite Hz. setoid_rewrite Hpar. revert E1 E2. put_case; [|apply H15].
    intros E1 E2. destruct Hx as [[E _]|(_ & _ & [E|(_ & ?)])]; [congruence|congruence|tauto].
Qed.

(** Sleeping processes are woken. *)
Lemma ok_wake P' : (forall j, P' j = P j \/ (p_state (P j) = SLEEPING /\ P' j = with_state RUNNABLE (P j))) ->
  procs_ok P' C pc init bound.
Proof.
  intros E. pose proof I as [H1 H2 H3 H4 H5 H6 H7 H8 H9 H10 H11 H12 H13 H14 H15].
  assert (Es : forall j, p_state (P' j) = p_state (P j) \/ (p_state (P j) = SLEEPING /\ p_state (P' j) = RUNNABLE)).
  { intros j. destruct (E j) as [->|[? ->]]; [by left|by right]. }
  assert (Epid : forall j, p_pid (P' j) = p_pid (P j)) by (intros j; by destruct (E j) as [->|[? ->]]).
  assert (Epar : forall j, p_parent (P' j) = p_parent (P j)) by (intros j; by destruct (E j) as [->|[? ->]]).
  assert (Ectx : forall j, p_context (P' j) = p_context (P j)) by (intros j; by destruct (E j) as [->|[? ->]]).
  assert (Hst : forall j st, st <> SLEEPING -> st <> RUNNABLE -> p_state (P' j) = st <-> p_state (P j) = st).
  { intros j st N1 N2. destruct (Es j) as [->|[E1 E2]]; [done|]. rewrite E1, E2. split; congruence. }
  assert (Hlive : forall j, live (p_state (P' j)) <-> live (p_state (P j))).
  { intros j. unfold live. destruct (Es j) as [->|[E1 E2]]; [done|]. rewrite E1, E2. tauto. }
  split.
  - intros c p Hc. apply Hst; [done|done|]. by eapply H1.
  - exact H2.
  - intros p Hp. apply Hst in Hp; [|done|done]. by apply H3.
  - intros p. rewrite Epid, Hst by done. apply H4.
  - intros p q. rewrite !Epid. apply H5.
  - rewrite Hlive, Epar. exact H6.
  - intros p. rewrite !Hst, Epar by done. setoid_rewrite Hlive. apply H7.
  - intros p. rewrite Hst, Epar by done. apply H8.
  - intros p. rewrite Hst, Epar by done. apply H9.
  - intros q p. rewrite Hst by done. apply H10.
  - exact H11.
  - intros p Hp. destruct (Es p) as [->|[E1 _]]; [rewrite Ectx; by apply H12|]. destruct (H12 p Hp) as [?|[? _]]; congruence.
  - exact H13.
  - intros p Hp. rewrite Ectx. apply H14. destruct (Es p) as [<-|[? _]]; done.
  - intros p. destruct (E p) as [->|[_ ->]]; [|done]. setoid_rewrite Epar. setoid_rewrite Hst; [|done|done]. apply H15.
Qed.

(** A free slot is taken for a new process. *)
Lemma ok_slot cur np x : pc cur = KRun -> p_state (P cur) = RUNNING -> p_state (P np) = UNUSED ->
  p_state x = EMBRYO -> p_pid x = bound -> p_parent x = p_parent (P np) -> 0 < bound ->
  procs_ok (put np x P) C (at_pc cur (KFork1 np) pc) init (bound + 1).
Proof.
  intros Hpc Hcur Hnp Hst Hpid Hpar Hb. pose proof I as [H1 H2 H3 H4 H5 H6 H7 H8 H9 H10 H11 H12 H13 H14 H15].
  assert (Hne : cur <> np) by congruence. assert (Hni : init <> np).
  { intros ->. destruct H6 as [[?|[?|?]] _]; congruence. }
  assert (Hnone : forall q, ~ forking pc q np) by (intros q Hq; apply H10 in Hq; congruence).
  split.
  - intros c q. put_case; [|apply H1]. intros E. apply H1 in E. congruence.
  - exact H2.
  - intros q. put_case; [congruence|apply H3].
  - intros q. put_case; [rewrite Hpid; lia|]. destruct (H4 q). split; [lia|done].
  - intros q q'. put_case; rewrite ?Hpid; try done; try apply H5; intros E; [destruct (H4 q')|destruct (H4 q)]; lia.
  - put_case; [done|exact H6].
  - intros q Hq. put_case; intros E1 E2; [done|]. destruct (H7 q Hq E1 E2) as (r & ? & ? & Hr). exists r.
    rewrite decide_False; [done|]. intros ->. destruct Hr as [?|[?|?]]; congruence.
  - intros q. put_case; [congruence|apply H8].
  - intros q. put_case; intros E.
    + exists cur. left. rewrite decide_True by done. split; [done|]. rewrite Hpar. by apply H8.
    + destruct (H9 q E) as [r Hr]. exists r. rewrite decide_False; [done|]. intros ->. destruct Hr as [[? _]|[? _]]; congruence.
  - intros q r. put_case; try tauto.
    + by intros [[=]|[=]].
    + intros E. apply (H10 q r). done.
  - intros q q' r. put_case; try done.
    + intros [[= <-]|[=]] E. by apply Hnone in E.
    + intros E [[= <-]|[=]]. by apply Hnone in E.
    + apply H11.
  - intros q. unfold at_pc. case_decide as E; [intros _; rewrite E, put_ne by done; by left|].
    intros Hq. rewrite put_ne; [by apply H12|]. intros ->. apply H12 in Hq as [?|[? _]]; congruence.
  - intros q. put_case; [done|apply H13].
  - intros q. put_case; [congruence|apply H14].
  - intros q. put_case; [congruence|]. intros E1 E2. destruct (H15 q E1 E2) as (? & ? & (r & Hr) & Hz). split_and!; try done.
    + exists r. case_decide; subst; [congruence|done].
    + intros r'. case_decide; subst; [congruence|apply Hz].
Qed.
Lemma embryo_not_init np : p_state (P np) = EMBRYO -> init <> np.
Proof. intros E ->. destruct (po_init _ _ _ _ _ I) as [[?|[?|?]] _]; congruence. Qed.

(** No process is the child of one that is being made, or has exited. *)
Lemma parent_live q p : p_parent (P q) = Some p -> live (p_state (P p)).
Proof.
  intros E. pose proof I as [H1 H2 H3 H4 H5 H6 H7 H8 H9 H10 H11 H12 H13 H14 H15]. unfold live.
  destruct (decide (q = init)) as [->|Hq]; [destruct H6; congruence|].
  destruct (decide (p_state (P q) = UNUSED)) as [E1|N1]; [apply H8 in E1; congruence|].
  destruct (decide (p_state (P q) = EMBRYO)) as [E1|N2].
  - destruct (H9 q E1) as (r & [[_ ?]|[Hr ?]]); [congruence|]. assert (r = p) as -> by congruence.
    destruct (H12 p) as [?|[? _]]; [congruence|tauto|tauto].
  - destruct (H7 q Hq N1 N2) as (r & ? & _ & Hr). assert (r = p) as -> by congruence. exact Hr.
Qed.

Lemma forking_run q p : forking pc q p -> p_state (P q) = RUNNING \/ p_state (P q) = RUNNABLE.
Proof.
  intros E. destruct (po_pc _ _ _ _ _ I q) as [?|[? _]]; [|tauto|tauto]. destruct E as [E|E]; congruence.
Qed.

Lemma parent_not_self q : p_parent (P q) <> Some q.
Proof.
  intros E. pose proof (parent_live q q E) as Hl. pose proof I as [H1 H2 H3 H4 H5 H6 H7 H8 H9 H10 H11 H12 H13 H14 H15].
  destruct (decide (q = init)) as [->|Hq]; [destruct H6; congruence|].
  destruct (H7 q Hq) as (r & Er & Hr & _); unfold live in Hl; [intros E'; rewrite E' in Hl; destruct Hl as [?|[?|?]]; congruence..|].
  congruence.
Qed.

(** The slot of a process in creation changes, in the hands of its creator. *)
Lemma ok_embryo cur np x y : forking pc cur np -> p_pid x = p_pid (P np) ->
  (y = KFork2 np /\ p_state x = EMBRYO /\ p_parent x = Some cur) \/
  (y = KRun /\ p_state x = UNUSED /\ p_parent x = None) \/
  (y = KRun /\ p_state x = RUNNABLE /\ p_parent x = Some cur) ->
  procs_ok (put np x P) C (at_pc cur y pc) init bound.
Proof.
  intros Hf Hpid Hx. pose proof I as [H1 H2 H3 H4 H5 H6 H7 H8 H9 H10 H11 H12 H13 H14 H15].
  assert (Hnp : p_state (P np) = EMBRYO) by (by eapply H10). pose proof (embryo_not_init np Hnp) as Hni.
  pose proof (forking_run _ _ Hf) as Hcur. assert (Hne : cur <> np) by (intros ->; destruct Hcur; congruence).
  assert (Hnop : forall q, p_parent (P q) <> Some np).
  { intros q E. apply parent_live in E. unfold live in E. rewrite Hnp in E. destruct E as [?|[?|?]]; congruence. }
  assert (Hxr : p_state x <> RUNNING /\ p_state x <> SLEEPING /\ p_state x <> ZOMBIE) by (destruct Hx as [(_ & -> & _)|[(_ & -> & _)|(_ & -> & _)]]; done).
  assert (Hy : forall p, y = KFork1 p \/ y = KFork2 p -> p = np /\ p_state x = EMBRYO) by (intros p; destruct Hx as [(-> & ? & _)|[(-> & ? & _)|(-> & ? & _)]]; intros [[=]|[=]]; by subst).
  split.
  - intros c q. put_case; [|apply H1]. intros E. apply H1 in E. congruence.
  - exact H2.
  - intros q. put_case; [tauto|apply H3].
  - intros q. put_case; [|apply H4]. rewrite Hpid. split; [apply H4|]. intros _. apply H4. congruence.
  - intros q q'. put_case; rewrite ?Hpid; try apply H5.
  - rewrite put_ne by done. exact H6.
  - intros q Hq E1 E2. unfold put in *. case_decide as Eq.
    + subst q. exists cur. destruct Hx as [(_ & ? & _)|[(_ & ? & _)|(_ & ? & ?)]]; [congruence|congruence|].
      rewrite decide_False by done. split_and!; try done. unfold live. tauto.
    + destruct (H7 q Hq E1 E2) as (r & Hr & ? & ?). exists r. rewrite decide_False; [done|]. intros ->. by apply (Hnop q).
  - intros q. put_case; [|apply H8]. destruct Hx as [(_ & ? & _)|[(_ & ? & ?)|(_ & ? & ?)]]; [congruence|done|congruence].
  - intros q. unfold put. case_decide as Eq; intros E.
    + subst q. exists cur. unfold at_pc. rewrite decide_True by done.
      destruct Hx as [(-> & _ & ?)|[(_ & ? & ?)|(_ & ? & ?)]]; [by right|congruence|congruence].
    + destruct (H9 q E) as [r Hr]. exists r. unfold at_pc. rewrite decide_False; [done|]. intros ->.
      unfold forking in Hf. destruct Hr as [[? _]|[? _]], Hf; congruence.
  - intros q r. unfold forking, at_pc, put. case_decide as Eq.
    + intros E. apply Hy in E as [-> ?]. by rewrite decide_True.
    + intros E. rewrite decide_False; [by apply (H10 q)|]. intros ->. apply Eq. by eapply H11.
  - intros q q' r. unfold forking, at_pc. case_decide as E1; case_decide as E2; subst; try done.
    + intros E. apply Hy in E as [-> _]. intros E. exfalso. apply E2. by eapply H11.
    + intros E' E. apply Hy in E as [-> _]. exfalso. apply E1. by eapply H11.
    + apply H11.
  - intros q. unfold at_pc, put. case_decide as E1; [subst q; rewrite decide_False by done|].
    + intros _. apply H12. destruct Hf; congruence.
    + intros Hq. rewrite decide_False; [by apply H12|]. intros ->. apply H12 in Hq as [?|[? _]]; congruence.
  - intros q. unfold at_pc. case_decide; [|apply H13]. destruct Hx as [(-> & _)|[(-> & _)|(-> & _)]]; done.
  - intros q. put_case; [tauto|apply H14].
  - intros q. unfold put. case_decide; [tauto|]. intros E1 E2. destruct (H15 q E1 E2) as (? & ? & (r & Hr) & Hz). split_and!; try done.
    + exists r. rewrite decide_False; [done|]. intros ->. destruct (H9 np Hnp) as (w & [[_ ?]|[Hw ?]]); [congruence|].
      assert (w = q) as -> by congruence. destruct (forking_run q np ltac:(by right)); congruence.
    + intros r'. case_decide; [|apply Hz]. intros _. tauto.
Qed.
(** A zombie is reaped by its parent. *)
Lemma ok_reap cur i x : p_state (P cur) = RUNNING -> p_parent (P i) = Some cur -> p_state (P i) = ZOMBIE ->
  p_state x = UNUSED -> p_pid x = 0 -> p_parent x = None -> procs_ok (put i x P) C pc init bound.
Proof.
  intros Hcur Hpar Hz Hst Hpid Hpx. pose proof I as [H1 H2 H3 H4 H5 H6 H7 H8 H9 H10 H11 H12 H13 H14 H15].
  assert (Hni : init <> i) by (intros ->; destruct H6 as [[?|[?|?]] _]; congruence).
  assert (Hnop : forall q, p_parent (P q) <> Some i).
  { intros q E. apply parent_live in E. unfold live in E. rewrite Hz in E. destruct E as [?|[?|?]]; congruence. }
  split.
  - intros c q. put_case; [|apply H1]. intros E. apply H1 in E. congruence.
  - exact H2.
  - intros q. put_case; [congruence|apply H3].
  - intros q. put_case; [|apply H4]. rewrite Hpid. split; [destruct (H4 i); lia|done].
  - intros q q'. put_case; rewrite ?Hpid; try apply H5; done.
  - rewrite put_ne by done. exact H6.
  - intros q Hq E1 E2. unfold put in *. case_decide as Eq; [congruence|].
    destruct (H7 q Hq E1 E2) as (r & Hr & ? & ?). exists r. rewrite decide_False; [done|]. intros ->. by apply (Hnop q).
  - intros q. put_case; [done|apply H8].
  - intros q. put_case; [congruence|apply H9].
  - intros q r Hf. rewrite put_ne; [by eapply H10|]. intros ->. apply H10 in Hf. congruence.
  - exact H11.
  - intros q Hq. rewrite put_ne; [by apply H12|]. intros ->. apply H12 in Hq as [?|[? _]]; congruence.
  - exact H13.
  - intros q. put_case; [congruence|apply H14].
  - intros q. unfold put. case_decide; [congruence|]. intros E1 E2. destruct (H15 q E1 E2) as (? & ? & (r & Hr) & Hzz). split_and!; try done.
    + exists r. rewrite decide_False; [done|]. intros ->. congruence.
    + intros r'. case_decide; [congruence|apply Hzz].
Qed.

(** A process has closed its files. *)
Lemma ok_closed cur : pc cur = KRun -> p_state (P cur) = RUNNING -> cur <> init -> procs_ok P C (at_pc cur KExit pc) init bound.
Proof.
  intros Hpc Hcur Hni. pose proof I as [H1 H2 H3 H4 H5 H6 H7 H8 H9 H10 H11 H12 H13 H14 H15].
  assert (Hfk : forall q p, forking (at_pc cur KExit pc) q p -> forking pc q p).
  { intros q p. unfold forking, at_pc. case_decide; [by intros [[=]|[=]]|done]. }
  split; try done.
  - intros p E. destruct (H9 p E) as [q Hq]. exists q. unfold at_pc. rewrite decide_False; [done|]. intros ->. destruct Hq as [[? _]|[? _]]; congruence.
  - intros q p E. by eapply H10, Hfk.
  - intros q q' p E E'. eapply H11; by apply Hfk.
  - intros p. unfold at_pc. case_decide; [subst; by left|apply H12].
  - intros p. unfold at_pc. case_decide; [by subst|apply H13].
Qed.

(** A process is killed. *)
Lemma ok_kill i x : same_thread (with_killed true (P i)) x \/
    (p_state (P i) = SLEEPING /\ same_thread (with_state RUNNABLE (with_killed true (P i))) x) ->
  p_state (P i) <> SLEEPING \/ p_state x = RUNNABLE ->
  procs_ok (put i x P) C pc init bound.
Proof.
  intros Hx Hs. set (y := with_killed (p_killed (P i)) x).
  assert (J : procs_ok (put i y P) C pc init bound).
  { destruct Hx as [(E1 & E2 & E3 & E4 & E5 & E6)|[Hsl (E1 & E2 & E3 & E4 & E5 & E6)]].
    - eapply procs_ok_same; [|exact I]. intros p. unfold put, y. case_decide; [subst; unfold same_thread; cbn; by rewrite E1, E2, E3, E4, E5|done].
    - eapply procs_ok_same with (P := put i (with_state RUNNABLE (P i)) P).
      + intros p. unfold put, y. case_decide; [subst; unfold same_thread; cbn; by rewrite E1, E2, E3, E4, E5|done].
      + apply ok_wake. intros j. unfold put. case_decide; [subst; by right|by left]. }
  assert (Hst : p_state y <> SLEEPING).
  { unfold y. cbn. destruct Hs as [Hs| ->]; [|done]. destruct Hx as [(-> & _)|[? _]]; [done|done]. }
  destruct J as [H1 H2 H3 H4 H5 H6 H7 H8 H9 H10 H11 H12 H13 H14 H15].
  assert (E1 : forall p, p_state (put i x P p) = p_state (put i y P p)) by (intros p; unfold put; by case_decide).
  assert (E2 : forall p, p_pid (put i x P p) = p_pid (put i y P p)) by (intros p; unfold put; by case_decide).
  assert (E3 : forall p, p_parent (put i x P p) = p_parent (put i y P p)) by (intros p; unfold put; by case_decide).
  assert (E4 : forall p, p_context (put i x P p) = p_context (put i y P p)) by (intros p; unfold put; by case_decide).
  split; repeat setoid_rewrite E1; repeat setoid_rewrite E2; repeat setoid_rewrite E3; repeat setoid_rewrite E4; try assumption.
  intros p E E'. destruct (H15 p E E') as (Hc & Hk & Hr). assert (N : p <> i) by (intros ->; by rewrite put_eq in E).
  rewrite put_ne in Hc, Hk |- * by done. split; [exact Hc|]. split; [exact Hk|exact Hr].
Qed.

(** The channel of a process that does not sleep means nothing. *)
Lemma ok_chan i ch : p_state (P i) <> SLEEPING -> procs_ok (put i (with_chan ch (P i)) P) C pc init bound.
Proof.
  intros Hs. pose proof I as [H1 H2 H3 H4 H5 H6 H7 H8 H9 H10 H11 H12 H13 H14 H15]. set (x := with_chan ch (P i)).
  assert (E1 : forall p, p_state (put i x P p) = p_state (P p)) by (intros p; unfold put; case_decide; by subst).
  assert (E2 : forall p, p_pid (put i x P p) = p_pid (P p)) by (intros p; unfold put; case_decide; by subst).
  assert (E3 : forall p, p_parent (put i x P p) = p_parent (P p)) by (intros p; unfold put; case_decide; by subst).
  assert (E4 : forall p, p_context (put i x P p) = p_context (P p)) by (intros p; unfold put; case_decide; by subst).
  split; repeat setoid_rewrite E1; repeat setoid_rewrite E2; repeat setoid_rewrite E3; repeat setoid_rewrite E4; try assumption.
  intros p E E'. rewrite put_ne by congruence. by apply H15.
Qed.

(** A process becomes a zombie: its children pass to [init], and who may wait
    for it, or for them, is woken. *)
Lemma ok_zombie c cur P' : C c = Some cur -> pc cur = KExit ->
  (forall j, p_pid (P' j) = p_pid (P j)) ->
  (forall j, j <> cur -> p_context (P' j) = p_context (P j) /\ p_chan (P' j) = p_chan (P j) /\ p_killed (P' j) = p_killed (P j)) ->
  (forall j, p_parent (P' j) = if decide (p_parent (P j) = Some cur) then Some init else p_parent (P j)) ->
  p_state (P' cur) = ZOMBIE ->
  (forall j, j <> cur -> p_state (P' j) = p_state (P j) \/ (p_state (P j) = SLEEPING /\ p_state (P' j) = RUNNABLE)) ->
  (forall j q, p_state (P' j) = SLEEPING -> p_parent (P cur) = Some q -> p_chan (P j) <> Some (ChProc q)) ->
  (forall j z, p_state (P' j) = SLEEPING -> p_parent (P z) = Some cur -> p_state (P z) = ZOMBIE -> p_chan (P j) <> Some (ChProc init)) ->
  procs_ok P' (put c None C) (at_pc cur KRun pc) init bound.
Proof.
  intros Hc Hpc Epid Ectx Epar Hz Est W1 W2. pose proof I as [H1 H2 H3 H4 H5 H6 H7 H8 H9 H10 H11 H12 H13 H14 H15].
  assert (Hrun : p_state (P cur) = RUNNING) by (by eapply H1). assert (Hni : cur <> init) by (by apply H13).
  assert (Hst : forall j st, j <> cur -> st <> SLEEPING -> st <> RUNNABLE -> p_state (P' j) = st <-> p_state (P j) = st).
  { intros j st Hj N1 N2. destruct (Est j Hj) as [->|[E1 E2]]; [done|]. rewrite E1, E2. split; congruence. }
  assert (Hlive : forall j, j <> cur -> live (p_state (P' j)) <-> live (p_state (P j))).
  { intros j Hj. unfold live. destruct (Est j Hj) as [->|[E1 E2]]; [done|]. rewrite E1, E2. tauto. }
  assert (Hfk : forall q p, forking (at_pc cur KRun pc) q p <-> forking pc q p).
  { intros q p. unfold forking, at_pc. case_decide; [subst; rewrite Hpc; split; by intros [[=]|[=]]|done]. }
  assert (Hfree : forall j, p_state (P j) <> RUNNING -> j <> cur) by (intros j E ->; done).
  split.
  - intros c' p. unfold put. case_decide as Ec; [done|]. intros E. assert (p <> cur) by (intros ->; apply Ec; by eapply H2).
    apply Hst; try done. by eapply H1.
  - intros c1 c2 p. unfold put. repeat case_decide; try done. apply H2.
  - intros p E. assert (p <> cur) by congruence. apply Hst in E; try done. destruct (H3 p E) as [c' Ec]. exists c'.
    rewrite put_ne; [done|]. congruence.
  - intros p. rewrite Epid. destruct (decide (p = cur)) as [->|N]; [split; [apply H4|intros _; apply H4; congruence]|].
    rewrite Hst by done. apply H4.
  - intros p q. rewrite !Epid. apply H5.
  - rewrite Hlive, Epar by done. split; [apply H6|]. rewrite decide_False; [apply H6|]. destruct H6; congruence.
  - intros p Hp N1 N2. rewrite Epar. destruct (decide (p = cur)) as [->|N].
    + destruct (H7 cur Hp) as (q & Eq & Hq & Hl); [congruence|congruence|]. rewrite decide_False by congruence.
      exists q. split_and!; try done. by apply Hlive.
    + rewrite Hst in N1, N2 by done. destruct (H7 p Hp N1 N2) as (q & Eq & Hq & Hl). case_decide as Ed.
      * exists init. split_and!; try done. apply Hlive; [done|apply H6].
      * exists q. split_and!; try done. apply Hlive; [congruence|done].
  - intros p E. assert (p <> cur) by congruence. apply Hst in E; try done. rewrite Epar, (H8 p E). done.
  - intros p E. assert (p <> cur) by congruence. apply Hst in E; try done. destruct (H9 p E) as [q Hq]. exists q.
    unfold at_pc. rewrite decide_False by (intros ->; destruct Hq as [[? _]|[? _]]; congruence).
    rewrite Epar. destruct Hq as [[? ->]|[Hq ->]]; [by left|right]. split; [done|]. rewrite decide_False; [done|]. congruence.
  - intros q p E. apply Hfk, H10 in E. apply Hst; try done. apply Hfree. congruence.
  - intros q q' p E E'. eapply H11; by apply Hfk.
  - intros p. unfold at_pc. case_decide as E; [done|]. intros Hp. destruct (Ectx p E) as (-> & _).
    destruct (Est p E) as [->|[E1 _]]; [by apply H12|]. destruct (H12 p Hp) as [?|[? _]]; congruence.
  - intros p. unfold at_pc. case_decide; [done|apply H13].
  - intros p E. assert (N : p <> cur) by congruence. destruct (Ectx p N) as (-> & _). apply H14. destruct (Est p N) as [<-|[? _]]; done.
  - intros p E. assert (N : p <> cur) by congruence. destruct (Ectx p N) as (-> & -> & ->). intros E2.
    assert (Es : p_state (P p) = SLEEPING) by (destruct (Est p N) as [<-|[? _]]; done).
    destruct (H15 p Es E2) as (Hch & Hk & (r & Hr) & Hzz). split_and!; try done.
    + exists r. rewrite Epar, decide_False; congruence.
    + intros q. rewrite Epar. destruct (decide (q = cur)) as [->|Nq].
      * rewrite decide_False by (intros E'; apply parent_not_self in E'; done). intros E'. exfalso. by apply (W1 p p E E').
      * rewrite Hst by done. case_decide as Ed; [|apply Hzz]. intros [= <-] Hq. by apply (W2 init q E Ed Hq).
Qed.
End steps.
