(* ===== verification/ProcSys.v ===== *)
(** * The process table in every reachable state

    What each function of [Proc] does to the process table, and the invariant
    of [ProcInv] along the steps of the system. *)

From S2P Require Import Prelude Params Kalloc Bio Log Inode Pipe Syscall File Vm Proc ProcInv.
Local Open Scope Z_scope.
Local Open Scope kmonad_scope.

(** ** What the operations do to the table *)

Ltac solve_len := repeat first [rewrite length_upd | progress cbn [ptable set_shared set_cpus set_nextpid set_initproc set_ticks]]; (assumption || reflexivity).
Ltac getp := repeat first [rewrite getproc_shared | rewrite getproc_pid | rewrite getproc_cpus | rewrite getproc_upd by solve_len].

Lemma cpus_upd i f s : cpus (upd i f s) = cpus s.
Proof. done. Qed.

Lemma cpus_set c x s j : (c < length (cpus s))%nat -> cpus_of (set_cpus (<[c := x]> (cpus s)) s) j = put c (c_proc x) (cpus_of s) j.
Proof.
  intros Hc. unfold cpus_of, getcpu, put. cbn [cpus set_cpus]. destruct (decide (j = c)) as [->|N].
  - by rewrite list_lookup_insert_eq.
  - by rewrite list_lookup_insert_ne.
Qed.

Lemma sched_inv c cur ctx s r s' : sched c cur ctx s = Ret r s' ->
  p_state (getproc cur s) <> RUNNING /\
  s' = set_cpus (<[c := Cpu None (c_next (getcpu c s))]> (cpus s)) (upd cur (with_context ctx) s).
Proof.
  unfold sched. intros H. rewrite gets_bind in H. case_decide as E; [done|]. split; [done|].
  ret_inv H. unfold setcpu, modify in H. by injection H as <- <-.
Qed.

(** The process stops with state [st]. *)
Lemma stop_procs c cur f ctx s r s' : (cur < length (ptable s))%nat -> (c < length (cpus s))%nat ->
  sched c cur ctx (upd cur f s) = Ret r s' ->
  (forall j, procs_of s' j = put cur (with_context ctx (f (getproc cur s))) (procs_of s) j) /\
  (forall j, cpus_of s' j = put c None (cpus_of s) j) /\ nextpid s' = nextpid s /\ initproc s' = initproc s.
Proof.
  intros Hcur Hc H. apply sched_inv in H as [_ ->]. split_and!; try done.
  - intros j. unfold procs_of, put. getp. case_decide; [by rewrite decide_True|done].
  - intros j. unfold cpus_of, getcpu, put. cbn [cpus set_cpus upd set_ptable]. destruct (decide (j = c)) as [->|N].
    + by rewrite list_lookup_insert_eq.
    + by rewrite list_lookup_insert_ne.
Qed.

Lemma wakeup1_procs ch s r s' : wakeup1 ch s = Ret r s' ->
  (forall j, procs_of s' j = if decide (p_state (procs_of s j) = SLEEPING /\ p_chan (procs_of s j) = ch) then with_state RUNNABLE (procs_of s j) else procs_of s j) /\
  cpus s' = cpus s /\ nextpid s' = nextpid s /\ initproc s' = initproc s /\ length (ptable s') = length (ptable s) /\ shared s' = shared s.
Proof.
  unfold wakeup1, modify. intros [= _ <-]. split_and!; try done; [|cbn; apply length_fmap].
  intros j. unfold procs_of, getproc. cbn [ptable set_ptable]. rewrite list_lookup_fmap. by destruct (ptable s !! j).
Qed.

(** Only the files, the directory, the trap frame and the name of process [i] change. *)
Definition same_space (p p' : proc) : Prop := p_sz p' = p_sz p /\ p_pgdir p' = p_pgdir p /\ p_kstack p' = p_kstack p.
Definition quiet (i : nat) (s s' : kern) : Prop :=
  (forall j, j <> i -> getproc j s' = getproc j s) /\ same_thread (getproc i s) (getproc i s') /\ same_space (getproc i s) (getproc i s') /\
  cpus s' = cpus s /\ nextpid s' = nextpid s /\ initproc s' = initproc s /\ length (ptable s') = length (ptable s).

Lemma quiet_refl i s : quiet i s s.
Proof. by split_and!. Qed.

Lemma quiet_trans i s1 s2 s3 : quiet i s1 s2 -> quiet i s2 s3 -> quiet i s1 s3.
Proof.
  intros (A1 & (B1 & B2 & B3 & B4 & B5 & B6) & (B7 & B8 & B9) & A3 & A4 & A5 & A6) (C1 & (D1 & D2 & D3 & D4 & D5 & D6) & (D7 & D8 & D9) & C3 & C4 & C5 & C6).
  unfold quiet, same_thread, same_space. split_and!; try congruence. intros j Hj. rewrite C1, A1; done.
Qed.

Lemma quiet_shared i x s : quiet i s (set_shared x s).
Proof. by split_and!. Qed.

Lemma quiet_upd i f s : (i < length (ptable s))%nat -> (forall p, same_thread p (f p) /\ same_space p (f p)) -> quiet i s (upd i f s).
Proof.
  intros Hi Hf. unfold quiet. split_and!; try done.
  - intros j Hj. getp. by rewrite decide_False.
  - getp. rewrite decide_True by done. apply Hf.
  - getp. rewrite decide_True by done. apply Hf.
  - apply length_upd.
Qed.

Lemma each_quiet {X} i (body : X -> M kern unit) l : (forall x s s', (i < length (ptable s))%nat -> body x s = Ret tt s' -> quiet i s s') ->
  forall s s', (i < length (ptable s))%nat -> each body l s = Ret tt s' -> quiet i s s'.
Proof.
  intros Hb. induction l as [|x l IH]; intros s s' Hi H.
  - injection H as <-. apply quiet_refl.
  - cbn [each] in H. apply bind_inv in H as ([] & s1 & E1 & H). pose proof (Hb x s s1 Hi E1) as Q1.
    eapply quiet_trans; [exact Q1|]. apply IH; [|done]. destruct Q1 as (_ & _ & _ & _ & _ & _ & ->). done.
Qed.

Lemma quiet_len i s s' : quiet i s s' -> length (ptable s') = length (ptable s).
Proof. intros Q. apply Q. Qed.

Section operations.
Context (sb : superblock) (kend data : Z).

Lemma allocproc_slot_inv s np s' : allocproc_slot s = Ret (Some np) s' ->
  p_state (getproc np s) = UNUSED /\ (np < length (ptable s))%nat /\
  s' = set_nextpid (s32 (nextpid s + 1)) (upd np (with_pid (nextpid s)) (upd np (with_state EMBRYO) s)).
Proof.
  unfold allocproc_slot. intros H. rewrite gets_bind in H. destruct (list_find _ _) as [[i p]|] eqn:E.
  - ret_inv H. injection H as <- <-. apply list_find_Some in E as (E1 & E2 & _).
    unfold getproc. rewrite E1. split_and!; try done. by eapply lookup_lt_Some.
  - ret_inv H. discriminate.
Qed.

Lemma allocproc_stack_inv np s ok s' : (np < length (ptable s))%nat -> allocproc_stack np s = Ret ok s' ->
  exists a x, kalloc (k_kmem (shared s)) = Ret a x /\ shared s' = set_kmem x (shared s) /\ ok = negb (a =? 0) /\
    cpus s' = cpus s /\ nextpid s' = nextpid s /\ initproc s' = initproc s /\ length (ptable s') = length (ptable s) /\
    forall j, getproc j s' = if decide (j = np) then
      (if ok then with_context AtForkret (with_kstack a (getproc np s)) else with_state UNUSED (with_kstack a (getproc np s)))
      else getproc j s.
Proof.
  unfold allocproc_stack. intros Hn H. ret_inv H; exists a, x; injection H as <- <-; split_and!; try done; try (by rewrite B); try (by rewrite !length_upd).
  all: intros j; getp; case_decide; [by rewrite decide_True|done].
Qed.
Definition mem (s : kern) : kmem := k_kmem (shared s).
Definition pipe_pages (s : kern) : gmap Z pipe := k_pipes (shared s).

Lemma filedup_mem f s g s' : filedup f s = Ret g s' -> k_kmem s' = k_kmem s /\ k_pipes s' = k_pipes s.
Proof. unfold filedup, setfile. intros H. ret_inv H. by injection H as <- <-. Qed.

Lemma onfs_mem {A} (m : M (fstate lstate) A) s r s' : onfs m s = Ret r s' -> k_kmem s' = k_kmem s /\ k_pipes s' = k_pipes s.
Proof. intros H. apply lift_inv in H as (x & _ & ->). done. Qed.

Definition copy_file (np : nat) (p : proc) (i : nat) : M kern unit :=
  match p_ofile p !! i with
  | Some (Some f) =>
      g <- onshared (filedup f);;
      modproc np (fun x => with_ofile (<[i := Some g]> (p_ofile x)) x)
  | _ => ret tt
  end.

Lemma copy_files_inv np p l : forall s s', (np < length (ptable s))%nat -> each (copy_file np p) l s = Ret tt s' ->
  quiet np s s' /\ mem s' = mem s /\ pipe_pages s' = pipe_pages s.
Proof.
  assert (Hb : forall i s s', (np < length (ptable s))%nat -> copy_file np p i s = Ret tt s' -> quiet np s s' /\ mem s' = mem s /\ pipe_pages s' = pipe_pages s).
  { intros i s s' Hn H. unfold copy_file in H. destruct (p_ofile p !! i) as [[f|]|]; ret_inv H; [|injection H as <-; split; [apply quiet_refl|done]..].
    injection H as <-. apply filedup_mem in E as [E1 E2]. split; [|by split].
    eapply quiet_trans; [apply quiet_shared|]. by apply quiet_upd. }
  induction l as [|i l IH]; intros s s' Hn H.
  - injection H as <-. split; [apply quiet_refl|done].
  - cbn [each] in H. apply bind_inv in H as ([] & s1 & E1 & H). destruct (Hb i s s1 Hn E1) as (Q1 & M1 & N1).
    destruct (IH s1 s') as (Q2 & M2 & N2); [by rewrite (quiet_len _ _ _ Q1)|done|]. split; [by eapply quiet_trans|]. by rewrite M2, N2.
Qed.

(** What the copying of [fork] comes to. *)
Lemma fork_copy_inv cur np s ok s' : cur <> np -> (np < length (ptable s))%nat -> fork_copy kend data cur np s = Ret ok s' ->
  (forall j, j <> np -> getproc j s' = getproc j s) /\
  cpus s' = cpus s /\ nextpid s' = nextpid s /\ initproc s' = initproc s /\ length (ptable s') = length (ptable s) /\
  pipe_pages s' = pipe_pages s /\ p_pid (getproc np s') = p_pid (getproc np s) /\ p_killed (getproc np s') = p_killed (getproc np s) /\
  (if ok : bool then p_state (getproc np s') = p_state (getproc np s) /\ p_parent (getproc np s') = Some cur
   else p_state (getproc np s') = UNUSED /\ p_parent (getproc np s') = p_parent (getproc np s)) /\
  exists a x1, kalloc (mem s) = Ret a x1 /\
    ((a = 0 /\ ok = false /\ mem s' = x1) \/
     (a <> 0 /\ exists d x2, copyuvm kend data (p_pgdir (getproc cur s)) (p_sz (getproc cur s)) x1 = Ret d x2 /\
       ((d = 0 /\ ok = false /\ kfree kend a x2 = Ret tt (mem s')) \/
        (d <> 0 /\ ok = true /\ mem s' = x2 /\ same_space (with_kstack a (with_space (p_sz (getproc cur s)) d zero_proc)) (getproc np s'))))).
Proof.
  unfold fork_copy. intros Hne Hn H. apply bind_inv in H as (b & s1 & E1 & H).
  destruct (allocproc_stack_inv np s b s1 Hn E1) as (a & x & Ek & Esh & Eb & Ec & Ep & Ei & El & Eg).
  destruct b; cbn [negb] in H.
  2: { unfold ret in H. injection H as <- <-. assert (a = 0) as -> by (by destruct (Z.eqb_spec a 0)).
       split_and!; try done.
       - intros j Hj. by rewrite Eg, decide_False.
       - unfold pipe_pages. by rewrite Esh.
       - by rewrite Eg, decide_True.
       - by rewrite Eg, decide_True.
       - by rewrite Eg, decide_True.
       - by rewrite Eg, decide_True.
       - exists 0, x. split; [done|]. left. unfold mem. by rewrite Esh. }
  assert (Ha : a <> 0) by (intros ->; done). rewrite gets_bind in H. apply bind_inv in H as (d & s2 & E2 & H). apply onmem_inv in E2 as (x2 & E2 & ->).
  assert (Ecur : getproc cur s1 = getproc cur s) by (by rewrite Eg, decide_False). rewrite Ecur in E2.
  assert (Hn1 : (np < length (ptable s1))%nat) by (by rewrite El).
  assert (Hmem : k_kmem (shared s1) = x) by (by rewrite Esh). rewrite Hmem in E2.
  destruct (Z.eqb_spec d 0) as [->|Hd].
  - rewrite gets_bind in H. ret_inv H. unfold ret in H. injection H as <- <-.
    match type of E with kfree _ ?k _ = _ => replace k with a in E by (getp; by rewrite Eg, decide_True) end.
    split_and!; try done.
    + intros j Hj. getp. by rewrite !decide_False, Eg, decide_False.
    + solve_len.
    + unfold pipe_pages. cbn. by rewrite Esh.
    + getp. by rewrite !decide_True, Eg, decide_True.
    + getp. by rewrite !decide_True, Eg, decide_True.
    + getp. by rewrite !decide_True.
    + getp. by rewrite !decide_True, Eg, decide_True.
    + exists a, x. split; [done|]. right. split; [done|]. exists 0, x2. split; [done|]. left. by destruct a0.
  - rewrite Ecur in H. ret_inv H. destruct a0.
    match type of E with each _ _ ?s0 = Ret _ ?s9 => set (s3 := s0) in E; rename s9 into s2 end.
    assert (Hn3 : (np < length (ptable s3))%nat) by (unfold s3; solve_len).
    destruct (copy_files_inv np (getproc cur s) _ s3 s2 Hn3 E) as ((Q1 & (Q2 & Q3 & Q4 & Q5 & Q6 & Q7) & (Q8 & Q9 & Q10) & Q11 & Q12 & Q13 & Q14) & M1 & N1).
    assert (Hn2 : (np < length (ptable s2))%nat) by (by rewrite Q14).
    destruct (p_cwd (getproc cur s)) as [ip|]; [|done]. ret_inv H. unfold ret in H. apply Ret_inj in H as [<- <-].
    assert (G3 : getproc np s3 = with_tf (tf_set_eax 0 (p_tf (getproc cur s))) (with_parent (Some cur) (with_space (p_sz (getproc cur s)) d (getproc np s1)))).
    { unfold s3. getp. by rewrite !decide_True. }
    assert (G1 : getproc np s1 = with_context AtForkret (with_kstack a (getproc np s))) by (by rewrite Eg, decide_True).
    rewrite G1 in G3. rewrite G3 in Q2, Q3, Q4, Q7, Q8, Q9, Q10. cbn in Q2, Q3, Q4, Q7, Q8, Q9, Q10.
    split_and!; try (etrans; [eassumption|]; done).
    + intros j Hj. getp. rewrite !decide_False, Q1 by done. unfold s3. getp. by rewrite !decide_False, Eg, decide_False.
    + etrans; [|exact El]. etrans; [|etrans; [exact Q14|]]; [rewrite !length_upd; done|]. unfold s3. rewrite !length_upd. done.
    + unfold pipe_pages in *. cbn. apply onfs_mem in E0 as [_ E0]. rewrite E0, N1. cbn. by rewrite Esh.
    + getp. rewrite !decide_True by done. cbn. by rewrite Q3.
    + getp. rewrite !decide_True by done. cbn. by rewrite Q7.
    + getp. rewrite !decide_True by done. cbn. by rewrite Q2.
    + getp. rewrite !decide_True by done. cbn. by rewrite Q4.
    + exists a, x. split; [done|]. right. split; [done|]. exists d, x2. split; [done|]. right. split_and!; try done; [|getp; by rewrite !decide_True..].
      unfold mem in *. cbn. apply onfs_mem in E0 as [E0 _]. rewrite E0, M1. done.
Qed.
(** ** Pages of pipes *)

Inductive pipe_step : kstate -> kstate -> Prop :=
| pp_same x y : k_kmem y = k_kmem x -> dom (k_pipes y) = dom (k_pipes x) -> pipe_step x y
| pp_free x y a : a ∈ dom (k_pipes x) -> dom (k_pipes y) = dom (k_pipes x) ∖ {[ a ]} -> kfree kend a (k_kmem x) = Ret tt (k_kmem y) -> pipe_step x y
| pp_alloc x y a : kalloc (k_kmem x) = Ret a (k_kmem y) -> a <> 0 -> dom (k_pipes y) = dom (k_pipes x) ∪ {[ a ]} -> pipe_step x y.

Lemma pipe_same x y : k_kmem y = k_kmem x -> k_pipes y = k_pipes x -> rtc pipe_step x y.
Proof. intros E1 E2. apply rtc_once, pp_same; [done|]. by rewrite E2. Qed.

Lemma fileclose_pipe pid f x r y : fileclose pid sb kend f x = Ret r y -> rtc pipe_step x y.
Proof.
  unfold fileclose. intros H. rewrite gets_bind in H. destruct (f_ref (getfile f x) <? 1); [done|].
  destruct (0 <? f_ref (getfile f x) - 1); [unfold setfile, modify in H; injection H as _ <-; by apply pipe_same|].
  unfold setfile in H. rewrite modify_bind in H.
  match type of H with _ ?z = _ => set (x1 := z) in H end. transitivity x1; [by apply pipe_same|].
  destruct (f_type (getfile f x)).
  - unfold ret in H. injection H as _ <-. done.
  - unfold pipe_close in H. rewrite gets_bind in H. destruct (k_pipes x1 !! f_pipe (getfile f x)) as [p|] eqn:Ep; [|unfold ret in H; by injection H as _ <-].
    destruct (pipeclose p (f_writable (getfile f x))) as [p' last]. destruct last.
    + rewrite modify_bind in H. apply lift_inv in H as (k & Ek & ->). destruct r. eapply rtc_once, (pp_free _ _ (f_pipe (getfile f x))).
      * by apply elem_of_dom_2 in Ep.
      * cbn. by rewrite dom_delete_L.
      * exact Ek.
    + unfold setpipe, modify in H. injection H as _ <-. apply rtc_once, pp_same; [done|]. apply (dom_insert_lookup_L _ _ _ (mk_is_Some _ _ Ep)).
  - apply bind_inv in H as (? & x2 & E2 & H). apply bind_inv in H as (? & x3 & E3 & H).
    apply onfs_mem in E2 as [A1 B1]. apply onfs_mem in E3 as [A2 B2]. apply onfs_mem in H as [A3 B3].
    apply pipe_same; congruence.
Qed.

Definition close_file (pid : Z) (cur fd : nat) : M kern unit :=
  o <- gets (fun s => p_ofile (getproc cur s) !! fd);;
  match o with
  | Some (Some f) =>
      onshared (fileclose pid sb kend f);;
      modproc cur (fun x => with_ofile (<[fd := None]> (p_ofile x)) x)
  | _ => ret tt
  end.

Lemma close_files_inv pid cur l : forall s s', (cur < length (ptable s))%nat -> each (close_file pid cur) l s = Ret tt s' ->
  quiet cur s s' /\ rtc pipe_step (shared s) (shared s').
Proof.
  induction l as [|fd l IH]; intros s s' Hn H.
  - injection H as <-. split; [apply quiet_refl|done].
  - cbn [each] in H. apply bind_inv in H as ([] & s1 & E1 & H).
    assert (quiet cur s s1 /\ rtc pipe_step (shared s) (shared s1)) as [Q1 R1].
    { unfold close_file in E1. rewrite gets_bind in E1.
      destruct (p_ofile (getproc cur s) !! fd) as [[f|]|]; ret_inv E1; [|injection E1 as <-; split; [apply quiet_refl|done]..].
      injection E1 as <-. apply fileclose_pipe in E. split; [|done].
      eapply quiet_trans; [apply quiet_shared|]. by apply quiet_upd. }
    destruct (IH s1 s') as [Q2 R2]; [by rewrite (quiet_len _ _ _ Q1)|done|]. split; [by eapply quiet_trans|by etrans].
Qed.

Lemma exit_files_inv cur s s' : (cur < length (ptable s))%nat -> exit_files sb kend cur s = Ret tt s' ->
  quiet cur s s' /\ initproc s <> Some cur /\ rtc pipe_step (shared s) (shared s').
Proof.
  unfold exit_files. intros Hn H. rewrite gets_bind in H. case_decide as Ei; [done|]. rewrite gets_bind in H.
  apply bind_inv in H as ([] & s1 & E1 & H). destruct (close_files_inv _ cur _ s s1 Hn E1) as [Q1 R1].
  ret_inv H. cbn [getproc] in H. destruct (p_cwd _) as [ip|]; [|done]. ret_inv H. injection H as <-.
  apply onshared_inv in E0 as (x1 & E0 & ->).
  assert (Hn1 : (cur < length (ptable s1))%nat) by (by rewrite (quiet_len _ _ _ Q1)).
  split_and!; [|done|].
  - eapply quiet_trans; [exact Q1|]. eapply quiet_trans; [apply quiet_shared|]. eapply quiet_trans; [apply quiet_shared|].
    eapply quiet_trans; [apply quiet_shared|]. by apply quiet_upd.
  - etrans; [exact R1|]. apply onfs_mem in E, E0, E2. cbn in *. destruct E, E0, E2. apply pipe_same; cbn; congruence.
Qed.
(** ** [exit] under the lock *)

(** Everything but the parent and the state. *)
Definition same_rest (p p' : proc) : Prop :=
  p_pid p' = p_pid p /\ p_context p' = p_context p /\ p_chan p' = p_chan p /\ p_killed p' = p_killed p /\ same_space p p'.
Definition woken (p p' : proc) : Prop := p_state p' = p_state p \/ (p_state p = SLEEPING /\ p_state p' = RUNNABLE).
Definition same_system (s s' : kern) : Prop :=
  cpus s' = cpus s /\ nextpid s' = nextpid s /\ initproc s' = initproc s /\ length (ptable s') = length (ptable s) /\ shared s' = shared s.

Lemma wakeup1_rest ch s r s' : wakeup1 ch s = Ret r s' ->
  same_system s s' /\ (forall j, same_rest (getproc j s) (getproc j s') /\ p_parent (getproc j s') = p_parent (getproc j s) /\
    woken (getproc j s) (getproc j s')) /\
  (forall j, p_state (getproc j s') = SLEEPING -> p_chan (getproc j s) <> ch).
Proof.
  intros H. apply wakeup1_procs in H as (E & H). unfold procs_of in E. split; [unfold same_system; tauto|]. unfold same_rest, same_space, woken. split.
  - intros j. rewrite E. case_decide as D; [|split_and!; try done; by left]. split_and!; try done. right. by split; [apply D|].
  - intros j. rewrite E. case_decide as D; [done|]. tauto.
Qed.

Definition pass_child (cur : nat) (init : option nat) (i : nat) : M kern unit :=
  p <- gets (getproc i);;
  when (bool_decide (p_parent p = Some cur)) (
    modproc i (with_parent init);;
    when (bool_decide (p_state p = ZOMBIE)) (wakeup1 (ChProc <$> init))).

Definition passed (cur : nat) (init : option nat) (l : list nat) (s s' : kern) : Prop :=
  same_system s s' /\
  (forall j, same_rest (getproc j s) (getproc j s') /\ woken (getproc j s) (getproc j s') /\
     p_parent (getproc j s') = if decide (j ∈ l /\ p_parent (getproc j s) = Some cur) then init else p_parent (getproc j s)) /\
  (forall j z, p_state (getproc j s') = SLEEPING -> z ∈ l -> p_parent (getproc z s) = Some cur -> p_state (getproc z s) = ZOMBIE ->
     p_chan (getproc j s) <> ChProc <$> init).

Lemma woken_trans p q r : woken p q -> woken q r -> woken p r.
Proof. unfold woken. intros [->|[E1 E2]] [->|[E3 E4]]; try tauto; try (right; split; [congruence|done]). Qed.

Lemma woken_zombie p q : woken p q -> p_state p = ZOMBIE -> p_state q = ZOMBIE.
Proof. intros [->|[E _]]; [done|congruence]. Qed.

Lemma woken_asleep p q : woken p q -> p_state q = SLEEPING -> p_state p = SLEEPING.
Proof. intros [->|[E _]]; done. Qed.

Lemma pass_child_inv cur init i s s' : (i < length (ptable s))%nat -> pass_child cur init i s = Ret tt s' -> passed cur init [i] s s'.
Proof.
  unfold pass_child. intros Hi H. rewrite gets_bind in H. case_bool_decide as Ep; cbn [when] in H.
  - rewrite (bind_Ret _ _ _ _ _ (modproc_eq i (with_parent init) s)) in H.
    assert (G : forall j, same_rest (getproc j s) (getproc j (upd i (with_parent init) s)) /\ p_state (getproc j (upd i (with_parent init) s)) = p_state (getproc j s) /\
      p_parent (getproc j (upd i (with_parent init) s)) = if decide (j ∈ [i] /\ p_parent (getproc j s) = Some cur) then init else p_parent (getproc j s)).
    { clear H. intros j. getp. destruct (decide (j = i)) as [->|D]; [split_and!; try done; by rewrite decide_True by (split; [left|done])|].
      split_and!; try done. rewrite decide_False; [done|]. intros [D' _]. by apply list_elem_of_singleton in D'. }
    case_bool_decide as Ez; cbn [when] in H.
    + apply wakeup1_rest in H as ((S1 & S2 & S3 & S4 & S5) & R & W). rewrite length_upd in S4. split; [by split_and!|]. split.
      * intros j. destruct (R j) as ((R1 & R2 & R3 & R4 & R5 & R6 & R7) & R8 & R9). destruct (G j) as ((G1 & G2 & G3 & G4 & G5 & G6 & G7) & G8 & G9).
        unfold same_rest, same_space, woken in *. rewrite G8 in R9. split_and!; congruence || done.
      * intros j z Hj _ _ _. specialize (W j Hj). destruct (G j) as ((_ & _ & <- & _) & _). done.
    + unfold ret in H. injection H as <-. split; [split_and!; try done; apply length_upd|]. split.
      * intros j. destruct (G j) as (? & ? & ?). split_and!; try done. by left.
      * intros j z Hj Hz _ Hz'. apply list_elem_of_singleton in Hz as ->. done.
  - unfold ret in H. injection H as <-. split; [done|]. split.
    + intros j. split; [done|]. split; [by left|]. case_decide as D; [|done]. destruct D as [D ?]. apply list_elem_of_singleton in D as ->. done.
    + intros j z _ Hz. apply list_elem_of_singleton in Hz as ->. done.
Qed.

Lemma pass_children_inv cur init l : init <> Some cur -> forall s s', Forall (fun i => i < length (ptable s))%nat l ->
  each (pass_child cur init) l s = Ret tt s' -> passed cur init l s s'.
Proof.
  intros Hni. induction l as [|i l IH]; intros s s' Hl H.
  - injection H as <-. split; [done|]. split.
    + intros j. split; [done|]. split; [by left|]. case_decide as D; [|done]. destruct D as [D _]. by apply not_elem_of_nil in D.
    + intros j z _ Hz. by apply not_elem_of_nil in Hz.
  - cbn [each] in H. apply bind_inv in H as ([] & s1 & E1 & H). apply Forall_cons in Hl as [Hi Hl].
    destruct (pass_child_inv cur init i s s1 Hi E1) as ((S1 & S2 & S3 & S4 & S5) & R1 & W1).
    destruct (IH s1 s') as ((T1 & T2 & T3 & T4 & T5) & R2 & W2); [by rewrite S4|done|].
    split; [split_and!; congruence|]. split.
    + intros j. destruct (R1 j) as ((A1 & A2 & A3 & A4 & A5 & A6 & A7) & A8 & A9). destruct (R2 j) as ((B1 & B2 & B3 & B4 & B5 & B6 & B7) & B8 & B9).
      unfold same_rest, same_space. split_and!; try congruence; [by eapply woken_trans|]. rewrite B9, A9. clear -Hni.
      rewrite (decide_ext (j ∈ i :: l /\ p_parent (getproc j s) = Some cur) ((j ∈ [i] \/ j ∈ l) /\ p_parent (getproc j s) = Some cur)) by set_solver.
      repeat case_decide; naive_solver.
    + intros j z Hj Hz Hp Hst. destruct (R1 j) as ((_ & _ & A3 & _) & _). destruct (R2 j) as (_ & B8 & _). apply elem_of_cons in Hz as [->|Hz].
      * apply (W1 j i); try done; [|left]. by eapply woken_asleep.
      * destruct (R1 z) as (_ & Z1 & Z2). destruct (decide (z = i)) as [->|N]; [apply (W1 j i); try done; [by eapply woken_asleep|left]|].
        rewrite <- A3. apply (W2 j z); try done; [|by eapply woken_zombie]. rewrite Z2, decide_False; [done|].
        intros [D _]. by apply list_elem_of_singleton in D.
Qed.
Lemma elem_of_slots i s : i ∈ slots s <-> (i < length (ptable s))%nat.
Proof. unfold slots. rewrite elem_of_seq. lia. Qed.

Lemma child_slot i cur s : p_parent (getproc i s) = Some cur -> i ∈ slots s.
Proof. rewrite elem_of_slots. unfold getproc. destruct (ptable s !! i) eqn:E; [intros _; by eapply lookup_lt_Some|done]. Qed.

Lemma exit_sched_inv c cur s s' : (cur < length (ptable s))%nat -> (c < length (cpus s))%nat -> initproc s <> Some cur ->
  exit_sched c cur s = Ret tt s' ->
  (forall j, p_pid (getproc j s') = p_pid (getproc j s) /\ same_space (getproc j s) (getproc j s')) /\
  (forall j, j <> cur -> same_rest (getproc j s) (getproc j s') /\ woken (getproc j s) (getproc j s')) /\
  (forall j, p_parent (getproc j s') = if decide (p_parent (getproc j s) = Some cur) then initproc s else p_parent (getproc j s)) /\
  p_state (getproc cur s') = ZOMBIE /\
  (forall j, p_state (getproc j s') = SLEEPING -> p_chan (getproc j s) <> ChProc <$> p_parent (getproc cur s)) /\
  (forall j z, p_state (getproc j s') = SLEEPING -> p_parent (getproc z s) = Some cur -> p_state (getproc z s) = ZOMBIE ->
     p_chan (getproc j s) <> ChProc <$> initproc s) /\
  (forall j, cpus_of s' j = put c None (cpus_of s) j) /\ nextpid s' = nextpid s /\ initproc s' = initproc s /\
  length (ptable s') = length (ptable s) /\ shared s' = shared s.
Proof.
  unfold exit_sched. intros Hn Hc Hni H. rewrite gets_bind in H. apply bind_inv in H as (? & s1 & E1 & H).
  apply wakeup1_rest in E1 as ((S1 & S2 & S3 & S4 & S5) & R1 & W1). rewrite !gets_bind in H. apply bind_inv in H as ([] & s2 & E2 & H).
  assert (Hall : Forall (fun i => i < length (ptable s1))%nat (slots s1)) by (apply Forall_forall; intros i; apply elem_of_slots).
  destruct (pass_children_inv cur (initproc s1) (slots s1) ltac:(by rewrite S3) s1 s2 Hall E2) as ((T1 & T2 & T3 & T4 & T5) & R2 & W2).
  rewrite (bind_Ret _ _ _ _ _ (modproc_eq cur (with_state ZOMBIE) s2)) in H.
  assert (Hn2 : (cur < length (ptable s2))%nat) by (by rewrite T4, S4). assert (Hc2 : (c < length (cpus s2))%nat) by (by rewrite T1, S1).
  pose proof (sched_inv _ _ _ _ _ _ H) as [_ Es']. destruct (stop_procs c cur _ _ s2 _ s' Hn2 Hc2 H) as (P3 & C3 & N3 & I3). unfold procs_of in P3.
  assert (G : forall j, j <> cur -> getproc j s' = getproc j s2) by (intros j Hj; rewrite P3; by rewrite put_ne).
  assert (Gc : getproc cur s' = with_context InSleep (with_state ZOMBIE (getproc cur s2))) by (rewrite P3; by rewrite put_eq).
  assert (Hpar2 : forall j, p_parent (getproc j s2) = if decide (p_parent (getproc j s) = Some cur) then initproc s else p_parent (getproc j s)).
  { intros j. destruct (R2 j) as (_ & _ & ->). destruct (R1 j) as (_ & E & _). rewrite E, S3. repeat case_decide; try done; [tauto|].
    exfalso. apply H0. split; [|done]. apply (child_slot j cur). congruence. }
  assert (HR : forall j, same_rest (getproc j s) (getproc j s2) /\ woken (getproc j s) (getproc j s2)).
  { intros j. destruct (R1 j) as ((A1 & A2 & A3 & A4 & A5 & A6 & A7) & _ & A8). destruct (R2 j) as ((B1 & B2 & B3 & B4 & B5 & B6 & B7) & B8 & _).
    split; [unfold same_rest, same_space; split_and!; congruence|by eapply woken_trans]. }
  assert (Hasleep : forall j, p_state (getproc j s') = SLEEPING -> p_state (getproc j s2) = SLEEPING).
  { intros j E. rewrite G in E; [done|]. intros ->. by rewrite Gc in E. }
  split_and!.
  - intros j. destruct (HR j) as [(A1 & _ & _ & _ & A2) _]. destruct (decide (j = cur)) as [->|N]; [rewrite Gc|rewrite G by done]; done.
  - intros j Hj. rewrite G by done. apply HR.
  - intros j. rewrite <- Hpar2. destruct (decide (j = cur)) as [->|N]; [by rewrite Gc|by rewrite G].
  - by rewrite Gc.
  - intros j E. apply W1. apply Hasleep in E. destruct (R2 j) as (_ & Wk & _). by eapply woken_asleep.
  - intros j z E Hp Hz. destruct (R1 j) as ((_ & _ & A3 & _) & _). rewrite <- A3, <- S3. destruct (R1 z) as (_ & Ez & Wz).
    apply (W2 j z); [by apply Hasleep| |congruence|by eapply woken_zombie]. apply (child_slot z cur). congruence.
  - intros j. rewrite C3. unfold put, cpus_of, getcpu. by rewrite T1, S1.
  - by rewrite N3, T2, S2.
  - by rewrite I3, T3, S3.
  - rewrite Es'. cbn [set_cpus ptable]. rewrite !length_upd. by rewrite T4, S4.
  - rewrite Es'. cbn. by rewrite T5, S5.
Qed.

(** ** [wait] *)

(** A zombie child has been reaped, or there is none. *)
Definition reaped (cur i : nat) (s s' : kern) : Prop :=
  p_parent (getproc i s) = Some cur /\ p_state (getproc i s) = ZOMBIE /\
  exists x, p_state x = UNUSED /\ p_pid x = 0 /\ p_parent x = None /\ p_killed x = false /\
    (forall j, getproc j s' = put i x (procs_of s) j) /\ cpus s' = cpus s /\ nextpid s' = nextpid s /\ initproc s' = initproc s /\
    length (ptable s') = length (ptable s) /\ pipe_pages s' = pipe_pages s /\
    exists k, kfree kend (p_kstack (getproc i s)) (mem s) = Ret tt k /\ freevm kend (p_pgdir (getproc i s)) k = Ret tt (mem s').

Definition scanned (cur : nat) (l : list nat) (hk : bool) (s : kern) (r : Z + bool) (s' : kern) : Prop :=
  match r with
  | inl pid => exists i, i ∈ l /\ reaped cur i s s' /\ pid = p_pid (getproc i s)
  | inr hk' => s' = s /\ (hk' = true -> hk = true \/ exists i, p_parent (getproc i s) = Some cur) /\
      forall i, i ∈ l -> p_parent (getproc i s) = Some cur -> p_state (getproc i s) <> ZOMBIE
  end.

Lemma wait_scan_inv cur l : forall s hk r s', Forall (fun i => i < length (ptable s))%nat l -> wait_scan kend cur l hk s = Ret r s' ->
  scanned cur l hk s r s'.
Proof.
  induction l as [|i l IH]; intros s hk r s' Hl H.
  - unfold wait_scan, ret in H. injection H as <- <-. split_and!; [done|tauto|]. intros i Hi. by apply not_elem_of_nil in Hi.
  - apply Forall_cons in Hl as [Hi Hl]. cbn [wait_scan] in H. rewrite gets_bind in H.
    assert (Hrec : forall hk0, wait_scan kend cur l hk0 s = Ret r s' -> (p_parent (getproc i s) = Some cur -> p_state (getproc i s) <> ZOMBIE) ->
      (hk0 = true -> hk = true \/ exists i, p_parent (getproc i s) = Some cur) -> scanned cur (i :: l) hk s r s').
    { intros hk0 H0 Hz Hk. specialize (IH s hk0 r s' Hl H0). destruct r as [pid|hk'].
      - destruct IH as (j & Hj & R). exists j. split; [by right|exact R].
      - destruct IH as (-> & R1 & R2). split_and!; [done|tauto|]. intros j Hj. apply elem_of_cons in Hj as [->|Hj]; [done|by apply R2]. }
    case_bool_decide as Ep; cbn [negb] in H; [|apply (Hrec hk); [done|done|tauto]].
    case_bool_decide as Ez; cbn [negb] in H; [|apply (Hrec true); [done|done|eauto]].
    clear Hrec IH. ret_inv H. unfold ret in H. injection H as <- <-. destruct a, a0.
    match goal with |- scanned _ _ _ _ _ ?z => set (sf := z) end.
    exists i. split; [left|]. split; [|done]. split; [done|]. split; [done|]. exists (getproc i sf). assert (Gi : getproc i sf = with_state UNUSED (with_killed false (with_name (<[0%nat := 0]> (p_name (getproc i s)))
      (with_parent None (with_pid 0 (with_kstack 0 (getproc i s))))))) by (unfold sf; getp; by rewrite !decide_True).
    rewrite Gi. split_and!; try done.
    + intros j. unfold sf, put, procs_of. getp. repeat case_decide; by subst.
    + unfold sf. solve_len.
    + exists x. split; [exact E|exact E0].
Qed.
(** ** Preservation *)

(** The invariant of the state; [sys_ok] for the system. *)
Definition kern_ok (k : kern) (pc : nat -> kpc) : Prop :=
  exists init, initproc k = Some init /\ procs_ok (procs_of k) (cpus_of k) pc init (nextpid k).

Lemma kern_ok_ext k' P C pc : (forall j, procs_of k' j = P j) -> (forall c, cpus_of k' c = C c) ->
  (exists init, initproc k' = Some init /\ procs_ok P C pc init (nextpid k')) -> kern_ok k' pc.
Proof. intros HP HC (init & Ei & I). exists init. split; [done|]. by eapply procs_ok_ext; [exact HP|exact HC|done|exact I]. Qed.

Lemma quiet_ok i k k' pc : quiet i k k' -> kern_ok k pc -> kern_ok k' pc.
Proof.
  intros (Q1 & Q2 & _ & Q3 & Q4 & Q5 & _) (init & Ei & I). exists init. rewrite Q5, Q4. split; [done|].
  eapply procs_ok_ext with (P := procs_of k') (C := cpus_of k) (pc := pc); [done| |done|].
  - intros c. unfold cpus_of, getcpu. by rewrite Q3.
  - eapply procs_ok_same; [|exact I]. intros p. unfold procs_of. destruct (decide (p = i)) as [->|N]; [done|]. by rewrite Q1.
Qed.

Lemma runs_cur k pc c cur : kern_ok k pc -> runs (Sys k pc) c cur ->
  (cur < length (ptable k))%nat /\ (c < length (cpus k))%nat /\ p_state (getproc cur k) = RUNNING /\ cpus_of k c = Some cur.
Proof.
  intros (init & _ & I) [Hc Hl]. cbn in Hc, Hl. pose proof (po_cpu _ _ _ _ _ I c cur Hc) as Hr.
  split_and!; try done. apply in_table. unfold procs_of in Hr. congruence.
Qed.

Lemma yield_ok k pc c cur k' : kern_ok k pc -> runs (Sys k pc) c cur -> yield c cur k = Ret tt k' -> kern_ok k' pc.
Proof.
  intros Hk Hr H. destruct (runs_cur k pc c cur Hk Hr) as (Hn & Hc & Hst & Ec). destruct Hk as (init & Ei & I).
  unfold yield in H. rewrite (bind_Ret _ _ _ _ _ (modproc_eq cur (with_state RUNNABLE) k)) in H.
  destruct (stop_procs c cur _ _ k _ k' Hn Hc H) as (HP & HC & Hp & Hi).
  eapply kern_ok_ext; [exact HP|exact HC|]. exists init. rewrite Hi, Hp. split; [done|]. apply ok_stop; try done. by left.
Qed.

Lemma sleep_procs c cur ch ctx k k' : (cur < length (ptable k))%nat -> (c < length (cpus k))%nat -> sleep c cur ch ctx k = Ret tt k' ->
  (forall j, procs_of k' j = put cur (with_context ctx (with_state SLEEPING (with_chan ch (getproc cur k)))) (procs_of k) j) /\
  (forall j, cpus_of k' j = put c None (cpus_of k) j) /\ nextpid k' = nextpid k /\ initproc k' = initproc k.
Proof.
  unfold sleep. intros Hn Hc H. rewrite (bind_Ret _ _ _ _ _ (modproc_eq cur (with_chan ch) k)) in H.
  rewrite (bind_Ret _ _ _ _ _ (modproc_eq cur (with_state SLEEPING) _)) in H.
  destruct (stop_procs c cur _ _ _ _ k' ltac:(by rewrite length_upd) Hc H) as (HP & HC & Hp & Hi). split_and!; try done.
  intros j. rewrite HP. unfold put, procs_of. case_decide; subst; getp; [by rewrite decide_True|by rewrite decide_False].
Qed.

Lemma sleep_ok k pc c cur a k' : kern_ok k pc -> runs (Sys k pc) c cur -> pc cur = KRun ->
  sleep c cur (Some (ChAddr a)) InSleep k = Ret tt k' -> kern_ok k' pc.
Proof.
  intros Hk Hr Hpc H. destruct (runs_cur k pc c cur Hk Hr) as (Hn & Hc & Hst & Ec). destruct Hk as (init & Ei & I).
  destruct (sleep_procs c cur _ _ k k' Hn Hc H) as (HP & HC & Hp & Hi).
  eapply kern_ok_ext; [exact HP|exact HC|]. exists init. rewrite Hi, Hp. split; [done|]. apply ok_stop; try done. right. by split_and!; [|done|left].
Qed.

Lemma wakeup_ok k pc ch k' : kern_ok k pc -> wakeup1 ch k = Ret tt k' -> kern_ok k' pc.
Proof.
  intros (init & Ei & I) H. apply wakeup1_procs in H as (HP & HC & Hp & Hi & _). exists init. rewrite Hi, Hp. split; [done|].
  eapply procs_ok_ext with (P := procs_of k') (C := cpus_of k) (pc := pc); [done| |done|].
  - intros c. unfold cpus_of, getcpu. by rewrite HC.
  - eapply ok_wake; [exact I|]. intros j. rewrite HP. case_decide as D; [right; by split; [apply D|]|by left].
Qed.

Lemma slot_ok k pc c cur np k' : kern_ok k pc -> runs (Sys k pc) c cur -> pc cur = KRun -> 0 < nextpid k < 2 ^ 31 - 1 ->
  allocproc_slot k = Ret (Some np) k' -> kern_ok k' (at_pc cur (KFork1 np) pc).
Proof.
  intros Hk Hr Hpc Hnp H. destruct (runs_cur k pc c cur Hk Hr) as (Hn & Hc & Hst & Ec). destruct Hk as (init & Ei & I).
  apply allocproc_slot_inv in H as (Hu & Hl & ->).
  eapply kern_ok_ext with (P := put np (with_pid (nextpid k) (with_state EMBRYO (getproc np k))) (procs_of k)) (C := cpus_of k); [|done|].
  - intros j. unfold procs_of, put. getp. case_decide; [by rewrite decide_True|done].
  - exists init. split; [done|]. cbn [nextpid set_nextpid]. rewrite s32_small by lia. apply ok_slot; try done. lia.
Qed.

Lemma copy_ok k pc c cur np ok k' : kern_ok k pc -> runs (Sys k pc) c cur -> pc cur = KFork1 np -> fork_copy kend data cur np k = Ret ok k' ->
  kern_ok k' (at_pc cur (if ok then KFork2 np else KRun) pc).
Proof.
  intros Hk Hr Hpc H. destruct (runs_cur k pc c cur Hk Hr) as (Hn & Hc & Hst & Ec). destruct Hk as (init & Ei & I).
  assert (Hf : forking pc cur np) by (by left). pose proof (po_fork _ _ _ _ _ I _ _ Hf) as Hnp. unfold procs_of in Hnp.
  assert (Hne : cur <> np) by congruence. assert (Hnl : (np < length (ptable k))%nat) by (apply in_table; congruence).
  destruct (fork_copy_inv cur np k ok k' Hne Hnl H) as (E1 & E2 & E3 & E4 & _ & _ & E5 & _ & E6 & _).
  eapply kern_ok_ext with (P := put np (getproc np k') (procs_of k)) (C := cpus_of k).
  - intros j. unfold procs_of, put. case_decide; [by subst|by apply E1].
  - intros j. unfold cpus_of, getcpu. by rewrite E2.
  - exists init. rewrite E4, E3. split; [done|]. eapply ok_embryo; try done.
    assert (Hpar : p_parent (getproc np k) = None).
    { destruct (po_embryo _ _ _ _ _ I np Hnp) as (q & [[_ ?]|[Hq _]]); [done|].
      assert (q = cur) by (eapply (po_fork_inj _ _ _ _ _ I); [by right|done]). congruence. }
    destruct ok; [left|right; left]; (split; [done|]).
    + destruct E6 as [-> ?]. done.
    + destruct E6 as [? ->]. done.
Qed.
Lemma forked_ok k pc c cur np pid k' : kern_ok k pc -> runs (Sys k pc) c cur -> pc cur = KFork2 np -> fork_done np k = Ret pid k' ->
  kern_ok k' (at_pc cur KRun pc).
Proof.
  intros Hk Hr Hpc H. destruct (runs_cur k pc c cur Hk Hr) as (Hn & Hc & Hst & Ec). destruct Hk as (init & Ei & I).
  assert (Hf : forking pc cur np) by (by right). pose proof (po_fork _ _ _ _ _ I _ _ Hf) as Hnp. unfold procs_of in Hnp.
  assert (Hnl : (np < length (ptable k))%nat) by (apply in_table; congruence).
  unfold fork_done in H. ret_inv H. unfold ret in H. injection H as _ <-.
  eapply kern_ok_ext with (P := put np (with_state RUNNABLE (getproc np k)) (procs_of k)) (C := cpus_of k); [|done|].
  - intros j. unfold procs_of, put. getp. by case_decide.
  - exists init. split; [done|]. eapply ok_embryo; try done. right. right. split_and!; try done. cbn.
    destruct (po_embryo _ _ _ _ _ I np Hnp) as (q & [[Hq _]|[Hq Hp]]); assert (q = cur) as -> by (eapply (po_fork_inj _ _ _ _ _ I); [by (left + right)|done]); [congruence|exact Hp].
Qed.

Lemma closed_ok k pc c cur k' : kern_ok k pc -> runs (Sys k pc) c cur -> pc cur = KRun -> exit_files sb kend cur k = Ret tt k' ->
  kern_ok k' (at_pc cur KExit pc).
Proof.
  intros Hk Hr Hpc H. destruct (runs_cur k pc c cur Hk Hr) as (Hn & Hc & Hst & Ec).
  destruct (exit_files_inv cur k k' Hn H) as (Q & Hni & _). eapply quiet_ok; [exact Q|]. destruct Hk as (init & Ei & I).
  exists init. split; [done|]. apply ok_closed; try done. congruence.
Qed.

Lemma zombie_ok k pc c cur k' : kern_ok k pc -> runs (Sys k pc) c cur -> pc cur = KExit -> exit_sched c cur k = Ret tt k' ->
  kern_ok k' (at_pc cur KRun pc).
Proof.
  intros Hk Hr Hpc H. destruct (runs_cur k pc c cur Hk Hr) as (Hn & Hc & Hst & Ec). destruct Hk as (init & Ei & I).
  assert (Hni : initproc k <> Some cur) by (pose proof (po_exit _ _ _ _ _ I cur Hpc); congruence).
  destruct (exit_sched_inv c cur k k' Hn Hc Hni H) as (E1 & E2 & E3 & E4 & E5 & E6 & E7 & E8 & E9 & _). rewrite Ei in E3, E6.
  eapply kern_ok_ext with (P := procs_of k') (C := put c None (cpus_of k)); [done|done|].
  exists init. rewrite E9, E8. split; [done|]. eapply ok_zombie; try done.
  - intros j. apply E1.
  - intros j Hj. destruct (E2 j Hj) as ((_ & ? & ? & ? & _) & _). done.
  - intros j Hj. apply E2, Hj.
  - intros j q Hs Hq. specialize (E5 j Hs). unfold procs_of in Hq. by rewrite Hq in E5.
Qed.

Lemma wait_ok k pc c cur r k' : kern_ok k pc -> runs (Sys k pc) c cur -> pc cur = KRun -> wait_turn kend c cur k = Ret r k' -> kern_ok k' pc.
Proof.
  intros Hk Hr Hpc H. destruct (runs_cur k pc c cur Hk Hr) as (Hn & Hc & Hst & Ec). destruct Hk as (init & Ei & I).
  unfold wait_turn in H. rewrite gets_bind in H. apply bind_inv in H as (r1 & k1 & E1 & H).
  assert (Hall : Forall (fun i => i < length (ptable k))%nat (slots k)) by (apply Forall_forall; intros i; apply elem_of_slots).
  pose proof (wait_scan_inv cur (slots k) k false r1 k1 Hall E1) as S. destruct r1 as [pid|hk].
  - unfold ret in H. injection H as _ <-. destruct S as (i & _ & (Hp & Hz & x & X1 & X2 & X3 & _ & G & C1 & N1 & I1 & _) & _).
    eapply kern_ok_ext with (C := cpus_of k); [exact G| |].
    + intros j. unfold cpus_of, getcpu. by rewrite C1.
    + exists init. rewrite I1, N1. split; [done|]. by eapply ok_reap.
  - destruct S as (-> & Hk & Hz). rewrite gets_bind in H. destruct (negb hk || p_killed (getproc cur k)) eqn:B.
    + unfold ret in H. injection H as _ <-. by exists init.
    + apply orb_false_iff in B as [B1 B2]. apply negb_false_iff in B1. apply bind_inv in H as ([] & k2 & E2 & H).
      unfold ret in H. injection H as _ <-. destruct (sleep_procs c cur _ _ k k2 Hn Hc E2) as (HP & HC & Hp & Hi).
      eapply kern_ok_ext; [exact HP|exact HC|]. exists init. rewrite Hi, Hp. split; [done|]. apply ok_stop; try done. right.
      split_and!; [done|done|]. right. split_and!; try done.
      * destruct (Hk B1) as [?|(i & ?)]; [done|]. by exists i.
      * intros q Hq. apply Hz; [|done]. by eapply child_slot.
Qed.

Lemma kill_ok k pc pid r k' : kern_ok k pc -> kill pid k = Ret r k' -> kern_ok k' pc.
Proof.
  intros (init & Ei & I) H. unfold kill in H. rewrite gets_bind in H.
  destruct (list_find _ _) as [[i p]|] eqn:E; [|unfold ret in H; injection H as _ <-; by exists init].
  apply list_find_Some in E as (E & _). assert (Hi : (i < length (ptable k))%nat) by (by eapply lookup_lt_Some).
  rewrite (bind_Ret _ _ _ _ _ (modproc_eq i (with_killed true) k)), gets_bind in H.
  assert (G : getproc i (upd i (with_killed true) k) = with_killed true (getproc i k)) by (getp; by rewrite decide_True).
  rewrite G in H. case_bool_decide as Es; cbn [when] in H; ret_inv H; unfold ret in H; injection H as _ <-.
  - eapply kern_ok_ext with (P := put i (with_state RUNNABLE (with_killed true (getproc i k))) (procs_of k)) (C := cpus_of k); [|done|].
    + intros j. unfold procs_of, put. getp. case_decide; [by rewrite decide_True|done].
    + exists init. split; [done|]. apply ok_kill; [done| |by right]. right. by split.
  - eapply kern_ok_ext with (P := put i (with_killed true (getproc i k)) (procs_of k)) (C := cpus_of k); [|done|].
    + intros j. unfold procs_of, put. getp. by case_decide.
    + exists init. split; [done|]. apply ok_kill; [done| |by left]. by left.
Qed.
(** Changes to memory and to fields that no other process looks at. *)
Lemma same_ok k k' pc : (forall j, same_thread (getproc j k) (getproc j k')) -> cpus k' = cpus k -> nextpid k' = nextpid k -> initproc k' = initproc k ->
  kern_ok k pc -> kern_ok k' pc.
Proof.
  intros HP HC Hn Hi (init & Ei & I). exists init. rewrite Hi, Hn. split; [done|].
  eapply procs_ok_ext with (P := procs_of k') (C := cpus_of k) (pc := pc); [done| |done|].
  - intros c. unfold cpus_of, getcpu. by rewrite HC.
  - eapply procs_ok_same; [|exact I]. exact HP.
Qed.

Lemma growproc_inv cur n s r s' : (cur < length (ptable s))%nat -> growproc kend cur n s = Ret r s' ->
  exists sz k, let p := getproc cur s in
    (if 0 <? n then allocuvm kend (p_pgdir p) (p_sz p) (u32 (p_sz p + n)) (mem s) = Ret sz k
     else if n <? 0 then deallocuvm kend (p_pgdir p) (p_sz p) (u32 (p_sz p + n)) (mem s) = Ret sz k
     else sz = p_sz p /\ k = mem s) /\
    mem s' = k /\ pipe_pages s' = pipe_pages s /\ cpus s' = cpus s /\ nextpid s' = nextpid s /\ initproc s' = initproc s /\
    ((r = -1 /\ sz = 0 /\ forall j, getproc j s' = getproc j s) \/
     (r = 0 /\ (n <> 0 -> sz <> 0) /\ forall j, getproc j s' = if decide (j = cur) then with_space sz (p_pgdir p) p else getproc j s)).
Proof.
  intros Hn H. unfold growproc in H. rewrite gets_bind in H. destruct (Z.ltb_spec 0 n); [|destruct (Z.ltb_spec n 0)]; ret_inv H; unfold ret in H; injection H as <- <-.
  1, 3: exists a, x; apply Z.eqb_eq in B; split_and!; try done; by left.
  1, 2: exists a, x; apply Z.eqb_neq in B; split_and!; try done; right; split; [done|]; split; [done|]; intros j; getp; by case_decide.
  exists (p_sz (getproc cur s)), (mem s). split_and!; try done. right. split; [done|]. split; [lia|]. intros j. getp. by case_decide.
Qed.

Lemma grow_ok k pc c cur n r k' : kern_ok k pc -> runs (Sys k pc) c cur -> growproc kend cur n k = Ret r k' -> kern_ok k' pc.
Proof.
  intros Hk Hr H. destruct (runs_cur k pc c cur Hk Hr) as (Hn & _).
  destruct (growproc_inv cur n k r k' Hn H) as (sz & x & _ & _ & _ & C1 & N1 & I1 & G).
  eapply same_ok; [|exact C1|exact N1|exact I1|exact Hk]. intros j.
  destruct G as [(_ & _ & ->)|(_ & _ & ->)]; [done|]. case_decide; [by subst|done].
Qed.

Lemma resume_ok k pc c cur r k' : kern_ok k pc -> runs (Sys k pc) c cur -> (p_context (getproc cur k) = InWait -> pc cur = KRun) ->
  resume kend c cur k = Ret r k' -> kern_ok k' pc.
Proof.
  intros Hk Hr Hpc H. destruct (runs_cur k pc c cur Hk Hr) as (Hn & Hc & Hst & Ec). unfold resume in H. rewrite gets_bind in H.
  assert (Hch : kern_ok (upd cur (with_chan None) k) pc).
  { destruct Hk as (init & Ei & I). eapply kern_ok_ext with (P := put cur (with_chan None (getproc cur k)) (procs_of k)) (C := cpus_of k); [|done|].
    - intros j. unfold procs_of, put. getp. by case_decide.
    - exists init. split; [done|]. apply (ok_chan _ _ _ _ _ I). unfold procs_of. congruence. }
  destruct (p_context (getproc cur k)) eqn:Ex; [unfold ret in H; injection H as _ <-; done..| |]; ret_inv H.
  - unfold ret in H. by injection H as _ <-.
  - unfold ret in H. injection H as _ <-. eapply wait_ok; [exact Hch| |by apply Hpc|exact E]. exact Hr.
Qed.

Definition dispatched (c q : nat) (k : kern) : kern := upd q (with_state RUNNING) (set_cpus (<[c := Cpu (Some q) (S q)]> (cpus k)) k).

Lemma switchuvm_inv q k a k' : switchuvm q k = Ret a k' -> k' = k.
Proof. unfold switchuvm. rewrite gets_bind. by repeat destruct (_ =? 0); intros [= _ <-]. Qed.

Lemma scheduler_inv c k r k' : scheduler kend c k = Ret r k' ->
  k' = set_cpus (<[c := Cpu None 0]> (cpus k)) k \/
  exists q, (q < length (ptable k))%nat /\ p_state (getproc q k) = RUNNABLE /\ resume kend c q (dispatched c q k) = Ret r k'.
Proof.
  intros H. unfold scheduler in H. rewrite !gets_bind in H. destruct (list_find _ _) as [[i p]|] eqn:E.
  - right. apply list_find_Some in E as (E1 & E2 & _). rewrite lookup_drop in E1. exists (c_next (getcpu c k) + i)%nat.
    unfold setcpu in H. rewrite modify_bind in H.
    apply bind_inv in H as (u & s & E & H). apply switchuvm_inv in E as ->. split_and!; [by eapply lookup_lt_Some| |exact H]. unfold getproc. by rewrite E1.
  - left. unfold setcpu in H. rewrite modify_bind in H. by apply Ret_inj in H as [_ <-].
Qed.

Lemma dispatch_ok k pc c q : kern_ok k pc -> c_proc (getcpu c k) = None -> (c < length (cpus k))%nat -> (q < length (ptable k))%nat ->
  p_state (getproc q k) = RUNNABLE -> kern_ok (dispatched c q k) pc /\ runs (Sys (dispatched c q k) pc) c q.
Proof.
  intros (init & Ei & I) Hc Hl Hq Hst. split.
  - eapply kern_ok_ext with (P := put q (with_state RUNNING (getproc q k)) (procs_of k)) (C := put c (Some q) (cpus_of k)).
    + intros j. unfold procs_of, put, dispatched. getp. by case_decide.
    + intros j. etrans; [|apply (cpus_set c (Cpu (Some q) (S q)) k j Hl)]. done.
    + exists init. split; [done|]. by apply (ok_dispatch (procs_of k) (cpus_of k) pc init (nextpid k) I c q).
  - split; [|cbn; by rewrite length_insert]. unfold dispatched, getcpu. cbn. by rewrite list_lookup_insert_eq.
Qed.

Lemma scheduler_ok k pc c r k' : kern_ok k pc -> c_proc (getcpu c k) = None -> (c < length (cpus k))%nat ->
  scheduler kend c k = Ret r k' -> kern_ok k' pc.
Proof.
  intros Hk Hc Hl H. destruct (scheduler_inv c k r k' H) as [->|(q & Hq & Hst & H')].
  - destruct Hk as (init & Ei & I). eapply kern_ok_ext with (P := procs_of k) (C := cpus_of k); [done| |by exists init].
    intros j. rewrite cpus_set by done. unfold put. case_decide; [by subst|done].
  - destruct (dispatch_ok k pc c q Hk Hc Hl Hq Hst) as [K1 R1]. eapply resume_ok; [exact K1|exact R1| |exact H'].
    unfold dispatched. getp. rewrite decide_True by done. cbn. intros Ex. destruct Hk as (init & _ & I).
    destruct (pc q) eqn:Epc; [done|..]; destruct (po_pc _ _ _ _ _ I q) as [?|[_ ?]]; unfold procs_of in *; congruence.
Qed.

(** C39: [kill] looks for the pid in free slots too.  When the first slot with
    pid 0 is the slot that the next [fork] takes, [kill(0)] reports success and
    the child of that [fork] starts its life killed. *)
Theorem kill_zero_dooms_child cur s i : list_find (fun p => p_pid p = 0) (ptable s) = Some (i, getproc i s) ->
  list_find (fun p => p_state p = UNUSED) (ptable s) = Some (i, getproc i s) -> cur <> i ->
  exists s1, kill 0 s = Ret 0 s1 /\
    forall pid s2, fork kend data cur s1 = Ret pid s2 -> pid <> -1 ->
      p_pid (getproc i s2) = pid /\ p_state (getproc i s2) = RUNNABLE /\ p_killed (getproc i s2) = true.
Proof.
  intros E0 EU Hne. apply list_find_Some in EU as (Ei & Hu & Hbefore). assert (Hi : (i < length (ptable s))%nat) by (by eapply lookup_lt_Some).
  unfold kill. rewrite gets_bind, E0, (bind_Ret _ _ _ _ _ (modproc_eq i (with_killed true) s)), gets_bind.
  assert (G1 : getproc i (upd i (with_killed true) s) = with_killed true (getproc i s)) by (getp; by rewrite decide_True).
  rewrite G1. cbn [p_state with_killed]. rewrite Hu. rewrite bool_decide_false by done. cbn [when]. rewrite ret_bind.
  set (s1 := upd i (with_killed true) s) in *. exists s1. split; [done|]. intros pid s2 H Hpid.
  unfold fork in H. apply bind_inv in H as (r & s3 & E3 & H). destruct r as [np|]; [|unfold ret in H; by injection H as <-].
  destruct (allocproc_slot_inv s1 np s3 E3) as (Hnp & Hnl & Es3).
  assert (np = i) as ->.
  { unfold allocproc_slot in E3. rewrite gets_bind in E3. destruct (list_find _ (ptable s1)) as [[j p]|] eqn:Ej; [|done].
    ret_inv E3. unfold ret in E3. injection E3 as -> _. apply list_find_Some in Ej as (Ej & Hj & Hlt).
    destruct (decide (np = i)) as [->|N]; [done|]. unfold s1, upd in Ej. cbn in Ej. rewrite list_lookup_insert_ne in Ej by done.
    destruct (decide (np < i)%nat) as [L|L]; [exfalso; by eapply Hbefore|].
    exfalso. apply (Hlt i (with_killed true (getproc i s))); [|lia|done]. unfold s1, upd. cbn. by rewrite list_lookup_insert_eq. }
  assert (Hl1 : (i < length (ptable s1))%nat) by (unfold s1; solve_len). assert (Hl3 : (i < length (ptable s3))%nat) by (rewrite Es3; solve_len).
  apply bind_inv in H as (ok & s4 & E4 & H). destruct ok; [|unfold ret in H; by injection H as <-].
  destruct (fork_copy_inv cur i s3 true s4 Hne Hl3 E4) as (_ & _ & _ & _ & L4 & _ & _ & K4 & _).
  unfold fork_done in H. ret_inv H. unfold ret in H. injection H as <- <-.
  assert (Hl4 : (i < length (ptable s4))%nat) by (by rewrite L4). getp. rewrite decide_True by done. split_and!; try done. cbn.
  rewrite K4, Es3. getp. rewrite !decide_True by done. cbn. by rewrite G1.
Qed.

Context (other : proc -> kstate -> kstate -> Prop).

(** The states that the system reaches before its counter of processes has
    gone through all positive numbers. *)
Inductive reach (s0 : sys) : sys -> Prop :=
| reach_init : reach s0 s0
| reach_step who s s' : reach s0 s -> nextpid (kn s) < 2 ^ 31 - 1 -> pstep sb kend data other who s s' -> reach s0 s'.

Lemma nextpid_pos k pc : kern_ok k pc -> 0 < nextpid k.
Proof. intros (init & _ & I). destruct (po_pid _ _ _ _ _ I init). lia. Qed.

Lemma pstep_ok who s s' : kern_ok (kn s) (pcs s) -> nextpid (kn s) < 2 ^ 31 - 1 -> pstep sb kend data other who s s' -> kern_ok (kn s') (pcs s').
Proof.
  intros K Hp H. pose proof (nextpid_pos _ _ K) as Hpos. destruct H; cbn [kn pcs]; destruct s as [k pc]; cbn [kn pcs] in *.
  - by eapply scheduler_ok.
  - by eapply yield_ok.
  - by eapply sleep_ok.
  - by eapply wakeup_ok.
  - by eapply slot_ok.
  - by eapply copy_ok.
  - by eapply forked_ok.
  - by eapply closed_ok.
  - by eapply zombie_ok.
  - by eapply wait_ok.
  - by eapply kill_ok.
  - by eapply grow_ok.
  - destruct (runs_cur k pc c cur K H) as (Hn & _). eapply quiet_ok; [|exact K].
    eapply quiet_trans; [apply (quiet_shared cur x)|]. by apply quiet_upd.
Qed.

(** The table when the cpus start to schedule: the first process, and free slots. *)
Definition booted (k : kern) : Prop := exists i,
  initproc k = Some i /\ p_state (getproc i k) = RUNNABLE /\ 0 < p_pid (getproc i k) < nextpid k /\ p_parent (getproc i k) = None /\
  (forall j, j <> i -> p_state (getproc j k) = UNUSED /\ p_pid (getproc j k) = 0 /\ p_parent (getproc j k) = None) /\
  (forall c, cpus_of k c = None).

Lemma booted_ok k : booted k -> kern_ok k (fun _ => KRun).
Proof.
  intros (i & Hi & Hst & Hpid & Hpar & Gj & Hidle). exists i. split; [done|].
  assert (Hcase : forall p, p = i \/ (p <> i /\ p_state (getproc p k) = UNUSED /\ p_pid (getproc p k) = 0 /\ p_parent (getproc p k) = None)).
  { intros p. destruct (decide (p = i)) as [->|N]; [by left|right]. by split; [|apply Gj]. }
  split; unfold procs_of, forking, live; try done.
  all: try (intros ? ? ?; rewrite ?Hidle in *; congruence).
  - intros p. destruct (Hcase p) as [->|(_ & E & _)]; congruence.
  - intros p. destruct (Hcase p) as [->|(_ & E1 & E2 & _)]; [split; [lia|intros _; lia]|]. rewrite E1, E2. split; [lia|done].
  - intros p q. destruct (Hcase p) as [->|(_ & _ & E & _)], (Hcase q) as [->|(_ & _ & E' & _)]; congruence.
  - rewrite Hst. tauto.
  - intros p Hp. destruct (Hcase p) as [->|(_ & E & _)]; done.
  - intros p. destruct (Hcase p) as [->|(_ & _ & _ & E)]; done.
  - intros p. destruct (Hcase p) as [->|(_ & E & _)]; congruence.
  - intros q p [?|?]; done.
  - intros q q' p [?|?]; done.
  - intros p. destruct (Hcase p) as [->|(_ & E & _)]; congruence.
  - intros p. destruct (Hcase p) as [->|(_ & E & _)]; congruence.
Qed.

Lemma reach_ok s0 s : kern_ok (kn s0) (pcs s0) -> reach s0 s -> kern_ok (kn s) (pcs s).
Proof. intros K. induction 1 as [|who s s' _ IH Hp Hs]; [done|]. by eapply pstep_ok. Qed.

(** C4: the process table in every state that the processes of the machine
    reach, on any number of cpus and in any interleaving of [fork], [exit],
    [wait], [kill], [sleep], [wakeup], [sbrk], the scheduler and preemption,
    from the table that [userinit] leaves and until [nextpid] overflows.
    A running process is on exactly one cpu; no two processes have the same
    pid; every process but the first has a parent, which has not exited; a slot
    in creation belongs to one process; and a process sleeps in [wait] only
    while it has a child, none of its children is a zombie, and it has not
    been killed: no wakeup is lost. *)
Theorem process_table_sound k0 s : booted k0 -> reach (Sys k0 (fun _ => KRun)) s ->
  exists init, initproc (kn s) = Some init /\
    procs_ok (fun p => getproc p (kn s)) (fun c => c_proc (getcpu c (kn s))) (pcs s) init (nextpid (kn s)).
Proof. intros B R. exact (reach_ok (Sys k0 (fun _ => KRun)) s (booted_ok k0 B) R). Qed.
(** What [main] has set up before the first process: free slots and idle cpus. *)
Definition fresh (k : kern) : Prop :=
  ptable k = replicate (Z.to_nat NPROC) zero_proc /\ nextpid k = 1 /\ Forall (fun c => c_proc c = None) (cpus k).

Context (devsw_read : Z -> option (nat -> Z -> M (fstate lstate) (Z * list Z))).

Lemma fresh_proc k j : fresh k -> getproc j k = zero_proc.
Proof.
  intros (Ht & _). unfold getproc. rewrite Ht. destruct (replicate _ _ !! j) as [p|] eqn:E; [|done].
  by apply lookup_replicate in E as [-> _].
Qed.

Lemma allocproc_fresh k np k' : fresh k -> allocproc k = Ret (Some np) k' ->
  (np < length (ptable k'))%nat /\ nextpid k' = 2 /\ cpus k' = cpus k /\
  (forall j, j <> np -> getproc j k' = zero_proc) /\ p_pid (getproc np k') = 1 /\ p_parent (getproc np k') = None /\
  p_context (getproc np k') = AtForkret.
Proof.
  intros F H. unfold allocproc in H. apply bind_inv in H as (r & k1 & E & H). destruct r as [i|]; [|done].
  destruct (allocproc_slot_inv k i k1 E) as (_ & Hi & ->). pose proof F as (_ & Hn & _).
  match type of H with bind _ _ ?z = _ => set (k1 := z) in * end.
  assert (Hi1 : (i < length (ptable k1))%nat) by (unfold k1; solve_len).
  apply bind_inv in H as (b & k2 & E2 & H). destruct b; unfold ret in H; [|done]. injection H as <- <-.
  destruct (allocproc_stack_inv i k1 true k2 Hi1 E2) as (a & x & _ & _ & _ & C2 & N2 & _ & L2 & G2).
  split_and!.
  - by rewrite L2.
  - rewrite N2. unfold k1. cbn. by rewrite Hn.
  - by rewrite C2.
  - intros j Hj. rewrite G2, decide_False by done. unfold k1. getp. rewrite !decide_False by done. by apply fresh_proc.
  - rewrite G2, decide_True by done. unfold k1. getp. rewrite !decide_True by done. cbn. done.
  - rewrite G2, decide_True by done. unfold k1. getp. rewrite !decide_True by done. cbn. by rewrite fresh_proc.
  - by rewrite G2, decide_True.
Qed.

(** [userinit] makes the first process. *)
Lemma userinit_booted initcode k k' : fresh k -> userinit sb kend data devsw_read initcode k = Ret tt k' -> booted k'.
Proof.
  intros F H. unfold userinit in H. apply bind_inv in H as (r & k1 & E & H). rewrite modify_bind in H. destruct r as [i|]; [|done].
  destruct (allocproc_fresh k i k1 F E) as (Hi & Hn & Hc & G & Gp & Gpar & Gctx).
  ret_inv H. injection H as <-.
  match goal with |- booted ?z => set (kf := z) end.
  assert (Gi : exists x, getproc i kf = with_state RUNNABLE x /\ p_pid x = 1 /\ p_parent x = None /\ p_context x = AtForkret).
  { eexists. split; [unfold kf; getp; rewrite !decide_True by done; reflexivity|]. done. }
  destruct Gi as (px & Gi & X1 & X2 & X3).
  exists i. split; [done|]. change (nextpid kf) with (nextpid k1). rewrite Hn, Gi. cbn [p_state p_pid p_parent with_state]. rewrite X1, X2. split_and!; try done; try lia.
  - intros j Hj. assert (getproc j kf = zero_proc) as ->; [|done]. unfold kf. getp. rewrite !decide_False by done. by apply G.
  - intros c. unfold cpus_of, getcpu. change (cpus kf) with (cpus k1). rewrite Hc. destruct (cpus k !! c) as [y|] eqn:Ey; [|done].
    destruct F as (_ & _ & Hf). rewrite Forall_lookup in Hf. by apply Hf in Ey.
Qed.

End operations.

(** A machine of two cpus with the first process. *)
Module sample.
Definition shared0 : kstate := KState (FState (LState (Bio ∅ 100 [] [] []) (Log 0 0 0 false 0 [])) []) (Kmem false 0 ∅) [] ∅ (User [] 0) [] 0 false 0.
Definition boot : kern := Kern shared0 (with_state RUNNABLE (with_pid 1 (with_kstack (P2V 8192) (with_space 4096 (P2V 4096) zero_proc))) :: replicate 63 zero_proc) 2 (Some 0%nat) [Cpu None 0; Cpu None 0] 0.
Definition sb : superblock := Superblock 100 60 200 30 2 32 58.
Definition state {A} (o : outcome kern A) : kern := match o with Ret _ k => k | _ => boot end.
Definition k1 : kern := state (scheduler 0 0 boot).
Definition k2 : kern := state (allocproc_slot k1).
Definition k3 : kern := state (yield 0 0 k2).

Lemma yields : yield 0 0 k2 = Ret tt k3.
Proof. vm_compute. reflexivity. Qed.

Lemma boot_booted : booted boot.
Proof.
  exists 0%nat. split_and!; try done.
  - intros j Hj. unfold getproc, boot. cbn [ptable]. destruct j as [|j]; [done|]. cbn [lookup list_lookup].
    destruct (replicate 63 zero_proc !! j) as [p|] eqn:E; [|done]. by apply lookup_replicate in E as [-> _].
  - intros c. destruct c as [|[|c]]; done.
Qed.
End sample.

(** The first process is scheduled on cpu 0, begins a [fork] and is preempted. *)
Lemma process_table_sound_witness :
  pcs (Sys sample.k3 (at_pc 0 (KFork1 1) (fun _ => KRun))) 0%nat = KFork1 1 /\ p_state (getproc 0 sample.k3) = RUNNABLE /\
  exists init, initproc sample.k3 = Some init /\
    procs_ok (fun p => getproc p sample.k3) (fun c => c_proc (getcpu c sample.k3)) (at_pc 0 (KFork1 1) (fun _ => KRun)) init (nextpid sample.k3).
Proof.
  split; [reflexivity|]. split; [reflexivity|].
  apply (process_table_sound sample.sb 0 0 (fun _ _ _ => False) sample.boot (Sys sample.k3 (at_pc 0 (KFork1 1) (fun _ => KRun))) sample.boot_booted).
  apply (reach_step _ _ _ _ _ (Some 0%nat) (Sys sample.k2 (at_pc 0 (KFork1 1) (fun _ => KRun)))); [|by vm_compute|].
  2: { apply (ps_yield _ _ _ _ (Sys sample.k2 (at_pc 0 (KFork1 1) (fun _ => KRun))) 0 0); [split; [reflexivity|vm_compute; lia]|exact sample.yields]. }
  apply (reach_step _ _ _ _ _ (Some 0%nat) (Sys sample.k1 (fun _ => KRun))); [|by vm_compute|].
  2: { apply (ps_fork _ _ _ _ (Sys sample.k1 (fun _ => KRun)) 0 0); [split; [reflexivity|vm_compute; lia]|reflexivity|reflexivity]. }
  apply (reach_step _ _ _ _ _ None (Sys sample.boot (fun _ => KRun))); [apply reach_init|by vm_compute|].
  apply (ps_sched _ _ _ _ (Sys sample.boot (fun _ => KRun)) 0 None); [reflexivity|vm_compute; lia|reflexivity].
Defined.
