(* ===== verification/ProcMem.v ===== *)
(** * The memory of the processes

    Every page belongs to one process, to a pipe, or is free; this is kept by
    every step of the system of [ProcInv]. *)

From S2P Require Import Prelude Params Kalloc Bio Log Inode Pipe Syscall File Vm VmUser VmCopy Proc ProcInv ProcSys.
Local Open Scope Z_scope.
Local Open Scope kmonad_scope.

Section memory.
Context (sb : superblock) (kend data : Z).
Context (Hkend : KERNBASE < kend) (Hdata : data mod 4096 = 0) (Hdata_range : KERNLINK < data < KERNBASE + PHYSTOP).
(** The pages that the memory consists of. *)
Context (all : Z -> Prop).
Local Abbreviation free_pages := (free_pages kend).
Local Abbreviation kernel_entry := (kernel_entry data).

(** ** Who owns which page

    The address space of a process: its page tables and its user pages. *)
Notation space := (gmap Z Z * gmap Z (Z * Z))%type (only parsing).

Definition foot (p : proc) (o : option space) (a : Z) : Prop :=
  match o with None => False | Some (T, U) => a = p_kstack p \/ owned (p_pgdir p) T U a end.

(** User pages lie below the size; all are mapped, but for a process that has
    given back its first page and cannot run. *)
Definition size_ok (sz : Z) (U : gmap Z (Z * Z)) : Prop :=
  0 <= sz < KERNBASE /\ (forall w x, U !! w = Some x -> w < pages_of sz) /\
  ((forall w, 0 <= w < pages_of sz -> is_Some (U !! w)) \/ U !! 0 = None).

Definition space_ok (k : kmem) (p : proc) (o : option space) : Prop :=
  match o with
  | None => True
  | Some (T, U) => aspace kend k (p_pgdir p) T U kernel_entry /\ size_ok (p_sz p) U /\ valid_page kend (p_kstack p) /\
      ~ owned (p_pgdir p) T U (p_kstack p)
  end.

Record mem_inv (k : kmem) (P : nat -> proc) (pp : gset Z) (l : list Z) (G : nat -> option space) : Prop := {
  mi_free : free_pages k l;
  mi_space : forall i, space_ok k (P i) (G i);
  mi_apart : forall i j a, foot (P i) (G i) a -> foot (P j) (G j) a -> i = j;
  mi_foot : forall i a, foot (P i) (G i) a -> a ∉ l /\ a ∉ pp;
  mi_pipe : forall a, a ∈ pp -> valid_page kend a /\ a ∉ l;
  mi_all : forall a, all a <-> a ∈ l \/ a ∈ pp \/ exists i, foot (P i) (G i) a;
}.

Lemma foot_same p p' o a : same_space p p' -> foot p' o a <-> foot p o a.
Proof. intros (_ & E2 & E3). unfold foot. destruct o as [[T U]|]; [|done]. by rewrite E2, E3. Qed.

Lemma space_same k p p' o : same_space p p' -> space_ok k p o -> space_ok k p' o.
Proof. intros (E1 & E2 & E3). unfold space_ok. destruct o as [[T U]|]; [|done]. by rewrite E1, E2, E3. Qed.

Lemma mem_inv_same k P P' pp l G : (forall i, same_space (P i) (P' i)) -> mem_inv k P pp l G -> mem_inv k P' pp l G.
Proof.
  intros E [H1 H2 H3 H4 H5 H6]. split; try done.
  - intros i. eapply space_same; [apply E|apply H2].
  - intros i j a. rewrite !(foot_same _ _ _ _ (E _)). apply H3.
  - intros i a. rewrite (foot_same _ _ _ _ (E _)). apply H4.
  - intros a. rewrite H6. by setoid_rewrite (fun i => foot_same _ _ (G i) a (E i)).
Qed.

(** The pages of one process change, in exchange with the free ones. *)
Lemma mem_replace k P pp l G i x o k' l' : mem_inv k P pp l G -> free_pages k' l' -> space_ok k' x o ->
  (forall a, foot x o a \/ a ∈ l' <-> foot (P i) (G i) a \/ a ∈ l) -> (forall a, foot x o a -> a ∉ l') ->
  only (fun w => foot (P i) (G i) w \/ w ∈ l) k k' ->
  mem_inv k' (put i x P) pp l' (put i o G).
Proof.
  intros [H1 H2 H3 H4 H5 H6] Hf Hs Hsame Hapart Ho.
  assert (Hold : forall a, foot x o a \/ a ∈ l' -> a ∉ pp /\ forall j, j <> i -> ~ foot (P j) (G j) a).
  { intros a Ha. apply Hsame in Ha. split.
    - destruct Ha as [Ha|Ha]; [by apply H4 in Ha as [_ ?]|]. intros Hp. by apply H5 in Hp as [_ ?].
    - intros j Hj Hf'. destruct Ha as [Ha|Ha]; [by apply Hj, (H3 j i a)|]. by apply H4 in Hf' as [? _]. }
  split; [done| | | | |].
  - intros j. unfold put. destruct (decide (j = i)) as [->|N]; [done|]. specialize (H2 j). unfold space_ok in *.
    destruct (G j) as [[T U]|] eqn:Ej; [|done]. destruct H2 as (A & Hz & Hk & Hn). split_and!; try done; try apply Hz.
    eapply aspace_frame; [|exact A]. intros a Ha. apply Ho. intros Hx.
    assert (Hj : foot (P j) (G j) a) by (rewrite Ej; by right).
    destruct Hx as [Hx|Hx]; [by apply N, (H3 j i a)|]. by apply H4 in Hj as [? _].
  - intros j j' a. unfold put. repeat case_decide; subst; try done; [| |apply H3].
    + intros Ha Hb. exfalso. by eapply (proj2 (Hold a (or_introl Ha)) j').
    + intros Hb Ha. exfalso. by eapply (proj2 (Hold a (or_introl Ha)) j).
  - intros j a. unfold put. case_decide; [subst; intros Ha; split; [by apply Hapart|apply Hold; by left]|].
    intros Ha. split; [|by apply H4 in Ha as [_ ?]]. intros Hl. by apply (proj2 (Hold a (or_intror Hl)) j).
  - intros a Ha. split; [by apply H5|]. intros Hl. by apply (proj1 (Hold a (or_intror Hl))).
  - intros a. rewrite H6. specialize (Hsame a). split.
    + intros [Hl|[Hp|[j Hj]]]; [|tauto|].
      * destruct Hsame as [_ [Hx|?]]; [by right| |tauto]. right. right. exists i. unfold put. by rewrite !decide_True.
      * destruct (decide (j = i)) as [->|N]; [|right; right; exists j; unfold put; by rewrite !decide_False].
        destruct Hsame as [_ [Hx|?]]; [by left| |tauto]. right. right. exists i. unfold put. by rewrite !decide_True.
    + intros [Hl|[Hp|[j Hj]]]; [|tauto|].
      * destruct Hsame as [[Hx|?] _]; [by right| |tauto]. right. right. by exists i.
      * unfold put in Hj. destruct (decide (j = i)) as [->|N]; [|right; right; by exists j].
        destruct Hsame as [[Hx|?] _]; [by left| |tauto]. right. right. by exists i.
Qed.

(** A page passes between the pipes and the free pages. *)
Lemma mem_pipe k P pp l G k' pp' l' : mem_inv k P pp l G -> free_pages k' l' ->
  (forall a, a ∈ pp' \/ a ∈ l' <-> a ∈ pp \/ a ∈ l) -> (forall a, a ∈ pp' -> valid_page kend a /\ a ∉ l') ->
  only (fun w => w ∈ pp \/ w ∈ l) k k' ->
  mem_inv k' P pp' l' G.
Proof.
  intros [H1 H2 H3 H4 H5 H6] Hf Hsame Hp Ho. split; try done.
  - intros j. specialize (H2 j). unfold space_ok in *. destruct (G j) as [[T U]|] eqn:Ej; [|done].
    destruct H2 as (A & Hz & Hk & Hn). split_and!; try done; try apply Hz. eapply aspace_frame; [|exact A]. intros a Ha. apply Ho.
    assert (Hj : foot (P j) (G j) a) by (rewrite Ej; by right). apply H4 in Hj. tauto.
  - intros i a Ha. apply H4 in Ha. destruct (Hsame a) as [S _]. tauto.
  - intros a. rewrite H6. specialize (Hsame a). tauto.
Qed.

(** ** The system *)

Definition spaced (st : procstate) : Prop := st = SLEEPING \/ st = RUNNABLE \/ st = RUNNING \/ st = ZOMBIE.
Definition has_space (P : nat -> proc) (pc : nat -> kpc) (i : nat) : Prop :=
  spaced (p_state (P i)) \/ (p_state (P i) = EMBRYO /\ exists q, pc q = KFork2 i).

Definition mem_at (s : sys) (l : list Z) (G : nat -> option space) : Prop :=
  mem_inv (mem (kn s)) (procs_of (kn s)) (dom (pipe_pages (kn s))) l G /\
  forall i, is_Some (G i) <-> has_space (procs_of (kn s)) (pcs s) i.

(** The memory of the processes other than [who] is as it was, unless they have been reaped. *)
Definition frame (who : option nat) (k k' : kern) (G : nat -> option space) : Prop :=
  forall j, Some j <> who -> is_Some (G j) -> p_state (getproc j k') <> UNUSED ->
    same_space (getproc j k) (getproc j k') /\
    forall a, foot (procs_of k j) (G j) a -> pages (mem k') !! a = pages (mem k) !! a.

Definition mem_step (who : option nat) (s s' : sys) : Prop :=
  forall l G, mem_at s l G -> exists l' G', mem_at s' l' G' /\ frame who (kn s) (kn s') G.

Lemma only_frame k P pp l G i k' : mem_inv k P pp l G -> only (fun w => foot (P i) (G i) w \/ w ∈ l) k k' ->
  forall j a, j <> i -> foot (P j) (G j) a -> pages k' !! a = pages k !! a.
Proof.
  intros I Ho j a Hj Ha. apply Ho. intros [Hf|Hl]; [by apply Hj, (mi_apart _ _ _ _ _ I j i a)|].
  by apply (mi_foot _ _ _ _ _ I) in Ha as [? _].
Qed.

(** Steps that touch neither the memory nor the size of a process. *)
Definition still (k k' : kern) : Prop :=
  shared k' = shared k /\ forall j, same_space (getproc j k) (getproc j k') /\
    (spaced (p_state (getproc j k')) <-> spaced (p_state (getproc j k))) /\
    (p_state (getproc j k') = EMBRYO <-> p_state (getproc j k) = EMBRYO).

Lemma still_refl k : still k k.
Proof. split; [done|]. intros j. by split_and!. Qed.

Lemma still_trans k1 k2 k3 : still k1 k2 -> still k2 k3 -> still k1 k3.
Proof.
  intros [E1 H1] [E2 H2]. split; [congruence|]. intros j. destruct (H1 j) as ((A1 & A2 & A3) & A4 & A5), (H2 j) as ((B1 & B2 & B3) & B4 & B5).
  unfold same_space. split_and!; try congruence; tauto.
Qed.

Lemma mem_still k k' pc pc' l G : still k k' -> (forall q i, pc' q = KFork2 i <-> pc q = KFork2 i) -> mem_at (Sys k pc) l G -> mem_at (Sys k' pc') l G.
Proof.
  intros [Es Hs] Hpc (I & D). split; cbn [kn pcs] in *; unfold mem, pipe_pages in *; [rewrite Es|].
  - eapply mem_inv_same; [|exact I]. intros i. apply Hs.
  - intros i. rewrite D. unfold has_space, procs_of. destruct (Hs i) as (_ & -> & ->). by setoid_rewrite Hpc.
Qed.

Lemma still_frame who k k' G : still k k' -> frame who k k' G.
Proof. intros [Es Hs] j _ _ _. split; [apply Hs|]. intros a _. unfold mem. by rewrite Es. Qed.

Lemma still_step who k k' pc pc' : still k k' -> (forall q i, pc' q = KFork2 i <-> pc q = KFork2 i) -> mem_step who (Sys k pc) (Sys k' pc').
Proof. intros Hs Hpc l G M. exists l, G. split; [by eapply mem_still|by apply still_frame]. Qed.

(** A step after one that does not touch memory. *)
Lemma still_then who k k1 k' pc pc' : still k k1 -> mem_step who (Sys k1 pc) (Sys k' pc') -> mem_step who (Sys k pc) (Sys k' pc').
Proof.
  intros Hs H l G M. destruct (H l G (mem_still k k1 pc pc l G Hs ltac:(done) M)) as (l' & G' & M' & F). exists l', G'. split; [done|].
  cbn [kn] in *. destruct Hs as [Es Hs]. intros j Hj Hg Hu. destruct (F j Hj Hg Hu) as ((E1 & E2 & E3) & Fp), (Hs j) as ((S1 & S2 & S3) & _).
  split; [unfold same_space; split_and!; congruence|]. intros a Ha. unfold mem in *. rewrite <- Es. apply Fp.
  unfold procs_of. rewrite (foot_same (getproc j k) (getproc j k1)); [done|]. by unfold same_space.
Qed.

Lemma still_upd i f k : (i < length (ptable k))%nat -> same_space (getproc i k) (f (getproc i k)) ->
  (spaced (p_state (f (getproc i k))) <-> spaced (p_state (getproc i k))) ->
  (p_state (f (getproc i k)) = EMBRYO <-> p_state (getproc i k) = EMBRYO) -> still k (upd i f k).
Proof.
  intros Hi H1 H2 H3. split; [done|]. intros j. rewrite getproc_upd by done. case_decide; [by subst|]. by split_and!.
Qed.

Lemma still_cpus x k : still k (set_cpus x k).
Proof. split; [done|]. intros j. by split_and!. Qed.
Lemma free_head k l : free_pages k l -> exists k1, kalloc k = Ret (default 0 (head l)) k1 /\ free_pages k1 (tail l) /\ pages k1 = pages k.
Proof.
  intros Hf. pose proof (kalloc_free kend k l Hf) as H. unfold wp in H. destruct (kalloc k) as [r k1| |]; [|done|done].
  destruct H as (-> & Hf1 & Hp1 & _). eauto.
Qed.

Lemma free_cons k a l : free_pages k (a :: l) -> valid_page kend a /\ a ∉ l /\ a <> 0.
Proof using Type.
  intros (_ & [Hn _]%NoDup_cons & [Hv _]%Forall_cons). split; [exact Hv|]. split; [exact Hn|]. clear -Hv. destruct Hv. lia.
Qed.

Lemma parent_of k P pp l G i T U (l1 : list Z) x1 : mem_inv k P pp l G -> G i = Some (T, U) -> pages x1 = pages k -> (forall a, a ∈ l1 -> a ∈ l) ->
  parent kend x1 (p_pgdir (P i)) T U kernel_entry (fun a => a ∈ l1).
Proof.
  intros [H1 H2 H3 H4 H5 _] E Hp Hl. specialize (H2 i). rewrite E in H2. destruct H2 as (A & _). split.
  - eapply aspace_frame; [|exact A]. intros a _. by rewrite Hp.
  - intros a Ha Hl1. apply Hl in Hl1. assert (Hf : foot (P i) (G i) a) by (rewrite E; by right). by apply H4 in Hf as [? _].
Qed.

(** What the copy of the parent comes to, whether it can run or not. *)
Lemma copied_space k P pp l G i T U (l1 : list Z) x1 r x2 : mem_inv k P pp l G -> G i = Some (T, U) -> pages x1 = pages k -> (forall a, a ∈ l1 -> a ∈ l) ->
  free_pages x1 l1 -> copyuvm kend data (p_pgdir (P i)) (p_sz (P i)) x1 = Ret r x2 ->
  only (fun w => w ∈ l1) x1 x2 /\
  ((r = 0 /\ exists l', free_pages x2 l' /\ forall a, a ∈ l' <-> a ∈ l1) \/
   (r <> 0 /\ exists T' U' l', vm_ok kend x2 r T' U' kernel_entry l' /\ size_ok (p_sz (P i)) U' /\
      forall a, owned r T' U' a \/ a ∈ l' <-> a ∈ l1)).
Proof.
  intros I E Hp Hl Hf H. pose proof (parent_of k P pp l G i T U l1 x1 I E Hp Hl) as Pa.
  pose proof (mi_space _ _ _ _ _ I i) as Hs. rewrite E in Hs. destruct Hs as (_ & (Hsz & Hb & Hc) & _).
  assert (Hcov : (forall w, 0 <= w < pages_of (p_sz (P i)) -> is_Some (U !! w)) \/ (0 < p_sz (P i) /\ U !! 0 = None)).
  { destruct Hc as [Hc|Hc]; [by left|]. destruct (decide (p_sz (P i) = 0)) as [E0|N]; [|right; split; [lia|done]].
    left. rewrite E0. change (pages_of 0) with 0. intros w Hw. lia. }
  destruct Hcov as [Hcov|[Hpos Hn]].
  - destruct (copyuvm_spec kend Hkend data Hdata Hdata_range x1 (p_pgdir (P i)) T U kernel_entry l1 (p_sz (P i)) Hf Pa ltac:(lia) Hcov) as (r' & k' & E' & Ho & Hr).
    rewrite H in E'. injection E' as <- <-. split; [done|]. destruct Hr as [(? & ? & _)|(Hr & T' & U' & l' & V & C & Hl')]; [by left|right].
    split; [done|]. exists T', U', l'. split; [done|]. split; [|done]. split; [done|]. split.
    + intros w y Hw. destruct (decide (w < pages_of (p_sz (P i)))); [done|]. rewrite (proj2 C) in Hw by lia. done.
    + left. intros w Hw. destruct (proj1 C w Hw) as (p & q & f & _ & -> & _). eauto.
  - destruct (copyuvm_doomed kend Hkend data Hdata Hdata_range x1 _ T U kernel_entry l1 _ r x2 Hf Pa Hpos Hn H) as (-> & Ho & Hr).
    split; [done|]. by left.
Qed.

Lemma fork_mem k pc c cur np ok k' : kern_ok k pc -> runs (Sys k pc) c cur -> pc cur = KFork1 np -> fork_copy kend data cur np k = Ret ok k' ->
  mem_step (Some cur) (Sys k pc) (Sys k' (at_pc cur (if ok then KFork2 np else KRun) pc)).
Proof.
  intros Hk Hr Hpc H l G (I & D). destruct (runs_cur k pc c cur Hk Hr) as (Hn & Hc & Hst & Ec). destruct Hk as (init & Ei & J).
  assert (Hf : forking pc cur np) by (by left). pose proof (po_fork _ _ _ _ _ J _ _ Hf) as Hnp. unfold procs_of in Hnp.
  assert (Hne : cur <> np) by congruence. assert (Hnl : (np < length (ptable k))%nat) by (apply in_table; congruence).
  destruct (fork_copy_inv kend data cur np k ok k' Hne Hnl H) as (E1 & _ & _ & _ & _ & Epp & _ & _ & E6 & a & x1 & Ek & Hres). cbn [kn pcs] in *.
  assert (Hfk : forall q, pc q = KFork1 np \/ pc q = KFork2 np -> q = cur) by (intros q Hq; by eapply (po_fork_inj _ _ _ _ _ J)).
  assert (Gnp : G np = None).
  { destruct (G np) eqn:E; [|done]. assert (Hs : is_Some (G np)) by eauto. apply D in Hs as [[?|[?|[?|?]]]|[_ (q & Hq)]]; unfold procs_of in *; try congruence.
    assert (q = cur) by (by apply Hfk; right). congruence. }
  destruct (G cur) as [[T U]|] eqn:Gc.
  2: { assert (Hs : is_Some (G cur)) by (apply D; left; unfold spaced, procs_of; tauto). rewrite Gc in Hs. by destruct Hs. }
  destruct (free_head (mem k) l (mi_free _ _ _ _ _ I)) as (x1' & Ek' & Hf1 & Hp1). rewrite Ek in Ek'. injection Ek' as -> <-.
  assert (HP : forall j, procs_of k' j = put np (getproc np k') (procs_of k) j).
  { intros j. unfold procs_of, put. case_decide; [by subst|by apply E1]. }
  assert (Hpc2 : forall q i, i <> np -> at_pc cur (if ok then KFork2 np else KRun) pc q = KFork2 i <-> pc q = KFork2 i).
  { intros q i Hi. unfold at_pc. case_decide; [|done]. subst. destruct ok; split; congruence. }
  (* the new invariant from an outcome *)
  assert (Hfin : forall o l', only (fun w => foot (procs_of k np) (G np) w \/ w ∈ l) (mem k) (mem k') ->
    (only (fun w => foot (procs_of k np) (G np) w \/ w ∈ l) (mem k) (mem k') ->
     mem_inv (mem k') (put np (getproc np k') (procs_of k)) (dom (pipe_pages k)) l' (put np o G)) -> (is_Some o <-> ok = true) ->
    exists l' G', mem_at (Sys k' (at_pc cur (if ok then KFork2 np else KRun) pc)) l' G' /\ frame (Some cur) k k' G).
  { intros o l' Honly I' Ho. specialize (I' Honly). exists l', (put np o G). split.
    2: { intros j Hj Hg _. assert (Hjn : j <> np) by (intros ->; rewrite Gnp in Hg; by destruct Hg). split; [by rewrite E1|].
         intros a Ha. by eapply only_frame. }
    unfold mem_at. cbn [kn pcs]. rewrite Epp. split; [eapply mem_inv_same; [|exact I']; intros j; by rewrite HP|].
    intros i. unfold has_space. rewrite HP. unfold put. case_decide as Dn.
    - subst i. rewrite Ho. destruct ok; [destruct E6 as [E6 _]|destruct E6 as [E6 _]]; rewrite E6.
      + rewrite Hnp. split; [intros _; right; split; [done|]; exists cur; unfold at_pc; by rewrite decide_True|done].
      + split; [done|]. intros [[?|[?|[?|?]]]|[? _]]; congruence.
    - rewrite D. unfold has_space. by setoid_rewrite Hpc2. }
  destruct l as [|b l].
  - destruct Hres as [(_ & -> & Em)|(Hz & _)]; [|done]. eapply (Hfin None []); [|intros Honly|split; [by intros [? [=]]|done]].
    + intros w _. by rewrite Em, Hp1.
    + eapply mem_replace; [exact I| |done| |done|exact Honly]; rewrite ?Em; try done.
      intros w. rewrite Gnp. cbn. tauto.
  - change (default 0 (head (b :: l))) with b in Hres. change (tail (b :: l)) with l in Hf1.
    destruct (free_cons _ _ _ (mi_free _ _ _ _ _ I)) as (Hbv & Hbl & Hb0).
    destruct Hres as [(? & _)|(_ & d & x2 & Ecp & Hres)]; [done|].
    destruct (copied_space _ _ _ _ G cur T U l x1 d x2 I Gc Hp1 ltac:(intros; by right) Hf1 Ecp) as (Ho & Hcp).
    assert (Honly : forall w, w ∉ b :: l -> pages x2 !! w = pages (mem k) !! w).
    { intros w Hw. rewrite not_elem_of_cons in Hw. rewrite Ho by tauto. by rewrite Hp1. }
    destruct Hres as [(-> & -> & Ekf)|(Hd & -> & Em & (Z1 & Z2 & Z3))].
    + destruct Hcp as [(_ & l2 & Hf2 & Hl2)|(? & _)]; [|done]. assert (Hb2 : b ∉ l2) by (by rewrite Hl2).
      rewrite (kfree_eq kend b x2 Hbv) in Ekf. injection Ekf as Em. eapply (Hfin None (b :: l2)); [|intros Hon|split; [by intros [? [=]]|done]].
      * intros w Hw. rewrite Gnp in Hw. cbn in Hw. assert (Hw' : w ∉ b :: l) by tauto. rewrite <- Em, kfreed_pages by (intros ->; apply Hw'; left). by apply Honly.
      * eapply mem_replace; [exact I| |done| |done|exact Hon]; rewrite <- ?Em; [by apply kfreed_free|].
        intros w. rewrite Gnp. rewrite !elem_of_cons, Hl2. cbn. tauto.
    + destruct Hcp as [(? & _)|(_ & T' & U' & l2 & V & Hz & Hl2)]; [done|]. cbn in Z1, Z2, Z3.
      assert (Hfoot : forall w, foot (getproc np k') (Some (T', U')) w <-> w = b \/ owned d T' U' w) by (intros w; cbn; by rewrite Z2, Z3).
      eapply (Hfin (Some (T', U')) l2); [|intros Hon; eapply mem_replace; [exact I| | | | |exact Hon]|split; [done|eauto]]; rewrite ?Em.
      * intros w Hw. rewrite Gnp in Hw. cbn in Hw. apply Honly. tauto.
      * apply V.
      * cbn. rewrite Z1, Z2, Z3. split_and!; [apply V|apply Hz..|done|]. intros Hw. apply Hbl, Hl2. by left.
      * intros w. rewrite Hfoot, Gnp, elem_of_cons. specialize (Hl2 w). cbn. tauto.
      * intros w. rewrite Hfoot. intros [->|Hw]; [intros Hw; apply Hbl, Hl2; by right|]. intros Hl. by apply (vo_apart _ _ _ _ _ _ _ V w Hl).
Qed.

(** The address space of a process with the free pages. *)
Lemma vm_of k P pp l G i T U : mem_inv k P pp l G -> G i = Some (T, U) -> vm_ok kend k (p_pgdir (P i)) T U kernel_entry l.
Proof.
  intros [H1 H2 H3 H4 H5 _] E. specialize (H2 i). rewrite E in H2. split; [apply H2|done|].
  intros a Hl Ho. assert (Hf : foot (P i) (G i) a) by (rewrite E; by right). by apply H4 in Hf as [? _].
Qed.

(** Reaping returns all pages of the child. *)
Lemma reap_mem who k pc cur i k' : kern_ok k pc -> reaped kend cur i k k' -> mem_step who (Sys k pc) (Sys k' pc).
Proof.
  intros Hk (Hp & Hz & x & X1 & _ & _ & _ & Gx & _ & _ & _ & _ & Epp & k1 & Ef & Efv) l G (I & D). cbn [kn pcs] in *.
  destruct (G i) as [[T U]|] eqn:Gi.
  2: { assert (Hs : is_Some (G i)) by (apply D; left; unfold spaced, procs_of; tauto). rewrite Gi in Hs. by destruct Hs. }
  pose proof (vm_of _ _ _ _ _ i T U I Gi) as V. unfold procs_of in V.
  pose proof (mi_space _ _ _ _ _ I i) as Hs. rewrite Gi in Hs. destruct Hs as (_ & _ & Hkv & Hko). unfold procs_of in Hkv, Hko.
  set (ks := p_kstack (getproc i k)) in *. assert (Hfk : foot (procs_of k i) (G i) ks) by (rewrite Gi; by left).
  destruct (mi_foot _ _ _ _ _ I i ks Hfk) as [Hkl _].
  rewrite (kfree_eq kend ks _ Hkv) in Ef. injection Ef as <-.
  destruct (freevm_spec kend Hkend _ _ T U kernel_entry (ks :: l) (kfreed_ok kend _ _ T U kernel_entry l ks V Hkv Hkl Hko)) as (k2 & l2 & E2 & Hf2 & Hl2 & Ho2).
  rewrite Efv in E2. injection E2 as E2. rewrite <- E2 in Hf2, Ho2.
  assert (Ho : only (fun w => foot (procs_of k i) (G i) w \/ w ∈ l) (mem k) (mem k')).
  { intros w Hw. rewrite Gi in Hw. cbn in Hw. unfold procs_of in Hw. fold ks in Hw. rewrite Ho2, kfreed_pages by (intros ?; tauto). done. }
  exists l2, (put i None G). split.
  2: { intros j _ _ Hu. rewrite Gx in Hu. rewrite (Gx j). unfold put in *. case_decide as Dj; [done|]. split; [done|]. intros a Ha. by eapply only_frame. }
  unfold mem_at. cbn [kn pcs]. split.
  - rewrite Epp. eapply mem_inv_same with (P := put i x (procs_of k)); [intros j; by rewrite <- Gx|].
    eapply mem_replace; [exact I|done|done| |done|exact Ho].
    intros a. rewrite Hl2, Gi, elem_of_cons. cbn. fold ks. unfold procs_of. tauto.
  - intros j. unfold has_space. rewrite (Gx j : procs_of k' j = _). unfold put. case_decide as Dj.
    + rewrite X1. split; [by intros [? [=]]|]. intros [[?|[?|[?|?]]]|[? _]]; done.
    + apply D.
Qed.

Lemma size_grown k U sz newsz U' : size_ok sz U -> sz <= newsz -> newsz < KERNBASE -> grown k U (pages_of sz) (pages_of newsz) U' -> size_ok newsz U'.
Proof.
  intros (Hsz & Hb & Hc) Hle Hlt [G1 G2]. split; [lia|]. assert (Hp : pages_of sz <= pages_of newsz) by (unfold pages_of; lia). split.
  - intros w x Hw. destruct (decide (w < pages_of newsz)) as [|N]; [done|]. rewrite G2 in Hw by lia. apply Hb in Hw. lia.
  - destruct Hc as [Hc|Hc].
    + left. intros w Hw. destruct (decide (w < pages_of sz)); [rewrite G2 by lia; apply Hc; lia|]. destruct (G1 w ltac:(lia)) as (p & -> & _). eauto.
    + destruct (decide (sz = 0)) as [->|N].
      * left. intros w Hw. destruct (G1 w) as (p & -> & _); [change (pages_of 0) with 0; lia|eauto].
      * right. rewrite G2; [done|]. unfold pages_of in *. lia.
Qed.

Lemma size_cut U sz newsz sz' : size_ok sz U -> 0 <= newsz <= sz -> sz' = newsz \/ (newsz = 0 /\ sz' = sz) -> size_ok sz' (cut (pages_of newsz) (pages_of sz) U).
Proof.
  intros (Hsz & Hb & Hc) Hle Hs. split; [lia|]. assert (Hp : pages_of newsz <= pages_of sz) by (unfold pages_of; lia). split.
  - intros w x Hw. apply lookup_cut in Hw as [Hw Hn]. apply Hb in Hw. destruct Hs as [->|[_ ->]]; [|done]. lia.
  - assert (Hnone : U !! 0 = None -> cut (pages_of newsz) (pages_of sz) U !! 0 = None).
    { intros E. destruct (cut _ _ U !! 0) eqn:E'; [|done]. apply lookup_cut in E' as [? _]. congruence. }
    destruct Hc as [Hc|Hc]; [|right; by apply Hnone]. destruct Hs as [->|[-> ->]].
    + left. intros w Hw. destruct (Hc w ltac:(lia)) as [x Hx]. exists x. apply lookup_cut. split; [done|lia].
    + right. destruct (cut (pages_of 0) (pages_of sz) U !! 0) eqn:E'; [|done]. apply lookup_cut in E' as [Hu Hn].
      apply Hb in Hu. change (pages_of 0) with 0 in Hn. lia.
Qed.

(** One process exchanges pages of its address space with the free ones. *)
Lemma mem_resize k P pp l G i T U T' U' l' x k' : mem_inv k P pp l G -> G i = Some (T, U) ->
  p_pgdir x = p_pgdir (P i) -> p_kstack x = p_kstack (P i) -> size_ok (p_sz x) U' ->
  vm_ok kend k' (p_pgdir (P i)) T' U' kernel_entry l' -> conserves (p_pgdir (P i)) T U l T' U' l' ->
  only (fun w => owned (p_pgdir (P i)) T U w \/ w ∈ l) k k' ->
  mem_inv k' (put i x P) pp l' (put i (Some (T', U')) G).
Proof.
  intros I E E1 E2 Hz V Hc Ho. pose proof (mi_space _ _ _ _ _ I i) as Hs. rewrite E in Hs. destruct Hs as (A & _ & Hkv & Hko).
  assert (Hfk : foot (P i) (G i) (p_kstack (P i))) by (rewrite E; by left). destruct (mi_foot _ _ _ _ _ I i _ Hfk) as [Hkl _].
  assert (Hk' : ~ (owned (p_pgdir (P i)) T' U' (p_kstack (P i)) \/ p_kstack (P i) ∈ l')) by (rewrite (Hc _); tauto).
  eapply mem_replace; [exact I|apply V| | | |].
  - cbn. rewrite E1, E2. split_and!; [apply V|apply Hz..|done|tauto].
  - intros a. rewrite E. cbn. rewrite E1, E2. specialize (Hc a). tauto.
  - intros a. cbn. rewrite E1, E2. intros [->|Ha]; [tauto|]. intros Hl. by apply (vo_apart _ _ _ _ _ _ _ V a Hl).
  - eapply only_weaken; [|exact Ho]. intros a. rewrite E. cbn. tauto.
Qed.

Lemma grow_mem k pc c cur n r k' : kern_ok k pc -> runs (Sys k pc) c cur -> - 2 ^ 31 <= n < 2 ^ 31 -> growproc kend cur n k = Ret r k' ->
  mem_step (Some cur) (Sys k pc) (Sys k' pc).
Proof.
  intros Hk Hr Hn H l G (I & D). destruct (runs_cur k pc c cur Hk Hr) as (Hcl & _ & Hst & _). cbn [kn pcs] in *.
  destruct (growproc_inv kend cur n k r k' Hcl H) as (sz & x & Hop & Em & Epp & _ & _ & _ & Hres). cbv zeta in Hop, Hres. set (p := getproc cur k) in *.
  destruct (G cur) as [[T U]|] eqn:Gc.
  2: { assert (Hs : is_Some (G cur)) by (apply D; left; unfold spaced, procs_of; fold p; tauto). rewrite Gc in Hs. by destruct Hs. }
  pose proof (vm_of _ _ _ _ _ cur T U I Gc) as V. change (procs_of k cur) with p in V.
  pose proof (mi_space _ _ _ _ _ I cur) as Hs. rewrite Gc in Hs. destruct Hs as (_ & Hz & _). change (procs_of k cur) with p in Hz.
  assert (Hfin : forall T' U' l', vm_ok kend x (p_pgdir p) T' U' kernel_entry l' -> conserves (p_pgdir p) T U l T' U' l' ->
    only (fun w => owned (p_pgdir p) T U w \/ w ∈ l) (mem k) x -> (r = -1 -> size_ok (p_sz p) U') -> (r = 0 -> size_ok sz U') ->
    exists l' G', mem_at (Sys k' pc) l' G' /\ frame (Some cur) k k' G).
  { intros T' U' l' V' Hc Ho Z1 Z2. exists l', (put cur (Some (T', U')) G). split.
    2: { intros j Hj _ _. assert (Hjc : j <> cur) by (intros ->; done). split.
         - destruct Hres as [(_ & _ & ->)|(_ & _ & ->)]; [done|by rewrite decide_False].
         - intros a Ha. rewrite Em. eapply (only_frame (mem k)); [exact I| |exact Hjc|exact Ha]. eapply only_weaken; [|exact Ho].
           intros w. rewrite Gc. cbn. unfold procs_of. fold p. tauto. }
    unfold mem_at. cbn [kn pcs]. rewrite Epp, Em.
    assert (HP : forall j, procs_of k' j = put cur (getproc cur k') (procs_of k) j).
    { intros j. unfold procs_of, put. case_decide; [by subst|]. destruct Hres as [(_ & _ & ->)|(_ & _ & ->)]; [done|by rewrite decide_False]. }
    assert (Hcur : p_pgdir (getproc cur k') = p_pgdir p /\ p_kstack (getproc cur k') = p_kstack p /\ p_state (getproc cur k') = p_state p /\ size_ok (p_sz (getproc cur k')) U').
    { destruct Hres as [(E & _ & Hg)|(E & _ & Hg)]; rewrite Hg; [split_and!; try done; apply (Z1 E)|]. rewrite decide_True by done. split_and!; try done; apply (Z2 E). }
    destruct Hcur as (C1 & C2 & C3 & C4). split.
    - eapply mem_inv_same with (P := put cur (getproc cur k') (procs_of k)); [intros j; by rewrite HP|]. by eapply mem_resize.
    - intros j. unfold has_space. rewrite HP. unfold put. case_decide; [|apply D]. subst j. rewrite C3.
      split; [intros _; left; unfold spaced; tauto|eauto]. }
  assert (Hsame : x = mem k -> (r = 0 -> sz = p_sz p) -> exists l' G', mem_at (Sys k' pc) l' G' /\ frame (Some cur) k k' G).
  { intros -> Hz1. eapply (Hfin T U l); [exact V|done|done|done|]. intros Er. by rewrite (Hz1 Er). }
  pose proof Hz as (Hsz & Hzb & _). unfold KERNBASE in Hsz. destruct (Z.ltb_spec 0 n) as [Hpos|Hnpos]; [|destruct (Z.ltb_spec n 0) as [Hneg|Hz0]].
  - rewrite u32_small in Hop by lia. destruct (decide (p_sz p + n < KERNBASE)) as [Hlt|Hge].
    + destruct (allocuvm_spec kend Hkend (mem k) (p_pgdir p) T U kernel_entry l (p_sz p) (p_sz p + n) V ltac:(lia) Hlt) as (r' & x' & T' & U' & l' & E & V' & Hc & Ho & Hr').
      { intros w Hw. destruct (U !! w) eqn:Eu; [|done]. apply Hzb in Eu. lia. }
      rewrite Hop in E. injection E as <- <-. eapply (Hfin T' U' l'); try done.
      * eapply only_weaken; [|exact Ho]. intros a [Ht|Ha]; [|by right]. apply (Hc a). left. destruct Ht as [->|?]; [by left|right; by left].
      * intros Er. destruct Hr' as [[-> G']|(-> & -> & _)]; [|done]. destruct Hres as [(_ & E0 & _)|(E0 & _)]; lia.
      * intros Er. destruct Hr' as [[-> G']|(-> & -> & _)]; [apply (size_grown x U (p_sz p)); [exact Hz|lia|done|exact G']|]. destruct Hres as [(E0 & _)|(_ & E0 & _)]; lia.
    + unfold allocuvm in Hop. rewrite (proj2 (Z.leb_le KERNBASE (p_sz p + n))) in Hop by lia. unfold ret in Hop. injection Hop as <- <-.
      apply Hsame; [done|]. intros Er. destruct Hres as [(E0 & _)|(_ & E0 & _)]; lia.
  - destruct (decide (p_sz p + n < 0)) as [Hlt|Hge].
    + unfold deallocuvm in Hop. rewrite (proj2 (Z.leb_le (p_sz p) (u32 (p_sz p + n)))) in Hop by (unfold u32; lia).
      unfold ret in Hop. injection Hop as <- <-. by apply Hsame.
    + rewrite u32_small in Hop by lia.
      destruct (deallocuvm_spec kend Hkend (mem k) (p_pgdir p) T U kernel_entry l (p_sz p) (p_sz p + n) V ltac:(lia) ltac:(unfold KERNBASE; lia)) as (x' & l' & E & V' & Hl' & Ho).
      rewrite Hop in E. rewrite (proj2 (Z.leb_gt (p_sz p) (p_sz p + n))) in E by lia. apply Ret_inj in E as [-> ->].
      pose proof (dealloc_conserves (p_pgdir p) T U l _ _ l' Hl') as Hc.
      eapply (Hfin T _ l' V' Hc).
      * eapply only_weaken; [|exact Ho]. intros a [Ht|(w & f & _ & Hw)]; left; [destruct Ht as [->|?]; [by left|right; by left]|right; right; eauto].
      * intros Er. apply size_cut; [done|lia|]. destruct Hres as [(_ & E0 & _)|(E0 & _)]; [right; lia|lia].
      * intros _. apply size_cut; [done|lia|by left].
  - destruct Hop as [-> ->]. by apply Hsame.
Qed.

(** ** User programs and pipes *)

Lemma land_user_high a f : 0 <= f < 4096 -> Z.land (a * 4096 + f) PTE_U = Z.land f PTE_U.
Proof.
  intros Hf. rewrite <- lor_low by lia. rewrite Z.land_lor_distr_l.
  replace (Z.land (a * 4096) PTE_U) with 0; [done|]. apply Z.bits_inj'. intros n Hn. rewrite Z.land_spec, Z.bits_0.
  change PTE_U with (2 ^ 2). rewrite Z.pow2_bits_eqb by lia. destruct (Z.eqb_spec 2 n) as [<-|]; [|by rewrite andb_false_r].
  change 4096 with (2 ^ 12). by rewrite Z.mul_pow2_bits_low by lia.
Qed.

(** The kernel's entries are not for user programs. *)
Lemma kernel_entry_nouser w : Z.land (kernel_entry w) PTE_U = 0.
Proof.
  assert (G : forall ks K, (forall x, x ∈ ks -> perm x = 0 \/ perm x = PTE_W) -> (forall w, Z.land (K w) PTE_U = 0) -> Z.land (kentries ks K w) PTE_U = 0).
  { induction ks as [|x ks IH]; intros K Hp HK; [apply HK|]. cbn [kentries]. apply IH; [intros y Hy; apply Hp; by right|].
    intros v. unfold run. destruct ((virt x / 4096 <=? v) && (v <? virt x / 4096 + span x)); [|apply HK].
    destruct (Hp x ltac:(left)) as [->| ->]; (rewrite land_user_high; [done|]); vm_compute; done. }
  apply G; [|done]. intros x Hx. unfold kmap in Hx. rewrite !elem_of_cons in Hx.
  destruct Hx as [->|[->|[->|[->|Hx]]]]; [tauto|tauto|tauto|tauto|by apply not_elem_of_nil in Hx].
Qed.

(** What a user program can address are the user pages of its process. *)
Definition user_addr (T : gmap Z Z) (U : gmap Z (Z * Z)) (va : Z) : option Z :=
  t ← T !! PDX va; Some (match U !! (PDX va * 1024 + PTX va) with Some (a, f) => if Z.land f PTE_U =? 0 then 0 else a | None => 0 end).

Lemma uva2ka_eq k pgdir T U va : aspace kend k pgdir T U kernel_entry -> 0 <= va < 2 ^ 32 ->
  uva2ka pgdir va k = match user_addr T U va with Some a => Ret a k | None => Panic "trap" end.
Proof.
  intros A Hva. unfold uva2ka, walkpgdir, user_addr. cbn [mbind option_bind].
  destruct (as_owned _ _ _ _ _ _ A pgdir) as [Hdv _]; [by left|]. destruct (valid_page_V2P kend Hkend pgdir Hdv) as (Hdm & _).
  pose proof (PDX_range va Hva) as Hpd. pose proof (PTX_range va Hva) as Hpt.
  rewrite bind_assoc, gets_bind, ld32_word, (as_pde _ _ _ _ _ _ A) by lia. destruct (T !! PDX va) as [t|] eqn:Et; [|done].
  destruct (as_owned _ _ _ _ _ _ A t) as [Htv _]; [right; left; eauto|]. destruct (valid_page_V2P kend Hkend t Htv) as (Htm & Htr & _ & _ & _ & EP).
  destruct (entry_parts kend Hkend t 7 Htv ltac:(lia)) as (E1 & _ & E2 & _). rewrite E1, E2, EP. change (7 mod 2 =? 1) with true. cbn iota. rewrite ret_bind.
  rewrite (proj2 (Z.eqb_neq (t + 4 * PTX va) 0)), gets_bind, ld32_word by (unfold KERNBASE in Htr; lia).
  set (v := PDX va * 1024 + PTX va). pose proof (as_entry _ _ _ _ _ _ A v ltac:(lia)) as Ee. unfold entry in Ee.
  replace (v / 1024) with (PDX va) in Ee by lia. replace (v mod 1024) with (PTX va) in Ee by lia. rewrite Et in Ee. rewrite Ee.
  unfold expected. destruct (Z.ltb_spec v UPAGES) as [Hv|Hv].
  - destruct (U !! v) as [[p f]|] eqn:Eu; [|done]. destruct (as_user _ _ _ _ _ _ A v p f Eu) as (_ & _ & Hf & Hodd).
    destruct (as_owned _ _ _ _ _ _ A p) as [Hpv _]; [right; right; eauto|]. destruct (entry_parts kend Hkend p f Hpv Hf) as (E3 & _ & E4 & _).
    destruct (valid_page_V2P kend Hkend p Hpv) as (_ & _ & _ & _ & Hm & EPp). rewrite E3, E4, EPp, (proj2 (Z.eqb_eq _ _) Hodd). cbn [negb].
    replace (V2P p) with (V2P p / 4096 * 4096) by lia. rewrite land_user_high by done. by destruct (Z.land f PTE_U =? 0).
  - rewrite kernel_entry_nouser. destruct (U !! v) as [[p f]|] eqn:Eu; [by apply (as_user _ _ _ _ _ _ A) in Eu as (? & _); lia|]. clear. generalize (kernel_entry v). intros e. destruct (present e); reflexivity.
Qed.

Lemma user_page k pgdir T U va a k' : aspace kend k pgdir T U kernel_entry -> 0 <= va < 2 ^ 32 -> uva2ka pgdir va k = Ret a k' -> a <> 0 ->
  exists v f, U !! v = Some (a, f).
Proof.
  intros A Hva H Ha. rewrite (uva2ka_eq _ _ _ _ _ A Hva) in H. unfold user_addr in H. destruct (T !! PDX va); cbn in H; [|done].
  apply Ret_inj in H as [<- _]. destruct (U !! _) as [[p f]|] eqn:E; [|by destruct Ha]. destruct (Z.land f PTE_U =? 0); [by destruct Ha|]. eauto.
Qed.

(** The byte that a process sees at a virtual address. *)
Definition user_byte (k : kmem) (pgdir va : Z) : option Z :=
  match uva2ka pgdir va k with
  | Ret a _ => if a =? 0 then None else page k a !! Z.to_nat (va mod PGSIZE)
  | _ => None
  end.

Lemma user_byte_frame k k' pgdir T U va : aspace kend k pgdir T U kernel_entry -> 0 <= va < 2 ^ 32 ->
  (forall a, owned pgdir T U a -> pages k' !! a = pages k !! a) -> user_byte k' pgdir va = user_byte k pgdir va.
Proof.
  intros A Hva Hp. pose proof (aspace_frame kend k k' _ _ _ _ Hp A) as A'. unfold user_byte.
  destruct (uva2ka pgdir va k) as [a k1| |] eqn:E; rewrite (uva2ka_eq _ _ _ _ _ A Hva) in E; rewrite (uva2ka_eq _ _ _ _ _ A' Hva);
    destruct (user_addr T U va) as [x|] eqn:Ex; try discriminate E; try reflexivity. apply Ret_inj in E as [-> ->]. destruct (Z.eqb_spec a 0) as [|N]; [done|].
  rewrite (page_ext k1); [done|]. apply Hp. destruct (user_page k1 pgdir T U va a k1 A Hva) as (v & f & Eu); [|done|right; right; eauto].
  by rewrite (uva2ka_eq _ _ _ _ _ A Hva), Ex.
Qed.

(** A store of the user program: new contents of a page it can address. *)
Inductive user_store (pgdir : Z) : kstate -> kstate -> Prop :=
| us_store x va a b k' : 0 <= va < 2 ^ 32 -> uva2ka pgdir va (k_kmem x) = Ret a k' -> a <> 0 -> length b = Z.to_nat PGSIZE -> bytes b ->
    user_store pgdir x (set_kmem (set_page a b (k_kmem x)) x).

Lemma store_aspace k pgdir T U K v a f b : aspace kend k pgdir T U K -> U !! v = Some (a, f) -> length b = Z.to_nat PGSIZE -> bytes b ->
  aspace kend (set_page a b k) pgdir T U K.
Proof.
  intros A Eu Hl Hb. destruct (as_user _ _ _ _ _ _ A v a f Eu) as (_ & Hap & _).
  assert (Ht : forall i t, T !! i = Some t -> page (set_page a b k) t = page k t).
  { intros i t Ei. apply page_ext, pages_set_ne. intros ->. by eapply (as_apart _ _ _ _ _ _ A). }
  split; try apply A.
  - intros w Hw. destruct (as_owned _ _ _ _ _ _ A w Hw) as [Hv Hg]. split; [done|]. destruct (decide (w = a)) as [->|N].
    + exists b. by rewrite pages_set_eq.
    + eapply good_page_ext; [|exact Hg]. by apply pages_set_ne.
  - intros i Hi. rewrite (page_ext k); [by apply A|]. by apply pages_set_ne.
  - intros w Hw. rewrite <- (as_entry _ _ _ _ _ _ A w Hw). unfold entry. destruct (T !! (w / 1024)) as [t|] eqn:Et; [|done]. by rewrite (Ht _ _ Et).
Qed.

Lemma store_mem x y P l G i : mem_inv (k_kmem x) P (dom (k_pipes x)) l G -> is_Some (G i) -> user_store (p_pgdir (P i)) x y ->
  mem_inv (k_kmem y) P (dom (k_pipes y)) l G /\ forall j a, j <> i -> foot (P j) (G j) a -> pages (k_kmem y) !! a = pages (k_kmem x) !! a.
Proof.
  intros I [[T U] E] H. destruct H as [x va a b k' Hva Hw Ha Hl Hb]. cbn [k_kmem k_pipes set_kmem].
  pose proof (mi_space _ _ _ _ _ I i) as Hs. rewrite E in Hs. destruct Hs as (A & Hz & Hkv & Hko).
  destruct (user_page _ _ _ _ _ _ _ A Hva Hw Ha) as (v & f & Eu). assert (Hoa : owned (p_pgdir (P i)) T U a) by (right; right; eauto).
  pose proof (vm_of _ _ _ _ _ i T U I E) as [_ Hf Hap].
  assert (Ho : only (fun w => foot (P i) (G i) w \/ w ∈ l) (k_kmem x) (set_page a b (k_kmem x))).
  { intros w Hw'. apply pages_set_ne. intros ->. apply Hw'. left. rewrite E. by right. }
  split; [|by eapply only_frame].
  assert (J : mem_inv (set_page a b (k_kmem x)) (put i (P i) P) (dom (k_pipes x)) l (put i (Some (T, U)) G)).
  { eapply mem_replace; [exact I| | |by rewrite E| |exact Ho].
    - eapply free_pages_ext; [| |exact Hf]; [|done]. intros w Hw'. apply pages_set_ne. intros ->. by apply (Hap a).
    - cbn. split; [by eapply store_aspace|done].
    - intros w Hw'. rewrite <- E in Hw'. by apply (mi_foot _ _ _ _ _ I) in Hw' as [? _]. }
  assert (EG : forall j, put i (Some (T, U)) G j = G j) by (intros j; unfold put; case_decide; by subst).
  assert (EP : forall j, put i (P i) P j = P j) by (intros j; unfold put; case_decide; by subst).
  destruct J as [J1 J2 J3 J4 J5 J6]. split; try done.
  - intros j. specialize (J2 j). by rewrite EG, EP in J2.
  - intros j j' w. specialize (J3 j j' w). by rewrite !EG, !EP in J3.
  - intros j w. specialize (J4 j w). by rewrite EG, EP in J4.
  - intros w. rewrite J6. by setoid_rewrite EG; setoid_rewrite EP.
Qed.

Lemma pipe_mem x y P l G : mem_inv (k_kmem x) P (dom (k_pipes x)) l G -> pipe_step kend x y ->
  exists l', mem_inv (k_kmem y) P (dom (k_pipes y)) l' G /\ forall j a, foot (P j) (G j) a -> pages (k_kmem y) !! a = pages (k_kmem x) !! a.
Proof.
  intros I H. destruct H as [x y E1 E2|x y a Ha E2 Ef|x y a Ek Ha E2].
  - exists l. by rewrite E1, E2.
  - destruct (mi_pipe _ _ _ _ _ I a Ha) as [Hv Hl]. exists (a :: l). rewrite (kfree_eq kend a _ Hv) in Ef. apply Ret_inj in Ef as [_ Ef].
    rewrite E2, <- Ef. split.
    2: { intros j w Hw. apply kfreed_pages. intros ->. by apply (mi_foot _ _ _ _ _ I) in Hw as [_ ?]. }
    eapply mem_pipe; [exact I| | | |].
    + apply kfreed_free; [apply I|done|done].
    + intros w. rewrite elem_of_difference, elem_of_singleton, elem_of_cons. destruct (decide (w = a)) as [->|]; tauto.
    + intros w. rewrite elem_of_difference, elem_of_singleton, elem_of_cons. intros [Hw Hn]. destruct (mi_pipe _ _ _ _ _ I w Hw). tauto.
    + intros w Hw. apply kfreed_pages. intros ->. tauto.
  - destruct (free_head _ l (mi_free _ _ _ _ _ I)) as (k1 & E1 & Hf1 & Hp1). rewrite Ek in E1. apply Ret_inj in E1 as [E1 <-].
    destruct l as [|b l]; [done|]. cbn in E1. subst b. destruct (free_cons _ _ _ (mi_free _ _ _ _ _ I)) as (Hv & Hl & _). exists l. rewrite E2, Hp1.
    split; [|done]. eapply mem_pipe; [exact I|exact Hf1| | |].
    + intros w. rewrite elem_of_union, elem_of_singleton, elem_of_cons. tauto.
    + intros w. rewrite elem_of_union, elem_of_singleton. intros [Hw| ->]; [|done]. destruct (mi_pipe _ _ _ _ _ I w Hw) as [? Hn].
      split; [done|]. intros Hl'. apply Hn. by right.
    + intros w _. by rewrite Hp1.
Qed.

(** What a process does to memory outside [fork], [exit], [wait] and [sbrk]:
    its program stores into its pages, and system calls make and close pipes. *)
Definition user_or_pipe (p : proc) (x y : kstate) : Prop := rtc (fun x y => user_store (p_pgdir p) x y \/ pipe_step kend x y) x y.

Lemma other_mem x y P l G i : mem_inv (k_kmem x) P (dom (k_pipes x)) l G -> is_Some (G i) -> user_or_pipe (P i) x y ->
  exists l', mem_inv (k_kmem y) P (dom (k_pipes y)) l' G /\ forall j a, j <> i -> foot (P j) (G j) a -> pages (k_kmem y) !! a = pages (k_kmem x) !! a.
Proof.
  intros I Hi H. revert l I. induction H as [x|x z y Hs _ IH]; intros l I; [eauto|].
  assert (exists l1, mem_inv (k_kmem z) P (dom (k_pipes z)) l1 G /\ forall j a, j <> i -> foot (P j) (G j) a -> pages (k_kmem z) !! a = pages (k_kmem x) !! a) as (l1 & I1 & F1).
  { destruct Hs as [Hs|Hp]; [exists l; by eapply store_mem|]. destruct (pipe_mem x z P l G I Hp) as (l1 & I1 & F1). exists l1. split; [done|]. intros j a _. apply F1. }
  destruct (IH l1 I1) as (l' & I' & F'). exists l'. split; [done|]. intros j a Hj Ha. by rewrite (F' j a Hj Ha), (F1 j a Hj Ha).
Qed.

Lemma pipes_user p x y : rtc (pipe_step kend) x y -> user_or_pipe p x y.
Proof. apply rtc_subrel. intros a b. by right. Qed.

(** A step that changes memory like this, and neither states nor sizes. *)
Lemma other_step k pc cur k' pc' : p_state (getproc cur k) = RUNNING -> quiet cur k k' ->
  (forall q i, pc' q = KFork2 i <-> pc q = KFork2 i) -> user_or_pipe (getproc cur k) (shared k) (shared k') -> mem_step (Some cur) (Sys k pc) (Sys k' pc').
Proof.
  intros Hst Q Hpc Ho l G (I & D). cbn [kn pcs] in *.
  assert (Hg : is_Some (G cur)) by (apply D; left; unfold spaced, procs_of; tauto).
  assert (Hq : forall j, same_space (getproc j k) (getproc j k') /\ p_state (getproc j k') = p_state (getproc j k)).
  { intros j. destruct Q as (Q1 & Q2 & Q3 & _). destruct (decide (j = cur)) as [->|N]; [split; [done|apply Q2]|by rewrite Q1]. }
  destruct (other_mem _ _ _ _ G cur I Hg Ho) as (l' & I' & F). exists l', G. split.
  - split; cbn [kn pcs]; [eapply mem_inv_same; [|exact I']; apply Hq|]. intros i. rewrite D. unfold has_space, procs_of.
    rewrite (proj2 (Hq i)). by setoid_rewrite Hpc.
  - intros j Hj _ _. split; [apply Hq|]. intros a. apply (F j). congruence.
Qed.

(** ** The other steps *)

Lemma same_pc (pc : nat -> kpc) q i : pc q = KFork2 i <-> pc q = KFork2 i.
Proof. done. Qed.

(** Moves of a process that is not in [fork]. *)
Lemma moved_pc (pc : nat -> kpc) cur x q i : (forall np, pc cur <> KFork2 np) -> (forall np, x <> KFork2 np) -> at_pc cur x pc q = KFork2 i <-> pc q = KFork2 i.
Proof. intros H1 H2. unfold at_pc. case_decide; [|done]. subst. split; [by intros ?%H2|by intros ?%H1]. Qed.

Lemma still_sched c cur ctx k r k' : (cur < length (ptable k))%nat -> sched c cur ctx k = Ret r k' -> still k k'.
Proof. intros Hn H. apply sched_inv in H as [_ ->]. eapply still_trans; [by apply (still_upd cur (with_context ctx))|apply still_cpus]. Qed.

(** The running process stops. *)
Lemma still_stop c cur st ctx k r k' : (cur < length (ptable k))%nat -> p_state (getproc cur k) = RUNNING -> spaced st ->
  sched c cur ctx (upd cur (with_state st) k) = Ret r k' -> still k k'.
Proof.
  intros Hn Hst Hs H. eapply still_trans; [|eapply still_sched; [|exact H]; by rewrite length_upd].
  apply still_upd; [done|done| |]; cbn [p_state with_state]; rewrite Hst.
  - unfold spaced in *. tauto.
  - destruct Hs as [->|[->|[->| ->]]]; done.
Qed.

Lemma still_sleep c cur ch ctx k r k' : (cur < length (ptable k))%nat -> p_state (getproc cur k) = RUNNING -> sleep c cur ch ctx k = Ret r k' -> still k k'.
Proof.
  intros Hn Hst H. unfold sleep in H. ret_inv H. eapply still_trans; [by apply (still_upd cur (with_chan ch))|].
  eapply (still_stop c cur SLEEPING); [by rewrite length_upd| |by left|exact H]. getp. by rewrite decide_True.
Qed.

Lemma still_woken k k' : shared k' = shared k -> (forall j, same_space (getproc j k) (getproc j k') /\ woken (getproc j k) (getproc j k')) -> still k k'.
Proof.
  intros Es Hw. split; [done|]. intros j. destruct (Hw j) as [H [->|[E1 E2]]]; [done|]. rewrite E1, E2. unfold spaced. split_and!; try done; tauto.
Qed.

Lemma still_wakeup ch k r k' : wakeup1 ch k = Ret r k' -> still k k'.
Proof.
  intros H. apply wakeup1_rest in H as ((_ & _ & _ & _ & Es) & Hj & _). apply still_woken; [done|]. intros j. destruct (Hj j) as ((_ & _ & _ & _ & ?) & _ & ?). done.
Qed.

Lemma still_kill pid k r k' : kill pid k = Ret r k' -> still k k'.
Proof.
  intros H. unfold kill in H. rewrite gets_bind in H. destruct (list_find _ _) as [[i p]|] eqn:E; [|unfold ret in H; apply Ret_inj in H as [_ <-]; apply still_refl].
  apply list_find_Some in E as (E & _). assert (Hi : (i < length (ptable k))%nat) by (by eapply lookup_lt_Some).
  rewrite (bind_Ret _ _ _ _ _ (modproc_eq i (with_killed true) k)), gets_bind in H.
  assert (S1 : still k (upd i (with_killed true) k)) by (by apply still_upd).
  case_bool_decide as Es; cbn [when] in H; ret_inv H; apply Ret_inj in H as [_ <-]; [|done].
  eapply still_trans; [exact S1|]. apply still_upd; [by rewrite length_upd|done|..]; rewrite Es; cbn; unfold spaced; [tauto|done].
Qed.

Lemma still_exit k pc c cur k' : kern_ok k pc -> runs (Sys k pc) c cur -> pc cur = KExit -> exit_sched c cur k = Ret tt k' -> still k k'.
Proof.
  intros Hk Hr Hpc H. destruct (runs_cur k pc c cur Hk Hr) as (Hn & Hc & Hst & Ec). destruct Hk as (init & Ei & I).
  assert (Hni : initproc k <> Some cur) by (pose proof (po_exit _ _ _ _ _ I cur Hpc); congruence).
  destruct (exit_sched_inv c cur k k' Hn Hc Hni H) as (E1 & E2 & _ & E4 & _ & _ & _ & _ & _ & _ & Es). split; [done|].
  intros j. split; [apply E1|]. destruct (decide (j = cur)) as [->|N].
  - rewrite E4, Hst. unfold spaced. split; [tauto|done].
  - destruct (E2 j N) as [_ [->|[F1 F2]]]; [done|]. rewrite F1, F2. unfold spaced. split; [tauto|done].
Qed.

Lemma wait_mem who k pc c cur r k' : kern_ok k pc -> runs (Sys k pc) c cur -> wait_turn kend c cur k = Ret r k' -> mem_step who (Sys k pc) (Sys k' pc).
Proof.
  intros Hk Hr H. destruct (runs_cur k pc c cur Hk Hr) as (Hn & Hc & Hst & Ec).
  unfold wait_turn in H. rewrite gets_bind in H. apply bind_inv in H as (r1 & k1 & E1 & H).
  assert (Hall : Forall (fun i => i < length (ptable k))%nat (slots k)) by (apply Forall_forall; intros i; apply elem_of_slots).
  pose proof (wait_scan_inv kend cur (slots k) k false r1 k1 Hall E1) as S. destruct r1 as [pid|hk].
  - apply Ret_inj in H as [_ <-]. destruct S as (i & _ & Hi & _). by eapply reap_mem.
  - destruct S as (-> & _). apply still_step; [|apply same_pc]. rewrite gets_bind in H. destruct (negb hk || _).
    + apply Ret_inj in H as [_ <-]. apply still_refl.
    + apply bind_inv in H as ([] & k2 & E2 & H). apply Ret_inj in H as [_ <-]. by eapply still_sleep.
Qed.

Lemma resume_mem who k pc c cur r k' : kern_ok k pc -> runs (Sys k pc) c cur -> resume kend c cur k = Ret r k' -> mem_step who (Sys k pc) (Sys k' pc).
Proof.
  intros Hk Hr H. destruct (runs_cur k pc c cur Hk Hr) as (Hn & Hc & Hst & Ec). unfold resume in H. rewrite gets_bind in H.
  assert (S : still k (upd cur (with_chan None) k)) by (by apply still_upd).
  destruct (p_context (getproc cur k)) eqn:Ex; ret_inv H; try (apply Ret_inj in H as [_ <-]).
  1, 2: apply still_step; [apply still_refl|apply same_pc].
  - apply still_step; [done|apply same_pc].
  - eapply still_then; [exact S|]. eapply wait_mem; [|exact Hr|exact E].
    destruct Hk as (init & Ei & I). eapply kern_ok_ext with (P := put cur (with_chan None (getproc cur k)) (procs_of k)) (C := cpus_of k); [|done|].
    + intros j. unfold procs_of, put. getp. by case_decide.
    + exists init. split; [done|]. apply (ok_chan _ _ _ _ _ I). unfold procs_of. congruence.
Qed.
Lemma scheduler_mem who k pc c r k' : kern_ok k pc -> c_proc (getcpu c k) = None -> (c < length (cpus k))%nat ->
  scheduler kend c k = Ret r k' -> mem_step who (Sys k pc) (Sys k' pc).
Proof.
  intros Hk Hc Hl H. destruct (scheduler_inv kend c k r k' H) as [->|(q & Hq & Hst & H')].
  - apply still_step; [apply still_cpus|apply same_pc].
  - destruct (dispatch_ok k pc c q Hk Hc Hl Hq Hst) as [K1 R1]. eapply still_then; [|by eapply resume_mem].
    eapply still_trans; [apply still_cpus|]. apply still_upd; [done|done|..]; getp; rewrite Hst; cbn; unfold spaced; [tauto|done].
Qed.

(** [fork] takes a slot, which has no memory yet. *)
Lemma slot_mem k pc c cur np k' : kern_ok k pc -> runs (Sys k pc) c cur -> pc cur = KRun -> allocproc_slot k = Ret (Some np) k' ->
  mem_step (Some cur) (Sys k pc) (Sys k' (at_pc cur (KFork1 np) pc)).
Proof.
  intros Hk Hr Hpc H l G (I & D). cbn [kn pcs] in *. apply allocproc_slot_inv in H as (Hu & Hn & ->). destruct Hk as (init & _ & J).
  set (k' := set_nextpid _ _).
  assert (Hg : forall j, j <> np -> getproc j k' = getproc j k) by (intros j Hj; unfold k'; getp; by rewrite !decide_False).
  assert (Es : p_state (getproc np k') = EMBRYO) by (unfold k'; getp; by rewrite !decide_True).
  assert (Hsp : forall j, same_space (getproc j k) (getproc j k')).
  { intros j. destruct (decide (j = np)) as [->|N]; [|by rewrite Hg]. unfold k'. getp. by rewrite !decide_True. }
  exists l, G. split; [|intros j _ _ _; split; [apply Hsp|done]]. split; cbn [kn pcs].
  - by eapply mem_inv_same; [|exact I].
  - intros i. rewrite D. unfold has_space, procs_of. destruct (decide (i = np)) as [->|N].
    + rewrite Hu, Es. split; [intros [[?|[?|[?|?]]]|[? _]]; done|]. intros [[?|[?|[?|?]]]|[_ [q Hq]]]; try done. exfalso.
      unfold at_pc in Hq. case_decide; [done|]. assert (Hf : forking pc q np) by (by right).
      apply (po_fork _ _ _ _ _ J) in Hf. unfold procs_of in Hf. congruence.
    + rewrite Hg by done. setoid_rewrite (moved_pc pc cur (KFork1 np)); [done|congruence|congruence].
Qed.

(** The child is complete. *)
Lemma forked_mem k pc c cur np pid k' : kern_ok k pc -> runs (Sys k pc) c cur -> pc cur = KFork2 np -> fork_done np k = Ret pid k' ->
  mem_step (Some cur) (Sys k pc) (Sys k' (at_pc cur KRun pc)).
Proof.
  intros Hk Hr Hpc H l G (I & D). cbn [kn pcs] in *. destruct Hk as (init & _ & J).
  assert (Hf : forking pc cur np) by (by right). pose proof (po_fork _ _ _ _ _ J _ _ Hf) as Hnp. unfold procs_of in Hnp.
  assert (Hnl : (np < length (ptable k))%nat) by (apply in_table; congruence).
  unfold fork_done in H. ret_inv H. apply Ret_inj in H as [_ <-]. set (k' := upd _ _ _).
  assert (Hg : forall j, getproc j k' = if decide (j = np) then with_state RUNNABLE (getproc np k) else getproc j k) by (intros j; unfold k'; by getp).
  assert (Hsp : forall j, same_space (getproc j k) (getproc j k')) by (intros j; rewrite Hg; case_decide; by subst).
  exists l, G. split; [|intros j _ _ _; split; [apply Hsp|done]]. split; cbn [kn pcs].
  - by eapply mem_inv_same; [|exact I].
  - intros i. rewrite D. unfold has_space, procs_of. rewrite Hg. case_decide as Di.
    + subst i. rewrite Hnp. cbn. split; [intros _; left; unfold spaced; tauto|]. intros _. right. split; [done|]. by exists cur.
    + split; (intros [?|[Ee [q Hq]]]; [by left|right; split; [done|]; exists q]); unfold at_pc in *; case_decide; subst; congruence.
Qed.

Lemma pstep_mem who s s' : kern_ok (kn s) (pcs s) -> pstep sb kend data user_or_pipe who s s' -> mem_step who s s'.
Proof.
  intros K H. destruct H; destruct s as [k pc]; cbn [kn pcs] in *.
  - by eapply scheduler_mem.
  - destruct (runs_cur k pc c cur K H) as (Hn & _ & Hst & _). apply still_step; [|apply same_pc].
    unfold yield in *. ret_inv H0. eapply (still_stop c cur RUNNABLE); [done|done|unfold spaced; tauto|exact H0].
  - destruct (runs_cur k pc c cur K H) as (Hn & _ & Hst & _). apply still_step; [|apply same_pc]. by eapply still_sleep.
  - apply still_step; [by eapply still_wakeup|apply same_pc].
  - by eapply slot_mem.
  - by eapply fork_mem.
  - by eapply forked_mem.
  - destruct (runs_cur k pc c cur K H) as (Hn & _ & Hst & _). destruct (exit_files_inv sb kend cur k k' Hn H1) as (Q & _ & R).
    apply other_step; [done|exact Q| |by apply pipes_user]. intros q i. apply moved_pc; congruence.
  - apply still_step; [by eapply still_exit|]. intros q i. apply moved_pc; congruence.
  - by eapply wait_mem.
  - apply still_step; [by eapply still_kill|apply same_pc].
  - by eapply grow_mem.
  - destruct (runs_cur k pc c cur K H) as (Hn & _ & Hst & _). apply other_step; [done| |apply same_pc|done].
    eapply quiet_trans; [apply (quiet_shared cur x)|]. by apply quiet_upd.
Qed.

Lemma reach_mem s0 s l0 G0 : kern_ok (kn s0) (pcs s0) -> mem_at s0 l0 G0 -> reach sb kend data user_or_pipe s0 s -> exists l G, mem_at s l G.
Proof.
  intros K M R. assert (kern_ok (kn s) (pcs s) /\ exists l G, mem_at s l G) as [_ ?]; [|done].
  induction R as [|who s s' _ (IK & l & G & IM) Hp Hs]; [by eauto|]. split; [by eapply pstep_ok|].
  destruct (pstep_mem who s s' IK Hs l G IM) as (l' & G' & M' & _). eauto.
Qed.
End memory.
