(* ===== verification/ProcBoot.v ===== *)
(** * Isolation of processes, from the boot on

    [userinit] gives the first process its memory; from there on the memory of
    a process changes only by its own steps. *)

From S2P Require Import Prelude Params Kalloc Bio Log Inode Pipe Syscall File Vm VmUser VmCopy Proc ProcInv ProcSys ProcMem.
Local Open Scope Z_scope.
Local Open Scope kmonad_scope.

Section boot.
Context (sb : superblock) (kend data : Z).
Context (Hkend : KERNBASE < kend) (Hdata : data mod 4096 = 0) (Hdata_range : KERNLINK < data < KERNBASE + PHYSTOP).
Context (devsw_read : Z -> option (nat -> Z -> M (fstate lstate) (Z * list Z))).
Local Abbreviation kernel_entry := (kernel_entry data).

Lemma inituvm_spec k d T K l init : vm_ok kend k d T ∅ K l -> (2 <= length l)%nat -> (length init < Z.to_nat PGSIZE)%nat -> bytes init ->
  exists k' T' p l', inituvm d init k = Ret tt k' /\ vm_ok kend k' d T' {[ 0 := (p, 7) ]} K l' /\
    conserves d T ∅ l T' {[ 0 := (p, 7) ]} l' /\ only (fun w => owned d T ∅ w \/ w ∈ l) k k' /\
    page k' p = init ++ replicate (Z.to_nat PGSIZE - length init) 0.
Proof.
  intros V Hl Hi Hb. destruct l as [|p [|q l]]; cbn in Hl; [lia|lia|]. unfold inituvm.
  rewrite (proj2 (Z.leb_gt PGSIZE (Z.of_nat (length init)))) by lia.
  destruct (take_page kend k d T ∅ K p (q :: l) zeros V) as (k1 & E1 & Hp0 & _ & V1 & Hpv & Hpg & Hpl & Hpo & Ho1 & Hpz).
  { apply length_replicate. } { apply Forall_replicate. unfold is_byte. lia. }
  rewrite (bind_Ret _ _ _ _ _ E1), (proj2 (Z.eqb_neq p 0)) by done.
  unfold zero_page. rewrite modify_bind. fold zeros. set (k2 := set_page p zeros k1) in *.
  destruct (map_user kend Hkend k2 d T ∅ K (q :: l) 0 p (Z.lor PTE_W PTE_U) V1) as [[_ ?]|(k3 & T' & l' & E3 & V3 & HT & Hc & Ho3)]; try done.
  change (0 * 4096) with 0 in E3. rewrite (bind_Ret _ _ _ _ _ E3). change (Z.lor (Z.lor PTE_W PTE_U) 1) with 7 in V3.
  change (<[0 := (p, 7)]> ∅) with ({[0 := (p, 7)]} : gmap Z (Z * Z)) in V3.
  assert (Htp : ~ tabs d T' p).
  { intros [->|[i Hti]]; [by apply Hpo; left|]. eapply (as_apart _ _ _ _ _ _ (vo_space _ _ _ _ _ _ _ V3) i p 0 7); [done|]. by rewrite lookup_singleton_eq. }
  assert (Hz : page k3 p = zeros) by (rewrite <- Hpz; apply page_ext; by apply Ho3).
  set (b := splice (page k3 p) 0 init). assert (Hb1 : length b = Z.to_nat PGSIZE).
  { unfold b. rewrite Hz, length_splice; [apply length_replicate|]. unfold zeros. rewrite length_replicate. lia. }
  assert (Hb2 : bytes b).
  { unfold b. rewrite Hz. apply bytes_splice; [|done]. apply Forall_replicate. unfold is_byte. lia. }
  exists (set_page p b k3), T', p, l'. split; [done|]. split_and!.
  - split.
    + eapply store_aspace; [apply V3|by rewrite lookup_singleton_eq|done|done].
    + eapply free_pages_ext; [| |apply V3]; [|done]. intros a Ha. apply pages_set_ne. intros ->.
      eapply (vo_apart _ _ _ _ _ _ _ V3); [exact Ha|]. right. right. exists 0, 7. by rewrite lookup_singleton_eq.
    + apply V3.
  - intros a. rewrite <- insert_empty, owned_insert by done. rewrite elem_of_cons. specialize (Hc a). tauto.
  - intros w Hw. rewrite elem_of_cons in Hw. rewrite pages_set_ne by (intros ->; tauto). rewrite Ho3; [apply Ho1; tauto|]. intros Ht. specialize (Hc w).
    assert (Hw' : owned d T' ∅ w) by (destruct Ht as [->|?]; [by left|right; by left]). tauto.
  - rewrite (page_lookup _ _ _ (pages_set_eq k3 p b)). unfold b, splice. rewrite Hz, take_0. cbn [app]. f_equal. unfold zeros. by rewrite drop_replicate.
Qed.

Lemma allocproc_mem k np k' : allocproc k = Ret (Some np) k' ->
  exists a x, kalloc (mem k) = Ret a x /\ a <> 0 /\ (np < length (ptable k'))%nat /\ shared k' = set_kmem x (shared k) /\ p_kstack (getproc np k') = a.
Proof.
  intros H. unfold allocproc in H. apply bind_inv in H as (r & k1 & E & H). destruct r as [i|]; [|done].
  destruct (allocproc_slot_inv k i k1 E) as (_ & Hi & Ek1). assert (Hi1 : (i < length (ptable k1))%nat) by (rewrite Ek1; solve_len).
  apply bind_inv in H as (b & k2 & E2 & H). destruct b; unfold ret in H; [|done]. injection H as <- <-.
  destruct (allocproc_stack_inv i k1 true k2 Hi1 E2) as (a & x & Ea & Es & Eok & _ & _ & _ & L2 & G2).
  rewrite Ek1 in Ea, Es. exists a, x. split_and!; try done.
  - destruct (Z.eqb_spec a 0); [done|done].
  - by rewrite L2.
  - rewrite G2, decide_True by done. done.
Qed.

Lemma userinit_inv initcode k k' : userinit sb kend data devsw_read initcode k = Ret tt k' ->
  exists i k1 d x2 x3, allocproc k = Ret (Some i) k1 /\ setupkvm kend data (mem k1) = Ret d x2 /\ d <> 0 /\ inituvm d initcode x2 = Ret tt x3 /\
    mem k' = x3 /\ pipe_pages k' = pipe_pages k1 /\ (forall j, j <> i -> getproc j k' = getproc j k1) /\
    p_state (getproc i k') = RUNNABLE /\ p_sz (getproc i k') = PGSIZE /\ p_pgdir (getproc i k') = d /\ p_kstack (getproc i k') = p_kstack (getproc i k1).
Proof.
  intros H. unfold userinit in H. apply bind_inv in H as (r & k1 & E & H). rewrite modify_bind in H. destruct r as [i|]; [|done].
  destruct (allocproc_mem k i k1 E) as (_ & _ & _ & _ & Hn & _).
  ret_inv H. injection H as <-. exists i, k1, a, x, x0. apply Z.eqb_neq in B. destruct a0. apply onfs_mem in E2 as [M1 M2]. cbn in M1, M2.
  split_and!; try done; [intros j Hj|..]; getp; rewrite ?decide_True, ?decide_False by done; done.
Qed.

(** [userinit] in a machine with enough memory: the first process has its address space. *)
Lemma userinit_mem initcode k k' l : fresh k -> k_pipes (shared k) = ∅ -> free_pages kend (mem k) l -> (1030 <= length l)%nat ->
  (length initcode < Z.to_nat PGSIZE)%nat -> bytes initcode -> userinit sb kend data devsw_read initcode k = Ret tt k' ->
  exists l' G, mem_at kend data (fun a => a ∈ l) (Sys k' (fun _ => KRun)) l' G.
Proof.
  intros F Hpp Hf Hl Hi Hb H. destruct (userinit_inv initcode k k' H) as (i & k1 & d & x2 & x3 & E & Es & Hd & Eu & Em & Ep & G & P1 & P2 & P3 & P4).
  destruct (allocproc_fresh k i k1 F E) as (_ & _ & _ & G1 & _). destruct (allocproc_mem k i k1 E) as (a & x1 & Ea & Ha & Hn & Esh & Hks).
  rewrite Hks in P4. unfold mem, pipe_pages in Es, Ep. rewrite Esh in Es, Ep. cbn [k_kmem k_pipes set_kmem] in Es, Ep. rewrite Hpp in Ep.
  destruct (free_head kend _ l Hf) as (x1' & Ea' & Hf1 & Hp1). rewrite Ea in Ea'. apply Ret_inj in Ea' as [Ea' <-].
  destruct l as [|a' l]; [done|]. cbn in Ea'. subst a'. cbn [tail length] in *. destruct (free_cons kend _ _ _ Hf) as (Hav & Hal & _).
  destruct (setupkvm_spec kend Hkend data Hdata Hdata_range x1 l Hf1) as (d' & x2' & Es' & _ & Ho2 & Hr).
  rewrite Es in Es'. apply Ret_inj in Es' as [<- <-]. destruct Hr as [[-> _]|(_ & T & l2 & V & Hown)]; [done|].
  assert (Hl2 : (2 <= length l2)%nat).
  { pose proof (owned_length d T l l2 ltac:(apply Hf1)) as Hlen. specialize (Hlen ltac:(intros j t Hj; by apply (as_table _ _ _ _ _ _ (vo_space _ _ _ _ _ _ _ V)) in Hj as [? _])).
    specialize (Hlen ltac:(intros w Hw; by apply Hown)). lia. }
  destruct (inituvm_spec x2 d T _ l2 initcode V Hl2 Hi Hb) as (x3' & T' & p & l' & Eu' & V' & Hc & _). rewrite Eu in Eu'. apply Ret_inj in Eu' as [_ <-].
  assert (Hno : ~ (owned d T' {[0 := (p, 7)]} a \/ a ∈ l')) by (rewrite (Hc a), Hown; done).
  set (o := Some (T', {[0 := (p, 7)]} : gmap Z (Z * Z))). exists l', (fun j => if decide (j = i) then o else None).
  assert (Hfoot : forall w, foot (procs_of k' i) o w <-> w = a \/ owned d T' {[0 := (p, 7)]} w) by (intros w; cbn; unfold procs_of; by rewrite P3, P4).
  split; [split|]; cbn [kn pcs]; rewrite ?Em; unfold pipe_pages; rewrite ?Ep.
  - apply V'.
  - intros j. destruct (decide (j = i)) as [->|]; [|done]. cbn. unfold procs_of. rewrite P2, P3, P4. split_and!; [apply V'|split; [unfold PGSIZE, KERNBASE; lia|split]|done|tauto].
    + intros w y Hw. apply lookup_singleton_Some in Hw as [<- _]. done.
    + left. intros w Hw. change (pages_of PGSIZE) with 1 in Hw. replace w with 0 by lia. rewrite lookup_singleton_eq. eauto.
  - intros j j' w. destruct (decide (j = i)) as [->|], (decide (j' = i)) as [->|]; done.
  - intros j w. destruct (decide (j = i)) as [->|]; [|done]. intros Hw. split; [|set_solver]. apply Hfoot in Hw as [->|Hw]; [tauto|]. intros Hl'. by apply (vo_apart _ _ _ _ _ _ _ V' w).
  - intros w. set_solver.
  - intros w. rewrite elem_of_cons. specialize (Hc w). specialize (Hown w). split.
    + intros Hw. assert (w = a \/ owned d T' {[0 := (p, 7)]} w \/ w ∈ l') as [Hx|[Hx|Hx]] by tauto; [right; right..|by left].
      all: exists i; rewrite decide_True by done; apply Hfoot; tauto.
    + intros [Hw|[Hw|[j Hw]]]; [right; tauto|set_solver|]. destruct (decide (j = i)) as [->|]; [|done]. apply Hfoot in Hw as [->|Hw]; [by left|right; tauto].
  - intros j. unfold has_space, procs_of. destruct (decide (j = i)) as [->|Dj].
    + split; [intros _; left; rewrite P1; unfold spaced; tauto|eauto].
    + rewrite G, G1 by done. split; [by intros [? ?]|]. intros [[?|[?|[?|?]]]|[? _]]; done.
Qed.

(** With enough memory and a root directory [userinit] returns. *)
Lemma onmem_Ret {A} (m : M kmem A) k r x : m (mem k) = Ret r x -> onmem m k = Ret r (set_shared (set_kmem x (shared k)) k).
Proof. intros E. unfold onmem, onshared, onkmem, lift. unfold mem in E. by rewrite E. Qed.

Lemma allocproc_runs k a l : fresh k -> free_pages kend (mem k) (a :: l) -> exists k1, allocproc k = Ret (Some 0%nat) k1.
Proof.
  intros (Ht & _) Hf. destruct (free_head kend _ _ Hf) as (x & Ea & _). cbn in Ea. destruct (free_cons kend _ _ _ Hf) as (_ & _ & Ha).
  unfold allocproc, allocproc_slot. rewrite bind_assoc, gets_bind, Ht.
  assert (El : list_find (fun p => p_state p = UNUSED) (replicate (Z.to_nat NPROC) zero_proc) = Some (0%nat, zero_proc)) by reflexivity.
  rewrite El. unfold modproc. rewrite bind_assoc, modify_bind, bind_assoc, gets_bind, bind_assoc, modify_bind, bind_assoc, modify_bind, ret_bind.
  unfold allocproc_stack. rewrite bind_assoc. match goal with |- context [bind (onmem kalloc) _ ?z] => rewrite (bind_Ret _ _ _ _ _ (onmem_Ret kalloc z a x Ea)) end. unfold modproc. rewrite bind_assoc, modify_bind.
  rewrite (proj2 (Z.eqb_neq a 0) Ha), bind_assoc, modify_bind, ret_bind. by eexists.
Qed.

Lemma userinit_runs initcode k l ip fs : fresh k -> free_pages kend (mem k) l -> (1030 <= length l)%nat ->
  (length initcode < Z.to_nat PGSIZE)%nat -> bytes initcode ->
  Path.namei (BlockLayer0 := Block.log_layer 1) 1 sb 0 devsw_read [47] (k_fs (shared k)) = Ret ip fs ->
  exists k', userinit sb kend data devsw_read initcode k = Ret tt k'.
Proof.
  intros F Hf Hl Hi Hb Hn. destruct l as [|a l]; cbn in Hl; [lia|]. destruct (allocproc_runs k a l F Hf) as (k1 & E1).
  destruct (allocproc_fresh k 0 k1 F E1) as (_ & _ & _ & _ & Hpid & _). destruct (allocproc_mem k 0 k1 E1) as (a' & x1 & Ea & _ & Hn1 & Esh & _).
  destruct (free_head kend _ _ Hf) as (x1' & Ea' & Hf1 & _). rewrite Ea in Ea'. apply Ret_inj in Ea' as [_ <-]. change (tail (a :: l)) with l in Hf1.
  destruct (setupkvm_spec kend Hkend data Hdata Hdata_range x1 l Hf1) as (d & x2 & Es & Hd & _ & Hr).
  destruct Hr as [[-> _]|(Hd0 & T & l2 & V & Hown)]; [lia|].
  assert (Hl2 : (2 <= length l2)%nat).
  { pose proof (owned_length d T l l2 ltac:(apply Hf1)) as Hlen. specialize (Hlen ltac:(intros j t Hj; by apply (as_table _ _ _ _ _ _ (vo_space _ _ _ _ _ _ _ V)) in Hj as [? _])).
    specialize (Hlen ltac:(intros w Hw; by apply Hown)). lia. }
  destruct (inituvm_spec x2 d T _ l2 initcode V Hl2 Hi Hb) as (x3 & _ & _ & _ & Eu & _).
  unfold userinit. rewrite (bind_Ret _ _ _ _ _ E1), modify_bind.
  assert (Es' : setupkvm kend data (mem (set_initproc (Some 0%nat) k1)) = Ret d x2) by (unfold mem; cbn [shared set_initproc]; by rewrite Esh).
  rewrite (bind_Ret _ _ _ _ _ (onmem_Ret _ _ d x2 Es')), (proj2 (Z.eqb_neq d 0) Hd0).
  match goal with |- context [bind (onmem (inituvm _ _)) _ ?z] => rewrite (bind_Ret _ _ _ _ _ (onmem_Ret (inituvm d initcode) z tt x3 Eu)) end.
  unfold modproc. rewrite !modify_bind, gets_bind.
  match goal with |- context [bind (onshared _) _ ?z] => set (k2 := z) end.
  assert (Hp2 : p_pid (getproc 0 k2) = 1).
  { rewrite <- Hpid. unfold k2. fold (upd 0 (with_space PGSIZE d)). repeat match goal with |- context [set_ptable (<[0%nat := ?f (getproc 0 ?z)]> (ptable ?z)) ?z] => change (set_ptable (<[0%nat := f (getproc 0 z)]> (ptable z)) z) with (upd 0 f z) end.
    getp. by rewrite !decide_True. }
  rewrite Hp2. assert (En : onshared (onfs (Path.namei (BlockLayer0 := Block.log_layer 1) 1 sb 0 devsw_read [47])) k2 = Ret ip (set_shared (set_fs fs (shared k2)) k2)).
  { unfold onshared, onfs, lift. replace (k_fs (shared k2)) with (k_fs (shared k)) by (unfold k2; cbn; by rewrite Esh). by rewrite Hn. }
  rewrite (bind_Ret _ _ _ _ _ En), modify_bind. by eexists.
Qed.

(** C3: isolation of processes.  In every state that the machine reaches from
    the first process on, by any interleaving of the steps of its processes,
    every page that was free at the start is the kernel stack, the page
    directory, a page table or a user page of one process, or holds one pipe,
    or is on the free list, and only one of these: no page is shared and none
    is lost.  What a process sees of its memory changes only in its own steps,
    not by those of other processes, of the scheduler or of interrupts, as long
    as it has not been reaped. *)
Theorem process_isolation initcode k k0 l s : fresh k -> k_pipes (shared k) = ∅ -> free_pages kend (mem k) l -> (1030 <= length l)%nat ->
  (length initcode < Z.to_nat PGSIZE)%nat -> bytes initcode -> userinit sb kend data devsw_read initcode k = Ret tt k0 ->
  reach sb kend data (user_or_pipe kend) (Sys k0 (fun _ => KRun)) s ->
  (exists free G, mem_at kend data (fun a => a ∈ l) s free G) /\
  forall who s' j va, pstep sb kend data (user_or_pipe kend) who s s' -> Some j <> who -> spaced (p_state (getproc j (kn s))) ->
    p_state (getproc j (kn s')) <> UNUSED -> 0 <= va < 2 ^ 32 ->
    user_byte (mem (kn s')) (p_pgdir (getproc j (kn s'))) va = user_byte (mem (kn s)) (p_pgdir (getproc j (kn s))) va.
Proof.
  intros F Hpp Hf Hl Hi Hb H R. destruct (userinit_mem initcode k k0 l F Hpp Hf Hl Hi Hb H) as (l0 & G0 & M0).
  pose proof (booted_ok k0 (userinit_booted _ _ _ _ _ _ _ F H)) as K0. pose proof (reach_ok _ _ _ _ (Sys k0 (fun _ => KRun)) s K0 R) as K.
  destruct (reach_mem sb kend data Hkend Hdata Hdata_range (fun a => a ∈ l) (Sys k0 (fun _ => KRun)) s l0 G0 K0 M0 R) as (l1 & G & M). split; [eauto|].
  intros who s' j va Hs Hj Hsp Hu Hva. destruct (pstep_mem sb kend data Hkend Hdata Hdata_range (fun a => a ∈ l) who s s' K Hs l1 G M) as (l' & G' & _ & Fr).
  destruct M as [I D]. assert (Hg : is_Some (G j)) by (apply D; by left). destruct (Fr j Hj Hg Hu) as ((_ & Ed & _) & Fp). rewrite Ed.
  destruct Hg as [[T U] Eg]. pose proof (mi_space _ _ _ _ _ _ _ _ I j) as Hspc. rewrite Eg in Hspc, Fp. destruct Hspc as (A & _).
  eapply (user_byte_frame _ _ Hkend Hdata_range (fun a => a ∈ l)); [exact A|done|]. intros a Ha. apply Fp. by right.
Qed.
End boot.

(** A machine with 1100 free pages, and two cpus. *)
Module bootdemo.
Definition pagelist : list Z := demo.pagenum <$> seqZ 0 1100.
Definition mem0 : kmem := foldr kfreed (Kmem true 0 ∅) pagelist.
Definition shared0 : kstate :=
  KState (FState (LState (Bio ∅ 100 [] [] []) (Log 0 0 0 false 0 [])) icache_init) mem0 [] ∅ (User [] 0) [] 0 false 0.
Definition k0 : kern := Kern shared0 (replicate (Z.to_nat NPROC) zero_proc) 1 None [Cpu None 0; Cpu None 0] 0.

Lemma pages_free : free_pages demo.kend mem0 pagelist.
Proof. apply demo.free_range; lia. Qed.

Lemma fresh0 : fresh k0.
Proof. split_and!; [done|done|]. by repeat constructor. Qed.

(** The data segment of the kernel. *)
Definition data : Z := KERNBASE + 0x180000.

Lemma boots : exists k, userinit sample.sb demo.kend data (fun _ => None) [144] k0 = Ret tt k.
Proof.
  destruct (Path.namei (BlockLayer0 := Block.log_layer 1) 1 sample.sb 0 (fun _ => None) [47] (k_fs shared0)) as [ip fs| |] eqn:E; [|vm_compute in E; discriminate E..].
  eapply (userinit_runs sample.sb demo.kend data eq_refl eq_refl (conj eq_refl eq_refl) (fun _ => None) [144] k0 pagelist ip fs fresh0 pages_free); [|vm_compute; lia| |exact E].
  - unfold pagelist. rewrite length_fmap, length_seqZ. lia.
  - repeat constructor; done.
Qed.
End bootdemo.

(** The state in which the first process has been made and not yet scheduled. *)
Lemma process_isolation_witness : exists k0 : kern,
  userinit sample.sb demo.kend bootdemo.data (fun _ => None) [144] bootdemo.k0 = Ret tt k0 /\
  exists free G, mem_at demo.kend bootdemo.data (fun a => a ∈ bootdemo.pagelist) (Sys k0 (fun _ => KRun)) free G.
Proof.
  destruct bootdemo.boots as [k0 E]. exists k0. split; [exact E|].
  eapply (process_isolation sample.sb demo.kend bootdemo.data eq_refl eq_refl (conj eq_refl eq_refl) (fun _ => None) [144] bootdemo.k0 k0 bootdemo.pagelist
    (Sys k0 (fun _ => KRun)) bootdemo.fresh0 eq_refl bootdemo.pages_free); [|vm_compute; lia| |exact E|apply reach_init].
  - unfold bootdemo.pagelist. rewrite length_fmap, length_seqZ. lia.
  - repeat constructor; done.
Defined.
