(* ===== verification/Exec.v ===== *)
(** * Running a program ([kernel/exec.c], [loaduvm] of [kernel/vm.c], [sys_exec]
    of [kernel/sysfile.c])

    [exec] reads an ELF file into a new address space, puts the arguments on
    its stack, and replaces the memory of the process.  The strings of [argv]
    are lists of bytes without their NUL. *)

From S2P Require Import Prelude Params CString Locks Kalloc Bio Log Crash Block Balloc Inode Bmap Content Pipe Path Syscall File Vm Proc.
Local Open Scope Z_scope.
Local Open Scope kmonad_scope.

(** [kernel/elf.h] *)
Definition ELF_MAGIC : Z := 0x464C457F.
Definition ELF_PROG_LOAD : Z := 1.

(** The fields of [struct elfhdr] that [exec] looks at. *)
Record elfhdr := Elf { e_magic : Z; e_entry : Z; e_phoff : Z; e_phnum : Z }.
Definition SIZEOF_ELF : Z := 52.
Definition decode_elf (b : list Z) : elfhdr := Elf (get32 b 0) (get32 b 6) (get32 b 7) (le_val (sub b 44 2)).

(** [struct proghdr] *)
Record proghdr := Ph {
  ph_type : Z; ph_off : Z; ph_vaddr : Z; ph_paddr : Z; ph_filesz : Z; ph_memsz : Z; ph_flags : Z; ph_align : Z
}.
Definition SIZEOF_PH : Z := 32.
Definition decode_ph (b : list Z) : proghdr :=
  Ph (get32 b 0) (get32 b 1) (get32 b 2) (get32 b 3) (get32 b 4) (get32 b 5) (get32 b 6) (get32 b 7).

(** [for(last=s=path; *s; s++) if( *s == '/') last = s+1] *)
Fixpoint last_elem (last s : list Z) : list Z :=
  match s with
  | [] => last
  | c :: s' => last_elem (if c =? slash then s' else last) s'
  end.

Definition tf_start (eip esp : Z) (t : trapframe) : trapframe :=
  Tf (tf_eax t) eip esp (tf_cs t) (tf_ds t) (tf_es t) (tf_ss t) (tf_eflags t) (tf_regs t).

Section exec.
Context (sb : superblock) (kend data : Z).
Context (devsw_read : Z -> option (nat -> Z -> M (fstate lstate) (Z * list Z))).

Section reading.
Context (pid : Z).
#[local] Hint Extern 0 (BlockLayer lstate) => exact (log_layer pid) : typeclass_instances.

(** The [for] loop of [loaduvm]; [readi] stores what it reads in the page. *)
Fixpoint loaduvm_loop (fuel : nat) (pgdir addr : Z) (ip : nat) (offset i sz : Z) : M kstate Z :=
  match fuel with
  | O => ret 0
  | S fuel' =>
      if i <? sz then
        pte <- onkmem (walkpgdir pgdir (u32 (addr + i)) false);;
        if pte =? 0 then panic "loaduvm: address should exist" else
        e <- gets (fun s => ld32 (k_kmem s) pte);;
        let pa := PTE_ADDR e in
        let n := if sz - i <? PGSIZE then sz - i else PGSIZE in
        r <- onfs (readi sb devsw_read ip (u32 (offset + i)) n);;
        modify (fun s => set_kmem (set_page (P2V pa) (splice (page (k_kmem s) (P2V pa)) 0 r.2) (k_kmem s)) s);;
        if negb (u32 r.1 =? n) then ret (-1) else
        loaduvm_loop fuel' pgdir addr ip offset (u32 (i + PGSIZE)) sz
      else ret 0
  end.

Definition loaduvm (pgdir addr : Z) (ip : nat) (offset sz : Z) : M kstate Z :=
  if negb (addr mod PGSIZE =? 0) then panic "loaduvm: addr must be page aligned" else
  loaduvm_loop (Z.to_nat (sz / PGSIZE + 1)) pgdir addr ip offset 0 sz.

(** The loop over [n] program headers, the next of them at [off]: the size of
    the program, or nothing for [goto bad].  [off] is an [int] that is only
    passed on as a [uint]. *)
Fixpoint exec_segments (n : nat) (pgdir : Z) (ip : nat) (off sz : Z) : M kstate (option Z) :=
  match n with
  | O => ret (Some sz)
  | S n' =>
      r <- onfs (readi sb devsw_read ip off SIZEOF_PH);;
      if negb (u32 r.1 =? SIZEOF_PH) then ret None else
      let ph := decode_ph r.2 in
      if negb (ph_type ph =? ELF_PROG_LOAD) then exec_segments n' pgdir ip (u32 (off + SIZEOF_PH)) sz else
      if ph_memsz ph <? ph_filesz ph then ret None else
      if u32 (ph_vaddr ph + ph_memsz ph) <? ph_vaddr ph then ret None else
      sz <- onkmem (allocuvm kend pgdir sz (u32 (ph_vaddr ph + ph_memsz ph)));;
      if sz =? 0 then ret None else
      if negb (ph_vaddr ph mod PGSIZE =? 0) then ret None else
      r <- loaduvm pgdir (ph_vaddr ph) ip (ph_off ph) (ph_filesz ph);;
      if r <? 0 then ret None else
      exec_segments n' pgdir ip (u32 (off + SIZEOF_PH)) sz
  end.

(** From the ELF header to the last segment: [pgdir], and the entry point and
    the size unless it goes to [bad]. *)
Definition exec_load (ip : nat) : M kstate (Z * option (Z * Z)) :=
  r <- onfs (readi sb devsw_read ip 0 SIZEOF_ELF);;
  if negb (u32 r.1 =? SIZEOF_ELF) then ret (0, None) else
  let elf := decode_elf r.2 in
  if negb (e_magic elf =? ELF_MAGIC) then ret (0, None) else
  pgdir <- onkmem (setupkvm kend data);;
  if pgdir =? 0 then ret (0, None) else
  o <- exec_segments (Z.to_nat (e_phnum elf)) pgdir ip (e_phoff elf) 0;;
  ret (pgdir, (fun sz => (e_entry elf, sz)) <$> o).
End reading.

(** The loop over [argv]: the stack pointer and the addresses of the strings,
    or nothing for [goto bad]. *)
Fixpoint push_args (pgdir : Z) (argv : list (list Z)) (argc sp : Z) (ustack : list Z) : M kmem (option (Z * list Z)) :=
  match argv with
  | [] => ret (Some (sp, ustack))
  | arg :: argv' =>
      if MAXARG <=? argc then ret None else
      let sp := Z.land (u32 (sp - (Z.of_nat (length arg) + 1))) (u32 (Z.lnot 3)) in
      r <- copyout pgdir sp (arg ++ [0]);;
      if r <? 0 then ret None else
      push_args pgdir argv' (argc + 1) sp (ustack ++ [sp])
  end.

(** The stack: the size of the memory and the stack pointer. *)
Definition exec_stack (pgdir sz : Z) (argv : list (list Z)) : M kmem (option (Z * Z)) :=
  let sz := PGROUNDUP sz in
  sz <- allocuvm kend pgdir sz (u32 (sz + 2 * PGSIZE));;
  if sz =? 0 then ret None else
  clearpteu pgdir (u32 (sz - 2 * PGSIZE));;
  o <- push_args pgdir argv 0 sz [];;
  match o with
  | None => ret None
  | Some (sp, args) =>
      let argc := Z.of_nat (length args) in
      let ustack := [0xffffffff; argc; u32 (sp - (argc + 1) * 4)] ++ args ++ [0] in
      let sp := u32 (sp - (3 + argc + 1) * 4) in
      r <- copyout pgdir sp (concat (le_bytes 4 <$> ustack));;
      if r <? 0 then ret None else ret (Some (sz, sp))
  end.

(** The current directory, which is read only for a relative path. *)
Definition exec_cwd (p : proc) (path : list Z) : M kern nat :=
  match p_cwd p with
  | Some cwd => ret cwd
  | None => if chd path =? slash then ret 0%nat else panic "trap"
  end.

Definition exec (cur : nat) (path : list Z) (argv : list (list Z)) : M kern Z :=
  p <- gets (getproc cur);;
  let pid := p_pid p in
  onshared (onfs (onblk begin_op));;
  cwd <- exec_cwd p path;;
  o <- onshared (onfs (namei (BlockLayer0 := log_layer pid) pid sb cwd devsw_read path));;
  match o with
  | None => onshared (onfs (onblk (end_op pid)));; ret (-1)
  | Some ip =>
      onshared (onfs (ilock (BlockLayer0 := log_layer pid) pid sb ip));;
      r <- onshared (exec_load pid ip);;
      match r.2 with
      | None =>
          when (negb (r.1 =? 0)) (onmem (freevm kend r.1));;
          onshared (onfs (iunlockput (BlockLayer0 := log_layer pid) pid sb ip));;
          onshared (onfs (onblk (end_op pid)));;
          ret (-1)
      | Some (entry, sz) =>
          onshared (onfs (iunlockput (BlockLayer0 := log_layer pid) pid sb ip));;
          onshared (onfs (onblk (end_op pid)));;
          o <- onmem (exec_stack r.1 sz argv);;
          match o with
          | None => onmem (freevm kend r.1);; ret (-1)
          | Some (sz, sp) =>
              modproc cur (copy_name (last_elem path path));;
              oldpgdir <- gets (fun s => p_pgdir (getproc cur s));;
              modproc cur (with_space sz r.1);;
              modproc cur (fun x => with_tf (tf_start entry sp (p_tf x)) x);;
              onmem (freevm kend oldpgdir);;
              ret 0
          end
      end
  end.

(** The loop of [sys_exec] over the pointers at [uargv]; [argv] has [MAXARG]
    entries, one of them for the null pointer. *)
Fixpoint fetch_args (n : nat) (u : user) (uargv i : Z) : option (list (list Z)) :=
  match n with
  | O => None
  | S n' =>
      match fetchint u (u32 (uargv + 4 * i)) with
      | None => None
      | Some uarg =>
          if u32 uarg =? 0 then Some [] else
          match fetchstr u (u32 uarg) with
          | None => None
          | Some s => (fun l => s :: l) <$> fetch_args n' u uargv (i + 1)
          end
      end
  end.

Definition sys_exec (cur : nat) : M kern Z :=
  u <- gets (fun s => k_user (shared s));;
  match argstr u 0, argint u 1 with
  | Some path, Some uargv =>
      match fetch_args (Z.to_nat MAXARG) u (u32 uargv) 0 with
      | None => ret (-1)
      | Some argv => exec cur path argv
      end
  | _, _ => ret (-1)
  end.
End exec.
