(* ===== verification/ExecMem.v ===== *)
(** * The memory of a new program

    User memory as one list of bytes, and what [loaduvm], [copyout] and the
    loops of [exec] make of it. *)

From S2P Require Import Prelude Params CString Kalloc Bio Log Inode Content Pipe Syscall File FileProps Vm VmUser VmCopy Proc ProcInv ProcMem Exec.
Local Open Scope Z_scope.
Local Open Scope kmonad_scope.

Definition zlen (m : list Z) : Z := Z.of_nat (length m).

(** [m] is the memory from address 0 on, in whole pages. *)
Definition holds (k : kmem) (U : gmap Z (Z * Z)) (m : list Z) : Prop :=
  zlen m mod 4096 = 0 /\
  forall w, match U !! w with
    | Some (p, _) => 0 <= w < zlen m / 4096 /\ page k p = sub m (Z.to_nat (w * 4096)) 4096
    | None => w < 0 \/ zlen m / 4096 <= w
    end.

Definition zpad (n : Z) : list Z := replicate (Z.to_nat n) 0.

Section memory.
Context (kend : Z) (Hkend : KERNBASE < kend).

Lemma zlen_app a b : zlen (a ++ b) = zlen a + zlen b.
Proof. unfold zlen. rewrite length_app. lia. Qed.

Lemma zlen_pad n : 0 <= n -> zlen (zpad n) = n.
Proof. intros Hn. unfold zlen, zpad. rewrite length_replicate. lia. Qed.

Lemma sub_app_left {A} (a b : list A) i n : (i + n <= length a)%nat -> sub (a ++ b) i n = sub a i n.
Proof. intros H. unfold sub. rewrite drop_app_le by lia. by rewrite take_app_le by (rewrite length_drop; lia). Qed.

Lemma sub_app_right {A} (a b : list A) i n : (length a <= i)%nat -> sub (a ++ b) i n = sub b (i - length a) n.
Proof. intros H. unfold sub. by rewrite drop_app_ge by lia. Qed.

Lemma sub_pad n i j : (i + j <= Z.to_nat n)%nat -> sub (zpad n) i j = replicate j 0.
Proof. intros H. unfold sub, zpad. rewrite drop_replicate, take_replicate. f_equal. lia. Qed.

(** Pages of user memory that a step leaves alone. *)
Lemma holds_frame k k' U m : (forall w p f, U !! w = Some (p, f) -> pages k' !! p = pages k !! p) -> holds k U m -> holds k' U m.
Proof.
  intros Hp [Hm H]. split; [done|]. intros w. specialize (H w). destruct (U !! w) as [[p f]|] eqn:E; [|done].
  destruct H as [Hw Hpg]. split; [done|]. by rewrite (page_ext k) by (by eapply Hp).
Qed.

Lemma holds_empty k : holds k ∅ [].
Proof. split; [done|]. intros w. rewrite lookup_empty. unfold zlen. cbn. lia. Qed.

Lemma holds_grown k k' U m v v' U' : holds k U m -> zlen m = v * 4096 -> v <= v' -> grown k' U v v' U' ->
  (forall w p f, U !! w = Some (p, f) -> pages k' !! p = pages k !! p) -> holds k' U' (m ++ zpad ((v' - v) * 4096)).
Proof.
  intros [Hm H] Hl Hv [G1 G2] Hp. assert (Hv0 : 0 <= v) by (unfold zlen in Hl; lia). assert (Hl' : zlen (m ++ zpad ((v' - v) * 4096)) = v' * 4096) by (rewrite zlen_app, zlen_pad; lia).
  split; [lia|]. intros w. rewrite Hl'. destruct (decide (v <= w < v')) as [Hw|Hw].
  - destruct (G1 w Hw) as (p & -> & ->). split; [lia|]. unfold zlen in Hl. rewrite sub_app_right, sub_pad by lia. done.
  - rewrite G2 by done. specialize (H w). rewrite Hl in H. destruct (U !! w) as [[p f]|] eqn:E.
    + destruct H as [Hw' Hpg]. split; [lia|]. rewrite (page_ext k) by (by eapply Hp). unfold zlen in Hl. rewrite sub_app_left by lia. done.
    + lia.
Qed.

(** The page at an address below the end of the memory. *)
Lemma holds_page k U m w : holds k U m -> 0 <= w < zlen m / 4096 -> exists p f, U !! w = Some (p, f) /\ page k p = sub m (Z.to_nat (w * 4096)) 4096.
Proof.
  intros [Hm H] Hw. specialize (H w). destruct (U !! w) as [[p f]|]; [|lia]. exists p, f. split; [done|]. apply H.
Qed.

(** Bytes written into one page. *)
Lemma write_user k d T U K l m w p f off b : vm_ok kend k d T U K l -> holds k U m -> U !! w = Some (p, f) ->
  0 <= off -> off + zlen b <= 4096 -> bytes b ->
  let k' := set_page p (splice (page k p) (Z.to_nat off) b) k in
  vm_ok kend k' d T U K l /\ holds k' U (splice m (Z.to_nat (w * 4096 + off)) b) /\ only (fun a => a = p) k k'.
Proof.
  intros V [Hm H] E Ho Hb Hby k'. pose proof V as [A Hf Hap]. unfold zlen in Hb.
  destruct (as_owned _ _ _ _ _ _ A p) as [Hpv (b0 & Eb & Hl & Hb0)]; [right; right; eauto|].
  assert (Ep : page k p = b0) by (by apply page_lookup). assert (Hlen : length (page k p) = Z.to_nat PGSIZE) by (by rewrite Ep). unfold PGSIZE in Hlen.
  assert (Ho' : only (fun a => a = p) k k') by (intros a Ha; unfold k'; by rewrite pages_set_ne).
  split; [|split; [|done]].
  - split; [|eapply free_pages_ext; [| |exact Hf]; [|done]|done].
    + eapply store_aspace; [exact A|exact E|rewrite length_splice; [done|lia]|]. apply bytes_splice; [by rewrite Ep|done].
    + intros a Ha. apply Ho'. intros ->. apply (Hap p Ha). right. right. eauto.
  - pose proof (H w) as Hw. rewrite E in Hw. destruct Hw as [Hw Hpg]. assert (Hlm : length (splice m (Z.to_nat (w * 4096 + off)) b) = length m).
    { apply length_splice. unfold zlen in *. lia. }
    split; [by unfold zlen in *; rewrite Hlm|]. intros w'. specialize (H w'). unfold zlen in *. rewrite Hlm. destruct (U !! w') as [[q g]|] eqn:E'; [|done].
    destruct H as [Hw' Hq]. split; [done|]. destruct (decide (w' = w)) as [->|N].
    + rewrite E in E'. injection E' as <- <-. unfold k'. rewrite (page_lookup _ _ _ (pages_set_eq k p _)), Hpg.
      rewrite sub_splice_in by lia. f_equal. lia.
    + rewrite (page_ext k), sub_splice_ne, Hq; [done|lia|lia|]. apply Ho'. intros ->. apply N. eapply (as_user_inj _ _ _ _ _ _ A); eauto.
Qed.

(** [allocuvm] adds zeroes. *)
Lemma alloc_holds k d T U K l m sz newsz : vm_ok kend k d T U K l -> holds k U m -> zlen m = pages_of sz * 4096 ->
  0 <= sz <= newsz -> newsz < KERNBASE ->
  exists r k' T' U' l', allocuvm kend d sz newsz k = Ret r k' /\ vm_ok kend k' d T' U' K l' /\ conserves d T U l T' U' l' /\
    only (fun a => owned d T U a \/ a ∈ l) k k' /\
    ((r = newsz /\ holds k' U' (m ++ zpad ((pages_of newsz - pages_of sz) * 4096)) /\
      forall w p f, U' !! w = Some (p, f) -> if decide (pages_of sz <= w < pages_of newsz) then f = 7 else U !! w = Some (p, f)) \/
     (r = 0 /\ U' = U /\ holds k' U m /\ used_up d T U l U (pages_of sz) (pages_of newsz))).
Proof.
  intros V H Hl Hsz Hn. assert (Hpp : pages_of sz <= pages_of newsz) by (unfold pages_of; lia).
  assert (H0 : forall w, pages_of sz <= w < pages_of newsz -> U !! w = None).
  { intros w Hw. destruct H as [_ H]. specialize (H w). destruct (U !! w) as [[p f]|]; [lia|done]. }
  destruct (allocuvm_spec kend Hkend k d T U K l sz newsz V Hsz Hn H0) as (r & k' & T' & U' & l' & E & V' & Hc & Ho & Hr).
  assert (Hoo : only (fun a => owned d T U a \/ a ∈ l) k k').
  { eapply only_weaken; [|exact Ho]. intros a [Ht|Ha]; [|by right]. apply (Hc a). left. destruct Ht as [->|?]; [by left|right; by left]. }
  assert (Hkeep : forall w p f, U !! w = Some (p, f) -> U' !! w = Some (p, f) -> pages k' !! p = pages k !! p).
  { intros w p f Eu Eu'. apply Ho. intros [Ht|Ha]; [|apply (vo_apart _ _ _ _ _ _ _ V p Ha); right; right; eauto].
    destruct Ht as [->|[i Hi]]; [|by eapply (as_apart _ _ _ _ _ _ (vo_space _ _ _ _ _ _ _ V'))].
    by apply (as_user _ _ _ _ _ _ (vo_space _ _ _ _ _ _ _ V')) in Eu' as (_ & ? & _). }
  exists r, k', T', U', l'. split_and!; try done. destruct Hr as [[-> G]|(-> & -> & Hu)]; [left|right]; split_and!; try done.
  - eapply holds_grown; [exact H|lia|done|exact G|]. intros w p f Eu. eapply Hkeep; [exact Eu|]. destruct G as [_ G]. rewrite G; [done|].
    intros Hw. rewrite H0 in Eu by done. done.
  - intros w p f Ew. destruct G as [G1 G2]. case_decide as D; [|by rewrite <- G2]. destruct (G1 w D) as (q & Eq & _). congruence.
  - eapply holds_frame; [|exact H]. intros w p f Eu. by eapply Hkeep.
Qed.
End memory.
