(* ===== verification/ExecLoad.v ===== *)
(** * Loading the segments of a program

    What [loaduvm] and the loop over the program headers make of a file with
    the contents [c], as bytes of user memory. *)

From S2P Require Import Prelude Params CString Kalloc Bio Log Crash Block Inode Content Pipe Syscall File FileProps Vm VmUser VmCopy Proc ProcInv Exec ExecMem.
Local Open Scope Z_scope.
Local Open Scope kmonad_scope.

(** What [readi] returns for a file with the contents [c]. *)
Definition read_at (c : list Z) (off n : Z) : Z * list Z :=
  if zlen c <? off then (-1, []) else
  let k := Z.min n (zlen c - off) in (k, sub c (Z.to_nat off) (Z.to_nat k)).

(** ** The memory image of a file *)

(** One segment; the memory is [m] and its size [sz]. *)
Definition segment_fits (c : list Z) (ph : proghdr) : bool :=
  (ph_filesz ph <=? ph_memsz ph) && (ph_vaddr ph + ph_memsz ph <? KERNBASE) && (ph_vaddr ph mod PGSIZE =? 0) &&
  ((ph_filesz ph =? 0) || (ph_off ph + ph_filesz ph <=? zlen c)).
Definition put_segment (c : list Z) (ph : proghdr) (sz : Z) (m : list Z) : list Z :=
  splice (m ++ zpad ((pages_of (Z.max sz (ph_vaddr ph + ph_memsz ph)) - pages_of sz) * 4096)) (Z.to_nat (ph_vaddr ph))
    (sub c (Z.to_nat (ph_off ph)) (Z.to_nat (ph_filesz ph))).

(** The segments of [n] program headers from offset [off] of the file: the size
    of the program and its memory, or nothing if the file is not a program. *)
Fixpoint load_segments (c : list Z) (n : nat) (off sz : Z) (m : list Z) : option (Z * list Z) :=
  match n with
  | O => Some (sz, m)
  | S n' =>
      if zlen c <? off + SIZEOF_PH then None else
      let ph := decode_ph (sub c (Z.to_nat off) (Z.to_nat SIZEOF_PH)) in
      if negb (ph_type ph =? ELF_PROG_LOAD) then load_segments c n' (off + SIZEOF_PH) sz m else
      let sz' := Z.max sz (ph_vaddr ph + ph_memsz ph) in
      if negb (segment_fits c ph) || (sz' =? 0) then None else
      load_segments c n' (off + SIZEOF_PH) sz' (put_segment c ph sz m)
  end.

(** The entry point, the size and the memory of a program. *)
Definition load_image (c : list Z) : option (Z * Z * list Z) :=
  if zlen c <? SIZEOF_ELF then None else
  let elf := decode_elf (sub c 0 (Z.to_nat SIZEOF_ELF)) in
  if negb (e_magic elf =? ELF_MAGIC) then None else
  (fun '(sz, m) => (e_entry elf, sz, m)) <$> load_segments c (Z.to_nat (e_phnum elf)) (e_phoff elf) 0 [].

Section loading.
Context (sb : superblock) (kend data : Z) (Hkend : KERNBASE < kend).
Context (devr : Z -> option (nat -> Z -> M (fstate lstate) (Z * list Z))) (pid : Z).
#[local] Hint Extern 0 (BlockLayer lstate) => exact (log_layer pid) : typeclass_instances.
Context (EP : string -> Prop).

(** The file [ip] has the contents [c] in the states [I], which reading keeps. *)
Context (I : fstate lstate -> Prop) (ip : nat) (c : list Z).
Context (Hc : bytes c) (Hclen : zlen c < 2 ^ 31).
Context (Hread : forall fs off n, I fs -> 0 <= off < 2 ^ 32 -> 0 <= n <= PGSIZE ->
  wp EP (readi sb devr ip off n) (fun r fs' => I fs' /\ r = read_at c off n) fs).

(** A state of [exec]: the new address space [d] with user memory [m]. *)
Record loading (s : kstate) (d : Z) (T : gmap Z Z) (U : gmap Z (Z * Z)) (K : Z -> Z) (l : list Z) (m : list Z) : Prop := {
  ld_fs : I (k_fs s);
  ld_vm : vm_ok kend (k_kmem s) d T U K l;
  ld_mem : holds (k_kmem s) U m
}.

(** Only the file system and memory have changed. *)
Definition fs_mem (s s' : kstate) : Prop := s' = set_kmem (k_kmem s') (set_fs (k_fs s') s).

Lemma fs_mem_refl s : fs_mem s s.
Proof. by destruct s. Qed.
Lemma fs_mem_trans s1 s2 s3 : fs_mem s1 s2 -> fs_mem s2 s3 -> fs_mem s1 s3.
Proof. unfold fs_mem. destruct s1, s2, s3. cbn. intros E1 E2. injection E1 as -> -> -> -> -> -> ->. done. Qed.

Lemma Z2Nat_inj_nonpos z : z <= 0 -> Z.to_nat z = 0%nat.
Proof. lia. Qed.

Lemma bytes_sub (b : list Z) i n : bytes b -> bytes (sub b i n).
Proof. intros H. unfold sub, bytes. by apply Forall_take, Forall_drop. Qed.

(** What one turn of [loaduvm] reads. *)
Lemma read_at_page off n : 0 <= off -> 0 <= n <= 4096 -> let rd := read_at c off n in
  bytes rd.2 /\ zlen rd.2 <= n /\ (u32 rd.1 = n <-> off + n <= zlen c) /\ (off + n <= zlen c -> rd.2 = sub c (Z.to_nat off) (Z.to_nat n)).
Proof using Hc Hclen.
  intros Ho Hn. unfold read_at. destruct (Z.ltb_spec (zlen c) off); cbv zeta; cbn [fst snd].
  - split_and!; [by constructor|unfold zlen; cbn; lia| |lia]. unfold u32. lia.
  - split_and!; [by apply bytes_sub| | |].
    + unfold zlen in *. rewrite length_sub; lia.
    + rewrite u32_small by lia. lia.
    + intros Hle. by rewrite Z.min_l by lia.
Qed.

Lemma sub_join (b : list Z) off n1 n2 : 0 <= off -> 0 <= n1 -> 0 <= n2 ->
  sub b (Z.to_nat off) (Z.to_nat n1) ++ sub b (Z.to_nat (off + n1)) (Z.to_nat n2) = sub b (Z.to_nat off) (Z.to_nat (n1 + n2)).
Proof.
  intros. unfold sub. rewrite Z2Nat.inj_add by lia. rewrite <- drop_drop, take_take_drop. by rewrite Z2Nat.inj_add by lia.
Qed.

(** From page [j] of the segment on, which starts at page [a]. *)
Lemma loaduvm_loop_spec d T U K l a offset sz : 0 <= a -> 0 <= offset < 2 ^ 32 -> sz <= 2 ^ 31 ->
  forall fuel s m j, loading s d T U K l m -> 0 <= j -> sz - j * 4096 <= Z.of_nat fuel * 4096 ->
  a * 4096 + sz <= zlen m -> zlen m <= KERNBASE -> (j = 0 \/ sz <= j * 4096 \/ offset + j * 4096 <= zlen c) ->
  wp EP (loaduvm_loop sb devr pid fuel d (a * 4096) ip offset (j * 4096) sz) (fun r s' => exists m', loading s' d T U K l m' /\ fs_mem s s' /\ zlen m' = zlen m /\
    only (fun a => exists v f, U !! v = Some (a, f)) (k_kmem s) (k_kmem s') /\
    if decide (sz <= j * 4096 \/ offset + sz <= zlen c)
    then r = 0 /\ m' = splice m (Z.to_nat (a * 4096 + j * 4096)) (sub c (Z.to_nat (offset + j * 4096)) (Z.to_nat (sz - j * 4096)))
    else r = -1) s.
Proof using Hkend data Hc Hclen Hread.
  intros Ha Hoff Hsz. unfold KERNBASE. induction fuel as [|fuel IH]; intros s m j L Hj Hf Hfit Hml Hpre.
  all: assert (Hdone : sz <= j * 4096 -> exists m', loading s d T U K l m' /\ fs_mem s s /\ zlen m' = zlen m /\
    only (fun a => exists v f, U !! v = Some (a, f)) (k_kmem s) (k_kmem s) /\
    if decide (sz <= j * 4096 \/ offset + sz <= zlen c)
    then 0 = 0 /\ m' = splice m (Z.to_nat (a * 4096 + j * 4096)) (sub c (Z.to_nat (offset + j * 4096)) (Z.to_nat (sz - j * 4096)))
    else 0 = -1).
  1, 3: intros Hle; exists m; split_and!; try done; [apply fs_mem_refl|]; rewrite decide_True by tauto; split; [done|];
    rewrite (Z2Nat_inj_nonpos (sz - j * 4096)) by lia; unfold sub; by rewrite take_0, splice_nil.
  { cbn [loaduvm_loop]. wp_step. apply Hdone. lia. }
  cbn [loaduvm_loop]. destruct (Z.ltb_spec (j * 4096) sz) as [Hlt|Hge]; [|wp_step; by apply Hdone]. clear Hdone.
  destruct L as [Lf Lv Lm]. rewrite (u32_small (a * 4096 + j * 4096)) by lia. set (w := a + j).
  destruct (holds_page _ _ _ w Lm) as (p & f & Eu & Hpg).
  { destruct Lm as [Hmm _]. unfold w. lia. }
  destruct (read_entry kend Hkend data (k_kmem s) d T U K w p f (vo_space _ _ _ _ _ _ _ Lv) Eu) as (t & Ewk & Ht0 & El & Hpv & Hfl & _).
  replace (w * 4096) with (a * 4096 + j * 4096) in Ewk by (unfold w; lia). wp_step. unfold onkmem. apply wp_lift. unfold wp at 1. rewrite Ewk.
  assert (Es : set_kmem (k_kmem s) s = s) by (by destruct s). rewrite Es, (proj2 (Z.eqb_neq _ _) Ht0). wp_step. wp_step. rewrite El.
  destruct (entry_parts kend Hkend p f Hpv Hfl) as (-> & _). destruct (valid_page_V2P kend Hkend p Hpv) as (_ & _ & _ & _ & _ & ->).
  clear Ewk Ht0 El Hpv Hfl Hpg Es.
  set (n := if sz - j * 4096 <? PGSIZE then sz - j * 4096 else PGSIZE).
  assert (Hn : n = Z.min (sz - j * 4096) 4096) by (unfold n, PGSIZE; destruct (Z.ltb_spec (sz - j * 4096) 4096); lia). clearbody n.
  rewrite (u32_small (offset + j * 4096)) by lia. wp_step. apply wp_onfs.
  eapply wp_post; [apply Hread; [done|lia|unfold PGSIZE; lia]|]. cbv beta. intros r fs' [If ->].
  cbn [k_kmem set_fs]. destruct (read_at_page (offset + j * 4096) n ltac:(lia) ltac:(lia)) as (Rb & Rl & Rn & Rs).
  set (rd := read_at c (offset + j * 4096) n) in *. clearbody rd. wp_step. wp_step. cbn [k_kmem set_fs].
  destruct (write_user kend (k_kmem s) d T U K l m w p f 0 rd.2 Lv Lm Eu ltac:(lia) ltac:(lia) Rb) as (V' & H' & O').
  rewrite Z.add_0_r in H'. unfold w in H'. rewrite Z.mul_add_distr_r in H'. set (s1 := set_kmem _ (set_fs fs' s)).
  assert (L1 : loading s1 d T U K l (splice m (Z.to_nat (a * 4096 + j * 4096)) rd.2)) by (by split).
  assert (F1 : fs_mem s s1) by (by destruct s). assert (Hl1 : zlen (splice m (Z.to_nat (a * 4096 + j * 4096)) rd.2) = zlen m).
  { clear -Rl Hfit Hn Hlt Ha Hj. unfold zlen in *. rewrite length_splice; lia. }
  assert (O1 : only (fun a => exists v f, U !! v = Some (a, f)) (k_kmem s) (k_kmem s1)) by (eapply only_weaken; [|exact O']; intros ? ->; eauto).
  clearbody s1. clear V' H' O' Lf Lv Lm If Eu.
  destruct (Z.eqb_spec (u32 rd.1) n) as [En|En]; cbn [negb].
  - apply Rn in En. specialize (Rs En). rewrite (u32_small (j * 4096 + PGSIZE)) by (unfold PGSIZE; lia). unfold PGSIZE.
    replace (j * 4096 + 4096) with ((j + 1) * 4096) by lia.
    eapply wp_post; [apply (IH s1 _ (j + 1) L1); lia|]. cbv beta. intros r s' (m' & L' & F' & Hl' & O2 & Hres).
    exists m'. split_and!; [done|by eapply fs_mem_trans|lia|by eapply only_trans|]. clear IH L1 L' F1 F' O1 O2.
    destruct (decide (sz <= (j + 1) * 4096 \/ offset + sz <= zlen c)) as [D|D].
    + rewrite decide_True by lia. destruct Hres as [-> ->]. split; [done|]. rewrite Rs. destruct (decide (sz <= (j + 1) * 4096)) as [D2|D2].
      * rewrite (Z2Nat_inj_nonpos (sz - (j + 1) * 4096)) by lia. unfold sub at 2. rewrite take_0, splice_nil. by replace n with (sz - j * 4096) by lia.
      * replace (sz - j * 4096) with (n + (sz - (j + 1) * 4096)) by lia. rewrite <- sub_join by lia.
        rewrite <- splice_splice by (unfold zlen in *; lia). f_equal; [|do 2 f_equal; lia].
        rewrite length_sub by (unfold zlen in *; lia). lia.
    + rewrite decide_False by lia. done.
  - wp_step. eexists. split_and!; [exact L1|done|done|done|].
    rewrite decide_False; [done|]. intros [?|?]; [lia|]. apply En, Rn. lia.
Qed.

Lemma loaduvm_spec s d T U K l m addr offset sz : loading s d T U K l m -> 0 <= addr -> addr mod PGSIZE = 0 -> 0 <= offset < 2 ^ 32 -> 0 <= sz ->
  addr + sz <= zlen m -> zlen m <= KERNBASE ->
  wp EP (loaduvm sb devr pid d addr ip offset sz) (fun r s' => exists m', loading s' d T U K l m' /\ fs_mem s s' /\ zlen m' = zlen m /\
    only (fun a => exists v f, U !! v = Some (a, f)) (k_kmem s) (k_kmem s') /\
    if (sz =? 0) || (offset + sz <=? zlen c) then r = 0 /\ m' = splice m (Z.to_nat addr) (sub c (Z.to_nat offset) (Z.to_nat sz)) else r = -1) s.
Proof using Hkend data Hc Hclen Hread.
  intros L Ha Hal Ho Hs Hf Hm. unfold loaduvm. rewrite (proj2 (Z.eqb_eq _ _) Hal). cbn [negb]. unfold PGSIZE in *.
  pose proof (loaduvm_loop_spec d T U K l (addr / 4096) offset sz ltac:(lia) Ho ltac:(unfold KERNBASE in Hm; lia) (Z.to_nat (sz / 4096 + 1)) s m 0 L ltac:(lia) ltac:(lia)) as H.
  replace (addr / 4096 * 4096) with addr in H by lia. change (0 * 4096) with 0 in H. rewrite !Z.add_0_r, Z.sub_0_r in H.
  eapply wp_post; [apply H; [done|done|by left]|]. cbv beta. intros r s' (m' & L' & F & Hl & O & Hr). exists m'. split_and!; try done.
  destruct (decide (sz <= 0 \/ offset + sz <= zlen c)) as [D|D].
  - replace ((sz =? 0) || (offset + sz <=? zlen c)) with true by lia. done.
  - replace ((sz =? 0) || (offset + sz <=? zlen c)) with false by lia. done.
Qed.

(** The fields of a program header are words. *)
Lemma decode_ph_range (b : list Z) : bytes b -> length b = 32%nat -> let ph := decode_ph b in
  0 <= ph_off ph < 2 ^ 32 /\ 0 <= ph_vaddr ph < 2 ^ 32 /\ 0 <= ph_filesz ph < 2 ^ 32 /\ 0 <= ph_memsz ph < 2 ^ 32.
Proof. intros Hb Hl. cbn. split_and!; apply get32_range; (done || lia). Qed.

Lemma load_segments_mono n : forall off sz m sz' m', 0 <= sz -> load_segments c n off sz m = Some (sz', m') -> sz <= sz'.
Proof.
  induction n as [|n IH]; intros off sz m sz' m' Hsz; cbn [load_segments]; [intros [= <- <-]; lia|].
  destruct (_ <? _); [done|]. cbv zeta. set (ph := decode_ph _). destruct (negb (ph_type ph =? _)); [by apply IH|].
  destruct (_ || _); [done|]. intros H. apply IH in H; lia.
Qed.

(** All pages but one have gone into tables and into the first [v] user pages. *)
Definition spent (d : Z) (T : gmap Z Z) (U : gmap Z (Z * Z)) (l : list Z) (v : Z) : Prop :=
  exists T1 U1 l1, (length l1 <= 1)%nat /\ (forall i t, T1 !! i = Some t -> 0 <= i < 1024) /\
    (forall w x, U1 !! w = Some x -> 0 <= w < v) /\ conserves d T U l T1 U1 l1.

Lemma spent_trans d T U l T1 U1 l1 v : conserves d T U l T1 U1 l1 -> spent d T1 U1 l1 v -> spent d T U l v.
Proof. intros H (T2 & U2 & l2 & A & B & C & D). exists T2, U2, l2. split_and!; try done. by eapply conserves_trans. Qed.

Lemma used_up_spent d T U l v0 v k m : holds k U m -> zlen m = v0 * 4096 -> v0 <= v -> used_up d T U l U v0 v -> spent d T U l v.
Proof.
  intros [_ H] Hm Hv (T1 & U1 & l1 & A & B & C & D). exists T1, U1, l1. split_and!; try done. intros w x Hw.
  destruct (decide (v0 <= w < v)) as [Hr|Hr]; [unfold zlen in Hm; lia|]. rewrite C in Hw by done. specialize (H w). rewrite Hw in H.
  destruct x. lia.
Qed.

Lemma spent_length d T U l v (l0 : list Z) : NoDup l0 -> (forall a, a ∈ l0 -> owned d T U a \/ a ∈ l) -> 0 <= v -> spent d T U l v ->
  Z.of_nat (length l0) <= 1026 + v.
Proof.
  intros Hnd H0 Hv (T1 & U1 & l1 & Hl1 & HT & HU & Hco).
  assert (Hle : (length l0 <= 1025 + length (omap (fun w => fst <$> U1 !! w) (seqZ 0 v) ++ l1))%nat).
  { apply (owned_length d T1); [done|done|]. intros a Ha. apply H0, (Hco a) in Ha. rewrite elem_of_app.
    destruct Ha as [[->|[?|(w & f & Hw)]]|?]; [by left; left|left; right; by left| |tauto]. right. left.
    apply list_elem_of_omap. exists w. rewrite elem_of_seqZ, Hw. split; [|done]. apply HU in Hw. lia. }
  rewrite length_app in Hle. pose proof (length_omap_le (fun w => fst <$> U1 !! w) (seqZ 0 v)) as Ho. rewrite length_seqZ in Ho. lia.
Qed.

(** All user pages are readable and writable by the program. *)
Definition all_user (U : gmap Z (Z * Z)) : Prop := forall w p f, U !! w = Some (p, f) -> f = 7.

(** What one [allocuvm] of the loop does. *)
Lemma segment_alloc s d T U K l m sz newsz : loading s d T U K l m -> zlen m = pages_of sz * 4096 -> 0 <= sz < KERNBASE -> all_user U -> 0 <= newsz ->
  exists r k', allocuvm kend d sz newsz (k_kmem s) = Ret r k' /\ exists T' U' l' m', loading (set_kmem k' s) d T' U' K l' m' /\ all_user U' /\
    conserves d T U l T' U' l' /\ only (fun a => owned d T U a \/ a ∈ l) (k_kmem s) k' /\
    ((r = Z.max sz newsz /\ newsz < KERNBASE /\ m' = m ++ zpad ((pages_of (Z.max sz newsz) - pages_of sz) * 4096)) \/
     (r = 0 /\ (KERNBASE <= newsz \/ sz <= newsz < KERNBASE /\ spent d T U l (pages_of newsz)))).
Proof using Hkend.
  intros [Lf Lv Lm] Hm Hsz Hall Hn. destruct (decide (KERNBASE <= newsz)) as [Hk|Hk]; [|destruct (decide (newsz < sz)) as [Hlt|Hge]].
  - exists 0, (k_kmem s). unfold allocuvm. rewrite (proj2 (Z.leb_le _ _) Hk). split; [done|]. exists T, U, l, m. split_and!; try done. right. tauto.
  - exists sz, (k_kmem s). unfold allocuvm. rewrite (proj2 (Z.leb_gt KERNBASE newsz)), (proj2 (Z.ltb_lt _ _) Hlt) by lia.
    split; [done|]. exists T, U, l, m. split_and!; try done. left. rewrite Z.max_l, Z.sub_diag by lia. change (zpad (0 * 4096)) with (@nil Z). split_and!; [done|lia|by rewrite app_nil_r].
  - destruct (alloc_holds kend Hkend _ d T U K l m sz newsz Lv Lm Hm ltac:(lia) ltac:(lia)) as (r & k' & T' & U' & l' & E & V' & Hc' & Ho & Hr).
    exists r, k'. split; [done|]. destruct Hr as [(-> & H' & Hf)|(-> & -> & H' & Hu)].
    + exists T', U', l', (m ++ zpad ((pages_of newsz - pages_of sz) * 4096)). split_and!; try done.
      * intros w p f Ew. apply Hf in Ew. case_decide; [done|by eapply Hall].
      * left. rewrite Z.max_r by lia. split_and!; [done|lia|done].
    + exists T', U, l', m. split_and!; try done.
      * right. split; [done|]. right. split; [lia|]. eapply (used_up_spent _ _ _ _ (pages_of sz)); [exact Lm|done|unfold pages_of; lia|done].
Qed.

(** The state after the loop, where [res] should be loaded. *)
Definition loaded (s : kstate) (d : Z) (T : gmap Z Z) (U : gmap Z (Z * Z)) (K : Z -> Z) (l : list Z) (res : option (Z * list Z))
    (o : option Z) (s' : kstate) : Prop :=
  exists T' U' l' m', loading s' d T' U' K l' m' /\ fs_mem s s' /\ all_user U' /\
    conserves d T U l T' U' l' /\ only (fun a => owned d T U a \/ a ∈ l) (k_kmem s) (k_kmem s') /\
    match res with
    | None => o = None
    | Some (sz', mf) => (o = Some sz' /\ m' = mf /\ zlen mf = pages_of sz' * 4096 /\ 0 <= sz' < KERNBASE) \/ (o = None /\ spent d T U l (pages_of sz'))
    end.

Lemma loaded_trans s d T U K l s1 T1 U1 l1 res o s' : fs_mem s s1 -> conserves d T U l T1 U1 l1 ->
  only (fun a => owned d T U a \/ a ∈ l) (k_kmem s) (k_kmem s1) -> loaded s1 d T1 U1 K l1 res o s' -> loaded s d T U K l res o s'.
Proof.
  intros F Hco Ho (T' & U' & l' & m' & L' & F' & A' & Hc' & Ho' & Hr). exists T', U', l', m'. split_and!; try done.
  - by eapply fs_mem_trans.
  - by eapply conserves_trans.
  - eapply only_trans; [exact Ho|]. eapply only_weaken; [|exact Ho']. intros a. apply (Hco a).
  - destruct res as [[sz' mf]|]; [|done]. destruct Hr as [?|[-> Hs]]; [by left|right]. split; [done|]. by eapply spent_trans.
Qed.

Lemma loaded_none s d T U K l m : loading s d T U K l m -> all_user U -> loaded s d T U K l None None s.
Proof. intros L A. exists T, U, l, m. split_and!; try done. apply fs_mem_refl. Qed.

(** The loop over the program headers computes [load_segments], or runs out of memory. *)
Lemma exec_segments_spec d K n : forall s T U l m off sz, loading s d T U K l m -> zlen m = pages_of sz * 4096 -> 0 <= sz < KERNBASE -> all_user U ->
  0 <= off < 2 ^ 32 -> wp EP (exec_segments sb kend devr pid n d ip off sz) (loaded s d T U K l (load_segments c n off sz m)) s.
Proof using Hkend data Hc Hclen Hread.
  induction n as [|n IH]; intros s T U l m off sz L Hm Hsz Hall Hoff; cbn [exec_segments load_segments].
  { wp_step. exists T, U, l, m. split_and!; try done; [apply fs_mem_refl|]. left. split_and!; try done; lia. }
  pose proof L as [Lf Lv Lm]. wp_step. apply wp_onfs. eapply wp_post; [apply Hread; [done|done|unfold SIZEOF_PH, PGSIZE; lia]|]. cbv beta.
  intros r fs' [If ->]. destruct (read_at_page off SIZEOF_PH ltac:(lia) ltac:(unfold SIZEOF_PH; lia)) as (Rb & _ & Rn & Rs).
  set (rd := read_at c off SIZEOF_PH) in *. clearbody rd. set (s1 := set_fs fs' s).
  assert (L1 : loading s1 d T U K l m) by (by split). assert (F1 : fs_mem s s1) by (by destruct s).
  assert (Hs1 : forall T1 U1 l1 s2 res o s', conserves d T U l T1 U1 l1 -> fs_mem s1 s2 -> only (fun a => owned d T U a \/ a ∈ l) (k_kmem s1) (k_kmem s2) ->
    loaded s2 d T1 U1 K l1 res o s' -> loaded s d T U K l res o s').
  { intros T1 U1 l1 s2 res o s' H1 H2 H3. apply loaded_trans; [exact (fs_mem_trans _ _ _ F1 H2)|exact H1|exact H3]. }
  assert (Hrefl : conserves d T U l T U l /\ fs_mem s1 s1 /\ only (fun a => owned d T U a \/ a ∈ l) (k_kmem s1) (k_kmem s1)) by (split_and!; [done|apply fs_mem_refl|done]).
  destruct Hrefl as (Hcr & Fr & Or). clearbody s1. clear If fs' F1 Lf Lv Lm L.
  destruct (Z.eqb_spec (u32 rd.1) SIZEOF_PH) as [En|En]; cbn [negb].
  2: { wp_step. rewrite (proj2 (Z.ltb_lt (zlen c) (off + SIZEOF_PH))) by (destruct (decide (zlen c < off + SIZEOF_PH)); [done|]; destruct En; apply Rn; lia).
       eapply Hs1; [done..|]. by eapply loaded_none. }
  apply Rn in En. specialize (Rs En). rewrite Rs in Rb |- *. rewrite (proj2 (Z.ltb_ge (zlen c) (off + SIZEOF_PH))) by lia. cbv zeta.
  assert (Hl32 : length (sub c (Z.to_nat off) (Z.to_nat SIZEOF_PH)) = 32%nat) by (rewrite length_sub; unfold zlen, SIZEOF_PH in *; lia).
  destruct (decode_ph_range _ Rb Hl32) as (Ro & Rv & Rf & Rm). set (ph := decode_ph _) in *. clearbody ph. clear Rs Rb Hl32 rd Rn.
  assert (Hoff' : u32 (off + SIZEOF_PH) = off + SIZEOF_PH) by (unfold SIZEOF_PH in *; apply u32_small; lia). rewrite Hoff'.
  assert (Hoff2 : 0 <= off + SIZEOF_PH < 2 ^ 32) by (unfold SIZEOF_PH in *; lia). clear Hoff' Hoff.
  destruct (ph_type ph =? ELF_PROG_LOAD); cbn [negb].
  2: { eapply wp_post; [by apply (IH s1 T U l m)|]. intros o s'. by apply Hs1. }
  set (newsz := ph_vaddr ph + ph_memsz ph). destruct (Z.ltb_spec (ph_memsz ph) (ph_filesz ph)) as [Hmf|Hmf].
  { wp_step. replace (segment_fits c ph) with false by (unfold segment_fits; lia). eapply Hs1; [done..|]. by eapply loaded_none. }
  destruct (Z.ltb_spec (u32 newsz) (ph_vaddr ph)) as [Hov|Hov].
  { wp_step. replace (segment_fits c ph) with false; [eapply Hs1; [done..|]; by eapply loaded_none|].
    unfold segment_fits, KERNBASE, u32, newsz in *. lia. }
  assert (Hnew : 0 <= newsz < 2 ^ 32) by (unfold newsz, u32 in *; lia). rewrite (u32_small newsz) by done. clear Hov.
  destruct (segment_alloc s1 d T U K l m sz newsz L1 Hm Hsz Hall ltac:(lia)) as (r & k' & Ea & T' & U' & l' & m' & L' & A' & Hc' & Ho' & Hr).
  wp_step. unfold onkmem. apply wp_lift. unfold wp at 1. rewrite Ea. set (s2 := set_kmem k' s1) in *.
  assert (F2 : fs_mem s1 s2) by (by destruct s1). change k' with (k_kmem s2) in Ho'. clearbody s2. clear Ea k' L1 Fr Or Hcr.
  destruct Hr as [(-> & Hnk & ->)|(-> & Hr)].
  2: { cbn [Z.eqb]. wp_step. eapply Hs1; [done..|]. destruct Hr as [Hk|[Hk Hs]].
       - replace (segment_fits c ph) with false by (unfold segment_fits; fold newsz; lia). by eapply loaded_none.
       - exists T', U', l', m'. split_and!; try done; [apply fs_mem_refl|]. destruct (negb (segment_fits c ph) || _); [done|].
         destruct (load_segments c n _ _ _) as [[sz' mf]|] eqn:El; [|done]. right. split; [done|]. apply load_segments_mono in El; [|lia].
         destruct Hs as (T1 & U1 & l1 & B1 & B2 & B3 & B4). exists T1, U1, l1. split_and!; try done.
         + intros w x Hw. apply B3 in Hw. assert (pages_of newsz <= pages_of sz') by (unfold pages_of; lia). lia.
         + intros a. rewrite (B4 a). symmetry. apply Hc'. }
  set (sz2 := Z.max sz newsz) in *. set (m2 := m ++ zpad ((pages_of sz2 - pages_of sz) * 4096)) in *.
  assert (Hsz2 : 0 <= sz2 < KERNBASE /\ newsz <= sz2) by (unfold sz2; lia). destruct Hsz2 as [Hsz2 Hle2].
  assert (Hm2 : zlen m2 = pages_of sz2 * 4096).
  { unfold m2. rewrite zlen_app, zlen_pad, Hm; [lia|]. assert (pages_of sz <= pages_of sz2) by (unfold pages_of, sz2; lia). lia. }
  assert (Hput : put_segment c ph sz m = splice m2 (Z.to_nat (ph_vaddr ph)) (sub c (Z.to_nat (ph_off ph)) (Z.to_nat (ph_filesz ph)))) by done.
  assert (Hfits : segment_fits c ph = (ph_vaddr ph mod PGSIZE =? 0) && ((ph_filesz ph =? 0) || (ph_off ph + ph_filesz ph <=? zlen c))).
  { unfold segment_fits. fold newsz. rewrite (proj2 (Z.leb_le _ _) Hmf), (proj2 (Z.ltb_lt _ _) Hnk). done. }
  clearbody sz2 m2. rewrite Hput, Hfits. clear Hput Hfits Hm Hsz.
  assert (Hbad : loaded s2 d T' U' K l' None None s2) by (by eapply loaded_none).
  destruct (sz2 =? 0); [wp_step; rewrite orb_true_r; by eapply Hs1|]. rewrite orb_false_r.
  destruct (ph_vaddr ph mod PGSIZE =? 0) eqn:Hal; cbn [negb andb]; [|wp_step; by eapply Hs1]. apply Z.eqb_eq in Hal.
  wp_step. eapply wp_post; [apply (loaduvm_spec s2 d T' U' K l' m2 _ _ _ L'); [lia|done|lia|lia| |]|cbv beta].
  { rewrite Hm2. unfold pages_of, newsz in *. lia. }
  { rewrite Hm2. unfold pages_of, KERNBASE in *. lia. }
  intros r s3 (m3 & L3 & F3 & Hl3 & O3 & Hr3).
  assert (Hs2 : forall res o s', loaded s3 d T' U' K l' res o s' -> loaded s d T U K l res o s').
  { intros res o s' H. eapply Hs1; [exact Hc'|exact F2|exact Ho'|]. eapply (loaded_trans s2 d T' U' K l' s3 T' U' l'); [done|done| |done].
    eapply only_weaken; [|exact O3]. intros a (w & f & Ew). left. right. right. eauto. }
  destruct (_ || _); cbn [negb].
  - destruct Hr3 as [-> ->]. cbn [Z.ltb Z.compare]. eapply wp_post; [apply (IH s3 T' U' l'); try done; lia|]. intros o s'. apply Hs2.
  - rewrite Hr3. cbn [Z.ltb Z.compare]. wp_step. apply Hs2. by eapply loaded_none.
Qed.

Lemma decode_elf_range (b : list Z) : bytes b -> length b = 52%nat -> 0 <= e_phoff (decode_elf b) < 2 ^ 32.
Proof. intros Hb Hl. apply get32_range; [done|lia]. Qed.

(** The state after the segments have been loaded, from the free pages [l]: the
    new address space [r.1], if it was made. *)
Definition image_loaded (s : kstate) (l : list Z) (r : Z * option (Z * Z)) (s' : kstate) : Prop :=
  fs_mem s s' /\ I (k_fs s') /\ only (fun a => a ∈ l) (k_kmem s) (k_kmem s') /\
  ((r.1 = 0 /\ r.2 = None /\ exists l', free_pages kend (k_kmem s') l' /\ forall a, a ∈ l' <-> a ∈ l) \/
   (r.1 <> 0 /\ exists T U l' m, loading s' r.1 T U (kernel_entry data) l' m /\ all_user U /\ (forall a, owned r.1 T U a \/ a ∈ l' <-> a ∈ l) /\
      forall entry sz, r.2 = Some (entry, sz) -> load_image c = Some (entry, sz, m) /\ zlen m = pages_of sz * 4096 /\ 0 <= sz < KERNBASE)) /\
  (r.2 = None -> forall entry sz m, load_image c = Some (entry, sz, m) -> Z.of_nat (length l) <= 1026 + pages_of sz).

Lemma exec_load_spec s l : I (k_fs s) -> free_pages kend (k_kmem s) l -> data mod 4096 = 0 -> KERNLINK < data < KERNBASE + PHYSTOP ->
  wp EP (exec_load sb kend data devr pid ip) (image_loaded s l) s.
Proof using Hkend Hc Hclen Hread.
  intros If Hf Hdata Hrange. unfold exec_load. wp_step. apply wp_onfs.
  eapply wp_post; [apply Hread; [done|lia|unfold SIZEOF_ELF, PGSIZE; lia]|]. cbv beta. intros r fs' [If' ->].
  destruct (read_at_page 0 SIZEOF_ELF ltac:(lia) ltac:(unfold SIZEOF_ELF; lia)) as (Rb & _ & Rn & Rs).
  set (rd := read_at c 0 SIZEOF_ELF) in *. clearbody rd. set (s1 := set_fs fs' s). assert (F1 : fs_mem s s1) by (by destruct s).
  assert (Hnone : load_image c = None -> image_loaded s l (0, None) s1).
  { intros E. split_and!; try done; [|by rewrite E]. left. split_and!; try done. by exists l. }
  change (0 + SIZEOF_ELF) with SIZEOF_ELF in *. change (Z.to_nat 0) with 0%nat in Rs.
  destruct (Z.eqb_spec (u32 rd.1) SIZEOF_ELF) as [En|En]; cbn [negb].
  2: { wp_step. apply Hnone. unfold load_image. rewrite (proj2 (Z.ltb_lt (zlen c) SIZEOF_ELF)); [done|]. destruct (decide (zlen c < SIZEOF_ELF)); [done|]. destruct En. apply Rn. lia. }
  apply Rn in En. specialize (Rs En). rewrite Rs in Rb |- *.
  assert (Hl52 : length (sub c 0 (Z.to_nat SIZEOF_ELF)) = 52%nat) by (rewrite length_sub; unfold zlen, SIZEOF_ELF in *; lia).
  pose proof (decode_elf_range _ Rb Hl52) as Ho. set (elf := decode_elf _) in *.
  assert (Himg : load_image c = if negb (e_magic elf =? ELF_MAGIC) then None else
    (fun '(sz, m) => (e_entry elf, sz, m)) <$> load_segments c (Z.to_nat (e_phnum elf)) (e_phoff elf) 0 []).
  { unfold load_image. by rewrite (proj2 (Z.ltb_ge (zlen c) SIZEOF_ELF)) by lia. }
  destruct (e_magic elf =? ELF_MAGIC); cbn [negb] in *; [|wp_step; by apply Hnone]. clear Hnone.
  assert (Hpos : forall entry sz m, load_image c = Some (entry, sz, m) -> 0 <= pages_of sz).
  { intros entry sz m. rewrite Himg. destruct (load_segments c _ _ _ _) as [[sz' m']|] eqn:El; [|done]. cbn. intros [= _ <- _].
    apply load_segments_mono in El; [unfold pages_of; lia|lia]. }
  destruct (setupkvm_spec kend Hkend data Hdata Hrange (k_kmem s1) l Hf) as (d & k2 & E2 & Hlen & O2 & Hr).
  wp_step. unfold onkmem. apply wp_lift. unfold wp at 1. rewrite E2. set (s2 := set_kmem k2 s1). assert (F2 : fs_mem s s2) by (by destruct s).
  destruct Hr as [(-> & l2 & Hf2 & Hl2)|(Hd & T & l2 & V2 & Hl2)].
  { cbn [Z.eqb]. wp_step. split_and!; try done; [left; split_and!; try done; by exists l2|]. intros _ entry sz m E%Hpos. specialize (Hlen eq_refl). lia. }
  rewrite (proj2 (Z.eqb_neq _ _) Hd). wp_step.
  eapply wp_post; [apply (exec_segments_spec d (kernel_entry data) (Z.to_nat (e_phnum elf)) s2 T ∅ l2 [] (e_phoff elf) 0);
    [split; [done|done|apply holds_empty]|done|unfold KERNBASE; lia|by intros w p f Ew; rewrite lookup_empty in Ew|done]|].
  intros o s' (T' & U' & l' & m' & L' & F' & A' & Hc' & O' & Hres). wp_step. cbn [fst snd].
  split_and!; [by eapply fs_mem_trans|apply L'| | |].
  - eapply only_trans; [exact O2|]. eapply only_weaken; [|exact O']. intros a. apply Hl2.
  - right. split; [done|]. exists T', U', l', m'. split_and!; try done; [intros a; rewrite (Hc' a); apply Hl2|]. intros entry sz Eo.
    destruct o as [sz'|]; [|done]. cbn in Eo. injection Eo as <- <-. rewrite Himg.
    destruct (load_segments c _ _ _ _) as [[sz2 mf]|]; [|done]. destruct Hres as [(E & -> & Hz & Hsz)|[? _]]; [|done]. injection E as ->. done.
  - intros Eo entry sz m E. pose proof (Hpos _ _ _ E) as Hp. rewrite Himg in E. destruct (load_segments c _ _ _ _) as [[sz2 mf]|]; [|done].
    cbn in E. injection E as _ -> _. destruct Hres as [(-> & _)|[_ Hs]]; [done|]. eapply spent_length; [apply Hf| |exact Hp|exact Hs].
    intros a. apply Hl2.
Qed.
End loading.
