(* ===== verification/ExecFs.v ===== *)
(** * The file that a program is read from

    [exec] as a client of the file system: the path is resolved, the file is
    locked and read, and everything is put back in one transaction. *)

From S2P Require Import Prelude Params CString Locks Kalloc Bio Log Crash Block Balloc Inode Bmap Content Itrunc Dir Icache Path Namei Pipe Syscall File FileProps Vm Proc ProcInv Exec ExecMem ExecLoad.
Local Open Scope Z_scope.
Local Open Scope kmonad_scope.

(** ** States of [exec]

    Until [exec] commits to the new image it changes the file system and
    physical memory only. *)
Definition with_fm (k : kern) (fs : fstate lstate) (m : kmem) : kern := set_shared (set_kmem m (set_fs fs (shared k))) k.

Lemma wp_fs {A} E (m : M (fstate lstate) A) (Q : A -> kern -> Prop) k fs km :
  wp E m (fun a fs' => Q a (with_fm k fs' km)) fs -> wp E (onshared (onfs m)) Q (with_fm k fs km).
Proof. intros H. apply wp_lift, wp_lift. exact H. Qed.

Lemma wp_km {A} E (m : M kmem A) (Q : A -> kern -> Prop) k fs km :
  wp E m (fun a km' => Q a (with_fm k fs km')) km -> wp E (onmem m) Q (with_fm k fs km).
Proof. intros H. apply wp_lift, wp_lift. exact H. Qed.

Lemma wp_sh {A} E (m : M kstate A) (Q : A -> kern -> Prop) k fs km :
  wp E m (fun a s' => fs_mem (shared (with_fm k fs km)) s' /\ Q a (with_fm k (k_fs s') (k_kmem s'))) (shared (with_fm k fs km)) ->
  wp E (onshared m) Q (with_fm k fs km).
Proof.
  intros H. apply wp_lift. eapply wp_post; [exact H|]. cbv beta. intros a s' [F HQ].
  assert (E' : set_shared s' (with_fm k fs km) = with_fm k (k_fs s') (k_kmem s')); [|by rewrite E'].
  unfold fs_mem in F. rewrite F at 1. done.
Qed.

(** ** The file *)

Section file.
Context (pid start size nb : Z) (sb : superblock) (lay : layout start size nb sb).
#[local] Hint Extern 0 (BlockLayer lstate) => exact (log_layer pid) : typeclass_instances.
Let geo : geometry start size nb := lay_log _ _ _ _ lay.

(** The block map of a file on the disk. *)
Record sound (v : Z -> list Z) (sf : gset Z) (j : Z) : Prop := {
  sd_tree : tree_ok sb v (d_addrs (dino sb v j)) sf;
  sd_dk : dinode_ok (dino sb v j);
  sd_max : d_size (dino sb v j) <= MAXFILE * BSIZE;
  sd_mapped : mapped v (d_addrs (dino sb v j)) (d_size (dino sb v j))
}.

(** A file system at rest: a tree of directories and files with sound block
    maps, and a table of inodes that agrees with the disk. *)
Record fs_ready (b : lstate) (v : Z -> list Z) (sf : gset Z) (ics : list inode) : Prop := {
  fr_rest : at_rest pid start size nb b v sf;
  fr_data : data_only sb ∅ sf;
  fr_meta : meta_used sb v;
  fr_dirs i : linked sb v i -> d_type (dino sb v i) = T_DIR -> dir_ok sb v sf i;
  fr_files i : linked sb v i -> d_type (dino sb v i) <> T_DEV -> sound v sf i;
  fr_table : table_ok sb pid v ics None
}.

(** What [exec] leaves of it: the same files, and no new references. *)
Definition fs_done (b : lstate) (v : Z -> list Z) (sf : gset Z) (ics : list inode) (fs : fstate lstate) : Prop :=
  exists b' ics', fs = FState b' ics' /\ txn_to pid start size nb b b' v sf /\ table_ok sb pid v ics' None /\
    forall d n, refs ics' d n = refs ics d n.

Lemma resolve_linked v sf (Hd : forall i, linked sb v i -> d_type (dino sb v i) = T_DIR -> dir_ok sb v sf i) cs : forall i j c,
  linked sb v i -> resolve sb false v i cs = Some (j, c) -> linked sb v j.
Proof.
  induction cs as [|c cs IH]; intros i j d Hl; cbn [resolve]; [by intros [= <- _]|].
  destruct (Z.eqb_spec (d_type (dino sb v i)) T_DIR) as [Ed|]; cbn [negb andb]; [|done].
  destruct (find_name c _) as [[k x]|] eqn:Ef; [|done]. apply IH. unfold find_name in Ef.
  destruct (list_find _ _) as [[k' e]|] eqn:El; [|done]. cbn in Ef. injection Ef as <- <-.
  apply list_find_Some in El as (Hk & [He _] & _). by eapply (dr_names _ _ _ _ (Hd i Hl Ed)).
Qed.

Section transaction.
Context (b : lstate) (v : Z -> list Z) (sf : gset Z) (ics : list inode) (Hready : fs_ready b v sf ics).
#[local] Instance laws : BlockLaws lstate := log_laws pid start size nb geo (begun b).
Let G : fsgeo sb := layout_fsgeo pid start size nb sb lay (begun b).

Lemma ready_tree : tree_fs sb (begun b) v sf.
Proof using Hready. destruct Hready. split; try done. by apply at_rest_bst. Qed.

Lemma bytes_contents (b' : lstate) j : bst b' v ∅ sf ∅ -> sound v sf j -> bytes (contents v (dino sb v j)).
Proof using lay.
  intros Hb [Ht Hdk Hmax Hmap]. unfold contents. apply Forall_fmap, Forall_forall. intros o Ho. apply elem_of_seqZ in Ho. cbn.
  unfold fbyte, getb. assert (Ho' : 0 <= o < d_size (dino sb v j)) by lia.
  assert (Hbn : 0 <= o / BSIZE < MAXFILE) by (plia). pose proof (fslot_leaf _ Hbn) as Hlf.
  destruct (tr_data _ _ _ _ Ht _ (leaf_ok _ Hlf) (Hmap o Ho')) as (_ & _ & Hsf).
  pose proof (bst_view_ok _ _ _ _ _ _ Hb Hsf) as [_ Hby]. destruct (_ !! Z.to_nat (o mod BSIZE)) as [x|] eqn:E; cbn; [|unfold is_byte; lia].
  by eapply Forall_lookup_1.
Qed.
Context (devr : Z -> option (nat -> Z -> M (fstate lstate) (Z * list Z))).

(** The path. *)
Lemma open_spec cwd path i : start_ok sb v ics cwd path i -> nonzero path ->
  wp fs_panic (namei pid sb cwd devr path) (fun o fs => exists (b1 : lstate) ics1, fs = FState b1 ics1 /\ tree_fs sb b1 v sf /\ table_ok sb pid v ics1 None /\
    match resolve sb false v i (components path) with
    | None => o = None /\ forall d n, refs ics1 d n = refs ics d n
    | Some (j, _) => linked sb v j /\ exists ip x, o = Some ip /\ ics1 !! ip = Some x /\ is_entry 1 j x /\ forall d n, refs ics1 d n = refs ics d n + minus1 j d n
    end) (FState (begun b) ics).
Proof using Hready lay.
  intros Hst Hz. unfold namei. wp_step.
  eapply wp_post; [apply (namex_spec sb G fs_panic fs_panic_res fs_panic_iget pid devr); [apply ready_tree|apply Hready|exact Hst|done]|].
  intros o [b1 ics1] (ics2 & Hr2 & [Lf Lt Lr]). wp_step. exists b1, ics1. split_and!; try done. cbn [f_inodes] in Lr.
  destruct (resolve sb false v i (components path)) as [[j c]|] eqn:Er.
  - split; [eapply resolve_linked; [apply Hready|apply Hst|exact Er]|]. destruct o as [[ip name]|]; [|done]. destruct Lr as ((x & Hx & He) & _ & Href).
    exists ip, x. split_and!; try done. intros d n. rewrite Href, Hr2. lia.
  - destruct o; [done|]. split; [done|]. intros d n. rewrite Lr, Hr2. lia.
Qed.

(** The file [j] is locked as entry [ip] of the table. *)
Record opened (ics2 : list inode) (ip : nat) (x : inode) (j : Z) : Prop := {
  op_table : table_ok sb pid v ics2 (Some ip);
  op_ip : ics2 !! ip = Some x;
  op_d : i_d x = dino sb v j;
  op_valid : i_valid x = true;
  op_inum : i_inum x = j;
  op_ref : 0 < i_ref x;
  op_linked : linked sb v j;
  op_refs : forall d n, refs ics2 d n = refs ics d n + minus1 j d n
}.

Lemma lock_spec (b1 : lstate) ics1 ip x j : tree_fs sb b1 v sf -> table_ok sb pid v ics1 None -> ics1 !! ip = Some x -> is_entry 1 j x -> linked sb v j ->
  (forall d n, refs ics1 d n = refs ics d n + minus1 j d n) ->
  wp fs_panic (ilock pid sb ip) (fun _ fs => exists (b2 : lstate) ics2 x', fs = FState b2 ics2 /\ tree_fs sb b2 v sf /\ opened ics2 ip x' j) (FState b1 ics1).
Proof using devr lay.
  intros Hfs Ht Hx (Hr & Hd & Hn) Hl Href. subst j.
  eapply (ns_ilock sb G fs_panic fs_panic_res pid); [exact Hfs|exact Ht|exact Hx|exact Hr|exact Hl|].
  intros b' ics' x' Hfs' Ht' Hx' Ed Ev En Er Hrefs. exists b', ics', x'. split; [done|]. split; [done|]. split; try done; [lia|].
  intros d n. by rewrite Hrefs, Href.
Qed.

(** A read in the transaction. *)
Definition reading (ics2 : list inode) (fs : fstate lstate) : Prop := exists b2 : lstate, fs = FState b2 ics2 /\ tree_fs sb b2 v sf.

Lemma read_spec ics2 ip x j fs off n : opened ics2 ip x j -> d_type (dino sb v j) <> T_DEV -> reading ics2 fs -> 0 <= off < 2 ^ 32 -> 0 <= n <= PGSIZE ->
  wp fs_panic (readi sb devr ip off n) (fun r fs' => reading ics2 fs' /\ r = read_at (contents v (dino sb v j)) off n) fs.
Proof using Hready devr lay.
  intros [Ot Oi Od Ov On Or Ol _] Hty (b2 & -> & Hfs) Ho Hn. destruct (fr_files _ _ _ _ Hready j Ol Hty) as [S1 S2 S3 S4].
  assert (Hmax : MAXFILE * BSIZE < 2 ^ 31) by done. pose proof (dk_size _ S2) as Hsz0.
  assert (Hlen : zlen (contents v (dino sb v j)) = d_size (dino sb v j)) by (unfold zlen; rewrite length_contents; lia).
  destruct (tb_used _ _ _ _ _ Ot _ _ Oi Or) as [Hdev Hino].
  assert (Hst : forall b3 : lstate, tree_fs sb b3 v sf -> file_st sb b3 v sf ics2 ip x).
  { intros b3 [B1 B2 B3 B4]. rewrite On in Hino. split; rewrite ?Od, ?On; try done. constructor; try done. by apply B2. }
  eapply (readi_spec sb G fs_panic fs_panic_res devr); [by apply Hst|by rewrite Od|done|unfold PGSIZE in *; lia|rewrite Od..].
  - intros Hout. split; [by exists b2|]. unfold read_at. rewrite Hlen, (proj2 (Z.ltb_lt _ off)); [done|]. unfold PGSIZE in *. lia.
  - intros Hin _ b' Hb' k. split; [exists b'; split; [done|]; destruct Hfs; split; try done; apply Hb'|].
    unfold read_at. by rewrite Hlen, (proj2 (Z.ltb_ge _ _) Hin).
Qed.

(** Giving the file back. *)
Lemma close_spec ics2 ip x j fs : opened ics2 ip x j -> reading ics2 fs ->
  wp fs_panic (iunlockput pid sb ip) (fun _ fs' => exists (b3 : lstate) ics3, fs' = FState b3 ics3 /\ tree_fs sb b3 v sf /\ table_ok sb pid v ics3 None /\
    forall d n, refs ics3 d n = refs ics d n) fs.
Proof using devr lay.
  intros [Ot Oi Od Ov On Or Ol Href] (b2 & -> & Hfs). eapply (ns_iunlockput sb fs_panic pid); [exact Ot|exact Oi|exact Or|exact Ov|by rewrite On|by rewrite On|].
  intros ics3 Ht Hr3. exists b2, ics3. split_and!; try done. intros d n. rewrite Hr3, Href, On. unfold minus1. lia.
Qed.

Lemma exec_commit (b3 : lstate) ics3 : tree_fs sb b3 v sf -> table_ok sb pid v ics3 None -> (forall d n, refs ics3 d n = refs ics d n) ->
  wp fs_panic (onblk (end_op pid)) (fun _ fs => fs_done b v sf ics fs) (FState b3 ics3).
Proof using Hready devr lay.
  intros Hfs Ht Hr. apply wp_onblk. eapply (end_op_txn pid start size nb sb lay fs_panic b); [apply Hready|apply Hfs|].
  intros s' Htx. exists s', ics3. done.
Qed.
End transaction.
End file.
