(* ===== verification/ExecStack.v ===== *)
(** * The stack of a new program

    The guard page, the argument strings and the vector that [exec] puts on the
    stack, as bytes of user memory. *)

From S2P Require Import Prelude Params CString Kalloc Bio Log Inode Content Pipe Syscall File FileProps Vm VmUser VmCopy Proc ProcInv ProcMem Exec ExecMem ExecLoad.
Local Open Scope Z_scope.
Local Open Scope kmonad_scope.

(** ** The layout *)

(** Where a string of length [n] goes below [sp]. *)
Definition below (sp n : Z) : Z := (sp - (n + 1)) / 4 * 4.

(** The stack pointer and the addresses of the strings. *)
Fixpoint arg_addrs (sp : Z) (argv : list (list Z)) : list Z :=
  match argv with
  | [] => []
  | arg :: argv' => below sp (zlen arg) :: arg_addrs (below sp (zlen arg)) argv'
  end.
Fixpoint args_end (sp : Z) (argv : list (list Z)) : Z :=
  match argv with
  | [] => sp
  | arg :: argv' => args_end (below sp (zlen arg)) argv'
  end.
Fixpoint put_args (sp : Z) (argv : list (list Z)) (m : list Z) : list Z :=
  match argv with
  | [] => m
  | arg :: argv' => let a := below sp (zlen arg) in put_args a argv' (splice m (Z.to_nat a) (arg ++ [0]))
  end.

(** The words on top: a return address that is none, [argc], [argv], and the vector. *)
Definition ustack_words (sp : Z) (addrs : list Z) : list Z :=
  let argc := Z.of_nat (length addrs) in [0xffffffff; argc; sp - (argc + 1) * 4] ++ addrs ++ [0].

Definition stack_sp (top : Z) (argv : list (list Z)) : Z := args_end top argv - (Z.of_nat (length argv) + 4) * 4.

(** The arguments fit into the page below [top]. *)
Definition args_fit (top : Z) (argv : list (list Z)) : bool :=
  (Z.of_nat (length argv) <=? MAXARG) && (top - 4096 <=? stack_sp top argv).

Definition stack_image (top : Z) (argv : list (list Z)) (m : list Z) : list Z :=
  splice (put_args top argv m) (Z.to_nat (stack_sp top argv))
    (concat (le_bytes 4 <$> ustack_words (args_end top argv) (arg_addrs top argv))).

Lemma land_word x : 0 <= x < 2 ^ 32 -> Z.land x (u32 (Z.lnot 3)) = x / 4 * 4.
Proof.
  intros Hx. change (u32 (Z.lnot 3)) with (Z.ldiff (Z.ones 32) (Z.ones 2)). rewrite Z.ldiff_land, Z.land_assoc, Z.land_ones by lia.
  rewrite Z.mod_small, <- Z.ldiff_land, Z.ldiff_ones_r by lia. rewrite Z.shiftl_mul_pow2, Z.shiftr_div_pow2 by lia. done.
Qed.

Lemma args_end_le argv : forall sp, args_end sp argv <= sp.
Proof. induction argv as [|a argv IH]; intros sp; cbn; [lia|]. etrans; [apply IH|]. unfold below, zlen. lia. Qed.

Lemma length_addrs argv : forall sp, length (arg_addrs sp argv) = length argv.
Proof. induction argv; intros sp; cbn; [done|]. by rewrite IHargv. Qed.

Lemma bytes_ustack ws : bytes (concat (le_bytes 4 <$> ws)).
Proof. induction ws as [|x ws IH]; [constructor|]. cbn [fmap list_fmap concat]. apply Forall_app. split; [apply bytes_le_bytes|done]. Qed.

Lemma holds_flag k U m w p f f' : holds k U m -> U !! w = Some (p, f) -> holds k (<[w := (p, f')]> U) m.
Proof.
  intros [Hm H] E. split; [done|]. intros w'. destruct (decide (w' = w)) as [->|N]; [|rewrite lookup_insert_ne by done; apply H].
  rewrite lookup_insert_eq. specialize (H w). by rewrite E in H.
Qed.

Lemma owned_flag d T (U : gmap Z (Z * Z)) w p f f' a : U !! w = Some (p, f) -> owned d T (<[w := (p, f')]> U) a <-> owned d T U a.
Proof.
  intros E. unfold owned. split; (intros [?|[?|(v & g & Ev)]]; [by left|right; by left|right; right]).
  - destruct (decide (v = w)) as [->|N]; [rewrite lookup_insert_eq in Ev; injection Ev as <- <-; eauto|rewrite lookup_insert_ne in Ev by done; eauto].
  - destruct (decide (v = w)) as [->|N]; [exists w, f'; rewrite lookup_insert_eq; congruence|exists v, g; by rewrite lookup_insert_ne].
Qed.

Section stack.
Context (kend data : Z) (Hkend : KERNBASE < kend) (Hdata : data mod 4096 = 0) (Hdata_range : KERNLINK < data < KERNBASE + PHYSTOP).
Local Abbreviation kernel_entry := (kernel_entry data).

Lemma land_clear_user q : Z.land (q * 4096 + 7) (Z.lnot PTE_U) = q * 4096 + 3.
Proof.
  rewrite <- (lor_low (q * 4096) 7), Z.land_lor_distr_l by lia. rewrite <- (lor_low (q * 4096) 3) by lia. f_equal.
  apply Z.bits_inj'. intros n Hn. rewrite Z.land_spec, Z.lnot_spec by done. destruct (decide (n < 12)) as [Hlt|Hge].
  - change 4096 with (2 ^ 12). rewrite Z.mul_pow2_bits_low by done. done.
  - replace (Z.testbit PTE_U n) with false; [by rewrite andb_true_r|]. symmetry. change PTE_U with (2 ^ 2). apply Z.pow2_bits_false. lia.
Qed.

(** [clearpteu] of a user page. *)
Lemma clearpteu_spec k d T U K l v p : vm_ok kend k d T U K l -> U !! v = Some (p, 7) ->
  exists k', clearpteu d (v * 4096) k = Ret tt k' /\ vm_ok kend k' d T (<[v := (p, 3)]> U) K l /\ only (tabs d T) k k'.
Proof.
  intros V Eu. pose proof V as [A Hf Hap]. destruct (as_user _ _ _ _ _ _ A v p 7 Eu) as (Hv & Hpp & _).
  destruct (read_entry kend Hkend data k d T U K v p 7 A Eu) as (t & Ew & Ht0 & El & Hpv & _ & _ & Hpg & Et).
  unfold clearpteu. rewrite (bind_Ret _ _ _ _ _ Ew), (proj2 (Z.eqb_neq _ _) Ht0), gets_bind, El.
  destruct (valid_page_V2P kend Hkend p Hpv) as (_ & _ & _ & Hr & Hm & _). unfold PHYSTOP in Hr.
  replace (V2P p + 7) with (V2P p / 4096 * 4096 + 7) by lia. rewrite land_clear_user.
  replace (V2P p / 4096 * 4096 + 3) with (V2P p + 3) by lia. assert (Hup : UPAGES = 2 ^ 19) by done.
  destruct (set_entry kend Hkend k d T U K l (<[v := (p, 3)]> U) K v t (V2P p + 3) V ltac:(lia) Et ltac:(lia)) as (k' & Es & V' & Ho); [| | |eauto].
  - intros w Hw. unfold expected. destruct (decide (w = v)) as [->|N].
    + rewrite (proj2 (Z.ltb_lt v UPAGES)), lookup_insert_eq by lia. done.
    + by rewrite lookup_insert_ne.
  - intros w q g E N. destruct (decide (w = v)) as [->|Nw]; [|by rewrite lookup_insert_ne in E].
    rewrite lookup_insert_eq in E. injection E as <- <-. split_and!; try done; try lia.
    + intros Hl. apply (Hap p Hl). right. right. eauto.
    + intros [->|[i Hi]]; [done|]. by eapply (as_apart _ _ _ _ _ _ A).
  - assert (Hin : forall w q g, <[v:=(p, 3)]> U !! w = Some (q, g) -> exists h, U !! w = Some (q, h)).
    { intros w q g. destruct (decide (w = v)) as [->|Nw]; [rewrite lookup_insert_eq|rewrite lookup_insert_ne by done; eauto]. intros [= <- <-]. eauto. }
    intros w w' q g h [g' E]%Hin [h' E']%Hin. by eapply (as_user_inj _ _ _ _ _ _ A).
Qed.

(** The user's address of a page. *)
Lemma uva2ka_page k d T U w p f : aspace kend k d T U kernel_entry -> U !! w = Some (p, f) ->
  uva2ka d (w * 4096) k = Ret (if Z.land f PTE_U =? 0 then 0 else p) k.
Proof.
  intros A Eu. destruct (as_user _ _ _ _ _ _ A w p f Eu) as (Hw & _). assert (Hup : UPAGES = 2 ^ 19) by done.
  destruct (read_entry kend Hkend data k d T U _ w p f A Eu) as (t & _ & _ & _ & _ & _ & _ & _ & Et).
  destruct (page_index w ltac:(lia)) as (Hr & E1 & E2). rewrite (uva2ka_eq kend data Hkend Hdata_range (fun _ => True) _ _ _ _ _ A) by lia. unfold user_addr.
  rewrite E1, E2, Et. cbn [mbind option_bind]. replace (w / 1024 * 1024 + w mod 1024) with w by lia. by rewrite Eu.
Qed.

(** [copyout] within a page: it writes there, or fails if the page is not the user's. *)
Lemma copyout_page k d T U l m va b w p f : vm_ok kend k d T U kernel_entry l -> holds k U m -> U !! w = Some (p, f) ->
  w * 4096 <= va -> b <> [] -> bytes b -> va < (w + 1) * 4096 -> (Z.land f PTE_U <> 0 -> va + zlen b <= (w + 1) * 4096) ->
  exists k', copyout d va b k = Ret (if Z.land f PTE_U =? 0 then -1 else 0) k' /\ vm_ok kend k' d T U kernel_entry l /\
    holds k' U (if Z.land f PTE_U =? 0 then m else splice m (Z.to_nat va) b) /\ only (fun a => a = p) k k'.
Proof.
  intros V H Eu Hva Hne Hb Hlt Hfit. destruct b as [|x b]; [done|]. set (bb := x :: b) in *. unfold copyout.
  pose proof V as [A _ _]. destruct (as_user _ _ _ _ _ _ A w p f Eu) as (Hw & _). assert (Hup : UPAGES = 2 ^ 19) by done.
  replace (length bb + 1)%nat with (S (length bb)) by lia. cbn [copyout_loop]. cbv zeta.
  match goal with |- context [match bb with [] => ret 0 | _ :: _ => ?X end] => change (match bb with [] => ret 0 | _ :: _ => X end) with X end.
  rewrite PGROUNDDOWN_spec by lia. replace (va - va mod 4096) with (w * 4096) by lia.
  rewrite (bind_Ret _ _ _ _ _ (uva2ka_page k d T U w p f A Eu)). destruct (Z.eqb_spec (Z.land f PTE_U) 0) as [E0|N0].
  - exists k. by split_and!.
  - specialize (Hfit N0). destruct (as_owned _ _ _ _ _ _ A p) as [Hpv _]; [right; right; eauto|].
    destruct (valid_page_V2P kend Hkend p Hpv) as (_ & Hp & _). rewrite (proj2 (Z.eqb_neq p 0)) by (unfold KERNBASE in *; lia).
    rewrite modify_bind. rewrite (Z.min_r _ (Z.of_nat (length bb))) by (unfold PGSIZE, zlen in *; lia). rewrite Nat2Z.id, take_ge, drop_ge by done.
    destruct (write_user kend k d T U kernel_entry l m w p f (va - w * 4096) bb V H Eu ltac:(lia) ltac:(lia) Hb) as (V' & H' & O').
    replace (w * 4096 + (va - w * 4096)) with va in H' by lia. eexists. split; [|split_and!; [exact V'|exact H'|exact O']].
    destruct (length bb); reflexivity.
Qed.

(** A stack page above a guard page. *)
Record guarded (U : gmap Z (Z * Z)) (g : Z) : Prop := {
  gu_flags : forall w p f, U !! w = Some (p, f) -> f = if decide (w = g) then 3 else 7;
  gu_range : 0 <= g
}.

(** [copyout] into the two pages succeeds above the guard page only. *)
Lemma copyout_top d T U l g k m va b : guarded U g -> vm_ok kend k d T U kernel_entry l -> holds k U m -> zlen m = (g + 2) * 4096 ->
  g * 4096 <= va -> va + zlen b <= (g + 2) * 4096 -> 0 < zlen b -> bytes b ->
  exists k', copyout d va b k = Ret (if va <? (g + 1) * 4096 then -1 else 0) k' /\ vm_ok kend k' d T U kernel_entry l /\
    holds k' U (if va <? (g + 1) * 4096 then m else splice m (Z.to_nat va) b) /\ only (fun a => exists w f, U !! w = Some (a, f)) k k'.
Proof.
  intros G V H Hm Hva Hend Hpos Hb. pose proof (gu_range _ _ G) as Hg. set (w := va / 4096). assert (Hw : w = g \/ w = g + 1) by (unfold w; lia).
  destruct (holds_page k U m w H) as (p & f & Eu & _); [lia|]. pose proof (gu_flags _ _ G _ _ _ Eu) as Hf.
  assert (Hu : (Z.land f PTE_U =? 0) = (va <? (g + 1) * 4096)).
  { rewrite Hf. case_decide; [rewrite (proj2 (Z.ltb_lt _ _)) by lia|rewrite (proj2 (Z.ltb_ge _ _)) by lia]; done. }
  destruct (copyout_page k d T U l m va b w p f V H Eu) as (k1 & E1 & V1 & H1 & O1); [unfold w; lia| |done|unfold w; lia| |].
  - intros ->. done.
  - intros N. apply Z.eqb_neq in N. rewrite Hu in N. apply Z.ltb_ge in N. lia.
  - rewrite Hu in E1, H1. exists k1. split_and!; try done. eapply only_weaken; [|exact O1]. intros ? ->. eauto.
Qed.

Definition arg_ok (arg : list Z) : Prop := bytes arg /\ zlen arg < 4096.

(** The strings are copied out until one does not fit. *)
Lemma push_args_spec d T U l g argv : guarded U g -> Forall arg_ok argv ->
  forall k m argc sp us, vm_ok kend k d T U kernel_entry l -> holds k U m -> zlen m = (g + 2) * 4096 ->
  (g + 1) * 4096 <= sp <= (g + 2) * 4096 -> sp < 2 ^ 32 -> 0 <= argc <= MAXARG ->
  exists o k' m', push_args d argv argc sp us k = Ret o k' /\ vm_ok kend k' d T U kernel_entry l /\ holds k' U m' /\ zlen m' = zlen m /\
    only (fun a => exists w f, U !! w = Some (a, f)) k k' /\
    if (argc + Z.of_nat (length argv) <=? MAXARG) && ((g + 1) * 4096 <=? args_end sp argv)
    then o = Some (args_end sp argv, us ++ arg_addrs sp argv) /\ m' = put_args sp argv m else o = None.
Proof.
  intros G Hargs. induction Hargs as [|arg argv [Hb Hl] _ IH]; intros k m argc sp us V H Hm Hsp Hsp2 Hargc; cbn [push_args args_end arg_addrs put_args].
  { exists (Some (sp, us)), k, m. split_and!; try done. rewrite (proj2 (Z.leb_le _ _)), (proj2 (Z.leb_le _ sp)) by (cbn [length]; lia).
    cbn [andb]. by rewrite app_nil_r. }
  cbn [length]. destruct (Z.leb_spec MAXARG argc) as [Hmax|Hmax].
  { exists None, k, m. split_and!; try done. replace (argc + _ <=? MAXARG) with false by lia. done. }
  set (a := below sp (zlen arg)). pose proof (gu_range _ _ G) as Hg. assert (Ha0 : 0 <= zlen arg) by (unfold zlen; lia).
  assert (Ha : g * 4096 <= a /\ a + zlen arg + 1 <= sp) by (unfold a, below; lia).
  assert (Ew : Z.land (u32 (sp - (Z.of_nat (length arg) + 1))) (u32 (Z.lnot 3)) = a).
  { fold (zlen arg). rewrite u32_small, land_word by lia. done. }
  rewrite Ew. clear Ew. assert (Hlen : zlen (arg ++ [0]) = zlen arg + 1) by (rewrite zlen_app; done).
  destruct (copyout_top d T U l g k m a (arg ++ [0]) G V H Hm) as (k1 & E1 & V1 & H1 & O1); [lia|lia|lia| |].
  - apply Forall_app. split; [done|]. constructor; [unfold is_byte; lia|constructor].
  - rewrite (bind_Ret _ _ _ _ _ E1). pose proof (args_end_le argv a) as Hle. destruct (Z.ltb_spec a ((g + 1) * 4096)) as [Hlow|Hhigh].
    + exists None, k1, m. split_and!; try done. fold a. replace ((g + 1) * 4096 <=? args_end a argv) with false by lia. by rewrite andb_false_r.
    + cbn [Z.ltb Z.compare]. destruct (IH k1 _ (argc + 1) a (us ++ [a]) V1 H1) as (o & k' & m' & E & V' & H' & Hz & O & Hr); try lia.
      * unfold zlen in *. rewrite length_splice; lia.
      * exists o, k', m'. split_and!; try done; [unfold zlen in *; rewrite length_splice in Hz; lia|by eapply only_trans|]. fold a. cbv zeta.
        replace (argc + Z.of_nat (S (length argv))) with (argc + 1 + Z.of_nat (length argv)) by lia. rewrite <- app_assoc in Hr. done.
Qed.

(** The guard page and the stack page. *)
Lemma guard_alloc k d T U l m sz : vm_ok kend k d T U kernel_entry l -> holds k U m -> zlen m = pages_of sz * 4096 -> all_user U -> 0 <= sz ->
  let g := pages_of sz in (g + 2) * 4096 < KERNBASE ->
  exists r k' T' U' l', allocuvm kend d (g * 4096) ((g + 2) * 4096) k = Ret r k' /\ vm_ok kend k' d T' U' kernel_entry l' /\ conserves d T U l T' U' l' /\
    only (fun a => owned d T U a \/ a ∈ l) k k' /\
    ((r = (g + 2) * 4096 /\ holds k' U' (m ++ zpad 8192) /\ all_user U') \/ (r = 0 /\ spent d T U l (g + 2))).
Proof.
  intros V H Hm Hall Hsz g Hg. unfold KERNBASE in Hg. assert (Hg0 : 0 <= g) by (unfold g, pages_of; lia).
  assert (E1 : pages_of (g * 4096) = g) by (unfold pages_of; lia). assert (E2 : pages_of ((g + 2) * 4096) = g + 2) by (unfold pages_of; lia).
  destruct (alloc_holds kend Hkend k d T U kernel_entry l m (g * 4096) ((g + 2) * 4096) V H) as (r & k' & T' & U' & l' & E & V' & Hc & Ho & Hr);
    [by rewrite E1|lia|unfold KERNBASE; lia|].
  exists r, k', T', U', l'. split_and!; try done. rewrite E1, E2 in Hr. destruct Hr as [(-> & H' & Hf)|(-> & -> & _ & Hu)]; [left|right].
  - split_and!; try done; [by replace ((g + 2 - g) * 4096) with 8192 in H' by lia|]. intros w p f Ew. apply Hf in Ew. case_decide; [done|by eapply Hall].
  - split; [done|]. eapply (used_up_spent d T U l g); [exact H|done|lia|done].
Qed.

Lemma exec_stack_spec k d T U l m sz argv : vm_ok kend k d T U kernel_entry l -> holds k U m -> zlen m = pages_of sz * 4096 -> all_user U ->
  0 <= sz < KERNBASE -> Forall arg_ok argv ->
  let g := pages_of sz in let top := (g + 2) * 4096 in
  exists o k' T' U' l', exec_stack kend d sz argv k = Ret o k' /\ vm_ok kend k' d T' U' kernel_entry l' /\ conserves d T U l T' U' l' /\
    only (fun a => owned d T U a \/ a ∈ l) k k' /\
    if (top <? KERNBASE) && args_fit top argv
    then (o = Some (top, stack_sp top argv) /\ holds k' U' (stack_image top argv (m ++ zpad 8192)) /\ guarded U' g) \/ (o = None /\ spent d T U l (g + 2))
    else o = None.
Proof.
  intros V H Hm Hall Hsz Hargs g top. assert (Hg0 : 0 <= g) by (unfold g, pages_of; lia). assert (Hgm : g <= 2 ^ 19) by (unfold g, pages_of, KERNBASE in *; lia).
  unfold exec_stack. rewrite PGROUNDUP_spec by (unfold KERNBASE in Hsz; lia). fold (pages_of sz). fold g.
  rewrite u32_small by (unfold PGSIZE; lia). replace (g * 4096 + 2 * PGSIZE) with top by (unfold top, PGSIZE; lia).
  destruct (Z.ltb_spec top KERNBASE) as [Htop|Htop]; cbn [andb].
  2: { exists None, k, T, U, l. split_and!; try done. unfold allocuvm. by rewrite (proj2 (Z.leb_le _ _) Htop). }
  destruct (guard_alloc k d T U l m sz V H Hm Hall ltac:(lia) Htop) as (r & k1 & T1 & U1 & l1 & E1 & V1 & Hc1 & Ho1 & Hr).
  fold g in E1, Hr. fold top in E1, Hr. cbv zeta. rewrite (bind_Ret _ _ _ _ _ E1). destruct Hr as [(-> & H1 & Hall1)|(-> & Hs)].
  2: { exists None, k1, T1, U1, l1. split_and!; try done. destruct (args_fit top argv); [by right|done]. }
  assert (Htop0 : 8192 <= top) by (unfold top; lia). rewrite (proj2 (Z.eqb_neq top 0)) by lia. unfold KERNBASE in Htop.
  assert (Hm1 : zlen (m ++ zpad 8192) = top) by (rewrite zlen_app, zlen_pad, Hm by lia; fold g; unfold top; lia).
  destruct (holds_page k1 U1 _ g H1) as (pg & f & Eg & _); [lia|]. rewrite (Hall1 _ _ _ Eg) in Eg.
  rewrite u32_small by (unfold PGSIZE; lia). replace (top - 2 * PGSIZE) with (g * 4096) by (unfold top, PGSIZE; lia).
  destruct (clearpteu_spec k1 d T1 U1 kernel_entry l1 g pg V1 Eg) as (k2 & E2 & V2 & O2). rewrite (bind_Ret _ _ _ _ _ E2).
  set (U2 := <[g := (pg, 3)]> U1) in *. assert (Hown2 : forall a, owned d T1 U2 a <-> owned d T1 U1 a) by (intros a; by eapply owned_flag).
  assert (H2 : holds k2 U2 (m ++ zpad 8192)).
  { eapply holds_flag; [|exact Eg]. eapply holds_frame; [|exact H1]. intros w p h Ew. apply O2.
    intros [->|[i Hi]]; [by apply (as_user _ _ _ _ _ _ (vo_space _ _ _ _ _ _ _ V1)) in Ew as (_ & ? & _)|].
    by eapply (as_apart _ _ _ _ _ _ (vo_space _ _ _ _ _ _ _ V1)). }
  assert (G2 : guarded U2 g).
  { split; [|done]. intros w p h. unfold U2. destruct (decide (w = g)) as [->|N]; [rewrite lookup_insert_eq; by intros [= <- <-]|].
    rewrite lookup_insert_ne by done. apply Hall1. }
  destruct (push_args_spec d T1 U2 l1 g argv G2 Hargs k2 _ 0 top [] V2 H2 Hm1 ltac:(unfold top; lia) ltac:(lia) ltac:(unfold MAXARG; lia))
    as (o & k3 & m3 & E3 & V3 & H3 & Hz3 & O3 & Hr3). rewrite (bind_Ret _ _ _ _ _ E3).
  assert (Hc3 : conserves d T U l T1 U2 l1) by (intros a; rewrite Hown2; apply Hc1).
  assert (Ho3 : only (fun a => owned d T U a \/ a ∈ l) k k3).
  { eapply only_trans; [exact Ho1|]. eapply only_trans; eapply only_weaken; [|exact O2| |exact O3]; intros a Ha; apply (Hc1 a); left.
    - destruct Ha as [->|Ha]; [by left|right; by left].
    - apply Hown2. right. by right. }
  unfold args_fit, stack_sp. destruct (_ && _) eqn:Efit in Hr3.
  2: { subst o. exists None, k3, T1, U2, l1. split_and!; try done. replace (_ && _) with false by lia. done. }
  destruct Hr3 as [-> ->]. cbn [app]. rewrite length_addrs. set (n := Z.of_nat (length argv)) in *. set (sp := args_end top argv) in *.
  apply andb_true_iff in Efit as [Hn%Z.leb_le Hsp%Z.leb_le]. unfold MAXARG in *. rewrite (proj2 (Z.leb_le n 32)) by lia. cbn [andb].
  assert (Hsp2 : sp <= top) by apply args_end_le. assert (Hn0 : 0 <= n) by lia. cbv zeta.
  rewrite !u32_small by lia. set (ws := concat _). assert (Ews : ws = concat (le_bytes 4 <$> ustack_words sp (arg_addrs top argv))).
  { unfold ws, ustack_words. rewrite length_addrs. done. }
  assert (Hws : zlen ws = (n + 4) * 4) by (rewrite Ews; unfold zlen; rewrite length_words; unfold ustack_words; rewrite !length_app, length_addrs; cbn [length]; lia).
  replace (3 + n + 1) with (n + 4) by lia. set (va := sp - (n + 4) * 4) in *.
  destruct (copyout_top d T1 U2 l1 g k3 _ va ws G2 V3 H3) as (k4 & E4 & V4 & H4 & O4); try (rewrite ?Hz3, ?Hws; unfold va, top in *; lia).
  { rewrite Ews. apply bytes_ustack. }
  rewrite (bind_Ret _ _ _ _ _ E4). replace (va <? (g + 1) * 4096) with (negb (top - 4096 <=? va)) in * by (unfold top; lia).
  assert (O4' : only (fun a => owned d T U a \/ a ∈ l) k k4).
  { eapply only_trans; [exact Ho3|]. eapply only_weaken; [|exact O4]. intros a Ha. apply (Hc3 a). left. right. by right. }
  destruct (top - 4096 <=? va); cbn [negb Z.ltb Z.compare].
  - exists (Some (top, va)), k4, T1, U2, l1. split_and!; try done. left. split_and!; try done. unfold stack_image, stack_sp. fold sp n. rewrite <- Ews. exact H4.
  - exists None, k4, T1, U2, l1. split_and!; done.
Qed.
End stack.
