(* ===== verification/ExecArgs.v ===== *)
(** * The arguments of a new program

    What the program finds through [argc] and [argv] in the memory of
    [ExecStack.stack_image]. *)

From S2P Require Import Prelude Params CString Kalloc Inode Vm VmUser VmCopy Proc Exec ExecMem ExecLoad ExecStack.
Local Open Scope Z_scope.

(** The word and the string at an address. *)
Definition word_at (m : list Z) (a : Z) : Z := le_val (sub m (Z.to_nat a) 4).
Definition string_at (m : list Z) (a : Z) (s : list Z) : Prop := sub m (Z.to_nat a) (S (length s)) = s ++ [0].

(** A slice away from what is written. *)
Lemma sub_splice_apart m i b j n : 0 <= i -> i + zlen b <= zlen m -> 0 <= j -> (j + Z.of_nat n <= i \/ i + zlen b <= j) ->
  sub (splice m (Z.to_nat i) b) (Z.to_nat j) n = sub m (Z.to_nat j) n.
Proof. unfold zlen. intros. apply sub_splice_ne; lia. Qed.

Lemma zlen_splice m i b : 0 <= i -> i + zlen b <= zlen m -> zlen (splice m (Z.to_nat i) b) = zlen m.
Proof. unfold zlen. intros. rewrite length_splice; lia. Qed.

(** *** The strings *)

(** The next string lies below the last one. *)
Lemma below_spec sp s : let a := below sp (zlen s) in a + zlen (s ++ [0]) <= sp /\ a mod 4 = 0.
Proof. cbv zeta. rewrite zlen_app. change (zlen [0]) with 1. unfold below. lia. Qed.

Lemma zlen_put argv : forall sp m, 0 <= args_end sp argv -> sp <= zlen m -> zlen (put_args sp argv m) = zlen m.
Proof.
  induction argv as [|s argv IH]; intros sp m H0 Hm; [done|]. cbn [put_args args_end] in *. destruct (below_spec sp s) as [Ha _].
  pose proof (args_end_le argv (below sp (zlen s))) as Hle. assert (0 <= zlen (s ++ [0])) by (unfold zlen; lia). cbv zeta.
  rewrite IH; rewrite ?zlen_splice; try done; lia.
Qed.

(** Nothing is written outside the strings. *)
Lemma put_args_apart argv : forall sp m j n, 0 <= args_end sp argv -> sp <= zlen m -> 0 <= j -> (j + Z.of_nat n <= args_end sp argv \/ sp <= j) ->
  sub (put_args sp argv m) (Z.to_nat j) n = sub m (Z.to_nat j) n.
Proof.
  induction argv as [|s argv IH]; intros sp m j n H0 Hm Hj Hap; [done|]. cbn [put_args args_end] in *. destruct (below_spec sp s) as [Ha _].
  pose proof (args_end_le argv (below sp (zlen s))) as Hle. cbv zeta. assert (0 <= zlen (s ++ [0])) by (unfold zlen; lia).
  rewrite IH; [|done|rewrite zlen_splice; lia|done|lia]. apply sub_splice_apart; lia.
Qed.

Lemma put_args_string argv : forall sp m i s, 0 <= args_end sp argv -> sp <= zlen m -> argv !! i = Some s ->
  exists a, arg_addrs sp argv !! i = Some a /\ string_at (put_args sp argv m) a s /\ args_end sp argv <= a /\ a + zlen s + 1 <= sp.
Proof.
  induction argv as [|s argv IH]; intros sp m i x H0 Hm Hi; [done|]. cbn [put_args args_end arg_addrs] in *. destruct (below_spec sp s) as [Ha _].
  pose proof (args_end_le argv (below sp (zlen s))) as Hle. rewrite zlen_app in Ha. change (zlen [0]) with 1 in Ha. set (a := below sp (zlen s)) in *.
  assert (0 <= zlen s) by (unfold zlen; lia). cbv zeta. destruct i as [|i]; cbn in Hi |- *.
  - injection Hi as <-. exists a. split; [done|]. split; [|lia]. unfold string_at. rewrite put_args_apart; [|done| |lia|by right].
    + replace (S (length s)) with (length (s ++ [0])) by (rewrite length_app; cbn; lia). apply sub_splice_eq. rewrite length_app. cbn. unfold zlen in *. lia.
    + rewrite zlen_splice; [lia|lia|]. rewrite zlen_app. change (zlen [0]) with 1. lia.
  - destruct (IH a (splice m (Z.to_nat a) (s ++ [0])) i x H0) as (b & Eb & Hb & H1 & H2); [|done|exists b; split_and!; try done; lia].
    rewrite zlen_splice; [lia|lia|]. rewrite zlen_app. change (zlen [0]) with 1. lia.
Qed.

Lemma args_end_mod argv : forall sp, sp mod 4 = 0 -> args_end sp argv mod 4 = 0.
Proof. induction argv as [|s argv IH]; intros sp H; [done|]. cbn. apply IH. apply below_spec. Qed.

(** *** The words *)

Lemma word_at_words m a ws i w : 0 <= a -> a + 4 * Z.of_nat (length ws) <= zlen m -> ws !! i = Some w -> 0 <= w < 2 ^ 32 ->
  word_at (splice m (Z.to_nat a) (concat (le_bytes 4 <$> ws))) (a + 4 * Z.of_nat i) = w.
Proof.
  intros Ha Hm Hi Hw. pose proof (lookup_lt_Some _ _ _ Hi) as Hlt. unfold word_at. apply take_drop_middle in Hi. rewrite <- Hi.
  rewrite fmap_app, concat_app. cbn [fmap list_fmap concat]. set (x := concat (le_bytes 4 <$> take i ws)). set (y := concat (le_bytes 4 <$> drop (S i) ws)).
  assert (Hx : length x = (4 * i)%nat) by (unfold x; rewrite length_words, length_take; lia).
  assert (Hy : length y = (4 * (length ws - S i))%nat) by (unfold y; rewrite length_words, length_drop; lia). unfold zlen in Hm.
  rewrite <- splice_splice by lia. rewrite <- splice_splice by (rewrite length_splice; lia). rewrite length_le_bytes.
  rewrite sub_splice_ne; [|rewrite !length_splice, Hx, Hy; rewrite ?length_le_bytes, ?length_splice, ?Hx; lia|left; lia].
  replace (Z.to_nat (a + 4 * Z.of_nat i)) with (Z.to_nat a + length x)%nat by lia.
  rewrite <- (length_le_bytes 4 w) at 2. rewrite sub_splice_eq by (rewrite length_splice, length_le_bytes; lia).
  rewrite le_val_bytes. apply Z.mod_small. done.
Qed.

Lemma string_at_apart m a ws x s : 0 <= a -> a + zlen ws <= zlen m -> a + zlen ws <= x -> string_at m x s -> string_at (splice m (Z.to_nat a) ws) x s.
Proof. intros. unfold string_at. rewrite sub_splice_apart; [done|done|done| |by right]. unfold zlen in *. lia. Qed.

Lemma zlen_ustack sp argv top : zlen (concat (le_bytes 4 <$> ustack_words sp (arg_addrs top argv))) = (Z.of_nat (length argv) + 4) * 4.
Proof. unfold zlen, ustack_words. rewrite length_words, !length_app, length_addrs. cbn [length]. lia. Qed.

Lemma zlen_stack_image top argv m : args_fit top argv = true -> 4096 <= top -> zlen m = top -> zlen (stack_image top argv m) = top.
Proof.
  intros [_ Hsp%Z.leb_le]%andb_true_iff Htop Hm. pose proof (args_end_le argv top). unfold stack_image, stack_sp in *.
  rewrite zlen_splice; rewrite ?zlen_ustack, ?zlen_put; lia.
Qed.

(** What [main(argc, argv)] finds when it starts with the stack pointer [sp]:
    [argc], and a pointer to a vector of [argc] pointers and a null pointer; the
    [i]-th points to the [i]-th argument with its NUL. *)
Record arguments_at (M : list Z) (sp : Z) (argv : list (list Z)) : Prop := {
  aa_aligned : sp mod 4 = 0;
  aa_argc : word_at M (sp + 4) = Z.of_nat (length argv);
  aa_argv : word_at M (sp + 8) = sp + 12;
  aa_strings i s : argv !! i = Some s -> string_at M (word_at M (sp + 12 + 4 * Z.of_nat i)) s;
  aa_null : word_at M (sp + 12 + 4 * Z.of_nat (length argv)) = 0
}.

Lemma stack_arguments top argv m : args_fit top argv = true -> top mod 4096 = 0 -> 4096 <= top < KERNBASE -> zlen m = top ->
  let M := stack_image top argv m in let sp := stack_sp top argv in
  arguments_at M sp argv /\ top - 4096 <= sp < top /\ zlen M = top /\ sub M 0 (Z.to_nat (top - 4096)) = sub m 0 (Z.to_nat (top - 4096)).
Proof.
  intros Hfit Hal Htop Hm M sp. set (argc := Z.of_nat (length argv)). unfold args_fit in Hfit. apply andb_true_iff in Hfit as [Hn%Z.leb_le Hsp%Z.leb_le]. fold argc in Hn. fold sp in Hsp.
  unfold KERNBASE, MAXARG in *. set (e := args_end top argv). assert (He : e <= top) by apply args_end_le. assert (Hsp_e : sp = e - (argc + 4) * 4) by done.
  assert (Hargc : 0 <= argc) by (unfold argc; lia). assert (Hem : e mod 4 = 0) by (apply args_end_mod; lia).
  set (ws := ustack_words e (arg_addrs top argv)). assert (Hws : length ws = (4 + length argv)%nat).
  { unfold ws, ustack_words. rewrite !length_app, length_addrs. cbn. lia. }
  set (P := put_args top argv m). assert (HP : zlen P = top) by (unfold P; rewrite zlen_put; lia).
  assert (HM : M = splice P (Z.to_nat sp) (concat (le_bytes 4 <$> ws))) by done.
  assert (Hzw : zlen (concat (le_bytes 4 <$> ws)) = (argc + 4) * 4) by apply zlen_ustack.
  assert (Hword : forall i w, ws !! i = Some w -> 0 <= w < 2 ^ 32 -> word_at M (sp + 4 * Z.of_nat i) = w).
  { intros i w Hi Hw. rewrite HM. apply word_at_words; [lia| |done|done]. rewrite Hws. lia. }
  split_and!; [split; [lia|..]|lia|lia| |].
  - apply (Hword 1%nat); [|lia]. unfold ws, ustack_words. by rewrite length_addrs.
  - replace (sp + 12) with (e - (argc + 1) * 4) by lia. apply (Hword 2%nat); [|lia]. unfold ws, ustack_words. by rewrite length_addrs.
  - intros i s Hi. destruct (put_args_string argv top m i s ltac:(fold e; lia) ltac:(lia) Hi) as (a & Ea & Hs & H1 & H2). fold e in H1.
    assert (0 <= zlen s) by (unfold zlen; lia).
    replace (sp + 12 + 4 * Z.of_nat i) with (sp + 4 * Z.of_nat (3 + i)) by lia. rewrite (Hword (3 + i)%nat a); [| |lia].
    + rewrite HM. apply string_at_apart; [lia|lia|lia|done].
    + unfold ws, ustack_words. rewrite lookup_app_r by (cbn; lia). cbn [length]. replace (3 + i - 3)%nat with i by lia. by rewrite lookup_app_l by (by eapply lookup_lt_Some).
  - fold argc. replace (sp + 12 + 4 * argc) with (sp + 4 * Z.of_nat (3 + length argv)) by lia. apply Hword; [|lia].
    unfold ws, ustack_words. rewrite lookup_app_r by (cbn; lia). rewrite lookup_app_r by (rewrite length_addrs; cbn; lia). cbn [length]. rewrite length_addrs.
    by replace (3 + length argv - 3 - length argv)%nat with 0%nat by lia.
  - rewrite HM, zlen_splice; lia.
  - change 0%nat with (Z.to_nat 0). rewrite HM, sub_splice_apart by lia. unfold P. apply put_args_apart; [lia|lia|lia|]. fold e. lia.
Qed.

Section stack.
Context (kend data : Z) (Hkend : KERNBASE < kend) (Hdata : data mod 4096 = 0) (Hdata_range : KERNLINK < data < KERNBASE + PHYSTOP).

(** C26: the stack of a new program.  On an address space with the program [m]
    of [sz] bytes in it, the part of [exec] that makes the stack returns, and if
    the stack fits below the kernel and the arguments into a page it succeeds
    unless there are too few free pages.  Then the memory of the program is
    below a guard page, which it cannot use, and a stack page, in which
    [main(argc, argv)] finds the arguments. *)
Theorem exec_arguments k d T U l m sz argv : vm_ok kend k d T U (kernel_entry data) l -> holds k U m -> zlen m = pages_of sz * 4096 -> all_user U ->
  0 <= sz < KERNBASE -> Forall arg_ok argv -> let top := (pages_of sz + 2) * 4096 in
  exists o k', exec_stack kend d sz argv k = Ret o k' /\
    match o with
    | None => top < KERNBASE -> args_fit top argv = true -> Z.of_nat (length l) <= 1028 + pages_of sz
    | Some (sz', sp) => sz' = top /\ top - 4096 <= sp < top /\ exists T' U' l' M,
        vm_ok kend k' d T' U' (kernel_entry data) l' /\ conserves d T U l T' U' l' /\ holds k' U' M /\ zlen M = top /\ guarded U' (pages_of sz) /\
        arguments_at M sp argv /\ take (length m) M = m
    end.
Proof using Hkend Hdata_range.
  intros V H Hm Hall Hsz Hargs top.
  destruct (exec_stack_spec kend data Hkend Hdata_range k d T U l m sz argv V H Hm Hall Hsz Hargs) as (o & k' & T' & U' & l' & E & V' & Hc & _ & Hr).
  fold top in Hr. exists o, k'. split; [done|]. assert (Hg : 0 <= pages_of sz) by (unfold pages_of; lia).
  destruct ((top <? KERNBASE) && args_fit top argv) eqn:Hfit.
  - apply andb_true_iff in Hfit as [Htop%Z.ltb_lt Hfit]. destruct Hr as [(-> & H' & G')|[-> Hs]].
    + assert (Hz : zlen (m ++ zpad 8192) = top) by (rewrite zlen_app, zlen_pad, Hm by lia; unfold top; lia).
      destruct (stack_arguments top argv (m ++ zpad 8192) Hfit ltac:(unfold top; lia) ltac:(unfold top; lia) Hz) as (Ha & Hsp & HM & Hsub).
      split; [done|]. split; [done|]. eexists T', U', l', _. split_and!; try done. apply (f_equal (take (length m))) in Hsub. unfold sub in Hsub.
      rewrite !drop_0, !take_take, !Nat.min_l in Hsub by (unfold zlen, top in *; lia). by rewrite Hsub, take_app_length.
    + intros _ _. assert (Hle : Z.of_nat (length l) <= 1026 + (pages_of sz + 2)); [|lia].
      eapply spent_length; [apply (vo_free _ _ _ _ _ _ _ V)| |lia|exact Hs]. by right.
  - rewrite Hr. intros Htop Hf. rewrite Hf, (proj2 (Z.ltb_lt _ _) Htop) in Hfit. done.
Qed.
End stack.
