(* ===== verification/ExecProps.v ===== *)
(** * What [exec] does

    The new image, the memory of the other processes, and the file system
    after [exec], on every path through it. *)

From S2P Require Import Prelude Params CString Locks Kalloc Bio Log Crash Block Balloc Inode Bmap Content Dir Icache Path Namei Pipe Syscall File FileProps Vm VmUser VmCopy Proc ProcInv ProcSys ProcMem Exec ExecMem ExecLoad ExecFs ExecStack ExecArgs.
Local Open Scope Z_scope.
Local Open Scope kmonad_scope.

(** The size of an image. *)
Lemma image_size k U m sz : holds k U m -> zlen m = (pages_of sz + 2) * 4096 -> 0 <= sz -> (pages_of sz + 2) * 4096 < KERNBASE ->
  size_ok ((pages_of sz + 2) * 4096) U.
Proof.
  intros [_ H] Hm Hsz Ht. assert (Hg : 0 <= pages_of sz) by (unfold pages_of; lia). set (g := pages_of sz) in *. clearbody g.
  assert (Ep : pages_of ((g + 2) * 4096) = g + 2) by (unfold pages_of; lia). unfold size_ok. rewrite Ep.
  split; [lia|]. split; [|left]; intros w; specialize (H w); rewrite Hm in H.
  - intros [q f] Ew. rewrite Ew in H. lia.
  - intros Hw. destruct (U !! w); [done|]. lia.
Qed.

(** The index of the page of an address. *)
Lemma va_page va : 0 <= va < 2 ^ 32 -> PDX va * 1024 + PTX va = va / 4096 /\ PDX va = va / 4096 / 1024.
Proof. intros H. rewrite PDX_spec, PTX_spec by done. lia. Qed.

Section memory.
Context (kend data : Z) (Hkend : KERNBASE < kend) (Hdata : data mod 4096 = 0) (Hdata_range : KERNLINK < data < KERNBASE + PHYSTOP).
Context (all : Z -> Prop).
Local Abbreviation kernel_entry := (kernel_entry data).

(** What a program sees of an image with a guard page. *)
Lemma user_byte_image k d T U m g va : aspace kend k d T U kernel_entry -> holds k U m -> guarded U g -> 0 <= va < 2 ^ 32 ->
  user_byte k d va = if va / 4096 =? g then None else m !! Z.to_nat va.
Proof.
  intros A [Hm H] G Hva. unfold user_byte. rewrite (uva2ka_eq kend data Hkend Hdata_range all _ _ _ _ _ A Hva). unfold user_addr.
  destruct (va_page va Hva) as [-> ->]. set (w := va / 4096). specialize (H w).
  assert (Hnone : w < 0 \/ zlen m / 4096 <= w -> m !! Z.to_nat va = None) by (clear -Hm Hva; intros Hw; apply lookup_ge_None; unfold zlen, w in *; lia).
  destruct (U !! w) as [[p f]|] eqn:Eu.
  - destruct (read_entry kend Hkend data k d T U _ w p f A Eu) as (t & _ & _ & _ & Hpv & _ & _ & _ & ->). cbn [mbind option_bind].
    destruct H as [Hw Hpg]. rewrite (gu_flags _ _ G _ _ _ Eu). case_decide as Dw; [by rewrite (proj2 (Z.eqb_eq _ _) Dw)|].
    rewrite (proj2 (Z.eqb_neq _ _) Dw). change (Z.land 7 PTE_U =? 0) with false. cbv iota.
    destruct (valid_page_V2P kend Hkend p Hpv) as (_ & Hp & _). rewrite (proj2 (Z.eqb_neq p 0)) by (unfold KERNBASE in *; lia).
    rewrite Hpg. unfold PGSIZE. clear -Hva. rewrite lookup_sub by lia. f_equal. unfold w. lia.
  - rewrite (Hnone H). destruct (T !! (w / 1024)); cbn; by destruct (w =? g).
Qed.

(** A call that gives every page back. *)
Lemma mem_given_back k P pp l G k' l' : mem_inv kend data all k P pp l G -> free_pages kend k' l' -> (forall a, a ∈ l' <-> a ∈ l) -> only (fun w => w ∈ l) k k' ->
  mem_inv kend data all k' P pp l' G.
Proof.
  intros I Hf Hl Ho. eapply (mem_pipe kend data Hdata_range); [exact I|exact Hf| | |].
  - intros a. by rewrite Hl.
  - intros a Ha. rewrite Hl. by apply (mi_pipe _ _ _ _ _ _ _ _ I).
  - eapply only_weaken; [|exact Ho]. tauto.
Qed.

(** The new address space takes the place of the old one. *)
Lemma mem_exec k P pp l G i T0 U0 k1 d T U l1 x : mem_inv kend data all k P pp l G -> G i = Some (T0, U0) ->
  vm_ok kend k1 d T U kernel_entry l1 -> (forall a, owned d T U a \/ a ∈ l1 <-> a ∈ l) -> only (fun w => w ∈ l) k k1 ->
  p_pgdir x = d -> size_ok (p_sz x) U -> p_kstack x = p_kstack (P i) ->
  exists k2 l2, freevm kend (p_pgdir (P i)) k1 = Ret tt k2 /\ mem_inv kend data all k2 (put i x P) pp l2 (put i (Some (T, U)) G) /\
    only (fun w => foot (P i) (G i) w \/ w ∈ l) k k2 /\ forall a, owned d T U a -> pages k2 !! a = pages k1 !! a.
Proof.
  intros I Gi V Hl Ho Ed Hsz Eks. pose proof V as [A Hf Hap].
  assert (Hfoot : forall a, owned (p_pgdir (P i)) T0 U0 a \/ a = p_kstack (P i) -> a ∉ l).
  { intros a Ha. assert (Hx : foot (P i) (G i) a) by (rewrite Gi; cbn; tauto). by apply (mi_foot _ _ _ _ _ _ _ _ I) in Hx as [? _]. }
  pose proof (mi_space _ _ _ _ _ _ _ _ I i) as Hs. rewrite Gi in Hs. destruct Hs as (A0 & _ & Hkv & Hko).
  assert (V0 : vm_ok kend k1 (p_pgdir (P i)) T0 U0 kernel_entry l1).
  { split; [eapply aspace_frame; [|exact A0]; intros a Ha; apply Ho, Hfoot; by left|done|].
    intros a Ha Hown. apply (Hfoot a); [by left|]. apply Hl. by right. }
  destruct (freevm_spec kend Hkend k1 _ T0 U0 kernel_entry l1 V0) as (k2 & l2 & E & Hf2 & Hl2 & Ho2). exists k2, l2.
  assert (Honly : only (fun w => foot (P i) (G i) w \/ w ∈ l) k k2).
  { intros w Hw. rewrite Gi in Hw. cbn in Hw. rewrite Ho2, Ho by tauto. done. }
  assert (Hkeep : forall a, owned d T U a -> pages k2 !! a = pages k1 !! a).
  { intros a Ha. apply Ho2. intros Hown. apply (Hfoot a); [by left|]. apply Hl. by left. }
  split_and!; try done. eapply (mem_replace kend data Hdata_range); [exact I|exact Hf2| | | |exact Honly].
  - cbn. rewrite Ed, Eks. split_and!; try done; try apply Hsz; [by eapply aspace_frame|]. intros Hx. apply (Hfoot (p_kstack (P i))); [by right|].
    apply Hl. by left.
  - intros a. rewrite Gi. cbn. rewrite Ed, Eks, Hl2. specialize (Hl a). tauto.
  - cbn. rewrite Ed, Eks. intros a Ha. rewrite Hl2. intros [Hin|Hown].
    + destruct Ha as [->|Ha]; [|by apply (Hap a)]. apply (Hfoot (p_kstack (P i))); [by right|]. apply Hl. by right.
    + destruct Ha as [->|Ha]; [done|]. apply (Hfoot a); [by left|]. apply Hl. by left.
Qed.
End memory.

(** ** [exec] *)

Section exec.
Context (start size nb : Z) (sb : superblock) (lay : layout start size nb sb).
Context (kend data : Z) (Hkend : KERNBASE < kend) (Hdata : data mod 4096 = 0) (Hdata_range : KERNLINK < data < KERNBASE + PHYSTOP).
Context (all : Z -> Prop) (devr : Z -> option (nat -> Z -> M (fstate lstate) (Z * list Z))).
Local Abbreviation kernel_entry := (kernel_entry data).
Local Abbreviation mem_inv := (mem_inv kend data all).
Local Abbreviation mem_at := (mem_at kend data all).

(** The program that a path stands for: its entry point, size and memory. *)
Definition program (v : Z -> list Z) (i : Z) (path : list Z) : option (Z * Z * list Z) :=
  '(j, _) ← resolve sb false v i (components path); load_image (contents v (dino sb v j)).

Definition top_of (sz : Z) : Z := (pages_of sz + 2) * 4096.

(** The process as [exec] leaves it, with the page directory [d]. *)
Definition new_proc (path : list Z) (argv : list (list Z)) (entry sz d : Z) (p : proc) : proc :=
  with_tf (tf_start entry (stack_sp (top_of sz) argv) (p_tf p)) (with_space (top_of sz) d (copy_name (last_elem path path) p)).

(** The process runs the program: it sees the program's memory and above it,
    over a guard page, its stack with the arguments. *)
Definition started (k : kern) (cur : nat) (path : list Z) (argv : list (list Z)) (entry sz : Z) (m : list Z) (k' : kern) : Prop :=
  exists d, (forall j, getproc j k' = put cur (new_proc path argv entry sz d (getproc cur k)) (procs_of k) j) /\
    forall va, 0 <= va < 2 ^ 32 -> user_byte (mem k') d va =
      if va / 4096 =? pages_of sz then None else stack_image (top_of sz) argv (m ++ zpad 8192) !! Z.to_nat va.

(** The process is as before. *)
Definition unchanged (k : kern) (cur : nat) (k' : kern) : Prop :=
  ptable k' = ptable k /\
  forall va, 0 <= va < 2 ^ 32 -> user_byte (mem k') (p_pgdir (getproc cur k)) va = user_byte (mem k) (p_pgdir (getproc cur k)) va.

(** A program that can be run with these arguments. *)
Definition runnable (sz : Z) (argv : list (list Z)) : Prop := top_of sz < KERNBASE /\ args_fit (top_of sz) argv = true.

Definition exec_post (k : kern) (pc : nat -> kpc) (cur : nat) (path : list Z) (argv : list (list Z)) (prog : option (Z * Z * list Z))
    (l : list Z) (G : nat -> option (gmap Z Z * gmap Z (Z * Z))) (r : Z) (k' : kern) : Prop :=
  (exists l' G', mem_at (Sys k' pc) l' G' /\ frame (Some cur) k k' G) /\
  ((r = 0 /\ exists entry sz m, prog = Some (entry, sz, m) /\ runnable sz argv /\ started k cur path argv entry sz m k') \/
   (r = -1 /\ unchanged k cur k' /\
    forall entry sz m, prog = Some (entry, sz, m) -> runnable sz argv -> Z.of_nat (length l) <= 1028 + pages_of sz)).

Section call.
Context (k : kern) (pc : nat -> kpc) (cur : nat) (l : list Z) (G : nat -> option (gmap Z Z * gmap Z (Z * Z))).
Context (Hrun : p_state (getproc cur k) = RUNNING) (Hmem : mem_at (Sys k pc) l G).

(** A return before the new image is in place. *)
Lemma exec_fails path argv prog fs' km' l' : free_pages kend km' l' -> (forall a, a ∈ l' <-> a ∈ l) -> only (fun w => w ∈ l) (mem k) km' ->
  (forall entry sz m, prog = Some (entry, sz, m) -> runnable sz argv -> Z.of_nat (length l) <= 1028 + pages_of sz) ->
  exec_post k pc cur path argv prog l G (-1) (with_fm k fs' km').
Proof.
  intros Hf Hl Ho Hp. destruct Hmem as [I D]. cbn [kn pcs] in I, D.
  assert (Hkeep : forall j a, foot (procs_of k j) (G j) a -> pages km' !! a = pages (mem k) !! a).
  { intros j a Ha. apply Ho. by apply (mi_foot _ _ _ _ _ _ _ _ I) in Ha as [? _]. }
  split.
  - exists l', G. split; [split; [|exact D]; eapply (mem_given_back kend data); done|]. intros j _ _ _. split; [done|]. intros a. apply Hkeep.
  - right. split; [done|]. split; [|done]. split; [done|]. intros va Hva.
    assert (is_Some (G cur)) as [[T U] Gc] by (apply D; left; unfold spaced, procs_of; tauto).
    pose proof (mi_space _ _ _ _ _ _ _ _ I cur) as Hs. rewrite Gc in Hs. destruct Hs as (A & _).
    apply (user_byte_frame kend data Hkend Hdata_range all _ _ _ T U va A Hva). intros a Ha. apply (Hkeep cur). rewrite Gc. by right.
Qed.

(** The new image in place of the old one. *)
Lemma exec_commits path argv entry sz m fs' km d T U l2 : vm_ok kend km d T U kernel_entry l2 -> holds km U (stack_image (top_of sz) argv (m ++ zpad 8192)) ->
  guarded U (pages_of sz) -> runnable sz argv -> 0 <= sz < KERNBASE -> zlen m = pages_of sz * 4096 ->
  (forall a, owned d T U a \/ a ∈ l2 <-> a ∈ l) -> only (fun w => w ∈ l) (mem k) km ->
  wp fs_panic (modproc cur (copy_name (last_elem path path));; oldpgdir <- gets (fun s => p_pgdir (getproc cur s));;
    modproc cur (with_space (top_of sz) d);; modproc cur (fun x => with_tf (tf_start entry (stack_sp (top_of sz) argv) (p_tf x)) x);;
    onmem (freevm kend oldpgdir);; ret 0)
   (fun r k' => k_fs (shared k') = fs' /\ exec_post k pc cur path argv (Some (entry, sz, m)) l G r k') (with_fm k fs' km).
Proof.
  intros V Hh Hg Hrn Hsz Hm Hl Ho. destruct Hmem as [I D]. cbn [kn pcs] in I, D.
  assert (Hc : (cur < length (ptable k))%nat) by (apply in_table; congruence).
  assert (is_Some (G cur)) as [[T0 U0] Gc] by (apply D; left; unfold spaced, procs_of; tauto).
  set (x := new_proc path argv entry sz d (getproc cur k)).
  assert (Hsize : size_ok (top_of sz) U).
  { destruct Hrn as [Htop Hfit]. eapply image_size; [exact Hh| |lia|exact Htop]. assert (0 <= pages_of sz) by (unfold pages_of; lia).
    apply zlen_stack_image; [exact Hfit|unfold top_of; lia|]. rewrite zlen_app, Hm, zlen_pad by lia. unfold top_of. lia. }
  destruct (mem_exec kend data Hkend Hdata_range all (mem k) (procs_of k) _ l G cur T0 U0 km d T U l2 x I Gc V Hl Ho eq_refl Hsize eq_refl)
    as (k2 & l3 & E & I2 & O2 & Hkeep).
  unfold wp, modproc. rewrite modify_bind, gets_bind, modify_bind, modify_bind.
  set (s0 := with_fm k fs' km). set (s1 := set_ptable _ s0). set (s2 := set_ptable _ s1). set (s3 := set_ptable _ s2).
  assert (E1 : forall j, getproc j s1 = if decide (j = cur) then copy_name (last_elem path path) (getproc cur k) else getproc j k).
  { intros j. apply (getproc_upd cur _ s0 j Hc). }
  assert (L1 : length (ptable s1) = length (ptable k)) by apply length_insert.
  assert (E2 : forall j, getproc j s2 = if decide (j = cur) then with_space (top_of sz) d (getproc cur s1) else getproc j s1).
  { intros j. apply (getproc_upd cur _ s1 j). lia. }
  assert (L2 : length (ptable s2) = length (ptable k)) by (etrans; [apply length_insert|exact L1]).
  assert (E3 : forall j, getproc j s3 = put cur x (procs_of k) j).
  { intros j. unfold s3. etrans; [apply (getproc_upd cur (fun p => with_tf (tf_start entry (stack_sp (top_of sz) argv) (p_tf p)) p) s2 j); lia|].
    rewrite !E2, !E1. unfold put. repeat case_decide; done. }
  assert (Eold : p_pgdir (getproc cur s1) = p_pgdir (procs_of k cur)) by (rewrite E1, decide_True by done; done). rewrite Eold.
  assert (Ef : onmem (freevm kend (p_pgdir (procs_of k cur))) s3 = Ret tt (set_shared (set_kmem k2 (shared s3)) s3)).
  { unfold onmem, onshared, onkmem, lift. change (k_kmem (shared s3)) with km. by rewrite E. }
  rewrite (bind_Ret _ _ _ _ _ Ef). set (k' := set_shared _ s3). assert (Ek : forall j, getproc j k' = put cur x (procs_of k) j) by exact E3.
  split; [done|]. clear Ef Eold E1 E2 E3 L1 L2. split.
  - exists l3, (put cur (Some (T, U)) G). split.
    + split; cbn [kn pcs]; [eapply mem_inv_same; [|exact I2]; intros j; by rewrite <- Ek|]. intros j. unfold has_space, procs_of. rewrite Ek. unfold put.
      case_decide as Dj; [|apply D]. split; [intros _; left; unfold spaced; cbn; tauto|eauto].
    + intros j Hj _ _. rewrite Ek. unfold put. rewrite decide_False by congruence. split; [done|]. intros a Ha. eapply only_frame; [exact I|exact O2| |exact Ha]. congruence.
  - left. split; [done|]. exists entry, sz, m. split; [done|]. split; [done|]. exists d. split; [exact Ek|]. intros va Hva.
    pose proof (mi_space _ _ _ _ _ _ _ _ I2 cur) as Hs. unfold put in Hs. rewrite !decide_True in Hs by done. destruct Hs as (A2 & _).
    apply (user_byte_image kend data Hkend Hdata_range all k2 d T U _ _ va A2); [|done|done]. eapply holds_frame; [|exact Hh].
    intros w q f Ew. apply Hkeep. right. right. eauto.
Qed.

Lemma free_distinct : NoDup l.
Proof using Hmem. destruct Hmem as [I _]. apply (mi_free _ _ _ _ _ _ _ _ I). Qed.

(** From the stack on. *)
Lemma exec_finish path argv entry sz m fs' km d T U l2 : vm_ok kend km d T U kernel_entry l2 -> holds km U m -> all_user U ->
  zlen m = pages_of sz * 4096 -> 0 <= sz < KERNBASE -> (forall a, owned d T U a \/ a ∈ l2 <-> a ∈ l) -> only (fun w => w ∈ l) (mem k) km -> Forall arg_ok argv ->
  wp fs_panic (o <- onmem (exec_stack kend d sz argv);;
    match o with
    | None => onmem (freevm kend d);; ret (-1)
    | Some (sz, sp) =>
        modproc cur (copy_name (last_elem path path));; oldpgdir <- gets (fun s => p_pgdir (getproc cur s));;
        modproc cur (with_space sz d);; modproc cur (fun x => with_tf (tf_start entry sp (p_tf x)) x);; onmem (freevm kend oldpgdir);; ret 0
    end)
   (fun r k' => k_fs (shared k') = fs' /\ exec_post k pc cur path argv (Some (entry, sz, m)) l G r k') (with_fm k fs' km).
Proof.
  intros V Hh Hall Hm Hsz Hl Ho Hargs. pose proof free_distinct as Hnd.
  destruct (exec_stack_spec kend data Hkend Hdata_range km d T U l2 m sz argv V Hh Hm Hall Hsz Hargs) as (o & k1 & T1 & U1 & l3 & E & V1 & Hc1 & Ho1 & Hr).
  fold (top_of sz) in Hr. assert (Hl1 : forall a, owned d T1 U1 a \/ a ∈ l3 <-> a ∈ l) by (intros a; rewrite (Hc1 a); apply Hl).
  assert (Ho2 : only (fun w => w ∈ l) (mem k) k1).
  { eapply only_trans; [exact Ho|]. eapply only_weaken; [|exact Ho1]. intros a Ha. by apply Hl. }
  wp_step. apply wp_km. unfold wp at 1. rewrite E.
  assert (Hbad : (forall entry' sz' m', Some (entry, sz, m) = Some (entry', sz', m') -> runnable sz' argv -> Z.of_nat (length l) <= 1028 + pages_of sz') ->
    wp fs_panic (onmem (freevm kend d);; ret (-1)) (fun r k' => k_fs (shared k') = fs' /\ exec_post k pc cur path argv (Some (entry, sz, m)) l G r k') (with_fm k fs' k1)).
  { intros Hp. destruct (freevm_spec kend Hkend k1 d T1 U1 kernel_entry l3 V1) as (k2 & l4 & E2 & Hf2 & Hl2 & Ho3).
    wp_step. apply wp_km. unfold wp at 1. rewrite E2. wp_step. split; [done|]. eapply exec_fails; [exact Hf2| | |exact Hp].
    - intros a. rewrite Hl2, <- (Hl1 a). tauto.
    - eapply only_trans; [exact Ho2|]. eapply only_weaken; [|exact Ho3]. intros a Ha. apply Hl1. by left. }
  destruct ((top_of sz <? KERNBASE) && args_fit (top_of sz) argv) eqn:Hfit.
  - apply andb_true_iff in Hfit as [Htop%Z.ltb_lt Hfit]. destruct Hr as [(-> & Hh1 & Hg)|(-> & Hs)].
    + by eapply exec_commits.
    + apply Hbad. intros entry' sz' m' [= <- <- <-] _. assert (Hle : Z.of_nat (length l) <= 1026 + (pages_of sz + 2)); [|lia].
      eapply spent_length; [done| |unfold pages_of; lia|exact Hs]. intros a. apply Hl.
  - rewrite Hr. apply Hbad. intros entry' sz' m' [= <- <- <-] [Ht Hf]. rewrite Hf, (proj2 (Z.ltb_lt _ _) Ht) in Hfit. done.
Qed.

Context (path : list Z) (argv : list (list Z)) (Hargs : Forall arg_ok argv) (Hpath : nonzero path).
Context (b : lstate) (v : Z -> list Z) (sf : gset Z) (ics : list inode) (i : Z).
Local Abbreviation pid := (p_pid (getproc cur k)).
Context (Hfs : k_fs (shared k) = FState b ics) (Hready : fs_ready pid start size nb sb b v sf ics).
Context (Hstart : start_ok sb v ics (default 0%nat (p_cwd (getproc cur k))) path i).
Context (Hcwd : p_cwd (getproc cur k) = None -> chd path = slash).
Context (Hfile : forall j c, resolve sb false v i (components path) = Some (j, c) -> d_type (dino sb v j) <> T_DEV).

Definition done_post (r : Z) (k' : kern) : Prop :=
  fs_done pid start size nb sb b v sf ics (k_fs (shared k')) /\ exec_post k pc cur path argv (program v i path) l G r k'.

(** The file is given back and the transaction ends. *)
Lemma exec_close {A} ics2 ip x j fs km (m : M kern A) Q : opened pid sb v ics ics2 ip x j -> reading pid start size nb sb lay b v sf ics2 fs ->
  (forall fs', fs_done pid start size nb sb b v sf ics fs' -> wp fs_panic m Q (with_fm k fs' km)) ->
  wp fs_panic (onshared (onfs (iunlockput (BlockLayer0 := log_layer pid) pid sb ip));; onshared (onfs (onblk (end_op pid)));; m) Q (with_fm k fs km).
Proof.
  intros Hop Hrd HQ. wp_step. apply wp_fs.
  eapply wp_post; [apply (close_spec pid start size nb sb lay b v sf ics devr ics2 ip x j fs Hop Hrd)|]. cbv beta. intros _ fs' (b3 & ics3 & -> & Hf3 & Ht3 & Hr3).
  wp_step. apply wp_fs. eapply wp_post; [by apply (exec_commit pid start size nb sb lay b v sf ics Hready devr b3 ics3)|]. cbv beta. intros _ fs'. apply HQ.
Qed.

(** From the file on, which is locked. *)
Lemma exec_file ics2 ip x j c fs : opened pid sb v ics ics2 ip x j -> resolve sb false v i (components path) = Some (j, c) ->
  reading pid start size nb sb lay b v sf ics2 fs -> 
  wp fs_panic (r <- onshared (exec_load sb kend data devr pid ip);;
      match r.2 with
      | None =>
          when (negb (r.1 =? 0)) (onmem (freevm kend r.1));;
          onshared (onfs (iunlockput (BlockLayer0 := log_layer pid) pid sb ip));;
          onshared (onfs (onblk (end_op pid)));;
          ret (-1)
      | Some (entry, sz) =>
          onshared (onfs (iunlockput (BlockLayer0 := log_layer pid) pid sb ip));;
          onshared (onfs (onblk (end_op pid)));;
          o <- onmem (exec_stack kend r.1 sz argv);;
          match o with
          | None => onmem (freevm kend r.1);; ret (-1)
          | Some (sz, sp) =>
              modproc cur (copy_name (last_elem path path));;
              oldpgdir <- gets (fun s => p_pgdir (getproc cur s));;
              modproc cur (with_space sz r.1);;
              modproc cur (fun x => with_tf (tf_start entry sp (p_tf x)) x);;
              onmem (freevm kend oldpgdir);;
              ret 0
          end
      end) done_post (with_fm k fs (mem k)).
Proof.
  intros Hop Hres Hrd. pose proof Hmem as [I D]. cbn [kn pcs] in I, D. pose proof (op_linked _ _ _ _ _ _ _ _ Hop) as Hlk.
  set (cs := contents v (dino sb v j)). pose proof (Hfile _ _ Hres) as Hty. pose proof (fr_files _ _ _ _ _ _ _ _ _ Hready j Hlk Hty) as Hsd.
  assert (Hprog : program v i path = load_image cs) by (unfold program; by rewrite Hres).
  assert (Hby : bytes cs) by (destruct Hrd as (b2 & _ & Ht2); eapply (bytes_contents pid start size nb sb lay b v sf b2); [eapply tf_bst; exact Ht2|exact Hsd]).
  assert (Hlen : zlen cs < 2 ^ 31).
  { unfold zlen, cs. rewrite length_contents. pose proof (sd_max _ _ _ _ Hsd). assert (MAXFILE * BSIZE < 2 ^ 31) by done. lia. }
  wp_step. apply wp_sh. eapply wp_post; [apply (exec_load_spec sb kend data Hkend devr pid fs_panic (reading pid start size nb sb lay b v sf ics2) ip cs Hby Hlen) with (l := l)|].
  { intros fs2 off n H1 H2 H3. by apply (read_spec pid start size nb sb lay b v sf ics Hready devr ics2 ip x j). }
  { exact Hrd. } { apply (mi_free _ _ _ _ _ _ _ _ I). } { done. } { done. }
  intros r s' (F & If & O & Hcase & Hfail). split; [exact F|]. cbn [k_kmem set_kmem set_fs shared with_fm set_shared] in O.
  destruct r as [d o]. cbn [fst snd] in *. destruct o as [[entry sz]|].
  - destruct Hcase as [(_ & [=] & _)|(_ & T & U & l' & m & L & Hall & Hl & Himg)]. destruct (Himg _ _ eq_refl) as (Ei & Hm & Hsz).
    eapply exec_close; [exact Hop|exact If|]. intros fs' Hd. eapply wp_post; [eapply (exec_finish path argv entry sz m fs' (k_kmem s') d T U l'); try done; apply L|].
    cbv beta. intros r k' [Ef Hp]. split; [by rewrite Ef|]. by rewrite Hprog, Ei.
  - assert (Hfr : exists l' km', (when (negb (d =? 0)) (onmem (freevm kend d))) (with_fm k (k_fs s') (k_kmem s')) = Ret tt (with_fm k (k_fs s') km') /\
      free_pages kend km' l' /\ (forall a, a ∈ l' <-> a ∈ l) /\ only (fun w => w ∈ l) (mem k) km').
    { destruct Hcase as [(-> & _ & l' & Hf' & Hl')|(Hd & T & U & l' & m & L & _ & Hl & _)]; [by exists l', (k_kmem s')|].
      destruct (freevm_spec kend Hkend (k_kmem s') d T U kernel_entry l' (ld_vm _ _ _ _ _ _ _ _ _ L)) as (k2 & l4 & E2 & Hf2 & Hl2 & Ho2).
      exists l4, k2. rewrite (proj2 (Z.eqb_neq _ _) Hd). split_and!; [|done| |].
      - cbn [negb when]. unfold onmem, onshared, onkmem, lift. change (k_kmem (shared (with_fm k (k_fs s') (k_kmem s')))) with (k_kmem s'). by rewrite E2.
      - intros a. rewrite Hl2, <- (Hl a). tauto.
      - eapply only_trans; [exact O|]. eapply only_weaken; [|exact Ho2]. intros a Ha. apply Hl. by left. }
    destruct Hfr as (l' & km' & Ew & Hf' & Hl' & Ho'). wp_step. unfold wp at 1. rewrite Ew.
    eapply exec_close; [exact Hop|exact If|]. intros fs' Hd. wp_step. split; [exact Hd|]. eapply exec_fails; [exact Hf'|exact Hl'|exact Ho'|].
    intros entry sz m E _. rewrite Hprog in E. specialize (Hfail eq_refl _ _ _ E). lia.
Qed.

(** All of it. *)
Lemma exec_spec : wp fs_panic (exec sb kend data devr cur path argv) done_post k.
Proof.
  pose proof Hmem as [I D]. cbn [kn pcs] in I, D. assert (Ek : k = with_fm k (FState b ics) (mem k)).
  { unfold with_fm, mem. rewrite <- Hfs. by destruct k as [[] ? ? ? ? ?]. }
  assert (Hlow : forall fs', fs_done pid start size nb sb b v sf ics fs' -> program v i path = None -> done_post (-1) (with_fm k fs' (mem k))).
  { intros fs' Hd Hp. split; [done|]. eapply exec_fails; [apply (mi_free _ _ _ _ _ _ _ _ I)|done|done|]. rewrite Hp. done. }
  enough (H : wp fs_panic (exec sb kend data devr cur path argv) done_post (with_fm k (FState b ics) (mem k))) by (rewrite <- Ek in H; exact H).
  unfold exec. do 2 wp_step. change (getproc cur (with_fm k (FState b ics) (mem k))) with (getproc cur k). cbv zeta. wp_step. apply wp_fs. apply wp_onblk.
  unfold wp at 1. rewrite (begin_op_idle pid start size nb b) by apply Hready.
  wp_step. assert (Ec : forall s, exec_cwd (getproc cur k) path s = Ret (default 0%nat (p_cwd (getproc cur k))) s).
  { intros s. unfold exec_cwd. destruct (p_cwd _) as [cwd|]; [done|]. by rewrite Hcwd. }
  unfold wp at 1. rewrite Ec. wp_step. apply wp_fs.
  eapply wp_post; [by apply (open_spec pid start size nb sb lay b v sf ics Hready devr _ path i)|]. cbv beta.
  intros o fs1 (b1 & ics1 & -> & Ht1 & Hk1 & Hres). destruct (resolve sb false v i (components path)) as [[j c]|] eqn:Er in Hres.
  - destruct Hres as (Hlk & ip & x & -> & Hx & He & Href). wp_step. apply wp_fs.
    eapply wp_post; [by apply (lock_spec pid start size nb sb lay b v sf ics devr b1 ics1 ip x j)|]. cbv beta.
    intros _ fs2 (b2 & ics2 & x' & -> & Ht2 & Hop). eapply exec_file; [exact Hop|exact Er|by exists b2].
  - destruct Hres as [-> Href]. wp_step. apply wp_fs. eapply wp_post; [by apply (exec_commit pid start size nb sb lay b v sf ics Hready devr b1 ics1)|].
    cbv beta. intros _ fs' Hd. wp_step. apply Hlow; [done|]. unfold program. by rewrite Er.
Qed.
End call.

(** C5: [exec].  For a process that runs, a path and arguments shorter than a
    page, on a file system at rest: [exec] returns, and the only panics are
    those of a resource that is used up.  If the path names a file that holds a
    program, the program with its stack lies below the kernel and the arguments
    fit, and there are enough free pages, it returns 0: the process starts at
    the entry point with its stack pointer at the arguments, and the memory
    that it sees is the program's segments over zeroes, a guard page that it
    cannot use, and the stack; in its entry of the table nothing else but the
    name has changed.  Otherwise it returns -1, and the table and the memory of
    the process are as they were.  Either way no page is lost or shared, the
    memory of the other processes is untouched, and the files, the inode
    references and the locks are as before. *)
Theorem exec_correct k pc cur l G path argv b v sf ics i :
  p_state (getproc cur k) = RUNNING -> mem_at (Sys k pc) l G -> Forall arg_ok argv -> nonzero path ->
  k_fs (shared k) = FState b ics -> fs_ready (p_pid (getproc cur k)) start size nb sb b v sf ics ->
  start_ok sb v ics (default 0%nat (p_cwd (getproc cur k))) path i -> (p_cwd (getproc cur k) = None -> chd path = slash) ->
  (forall j c, resolve sb false v i (components path) = Some (j, c) -> d_type (dino sb v j) <> T_DEV) ->
  wp fs_panic (exec sb kend data devr cur path argv) (fun r k' =>
    fs_done (p_pid (getproc cur k)) start size nb sb b v sf ics (k_fs (shared k')) /\
    (exists l' G', mem_at (Sys k' pc) l' G' /\ frame (Some cur) k k' G) /\
    ((r = 0 /\ exists entry sz m, program v i path = Some (entry, sz, m) /\ runnable sz argv /\ started k cur path argv entry sz m k') \/
     (r = -1 /\ unchanged k cur k' /\
      forall entry sz m, program v i path = Some (entry, sz, m) -> runnable sz argv -> Z.of_nat (length l) <= 1028 + pages_of sz))) k.
Proof using lay Hkend Hdata Hdata_range. intros H1 H2 H3 H4 H5 H6 H7 H8 H9. by apply (exec_spec k pc cur l G H1 H2 path argv H3 H4 b v sf ics i H5 H6 H7 H8 H9). Qed.
End exec.
