(* ===== verification/ExecDemo.v ===== *)
(** * [exec] on the image

    The theorem of [ExecProps] applied to the program [/p] of [Image], in a
    machine with 2299 free pages; and a [kill] of pid 0 before a [fork] on a
    machine with as many. *)

From S2P Require Import Prelude Params CString Locks Kalloc Bio Log Crash Block Balloc Inode Bmap Content Dir Icache Path Namei Pipe Syscall File FileProps Image FsTheorems Vm VmUser VmCopy Proc ProcInv ProcSys ProcMem ProcBoot Exec ExecMem ExecLoad ExecFs ExecStack ExecArgs ExecProps.
Local Open Scope Z_scope.
Local Open Scope kmonad_scope.

(** ** The file system *)

Section disk.
Context (s : lstate) (v : Z -> list Z) (Hr : at_rest 7 2 30 100 s v ∅) (Hv : forall a, ~ in_log 2 30 a -> v a = img_view a).

Lemma img_used a : 0 <= a < 100 -> used img_sb v a = used img_sb img_view a.
Proof using Hv.
  intros Ha. apply used_same; [|done]. intros d Hd. apply Hv. unfold is_bmap in Hd. unfold in_log. change (sb_bmapstart img_sb) with 58 in Hd. lia.
Qed.

Lemma sound_one inum t nl n a : dino img_sb v inum = Dinode t 0 0 nl n (addrs1 a) -> 58 < a < 100 -> used img_sb img_view a = true ->
  0 <= n <= 512 -> 0 <= t < 4 -> 0 <= nl < 4 -> sound img_sb v ∅ inum.
Proof using Hv.
  intros Ed Ha Hu Hn Ht Hnl. constructor; rewrite ?Ed; cbn [d_addrs d_size].
  - apply tree_one; [lia| |by rewrite img_used by lia|done]. unfold is_data. change (sb_bmapstart img_sb + sb_size img_sb / BPB) with 58.
    change (sb_size img_sb) with 100. lia.
  - constructor; cbn [d_type d_major d_minor d_nlink d_size d_addrs]; try lia; [done|]. repeat constructor; lia.
  - plia.
  - apply mapped_one; lia.
Qed.

Lemma contents_one d a n : d_addrs d = addrs1 a -> d_size d = n -> n <= 512 -> ~ in_log 2 30 a -> contents v d = contents img_view d.
Proof using Hv.
  intros Ea En Hn Ha. unfold contents. rewrite Ea, En. apply list_fmap_ext. intros i o Ho. apply lookup_seqZ in Ho as [-> Ho]. unfold fbyte.
  assert ((0 + Z.of_nat i) / BSIZE = 0) as -> by plia. change (saddr v (addrs1 a) (fslot 0)) with a. change (saddr img_view (addrs1 a) (fslot 0)) with a.
  by rewrite Hv.
Qed.

Lemma img_ready : fs_ready 7 2 30 100 img_sb s v ∅ img_table.
Proof using Hr Hv.
  pose proof (img_tree_fs s v Hr Hv) as [T1 T2 T3 T4]. constructor; try done; [|by apply img_table_ok].
  intros i (Hi & Hnz & Hnl) Hty. rewrite (img_dino v Hv i Hi) in Hnz, Hnl. clear Hty T1 T2 T3 T4.
  assert (Hcase : i = 1 \/ i = 2 \/ i = 4).
  { rewrite (img_types i Hi) in Hnz. destruct (decide (i = 1)) as [E|_]; [left; exact E|].
    destruct (decide (i = 2 \/ i = 3 \/ i = 4)) as [[E|[E|E]]|_]; [right; left; exact E| |right; right; exact E|destruct (Hnz eq_refl)].
    exfalso. rewrite E in Hnl. apply Hnl. by_compute. }
  clear Hnz Hnl Hi. destruct img_dinos as (E1 & E2 & _ & E4). destruct Hcase as [->|[->| ->]].
  - apply (sound_one 1 T_DIR 1 64 59); [etrans; [apply (img_dino v Hv); by_compute|exact E1]|lia|by_compute|lia|by_compute|lia].
  - apply (sound_one 2 T_FILE 1 5 60); [etrans; [apply (img_dino v Hv); by_compute|exact E2]|lia|by_compute|lia|by_compute|lia].
  - apply (sound_one 4 T_FILE 1 92 62); [etrans; [apply (img_dino v Hv); by_compute|exact E4]|lia|by_compute|lia|by_compute|lia].
Qed.

(** [/p] is a program of 16 bytes, 8 of them in the file. *)
Lemma img_resolve : resolve img_sb false v 1 (components [47; 112]) = Some (4, []).
Proof using Hr Hv.
  change (components [47; 112]) with [[112]]. cbn [resolve]. unfold dir_entries.
  assert (dino img_sb v 1 = i_d (img_inode 1 1)) as -> by (apply (img_dino v Hv); by_compute).
  rewrite (proj2 img_dir_size). change (entries (contents v (i_d (img_inode 1 1)))) with (dents v (img_inode 1 1)).
  rewrite (proj2 (img_dir_st s v Hr Hv)). reflexivity.
Qed.

Definition img_memory : list Z := splice (zpad 4096) 0 [204; 204; 204; 204; 235; 254; 144; 144].

Lemma img_program : program img_sb v 1 [47; 112] = Some (0, 16, img_memory).
Proof using Hr Hv.
  unfold program. rewrite img_resolve. cbn [mbind option_bind].
  assert (dino img_sb v 4 = img_prog) as -> by (etrans; [apply (img_dino v Hv); by_compute|apply img_dinos]).
  rewrite (contents_one img_prog 62 92 eq_refl eq_refl) by (unfold in_log; lia). by_compute.
Qed.
End disk.

(** ** The machine: process 0 runs, without user memory *)

Definition machine_pages : list Z := demo.pagenum <$> seqZ 1 2299.
Definition machine_mem : kmem := foldr kfreed (Kmem true 0 ∅) machine_pages.

Lemma machine_free : free_pages demo.kend machine_mem machine_pages.
Proof. apply demo.free_range; lia. Qed.

Definition machine_proc (d : Z) : proc :=
  Proc 0 d (demo.pagenum 0) RUNNING 7 None zero_tf AtForkret None false (replicate (Z.to_nat NOFILE) None) None (replicate 16 0).
Definition machine (s : lstate) (m : kmem) (d : Z) : kern :=
  Kern (KState (FState s img_table) m [] ∅ (User [] 0) [] 0 false 0) [machine_proc d] 8 None [Cpu (Some 0%nat) 1] 0.

Definition machine_all (a : Z) : Prop := a = demo.pagenum 0 \/ a ∈ machine_pages.

Lemma machine_mem_at s m d T l : vm_ok demo.kend m d T ∅ (kernel_entry bootdemo.data) l -> (forall a, owned d T ∅ a \/ a ∈ l <-> a ∈ machine_pages) ->
  mem_at demo.kend bootdemo.data machine_all (Sys (machine s m d) (fun _ => KRun)) l (fun i => if decide (i = 0%nat) then Some (T, ∅) else None).
Proof.
  intros V Hl. assert (Hk : demo.pagenum 0 ∉ machine_pages).
  { unfold machine_pages. intros (n & E & Hn)%list_elem_of_fmap. apply elem_of_seqZ in Hn. unfold demo.pagenum in E. lia. }
  assert (Hks : ~ owned d T ∅ (demo.pagenum 0) /\ demo.pagenum 0 ∉ l) by (specialize (Hl (demo.pagenum 0)); tauto). destruct Hks as [Hk1 Hk2].
  assert (Hj : forall j, j <> 0%nat -> procs_of (machine s m d) j = zero_proc) by (intros [|j] Hj; [done|]; by destruct j).
  assert (Hsz : size_ok 0 ∅).
  { split; [unfold KERNBASE; lia|]. split; [intros w x Hw; by rewrite lookup_empty in Hw|]. left. change (pages_of 0) with 0. intros w Hw. lia. }
  split; cbn [kn pcs].
  - split.
    + apply V.
    + intros i. case_decide as Di; [subst i|done]. split; [apply V|]. split; [exact Hsz|]. split; [apply demo.valid; lia|exact Hk1].
    + intros i j a. repeat case_decide; subst; done.
    + intros i a. case_decide; subst; [|done]. intros Ha. split; [|apply not_elem_of_empty]. destruct Ha as [->|Ha]; [done|]. intros Hin. by apply (vo_apart _ _ _ _ _ _ _ V a Hin).
    + intros a Ha. by apply elem_of_empty in Ha.
    + intros a. unfold machine_all. rewrite <- (Hl a). split.
      * intros [->|[Ho|?]]; [right; right; exists 0%nat; by left|right; right; exists 0%nat; by right|by left].
      * intros [?|[Ha|(i & Ha)]]; [tauto|by apply elem_of_empty in Ha|]. case_decide; [subst i|done]. destruct Ha as [->|Ha]; [by left|right; by left].
  - intros i. case_decide as Di; [subst i|].
    + split; [|eauto]. intros _. left. unfold spaced. cbn. tauto.
    + split; [by intros [? [=]]|]. unfold has_space. rewrite Hj by done. intros [[?|[?|[?|?]]]|[? _]]; done.
Qed.

(** The address space of [setupkvm], and the free pages that are left. *)
Lemma machine_space : exists m d T l, vm_ok demo.kend m d T ∅ (kernel_entry bootdemo.data) l /\ (forall a, owned d T ∅ a \/ a ∈ l <-> a ∈ machine_pages) /\
  (1274 <= length l)%nat.
Proof.
  destruct (setupkvm_spec demo.kend eq_refl bootdemo.data eq_refl (conj eq_refl eq_refl) machine_mem machine_pages machine_free) as (d & m & _ & Hlen & _ & Hcase).
  assert (Hpl : length machine_pages = 2299%nat) by (unfold machine_pages; rewrite length_fmap, length_seqZ; lia).
  destruct Hcase as [[Hz _]|(_ & T & l & V & Hl)]; [exfalso; apply Hlen in Hz; lia|]. exists m, d, T, l. split_and!; try done.
  pose proof (owned_length d T machine_pages l ltac:(apply machine_free)) as H. specialize (H ltac:(intros j t Hj; by apply (as_table _ _ _ _ _ _ (vo_space _ _ _ _ _ _ _ V)) in Hj as [? _])).
  specialize (H ltac:(intros w Hw; by apply Hl)). lia.
Qed.

(** [exec("/p", {"p"})] starts the program. *)
Lemma exec_correct_witness : exists s m d,
  initlog 7 1 (boot 100 img) = Ret tt s /\
  wp fs_panic (exec img_sb demo.kend bootdemo.data (no_devr _) 0 [47; 112] [[112]])
    (fun r k' => r = 0 /\ p_sz (getproc 0 k') = 12288 /\ user_byte (mem k') (p_pgdir (getproc 0 k')) 4 = Some 235) (machine s m d).
Proof.
  destruct img_boot as (s & v & E & Hr & Hv). exists s.
  destruct machine_space as (m & d & T & l & V & Hl & Hll). exists m, d. split; [exact E|]. clear E.
  eapply wp_post; [refine (exec_correct 2 30 100 img_sb img_layout demo.kend bootdemo.data eq_refl eq_refl (conj eq_refl eq_refl) machine_all (no_devr _)
    (machine s m d) (fun _ => KRun) 0 l _ [47; 112] [[112]] s v ∅ img_table 1 eq_refl (machine_mem_at s m d T l V Hl) _ _ eq_refl (img_ready s v Hr Hv) _ _ _)|].
  { repeat constructor; lia. }
  { by repeat constructor. }
  { split; [apply img_linked; [exact Hv|by left]|reflexivity]. }
  { reflexivity. }
  { intros j c. rewrite (img_resolve s v Hr Hv). intros [= <- _]. rewrite (img_dino v Hv) by by_compute. by_compute. }
  cbv beta. intros r k' (_ & _ & [(-> & entry & sz & mm & Ep & _ & d' & Hp & Hu)|(_ & _ & Hfew)]).
  - rewrite (img_program s v Hr Hv) in Ep. injection Ep as <- <- <-. split; [reflexivity|]. rewrite (Hp 0%nat). split; [reflexivity|].
    change (p_pgdir (put 0 _ _ 0%nat)) with d'. rewrite Hu by lia. by_compute.
  - exfalso. specialize (Hfew _ _ _ (img_program s v Hr Hv)). change (1028 + pages_of 16) with 1029 in Hfew.
    enough (Z.of_nat (length l) <= 1029) by lia. apply Hfew. split; by_compute.
Defined.

(** The stack of [echo hi] over an empty program. *)
Lemma exec_arguments_witness : exists m d k' sp M, exec_stack demo.kend d 0 [[101; 99; 104; 111]; [104; 105]] m = Ret (Some (8192, sp)) k' /\
  arguments_at M sp [[101; 99; 104; 111]; [104; 105]].
Proof.
  destruct machine_space as (m & d & T & l & V & _ & Hll).
  destruct (exec_arguments demo.kend bootdemo.data eq_refl (conj eq_refl eq_refl) m d T ∅ l [] 0 [[101; 99; 104; 111]; [104; 105]] V (holds_empty m) eq_refl)
    as (o & k' & E & Ho); [intros w p f Hw; by rewrite lookup_empty in Hw|split; [lia|reflexivity]|repeat constructor; lia|].
  destruct o as [[top sp]|].
  - destruct Ho as (-> & _ & T' & U' & l' & M & _ & _ & _ & _ & _ & Ha & _). exists m, d, k', sp, M. split; [exact E|exact Ha].
  - exfalso. specialize (Ho eq_refl eq_refl). change (1028 + pages_of 0) with 1028 in Ho. lia.
Defined.

(** ** [kill(0)] and then [fork] *)

Definition forker_mem (m : kmem) (d : Z) : kern :=
  Kern (KState (FState (LState (Bio ∅ 100 [] [] []) (Log 0 0 0 false 0 [])) img_table) m [] ∅ (User [] 0) [] 0 false 0)
    [with_pcwd (Some 0%nat) (machine_proc d); zero_proc] 8 None [Cpu (Some 0%nat) 1] 0.

(** There are enough pages for the stack and the address space of the child. *)
Lemma forker_forks m d T l : vm_ok demo.kend m d T ∅ (kernel_entry bootdemo.data) l -> (1274 <= length l)%nat ->
  exists s2, fork demo.kend bootdemo.data 0 (upd 1 (with_killed true) (forker_mem m d)) = Ret 8 s2.
Proof.
  intros V Hl. destruct V as [A Hf Hap].
  pose proof (kalloc_free demo.kend m l Hf) as Hk. unfold wp in Hk. destruct (kalloc m) as [a m1| |] eqn:Ek; [|done|done].
  destruct Hk as (Ea & Hf1 & Hp1 & _).
  assert (Ha : a <> 0).
  { destruct l as [|b l]; [cbn in Hl; lia|]. cbn in Ea. subst a. destruct Hf as (_ & _ & Hv).
    apply Forall_cons in Hv as [[? ?] _]. unfold demo.kend, KERNBASE in *. lia. }
  destruct (copyuvm_spec demo.kend eq_refl bootdemo.data eq_refl (conj eq_refl eq_refl) m1 d T ∅ (kernel_entry bootdemo.data) (tail l) 0 Hf1)
    as (r & m2 & Ec & _ & Hr).
  { split; [eapply aspace_frame; [|exact A]; intros x _; by rewrite Hp1|]. intros x Hx Hin. apply (Hap x); [|done].
    destruct l as [|b l]; [done|by right]. }
  { unfold KERNBASE. lia. }
  { change (pages_of 0) with 0. intros w Hw. lia. }
  assert (Hr0 : r <> 0).
  { destruct Hr as [(_ & _ & Hfew)|[? _]]; [|done]. change (pages_of 0) with 0 in Hfew. destruct l; cbn in *; lia. }
  clear Hr Hf1 Hp1 A Hf Hap Hl Ea. unfold fork.
  set (s0 := upd 1 (with_killed true) (forker_mem m d)).
  set (s1 := set_nextpid 9 (upd 1 (with_pid 8) (upd 1 (with_state EMBRYO) s0))).
  assert (E1 : allocproc_slot s0 = Ret (Some 1%nat) s1) by reflexivity. rewrite (bind_Ret _ _ _ _ _ E1). clear E1.
  set (s2 := upd 1 (with_context AtForkret) (upd 1 (with_kstack a) (set_shared (set_kmem m1 (shared s1)) s1))).
  assert (E2 : allocproc_stack 1 s1 = Ret true s2).
  { unfold allocproc_stack. rewrite (bind_Ret _ _ _ a (set_shared (set_kmem m1 (shared s1)) s1)).
    - rewrite (bind_Ret _ _ _ _ _ (modproc_eq 1 _ _)), (proj2 (Z.eqb_neq a 0) Ha). reflexivity.
    - unfold onmem, onshared, onkmem, lift. change (k_kmem (shared s1)) with m. by rewrite Ek. }
  set (s3 := set_shared (set_kmem m2 (shared s2)) s2).
  assert (E3 : onmem (copyuvm demo.kend bootdemo.data d 0) s2 = Ret r s3).
  { unfold onmem, onshared, onkmem, lift. change (k_kmem (shared s2)) with m1. by rewrite Ec. }
  assert (exists s4, fork_copy demo.kend bootdemo.data 0 1 s1 = Ret true s4 /\ p_pid (getproc 1 s4) = 8) as (s4 & E4 & Hp).
  - unfold fork_copy. rewrite (bind_Ret _ _ _ _ _ E2). cbn [negb]. rewrite gets_bind.
    change (p_pgdir (getproc 0 s2)) with d. change (p_sz (getproc 0 s2)) with 0.
    rewrite (bind_Ret _ _ _ _ _ E3), (proj2 (Z.eqb_neq r 0) Hr0). clear. eexists. split; reflexivity.
  - rewrite (bind_Ret _ _ _ _ _ E4). unfold fork_done. rewrite gets_bind, Hp. eexists. reflexivity.
Qed.

Lemma kill_zero_dooms_child_witness : exists s s1 s2, kill 0 s = Ret 0 s1 /\ fork demo.kend bootdemo.data 0 s1 = Ret 8 s2 /\
  p_pid (getproc 1 s2) = 8 /\ p_state (getproc 1 s2) = RUNNABLE /\ p_killed (getproc 1 s2) = true.
Proof.
  destruct machine_space as (m & d & T & l & V & _ & Hll). destruct (forker_forks m d T l V Hll) as (s2 & E2).
  exists (forker_mem m d), (upd 1 (with_killed true) (forker_mem m d)), s2. split; [reflexivity|]. split; [exact E2|].
  destruct (kill_zero_dooms_child demo.kend bootdemo.data 0 (forker_mem m d) 1 eq_refl eq_refl ltac:(discriminate)) as (s1 & E1 & H).
  change (kill 0 (forker_mem m d)) with (Ret 0 (upd 1 (with_killed true) (forker_mem m d))) in E1. injection E1 as <-.
  exact (H 8 s2 E2 ltac:(discriminate)).
Defined.
