(* ===== verification/Mkfs.v ===== *)
(** * Making a file system ([tools/mkfs.c])

    The image file is a map from sector numbers to sectors; an argument is the
    name of a file and what the calls of [read] return for it, or nothing if it
    cannot be opened.  [exit(1)] on an error of the host and a failing [assert]
    are panics.  The host is little-endian. *)

From S2P Require Import Prelude Params CString Bio Log Balloc Inode Bmap Content Dir Path.
Local Open Scope Z_scope.
Local Open Scope kmonad_scope.

Definition NINODES : Z := 200.
Definition nbitmap : Z := FSSIZE / (BSIZE * 8) + 1.
Definition ninodeblocks : Z := NINODES / IPB + 1.
Definition nlog : Z := LOGSIZE.
Definition nmeta : Z := 2 + nlog + ninodeblocks + nbitmap.
Definition nblocks : Z := FSSIZE - nmeta.

(** [fsfd], [freeinode], [freeblock]. *)
Record mkfs := Mkfs { m_disk : gmap Z (list Z); m_freeinode : Z; m_freeblock : Z }.
Definition m_set_disk d (s : mkfs) := Mkfs d (m_freeinode s) (m_freeblock s).

(** Little-endian values of a little-endian host. *)
Definition xshort (x : Z) : Z := le_val (le_bytes 2 x).
Definition xint (x : Z) : Z := le_val (le_bytes 4 x).

Definition sb : superblock :=
  Superblock (xint FSSIZE) (xint nblocks) (xint NINODES) (xint nlog) (xint 2) (xint (2 + nlog)) (xint (2 + nlog + ninodeblocks)).

Definition wsect (sec : Z) (buf : list Z) : M mkfs unit := modify (fun s => m_set_disk (<[sec := buf]> (m_disk s)) s).
Definition rsect (sec : Z) : M mkfs (list Z) :=
  o <- gets (fun s => m_disk s !! sec);;
  match o with
  | Some buf => ret buf
  | None => panic "read"
  end.

Definition winode (inum : Z) (ip : dinode) : M mkfs unit :=
  let bn := IBLOCK sb inum in
  buf <- rsect bn;;
  wsect bn (put_dinode buf (inum mod IPB) ip).

Definition rinode (inum : Z) : M mkfs dinode :=
  let bn := IBLOCK sb inum in
  buf <- rsect bn;;
  ret (get_dinode buf (inum mod IPB)).

Definition ialloc (type : Z) : M mkfs Z :=
  inum <- gets m_freeinode;;
  modify (fun s => Mkfs (m_disk s) (u32 (m_freeinode s + 1)) (m_freeblock s));;
  winode inum (Dinode (xshort type) 0 0 (xshort 1) (xint 0) (replicate 13 0));;
  ret inum.

(** [freeblock++] *)
Definition newblock : M mkfs Z :=
  x <- gets m_freeblock;;
  modify (fun s => Mkfs (m_disk s) (m_freeinode s) (u32 (m_freeblock s + 1)));;
  ret (xint x).

(** The loop of [balloc] over the bits from [i]. *)
Fixpoint balloc_loop (n : nat) (i : Z) (buf : list Z) : list Z :=
  match n with
  | O => buf
  | S n' => balloc_loop n' (i + 1) (setb buf (i / 8) (Z.lor (getb buf (i / 8)) (Z.shiftl 1 (i mod 8))))
  end.
Definition balloc (used : Z) : M mkfs unit :=
  if BSIZE * 8 <=? used then panic "assert(used < BSIZE*8)" else
  wsect (sb_bmapstart sb) (balloc_loop (Z.to_nat used) 0 zero_block).

(** The block that holds offset [fbn * BSIZE] of the file, allocated if it is
    not there.  [indirect] has [NINDIRECT] entries; an index beyond it is
    undefined, and a panic here. *)
Definition append_block (din : dinode) (fbn : Z) : M mkfs (dinode * Z) :=
  if fbn <? NDIRECT then
    let x := xint (nth (Z.to_nat fbn) (d_addrs din) 0) in
    if x =? 0 then
      x <- newblock;;
      ret (with_addrs din (<[Z.to_nat fbn := x]> (d_addrs din)), xint x)
    else ret (din, x)
  else
    let a := xint (nth (Z.to_nat NDIRECT) (d_addrs din) 0) in
    din <- (if a =? 0 then
              x <- newblock;; ret (with_addrs din (<[Z.to_nat NDIRECT := x]> (d_addrs din)))
            else ret din);;
    let a := xint (nth (Z.to_nat NDIRECT) (d_addrs din) 0) in
    indirect <- rsect a;;
    if NINDIRECT <=? fbn - NDIRECT then panic "indirect" else
    let j := Z.to_nat (fbn - NDIRECT) in
    if get32 indirect j =? 0 then
      x <- newblock;;
      wsect a (set32 indirect j x);;
      ret (din, xint x)
    else ret (din, xint (get32 indirect j)).

Fixpoint iappend_loop (fuel : nat) (din : dinode) (off : Z) (p : list Z) : M mkfs (dinode * Z) :=
  match fuel, p with
  | S fuel', _ :: _ =>
      let fbn := off / BSIZE in
      if MAXFILE <=? fbn then panic "assert(fbn < MAXFILE)" else
      r <- append_block din fbn;;
      let '(din, x) := r in
      let n1 := Z.min (Z.of_nat (length p)) ((fbn + 1) * BSIZE - off) in
      buf <- rsect x;;
      wsect x (splice buf (Z.to_nat (off - fbn * BSIZE)) (take (Z.to_nat n1) p));;
      iappend_loop fuel' din (u32 (off + n1)) (drop (Z.to_nat n1) p)
  | _, _ => ret (din, off)
  end.

Definition iappend (inum : Z) (p : list Z) : M mkfs unit :=
  din <- rinode inum;;
  r <- iappend_loop (length p) din (xint (d_size din)) p;;
  winode inum (with_size r.1 (xint r.2)).

(** The names [.], [..], [dev], [bin], [home]. *)
Definition dot : list Z := [46].
Definition dotdot : list Z := [46; 46].
Definition name_dev : list Z := [100; 101; 118].
Definition name_bin : list Z := [98; 105; 110].
Definition name_home : list Z := [104; 111; 109; 101].

Definition append_entry (dir inum : Z) (name : list Z) : M mkfs unit := iappend dir (encode_dirent (xshort inum) name).

(** One directory under the root. *)
Definition makedir (rootino : Z) (name : list Z) : M mkfs Z :=
  ino <- ialloc T_DIR;;
  append_entry ino ino dot;;
  append_entry ino rootino dotdot;;
  append_entry rootino ino name;;
  ret ino.

(** [binino] and [homeino]. *)
Definition makedirs : M mkfs (Z * Z) :=
  rootino <- ialloc T_DIR;;
  if negb (rootino =? ROOTINO) then panic "assert(rootino == ROOTINO)" else
  append_entry rootino rootino dot;;
  append_entry rootino rootino dotdot;;
  makedir rootino name_dev;;
  binino <- makedir rootino name_bin;;
  homeino <- makedir rootino name_home;;
  ret (binino, homeino).

(** ["user/"] *)
Definition user_prefix : list Z := [117; 115; 101; 114; 47].
Definition underscore : Z := 95.

Fixpoint append_all (inum : Z) (chunks : list (list Z)) : M mkfs unit :=
  match chunks with
  | [] => ret tt
  | c :: cs => iappend inum c;; append_all inum cs
  end.

(** One file. *)
Definition add_file (binino homeino : Z) (arg : list Z * option (list (list Z))) : M mkfs unit :=
  let shortname := if strncmp arg.1 user_prefix 5 =? 0 then drop 5 arg.1 else arg.1 in
  match strchr shortname slash with
  | Some _ => panic "assert(index(shortname, '/') == 0)"
  | None =>
      match arg.2 with
      | None => panic "open"
      | Some chunks =>
          let '(shortname, dirino) := if chd shortname =? underscore then (tail shortname, binino) else (shortname, homeino) in
          inum <- ialloc T_FILE;;
          append_entry dirino inum shortname;;
          append_all inum chunks
      end
  end.

Fixpoint add_files (binino homeino : Z) (args : list (list Z * option (list (list Z)))) : M mkfs unit :=
  match args with
  | [] => ret tt
  | a :: args' => add_file binino homeino a;; add_files binino homeino args'
  end.

(** The loop that fills the image with zeroes. *)
Fixpoint zero_sectors (n : nat) (i : Z) : M mkfs unit :=
  match n with
  | O => ret tt
  | S n' => wsect i zero_block;; zero_sectors n' (i + 1)
  end.

Definition sb_bytes (x : superblock) : list Z :=
  concat (le_bytes 4 <$> [sb_size x; sb_nblocks x; sb_ninodes x; sb_nlog x; sb_logstart x; sb_inodestart x; sb_bmapstart x]).

(** [main] after the image has been opened. *)
Definition main (args : list (list Z * option (list (list Z)))) : M mkfs Z :=
  modify (fun s => Mkfs (m_disk s) (m_freeinode s) nmeta);;
  zero_sectors (Z.to_nat FSSIZE) 0;;
  wsect 1 (splice zero_block 0 (sb_bytes sb));;
  r <- makedirs;;
  add_files r.1 r.2 args;;
  n <- gets m_freeblock;;
  balloc n;;
  ret 0.
