(* ===== verification/MkfsFile.v ===== *)
(** * The files that [mkfs] writes

    A file of the image as the addresses of its blocks, its indirect block and
    its bytes; what [iappend] makes of it. *)

From S2P Require Import Prelude Params CString Bio Log Balloc Inode Bmap Content Dir Mkfs.
Local Open Scope Z_scope.
Local Open Scope kmonad_scope.

Lemma xint_small x : 0 <= x < 2 ^ 32 -> xint x = x.
Proof. intros H. unfold xint. rewrite le_val_bytes. by apply Z.mod_small. Qed.
Lemma xshort_small x : 0 <= x < 2 ^ 16 -> xshort x = x.
Proof. intros H. unfold xshort. rewrite le_val_bytes. by apply Z.mod_small. Qed.

(** ** Files *)

Record afile := AFile { a_type : Z; a_blocks : list Z; a_ind : Z; a_data : list Z }.

(** The part of a file that is in its [i]-th block. *)
Definition chunk (data : list Z) (i : nat) : list Z :=
  let b := sub data (512 * i) 512 in b ++ replicate (512 - length b) 0.

Definition addrs_of (f : afile) : list Z := take 11 (a_blocks f ++ replicate 11 0) ++ [a_ind f; 0].
Definition din_of (f : afile) : dinode := Dinode (a_type f) 0 0 1 (Z.of_nat (length (a_data f))) (addrs_of f).

(** What is at place [m] of a file: a block, or (139) the indirect block. *)
Definition addr_at (f : afile) (m : nat) : option Z :=
  if decide (m = 139%nat) then (if decide (a_ind f = 0) then None else Some (a_ind f)) else a_blocks f !! m.

(** The blocks of a file on the disk [v]; the last one may still be empty. *)
Record rep (v : Z -> list Z) (f : afile) : Prop := {
  rp_max : (length (a_blocks f) <= 139)%nat;
  rp_low : (length (a_data f) <= 512 * length (a_blocks f))%nat;
  rp_high : (512 * length (a_blocks f) <= length (a_data f) + 512)%nat;
  rp_ind : a_ind f = 0 <-> (length (a_blocks f) <= 11)%nat;
  rp_entries : a_ind f <> 0 -> forall j, (j < 128)%nat -> get32 (v (a_ind f)) j = default 0 (a_blocks f !! (11 + j)%nat);
  rp_data : forall i b, a_blocks f !! i = Some b -> v b = chunk (a_data f) i;
  rp_bytes : bytes (a_data f)
}.

(** The number of blocks of [n] bytes, with the indirect block. *)
Definition nblk (n : nat) : nat := (n + 511) / 512.
Definition cost (n : nat) : nat := nblk n + (if decide (nblk n <= 11)%nat then 0 else 1).
Definition count (f : afile) : nat := length (a_blocks f) + (if decide (a_ind f = 0) then 0 else 1).

Definition exact (f : afile) : Prop := length (a_blocks f) = nblk (length (a_data f)).

Lemma count_exact v f : rep v f -> exact f -> count f = cost (length (a_data f)).
Proof.
  intros R E. unfold count, cost. rewrite <- E. pose proof (rp_ind _ _ R). destruct (decide (a_ind f = 0)), (decide (length (a_blocks f) <= 11)%nat); tauto || lia.
Qed.

Lemma length_chunk data i : length (chunk data i) = 512%nat.
Proof. unfold chunk. rewrite length_app, length_replicate. unfold sub. rewrite length_take. lia. Qed.

Lemma bytes_chunk data i : bytes data -> bytes (chunk data i).
Proof.
  intros H. unfold chunk. apply Forall_app. split; [by apply Forall_take, Forall_drop|]. apply Forall_replicate. unfold is_byte. lia.
Qed.

Lemma chunk_empty data i : (length data <= 512 * i)%nat -> chunk data i = zero_block.
Proof. intros H. unfold chunk, sub. rewrite drop_ge by done. done. Qed.

(** Bytes that are appended do not change the full blocks before. *)
Lemma chunk_old data p i : (512 * i + 512 <= length data)%nat -> chunk (data ++ p) i = chunk data i.
Proof.
  intros H. unfold chunk. assert (E : sub (data ++ p) (512 * i) 512 = sub data (512 * i) 512); [|by rewrite E].
  unfold sub. rewrite drop_app_le, take_app_le by (rewrite ?length_drop; lia). done.
Qed.

Lemma chunk_append data p i : (512 * i <= length data)%nat -> (length data + length p <= 512 * i + 512)%nat ->
  chunk (data ++ p) i = splice (chunk data i) (length data - 512 * i) p.
Proof.
  intros H1 H2. unfold chunk, sub, splice. rewrite drop_app_le by done. set (d := drop (512 * i) data).
  assert (Hd : length d = (length data - 512 * i)%nat) by (unfold d; rewrite length_drop; lia). rewrite <- Hd.
  rewrite (take_ge (d ++ p)), (take_ge d 512) by (rewrite ?length_app; lia). rewrite take_app_length, <- app_assoc. f_equal. f_equal.
  rewrite drop_app_ge, drop_replicate, length_app by lia. f_equal. lia.
Qed.

(** ** The address words *)

Lemma length_addrs_of f : length (addrs_of f) = 13%nat.
Proof. unfold addrs_of. rewrite length_app, length_take, length_app, length_replicate. cbn [length]. lia. Qed.

Lemma nth_direct f i : (i < 11)%nat -> nth i (addrs_of f) 0 = default 0 (a_blocks f !! i).
Proof.
  intros Hi. unfold addrs_of. rewrite app_nth1 by (rewrite length_take, length_app, length_replicate; lia).
  rewrite nth_lookup, lookup_take_lt by done. destruct (decide (i < length (a_blocks f))%nat).
  - by rewrite lookup_app_l.
  - rewrite lookup_app_r, (lookup_ge_None_2 (a_blocks f)) by lia. destruct (replicate 11 0 !! _) eqn:E; [|done].
    by apply lookup_replicate_1 in E as [-> _].
Qed.

Lemma nth_ind f : nth 11 (addrs_of f) 0 = a_ind f.
Proof. unfold addrs_of. rewrite app_nth2; rewrite length_take, length_app, length_replicate; [|lia]. by replace (11 - _)%nat with 0%nat by lia. Qed.

Lemma addrs_snoc f x : (length (a_blocks f) < 11)%nat ->
  <[length (a_blocks f) := x]> (addrs_of f) = addrs_of (AFile (a_type f) (a_blocks f ++ [x]) (a_ind f) (a_data f)).
Proof.
  intros Hn. unfold addrs_of. cbn [a_blocks a_ind]. rewrite insert_app_l by (rewrite length_take, length_app, length_replicate; lia). f_equal.
  apply list_eq. intros i. destruct (decide (i < 11)%nat) as [Hi|Hi]; [|rewrite !lookup_ge_None_2; [done|rewrite length_take; lia|rewrite length_insert, length_take; lia]].
  rewrite lookup_take_lt by done. destruct (decide (i = length (a_blocks f))) as [->|N].
  - rewrite list_lookup_insert_eq by (rewrite length_take, length_app, length_replicate; lia). rewrite <- app_assoc, lookup_app_r, Nat.sub_diag by lia. done.
  - rewrite list_lookup_insert_ne, lookup_take_lt by done. destruct (decide (i < length (a_blocks f))%nat).
    + by rewrite <- app_assoc, !lookup_app_l.
    + rewrite <- app_assoc, !(lookup_app_r (a_blocks f)) by lia. destruct (i - length (a_blocks f))%nat as [|j] eqn:Ej; [lia|].
      change (([x] ++ replicate 11 0) !! S j) with (replicate 11 0 !! j). by rewrite !lookup_replicate_2 by lia.
Qed.

Lemma addrs_ind f x bs : (11 <= length (a_blocks f))%nat -> take 11 bs = take 11 (a_blocks f) -> (11 <= length bs)%nat ->
  <[11%nat := x]> (addrs_of f) = addrs_of (AFile (a_type f) bs x (a_data f)).
Proof.
  intros Hn Hb Hl. unfold addrs_of. cbn [a_blocks a_ind]. rewrite !take_app_le, Hb by lia.
  rewrite insert_app_r_alt by (rewrite length_take; lia). by replace (11 - _)%nat with 0%nat by (rewrite length_take; lia).
Qed.

(** A block number is a word. *)
Lemma din_of_ok v f : rep v f -> - 2 ^ 15 <= a_type f < 2 ^ 15 -> (forall m a, addr_at f m = Some a -> 0 <= a < 2 ^ 32) -> dinode_ok (din_of f).
Proof.
  intros R Ht Ha. pose proof (rp_max _ _ R). pose proof (rp_low _ _ R). constructor; cbn; try lia; [apply length_addrs_of|].
  apply Forall_lookup. intros i x Hi. assert (Hx : x = nth i (addrs_of f) 0) by (by rewrite nth_lookup, Hi).
  assert (Hz : forall o : option Z, (forall a, o = Some a -> 0 <= a < 2 ^ 32) -> 0 <= default 0 o < 2 ^ 32).
  { intros [a|] Ho; cbn; [by apply Ho|lia]. }
  destruct (decide (i < 11)%nat).
  - rewrite Hx, nth_direct by done. apply Hz. intros a Ea. apply (Ha i). unfold addr_at. by rewrite decide_False by lia.
  - destruct (decide (i = 11%nat)) as [->|]; [rewrite Hx, nth_ind; destruct (decide (a_ind f = 0)) as [E|N]; [lia|]; apply (Ha 139%nat); unfold addr_at; by rewrite decide_True, decide_False|].
    apply lookup_lt_Some in Hi as Hlt. rewrite length_addrs_of in Hlt. assert (i = 12%nat) as -> by lia.
    unfold addrs_of in Hi. rewrite lookup_app_r in Hi; rewrite length_take, length_app, length_replicate in *; [|lia].
    replace (12 - _)%nat with 1%nat in Hi by lia. injection Hi as <-. lia.
Qed.
