(* ===== verification/MkfsInv.v ===== *)
(** * The image while [mkfs] writes it

    The invariant of the image: its files, the inodes, and the blocks that are
    still free; every operation of [mkfs] keeps it. *)

From S2P Require Import Prelude Params CString Bio Log Balloc Inode Bmap Content Dir Mkfs MkfsFile.
Local Open Scope Z_scope.
Local Open Scope kmonad_scope.

Definition image (st : mkfs) : Z -> list Z := dblock (m_disk st).
Definition total (F : list afile) : nat := sum_list_with count F.
Definition inode_of (F : list afile) (i : Z) : dinode :=
  match F !! Z.to_nat (i - 1) with
  | Some f => if decide (0 < i) then din_of f else zero_dinode 0
  | None => zero_dinode 0
  end.
Definition sb_block : list Z := splice zero_block 0 (sb_bytes sb).

(** The image holds the files [F], inode [k + 1] the [k]-th of them; the inode
    [x] may be out of date. *)
Record good (x : option Z) (st : mkfs) (F : list afile) : Prop := {
  gd_fi : m_freeinode st = Z.of_nat (length F) + 1;
  gd_fb : m_freeblock st = nmeta + Z.of_nat (total F);
  gd_range i f m a : F !! i = Some f -> addr_at f m = Some a -> nmeta <= a < m_freeblock st;
  gd_inj i j f g m n a : F !! i = Some f -> F !! j = Some g -> addr_at f m = Some a -> addr_at g n = Some a -> i = j /\ m = n;
  gd_sect a : is_Some (m_disk st !! a) <-> 0 <= a < FSSIZE;
  gd_blocks a b : m_disk st !! a = Some b -> block_ok b;
  gd_rep i f : F !! i = Some f -> rep (image st) f;
  gd_type i f : F !! i = Some f -> - 2 ^ 15 <= a_type f < 2 ^ 15;
  gd_fresh a : m_freeblock st <= a -> image st a = zero_block;
  gd_meta a : 0 <= a < 32 \/ 58 <= a < 63 -> image st a = if decide (a = 1) then sb_block else zero_block;
  gd_ino i : 0 <= i < 208 -> x <> Some i -> dino sb (image st) i = inode_of F i
}.

Lemma nmeta_eq : nmeta = 63.
Proof. done. Qed.
Lemma IBLOCK_eq i : IBLOCK sb i = i / 8 + 32.
Proof. done. Qed.

Lemma total_insert F i f f1 : F !! i = Some f -> (total (<[i := f1]> F) + count f = total F + count f1)%nat.
Proof.
  intros Hi. pose proof (lookup_lt_Some _ _ _ Hi) as Hlt. rewrite insert_take_drop by done. rewrite <- (take_drop_middle F i f Hi) at 3. unfold total.
  rewrite !sum_list_with_app. cbn [sum_list_with]. lia.
Qed.

Lemma rep_ext v v' f : (forall m a, addr_at f m = Some a -> v' a = v a) -> rep v f -> rep v' f.
Proof.
  intros H [R1 R2 R3 R4 R5 R6 R7]. split; try done.
  - intros Hi j Hj. rewrite (H 139%nat); [by apply R5|]. unfold addr_at. by rewrite decide_True, decide_False.
  - intros i b Hb. rewrite (H i); [by apply R6|]. unfold addr_at. rewrite decide_False; [done|]. apply lookup_lt_Some in Hb. lia.
Qed.

(** One file grows: its places are the old ones and new blocks. *)
Lemma good_update st F i f f1 st1 : good (Some (Z.of_nat i + 1)) st F -> F !! i = Some f -> m_freeinode st1 = m_freeinode st ->
  m_freeblock st1 = m_freeblock st + Z.of_nat (count f1) - Z.of_nat (count f) -> m_freeblock st <= m_freeblock st1 <= FSSIZE ->
  a_type f1 = a_type f -> rep (image st1) f1 ->
  (forall m a, addr_at f1 m = Some a -> addr_at f m = Some a \/ m_freeblock st <= a < m_freeblock st1) ->
  (forall m n a, addr_at f1 m = Some a -> addr_at f1 n = Some a -> m = n) ->
  (forall a, ((exists m, addr_at f m = Some a) \/ m_freeblock st <= a < m_freeblock st1) /\ (exists b, m_disk st1 !! a = Some b /\ block_ok b) \/ m_disk st1 !! a = m_disk st !! a) ->
  good (Some (Z.of_nat i + 1)) st1 (<[i := f1]> F).
Proof.
  intros [G1 G2 G3 G4 G5 G6 G7 G8 G9 G10 G11] Hi Efi Efb Hfb Ety Hr Hold Hinj Hd. pose proof nmeta_eq as Hn.
  assert (Hsame : forall a, 0 <= a < 63 -> m_disk st1 !! a = m_disk st !! a).
  { intros a Ha. destruct (Hd a) as [[[[m Hm]|Hr'] _]|E]; [apply (G3 i f m a Hi) in Hm; lia|lia|done]. }
  assert (Hsame2 : forall a, 0 <= a < 63 -> image st1 a = image st a) by (intros a Ha; unfold image, dblock; by rewrite Hsame).
  split.
  - by rewrite Efi, length_insert.
  - pose proof (total_insert F i f f1 Hi). lia.
  - intros j g m a Hj Hm. destruct (decide (j = i)) as [->|N].
    + rewrite list_lookup_insert_eq in Hj by (by eapply lookup_lt_Some). injection Hj as <-. destruct (Hold _ _ Hm) as [H|H]; [apply (G3 i f m a Hi) in H; lia|lia].
    + rewrite list_lookup_insert_ne in Hj by done. apply (G3 j g m a Hj) in Hm. lia.
  - assert (Hcross : forall j g m n a, j <> i -> F !! j = Some g -> addr_at f1 m = Some a -> addr_at g n = Some a -> False).
    { intros j g m n a N Hj Hm Hg. destruct (Hold _ _ Hm) as [H|H]; [by destruct (G4 i j f g m n a Hi Hj H Hg)|]. apply (G3 j g n a Hj) in Hg. lia. }
    intros j j' g g' m n a Hj Hj' Hm Hm'. destruct (decide (j = i)) as [->|N], (decide (j' = i)) as [->|N'].
    + rewrite list_lookup_insert_eq in Hj, Hj' by (by eapply lookup_lt_Some). injection Hj as <-. injection Hj' as <-. split; [done|by eapply Hinj].
    + rewrite list_lookup_insert_eq in Hj by (by eapply lookup_lt_Some). injection Hj as <-. rewrite list_lookup_insert_ne in Hj' by done. by destruct (Hcross j' g' m n a).
    + rewrite list_lookup_insert_eq in Hj' by (by eapply lookup_lt_Some). injection Hj' as <-. rewrite list_lookup_insert_ne in Hj by done. by destruct (Hcross j g n m a).
    + rewrite list_lookup_insert_ne in Hj, Hj' by done. by eapply G4.
  - intros a. destruct (Hd a) as [[Ha (b & Eb & _)]|E]; [|by rewrite E]. rewrite Eb. split; [intros _|eauto].
    destruct Ha as [[m Hm]|Ha]; [apply (G3 i f m a Hi) in Hm|]; lia.
  - intros a b Hb. destruct (Hd a) as [[_ (b' & Eb & Hok)]|E]; [by rewrite Eb in Hb; injection Hb as <-|]. rewrite E in Hb. by eapply G6.
  - intros j g Hj. destruct (decide (j = i)) as [->|N]; [rewrite list_lookup_insert_eq in Hj by (by eapply lookup_lt_Some); by injection Hj as <-|].
    rewrite list_lookup_insert_ne in Hj by done. eapply rep_ext; [|by apply (G7 j)]. intros m a Hm. unfold image, dblock.
    destruct (Hd a) as [[[[m' Hm']|Ha] _]|E]; [by destruct (G4 i j f g m' m a Hi Hj Hm' Hm)| |by rewrite E]. apply (G3 j g m a Hj) in Hm. lia.
  - intros j g Hj. destruct (decide (j = i)) as [->|N]; [rewrite list_lookup_insert_eq in Hj by (by eapply lookup_lt_Some); injection Hj as <-; rewrite Ety|rewrite list_lookup_insert_ne in Hj by done]; by eapply G8.
  - intros a Ha. rewrite <- (G9 a) by lia. unfold image, dblock. destruct (Hd a) as [[[[m Hm]|Ha'] _]|E]; [apply (G3 i f m a Hi) in Hm; lia|lia|by rewrite E].
  - intros a Ha. rewrite Hsame2 by lia. by apply G10.
  - intros j Hj Hxj. unfold dino. rewrite Hsame2 by (rewrite IBLOCK_eq; lia). fold (dino sb (image st) j). rewrite G11 by done. unfold inode_of.
    destruct (decide (Z.to_nat (j - 1) = i)) as [E|N]; [|by rewrite list_lookup_insert_ne].
    rewrite E, Hi, list_lookup_insert_eq by (by eapply lookup_lt_Some). destruct (decide (0 < j)) as [Hp|]; [|done]. destruct Hxj. f_equal. lia.
Qed.

(** ** A block more *)

Definition snoc (f : afile) (x ind : Z) : afile := AFile (a_type f) (a_blocks f ++ [x]) ind (a_data f).

Lemma addr_block f m a : a_blocks f !! m = Some a -> (length (a_blocks f) <= 139)%nat -> addr_at f m = Some a.
Proof. intros H Hl. unfold addr_at. rewrite decide_False; [done|]. apply lookup_lt_Some in H. lia. Qed.
Lemma addr_ind f : a_ind f <> 0 -> addr_at f 139 = Some (a_ind f).
Proof. intros H. unfold addr_at. by rewrite decide_True, decide_False. Qed.
Lemma addr_cases f m a : addr_at f m = Some a -> m = 139%nat /\ a_ind f <> 0 /\ a = a_ind f \/ m <> 139%nat /\ a_blocks f !! m = Some a.
Proof. unfold addr_at. intros H. destruct (decide (m = 139%nat)); [|by right]. destruct (decide (a_ind f = 0)); [done|]. left. by injection H as <-. Qed.

Lemma lookup_snoc_Some (l : list Z) x i y : (l ++ [x]) !! i = Some y <-> l !! i = Some y \/ i = length l /\ y = x.
Proof.
  destruct (decide (i < length l)%nat) as [H|H].
  - rewrite lookup_app_l by done. split; [by left|]. intros [?|[-> _]]; [done|lia].
  - rewrite lookup_app_r by lia. rewrite (lookup_ge_None_2 l) by lia. split.
    + intros E. right. apply list_lookup_singleton_Some in E as [Ei ->]. split; [lia|done].
    + intros [?|[-> ->]]; [done|]. by rewrite Nat.sub_diag.
Qed.

Section grow.
Context (st st1 : mkfs) (F : list afile) (i : nat) (f : afile) (x ind : Z).
Abbreviation n := (length (a_blocks f)).
Context (G : good (Some (Z.of_nat i + 1)) st F) (Hi : F !! i = Some f).
Context (Hn : (512 * n)%nat = length (a_data f)) (Hmax : (n < 139)%nat).
Context (Hind : ind = a_ind f /\ n <> 11%nat /\ x = m_freeblock st /\ m_freeblock st1 = x + 1
                \/ n = 11%nat /\ ind = m_freeblock st /\ x = ind + 1 /\ m_freeblock st1 = x + 1).
Context (Hfi : m_freeinode st1 = m_freeinode st) (Hfb : m_freeblock st1 <= FSSIZE).
Context (Hd : m_disk st1 = if decide (ind = 0) then m_disk st else <[ind := set32 (image st ind) (n - 11) x]> (m_disk st)).

Lemma grow_rep : rep (image st) f.
Proof using All. by eapply gd_rep. Qed.

Lemma grow_ind0 : ind = 0 <-> (n < 11)%nat.
Proof using All.
  pose proof (rp_ind _ _ grow_rep) as R. pose proof (gd_fb _ _ _ G). pose proof nmeta_eq. destruct Hind as [(-> & ? & _)|(? & -> & _)]; [rewrite R|]; lia.
Qed.

Lemma grow_fresh m a : addr_at f m = Some a -> nmeta <= a < m_freeblock st.
Proof using All. by apply (gd_range _ _ _ G i f m a Hi). Qed.

Lemma grow_old m a : addr_at (snoc f x ind) m = Some a -> addr_at f m = Some a \/ m_freeblock st <= a < m_freeblock st1.
Proof using All.
  intros [(-> & Hz & ->)|(N & H)]%addr_cases; cbn in *.
  - destruct Hind as [(E & _)|(_ & -> & -> & ->)]; [left; rewrite E; apply addr_ind; by rewrite <- E|right; lia].
  - apply lookup_snoc_Some in H as [H|[_ ->]]; [left; apply addr_block; [done|lia]|right]. destruct Hind as [(_ & _ & -> & ->)|(_ & -> & -> & ->)]; lia.
Qed.

Lemma grow_inj m k a : addr_at (snoc f x ind) m = Some a -> addr_at (snoc f x ind) k = Some a -> m = k.
Proof using All.
  assert (Hx : forall m', addr_at f m' = Some x -> False) by (intros m' H; apply grow_fresh in H; destruct Hind as [(_ & _ & -> & _)|(_ & -> & -> & _)]; lia).
  assert (Hb : forall m', a_blocks f !! m' = Some ind -> ind <> 0 -> m' = 139%nat).
  { intros m' H Hz. apply addr_block in H; [|lia]. destruct Hind as [(E & _)|(_ & E & _)].
    - assert (E' : addr_at f 139 = Some ind) by (rewrite E; apply addr_ind; by rewrite <- E). by destruct (gd_inj _ _ _ G i i f f _ _ _ Hi Hi H E').
    - apply grow_fresh in H. lia. }
  assert (Hxi : ind <> 0 -> ind <> x).
  { intros Hz ->. destruct Hind as [(E & _)|(_ & E & E' & _)]; [|lia]. apply (Hx 139%nat). rewrite E. apply addr_ind. by rewrite <- E. }
  intros [(-> & Hz & ->)|(N & H)]%addr_cases [(-> & Hz' & E)|(N' & H')]%addr_cases; cbn in *; try done.
  - apply lookup_snoc_Some in H' as [H'|[_ E]]; [by rewrite (Hb _ H' Hz)|by destruct Hxi].
  - subst a. apply lookup_snoc_Some in H as [H|[_ E]]; [by rewrite (Hb _ H Hz')|by destruct Hxi].
  - apply lookup_snoc_Some in H as [H|[-> ->]], H' as [H'|[-> E]]; try done.
    + apply addr_block in H, H'; [|lia..]. by destruct (gd_inj _ _ _ G i i f f _ _ _ Hi Hi H H').
    + subst a. apply addr_block in H; [|lia]. by destruct (Hx _ H).
    + apply addr_block in H'; [|lia]. by destruct (Hx _ H').
Qed.

Lemma grow_rep1 : rep (image st1) (snoc f x ind).
Proof using All.
  pose proof grow_rep as R. pose proof grow_ind0 as I0. pose proof (gd_fb _ _ _ G) as Efb. pose proof nmeta_eq.
  assert (Hxr : m_freeblock st <= x < m_freeblock st1) by (destruct Hind as [(_ & _ & -> & ->)|(_ & -> & -> & ->)]; lia).
  assert (Hsame : forall a, a <> ind -> image st1 a = image st a).
  { intros a Ha. unfold image, dblock. rewrite Hd. destruct (decide (ind = 0)); [done|]. by rewrite lookup_insert_ne. }
  split; cbn [snoc a_blocks a_data a_ind]; rewrite ?length_app; cbn [length]; try lia.
  - intros Hz j Hj. assert (Hblk : block_ok (image st ind)).
    { unfold image, dblock. destruct (m_disk st !! ind) eqn:E; [by eapply gd_blocks|apply zero_block_ok]. }
    assert (E1 : image st1 ind = set32 (image st ind) (n - 11) x).
    { unfold image at 1, dblock. rewrite Hd, decide_False by done. by rewrite lookup_insert_eq. }
    assert (Hold : get32 (image st ind) j = default 0 (a_blocks f !! (11 + j)%nat)).
    { destruct Hind as [(E & _)|(E & E' & _)]; [rewrite E; apply (rp_entries _ _ R); [by rewrite <- E|done]|].
      rewrite (gd_fresh _ _ _ G) by lia. unfold zero_block. rewrite get32_replicate. by rewrite lookup_ge_None_2 by lia. }
    destruct Hblk as [Hl _]. change (Z.to_nat BSIZE) with 512%nat in Hl. rewrite E1. destruct (decide (j = (n - 11)%nat)) as [->|N].
    + rewrite get_set32_eq by (change FSSIZE with 20000 in *; rewrite ?Hl; lia). rewrite lookup_app_r by lia. replace (11 + _ - n)%nat with 0%nat by lia. done.
    + rewrite get_set32_ne by (rewrite ?Hl; lia). rewrite Hold. destruct (decide (11 + j < n)%nat); [by rewrite lookup_app_l|].
      rewrite !lookup_ge_None_2; [done|rewrite length_app; cbn [length]; lia|lia].
  - intros k b Hb. assert (Hb' : b <> ind).
    { intros ->. destruct (Z.eq_dec ind 0) as [E|N].
      - apply lookup_snoc_Some in Hb as [Hb|[_ Hb]]; [apply addr_block, grow_fresh in Hb; lia|lia].
      - assert (k < 140)%nat by (apply lookup_lt_Some in Hb; rewrite length_app in Hb; cbn in Hb; lia).
        assert (H139 : addr_at (snoc f x ind) 139 = Some ind) by (by apply addr_ind).
        apply (addr_block (snoc f x ind)) in Hb as Hb2; [|cbn; rewrite length_app; cbn; lia].
        pose proof (grow_inj _ _ _ Hb2 H139) as ->. apply lookup_lt_Some in Hb. rewrite length_app in Hb. cbn in Hb. lia. }
    rewrite Hsame by done. apply lookup_snoc_Some in Hb as [Hb|[-> ->]]; [by apply (rp_data _ _ R)|].
    rewrite chunk_empty by lia. apply (gd_fresh _ _ _ G). lia.
  - apply (rp_bytes _ _ R).
Qed.

Lemma grow_count : Z.of_nat (count (snoc f x ind)) - Z.of_nat (count f) = m_freeblock st1 - m_freeblock st.
Proof using All.
  pose proof grow_ind0 as I0. pose proof (rp_ind _ _ grow_rep) as I1. unfold count, snoc. cbn [a_blocks a_ind]. rewrite length_app. cbn [length].
  destruct (decide (ind = 0)), (decide (a_ind f = 0)), Hind as [(E & ? & -> & ->)|(? & -> & -> & ->)]; lia.
Qed.

Lemma grow_good : good (Some (Z.of_nat i + 1)) st1 (<[i := snoc f x ind]> F).
Proof using All.
  pose proof grow_count as Hc. pose proof (gd_fb _ _ _ G) as Efb. pose proof nmeta_eq. pose proof grow_ind0 as I0.
  assert (Hle : m_freeblock st <= m_freeblock st1) by (destruct Hind as [(_ & _ & -> & ->)|(_ & -> & -> & ->)]; lia).
  eapply good_update; [exact G|done..|lia|lia|done|apply grow_rep1|apply grow_old|apply grow_inj|].
  intros a. rewrite Hd. destruct (Z.eq_dec ind 0) as [E|N]; [right; by rewrite decide_True|]. rewrite decide_False by done. destruct (decide (a = ind)) as [->|]; [left|right; by rewrite lookup_insert_ne].
  rewrite lookup_insert_eq. split.
  - destruct (grow_old 139 ind) as [E|E]; [by apply addr_ind|left; by exists 139%nat|by right].
  - eexists. split; [done|]. replace (n - 11)%nat with (Z.to_nat (Z.of_nat (n - 11))) by lia. apply set32_ok; [|split; [lia|]].
    + unfold image, dblock. destruct (m_disk st !! ind) eqn:E; [by eapply gd_blocks|apply zero_block_ok].
    + change NINDIRECT with 128. lia.
Qed.
End grow.

Lemma newblock_eval st : 0 <= m_freeblock st < FSSIZE -> newblock st = Ret (m_freeblock st) (Mkfs (m_disk st) (m_freeinode st) (m_freeblock st + 1)).
Proof.
  intros H. change FSSIZE with 20000 in H. unfold newblock. rewrite gets_bind, modify_bind. unfold ret, u32. rewrite xint_small, Z.mod_small by lia. done.
Qed.

Lemma rsect_eval x st F a : good x st F -> 0 <= a < FSSIZE -> rsect a st = Ret (image st a) st.
Proof.
  intros G Ha. unfold rsect, image, dblock. rewrite gets_bind. apply (gd_sect _ _ _ G) in Ha as [b ->]. done.
Qed.

Lemma disk_at x st F a : good x st F -> 0 <= a < FSSIZE -> m_disk st !! a = Some (image st a).
Proof. intros G Ha. unfold image, dblock. by apply (gd_sect _ _ _ G) in Ha as [b ->]. Qed.

Lemma addrs_more f x : (11 <= length (a_blocks f))%nat -> addrs_of (snoc f x (a_ind f)) = addrs_of f.
Proof. intros H. unfold addrs_of, snoc. cbn [a_blocks a_ind]. f_equal. by rewrite <- app_assoc, !take_app_le by lia. Qed.

Lemma addr_small x st F i f m a : good x st F -> F !! i = Some f -> m_freeblock st <= FSSIZE -> addr_at f m = Some a -> 0 < a < FSSIZE /\ xint a = a /\ (a =? 0) = false.
Proof.
  intros G Hi Hf Ha. apply (gd_range _ _ _ G i f m a Hi) in Ha. pose proof nmeta_eq. change FSSIZE with 20000 in *. split; [lia|]. split; [apply xint_small|apply Z.eqb_neq]; lia.
Qed.

(** A new block in the indirect block; with a new indirect block. *)
Lemma append_ind din st a b k : nth 11 (d_addrs din) 0 = a -> 0 < a < FSSIZE -> m_disk st !! a = Some b -> 11 <= Z.of_nat k < 139 ->
  get32 b (k - 11) = 0 -> 0 <= m_freeblock st < FSSIZE ->
  append_block din (Z.of_nat k) st = Ret (din, m_freeblock st) (Mkfs (<[a := set32 b (k - 11) (m_freeblock st)]> (m_disk st)) (m_freeinode st) (m_freeblock st + 1)).
Proof.
  intros Ha Har Hb Hk Hg Hf. unfold append_block. change NDIRECT with 11. change NINDIRECT with 128. change (Z.to_nat 11) with 11%nat.
  assert (HF : FSSIZE = 20000) by done. rewrite (proj2 (Z.ltb_ge _ _)) by lia. rewrite Ha, xint_small, (proj2 (Z.eqb_neq _ _)) by lia. rewrite ret_bind, Ha, xint_small by lia.
  assert (E : rsect a st = Ret b st) by (unfold rsect; by rewrite gets_bind, Hb). rewrite (bind_Ret _ _ _ _ _ E). rewrite (proj2 (Z.leb_gt _ _)) by lia.
  replace (Z.to_nat (Z.of_nat k - 11)) with (k - 11)%nat by lia. rewrite Hg. change (0 =? 0) with true. cbv iota.
  rewrite (bind_Ret _ _ _ _ _ (newblock_eval st Hf)). unfold wsect. rewrite modify_bind. unfold ret. rewrite xint_small by lia. done.
Qed.

Lemma append_ind0 din st k : nth 11 (d_addrs din) 0 = 0 -> length (d_addrs din) = 13%nat -> 11 <= Z.of_nat k -> 0 < m_freeblock st < FSSIZE ->
  append_block din (Z.of_nat k) st =
  append_block (with_addrs din (<[11%nat := m_freeblock st]> (d_addrs din))) (Z.of_nat k) (Mkfs (m_disk st) (m_freeinode st) (m_freeblock st + 1)).
Proof.
  intros Ha Hl Hk Hf. unfold append_block. change NDIRECT with 11. change (Z.to_nat 11) with 11%nat. rewrite (proj2 (Z.ltb_ge _ _)) by lia. rewrite Ha.
  change (xint 0 =? 0) with true. cbv iota. unfold bind at 1 2. rewrite newblock_eval by lia. unfold ret at 1. cbn [with_addrs d_addrs].
  rewrite nth_lookup, list_lookup_insert_eq by lia. change (default 0 (Some (m_freeblock st))) with (m_freeblock st).
  assert (HF : FSSIZE = 20000) by done. rewrite xint_small, (proj2 (Z.eqb_neq _ _)) by lia. rewrite ret_bind. cbn [d_addrs with_addrs].
  rewrite nth_lookup, list_lookup_insert_eq by lia. change (default 0 (Some (m_freeblock st))) with (m_freeblock st). by rewrite xint_small by lia.
Qed.

(** The block of the next byte of a file. *)
Lemma append_block_spec st F i f din : good (Some (Z.of_nat i + 1)) st F -> F !! i = Some f -> d_addrs din = addrs_of f ->
  (length (a_data f) < 512 * 139)%nat -> m_freeblock st + 2 <= FSSIZE ->
  exists f1 st1 x, append_block din (Z.of_nat (length (a_data f) / 512)) st = Ret (with_addrs din (addrs_of f1), x) st1 /\
    good (Some (Z.of_nat i + 1)) st1 (<[i := f1]> F) /\ a_type f1 = a_type f /\ a_data f1 = a_data f /\
    length (a_blocks f1) = S (length (a_data f) / 512) /\ a_blocks f1 !! (length (a_data f) / 512)%nat = Some x.
Proof.
  intros G Hi Had Hlen Hfb. pose proof (gd_rep _ _ _ G i f Hi) as R. set (k := (length (a_data f) / 512)%nat).
  assert (Hk : (k < 139)%nat) by (subst k; lia). pose proof (rp_low _ _ R). pose proof (rp_high _ _ R). pose proof (rp_ind _ _ R) as RI.
  pose proof (gd_fb _ _ _ G) as Efb. pose proof nmeta_eq as Hm. assert (HF : FSSIZE = 20000) by done.
  assert (Hdin : with_addrs din (addrs_of f) = din) by (rewrite <- Had; by destruct din).
  assert (Hif : <[i := f]> F = F) by (by apply list_insert_id).
  destruct (decide (length (a_blocks f) = S k)) as [Hl|Hl].
  - destruct (lookup_lt_is_Some_2 (a_blocks f) k) as [x Hx]; [lia|].
    destruct (addr_small _ st F i f k x G Hi) as (Hxr & Ex & Ez); [lia|apply addr_block; [done|apply (rp_max _ _ R)]|].
    exists f, st, x. rewrite Hif, Hdin. split; [|done]. unfold append_block. change NDIRECT with 11. change NINDIRECT with 128.
    destruct (Z.of_nat k <? 11) eqn:E; [apply Z.ltb_lt in E|apply Z.ltb_ge in E].
    + rewrite Had, Nat2Z.id, nth_direct, Hx by lia. change (default 0 (Some x)) with x. rewrite Ex, Ez. done.
    + assert (Hnz : a_ind f <> 0) by (rewrite RI; lia). destruct (addr_small _ st F i f 139 (a_ind f) G Hi) as (Hir & Ei & Eiz); [lia|by apply addr_ind|].
      rewrite Had. change (Z.to_nat 11) with 11%nat. rewrite nth_ind, Ei, Eiz, ret_bind, Had, nth_ind, Ei. rewrite (bind_Ret _ _ _ _ _ (rsect_eval _ _ _ _ G (ltac:(lia) : 0 <= a_ind f < FSSIZE))).
      rewrite (proj2 (Z.leb_gt _ _)) by lia. rewrite (rp_entries _ _ R) by (done || lia). replace (11 + Z.to_nat (Z.of_nat k - 11))%nat with k by lia.
      rewrite Hx. change (default 0 (Some x)) with x. rewrite Ez, Ex. done.
  - assert (Hl' : length (a_blocks f) = k) by (subst k; lia). assert (Hd512 : (512 * length (a_blocks f))%nat = length (a_data f)) by (subst k; lia).
    assert (Hfr : 0 <= m_freeblock st < FSSIZE) by lia.
    set (st0 := Mkfs (m_disk st) (m_freeinode st) (m_freeblock st + 1)).
    destruct (decide (Z.of_nat k < 11)) as [E|E].
    + exists (snoc f (m_freeblock st) (a_ind f)), st0, (m_freeblock st).
      split; [|split; [eapply grow_good; [done..|lia|left; split_and!; [done|lia|done|done]|done|cbn; lia|]|]].
      * unfold append_block. change NDIRECT with 11. rewrite (proj2 (Z.ltb_lt _ _)) by lia. rewrite Had, Nat2Z.id, nth_direct, lookup_ge_None_2 by lia. change (xint (default 0 None) =? 0) with true. cbv iota.
        rewrite (bind_Ret _ _ _ _ _ (newblock_eval st Hfr)). unfold ret. rewrite xint_small by lia. rewrite <- Hl', addrs_snoc by lia. done.
      * rewrite decide_True by (rewrite RI; lia). done.
      * cbn. rewrite length_app, Hl'. cbn. split_and!; [done..|lia|]. by apply lookup_snoc_Some; right.
    + destruct (decide (k = 11%nat)) as [E11|N11].
      * exists (snoc f (m_freeblock st + 1) (m_freeblock st)), (Mkfs (<[m_freeblock st := set32 (image st (m_freeblock st)) 0 (m_freeblock st + 1)]> (m_disk st)) (m_freeinode st) (m_freeblock st + 2)), (m_freeblock st + 1).
        split; [|split; [eapply grow_good; [done..|lia|right; split_and!; [lia|done|done|cbn; lia]|done|cbn; lia|]|]].
        -- rewrite append_ind0 by (lia || rewrite Had; ((rewrite nth_ind; apply RI; lia) || apply length_addrs_of)).
           rewrite (append_ind _ _ (m_freeblock st) (image st (m_freeblock st)) k).
           ++ cbn [with_addrs d_addrs m_disk m_freeblock m_freeinode]. rewrite E11, Nat.sub_diag, Had. do 2 f_equal; [|lia].
              by rewrite (addrs_ind f _ (a_blocks f ++ [m_freeblock st + 1])); [|lia|rewrite take_app_le by lia|rewrite length_app; lia].
           ++ cbn. rewrite nth_lookup, list_lookup_insert_eq; [done|]. rewrite Had, length_addrs_of. lia.
           ++ lia.
           ++ cbn. eapply disk_at; [done|lia].
           ++ lia.
           ++ rewrite (gd_fresh _ _ _ G) by lia. apply get32_replicate.
           ++ cbn. lia.
        -- rewrite decide_False by lia. cbn. by rewrite Hl', E11.
        -- cbn. rewrite length_app, Hl'. cbn. split_and!; [done..|lia|]. by apply lookup_snoc_Some; right.
      * exists (snoc f (m_freeblock st) (a_ind f)), (Mkfs (<[a_ind f := set32 (image st (a_ind f)) (k - 11) (m_freeblock st)]> (m_disk st)) (m_freeinode st) (m_freeblock st + 1)), (m_freeblock st).
        split; [|split; [eapply grow_good; [done..|lia|left; split_and!; [done|lia|done|done]|done|cbn; lia|]|]].
        -- assert (Hnz : a_ind f <> 0) by (rewrite RI; lia). destruct (addr_small _ st F i f 139 (a_ind f) G Hi) as (Hir & Ei & Eiz); [lia|by apply addr_ind|].
           rewrite (append_ind _ _ (a_ind f) (image st (a_ind f)) k); [by rewrite addrs_more, Hdin by lia|by rewrite Had, nth_ind|lia|by eapply disk_at; [|lia]|lia| |lia].
           rewrite (rp_entries _ _ R) by (done || lia). by rewrite lookup_ge_None_2 by lia.
        -- rewrite decide_False by (rewrite RI; lia). cbn. by rewrite Hl'.
        -- cbn. rewrite length_app, Hl'. cbn. split_and!; [done..|lia|]. by apply lookup_snoc_Some; right.
Qed.

(** ** Appending *)

Definition set_data (f : afile) (d : list Z) : afile := AFile (a_type f) (a_blocks f) (a_ind f) d.

(** Bytes into the last block. *)
Lemma write_good st F i f x k p : good (Some (Z.of_nat i + 1)) st F -> F !! i = Some f -> k = (length (a_data f) / 512)%nat ->
  length (a_blocks f) = S k -> a_blocks f !! k = Some x -> (length (a_data f) + length p <= 512 * S k)%nat -> bytes p -> m_freeblock st <= FSSIZE ->
  good (Some (Z.of_nat i + 1)) (m_set_disk (<[x := splice (image st x) (length (a_data f) - 512 * k) p]> (m_disk st)) st)
    (<[i := set_data f (a_data f ++ p)]> F).
Proof.
  intros G Hi Ek Hl Hx Hp Hb Hf. pose proof (gd_rep _ _ _ G i f Hi) as R. pose proof (rp_max _ _ R) as Hmax.
  assert (Hxa : addr_at f k = Some x) by (by apply addr_block).
  assert (Hch : chunk (a_data f ++ p) k = splice (image st x) (length (a_data f) - 512 * k) p).
  { rewrite (rp_data _ _ R k x Hx). apply chunk_append; lia. }
  assert (Hbo : bytes (a_data f ++ p)) by (apply Forall_app; split; [apply (rp_bytes _ _ R)|done]).
  eapply good_update; [exact G|done..|cbn; unfold count, set_data; cbn; lia|cbn; lia|done| |by left|intros m n a; apply (gd_inj _ _ _ G i i f f m n a Hi Hi)|].
  - assert (Hne : forall m a, addr_at f m = Some a -> m <> k -> a <> x).
    { intros m a Hm N ->. by destruct (gd_inj _ _ _ G i i f f _ _ _ Hi Hi Hm Hxa). }
    split; cbn [set_data a_blocks a_data a_ind]; rewrite ?length_app; try lia; try done.
    + apply (rp_ind _ _ R).
    + intros Hz j Hj. rewrite <- (rp_entries _ _ R Hz j Hj). unfold image, dblock. cbn [m_disk m_set_disk]. rewrite lookup_insert_ne; [done|].
      apply not_eq_sym, (Hne 139%nat); [by apply addr_ind|lia].
    + intros m b Hm. destruct (decide (m = k)) as [->|N].
      * rewrite Hx in Hm. injection Hm as <-. rewrite Hch. unfold image at 1, dblock. cbn [m_disk m_set_disk]. by rewrite lookup_insert_eq.
      * assert (Hmk : (m < k)%nat) by (apply lookup_lt_Some in Hm; lia). rewrite chunk_old by lia. rewrite <- (rp_data _ _ R m b Hm).
        unfold image, dblock. cbn [m_disk m_set_disk]. rewrite lookup_insert_ne; [done|]. apply not_eq_sym, (Hne m); [by apply addr_block|done].
  - intros a. cbn [m_disk m_set_disk]. destruct (decide (a = x)) as [->|]; [left|right; by rewrite lookup_insert_ne]. rewrite lookup_insert_eq. split; [left; by exists k|].
    eexists. split; [done|]. rewrite <- Hch. split; [apply length_chunk|by apply bytes_chunk].
Qed.

Lemma good_small x st F i f : good x st F -> F !! i = Some f -> Z.of_nat (total F) - Z.of_nat (count f) + 300 <= FSSIZE -> m_freeblock st + 2 <= FSSIZE.
Proof.
  intros G Hi H. rewrite (gd_fb _ _ _ G), nmeta_eq. assert (count f <= 140)%nat; [|lia].
  pose proof (rp_max _ _ (gd_rep _ _ _ G i f Hi)). unfold count. destruct (decide _); lia.
Qed.

Lemma iappend_step fuel din n p st din1 x st1 b : (0 < length p)%nat -> (n < 512 * 139)%nat -> append_block din (Z.of_nat (n / 512)) st = Ret (din1, x) st1 ->
  rsect x st1 = Ret b st1 ->
  let n1 := (length p `min` (512 * S (n / 512) - n))%nat in
  iappend_loop (S fuel) din (Z.of_nat n) p st =
  iappend_loop fuel din1 (Z.of_nat (n + n1)) (drop n1 p) (m_set_disk (<[x := splice b (n - 512 * (n / 512)) (take n1 p)]> (m_disk st1)) st1).
Proof.
  intros Hp Hn Ea Er n1. destruct p as [|y q]; [cbn in Hp; lia|]. cbn [iappend_loop]. change BSIZE with 512. change MAXFILE with 16523.
  assert (Ek : Z.of_nat n / 512 = Z.of_nat (n / 512)) by (rewrite Nat2Z.inj_div; done). set (k := (n / 512)%nat) in *. assert (Hk : (512 * k <= n < 512 * S k)%nat) by (subst k; lia).
  rewrite Ek. rewrite (proj2 (Z.leb_gt _ _)) by lia. rewrite (bind_Ret _ _ _ _ _ Ea), (bind_Ret _ _ _ _ _ Er). unfold wsect. rewrite modify_bind.
  assert (E1 : Z.min (Z.of_nat (length (y :: q))) ((Z.of_nat k + 1) * 512 - Z.of_nat n) = Z.of_nat n1) by (subst n1; lia). rewrite E1, !Nat2Z.id.
  replace (u32 (Z.of_nat n + Z.of_nat n1)) with (Z.of_nat (n + n1)) by (unfold u32; rewrite Z.mod_small; subst n1; lia).
  by replace (Z.to_nat (Z.of_nat n - Z.of_nat k * 512)) with (n - 512 * k)%nat by lia.
Qed.

Lemma iappend_loop_spec p : forall fuel st F i f din, good (Some (Z.of_nat i + 1)) st F -> F !! i = Some f -> exact f -> d_addrs din = addrs_of f ->
  (length (a_data f) + length p <= 512 * 139)%nat -> bytes p -> Z.of_nat (total F) - Z.of_nat (count f) + 300 <= FSSIZE -> (length p <= fuel)%nat ->
  exists f' st', iappend_loop fuel din (Z.of_nat (length (a_data f))) p st = Ret (with_addrs din (addrs_of f'), Z.of_nat (length (a_data f'))) st' /\
    good (Some (Z.of_nat i + 1)) st' (<[i := f']> F) /\ a_type f' = a_type f /\ a_data f' = a_data f ++ p /\ exact f'.
Proof.
  induction p as [p IH] using (induction_ltof1 _ (@length Z)). unfold ltof in IH. intros fuel st F i f din G Hi Hex Had Hlen Hb Hroom Hfuel.
  destruct p as [|y q].
  { exists f, st. rewrite app_nil_r, list_insert_id by done. split; [|done]. rewrite <- Had. destruct fuel; cbn; unfold ret; by destruct din. }
  destruct fuel as [|fuel]; [cbn in Hfuel; lia|]. remember (y :: q) as p eqn:Ep. assert (Hpos : (0 < length p)%nat) by (rewrite Ep; cbn; lia).
  set (k := (length (a_data f) / 512)%nat). set (n1 := (length p `min` (512 * S k - length (a_data f)))%nat).
  destruct (append_block_spec st F i f din G Hi Had) as (f1 & st1 & x & E1 & G1 & Ht1 & Hd1 & Hl1 & Hx1); [lia|by eapply good_small|].
  fold k in E1, Hl1, Hx1. assert (Hi1 : <[i:=f1]> F !! i = Some f1) by (apply list_lookup_insert_eq; by eapply lookup_lt_Some).
  assert (Hroom1 : Z.of_nat (total (<[i:=f1]> F)) - Z.of_nat (count f1) + 300 <= FSSIZE) by (pose proof (total_insert F i f f1 Hi); lia).
  assert (Hxr : 0 < x < FSSIZE) by (eapply addr_small; [exact G1|exact Hi1|pose proof (good_small _ _ _ _ _ G1 Hi1 Hroom1); lia|apply addr_block; [done|lia]]).
  assert (Hn1 : (length (take n1 p) = n1)%nat) by (rewrite length_take; subst n1; lia). assert (Hdk : (512 * k <= length (a_data f) < 512 * S k)%nat) by (subst k; lia).
  pose proof (write_good st1 (<[i:=f1]> F) i f1 x k (take n1 p) G1 Hi1) as G2. rewrite Hd1, Hn1, list_insert_insert_eq in G2.
  specialize (G2 eq_refl Hl1 Hx1 ltac:(subst n1; lia) ltac:(by apply Forall_take) ltac:(pose proof (good_small _ _ _ _ _ G1 Hi1 Hroom1); lia)).
  set (st2 := m_set_disk _ st1) in G2. set (f2 := set_data f1 (a_data f ++ take n1 p)) in G2.
  assert (Hi2 : <[i:=f2]> F !! i = Some f2) by (apply list_lookup_insert_eq; by eapply lookup_lt_Some).
  assert (Hl2 : length (a_data f2) = (length (a_data f) + n1)%nat) by (cbn; by rewrite length_app, Hn1).
  destruct (IH (drop n1 p) ltac:(rewrite length_drop; subst n1; lia) fuel st2 (<[i:=f2]> F) i f2 (with_addrs din (addrs_of f1)) G2 Hi2) as (f' & st' & E3 & G3 & Ht3 & Hd3 & Hex3).
  - unfold exact. rewrite Hl2. change (a_blocks f2) with (a_blocks f1). rewrite Hl1. unfold nblk. subst n1. clear -Hpos Hdk. lia.
  - done.
  - rewrite Hl2, length_drop. subst n1. lia.
  - by apply Forall_drop.
  - pose proof (total_insert F i f f2 Hi). lia.
  - rewrite length_drop. subst n1. lia.
  - exists f', st'. rewrite list_insert_insert_eq in G3. split; [|split; [done|]; split; [by rewrite Ht3|]; split; [|done]].
    + rewrite (iappend_step fuel din (length (a_data f)) p st _ x st1 (image st1 x) Hpos ltac:(lia) E1); [|eapply rsect_eval; [exact G1|lia]].
      fold k n1 st2. rewrite <- Hl2, E3. done.
    + rewrite Hd3. cbn. by rewrite <- app_assoc, take_drop.
Qed.

(** ** Inodes *)

Lemma good_weaken x st F : good None st F -> good x st F.
Proof. intros [G1 G2 G3 G4 G5 G6 G7 G8 G9 G10 G11]. split; try done. intros i Hi _. by apply G11. Qed.

Lemma good_din x st F i f : good x st F -> F !! i = Some f -> m_freeblock st <= FSSIZE -> dinode_ok (din_of f).
Proof.
  intros G Hi Hf. eapply din_of_ok; [by eapply gd_rep|by eapply gd_type|]. intros m a Ha. apply (addr_small _ _ _ _ _ _ _ G Hi Hf) in Ha.
  change FSSIZE with 20000 in Ha. lia.
Qed.

Lemma winode_good st F i f : good (Some (Z.of_nat i + 1)) st F -> F !! i = Some f -> Z.of_nat i + 1 < 200 -> m_freeblock st <= FSSIZE ->
  exists st', winode (Z.of_nat i + 1) (din_of f) st = Ret tt st' /\ good None st' F.
Proof.
  intros G Hi Hlt Hf. pose proof (good_din _ _ _ _ _ G Hi Hf) as Hok. set (j := Z.of_nat i + 1) in *. pose proof nmeta_eq as Hn.
  pose proof (gd_fb _ _ _ G) as Efb. assert (HF : FSSIZE = 20000) by done. assert (Hj : 32 <= IBLOCK sb j < 58) by (rewrite IBLOCK_eq; subst j; lia).
  unfold winode. rewrite (bind_Ret _ _ _ _ _ (rsect_eval _ _ _ _ G (ltac:(lia) : 0 <= IBLOCK sb j < FSSIZE))).
  set (b := put_dinode (image st (IBLOCK sb j)) (j mod IPB) (din_of f)). eexists. split; [done|].
  assert (Hm : 0 <= j mod IPB < IPB) by (change IPB with 8; apply Z.mod_pos_bound; lia).
  assert (Hbo : block_ok (image st (IBLOCK sb j))) by (eapply gd_blocks; [exact G|]; eapply disk_at; [exact G|lia]).
  assert (Hb : block_ok b) by (by apply put_dinode_ok).
  assert (Himg : forall a, a <> IBLOCK sb j -> image (m_set_disk (<[IBLOCK sb j := b]> (m_disk st)) st) a = image st a).
  { intros a Ha. unfold image, dblock. cbn. by rewrite lookup_insert_ne. }
  assert (Himg' : image (m_set_disk (<[IBLOCK sb j := b]> (m_disk st)) st) (IBLOCK sb j) = b) by (unfold image, dblock; cbn; by rewrite lookup_insert_eq).
  pose proof G as [G1 G2 G3 G4 G5 G6 G7 G8 G9 G10 G11]. split; try done.
  - intros a. cbn. rewrite <- G5. destruct (decide (a = IBLOCK sb j)) as [->|]; [|by rewrite lookup_insert_ne].
    rewrite lookup_insert_eq. split; intros _; [apply G5; lia|by eexists].
  - intros a c. cbn. destruct (decide (a = IBLOCK sb j)) as [->|]; [rewrite lookup_insert_eq; by intros [= <-]|]. rewrite lookup_insert_ne by done. apply G6.
  - intros k g Hk. eapply rep_ext; [|by apply (G7 k)]. intros m a Ha. apply Himg. apply (G3 k g m a Hk) in Ha. lia.
  - intros a Ha. rewrite Himg; [by apply G9|]. cbn in Ha. lia.
  - intros a Ha. rewrite Himg by lia. by apply G10.
  - intros k Hk _. unfold dino. destruct (decide (k = j)) as [->|N].
    + rewrite Himg'. unfold b. rewrite get_put_dinode_eq by done. unfold inode_of. replace (Z.to_nat (j - 1)) with i by lia. rewrite Hi, decide_True by lia. done.
    + rewrite <- G11 by (done || congruence). unfold dino. destruct (decide (IBLOCK sb k = IBLOCK sb j)) as [E|N']; [|by rewrite Himg].
      rewrite E, Himg'. unfold b. apply get_put_dinode_ne; try done; [change IPB with 8; apply Z.mod_pos_bound; lia|].
      rewrite !IBLOCK_eq in E. change IPB with 8. clear -E N. intros E'. apply N. rewrite (Z.div_mod k 8), (Z.div_mod j 8) by lia. lia.
Qed.

(** [iappend] appends. *)
Lemma iappend_spec st F i f p : good None st F -> F !! i = Some f -> exact f -> Z.of_nat i + 1 < 200 ->
  (length (a_data f) + length p <= 512 * 139)%nat -> bytes p -> Z.of_nat (total F) - Z.of_nat (count f) + 300 <= FSSIZE ->
  exists f' st', iappend (Z.of_nat i + 1) p st = Ret tt st' /\ good None st' (<[i := f']> F) /\ a_type f' = a_type f /\ a_data f' = a_data f ++ p /\ exact f'.
Proof.
  intros G Hi Hex Hlt Hlen Hb Hroom. set (j := Z.of_nat i + 1) in *. assert (HF : FSSIZE = 20000) by done. assert (Hj : 32 <= IBLOCK sb j < 58) by (rewrite IBLOCK_eq; subst j; lia).
  assert (Hr : rinode j st = Ret (din_of f) st).
  { unfold rinode. rewrite (bind_Ret _ _ _ _ _ (rsect_eval _ _ _ _ G (ltac:(lia) : 0 <= IBLOCK sb j < FSSIZE))). unfold ret. f_equal.
    fold (dino sb (image st) j). rewrite (gd_ino _ _ _ G) by (done || lia). unfold inode_of. replace (Z.to_nat (j - 1)) with i by lia. by rewrite Hi, decide_True by lia. }
  unfold iappend. rewrite (bind_Ret _ _ _ _ _ Hr). cbn [d_size din_of]. rewrite xint_small by lia.
  destruct (iappend_loop_spec p (length p) st F i f (din_of f)) as (f' & st1 & E1 & G1 & Ht & Hd & Hex'); try done; [by apply good_weaken|].
  rewrite (bind_Ret _ _ _ _ _ E1). cbn [fst snd]. assert (Hi' : <[i:=f']> F !! i = Some f') by (apply list_lookup_insert_eq; by eapply lookup_lt_Some).
  destruct (winode_good st1 (<[i:=f']> F) i f' G1 Hi') as (st2 & E2 & G2); [done|..].
  { pose proof (total_insert F i f f' Hi). pose proof (good_small _ _ _ _ _ G1 Hi'). lia. }
  exists f', st2. split; [|done]. rewrite xint_small by (rewrite Hd, length_app; lia). rewrite <- E2. f_equal. unfold din_of, with_size, with_addrs. cbn. by rewrite Ht.
Qed.

(** [ialloc] makes an empty file. *)
Lemma mk_ialloc_spec st F t : good None st F -> Z.of_nat (length F) + 1 < 200 -> m_freeblock st <= FSSIZE -> 0 <= t < 2 ^ 15 ->
  exists st', ialloc t st = Ret (Z.of_nat (length F) + 1) st' /\ good None st' (F ++ [AFile t [] 0 []]).
Proof.
  intros G Hlt Hf Ht. set (f := AFile t [] 0 []). set (j := Z.of_nat (length F) + 1).
  assert (HiF : (F ++ [f]) !! length F = Some f) by (rewrite lookup_app_r by done; by rewrite Nat.sub_diag).
  assert (Hnew : forall k g, (F ++ [f]) !! k = Some g -> F !! k = Some g \/ k = length F /\ g = f).
  { intros k g Hk. apply lookup_app_Some in Hk as [Hk|[Hge Hk]]; [by left|]. apply list_lookup_singleton_Some in Hk as [Hk ->]. right. split; [lia|done]. }
  assert (Hno : forall m a, addr_at f m = Some a -> False) by (intros m a [(_ & ? & _)|[_ ?]]%addr_cases; done).
  set (st0 := Mkfs (m_disk st) (j + 1) (m_freeblock st)).
  assert (G0 : good (Some j) st0 (F ++ [f])).
  { pose proof G as [G1 G2 G3 G4 G5 G6 G7 G8 G9 G10 G11]. split; try done.
    - rewrite length_app. cbn. lia.
    - cbn. rewrite G2. unfold total. rewrite sum_list_with_app. change (sum_list_with count [f]) with 0%nat. lia.
    - intros k g m a Hk Ha. apply Hnew in Hk as [Hk|[_ ->]]; [by eapply G3|by destruct (Hno _ _ Ha)].
    - intros k k' g g' m n a Hk Hk' Ha Ha'. apply Hnew in Hk as [Hk|[_ ->]]; [|by destruct (Hno _ _ Ha)]. apply Hnew in Hk' as [Hk'|[_ ->]]; [|by destruct (Hno _ _ Ha')]. by eapply G4.
    - intros k g Hk. apply Hnew in Hk as [Hk|[_ ->]]; [by apply (G7 k)|]. split; cbn; try done; try lia; constructor.
    - intros k g Hk. apply Hnew in Hk as [Hk|[_ ->]]; [by apply (G8 k)|cbn; lia].
    - intros k Hk Hxk. change (image st0) with (image st). rewrite G11 by done. unfold inode_of. destruct (decide (Z.to_nat (k - 1) < length F)%nat); [by rewrite lookup_app_l|].
      rewrite (lookup_ge_None_2 F) by lia. destruct ((F ++ [f]) !! Z.to_nat (k - 1)) as [g|] eqn:E; [|reflexivity]. apply Hnew in E as [E|[E ->]]; [apply lookup_lt_Some in E; lia|].
      destruct (decide (0 < k)); [|reflexivity]. destruct Hxk. f_equal. lia. }
  destruct (winode_good st0 (F ++ [f]) (length F) f G0 HiF) as (st' & E & G'); [lia|done|].
  exists st'. split; [|done]. unfold ialloc. rewrite gets_bind, modify_bind. unfold u32. rewrite (gd_fi _ _ _ G), Z.mod_small by lia. fold j. fold st0.
  rewrite xshort_small by lia. change (Dinode t 0 0 (xshort 1) (xint 0) (replicate 13 0)) with (din_of f). by rewrite (bind_Ret _ _ _ _ _ E).
Qed.
