(* ===== verification/MkfsRun.v ===== *)
(** * What [mkfs] puts into the image

    The abstract image is the list of its files, each a type and its bytes;
    [mkfs] leaves the one that its arguments describe. *)

From S2P Require Import Prelude Params CString Bio Log Balloc Inode Bmap Content Dir Path Mkfs MkfsFile MkfsInv.
Local Open Scope Z_scope.
Local Open Scope kmonad_scope.

(** ** The abstract image *)

Abbreviation files := (list (Z * list Z)).
Definition blocks_of (A : files) : nat := sum_list_with (fun a => cost (length a.2)) A.

Definition refines (st : mkfs) (A : files) : Prop :=
  exists F, good None st F /\ Forall exact F /\ (fun f => (a_type f, a_data f)) <$> F = A.

Definition append_to (i : nat) (p : list Z) (A : files) : files := alter (fun a => (a.1, a.2 ++ p)) i A.

Lemma nblk_mono n m : (n <= m)%nat -> (nblk n <= nblk m)%nat.
Proof. unfold nblk. intros H. apply Nat.Div0.div_le_mono. lia. Qed.
Lemma cost_mono n m : (n <= m)%nat -> (cost n <= cost m)%nat.
Proof. intros H%nblk_mono. unfold cost. destruct (decide (nblk n <= 11)%nat), (decide (nblk m <= 11)%nat); lia. Qed.

Lemma blocks_append i p A : (blocks_of A <= blocks_of (append_to i p A))%nat.
Proof.
  unfold blocks_of, append_to. revert i. induction A as [|a A IH]; intros [|i]; [done..| |].
  - change (alter ?f 0%nat (a :: A)) with (f a :: A). cbn [sum_list_with snd]. pose proof (cost_mono (length a.2) (length (a.2 ++ p))) as H. rewrite length_app in *. lia.
  - change (alter ?f (S i) (a :: A)) with (a :: alter f i A). cbn [sum_list_with]. apply Nat.add_le_mono_l, IH.
Qed.

Lemma blocks_app A B : blocks_of (A ++ B) = (blocks_of A + blocks_of B)%nat.
Proof. apply sum_list_with_app. Qed.

Lemma total_refines x st F : good x st F -> Forall exact F -> total F = blocks_of ((fun f => (a_type f, a_data f)) <$> F).
Proof.
  intros G. assert (H : forall f, f ∈ F -> rep (image st) f) by (intros f [i Hi]%list_elem_of_lookup; by eapply gd_rep). clear G.
  unfold total, blocks_of. induction F as [|f F IH]; intros E; [done|]. apply Forall_cons in E as [E1 E2]. cbn. rewrite IH; [|intros g Hg; apply H; by right|done].
  by rewrite (count_exact (image st) f) by (done || apply H; by left).
Qed.

Lemma refines_freeblock st A : refines st A -> m_freeblock st = 63 + Z.of_nat (blocks_of A).
Proof. intros (F & G & E & <-). rewrite (gd_fb _ _ _ G), (total_refines _ _ _ G E). done. Qed.

(** There is room while the image has less than 4096 blocks. *)
Definition room (A : files) : Prop := 63 + Z.of_nat (blocks_of A) < 4096.

Lemma iappend_refines st A i t d p : refines st A -> A !! i = Some (t, d) -> Z.of_nat i + 1 < 200 -> (length d + length p <= 512 * 139)%nat -> bytes p -> room A ->
  exists st', iappend (Z.of_nat i + 1) p st = Ret tt st' /\ refines st' (append_to i p A).
Proof.
  intros (F & G & E & <-) Hi Hlt Hl Hb Hr. rewrite list_lookup_fmap in Hi. destruct (F !! i) as [f|] eqn:Hf; [|done]. injection Hi as <- <-.
  assert (Hex : exact f) by (by eapply Forall_lookup_1). unfold room in Hr. rewrite <- (total_refines _ _ _ G E) in Hr. change FSSIZE with 20000 in *.
  destruct (iappend_spec st F i f p G Hf Hex Hlt Hl Hb) as (f' & st' & E1 & G' & Et & Ed & Hex'); [change FSSIZE with 20000; lia|].
  exists st'. split; [done|]. exists (<[i := f']> F). split; [done|]. split; [by apply Forall_insert|]. unfold append_to. apply list_eq. intros j. rewrite list_lookup_fmap.
  destruct (decide (j = i)) as [->|N].
  - rewrite list_lookup_insert_eq, list_lookup_alter_eq, list_lookup_fmap, Hf by (by eapply lookup_lt_Some). cbn. by rewrite Et, Ed.
  - rewrite list_lookup_insert_ne, list_lookup_alter_ne, list_lookup_fmap by done. done.
Qed.

Lemma ialloc_refines st A t : refines st A -> Z.of_nat (length A) + 1 < 200 -> room A -> 0 <= t < 2 ^ 15 ->
  exists st', ialloc t st = Ret (Z.of_nat (length A) + 1) st' /\ refines st' (A ++ [(t, [])]).
Proof.
  intros R Hl Hr Ht. pose proof (refines_freeblock _ _ R) as Hfb. unfold room in Hr. destruct R as (F & G & E & EA). assert (Hlen : length A = length F) by (rewrite <- EA; apply length_fmap).
  rewrite Hlen in *. destruct (mk_ialloc_spec st F t G Hl) as (st' & E1 & G'); [change FSSIZE with 20000; lia|done|].
  exists st'. split; [done|]. eexists. split; [exact G'|]. split; [apply Forall_app; by repeat constructor|]. by rewrite fmap_app, EA.
Qed.

Lemma append_append i p q (A : files) : append_to i q (append_to i p A) = append_to i (p ++ q) A.
Proof. unfold append_to. revert i. induction A as [|a A IH]; intros [|i]; [done..| |]; cbn; [by rewrite app_assoc|]. f_equal. apply IH. Qed.
Lemma append_nil i (A : files) : append_to i [] A = A.
Proof. unfold append_to. revert i. induction A as [|[t d] A IH]; intros [|i]; [done..| |]; cbn; [by rewrite app_nil_r|]. f_equal. apply IH. Qed.

Lemma append_snoc p (B : files) t d : append_to (length B) p (B ++ [(t, d)]) = B ++ [(t, d ++ p)].
Proof. unfold append_to. induction B as [|a B IH]; [done|]. cbn. f_equal. apply IH. Qed.

Lemma append_all_refines cs : forall st A i t d, refines st A -> A !! i = Some (t, d) -> Z.of_nat i + 1 < 200 -> (length d + length (concat cs) <= 512 * 139)%nat ->
  Forall bytes cs -> room (append_to i (concat cs) A) ->
  exists st', append_all (Z.of_nat i + 1) cs st = Ret tt st' /\ refines st' (append_to i (concat cs) A).
Proof.
  induction cs as [|c cs IH]; intros st A i t d R Hi Hlt Hl Hb Hr; cbn [append_all concat] in *.
  - exists st. by rewrite append_nil.
  - apply Forall_cons in Hb as [Hc Hb]. rewrite length_app in Hl. rewrite <- append_append in Hr |- *.
    destruct (iappend_refines st A i t d c R Hi Hlt) as (st1 & E1 & R1); [lia|done| |].
    { pose proof (blocks_append i c A). pose proof (blocks_append i (concat cs) (append_to i c A)). unfold room in *. lia. }
    destruct (IH st1 (append_to i c A) i t (d ++ c) R1) as (st2 & E2 & R2); [|done|rewrite length_app; lia|done|done|].
    { unfold append_to. by rewrite list_lookup_alter_eq, Hi. }
    exists st2. by rewrite (bind_Ret _ _ _ _ _ E1).
Qed.

(** ** The image that the arguments describe *)

Abbreviation arg := (list Z * option (list (list Z)))%type.
Definition shortname (a : arg) : list Z := if strncmp a.1 user_prefix 5 =? 0 then drop 5 a.1 else a.1.
Definition is_bin (a : arg) : bool := chd (shortname a) =? underscore.
Definition fname (a : arg) : list Z := if is_bin a then tail (shortname a) else shortname a.
Definition fdata (a : arg) : list Z := concat (default [] a.2).

(** The names of [/bin] and [/home]; the files have inodes from 5. *)
Fixpoint named (bin : bool) (k : Z) (args : list arg) : list (Z * list Z) :=
  match args with
  | [] => []
  | a :: args' => (if Bool.eqb (is_bin a) bin then [(k, fname a)] else []) ++ named bin (k + 1) args'
  end.
Definition dir_bytes (es : list (Z * list Z)) : list Z := concat ((fun e => encode_dirent e.1 e.2) <$> es).
Definition root_names : list (Z * list Z) := [(1, dot); (1, dotdot); (2, name_dev); (3, name_bin); (4, name_home)].
Definition dir_names (i : Z) : list (Z * list Z) := [(i, dot); (1, dotdot)].

Definition described (args : list arg) : files :=
  [(T_DIR, dir_bytes root_names); (T_DIR, dir_bytes (dir_names 2)); (T_DIR, dir_bytes (dir_names 3 ++ named true 5 args));
   (T_DIR, dir_bytes (dir_names 4 ++ named false 5 args))] ++ ((fun a => (T_FILE, fdata a)) <$> args).

(** A file that can be opened, with a name without [/]. *)
Record arg_ok (a : arg) : Prop := {
  ao_name : bytes a.1;
  ao_string : nonzero a.1;
  ao_slash : strchr (shortname a) slash = None;
  ao_open : is_Some a.2;
  ao_bytes : Forall bytes (default [] a.2);
  ao_size : (length (fdata a) <= 512 * 139)%nat
}.

Lemma append_entry_refines st A i inum name t d : refines st A -> A !! i = Some (t, d) -> Z.of_nat i + 1 < 200 -> (length d + 16 <= 512 * 139)%nat ->
  0 <= inum < 2 ^ 16 -> bytes name -> room A ->
  exists st', append_entry (Z.of_nat i + 1) inum name st = Ret tt st' /\ refines st' (append_to i (encode_dirent inum name) A).
Proof.
  intros R Hi Hlt Hl Hn Hb Hr. unfold append_entry. rewrite xshort_small by done.
  eapply iappend_refines; [done..| |by apply bytes_encode_dirent|done]. by rewrite length_encode_dirent.
Qed.

(** *** The directories *)

Ltac names_ok := repeat constructor; unfold is_byte; lia.

Lemma makedir_refines st A name rd : refines st ((T_DIR, rd) :: A) -> (length A < 4)%nat -> (length rd + 16 <= 512)%nat -> bytes name ->
  room ((T_DIR, rd) :: A) -> room ((T_DIR, rd ++ encode_dirent (Z.of_nat (length A) + 2) name) :: A ++ [(T_DIR, dir_bytes (dir_names (Z.of_nat (length A) + 2)))]) ->
  exists st', makedir 1 name st = Ret (Z.of_nat (length A) + 2) st' /\
    refines st' ((T_DIR, rd ++ encode_dirent (Z.of_nat (length A) + 2) name) :: A ++ [(T_DIR, dir_bytes (dir_names (Z.of_nat (length A) + 2)))]).
Proof.
  intros R Hl Hrd Hb Hr Hr'. set (i := Z.of_nat (length A) + 2) in *. set (n := S (length A)).
  set (A1 := (T_DIR, rd) :: A) in *. assert (Hn : length A1 = n) by done.
  unfold makedir. destruct (ialloc_refines st A1 T_DIR R) as (st1 & E1 & R1); [rewrite Hn; lia|done|done|]. rewrite Hn in E1. replace (Z.of_nat n + 1) with i in E1 by lia.
  rewrite (bind_Ret _ _ _ _ _ E1).
  assert (Hroom : forall d, (length d <= 32)%nat -> room (A1 ++ [(T_DIR, d)])).
  { intros d Hd. unfold room in *. rewrite blocks_app. assert (blocks_of [(T_DIR, d)] <= blocks_of [(T_DIR, dir_bytes (dir_names i))])%nat by (cbn; apply Nat.add_le_mono_r, cost_mono, Hd).
    change (?a :: ?l ++ ?r) with ((a :: l) ++ r) in Hr'. rewrite blocks_app in Hr'. pose proof (cost_mono (length rd) (length (rd ++ encode_dirent i name)) ltac:(rewrite length_app; lia)).
    unfold A1, blocks_of in *. cbn [sum_list_with snd] in *. lia. }
  assert (Hat : forall d, (A1 ++ [(T_DIR, d)]) !! n = Some (T_DIR, d)) by (intros d; rewrite lookup_app_r by lia; by rewrite Hn, Nat.sub_diag).
  destruct (append_entry_refines st1 _ n i dot _ _ R1 (Hat [])) as (st2 & E2 & R2); [lia|cbn [length app]; rewrite ?length_encode_dirent; lia|lia|names_ok|apply Hroom; rewrite ?length_app, ?length_encode_dirent; cbn [length]; lia|]. replace (Z.of_nat n + 1) with i in E2 by lia. rewrite (bind_Ret _ _ _ _ _ E2). rewrite <- Hn, append_snoc in R2.
  destruct (append_entry_refines st2 _ n 1 dotdot _ _ R2 (Hat _)) as (st3 & E3 & R3); [lia|cbn [length app]; rewrite ?length_encode_dirent; lia|lia|names_ok|apply Hroom; rewrite ?length_app, ?length_encode_dirent; cbn [length]; lia|]. replace (Z.of_nat n + 1) with i in E3 by lia. rewrite (bind_Ret _ _ _ _ _ E3). rewrite <- Hn, append_snoc in R3.
  destruct (append_entry_refines st3 _ 0 i name T_DIR rd R3 eq_refl) as (st4 & E4 & R4); [lia|lia|lia|done|apply Hroom; rewrite ?length_app, ?length_encode_dirent; cbn [length]; lia|]. change (Z.of_nat 0 + 1) with 1 in E4. rewrite (bind_Ret _ _ _ _ _ E4).
  exists st4. split; [done|]. exact R4.
Qed.

Lemma makedirs_refines st : refines st [] -> exists st', makedirs st = Ret (3, 4) st' /\ refines st' (described []).
Proof.
  intros R. unfold makedirs. destruct (ialloc_refines st [] T_DIR R) as (st1 & E1 & R1); [done..|]. rewrite (bind_Ret _ _ _ _ _ E1). cbn [length] in *. change (negb (Z.of_nat 0 + 1 =? ROOTINO)) with false. cbv iota.
  destruct (append_entry_refines st1 _ 0 1 dot T_DIR [] R1 eq_refl) as (st2 & E2 & R2); [lia|cbn [length]; lia|lia|names_ok|done|].
  change (Z.of_nat 0 + 1) with 1 in *. rewrite (bind_Ret _ _ _ _ _ E2).
  destruct (append_entry_refines st2 _ 0 1 dotdot T_DIR (encode_dirent 1 dot) R2 eq_refl) as (st3 & E3 & R3); [lia|rewrite length_encode_dirent; lia|lia|names_ok|done|].
  change (Z.of_nat 0 + 1) with 1 in *. rewrite (bind_Ret _ _ _ _ _ E3).
  destruct (makedir_refines st3 [] name_dev _ R3) as (st4 & E4 & R4); [cbn [length]; lia|by vm_compute; lia|names_ok|done..|]. cbn [length] in *. change (Z.of_nat 0 + 2) with 2 in *.
  rewrite (bind_Ret _ _ _ _ _ E4).
  destruct (makedir_refines st4 [_] name_bin _ R4) as (st5 & E5 & R5); [cbn [length]; lia|by vm_compute; lia|names_ok|done..|]. cbn [length] in *. change (Z.of_nat 1 + 2) with 3 in *.
  rewrite (bind_Ret _ _ _ _ _ E5).
  destruct (makedir_refines st5 [_; _] name_home _ R5) as (st6 & E6 & R6); [cbn [length]; lia|by vm_compute; lia|names_ok|done..|]. cbn [length] in *. change (Z.of_nat 2 + 2) with 4 in *.
  rewrite (bind_Ret _ _ _ _ _ E6). exists st6. split; [done|]. exact R6.
Qed.

(** *** The files *)

Lemma named_snoc bin args a : forall k, named bin k (args ++ [a]) = named bin k args ++ (if Bool.eqb (is_bin a) bin then [(k + Z.of_nat (length args), fname a)] else []).
Proof.
  induction args as [|b args IH]; intros k; cbn [named app length].
  - by rewrite app_nil_r, Z.add_0_r.
  - rewrite IH, <- app_assoc. by replace (k + 1 + Z.of_nat (length args)) with (k + Z.of_nat (S (length args))) by lia.
Qed.

Lemma length_named bin args : forall k, (length (named bin k args) <= length args)%nat.
Proof. induction args as [|a args IH]; intros k; [done|]. cbn [named length]. rewrite length_app. specialize (IH (k + 1)). destruct (Bool.eqb _ _); cbn [length]; lia. Qed.

Lemma length_dir_bytes es : length (dir_bytes es) = (16 * length es)%nat.
Proof. unfold dir_bytes. induction es as [|e es IH]; [done|]. rewrite fmap_cons. cbn [concat length]. rewrite length_app, length_encode_dirent, IH. lia. Qed.

Lemma dir_bytes_app es es' : dir_bytes (es ++ es') = dir_bytes es ++ dir_bytes es'.
Proof. unfold dir_bytes. by rewrite fmap_app, concat_app. Qed.

Lemma length_described args : length (described args) = (4 + length args)%nat.
Proof. unfold described. by rewrite length_app, length_fmap. Qed.

Lemma described_snoc args a :
  described (args ++ [a]) =
  append_to (length (described args)) (fdata a)
    (append_to (if is_bin a then 2 else 3)%nat (encode_dirent (Z.of_nat (length (described args)) + 1) (fname a)) (described args ++ [(T_FILE, [])])).
Proof.
  rewrite length_described. set (n := (4 + length args)%nat). set (e := encode_dirent _ _).
  assert (Ed : append_to (if is_bin a then 2 else 3)%nat e (described args ++ [(T_FILE, [])]) =
    [(T_DIR, dir_bytes root_names); (T_DIR, dir_bytes (dir_names 2)); (T_DIR, dir_bytes (dir_names 3 ++ named true 5 (args ++ [a])));
     (T_DIR, dir_bytes (dir_names 4 ++ named false 5 (args ++ [a])))] ++ ((fun a => (T_FILE, fdata a)) <$> args) ++ [(T_FILE, [])]).
  { assert (Ee : dir_bytes [(5 + Z.of_nat (length args), fname a)] = e) by (unfold dir_bytes, e, n; cbn [fmap list_fmap concat fst snd]; rewrite app_nil_r; f_equal; lia).
    rewrite !named_snoc, !dir_bytes_app. destruct (is_bin a) eqn:E; cbn [Bool.eqb]; rewrite Ee; unfold append_to, described; rewrite ?dir_bytes_app, ?app_nil_r; cbn [app];
      [change (dir_bytes []) with (@nil Z)|change (dir_bytes []) with (@nil Z)]; rewrite ?app_nil_r, ?app_assoc; reflexivity. }
  rewrite Ed, app_assoc. unfold described. rewrite fmap_app, app_assoc. set (B := _ ++ (_ <$> args)).
  assert (n = length B) as -> by (unfold B; by rewrite length_app, length_fmap). by rewrite append_snoc.
Qed.

Lemma add_file_refines st args a : refines st (described args) -> arg_ok a -> (length args < 195)%nat -> room (described (args ++ [a])) ->
  exists st', add_file 3 4 a st = Ret tt st' /\ refines st' (described (args ++ [a])).
Proof.
  intros R [Hb _ Hs [cs Hcs] Hcb Hsz] Hl Hr. rewrite described_snoc in Hr |- *. set (A := described args) in *. assert (HlA : length A = (4 + length args)%nat) by apply length_described.
  set (dir := (if is_bin a then 2 else 3)%nat) in *. set (i := Z.of_nat (length A) + 1) in *. set (A1 := A ++ [(T_FILE, [])]) in *.
  set (A2 := append_to dir (encode_dirent i (fname a)) A1) in *.
  assert (Hr2 : room A2) by (pose proof (blocks_append (length A) (fdata a) A2); unfold room in *; lia).
  assert (Hr1 : room A1) by (pose proof (blocks_append dir (encode_dirent i (fname a)) A1); unfold room in *; subst A2; lia).
  assert (Hr0 : room A) by (unfold A1, room in Hr1; rewrite blocks_app in Hr1; unfold room; lia).
  destruct (ialloc_refines st A T_FILE R) as (st1 & E1 & R1); [rewrite HlA; lia|done|done|]. fold i in E1. fold A1 in R1.
  assert (Hdir : exists d, A1 !! dir = Some (T_DIR, d) /\ (length d + 16 <= 512 * 139)%nat).
  { unfold A1, A, described, dir. destruct (is_bin a); (eexists; split; [reflexivity|]); rewrite length_dir_bytes, length_app; cbn [length dir_names];
      [pose proof (length_named true args 5)|pose proof (length_named false args 5)]; lia. }
  destruct Hdir as (d & Hdir & Hdl). assert (Hsb : bytes (shortname a)) by (unfold shortname; destruct (_ =? _); [by apply Forall_drop|done]).
  assert (Hnb : bytes (fname a)) by (unfold fname; destruct (is_bin a); [by apply Forall_tail|done]).
  destruct (append_entry_refines st1 A1 dir i (fname a) T_DIR d R1 Hdir) as (st2 & E2 & R2); [unfold dir; destruct (is_bin a); lia|done|lia|done|done|]. fold A2 in R2.
  assert (Hat : A2 !! length A = Some (T_FILE, [])).
  { unfold A2, append_to. rewrite list_lookup_alter_ne by (unfold dir; destruct (is_bin a); lia). unfold A1. rewrite lookup_app_r by done. by rewrite Nat.sub_diag. }
  assert (Hd : fdata a = concat cs) by (unfold fdata; by rewrite Hcs). rewrite Hd in *. rewrite Hcs in Hcb.
  destruct (append_all_refines cs st2 A2 (length A) T_FILE [] R2 Hat) as (st3 & E3 & R3); [lia|cbn [length]; lia|done|done|]. fold i in E3.
  exists st3. split; [|done]. unfold add_file. fold (shortname a). rewrite Hs, Hcs. fold (is_bin a). replace (Z.of_nat dir + 1) with (if is_bin a then 3 else 4) in E2 by (unfold dir; by destruct (is_bin a)).
  unfold fname in E2. destruct (is_bin a); by rewrite (bind_Ret _ _ _ _ _ E1), (bind_Ret _ _ _ _ _ E2).
Qed.

Lemma blocks_described args args' : (blocks_of (described args) <= blocks_of (described (args ++ args')))%nat.
Proof.
  revert args. induction args' as [|a args' IH]; intros args; [by rewrite app_nil_r|]. etrans; [|rewrite (cons_middle a), app_assoc; apply IH].
  rewrite described_snoc. etrans; [|apply blocks_append]. etrans; [|apply blocks_append]. rewrite blocks_app. lia.
Qed.

Lemma add_files_refines args : forall st pre, refines st (described pre) -> Forall arg_ok args -> (length pre + length args <= 195)%nat ->
  room (described (pre ++ args)) -> exists st', add_files 3 4 args st = Ret tt st' /\ refines st' (described (pre ++ args)).
Proof.
  induction args as [|a args IH]; intros st pre R Ha Hl Hr; cbn [add_files].
  - exists st. by rewrite app_nil_r.
  - apply Forall_cons in Ha as [Ha Has]. cbn [length] in Hl. rewrite (cons_middle a), app_assoc in Hr |- *.
    destruct (add_file_refines st pre a R Ha) as (st1 & E1 & R1); [lia|pose proof (blocks_described (pre ++ [a]) args); unfold room in *; lia|].
    destruct (IH st1 (pre ++ [a]) R1 Has) as (st2 & E2 & R2); [rewrite length_app; cbn [length]; lia|done|]. exists st2. by rewrite (bind_Ret _ _ _ _ _ E1).
Qed.

(** ** The whole program *)

Lemma zero_sectors_spec n : forall i st, exists d, zero_sectors n i st = Ret tt (Mkfs d (m_freeinode st) (m_freeblock st)) /\
  forall a, d !! a = if decide (i <= a < i + Z.of_nat n) then Some zero_block else m_disk st !! a.
Proof.
  induction n as [|n IH]; intros i st; cbn [zero_sectors].
  - exists (m_disk st). split; [by destruct st|]. intros a. by rewrite decide_False by lia.
  - destruct (IH (i + 1) (m_set_disk (<[i := zero_block]> (m_disk st)) st)) as (d & E & Hd). exists d. unfold wsect. rewrite modify_bind. split; [done|].
    intros a. rewrite Hd. cbn [m_disk m_set_disk]. destruct (decide (a = i)) as [->|N].
    + rewrite decide_False, decide_True by lia. by rewrite lookup_insert_eq.
    + rewrite lookup_insert_ne by done. destruct (decide (i + 1 <= a < i + 1 + Z.of_nat n)); [by rewrite decide_True by lia|by rewrite decide_False by lia].
Qed.

Lemma zero_inode k : 0 <= k < 8 -> get_dinode zero_block k = zero_dinode 0.
Proof. intros Hk. assert (H : k = 0 \/ k = 1 \/ k = 2 \/ k = 3 \/ k = 4 \/ k = 5 \/ k = 6 \/ k = 7) by lia. destruct H as [->|[->|[->|[->|[->|[->|[->| ->]]]]]]]; by vm_compute. Qed.

Lemma sb_block_ok : block_ok sb_block.
Proof. split; [done|]. apply Forall_app. split; [constructor|]. apply Forall_app. split; [by repeat constructor|]. apply Forall_drop, zero_block_ok. Qed.

Lemma init_refines d : (forall a, d !! a = if decide (0 <= a < FSSIZE) then Some zero_block else None) -> refines (Mkfs (<[1 := sb_block]> d) 1 nmeta) [].
Proof.
  intros Hd. exists []. split; [|done]. assert (HF : FSSIZE = 20000) by done. pose proof nmeta_eq as Hn.
  assert (Himg : forall a, image (Mkfs (<[1 := sb_block]> d) 1 nmeta) a = if decide (a = 1) then sb_block else zero_block).
  { intros a. unfold image, dblock. cbn [m_disk]. destruct (decide (a = 1)) as [->|N]; [by rewrite lookup_insert_eq|]. rewrite lookup_insert_ne, Hd by done. by destruct (decide _). }
  split; try done.
  - intros a. cbn [m_disk]. destruct (decide (a = 1)) as [->|N]; [rewrite lookup_insert_eq; split; [lia|done]|]. rewrite lookup_insert_ne, Hd by done.
    destruct (decide (0 <= a < FSSIZE)); split; try done.
  - intros a b. cbn [m_disk]. destruct (decide (a = 1)) as [->|N]; [rewrite lookup_insert_eq; intros [= <-]; apply sb_block_ok|]. rewrite lookup_insert_ne, Hd by done.
    destruct (decide _); [intros [= <-]; apply zero_block_ok|done].
  - intros a Ha. rewrite Himg. cbn in Ha. rewrite decide_False by lia. done.
  - intros i Hi _. unfold dino. rewrite Himg, decide_False by (rewrite IBLOCK_eq; lia). rewrite zero_inode by (change IPB with 8; lia). unfold inode_of. by rewrite lookup_nil.
Qed.

(** [balloc] marks the first [used] blocks. *)
Lemma balloc_loop_ok n : forall i buf, block_ok buf -> block_ok (balloc_loop n i buf).
Proof. induction n as [|n IH]; intros i buf H; [done|]. cbn [balloc_loop]. by apply IH, setb_ok. Qed.

Lemma balloc_loop_bits n : forall i buf j, block_ok buf -> 0 <= i -> i + Z.of_nat n <= 4096 -> 0 <= j < 4096 ->
  Z.testbit (getb (balloc_loop n i buf) (j / 8)) (j mod 8) = (bool_decide (i <= j < i + Z.of_nat n) || Z.testbit (getb buf (j / 8)) (j mod 8)).
Proof.
  induction n as [|n IH]; intros i buf j Hok Hi Hin Hj; cbn [balloc_loop].
  - by rewrite bool_decide_false by lia.
  - rewrite IH by (by apply setb_ok || lia). destruct (decide (j = i)) as [->|N].
    + rewrite (bool_decide_true (i <= i < i + Z.of_nat (S n))) by lia. rewrite bool_decide_false by lia. cbn [orb].
      rewrite getb_setb_eq by (destruct Hok as [-> _]; plia). by rewrite setbit_spec, bool_decide_true by lia.
    + rewrite setb_bits; [|done|plia|plia|done|].
      * f_equal. apply bool_decide_ext. lia.
      * intros k Hk Hne. by rewrite setbit_spec, bool_decide_false by lia.
Qed.

Definition bitmap (used : Z) : list Z := balloc_loop (Z.to_nat used) 0 zero_block.

Lemma main_refines args : Forall arg_ok args -> (length args <= 195)%nat -> room (described args) ->
  exists st, refines st (described args) /\ main args (Mkfs ∅ 1 0) = Ret 0 (m_set_disk (<[58 := bitmap (m_freeblock st)]> (m_disk st)) st).
Proof.
  intros Ha Hl Hr. unfold main. rewrite modify_bind. cbn [m_disk m_freeinode]. destruct (zero_sectors_spec (Z.to_nat FSSIZE) 0 (Mkfs ∅ 1 nmeta)) as (d & E0 & Hd).
  rewrite (bind_Ret _ _ _ _ _ E0). unfold wsect at 1. rewrite modify_bind. cbn [m_disk m_set_disk m_freeinode m_freeblock]. fold sb_block.
  assert (R0 : refines (Mkfs (<[1 := sb_block]> d) 1 nmeta) []) by (apply init_refines; intros a; rewrite Hd; by rewrite Z2Nat.id by done).
  destruct (makedirs_refines _ R0) as (st1 & E1 & R1). unfold m_set_disk. cbn [m_disk m_freeinode m_freeblock]. rewrite (bind_Ret _ _ _ _ _ E1). cbn [fst snd].
  destruct (add_files_refines args st1 [] R1 Ha Hl Hr) as (st2 & E2 & R2). rewrite (bind_Ret _ _ _ _ _ E2), gets_bind. exists st2. split; [done|].
  pose proof (refines_freeblock _ _ R2) as Hfb. unfold room in Hr. cbn [app] in *. unfold balloc. rewrite (proj2 (Z.leb_gt _ _)) by (change (BSIZE * 8) with 4096; lia). done.
Qed.
