(* ===== verification/MkfsTree.v ===== *)
(** * The file system of [mkfs] as the kernel sees it

    The block maps, the contents and the directories of the image. *)

From S2P Require Import Prelude Params CString Locks Bio Log Crash Block Balloc Inode Bmap Content Itrunc Dir Icache Path Namei Syscall File FileProps ExecFs Mkfs MkfsFile MkfsInv MkfsRun.
Local Open Scope Z_scope.
Local Open Scope kmonad_scope.

Definition place (s : slot) : nat :=
  match s with
  | Root i => if decide (i = 11) then 139 else Z.to_nat i
  | Ent _ j => 11 + Z.to_nat j
  end.

Section file.
Context (v : Z -> list Z) (f : afile) (R : rep v f).
Abbreviation ads := (addrs_of f).

Lemma saddr_direct i : 0 <= i < 11 -> saddr v ads (Root i) = default 0 (a_blocks f !! Z.to_nat i).
Proof. intros Hi. cbn [saddr]. rewrite <- nth_lookup. apply nth_direct. lia. Qed.
Lemma saddr_ind : saddr v ads (Root 11) = a_ind f.
Proof. cbn [saddr]. rewrite <- nth_lookup. apply nth_ind. Qed.
Lemma saddr_dind : saddr v ads (Root 12) = 0.
Proof. cbn [saddr]. unfold addrs_of. rewrite lookup_app_r; rewrite length_take, length_app, length_replicate; [|lia]. by replace (Z.to_nat 12 - _)%nat with 1%nat by lia. Qed.
Lemma saddr_ent_ind j : 0 <= j < 128 -> saddr v ads (Ent (Root 11) j) = default 0 (a_blocks f !! (11 + Z.to_nat j)%nat).
Proof using R.
  intros Hj. rewrite saddr_Ent, saddr_ind. destruct (Z.eqb_spec (a_ind f) 0) as [E|N].
  - rewrite lookup_ge_None_2; [done|]. apply (rp_ind _ _ R) in E. lia.
  - apply (rp_entries _ _ R); [done|lia].
Qed.

(** A place of the tree that is in use is one of the file. *)
Lemma saddr_place s : slot_ok s -> saddr v ads s <> 0 ->
  addr_at f (place s) = Some (saddr v ads s) /\ ((exists i, 0 <= i < 11 /\ s = Root i) \/ s = Root 11 \/ exists j, 0 <= j < 128 /\ s = Ent (Root 11) j).
Proof using R.
  assert (Hd : forall m : nat, (m < 139)%nat -> default 0 (a_blocks f !! m) <> 0 -> addr_at f m = Some (default 0 (a_blocks f !! m))).
  { intros m Hm Hne. unfold addr_at. rewrite decide_False by lia. by destruct (a_blocks f !! m). }
  intros [[| |k Hk]|[i Hi|j Hj|k j Hk Hj]]%id Hne.
  - change NDIRECT with 11 in *. rewrite saddr_ind in *. split; [cbn; by apply addr_ind|]. by right; left.
  - change (NDIRECT + 1) with 12 in *. by rewrite saddr_dind in Hne.
  - change (NDIRECT + 1) with 12 in *. by rewrite saddr_Ent, saddr_dind in Hne.
  - change NDIRECT with 11 in *. rewrite saddr_direct in * by done. split; [|left; by exists i]. cbn [place]. rewrite decide_False by lia. apply Hd; [lia|done].
  - change NDIRECT with 11 in *. change NINDIRECT with 128 in *. rewrite saddr_ent_ind in * by done. split; [|right; right; by exists j]. cbn [place]. apply Hd; [lia|done].
  - change (NDIRECT + 1) with 12 in *. by rewrite saddr_Ent, saddr_Ent, saddr_dind in Hne.
Qed.

Lemma place_inj s s' : slot_ok s -> slot_ok s' -> saddr v ads s <> 0 -> saddr v ads s' <> 0 -> place s = place s' -> s = s'.
Proof using R.
  intros Hs Hs' Hn Hn' E. destruct (saddr_place s Hs Hn) as [_ [(i & Hi & ->)|[->|(j & Hj & ->)]]], (saddr_place s' Hs' Hn') as [_ [(i' & Hi' & ->)|[->|(j' & Hj' & ->)]]];
    cbn [place] in E; repeat case_decide; try lia; try reflexivity; f_equal; lia.
Qed.

Lemma saddr_block bn : 0 <= bn < 139 -> saddr v ads (fslot bn) = default 0 (a_blocks f !! Z.to_nat bn).
Proof using R.
  intros Hbn. unfold fslot. change NDIRECT with 11. change NINDIRECT with 128. destruct (bn <? 11) eqn:E; [apply saddr_direct; lia|].
  rewrite (proj2 (Z.ltb_lt _ _)) by lia. rewrite saddr_ent_ind by lia. by replace (11 + Z.to_nat (bn - 11))%nat with (Z.to_nat bn) by lia.
Qed.

Context (Hpos : forall m a, addr_at f m = Some a -> a <> 0).

Lemma block_of_offset o : 0 <= o < Z.of_nat (length (a_data f)) -> exists b, a_blocks f !! Z.to_nat (o / 512) = Some b /\ b <> 0 /\ saddr v ads (fslot (o / 512)) = b.
Proof using R Hpos.
  intros Ho. pose proof (rp_low _ _ R). pose proof (rp_max _ _ R). destruct (lookup_lt_is_Some_2 (a_blocks f) (Z.to_nat (o / 512))) as [b Hb]; [lia|].
  exists b. split; [done|]. split; [apply (Hpos (Z.to_nat (o / 512))); by apply addr_block|]. rewrite saddr_block by lia. by rewrite Hb.
Qed.

Lemma file_mapped : mapped v ads (d_size (din_of f)).
Proof using R Hpos. intros o Ho. cbn in Ho. destruct (block_of_offset o Ho) as (b & _ & Hb & E). change BSIZE with 512. by rewrite E. Qed.

Lemma file_contents : contents v (din_of f) = a_data f.
Proof using R Hpos.
  apply list_eq. intros i. destruct (decide (i < length (a_data f))%nat) as [Hi|Hi].
  - replace i with (Z.to_nat (Z.of_nat i)) at 1 by lia. rewrite lookup_contents by (cbn [d_size din_of]; lia). unfold fbyte. change BSIZE with 512. cbn [d_addrs din_of].
    destruct (block_of_offset (Z.of_nat i)) as (b & Hb & _ & ->); [lia|]. rewrite (rp_data _ _ R _ _ Hb). unfold getb, chunk.
    assert (E : sub (a_data f) (512 * Z.to_nat (Z.of_nat i / 512)) 512 !! Z.to_nat (Z.of_nat i mod 512) = a_data f !! i).
    { rewrite lookup_sub by lia. f_equal. lia. }
    destruct (lookup_lt_is_Some_2 (a_data f) i Hi) as [x Hx]. rewrite Hx in E |- *. by rewrite (lookup_app_l_Some _ _ _ _ E).
  - rewrite !lookup_ge_None_2; [done|lia|rewrite length_contents; cbn; lia].
Qed.
End file.

(** The entries of a directory. *)
Lemma entries_dir_bytes es : Forall (fun e => 0 <= e.1 < 2 ^ 16) es -> entries (dir_bytes es) = (fun e => (e.1, strncpy e.2 14)) <$> es.
Proof.
  induction es as [|e es IH] using rev_ind; [done|]. intros [H He]%Forall_app. apply Forall_inv in He. cbv beta in He.
  assert (E1 : dir_bytes (es ++ [e]) = splice (dir_bytes es) (length (dir_bytes es)) (encode_dirent e.1 e.2)).
  { rewrite dir_bytes_app. unfold splice. rewrite firstn_all, drop_ge, app_nil_r by lia. f_equal. unfold dir_bytes. cbn. by rewrite app_nil_r. }
  rewrite E1, entries_append; [|apply length_encode_dirent|rewrite length_dir_bytes; lia]. rewrite IH, fmap_app by done. f_equal.
  destruct (decode_encode_dirent e.1 e.2 He) as [-> ->]. done.
Qed.

(** ** The image *)

Definition final (st : mkfs) : gmap Z (list Z) := <[58 := bitmap (m_freeblock st)]> (m_disk st).

Section image.
Context (st : mkfs) (F : list afile) (G : good None st F) (Hfull : m_freeblock st < 4096) (Hlen : (length F < 200)%nat).
Context (v : Z -> list Z) (Hv : forall a, ~ in_log 2 30 a -> v a = dblock (final st) a).

Lemma fin_low : 63 <= m_freeblock st.
Proof using All. rewrite (gd_fb _ _ _ G). change nmeta with 63. lia. Qed.

Lemma fin_view a : 32 <= a -> a <> 58 -> v a = image st a.
Proof using All. intros Ha N. rewrite Hv by (unfold in_log; lia). unfold final, dblock. by rewrite lookup_insert_ne. Qed.

Lemma fin_bitmap : v 58 = bitmap (m_freeblock st).
Proof using All. rewrite Hv by (unfold in_log; lia). unfold final, dblock. by rewrite lookup_insert_eq. Qed.

Lemma fin_sb : decode_sb (v 1) = sb.
Proof using All.
  rewrite Hv by (unfold in_log; lia). unfold final, dblock. rewrite lookup_insert_ne by done. fold (dblock (m_disk st) 1). fold (image st 1). rewrite (gd_meta _ _ _ G) by lia. by vm_compute.
Qed.

(** The blocks in use are the first ones. *)
Lemma fin_used a : 0 <= a < 20000 -> used sb v a = bool_decide (a < m_freeblock st).
Proof using All.
  intros Ha. pose proof fin_low. unfold used, BBLOCK. change (sb_bmapstart sb) with 58. change BPB with 4096. destruct (decide (a < 4096)) as [Hlt|Hge].
  - replace (a / 4096 + 58) with 58 by lia. rewrite fin_bitmap, Z.mod_small by lia. unfold bitmap. rewrite balloc_loop_bits by (apply zero_block_ok || lia).
    assert (E : getb zero_block (a / 8) = 0) by (unfold getb, zero_block; destruct (replicate _ 0 !! _) eqn:E; [by apply lookup_replicate_1 in E as [-> _]|done]). rewrite E, Z.bits_0, orb_false_r.
    apply bool_decide_ext. lia.
  - rewrite bool_decide_false by lia. rewrite fin_view by lia. rewrite (gd_meta _ _ _ G), decide_False by lia.
    unfold getb, zero_block. destruct (replicate _ 0 !! _) eqn:E; [apply lookup_replicate_1 in E as [-> _]|]; apply Z.bits_0.
Qed.

Lemma fin_dino i : 0 <= i < 200 -> dino sb v i = inode_of F i.
Proof using All. intros Hi. rewrite <- (gd_ino _ _ _ G) by (done || lia). unfold dino. rewrite fin_view by (rewrite IBLOCK_eq; lia). done. Qed.

Lemma fin_file i f : F !! i = Some f -> dino sb v (Z.of_nat i + 1) = din_of f.
Proof using All.
  intros Hi. pose proof (lookup_lt_Some _ _ _ Hi). rewrite fin_dino by lia. unfold inode_of. replace (Z.to_nat (Z.of_nat i + 1 - 1)) with i by lia. by rewrite Hi, decide_True by lia.
Qed.

Lemma fin_range i f m a : F !! i = Some f -> addr_at f m = Some a -> 63 <= a < m_freeblock st.
Proof using All. apply (gd_range _ _ _ G). Qed.

Lemma fin_rep i f : F !! i = Some f -> rep v f.
Proof using All. intros Hi. eapply rep_ext; [|by eapply gd_rep]. intros m a Ha. apply (fin_range i) in Ha; [|done]. apply fin_view; lia. Qed.

Lemma fin_tree i f : F !! i = Some f -> tree_ok sb v (addrs_of f) ∅.
Proof using All.
  intros Hi. pose proof (fin_rep i f Hi) as R. split; [apply length_addrs_of| |].
  - intros s Hs Hne. destruct (saddr_place v f R s Hs Hne) as [Ha _]. apply (fin_range i f _ _ Hi) in Ha. split; [|split; [|set_solver]].
    + unfold is_data. change (sb_bmapstart sb + sb_size sb / BPB) with 62. change (sb_size sb) with 20000. lia.
    + rewrite fin_used by lia. apply bool_decide_true. lia.
  - intros s s' Hs Hs' Hne E. assert (Hne' : saddr v (addrs_of f) s' <> 0) by (by rewrite <- E).
    apply (place_inj v f R); try done. destruct (saddr_place v f R s Hs Hne) as [Ha _], (saddr_place v f R s' Hs' Hne') as [Ha' _]. rewrite <- E in Ha'.
    by destruct (gd_inj _ _ _ G i i f f _ _ _ Hi Hi Ha Ha').
Qed.

Lemma fin_pos i f m a : F !! i = Some f -> addr_at f m = Some a -> a <> 0.
Proof using All. intros Hi Ha. apply (fin_range i f _ _ Hi) in Ha. lia. Qed.

Lemma fin_sound i f : F !! i = Some f -> sound sb v ∅ (Z.of_nat i + 1).
Proof using All.
  intros Hi. constructor; rewrite (fin_file i f Hi).
  - by apply (fin_tree i).
  - apply (good_din _ _ _ i f G Hi). change FSSIZE with 20000. lia.
  - cbn. pose proof (rp_max _ _ (fin_rep i f Hi)). pose proof (rp_low _ _ (fin_rep i f Hi)). change (MAXFILE * BSIZE) with 8459776. lia.
  - apply file_mapped; [by eapply fin_rep|]. intros m a. by apply (fin_pos i).
Qed.

Lemma fin_contents i f : F !! i = Some f -> contents v (dino sb v (Z.of_nat i + 1)) = a_data f.
Proof using All. intros Hi. rewrite (fin_file i f Hi). apply file_contents; [by eapply fin_rep|]. intros m a. by apply (fin_pos i). Qed.

Lemma fin_linked i f : F !! i = Some f -> a_type f <> 0 -> linked sb v (Z.of_nat i + 1).
Proof using All.
  intros Hi Ht. pose proof (lookup_lt_Some _ _ _ Hi). unfold linked. rewrite (fin_file i f Hi). split; [|by split]. unfold is_ino. change (sb_ninodes sb) with 200. lia.
Qed.

Lemma fin_linked_inv j : linked sb v j -> exists i f, j = Z.of_nat i + 1 /\ F !! i = Some f.
Proof using All.
  intros (Hi & Ht & _). unfold is_ino in Hi. change (sb_ninodes sb) with 200 in Hi. rewrite fin_dino in Ht by lia. unfold inode_of in Ht. destruct (F !! Z.to_nat (j - 1)) as [f|] eqn:E; [|done].
  destruct (decide (0 < j)); [|done]. exists (Z.to_nat (j - 1)), f. split; [lia|done].
Qed.

Lemma fin_meta : meta_used sb v.
Proof using All.
  intros b Hb. change (sb_bmapstart sb + sb_size sb / BPB) with 62 in Hb. pose proof fin_low. rewrite fin_used by lia. apply bool_decide_true. lia.
Qed.
End image.
