(* ===== verification/MkfsProps.v ===== *)
(** * Correctness of [mkfs]

    The kernel boots from the image and finds the files under their names. *)

From S2P Require Import Prelude Params CString Locks Bio Log Crash Block Balloc Inode Bmap Content Itrunc Dir Icache Path Namei Syscall File FileProps ExecFs Mkfs MkfsFile MkfsInv MkfsRun MkfsTree.
Local Open Scope Z_scope.
Local Open Scope kmonad_scope.

(** ** The directories *)

Definition names_of (args : list arg) (i : nat) : option (list (Z * list Z)) :=
  [root_names; dir_names 2; dir_names 3 ++ named true 5 args; dir_names 4 ++ named false 5 args] !! i.

Lemma named_range bin args : forall k e, e ∈ named bin k args -> k <= e.1 < k + Z.of_nat (length args).
Proof.
  induction args as [|a args IH]; intros k e; cbn [named length]; [by intros ?%not_elem_of_nil|]. intros [He|He]%elem_of_app; [|apply IH in He; lia].
  destruct (Bool.eqb _ _); [|by apply not_elem_of_nil in He]. apply list_elem_of_singleton in He as ->. cbn. lia.
Qed.

Lemma named_app bin l l' : forall k, named bin k (l ++ l') = named bin k l ++ named bin (k + Z.of_nat (length l)) l'.
Proof.
  induction l as [|a l IH]; intros k; cbn [named app length]; [by rewrite Z.add_0_r|]. rewrite IH, <- app_assoc. do 3 f_equal. lia.
Qed.

Lemma named_elem bin args : forall k e, e ∈ named bin k args -> exists j a, args !! j = Some a /\ is_bin a = bin /\ e = (k + Z.of_nat j, fname a).
Proof.
  induction args as [|a args IH]; intros k e; cbn [named]; [by intros ?%not_elem_of_nil|]. intros [He|He]%elem_of_app.
  - destruct (Bool.eqb _ _) eqn:E; [|by apply not_elem_of_nil in He]. apply list_elem_of_singleton in He as ->. exists 0%nat, a. rewrite Z.add_0_r. split; [done|]. split; [by apply eqb_prop|done].
  - apply IH in He as (j & b & Hj & Hb & ->). exists (S j), b. split_and!; try done. f_equal. lia.
Qed.

Lemma names_range args i es e : names_of args i = Some es -> e ∈ es -> 1 <= e.1 <= 4 + Z.of_nat (length args).
Proof.
  assert (Hc : forall l, forallb (fun e => (1 <=? e.1) && (e.1 <=? 4)) l = true -> e ∈ l -> 1 <= e.1 <= 4 + Z.of_nat (length args)).
  { intros l Hl He. rewrite forallb_forall in Hl. apply list_elem_of_In, Hl in He. lia. }
  assert (Hm : forall n b, e ∈ dir_names n ++ named b 5 args -> 1 <= n <= 4 -> 1 <= e.1 <= 4 + Z.of_nat (length args)).
  { intros n b [He|He]%elem_of_app Hi; [|apply named_range in He; lia]. apply elem_of_cons in He as [->|He]; [cbn; lia|]. apply list_elem_of_singleton in He as ->. cbn. lia. }
  intros Hn He. destruct i as [|[|[|[|i]]]]; try done; injection Hn as <-.
  - eapply Hc; [|exact He]. reflexivity.
  - eapply Hc; [|exact He]. reflexivity.
  - apply (Hm 3 true); [exact He|lia].
  - apply (Hm 4 false); [exact He|lia].
Qed.

Lemma described_dir args i es : names_of args i = Some es -> described args !! i = Some (T_DIR, dir_bytes es).
Proof. intros H. destruct i as [|[|[|[|i]]]]; try done; by injection H as <-. Qed.

Lemma described_file args k a : args !! k = Some a -> described args !! (4 + k)%nat = Some (T_FILE, fdata a).
Proof. intros H. change (described args !! (4 + k)%nat) with (((fun a => (T_FILE, fdata a)) <$> args) !! k). by rewrite list_lookup_fmap, H. Qed.

Lemma described_type args i t d : described args !! i = Some (t, d) -> t = T_DIR /\ (exists es, names_of args i = Some es) \/ t = T_FILE.
Proof.
  intros H. destruct i as [|[|[|[|i]]]]; [left; by injection H as <- _; eauto..|right].
  change (described args !! S (S (S (S i)))) with (((fun a => (T_FILE, fdata a)) <$> args) !! i) in H. rewrite list_lookup_fmap in H. destruct (args !! i); [|done]. by injection H as <- _.
Qed.

Section mkfs.
Context (args : list arg) (Hargs : (length args <= 195)%nat) (Hroom : room (described args)).
Context (st : mkfs) (Hst : refines st (described args)).
Context (v : Z -> list Z) (Hv : forall a, ~ in_log 2 30 a -> v a = dblock (final st) a).

Lemma fs_files : exists F, good None st F /\ m_freeblock st < 4096 /\ (length F < 200)%nat /\ forall i t d, described args !! i = Some (t, d) <-> exists f, F !! i = Some f /\ a_type f = t /\ a_data f = d.
Proof using All.
  pose proof (refines_freeblock _ _ Hst) as Hfb. unfold room in Hroom. destruct Hst as (F & G & _ & E). exists F. split; [done|]. split; [lia|]. split.
  - rewrite <- (length_fmap (fun f => (a_type f, a_data f)) F), E, length_described. lia.
  - intros i t d. rewrite <- E, list_lookup_fmap. destruct (F !! i) as [f|] eqn:Ef; cbn.
    + split; [intros [= <- <-]; eauto|]. intros (f' & [= <-] & <- & <-). done.
    + split; [done|]. by intros (f' & ? & _).
Qed.

Lemma fs_inode i t d : described args !! i = Some (t, d) ->
  d_type (dino sb v (Z.of_nat i + 1)) = t /\ contents v (dino sb v (Z.of_nat i + 1)) = d /\ linked sb v (Z.of_nat i + 1) /\ sound sb v ∅ (Z.of_nat i + 1) /\
  d_size (dino sb v (Z.of_nat i + 1)) = Z.of_nat (length d).
Proof using All.
  intros H. destruct fs_files as (F & G & H1 & H2 & HF). pose proof H as Ht. destruct (proj1 (HF _ _ _) H) as (f & Hf & Et & Ed). rewrite <- Et, <- Ed.
  rewrite (fin_contents st F G H1 H2 v Hv i f Hf). split_and!; [by rewrite (fin_file st F G H1 H2 v Hv i f Hf)|done| |by apply (fin_sound st F G H1 H2 v Hv i f)|by rewrite (fin_file st F G H1 H2 v Hv i f Hf)].
  apply (fin_linked st F G H1 H2 v Hv i f Hf). rewrite Et. apply described_type in Ht as [[-> _]| ->]; done.
Qed.

Lemma fs_linked j : linked sb v j -> exists i t d, j = Z.of_nat i + 1 /\ described args !! i = Some (t, d).
Proof using All.
  destruct fs_files as (F & G & H1 & H2 & HF). intros H. destruct (fin_linked_inv st F G H1 H2 v Hv j H) as (i & f & -> & Hf). exists i, (a_type f), (a_data f). split; [done|]. apply HF. eauto.
Qed.

Lemma fs_entries i es : names_of args i = Some es -> dir_entries sb v (Z.of_nat i + 1) = (fun e => (e.1, strncpy e.2 14)) <$> es.
Proof using All.
  intros H. unfold dir_entries. destruct (fs_inode _ _ _ (described_dir _ _ _ H)) as (_ & -> & _). apply entries_dir_bytes.
  apply Forall_forall. intros e He. apply (names_range _ _ _ _ H) in He. lia.
Qed.

Lemma fs_dir_ok j : linked sb v j -> d_type (dino sb v j) = T_DIR -> dir_ok sb v ∅ j.
Proof using All.
  intros Hl Hty. apply fs_linked in Hl as (i & t & d & -> & Hi). destruct (fs_inode i t d Hi) as (Et & Ec & _ & [S1 S2 S3 S4] & Es).
  apply described_type in Hi as Ht. destruct Ht as [[-> [es Hes]]| ->]; [|by rewrite Hty in Et].
  rewrite (described_dir _ _ _ Hes) in Hi. injection Hi as <-. constructor; try done.
  - rewrite Es, length_dir_bytes. lia.
  - intros k e He _. rewrite (fs_entries i es Hes), list_lookup_fmap in He. destruct (es !! k) as [e'|] eqn:Ek; [|done]. injection He as <-. cbn.
    apply list_elem_of_lookup_2, (names_range _ _ _ _ Hes) in Ek. destruct (lookup_lt_is_Some_2 (described args) (Z.to_nat (e'.1 - 1))) as [[t d] Hd]; [rewrite length_described; lia|].
    replace e'.1 with (Z.of_nat (Z.to_nat (e'.1 - 1)) + 1) by lia. by destruct (fs_inode _ _ _ Hd) as (_ & _ & ? & _).
Qed.

Lemma fs_disk_ok : disk_ok 2 30 20000 (final st).
Proof using All.
  destruct fs_files as (F & G & H1 & H2 & HF). pose proof (fin_low st F G H1 H2 v Hv). assert (Hat : forall a, a <> 58 -> dblock (final st) a = image st a) by (intros a N; unfold final, dblock; by rewrite lookup_insert_ne).
  constructor.
  - intros c x. unfold final. destruct (decide (c = 58)) as [->|N]; [rewrite lookup_insert_eq; intros [= <-]; apply balloc_loop_ok, zero_block_ok|]. rewrite lookup_insert_ne by done. apply (gd_blocks _ _ _ G).
  - rewrite Hat by done. rewrite (gd_meta _ _ _ G) by lia. by vm_compute.
  - rewrite Hat by done. rewrite (gd_meta _ _ _ G) by lia. assert (decode_head (if decide (2 = 1) then sb_block else zero_block) = []) as -> by (by vm_compute). apply lh_ok_nil. by constructor.
Qed.

Lemma icache_table pid : table_ok sb pid v icache_init None.
Proof using All.
  constructor; [apply icache_init_ok|..]; intros ip x Hx; apply lookup_replicate_1 in Hx as [-> _]; [by rewrite decide_False|done..].
Qed.

Lemma fs_boot_ready pid s : at_rest pid 2 30 20000 s v ∅ -> fs_ready pid 2 30 20000 sb s v ∅ icache_init.
Proof using All.
  intros Hr. destruct fs_files as (F & G & H1 & H2 & HF). constructor; [done|split; [set_solver|done]|by eapply fin_meta|apply fs_dir_ok| |apply icache_table].
  intros j Hl _. apply fs_linked in Hl as (i & t & d & -> & Hi). by destruct (fs_inode _ _ _ Hi) as (_ & _ & _ & ? & _).
Qed.
End mkfs.

(** ** Names *)

(** Where the kernel finds a file. *)
Definition path_of (a : arg) : list Z := slash :: (if is_bin a then name_bin else name_home) ++ slash :: fname a.

(** The file is the first of its name in its directory; the kernel compares 14
    bytes. *)
Definition findable (args : list arg) (k : nat) (a : arg) : Prop :=
  fname a <> [] /\ cstr 14 (fname a) <> dot /\ cstr 14 (fname a) <> dotdot /\
  forall j b, (j < k)%nat -> args !! j = Some b -> is_bin b = is_bin a -> cstr 14 (fname b) <> cstr 14 (fname a).

Lemma strchr_None s : nonzero s -> strchr s slash = None -> Forall (fun c => c <> slash) s.
Proof.
  intros Hz. induction Hz as [|c s Hc _ IH]; [constructor|]. cbn [strchr]. rewrite (proj2 (Z.eqb_neq c 0)) by done. destruct (Z.eqb_spec c slash); [done|]. intros H. constructor; [done|by apply IH].
Qed.

Lemma components_plain s : Forall (fun c => c <> slash) s -> forall cur, components_from cur s = if decide (cur ++ s = []) then [] else [cur ++ s].
Proof.
  intros Hs. induction Hs as [|c s Hc _ IH]; intros cur; cbn [components_from]; [by rewrite app_nil_r|].
  rewrite (proj2 (Z.eqb_neq c slash)) by done. by rewrite IH, <- app_assoc.
Qed.

Lemma components_path a : arg_ok a -> fname a <> [] -> components (path_of a) = [if is_bin a then name_bin else name_home; fname a].
Proof.
  intros [_ Hz Hs _ _ _] Hne. assert (Hz' : nonzero (shortname a)) by (unfold shortname; destruct (_ =? _); [by apply Forall_drop|done]).
  apply strchr_None in Hs; [|done]. assert (Hf : Forall (fun c => c <> slash) (fname a)) by (unfold fname; destruct (is_bin a); [by apply Forall_tail|done]).
  assert (E : components_from [] (fname a) = [fname a]) by (rewrite components_plain, decide_False; done).
  unfold path_of, components. destruct (is_bin a); cbn; by rewrite E.
Qed.

Lemma find_name_first name pre e post : (forall x, x ∈ pre -> ~ matches name x) -> matches name e -> find_name name (pre ++ e :: post) = Some (length pre, e.1).
Proof.
  intros Hpre He. unfold find_name. assert (E : list_find (matches name) (pre ++ e :: post) = Some (length pre, e)); [|by rewrite E].
  apply list_find_Some. split; [by rewrite lookup_app_r, Nat.sub_diag by done|]. split; [done|]. intros j y Hj Hlt. rewrite lookup_app_l in Hj by done. apply Hpre. by eapply list_elem_of_lookup_2.
Qed.

Lemma find_file args k a : args !! k = Some a -> findable args k a ->
  exists n, find_name (fname a) ((fun e => (e.1, strncpy e.2 14)) <$> (dir_names (if is_bin a then 3 else 4) ++ named (is_bin a) 5 args)) = Some (n, 5 + Z.of_nat k).
Proof.
  intros Hk (Hne & Hd & Hdd & Hfirst). replace (named (is_bin a) 5 args) with (named (is_bin a) 5 (take k args ++ a :: drop (S k) args)) by (by rewrite take_drop_middle). rewrite named_app. cbn [named]. rewrite Bool.eqb_reflx, length_take. cbn [app].
  replace (5 + Z.of_nat (k `min` length args)) with (5 + Z.of_nat k) by (apply lookup_lt_Some in Hk; lia).
  rewrite app_assoc, fmap_app, fmap_cons. eexists. apply find_name_first.
  - intros x Hx [_ Hm]. apply list_elem_of_fmap in Hx as (e & -> & He). cbn [fst snd] in Hm. rewrite cstr_strncpy in Hm. apply elem_of_app in He as [He|He].
    + apply elem_of_cons in He as [->|He]; [by apply Hd|]. apply list_elem_of_singleton in He as ->. by apply Hdd.
    + apply named_elem in He as (j & b & Hj & Hb & ->). apply lookup_take_Some in Hj as [Hj Hlt]. by apply (Hfirst j b Hlt Hj Hb).
  - split; cbn [fst snd]; [lia|]. by rewrite cstr_strncpy.
Qed.

Section paths.
Context (args : list arg) (Hargs : (length args <= 195)%nat) (Hroom : room (described args)).
Context (st : mkfs) (Hst : refines st (described args)).
Context (v : Z -> list Z) (Hv : forall a, ~ in_log 2 30 a -> v a = dblock (final st) a).

Lemma resolve_file k a : args !! k = Some a -> arg_ok a -> findable args k a -> resolve sb false v ROOTINO (components (path_of a)) = Some (5 + Z.of_nat k, []).
Proof using All.
  intros Hk Hok Hf. rewrite components_path by (done || apply Hf). set (dir := (if is_bin a then 2 else 3)%nat).
  assert (Hn0 : names_of args 0 = Some root_names) by done. assert (Hnd : names_of args dir = Some (dir_names (if is_bin a then 3 else 4) ++ named (is_bin a) 5 args)) by (unfold dir; by destruct (is_bin a)).
  destruct (fs_inode args Hargs Hroom st Hst v Hv _ _ _ (described_dir _ _ _ Hn0)) as (Ht0 & _). destruct (fs_inode args Hargs Hroom st Hst v Hv _ _ _ (described_dir _ _ _ Hnd)) as (Htd & _).
  pose proof (fs_entries args Hargs Hroom st Hst v Hv _ _ Hn0) as He0. pose proof (fs_entries args Hargs Hroom st Hst v Hv _ _ Hnd) as Hed. change (Z.of_nat 0 + 1) with 1 in *.
  cbn [resolve]. change ROOTINO with 1. rewrite Ht0, He0. cbn [negb andb Z.eqb].
  assert (E0 : exists n, find_name (if is_bin a then name_bin else name_home) ((fun e => (e.1, strncpy e.2 14)) <$> root_names) = Some (n, Z.of_nat dir + 1)).
  { unfold dir. destruct (is_bin a); eexists; by vm_compute. }
  destruct E0 as [n0 ->]. rewrite Htd, Hed. cbn [negb andb]. destruct (find_file args k a Hk Hf) as [n ->]. done.
Qed.
End paths.

Lemma FSSIZE_eq : FSSIZE = 20000.
Proof. done. Qed.
Lemma logstart_eq : sb_logstart sb = 2.
Proof. done. Qed.
Lemma nlog_eq : sb_nlog sb = 30.
Proof. done. Qed.

Lemma mkfs_geometry : geometry 2 30 20000.
Proof. by constructor. Qed.

(** The log of the image is empty: booting changes nothing outside of it. *)
Lemma image_boot args : (length args <= 195)%nat -> room (described args) -> forall st, refines st (described args) -> forall pid,
  exists s v, initlog pid 1 (boot 20000 (final st)) = Ret tt s /\ at_rest pid 2 30 20000 s v ∅ /\ forall a, ~ in_log 2 30 a -> v a = dblock (final st) a.
Proof.
  intros Hl Hr st Hst pid. pose proof (fs_disk_ok args Hl Hr st Hst (dblock (final st)) (fun a _ => eq_refl)) as Hdisk.
  assert (Hhead : decode_head (dblock (final st) 2) = []).
  { destruct (fs_files args Hl Hr st Hst (dblock (final st)) (fun a _ => eq_refl)) as (F & G & _). unfold final, dblock. rewrite lookup_insert_ne by done.
    fold (dblock (m_disk st) 2). fold (image st 2). rewrite (gd_meta _ _ _ G) by lia. by vm_compute. }
  destruct (boot_replay pid 2 30 20000 mkfs_geometry (final st) Hdisk) as (s & Es & Hi & Hd). exists s, (dblock (disk (l_bio s))). split; [exact Es|]. split.
  - constructor; [exact Hi| |intros; reflexivity]. intros a Ha. exfalso. exact (boot_clean pid 2 30 20000 mkfs_geometry (final st) s Hdisk Es a Ha).
  - intros a Ha. rewrite Hd by exact Ha. by apply replay_empty.
Qed.

(** C9: [mkfs] makes the file system that the kernel expects.  When every
    argument can be opened, is at most 139 blocks long and its name has no [/],
    at most 195 files are given and they fit into the first free map block,
    [mkfs] succeeds; the kernel reads the superblock that [mkfs] meant and boots
    from the image into a file system at rest whose directories, block maps and
    free map are in order; exactly the blocks before [freeblock] are in use; and
    each file is found in [/bin] or [/home] under its name, with its bytes. *)
Theorem mkfs_correct args pid : Forall arg_ok args -> (length args <= 195)%nat -> room (described args) ->
  exists st s v, main args (Mkfs ∅ 1 0) = Ret 0 st /\ initlog pid 1 (boot FSSIZE (m_disk st)) = Ret tt s /\ decode_sb (v 1) = sb /\
    fs_ready pid (sb_logstart sb) (sb_nlog sb) FSSIZE sb s v ∅ icache_init /\
    (forall a, 0 <= a < FSSIZE -> used sb v a = bool_decide (a < m_freeblock st)) /\
    forall k a, args !! k = Some a -> findable args k a ->
      resolve sb false v ROOTINO (components (path_of a)) = Some (5 + Z.of_nat k, []) /\
      d_type (dino sb v (5 + Z.of_nat k)) = T_FILE /\ contents v (dino sb v (5 + Z.of_nat k)) = fdata a.
Proof.
  intros Hok Hl Hr. destruct (main_refines args Hok Hl Hr) as (st & Hst & E). rewrite FSSIZE_eq, logstart_eq, nlog_eq.
  destruct (image_boot args Hl Hr st Hst pid) as (s & v & Es & Hrest & Hv). destruct (fs_files args Hl Hr st Hst v Hv) as (F & G & H1 & H2 & _).
  exists (m_set_disk (final st) st), s, v. split; [exact E|]. split; [exact Es|]. clear E Es. split; [by eapply fin_sb|]. split; [|split].
  - by apply (fs_boot_ready args Hl Hr st Hst v Hv).
  - intros a Ha. by eapply (fin_used st F G).
  - intros k a Hk Hf. assert (Ha : arg_ok a) by (by eapply Forall_lookup_1). split; [by apply (resolve_file args Hl Hr st Hst v Hv)|].
    destruct (fs_inode args Hl Hr st Hst v Hv _ _ _ (described_file args k a Hk)) as (Et & Ec & _). replace (5 + Z.of_nat k) with (Z.of_nat (4 + k) + 1) by lia. done.
Qed.

(** [user/_cat], 13 blocks long and read in pieces of 512 bytes, and [README]. *)
Definition demo_args : list arg :=
  [([117; 115; 101; 114; 47; 95; 99; 97; 116], Some (replicate 13 (replicate 512 7))); ([82; 69; 65; 68; 77; 69], Some [[104; 105]])].

Definition arg_okb (a : arg) : bool :=
  forallb (fun x => (0 <? x) && (x <? 256)) a.1 && bool_decide (strchr (shortname a) slash = None) && bool_decide (is_Some a.2) &&
  forallb (forallb (fun x => (0 <=? x) && (x <? 256))) (default [] a.2) && (Z.of_nat (length (fdata a)) <=? 71168).

Lemma arg_okb_ok a : arg_okb a = true -> arg_ok a.
Proof.
  unfold arg_okb. rewrite !andb_true_iff, !bool_decide_eq_true, !forallb_forall. intros ((((H1 & H2) & H3) & H4) & H5). constructor; try done; [..|apply Z.leb_le in H5; lia].
  - apply Forall_forall. intros x Hx. apply list_elem_of_In, H1 in Hx. unfold is_byte. lia.
  - apply Forall_forall. intros x Hx. apply list_elem_of_In, H1 in Hx. lia.
  - apply Forall_forall. intros l Hl. apply list_elem_of_In, H4 in Hl. rewrite forallb_forall in Hl. apply Forall_forall. intros x Hx. apply list_elem_of_In, Hl in Hx. unfold is_byte. lia.
Qed.

Lemma demo_args_ok : Forall arg_ok demo_args.
Proof. apply Forall_cons_2; [|apply Forall_cons_2; [|apply Forall_nil_2]]; apply arg_okb_ok; vm_compute; reflexivity. Qed.

Lemma mkfs_correct_witness : exists st s v, main demo_args (Mkfs ∅ 1 0) = Ret 0 st /\ initlog 7 1 (boot FSSIZE (m_disk st)) = Ret tt s /\
  fs_ready 7 (sb_logstart sb) (sb_nlog sb) FSSIZE sb s v ∅ icache_init /\
  resolve sb false v ROOTINO (components [47; 98; 105; 110; 47; 99; 97; 116]) = Some (5, []) /\
  contents v (dino sb v 5) = concat (replicate 13 (replicate 512 7)) /\
  resolve sb false v ROOTINO (components [47; 104; 111; 109; 101; 47; 82; 69; 65; 68; 77; 69]) = Some (6, []) /\
  contents v (dino sb v 6) = [104; 105].
Proof.
  destruct (mkfs_correct demo_args 7 demo_args_ok) as (st & s & v & E & Es & _ & Hr & _ & Hf); [cbn [demo_args length]; lia|vm_compute; reflexivity|].
  exists st, s, v. split; [exact E|]. split; [exact Es|]. clear E Es. split; [exact Hr|]. clear Hr.
  assert (F0 : forall a, demo_args !! 0%nat = Some a -> findable demo_args 0 a).
  { intros a [= <-]. split; [by vm_compute|]. split; [by vm_compute|]. split; [by vm_compute|]. intros j b Hj. lia. }
  assert (F1 : forall a, demo_args !! 1%nat = Some a -> findable demo_args 1 a).
  { intros a [= <-]. split; [by vm_compute|]. split; [by vm_compute|]. split; [by vm_compute|]. intros j b Hj Hb. destruct j; [|lia]. injection Hb as <-. by vm_compute. }
  destruct (Hf 0%nat _ eq_refl (F0 _ eq_refl)) as (R0 & _ & C0). destruct (Hf 1%nat _ eq_refl (F1 _ eq_refl)) as (R1 & _ & C1).
  split; [exact R0|]. split; [exact C0|]. split; [exact R1|exact C1].
Defined.
