(* ===== verification/Kbd.v ===== *)
(** * The keyboard ([kernel/kbd.c], [kernel/kbd.h])

    A call of [kbdgetc] reads the status port and, if the controller has a
    byte, the data port: [None] is a status without [KBS_DIB]. *)

From S2P Require Import Prelude Params.
Local Open Scope Z_scope.

Definition NO : Z := 0.
Definition SHIFT : Z := Z.shiftl 1 0.
Definition CTL : Z := Z.shiftl 1 1.
Definition ALT : Z := Z.shiftl 1 2.
Definition CAPSLOCK : Z := Z.shiftl 1 3.
Definition NUMLOCK : Z := Z.shiftl 1 4.
Definition SCROLLLOCK : Z := Z.shiftl 1 5.
Definition E0ESC : Z := Z.shiftl 1 6.

(** [C(x)] and [A(x)] *)
Definition ctrl (x : Z) : Z := x - 64.
Definition alt (x : Z) : Z := x - 64.

(** An array of 256 [uchar] from its first elements and its designated ones. *)
Definition table (l : list Z) (named : list (Z * Z)) : list Z :=
  foldl (fun t p => <[Z.to_nat p.1 := p.2]> t) (l ++ replicate (256 - length l) 0) named.

Definition shiftcode : list Z := table [] [(0x1D, CTL); (0x2A, SHIFT); (0x36, SHIFT); (0x38, ALT); (0x9D, CTL); (0xB8, ALT)].
Definition togglecode : list Z := table [] [(0x3A, CAPSLOCK); (0x45, NUMLOCK); (0x46, SCROLLLOCK)].

(** [KEY_UP] to [KEY_DEL], as every map has them. *)
Definition special_keys : list (Z * Z) :=
  [(0xC8, 0xE2); (0xD0, 0xE3); (0xC9, 0xE6); (0xD1, 0xE7); (0xCB, 0xE4); (0xCD, 0xE5); (0x97, 0xE0); (0xCF, 0xE1); (0xD2, 0xE8); (0xD3, 0xE9)].

Definition normalmap : list Z := table
  [NO; 0x1B; 49; 50; 51; 52; 53; 54;
   55; 56; 57; 48; 45; 61; 8; 9;
   113; 119; 101; 114; 116; 121; 117; 105;
   111; 112; 91; 93; 10; NO; 97; 115;
   100; 102; 103; 104; 106; 107; 108; 59;
   39; 96; NO; 92; 122; 120; 99; 118;
   98; 110; 109; 44; 46; 47; NO; 42;
   NO; 32; NO; NO; NO; NO; NO; NO;
   NO; NO; NO; NO; NO; NO; NO; 55;
   56; 57; 45; 52; 53; 54; 43; 49;
   50; 51; 48; 46; NO; NO; NO; NO]
  ([(0x9C, 10); (0xB5, 47)] ++ special_keys).

Definition shiftmap : list Z := table
  [NO; 27; 33; 64; 35; 36; 37; 94;
   38; 42; 40; 41; 95; 43; 8; 9;
   81; 87; 69; 82; 84; 89; 85; 73;
   79; 80; 123; 125; 10; NO; 65; 83;
   68; 70; 71; 72; 74; 75; 76; 58;
   34; 126; NO; 124; 90; 88; 67; 86;
   66; 78; 77; 60; 62; 63; NO; 42;
   NO; 32; NO; NO; NO; NO; NO; NO;
   NO; NO; NO; NO; NO; NO; NO; 55;
   56; 57; 45; 52; 53; 54; 43; 49;
   50; 51; 48; 46; NO; NO; NO; NO]
  ([(0x9C, 10); (0xB5, 47)] ++ special_keys).

(** [C('/')] is negative: an array of [uchar] holds it modulo 256. *)
Definition ctlmap : list Z := table
  [NO; NO; NO; NO; NO; NO; NO; NO;
   NO; NO; NO; NO; NO; NO; NO; NO;
   ctrl 81; ctrl 87; ctrl 69; ctrl 82; ctrl 84; ctrl 89; ctrl 85; ctrl 73;
   ctrl 79; ctrl 80; NO; NO; 13; NO; ctrl 65; ctrl 83;
   ctrl 68; ctrl 70; ctrl 71; ctrl 72; ctrl 74; ctrl 75; ctrl 76; NO;
   NO; NO; NO; ctrl 92; ctrl 90; ctrl 88; ctrl 67; ctrl 86;
   ctrl 66; ctrl 78; ctrl 77; NO; NO; u8 (ctrl 47); NO; NO]
  ([(0x9C, 13); (0xB5, u8 (ctrl 47))] ++ special_keys).

Definition altmap : list Z := table
  (replicate 46 NO ++ [alt 67; NO])
  ([(0x9C, 13); (0xB5, u8 (ctrl 47))] ++ special_keys).

Definition charcode (i : Z) : list Z := nth (Z.to_nat i) [normalmap; shiftmap; ctlmap; ctlmap; altmap; altmap; altmap; altmap] [].

Definition at_key (t : list Z) (data : Z) : Z := default 0 (t !! Z.to_nat data).

(** The character and the new [shift]. *)
Definition kbdgetc (port : option Z) (shift : Z) : Z * Z :=
  match port with
  | None => (-1, shift)
  | Some data =>
      if data =? 0xE0 then (0, Z.lor shift E0ESC)
      else if negb (Z.land data 0x80 =? 0) then
        (* Key released *)
        let data := if negb (Z.land shift E0ESC =? 0) then data else Z.land data 0x7F in
        (0, Z.land shift (Z.lnot (Z.lor (at_key shiftcode data) E0ESC)))
      else
        (* Last character was an E0 escape; or with 0x80 *)
        let '(data, shift) := if negb (Z.land shift E0ESC =? 0) then (Z.lor data 0x80, Z.land shift (Z.lnot E0ESC)) else (data, shift) in
        let shift := Z.lxor (Z.lor shift (at_key shiftcode data)) (at_key togglecode data) in
        let c := at_key (charcode (Z.land shift (Z.lor (Z.lor CTL ALT) SHIFT))) data in
        let c := if negb (Z.land shift CAPSLOCK =? 0) then
                   if (97 <=? c) && (c <=? 122) then c + (65 - 97)
                   else if (65 <=? c) && (c <=? 90) then c + (97 - 65) else c
                 else c in
        (c, shift)
  end.

(** What [consoleintr] gets: [getc] is called until it returns [-1]. *)
Fixpoint kbd_chars (codes : list Z) (shift : Z) : list Z * Z :=
  match codes with
  | [] => ([], shift)
  | d :: codes' =>
      let '(c, shift) := kbdgetc (Some d) shift in
      let '(cs, shift) := kbd_chars codes' shift in
      (c :: cs, shift)
  end.
