(* ===== verification/Console.v ===== *)
(** * The console ([kernel/console.c])

    The screen, the input buffer with its line editing, and the driver's
    functions.  [cons.lock] makes an interrupt and the part of [consoleread]
    between two calls of [sleep] atomic.  The cursor is the register pair 14, 15
    of the display controller; [panicked] is set only when the machine has
    stopped. *)

From S2P Require Import Prelude Params Locks Kalloc Bio Log Block Inode FileProps Kbd.
Local Open Scope Z_scope.
Local Open Scope kmonad_scope.

Definition BACKSPACE : Z := 0x100.
Definition INPUT_BUF : Z := 128.

(** [input]; [crt], as words at positions of the screen; what was sent to the
    serial port; the table of colors; [crt_copy]; memory; and how often the
    readers were woken. *)
Record console := Console {
  c_buf : list Z; c_r : Z; c_w : Z; c_e : Z;
  c_crt : gmap Z Z; c_cursor : Z; c_uart : list Z;
  c_color : Z; c_selected : Z; c_table : bool; c_copy : Z;
  c_echo : Z; c_mem : kmem; c_woken : nat
}.

Definition set_input (b : list Z) (r w e : Z) (s : console) : console :=
  Console b r w e (c_crt s) (c_cursor s) (c_uart s) (c_color s) (c_selected s) (c_table s) (c_copy s) (c_echo s) (c_mem s) (c_woken s).
Definition set_screen (crt : gmap Z Z) (pos : Z) (s : console) : console :=
  Console (c_buf s) (c_r s) (c_w s) (c_e s) crt pos (c_uart s) (c_color s) (c_selected s) (c_table s) (c_copy s) (c_echo s) (c_mem s) (c_woken s).
Definition set_uart (u : list Z) (s : console) : console :=
  Console (c_buf s) (c_r s) (c_w s) (c_e s) (c_crt s) (c_cursor s) u (c_color s) (c_selected s) (c_table s) (c_copy s) (c_echo s) (c_mem s) (c_woken s).
Definition set_colors (color selected : Z) (t : bool) (s : console) : console :=
  Console (c_buf s) (c_r s) (c_w s) (c_e s) (c_crt s) (c_cursor s) (c_uart s) color selected t (c_copy s) (c_echo s) (c_mem s) (c_woken s).
Definition set_copy (a : Z) (s : console) : console :=
  Console (c_buf s) (c_r s) (c_w s) (c_e s) (c_crt s) (c_cursor s) (c_uart s) (c_color s) (c_selected s) (c_table s) a (c_echo s) (c_mem s) (c_woken s).
Definition set_mem (m : kmem) (s : console) : console :=
  Console (c_buf s) (c_r s) (c_w s) (c_e s) (c_crt s) (c_cursor s) (c_uart s) (c_color s) (c_selected s) (c_table s) (c_copy s) (c_echo s) m (c_woken s).
Definition wake (s : console) : console :=
  Console (c_buf s) (c_r s) (c_w s) (c_e s) (c_crt s) (c_cursor s) (c_uart s) (c_color s) (c_selected s) (c_table s) (c_copy s) (c_echo s) (c_mem s) (S (c_woken s)).

Definition onmem {A} (m : M kmem A) : M console A := lift c_mem set_mem m.

(** ** The screen *)

Definition crt_at (crt : gmap Z Z) (i : Z) : Z := default 0 (crt !! i).
(** Words copied to position [i]. *)
Definition crt_write (crt : gmap Z Z) (i : Z) (ws : list Z) : gmap Z Z := map_seqZ i ws ∪ crt.

Definition crt_words (crt : gmap Z Z) (i n : Z) : list Z := crt_at crt <$> seqZ i n.

Definition scroll (crt : gmap Z Z) (pos : Z) : gmap Z Z * Z :=
  let crt := crt_write crt 0 (crt_words crt 80 (23 * 80)) in
  let pos := pos - 80 in
  (crt_write crt pos (replicate (Z.to_nat (24 * 80 - pos)) 0), pos).

Definition cgaputc (c : Z) : M console unit :=
  s <- gets id;;
  let pos := c_cursor s in
  let '(crt, pos) :=
    if c =? 10 then (c_crt s, pos + (80 - Z.rem pos 80))
    else if c =? BACKSPACE then (c_crt s, if 0 <? pos then pos - 1 else pos)
    else (<[pos := Z.lor (Z.land c 0xff) (c_color s)]> (c_crt s), pos + 1) in
  if (pos <? 0) || (25 * 80 <? pos) then panic "pos under/overflow" else
  let '(crt, pos) := if 24 <=? pos / 80 then scroll crt pos else (crt, pos) in
  modify (set_screen (<[pos := Z.lor 32 0x0700]> crt) (Z.lor (Z.shiftl (u8 (Z.shiftr pos 8)) 8) (u8 pos))).

(** Whether there is a serial port: [uartinit] finds out. *)
Section console.
Context (uart : bool) (kend : Z).

Definition uartputc (c : Z) : M console unit :=
  modify (fun s => if uart then set_uart (c_uart s ++ [u8 c]) s else s).

Definition consputc (c : Z) : M console unit :=
  (if c =? BACKSPACE then uartputc 8;; uartputc 32;; uartputc 8 else uartputc c);;
  cgaputc c.

(** *** The table of colors *)

Definition attr (bg fg : Z) : Z := Z.shiftl (Z.lor (Z.shiftl bg 4) fg) 8.
Definition selectable_colors : list Z := [attr 0 15; attr 15 13; attr 3 12; attr 6 15].
(** ["WHT BLK"], ["PUR WHT"], ["RED AQU"], ["WHT YEL"] *)
Definition selectable_color_names : list (list Z) :=
  [[87; 72; 84; 32; 66; 76; 75]; [80; 85; 82; 32; 87; 72; 84]; [82; 69; 68; 32; 65; 81; 85]; [87; 72; 84; 32; 89; 69; 76]].

(** The word at row [i] and column [j] of the table. *)
Definition table_cell (selected i j : Z) : Z :=
  let base_color := attr 7 0 in
  let selected_color := attr 2 0 in
  if ((i =? 0) || (i =? 8)) && ((j =? 0) || (j =? 8)) then Z.lor 43 base_color
  else if (j =? 0) || (j =? 8) then Z.lor 124 base_color
  else if (i =? 0) || (i =? 8) || (i mod 2 =? 0) then Z.lor 45 base_color
  else Z.lor (nth (Z.to_nat (j - 1)) (nth (Z.to_nat (i / 2)) selectable_color_names []) 0)
             (if i =? selected then base_color else if i / 2 =? selected then selected_color else base_color).

(** The position of the table's first row for the cursor [pos]. *)
Definition table_pos (pos : Z) : Z :=
  let pos := pos - 9 * 80 in
  if 80 <? Z.rem pos 80 + 9 then pos - 9 else pos.

Definition draw_table (selected pos : Z) (crt : gmap Z Z) : gmap Z Z :=
  foldl (fun crt i => crt_write crt (pos + 80 * i) (table_cell selected i <$> seqZ 0 9)) crt (seqZ 0 9).

(** The pictures at negative positions lie before the screen in memory. *)
Definition show_table : M console unit :=
  modify (fun s => set_screen (draw_table (c_selected s) (table_pos (c_cursor s)) (c_crt s)) (c_cursor s) s).

(** Words of the screen as bytes of a page. *)
Definition words_bytes (ws : list Z) : list Z := concat (le_bytes 2 <$> ws).
Fixpoint bytes_words (n : nat) (b : list Z) : list Z :=
  match n with
  | O => []
  | S n' => le_val (take 2 b) :: bytes_words n' (drop 2 b)
  end.

(** [cprintf] takes [cons.lock], which [consoleintr] holds. *)
Definition copy_crt : M console unit :=
  a <- onmem kalloc;;
  modify (set_copy a);;
  if a =? 0 then panic "acquire" else
  crt <- gets c_crt;;
  onmem (modify (fun k => set_page a (splice (page k a) 0 (words_bytes (crt_words crt 0 (80 * 25)))) k)).

Definition restore_crt : M console unit :=
  a <- gets c_copy;;
  b <- gets (fun s => page (c_mem s) a);;
  modify (fun s => set_screen (crt_write (c_crt s) 0 (bytes_words 2000 b)) (c_cursor s) s);;
  onmem (kfree kend a);;
  modify (set_copy 0).

(** ** Input *)

(** [input.buf[i % INPUT_BUF]], a [char]. *)
Definition buf_at (s : console) (i : Z) : Z := default 0 (c_buf s !! Z.to_nat (i mod INPUT_BUF)).

(** [case C('U')]: each turn brings [e] closer to [w]. *)
Fixpoint kill_line (fuel : nat) : M console unit :=
  match fuel with
  | O => ret tt
  | S fuel' =>
      s <- gets id;;
      if negb (c_e s =? c_w s) && negb (buf_at s (u32 (c_e s - 1)) =? 10) then
        modify (set_input (c_buf s) (c_r s) (c_w s) (u32 (c_e s - 1)));;
        consputc BACKSPACE;;
        kill_line fuel'
      else ret tt
  end.

(** A character of [consoleintr]; [true] asks for the process listing. *)
Definition consolechar (c : Z) : M console bool :=
  s <- gets id;;
  if c =? ctrl 80 then ret true
  else if c =? ctrl 85 then
    kill_line (Z.to_nat (u32 (c_e s - c_w s)));; ret false
  else if (c =? ctrl 72) || (c =? 0x7f) then
    when (negb (c_e s =? c_w s)) (
      modify (set_input (c_buf s) (c_r s) (c_w s) (u32 (c_e s - 1)));;
      consputc BACKSPACE);;
    ret false
  else if c =? alt 67 then
    modify (set_colors (c_color s) (c_selected s) (negb (c_table s)));;
    (if negb (c_table s) then
       (* Save previous buffer and show selection *)
       copy_crt;; show_table
     else
       (* Restore buffer *)
       restore_crt;;
       modify (fun s => set_colors (nth (Z.to_nat (c_selected s)) selectable_colors 0) (c_selected s) (c_table s) s));;
    ret false
  else
    (* Move up/down and redraw table *)
    if c_table s then
      (if c =? 119 then
         modify (set_colors (c_color s) (if c_selected s - 1 <? 0 then 0 else c_selected s - 1) (c_table s))
       else if c =? 115 then
         modify (set_colors (c_color s) (if 4 <=? c_selected s + 1 then c_selected s + 1 - 1 else c_selected s + 1) (c_table s))
       else ret tt);;
      show_table;;
      ret false
    else if negb (c =? 0) && (u32 (c_e s - c_r s) <? INPUT_BUF) then
      let c := if c =? 13 then 10 else c in
      modify (set_input (<[Z.to_nat (c_e s mod INPUT_BUF) := s8 c]> (c_buf s)) (c_r s) (c_w s) (u32 (c_e s + 1)));;
      (* Hide characters that are to be hidden *)
      (if (c_echo s =? 0) && negb (c =? 10) then consputc 42 else consputc c);;
      s <- gets id;;
      when ((c =? 10) || (c =? ctrl 68) || (c_e s =? u32 (c_r s + INPUT_BUF))) (
        modify (set_input (c_buf s) (c_r s) (c_e s) (c_e s));;
        modify wake);;
      ret false
    else ret false.

Fixpoint consolechars (cs : list Z) : M console bool :=
  match cs with
  | [] => ret false
  | c :: cs' => d <- consolechar c;; d' <- consolechars cs';; ret (d || d')
  end.

Fixpoint print_chars (cs : list Z) : M console unit :=
  match cs with
  | [] => ret tt
  | c :: cs' => consputc c;; print_chars cs'
  end.

(** [cs] is what [getc] returns before it is negative, [procdump] what the
    process listing prints. *)
Definition consoleintr (procdump cs : list Z) : M console unit :=
  doprocdump <- consolechars cs;;
  when doprocdump (print_chars procdump).

(** How the loop of [consoleread] stops: it is done, it sleeps, or the process
    has been killed; with what is left of [n] and the bytes stored at [dst]. *)
Inductive reading :=
| RDone (n : Z) (dst : list Z)
| RSleep (n : Z) (dst : list Z)
| RKilled (dst : list Z).

Fixpoint consoleread_loop (fuel : nat) (killed : bool) (target n : Z) (dst : list Z) : M console reading :=
  match fuel with
  | O => ret (RDone n dst)
  | S fuel' =>
      if 0 <? n then
        s <- gets id;;
        if c_r s =? c_w s then
          if killed then ret (RKilled dst) else ret (RSleep n dst)
        else
          let c := buf_at s (c_r s) in
          modify (set_input (c_buf s) (u32 (c_r s + 1)) (c_w s) (c_e s));;
          if c =? ctrl 68 then
            when (n <? target) (modify (set_input (c_buf s) (u32 (u32 (c_r s + 1) - 1)) (c_w s) (c_e s)));;
            ret (RDone n dst)
          else
            let dst := dst ++ [u8 c] in
            if c =? 10 then ret (RDone (n - 1) dst)
            else consoleread_loop fuel' killed target (n - 1) dst
      else ret (RDone n dst)
  end.

(** [cons.lock] held: from the start, or from [sleep] with [n] bytes left. *)
Definition read_input (killed : bool) (target n : Z) (dst : list Z) : M console reading :=
  consoleread_loop (Z.to_nat n) killed target n dst.

(** ** The driver's functions, with the inode that they unlock meanwhile *)

Context (pid : Z) (sb : superblock).
#[local] Hint Extern 0 (BlockLayer lstate) => exact (log_layer pid) : typeclass_instances.
Abbreviation machine := (fstate lstate * console)%type.
Definition onfiles {A} (m : M (fstate lstate) A) : M machine A := lift fst (fun f s => (f, s.2)) m.
Definition oncons {A} (m : M console A) : M machine A := lift snd (fun c s => (s.1, c)) m.

(** The result and the bytes stored at [dst]. *)
Definition consoleread (ip : nat) (killed : bool) (n : Z) : M machine (Z * list Z) :=
  onfiles (iunlock pid ip);;
  r <- oncons (read_input killed n n []);;
  match r with
  | RSleep _ _ => block
  | RKilled dst => onfiles (ilock pid sb ip);; ret (-1, dst)
  | RDone n' dst => onfiles (ilock pid sb ip);; ret (n - n', dst)
  end.

Definition consolewrite (ip : nat) (buf : list Z) : M machine Z :=
  onfiles (iunlock pid ip);;
  oncons (print_chars ((fun c => Z.land c 0xff) <$> buf));;
  onfiles (ilock pid sb ip);;
  ret (Z.of_nat (length buf)).
End console.
