(* ===== verification/ConsoleProps.v ===== *)
(** * Line editing on the console

    The ring buffer of [Console] refines an editor on lists: the characters
    that can be read, and the line that is being edited. *)

From S2P Require Import Prelude Params Kalloc Kbd Console.
Local Open Scope Z_scope.
Local Open Scope kmonad_scope.

(** ** The editor *)

Record editor := Editor { ed_ready : list Z; ed_line : list Z; ed_table : bool }.

(** What a character does. *)
Definition edit (ed : editor) (c : Z) : editor :=
  let '(Editor q l t) := ed in
  if c =? ctrl 80 then ed
  else if c =? ctrl 85 then Editor q [] t
  else if (c =? ctrl 72) || (c =? 0x7f) then Editor q (take (length l - 1) l) t
  else if c =? alt 67 then Editor q l (negb t)
  else if t then ed
  else if negb (c =? 0) && (Z.of_nat (length (q ++ l)) <? INPUT_BUF) then
    let c := if c =? 13 then 10 else c in
    let l := l ++ [s8 c] in
    if (c =? 10) || (c =? ctrl 68) || (Z.of_nat (length (q ++ l)) =? INPUT_BUF) then Editor (q ++ l) [] t else Editor q l t
  else ed.

(** What [consoleread] takes of the characters [q], with [n] of [target] left to
    read. *)
Fixpoint take_line (q : list Z) (killed : bool) (target n : Z) (dst : list Z) : reading * list Z :=
  if 0 <? n then
    match q with
    | [] => (if killed then RKilled dst else RSleep n dst, [])
    | c :: q' =>
        if c =? ctrl 68 then (RDone n dst, if n <? target then q else q')
        else if c =? 10 then (RDone (n - 1) (dst ++ [u8 c]), q')
        else take_line q' killed target (n - 1) (dst ++ [u8 c])
    end
  else (RDone n dst, q).

(** ** The ring buffer *)

(** The ring holds the characters [q] and the line [l].  A full ring can be
    read. *)
Record ring (s : console) (q l : list Z) : Prop := {
  rg_r : 0 <= c_r s < 2 ^ 32;
  rg_w : c_w s = u32 (c_r s + Z.of_nat (length q));
  rg_e : c_e s = u32 (c_r s + Z.of_nat (length (q ++ l)));
  rg_max : Z.of_nat (length (q ++ l)) <= 128;
  rg_full : l <> [] -> Z.of_nat (length (q ++ l)) < 128;
  rg_len : length (c_buf s) = 128%nat;
  rg_at i x : (q ++ l) !! i = Some x -> c_buf s !! Z.to_nat ((c_r s + Z.of_nat i) mod 128) = Some x;
  rg_line : Forall (fun c => c <> 10) l
}.

Lemma u32_mod128 x : u32 x mod 128 = x mod 128.
Proof. unfold u32. lia. Qed.

Lemma buf_at_ring s q l i x : ring s q l -> (q ++ l) !! i = Some x -> buf_at s (u32 (c_r s + Z.of_nat i)) = x.
Proof. intros R H. unfold buf_at. change INPUT_BUF with 128. rewrite u32_mod128, (rg_at _ _ _ R i x H). done. Qed.

(** The parts of the state that the ring is. *)
Definition same_input (s s' : console) : Prop := c_buf s' = c_buf s /\ c_r s' = c_r s /\ c_w s' = c_w s /\ c_e s' = c_e s.

Lemma ring_same s s' q l : same_input s s' -> ring s q l -> ring s' q l.
Proof. intros (E1 & E2 & E3 & E4) [R1 R2 R3 R4 R5 R6 R7 R8]. split; rewrite ?E1, ?E2, ?E3, ?E4; done. Qed.

Lemma ring_eq s q l : ring s q l -> (c_e s =? c_w s) = bool_decide (l = []).
Proof.
  intros R. rewrite (rg_e _ _ _ R), (rg_w _ _ _ R), length_app. pose proof (rg_max _ _ _ R) as H. rewrite length_app in H.
  destruct l as [|x l]; cbn [length] in *.
  - rewrite bool_decide_true by done. apply Z.eqb_eq. f_equal. lia.
  - rewrite bool_decide_false by done. apply Z.eqb_neq. unfold u32. lia.
Qed.

Lemma ring_read s q l : ring s q l -> (c_r s =? c_w s) = bool_decide (q = []).
Proof.
  intros R. rewrite (rg_w _ _ _ R). pose proof (rg_r _ _ _ R). pose proof (rg_max _ _ _ R) as H'. rewrite length_app in H'. destruct q as [|x q]; cbn [length] in *.
  - rewrite bool_decide_true by done. apply Z.eqb_eq. unfold u32. rewrite Z.mod_small; lia.
  - rewrite bool_decide_false by done. apply Z.eqb_neq. unfold u32. lia.
Qed.

Lemma ring_space s q l : ring s q l -> u32 (c_e s - c_r s) = Z.of_nat (length (q ++ l)).
Proof. intros R. rewrite (rg_e _ _ _ R). pose proof (rg_max _ _ _ R). pose proof (rg_r _ _ _ R). unfold u32. lia. Qed.

(** The last character of the line is taken back. *)
Lemma ring_back s q l x : ring s q (l ++ [x]) -> ring (set_input (c_buf s) (c_r s) (c_w s) (u32 (c_e s - 1)) s) q l.
Proof.
  intros [R1 R2 R3 R4 R5 R6 R7 R8]. rewrite app_assoc, (length_app (q ++ l)) in *. cbn [length] in *.
  split; cbn [c_buf c_r c_w c_e set_input]; try done; try lia.
  - rewrite R3. unfold u32. rewrite Zminus_mod_idemp_l. f_equal. lia.
  - intros i y H. apply R7. by apply lookup_app_l_Some.
  - by apply Forall_app in R8 as [? _].
Qed.

(** A character is added. *)
Lemma ring_put s q l c : ring s q l -> Z.of_nat (length (q ++ l)) < 128 -> forall q' l', q' ++ l' = q ++ l ++ [c] ->
  (l' <> [] -> Z.of_nat (length (q' ++ l')) < 128) -> Forall (fun c => c <> 10) l' ->
  ring (set_input (<[Z.to_nat (c_e s mod INPUT_BUF) := c]> (c_buf s)) (c_r s) (u32 (c_r s + Z.of_nat (length q'))) (u32 (c_e s + 1)) s) q' l'.
Proof.
  intros [R1 R2 R3 R4 R5 R6 R7 R8] Hlt q' l' E Hf Hl. rewrite app_assoc in E. change INPUT_BUF with 128.
  split; cbn [c_buf c_r c_w c_e set_input]; rewrite ?E, ?(length_app (q ++ l)); cbn [length]; try done; try lia.
  - rewrite R3. unfold u32. rewrite Zplus_mod_idemp_l. f_equal. lia.
  - intros Hne. specialize (Hf Hne). rewrite E, length_app in Hf. cbn [length] in Hf. lia.
  - by rewrite length_insert.
  - intros i y H. rewrite R3, u32_mod128. destruct (decide (i = length (q ++ l))) as [->|N].
    + rewrite lookup_app_r, Nat.sub_diag in H by done. injection H as ->. apply list_lookup_insert_eq. lia.
    + assert (Hi : (i < length (q ++ l))%nat) by (apply lookup_lt_Some in H; rewrite length_app in H; cbn [length] in H; lia).
      rewrite lookup_app_l in H by done. rewrite list_lookup_insert_ne; [by apply R7|]. intros E'.
      clear -E' Hi Hlt R1. lia.
Qed.

(** The first character is read. *)
Lemma ring_get s c q l : ring s (c :: q) l -> ring (set_input (c_buf s) (u32 (c_r s + 1)) (c_w s) (c_e s) s) q l.
Proof.
  intros [R1 R2 R3 R4 R5 R6 R7 R8]. cbn [app length] in *. split; cbn [c_buf c_r c_w c_e set_input]; try done; try lia.
  - unfold u32. lia.
  - rewrite R2. unfold u32. rewrite Zplus_mod_idemp_l. f_equal. lia.
  - rewrite R3. unfold u32. rewrite Zplus_mod_idemp_l. f_equal. lia.
  - intros i x H. rewrite <- (R7 (S i) x H). do 2 f_equal. unfold u32. lia.
Qed.

Lemma ring_unget s c q l : ring s (c :: q) l -> set_input (c_buf s) (u32 (u32 (c_r s + 1) - 1)) (c_w s) (c_e s) s = s.
Proof. intros R. pose proof (rg_r _ _ _ R). destruct s. cbn in *. unfold set_input. cbn. f_equal. unfold u32. lia. Qed.

(** ** Output *)

(** Only the screen and the serial line change, and the cursor is on the
    screen. *)
Definition shown (s s' : console) : Prop := exists crt pos u, s' = set_uart u (set_screen crt pos s) /\ 0 <= pos < 1920.

Lemma shown_trans s1 s2 s3 : shown s1 s2 -> shown s2 s3 -> shown s1 s3.
Proof. intros (crt & pos & u & -> & _) (crt' & pos' & u' & -> & H). exists crt', pos', u'. by split. Qed.

Lemma shown_refl s : 0 <= c_cursor s < 1920 -> shown s s.
Proof. intros H. exists (c_crt s), (c_cursor s), (c_uart s). by destruct s. Qed.

Lemma shown_input s s' : shown s s' -> same_input s s'.
Proof. by intros (crt & pos & u & -> & _). Qed.

Lemma shown_cursor s s' : shown s s' -> 0 <= c_cursor s' < 1920.
Proof. by intros (crt & pos & u & -> & ?). Qed.

Lemma cursor_bytes pos : 0 <= pos < 65536 -> Z.lor (Z.shiftl (u8 (Z.shiftr pos 8)) 8) (u8 pos) = pos.
Proof.
  intros H. assert (E : u8 (Z.shiftr pos 8) = Z.shiftr pos 8).
  { unfold u8. rewrite Z.shiftr_div_pow2 by lia. change (2 ^ 8) with 256. apply Z.mod_small. lia. }
  rewrite E, <- Z.ldiff_ones_r by lia. unfold u8. rewrite <- Z.land_ones by lia. apply Z.lor_ldiff_and.
Qed.

Lemma cgaputc_ok c s : 0 <= c_cursor s < 1920 -> wp nopanic (cgaputc c) (fun _ s' => shown s s') s.
Proof.
  intros H. unfold cgaputc. do 2 wp_step. unfold id. set (r := if c =? 10 then _ else _).
  assert (Hr : 0 <= r.2 <= 1920).
  { subst r. destruct (c =? 10); [cbn [snd]; rewrite Z.rem_mod_nonneg by lia; lia|]. destruct (c =? BACKSPACE); cbn [snd]; [destruct (0 <? c_cursor s) eqn:E|]; lia. }
  destruct r as [crt pos]. cbn [snd] in Hr. replace ((pos <? 0) || (25 * 80 <? pos)) with false by lia.
  assert (Hput : forall m p, 0 <= p < 1920 -> shown s (set_screen m (Z.lor (Z.shiftl (u8 (Z.shiftr p 8)) 8) (u8 p)) s)).
  { intros m p Hp. rewrite cursor_bytes by lia. exists m, p, (c_uart s). by destruct s. }
  destruct (24 <=? pos / 80) eqn:E; [unfold scroll|]; wp_step; apply Hput; lia.
Qed.

Section output.
Context (uart : bool).

Lemma uartputc_shown c s : 0 <= c_cursor s < 1920 -> wp nopanic (uartputc uart c) (fun _ s' => shown s s') s.
Proof. intros H. unfold uartputc. wp_step. destruct uart; [|by apply shown_refl]. exists (c_crt s), (c_cursor s). eexists. split; [by destruct s|done]. Qed.

Lemma consputc_ok c s : 0 <= c_cursor s < 1920 -> wp nopanic (consputc uart c) (fun _ s' => shown s s') s.
Proof.
  intros H. unfold consputc. assert (Hu : forall d t Q, shown s t -> (forall t', shown s t' -> Q tt t') -> wp nopanic (uartputc uart d) Q t).
  { intros d t Q Ht HQ. eapply wp_post; [apply uartputc_shown; by eapply shown_cursor|]. intros [] t' Ht'. apply HQ. by eapply shown_trans. }
  assert (Hc : forall t, shown s t -> wp nopanic (cgaputc c) (fun _ s' => shown s s') t).
  { intros t Ht. eapply wp_post; [apply cgaputc_ok; by eapply shown_cursor|]. intros x t' Ht'. by eapply shown_trans. }
  wp_step. destruct (c =? BACKSPACE); [|by apply Hu; [apply shown_refl|]]. wp_step. apply Hu; [by apply shown_refl|]. intros t1 H1. wp_step. apply Hu; [done|]. intros t2 H2. by apply Hu.
Qed.

Lemma print_chars_ok cs : forall s, 0 <= c_cursor s < 1920 -> wp nopanic (print_chars uart cs) (fun _ s' => shown s s') s.
Proof.
  induction cs as [|c cs IH]; intros s H; cbn [print_chars]; [wp_step; by apply shown_refl|]. wp_step. eapply wp_post; [by apply consputc_ok|]. intros x1 s1 H1. cbv beta in *.
  eapply wp_post; [apply IH; by eapply shown_cursor|]. intros x2 s2 H2. by eapply shown_trans.
Qed.
End output.

(** ** Interrupts *)

Section input.
Context (uart : bool) (kend : Z).

(** The free pages are [l]; the copy of the screen is in a page of its own. *)
Definition mem_ok (s : console) (l : list Z) : Prop :=
  free_pages kend (c_mem s) l /\ if c_table s then valid_page kend (c_copy s) /\ c_copy s ∉ l else l <> [].

(** The console holds the state [ed] of the editor. *)
Record holds (s : console) (ed : editor) : Prop := {
  hd_ring : ring s (ed_ready ed) (ed_line ed);
  hd_table : c_table s = ed_table ed;
  hd_cursor : 0 <= c_cursor s < 1920;
  hd_mem : exists l, mem_ok s l
}.

Lemma holds_shown s s' ed : shown s s' -> holds s ed -> holds s' ed.
Proof.
  intros H [H1 H2 _ H4]. pose proof (shown_cursor _ _ H). split; [eapply ring_same; [by apply shown_input|done]| |done|]; destruct H as (crt & pos & u & -> & _); done.
Qed.

(** Changes of the input buffer only. *)
Lemma holds_input s b r w e q l t : c_table s = t -> 0 <= c_cursor s < 1920 -> (exists l, mem_ok s l) -> ring (set_input b r w e s) q l -> holds (set_input b r w e s) (Editor q l t).
Proof. intros H1 H2 H3 H4. by split. Qed.

Lemma kill_line_spec n : forall s q l t, holds s (Editor q l t) -> (length l <= n)%nat ->
  wp nopanic (kill_line uart n) (fun _ s' => holds s' (Editor q [] t) /\ c_woken s' = c_woken s) s.
Proof.
  induction n as [|n IH]; intros s q l t H Hl.
  - destruct l; [|cbn in Hl; lia]. cbn [kill_line]. by wp_step.
  - cbn [kill_line]. do 2 wp_step. unfold id. rewrite (ring_eq _ _ _ (hd_ring _ _ H)). cbn [ed_line]. destruct l as [|x l' _] using rev_ind.
    { rewrite bool_decide_true by done. cbn [negb andb]. by wp_step. }
    pose proof (hd_ring _ _ H) as R. cbn [ed_ready ed_line] in R. rewrite bool_decide_false by (by destruct l'). cbn [negb andb].
    assert (Ebuf : buf_at s (u32 (c_e s - 1)) = x).
    { rewrite <- (buf_at_ring s q (l' ++ [x]) (length (q ++ l')) x R); [|by rewrite app_assoc, lookup_app_r, Nat.sub_diag by done].
      f_equal. rewrite (rg_e _ _ _ R), app_assoc, length_app. cbn [length]. unfold u32. rewrite Zminus_mod_idemp_l. f_equal. lia. }
    assert (Hx : x <> 10) by (pose proof (rg_line _ _ _ R) as Hf; apply Forall_app in Hf as [_ Hf]; by apply Forall_inv in Hf).
    rewrite Ebuf, (proj2 (Z.eqb_neq x 10)) by done. cbn [negb]. do 2 wp_step.
    assert (H1 : holds (set_input (c_buf s) (c_r s) (c_w s) (u32 (c_e s - 1)) s) (Editor q l' t)) by (apply holds_input; [by apply H..|by eapply ring_back]).
    wp_step. eapply wp_post; [apply consputc_ok, H1|]. intros x1 s1 S1. cbv beta in *. rewrite length_app in Hl. cbn [length] in Hl.
    eapply wp_post; [apply (IH s1 q l' t); [by eapply holds_shown|lia]|]. intros x2 s2 [H2 Ew]. split; [done|]. rewrite Ew. by destruct S1 as (? & ? & ? & -> & _).
Qed.

(** Showing the table and hiding it. *)
Lemma table_on s q l : holds s (Editor q l false) ->
  wp nopanic (copy_crt;; show_table) (fun _ s' => holds s' (Editor q l true) /\ c_woken s' = c_woken s) (set_colors (c_color s) (c_selected s) true s).
Proof.
  intros [R Ht Hc (fl & Hf & Hm)]. cbn [ed_table] in Ht. rewrite Ht in Hm. destruct fl as [|v fl]; [done|].
  wp_step. unfold copy_crt. wp_step. unfold onmem at 1. apply wp_lift. eapply wp_post; [by apply kalloc_free|]. intros a m (-> & Hf' & Hp & Hu). cbv beta in *. cbn [head tail] in *. change (default 0 (Some v)) with v.
  assert (Hv : valid_page kend v /\ v ∉ fl) by (destruct Hf as (_ & Hnd & Hval); apply NoDup_cons in Hnd as [? _]; by apply Forall_cons in Hval as [? _]).
  destruct Hv as [Hv Hvl]. assert (Hv0 : v <> 0) by (destruct Hv; lia). do 2 wp_step. rewrite (proj2 (Z.eqb_neq v 0)) by done. do 2 wp_step. unfold onmem. apply wp_lift. wp_step.
  unfold show_table. wp_step. split; [|done]. split; cbn [ed_ready ed_line ed_table]; [by apply (ring_same s)|done|done|].
  exists fl. split; cbn; [|done]. destruct Hf' as (Hch & Hnd & Hval). split; [|done]. cbn. apply chain_insert; [done|done].
Qed.

Lemma table_off s q l : holds s (Editor q l true) ->
  wp nopanic (restore_crt kend;; modify (fun s => set_colors (nth (Z.to_nat (c_selected s)) selectable_colors 0) (c_selected s) (c_table s) s))
    (fun _ s' => holds s' (Editor q l false) /\ c_woken s' = c_woken s) (set_colors (c_color s) (c_selected s) false s).
Proof.
  intros [R Ht Hc (fl & Hf & Hm)]. cbn [ed_table] in Ht. rewrite Ht in Hm. destruct Hm as [Hv Hvl].
  wp_step. unfold restore_crt. do 6 wp_step. wp_step. unfold onmem. apply wp_lift. cbn [c_mem c_copy set_screen set_colors set_mem].
  eapply wp_post; [by apply (kfree_free kend (c_mem s) fl (c_copy s))|]. intros x m (Hf' & _ & _). do 2 wp_step. split; [|done].
  split; cbn [ed_ready ed_line ed_table]; [by apply (ring_same s)|done|done|]. exists (c_copy s :: fl). by split.
Qed.

(** The readers are woken when there is something new to read. *)
Definition told (s s' : console) (ed ed' : editor) : Prop := (c_woken s <= c_woken s')%nat /\ (ed_ready ed' <> ed_ready ed -> (c_woken s < c_woken s')%nat).

Lemma told_same s s' ed ed' : c_woken s' = c_woken s -> ed_ready ed' = ed_ready ed -> told s s' ed ed'.
Proof. intros E E'. split; [lia|by rewrite E']. Qed.

(** A character for the line. *)
Lemma char_in s q l c : holds s (Editor q l false) -> Z.of_nat (length (q ++ l)) < 128 ->
  let s1 := set_input (<[Z.to_nat (c_e s mod INPUT_BUF) := s8 c]> (c_buf s)) (c_r s) (c_w s) (u32 (c_e s + 1)) s in
  let ed' := if (c =? 10) || (c =? ctrl 68) || (Z.of_nat (length (q ++ l ++ [s8 c])) =? INPUT_BUF) then Editor (q ++ l ++ [s8 c]) [] false else Editor q (l ++ [s8 c]) false in
  -128 <= c < 256 ->
  wp nopanic ((if (c_echo s =? 0) && negb (c =? 10) then consputc uart 42 else consputc uart c);;
    s <- gets id;;
    when ((c =? 10) || (c =? ctrl 68) || (c_e s =? u32 (c_r s + INPUT_BUF))) (
      modify (set_input (c_buf s) (c_r s) (c_e s) (c_e s));;
      modify wake);;
    ret false) (fun _ s' => holds s' ed' /\ told s s' (Editor q l false) ed') s1.
Proof.
  intros H Hlt s1 ed' Hc. pose proof (hd_ring _ _ H) as R. cbn [ed_ready ed_line] in R. wp_step.
  assert (Hput : wp nopanic (if (c_echo s =? 0) && negb (c =? 10) then consputc uart 42 else consputc uart c) (fun _ s' => shown s1 s') s1).
  { destruct (_ && _); apply consputc_ok, H. }
  eapply wp_post; [exact Hput|]. intros x s2 S2. cbv beta in *. do 2 wp_step. unfold id.
  destruct (shown_input _ _ S2) as (B1 & B2 & B3 & B4). assert (Hw : c_woken s2 = c_woken s) by (by destruct S2 as (? & ? & ? & -> & _)).
  assert (Hrest : c_table s2 = false /\ exists l, mem_ok s2 l) by (destruct S2 as (? & ? & ? & -> & _); destruct H as [_ Ht _ Hm]; done). destruct Hrest as [Ht2 Hm2].
  assert (E1 : c_e s2 = u32 (c_e s + 1) /\ c_r s2 = c_r s /\ c_w s2 = c_w s) by done. destruct E1 as (E1 & E2 & E3).
  assert (Efull : (c_e s2 =? u32 (c_r s2 + INPUT_BUF)) = (Z.of_nat (length (q ++ l ++ [s8 c])) =? INPUT_BUF)).
  { rewrite E1, E2, (rg_e _ _ _ R), app_assoc, (length_app (q ++ l)). cbn [length]. change INPUT_BUF with 128. pose proof (rg_r _ _ _ R). unfold u32. lia. }
  rewrite Efull. subst ed'. destruct (_ || _) eqn:E.
  - wp_step. unfold when. wp_step. do 3 wp_step. split; [|by split; cbn; lia]. split; cbn [ed_ready ed_line ed_table]; [|exact Ht2|exact (shown_cursor _ _ S2)|exact Hm2].
    apply (ring_same (set_input (<[Z.to_nat (c_e s mod INPUT_BUF) := s8 c]> (c_buf s)) (c_r s) (u32 (c_r s + Z.of_nat (length (q ++ l ++ [s8 c])))) (u32 (c_e s + 1)) s)).
    + split_and!; cbn; try done. rewrite E1, (rg_e _ _ _ R), app_assoc, (length_app (q ++ l)). cbn [length]. unfold u32. rewrite Zplus_mod_idemp_l. f_equal. lia.
    + eapply ring_put; [done|done|by rewrite app_nil_r|done|constructor].
  - wp_step. unfold when. do 2 wp_step. split; [|by apply told_same]. apply orb_false_iff in E as [[E10 _]%orb_false_iff E128]. split; cbn [ed_ready ed_line ed_table]; [|exact Ht2|exact (shown_cursor _ _ S2)|exact Hm2].
    apply (ring_same (set_input (<[Z.to_nat (c_e s mod INPUT_BUF) := s8 c]> (c_buf s)) (c_r s) (u32 (c_r s + Z.of_nat (length q))) (u32 (c_e s + 1)) s)).
    + split_and!; cbn; try done. rewrite E3. apply (rg_w _ _ _ R).
    + eapply ring_put; [done|done|done| |].
      * intros _. rewrite app_assoc, length_app. rewrite app_assoc, length_app in E128. cbn [length] in *. change INPUT_BUF with 128 in *. lia.
      * apply Forall_app. split; [apply (rg_line _ _ _ R)|]. constructor; [|constructor]. apply Z.eqb_neq in E10. unfold s8. lia.
Qed.

Lemma consolechar_spec s ed c : holds s ed -> -128 <= c < 256 ->
  wp nopanic (consolechar uart kend c) (fun _ s' => holds s' (edit ed c) /\ told s s' ed (edit ed c)) s.
Proof.
  intros H Hc. destruct ed as [q l t]. unfold consolechar. do 2 wp_step. unfold id. cbn [edit].
  destruct (c =? ctrl 80). { wp_step. split; [done|by apply told_same]. }
  pose proof (hd_ring _ _ H) as R. cbn [ed_ready ed_line] in R. pose proof (hd_table _ _ H) as Ht. cbn [ed_table] in Ht.
  destruct (c =? ctrl 85).
  { wp_step. eapply wp_post; [eapply kill_line_spec; [exact H|]|].
    - rewrite (rg_e _ _ _ R), (rg_w _ _ _ R), length_app. pose proof (rg_max _ _ _ R) as Hm. rewrite length_app in Hm. pose proof (rg_r _ _ _ R). unfold u32. lia.
    - intros x s' [H' Ew]. cbv beta. wp_step. split; [done|by apply told_same]. }
  destruct ((c =? ctrl 72) || (c =? 0x7f)).
  { wp_step. rewrite (ring_eq _ _ _ R). destruct l as [|x l' _] using rev_ind.
    - rewrite bool_decide_true by done. cbn [negb when]. do 2 wp_step. split; [done|by apply told_same].
    - rewrite bool_decide_false by (by destruct l'). cbn [negb when]. do 2 wp_step.
      assert (Et : take (length (l' ++ [x]) - 1) (l' ++ [x]) = l') by (rewrite length_app; cbn [length]; replace (length l' + 1 - 1)%nat with (length l') by lia; apply take_app_length). rewrite Et.
      assert (H1 : holds (set_input (c_buf s) (c_r s) (c_w s) (u32 (c_e s - 1)) s) (Editor q l' t)) by (apply holds_input; [by apply H..|by eapply ring_back]).
      eapply wp_post; [apply consputc_ok, H1|]. intros y s1 S1. cbv beta in *. wp_step. split; [by eapply holds_shown|]. apply told_same; [|done]. by destruct S1 as (? & ? & ? & -> & _). }
  destruct (c =? alt 67).
  { rewrite Ht. do 3 wp_step. destruct t; cbn [negb]; [eapply wp_post; [by apply table_off|]|eapply wp_post; [by apply table_on|]]; intros y s1 [H1 E1]; cbv beta in *; wp_step; (split; [done|by apply told_same]). }
  rewrite Ht. destruct t.
  { wp_step. assert (Hset : forall x y, holds (set_colors x y true s) (Editor q l true)).
    { intros x y. destruct H as [H1 H2 H3 H4]. split; [by apply (ring_same s)|done|done|]. destruct H4 as (fl & Hf & Hm). exists fl. split; [done|]. cbn in *. by rewrite Ht in Hm. }
    assert (Hshow : forall s', holds s' (Editor q l true) -> c_woken s' = c_woken s -> wp nopanic (show_table;; ret false) (fun _ s' => holds s' (Editor q l true) /\ told s s' (Editor q l true) (Editor q l true)) s').
    { intros s' H' E'. wp_step. unfold show_table. do 2 wp_step. split; [|by apply told_same]. destruct H' as [H1 H2 H3 H4]. split; [by apply (ring_same s')|done..]. }
    destruct (c =? 119); [wp_step; by apply Hshow|]. destruct (c =? 115); wp_step; by apply Hshow. }
  rewrite (ring_space _ _ _ R). destruct (negb (c =? 0) && (Z.of_nat (length (q ++ l)) <? INPUT_BUF)) eqn:E; [|wp_step; split; [done|by apply told_same]].
  apply andb_true_iff in E as [_ E]. apply Z.ltb_lt in E. do 2 wp_step. apply (char_in s q l (if c =? 13 then 10 else c) H E). destruct (c =? 13); lia.
Qed.

Definition is_char (c : Z) : Prop := 0 <= c < 256.

Lemma told_trans s1 s2 s3 e1 e2 e3 : told s1 s2 e1 e2 -> told s2 s3 e2 e3 -> told s1 s3 e1 e3.
Proof.
  intros [A1 A2] [B1 B2]. split; [lia|]. intros N. destruct (decide (ed_ready e2 = ed_ready e1)) as [E|E]; [|specialize (A2 E); lia]. rewrite <- E in N. specialize (B2 N). lia.
Qed.

Lemma consolechars_spec cs : forall s ed, holds s ed -> Forall is_char cs ->
  wp nopanic (consolechars uart kend cs) (fun _ s' => holds s' (foldl edit ed cs) /\ told s s' ed (foldl edit ed cs)) s.
Proof.
  induction cs as [|c cs IH]; intros s ed H Hcs; cbn [consolechars foldl]; [wp_step; split; [done|by apply told_same]|]. apply Forall_cons in Hcs as [Hc Hcs].
  wp_step. eapply wp_post; [apply consolechar_spec; [done|unfold is_char in Hc; lia]|]. intros d s1 [H1 T1]. cbv beta. wp_step.
  eapply wp_post; [by apply IH|]. intros d' s2 [H2 T2]. cbv beta. wp_step. split; [done|by eapply told_trans].
Qed.

Lemma consoleintr_spec pd cs s ed : holds s ed -> Forall is_char cs ->
  wp nopanic (consoleintr uart kend pd cs) (fun _ s' => holds s' (foldl edit ed cs) /\ told s s' ed (foldl edit ed cs)) s.
Proof.
  intros H Hcs. unfold consoleintr. wp_step. eapply wp_post; [by apply consolechars_spec|]. intros d s1 [H1 T1]. cbv beta. destruct d; cbn [when]; [|by wp_step].
  eapply wp_post; [apply print_chars_ok, H1|]. intros x s2 S2. cbv beta in *. split; [by eapply holds_shown|]. destruct S2 as (? & ? & ? & -> & _). done.
Qed.

Lemma print_spec cs s ed : holds s ed -> wp nopanic (print_chars uart cs) (fun _ s' => holds s' ed /\ c_woken s' = c_woken s) s.
Proof.
  intros H. eapply wp_post; [apply print_chars_ok, H|]. intros x s' S. cbv beta in *. split; [by eapply holds_shown|]. by destruct S as (? & ? & ? & -> & _).
Qed.

(** [consoleread] takes a line. *)
Lemma consoleread_loop_spec killed target l t fuel : forall q n dst s, holds s (Editor q l t) -> (Z.to_nat n <= fuel)%nat ->
  wp nopanic (consoleread_loop fuel killed target n dst)
    (fun r s' => r = (take_line q killed target n dst).1 /\ holds s' (Editor (take_line q killed target n dst).2 l t) /\ c_woken s' = c_woken s) s.
Proof.
  assert (Hdone : forall q n dst, n <= 0 -> take_line q killed target n dst = (RDone n dst, q)).
  { intros q n dst Hn. destruct q; cbn [take_line]; by rewrite (proj2 (Z.ltb_ge _ _)) by lia. }
  induction fuel as [|fuel IH]; intros q n dst s H Hf; cbn [consoleread_loop]; [wp_step; by rewrite Hdone by lia|].
  destruct (Z.ltb_spec 0 n) as [Hn|Hn]; [|wp_step; by rewrite Hdone by lia]. pose proof (hd_ring _ _ H) as R. cbn [ed_ready ed_line] in R.
  do 2 wp_step. unfold id. rewrite (ring_read _ _ _ R). destruct q as [|c q].
  { rewrite bool_decide_true by done. cbn [take_line]. rewrite (proj2 (Z.ltb_lt 0 n)) by done. destruct killed; by wp_step. }
  rewrite bool_decide_false by done. assert (Ec : buf_at s (c_r s) = c).
  { rewrite <- (buf_at_ring s (c :: q) l 0 c R eq_refl). f_equal. pose proof (rg_r _ _ _ R). unfold u32. rewrite Z.mod_small; lia. }
  rewrite Ec. do 2 wp_step. cbn [take_line]. rewrite (proj2 (Z.ltb_lt 0 n)) by done.
  assert (H1 : holds (set_input (c_buf s) (u32 (c_r s + 1)) (c_w s) (c_e s) s) (Editor q l t)) by (apply holds_input; [by apply H..|by eapply ring_get]).
  destruct (c =? ctrl 68).
  { wp_step. destruct (n <? target); cbn [when fst snd]; [|do 2 wp_step; done]. do 2 wp_step. split; [done|]. change (set_input ?b ?r ?w ?e (set_input _ _ _ _ s)) with (set_input b r w e s). by rewrite (ring_unget _ _ _ _ R). }
  destruct (c =? 10); [by wp_step|]. eapply wp_post; [apply (IH q (n - 1) (dst ++ [u8 c]) _ H1); lia|]. done.
Qed.

Lemma read_input_spec killed target n dst q l t s : holds s (Editor q l t) ->
  wp nopanic (read_input killed target n dst)
    (fun r s' => r = (take_line q killed target n dst).1 /\ holds s' (Editor (take_line q killed target n dst).2 l t) /\ c_woken s' = c_woken s) s.
Proof. intros H. by apply consoleread_loop_spec. Qed.
End input.
