(* ===== verification/ConsoleSys.v ===== *)
(** * The console and its readers

    The editor as what interrupts and readers see, the readers that sleep, and
    a line on its way from the keyboard to a process. *)

From S2P Require Import Prelude Params Kalloc Kbd Console ConsoleProps.
Local Open Scope Z_scope.
Local Open Scope kmonad_scope.

Section system.
Context (uart : bool) (kend : Z).

(** C13: the console is a line editor.  Whatever characters an interrupt
    brings, and wherever the indices of the ring buffer are, [consoleintr]
    returns and the buffer then holds what the editor makes of them: characters
    go to the line, backspace and ^U take them back, newline, ^D and a full
    buffer make the line readable and wake the readers; [consoleread] takes of
    the readable characters what [take_line] says, and nothing else changes
    them. *)
Theorem console_refines_editor s ed : holds kend s ed ->
  (forall pd cs, Forall is_char cs -> exists s', consoleintr uart kend pd cs s = Ret tt s' /\ holds kend s' (foldl edit ed cs) /\
    (ed_ready (foldl edit ed cs) <> ed_ready ed -> (c_woken s < c_woken s')%nat)) /\
  (forall killed target n dst, exists s', read_input killed target n dst s = Ret (take_line (ed_ready ed) killed target n dst).1 s' /\
    holds kend s' (Editor (take_line (ed_ready ed) killed target n dst).2 (ed_line ed) (ed_table ed))) /\
  (forall cs, exists s', print_chars uart cs s = Ret tt s' /\ holds kend s' ed).
Proof.
  intros H. split; [|split].
  - intros pd cs Hcs. destruct (wp_nopanic_run _ _ _ (consoleintr_spec uart kend pd cs s ed H Hcs)) as ([] & s' & E & H' & _ & T). eauto.
  - intros killed target n dst. destruct ed as [q l t]. destruct (wp_nopanic_run _ _ _ (read_input_spec kend killed target n dst q l t s H)) as (r & s' & E & -> & H' & _). eauto.
  - intros cs. destruct (wp_nopanic_run _ _ _ (print_spec uart kend cs s ed H)) as ([] & s' & E & H' & _). eauto.
Qed.

(** ** Readers *)

(** A process in [consoleread]: what is left to read, what it has got, whether
    it sleeps, and whether it has been killed. *)
Record reader := Reader { rd_target : Z; rd_left : Z; rd_dst : list Z; rd_asleep : bool; rd_killed : bool }.
Record csys := CSys { y_cons : console; y_readers : gmap Z reader }.

Definition awake (rd : reader) : reader := Reader (rd_target rd) (rd_left rd) (rd_dst rd) false (rd_killed rd).
Definition with_killed (rd : reader) : reader := Reader (rd_target rd) (rd_left rd) (rd_dst rd) false true.

(** Where a reader is after its part of [consoleread]. *)
Definition after_read (pid target : Z) (killed : bool) (r : reading) (rds : gmap Z reader) : gmap Z reader :=
  match r with
  | RSleep n dst => <[pid := Reader target n dst true killed]> rds
  | RDone _ _ | RKilled _ => delete pid rds
  end.

(** Interrupts, with the memory that the rest of the kernel leaves; output; and
    processes that start to read, go on after [sleep], or are killed, which
    wakes them. *)
Inductive cstep : csys -> csys -> Prop :=
| cs_intr y m pd cs c' :
    (exists l, mem_ok kend (set_mem m (y_cons y)) l) -> Forall is_char cs -> consoleintr uart kend pd cs (set_mem m (y_cons y)) = Ret tt c' ->
    cstep y (CSys c' (if decide (c_woken c' = c_woken (y_cons y)) then y_readers y else awake <$> y_readers y))
| cs_print y cs c' : print_chars uart cs (y_cons y) = Ret tt c' -> cstep y (CSys c' (y_readers y))
| cs_read y pid killed n r c' :
    y_readers y !! pid = None -> read_input killed n n [] (y_cons y) = Ret r c' -> cstep y (CSys c' (after_read pid n killed r (y_readers y)))
| cs_resume y pid rd r c' :
    y_readers y !! pid = Some rd -> rd_asleep rd = false -> read_input (rd_killed rd) (rd_target rd) (rd_left rd) (rd_dst rd) (y_cons y) = Ret r c' ->
    cstep y (CSys c' (after_read pid (rd_target rd) (rd_killed rd) r (y_readers y)))
| cs_kill y pid rd : y_readers y !! pid = Some rd -> cstep y (CSys (y_cons y) (<[pid := with_killed rd]> (y_readers y))).

(** A reader sleeps only while there is nothing to read for it. *)
Definition calm (y : csys) (ed : editor) : Prop :=
  holds kend (y_cons y) ed /\ forall pid rd, y_readers y !! pid = Some rd -> rd_asleep rd = true -> ed_ready ed = [] /\ rd_killed rd = false.

(** A read that sleeps has taken everything. *)
Lemma take_line_sleep q killed target : forall n dst n' dst' q', take_line q killed target n dst = (RSleep n' dst', q') -> q' = [] /\ killed = false.
Proof.
  induction q as [|c q IH]; intros n dst n' dst' q'; cbn [take_line]; destruct (0 <? n); try done.
  - destruct killed; [done|]. by intros [= _ _ <-].
  - destruct (c =? ctrl 68); [done|]. destruct (c =? 10); [done|]. apply IH.
Qed.

(** A read leaves a part of what was there. *)
Lemma take_line_nil killed target n dst : (take_line [] killed target n dst).2 = [].
Proof. cbn. by destruct (0 <? n). Qed.

Lemma calm_read y ed pid target n killed dst r c' : calm y ed -> read_input killed target n dst (y_cons y) = Ret r c' ->
  exists ed', calm (CSys c' (after_read pid target killed r (y_readers y))) ed'.
Proof.
  intros [H Hs] E. destruct ed as [q l t]. destruct (wp_nopanic_run _ _ _ (read_input_spec kend killed target n dst q l t _ H)) as (r' & s' & E' & -> & H' & _).
  rewrite E in E'. injection E' as -> ->. exists (Editor (take_line q killed target n dst).2 l t). split; [exact H'|]. cbn [y_readers ed_ready] in *.
  assert (Hold : forall pid' rd, y_readers y !! pid' = Some rd -> rd_asleep rd = true -> (take_line q killed target n dst).2 = [] /\ rd_killed rd = false).
  { intros pid' rd Hp Ha. destruct (Hs pid' rd Hp Ha) as [-> ?]. split; [apply take_line_nil|done]. }
  intros pid' rd Hp Ha. destruct (take_line q killed target n dst) as [[n' d'|n' d'|d'] q'] eqn:Et; cbn [after_read fst snd] in *.
  1,3: apply lookup_delete_Some in Hp as [_ Hp]; by eapply Hold.
  destruct (take_line_sleep _ _ _ _ _ _ _ _ Et) as [-> ->]. apply lookup_insert_Some in Hp as [[_ <-]|[_ Hp]]; [done|]. split; [done|]. by destruct (Hold pid' rd Hp Ha).
Qed.

Lemma calm_step y y' ed : calm y ed -> cstep y y' -> exists ed', calm y' ed'.
Proof.
  intros C S. pose proof C as [H Hs]. destruct S as [y m pd cs c' Hm Hcs E|y cs c' E|y pid killed n r c' _ E|y pid rd r c' _ _ E|y pid rd Hp].
  - assert (H0 : holds kend (set_mem m (y_cons y)) ed) by (destruct H as [H1 H2 H3 _]; split; [by apply (ring_same (y_cons y))|done|done|done]).
    destruct (wp_nopanic_run _ _ _ (consoleintr_spec uart kend pd cs _ ed H0 Hcs)) as ([] & s' & E' & H' & T1 & T2). rewrite E in E'. injection E' as <-.
    exists (foldl edit ed cs). split; [exact H'|]. cbn [y_readers]. change (c_woken (set_mem m (y_cons y))) with (c_woken (y_cons y)) in *.
    destruct (decide (c_woken c' = c_woken (y_cons y))) as [Ew|Nw].
    + intros pid rd Hp Ha. destruct (Hs pid rd Hp Ha) as [Hq Hk]. split; [|done]. destruct (decide (ed_ready (foldl edit ed cs) = ed_ready ed)) as [->|N]; [done|]. specialize (T2 N). lia.
    + intros pid rd Hp Ha. rewrite lookup_fmap in Hp. destruct (y_readers y !! pid); [|done]. by injection Hp as <-.
  - destruct (wp_nopanic_run _ _ _ (print_spec uart kend cs _ ed H)) as ([] & s' & E' & H' & _). rewrite E in E'. injection E' as <-. by exists ed.
  - by eapply calm_read.
  - by eapply calm_read.
  - exists ed. split; [exact H|]. cbn [y_readers]. intros pid' rd' Hp' Ha. apply lookup_insert_Some in Hp' as [[_ <-]|[_ Hp']]; [done|by eapply Hs].
Qed.

Definition idle_system (y : csys) : Prop := y_readers y = ∅ /\ holds kend (y_cons y) (Editor [] [] false).

(** C14: no reader of the console is left asleep.  Under any interleaving of
    interrupts, output, and processes that read, sleep, are woken and are
    killed, a process sleeps in [consoleread] only while there is nothing to
    read and it has not been killed; and a full buffer always holds something to
    read, so input does not get stuck. *)
Theorem console_no_lost_wakeup y0 y : idle_system y0 -> rtc cstep y0 y ->
  exists ed, holds kend (y_cons y) ed /\
    (forall pid rd, y_readers y !! pid = Some rd -> rd_asleep rd = true -> ed_ready ed = [] /\ rd_killed rd = false) /\
    (Z.of_nat (length (ed_ready ed ++ ed_line ed)) = INPUT_BUF -> ed_ready ed <> []).
Proof.
  intros [Hr H0] Hs. assert (Hc : exists ed, calm y ed).
  { assert (C0 : exists ed, calm y0 ed) by (exists (Editor [] [] false); split; [done|]; rewrite Hr; intros pid rd Hp; by rewrite lookup_empty in Hp).
    clear H0 Hr. induction Hs as [|y0 y1 y2 S _ IH]; [done|]. destruct C0 as [ed C0]. apply IH. by eapply calm_step. }
  destruct Hc as (ed & H & Ha). exists ed. split; [done|]. split; [exact Ha|]. intros Hf Hq. pose proof (rg_full _ _ _ (hd_ring _ _ _ H)) as Hfull.
  rewrite Hq in Hf, Hfull. change INPUT_BUF with 128 in Hf. destruct (ed_line ed); [cbn in Hf; lia|]. specialize (Hfull ltac:(done)). lia.
Qed.
End system.

(** ** From the keyboard to a process *)

(** The codes of a keystroke: the key goes down and up, with a shift key held
    around it where the character needs one. *)
Definition key_of (m : list Z) (c : Z) : option Z :=
  '(i, _) ← list_find (fun x => x = c) (take 128 m); Some (Z.of_nat i).
Definition keystroke (c : Z) : list Z :=
  match key_of normalmap c with
  | Some k => [k; Z.lor k 0x80]
  | None =>
      match key_of shiftmap c with
      | Some k => [0x2A; k; Z.lor k 0x80; 0xAA]
      | None => []
      end
  end.

Lemma kbd_app l l' sh : kbd_chars (l ++ l') sh = let '(cs, sh) := kbd_chars l sh in let '(cs', sh) := kbd_chars l' sh in (cs ++ cs', sh).
Proof.
  revert sh. induction l as [|d l IH]; intros sh; cbn [app kbd_chars]; [by destruct (kbd_chars l' sh)|].
  destruct (kbdgetc (Some d) sh) as [c sh1]. rewrite IH. destruct (kbd_chars l sh1) as [cs sh2]. by destruct (kbd_chars l' sh2).
Qed.

Definition typable (c : Z) : Prop := 32 <= c < 127 \/ c = 10.

(** A keystroke is its character, among codes that mean nothing. *)
Definition keystroke_ok (c : Z) : bool :=
  bool_decide ((kbd_chars (keystroke c) 0).2 = 0) && bool_decide (filter (fun x => x <> 0) (kbd_chars (keystroke c) 0).1 = [c]) &&
  forallb (fun x => (0 <=? x) && (x <? 256)) (kbd_chars (keystroke c) 0).1.

Lemma keystroke_typable c : typable c -> keystroke_ok c = true.
Proof.
  assert (H : forallb keystroke_ok (10 :: seqZ 32 95) = true) by (vm_compute; reflexivity). rewrite forallb_forall in H.
  intros Hc. apply H, list_elem_of_In. destruct Hc as [Hc| ->]; [right; apply elem_of_seqZ; lia|left].
Qed.

Lemma keystroke_chars c : typable c -> exists cs, kbd_chars (keystroke c) 0 = (cs, 0) /\ filter (fun x => x <> 0) cs = [c] /\ Forall is_char cs.
Proof.
  intros H%keystroke_typable. unfold keystroke_ok in H. rewrite !andb_true_iff, !bool_decide_eq_true, forallb_forall in H. destruct H as [[H1 H2] H3].
  destruct (kbd_chars (keystroke c) 0) as [cs sh]. cbn [fst snd] in *. exists cs. subst sh. split; [done|]. split; [done|].
  apply Forall_forall. intros x Hx. apply list_elem_of_In, H3 in Hx. unfold is_char. lia.
Qed.

Lemma typed_chars w : Forall typable w -> exists cs, kbd_chars (concat (keystroke <$> w)) 0 = (cs, 0) /\ filter (fun x => x <> 0) cs = w /\ Forall is_char cs.
Proof.
  induction 1 as [|c w Hc _ (cs & E & Ef & Hb)]; [by exists []|]. destruct (keystroke_chars c Hc) as (cs0 & E0 & Ef0 & Hb0).
  exists (cs0 ++ cs). rewrite fmap_cons. cbn [concat]. rewrite kbd_app, E0, E. split; [done|]. rewrite filter_app, Ef0, Ef. split; [done|]. by apply Forall_app.
Qed.

(** The editor ignores zeroes. *)
Lemma edit_nonzero cs : forall ed, foldl edit ed cs = foldl edit ed (filter (fun x => x <> 0) cs).
Proof.
  assert (H0 : forall ed, edit ed 0 = ed) by (intros [q l []]; done).
  induction cs as [|c cs IH]; intros ed; [done|]. cbn [foldl]. destruct (decide (c = 0)) as [->|N].
  - rewrite filter_cons_False by tauto. by rewrite H0.
  - rewrite filter_cons_True by done. cbn [foldl]. apply IH.
Qed.

(** Characters without a meaning of their own gather in the line. *)
Lemma edit_plain w : forall q l, Forall (fun c => 32 <= c < 127) w -> Z.of_nat (length (q ++ l ++ w)) < 128 -> foldl edit (Editor q l false) w = Editor q (l ++ w) false.
Proof.
  induction w as [|c w IH]; intros q l Hw Hl; [by rewrite app_nil_r|]. apply Forall_cons in Hw as [Hc Hw]. cbn [foldl].
  assert (E : edit (Editor q l false) c = Editor q (l ++ [c]) false).
  { rewrite !length_app in Hl. cbn [length] in Hl. unfold edit. change (ctrl 80) with 16. change (ctrl 85) with 21. change (ctrl 72) with 8. change (alt 67) with 3. change (ctrl 68) with 4. change INPUT_BUF with 128.
    rewrite !(proj2 (Z.eqb_neq c _)) by lia. cbn [orb negb andb]. rewrite (proj2 (Z.ltb_lt _ _)) by (rewrite length_app; lia).
    cbn [orb]. rewrite (proj2 (Z.eqb_neq _ 128)) by (rewrite !length_app; cbn [length]; lia).
    do 3 f_equal. unfold s8. change (2 ^ 7) with 128. change (2 ^ 8) with 256. rewrite Z.mod_small; lia. }
  rewrite E, IH; [by rewrite <- app_assoc|done|by rewrite <- app_assoc].
Qed.

Lemma take_plain w q target : Forall (fun c => 32 <= c < 127) w -> forall n dst, Z.of_nat (length w) < n ->
  take_line (w ++ 10 :: q) false target n dst = (RDone (n - Z.of_nat (length w) - 1) (dst ++ w ++ [10]), q).
Proof.
  induction 1 as [|c w Hc _ IH]; intros n dst Hn; cbn [app take_line length] in *; rewrite (proj2 (Z.ltb_lt 0 n)) by lia.
  - change (10 =? ctrl 68) with false. change (10 =? 10) with true. cbv iota. do 3 f_equal. lia.
  - change (ctrl 68) with 4. rewrite !(proj2 (Z.eqb_neq c _)) by lia. rewrite IH by lia. assert (Ec : u8 c = c) by (unfold u8; rewrite Z.mod_small; lia). rewrite Ec, <- app_assoc. do 3 f_equal. lia.
Qed.

(** C15: a line that is typed is the line that is read.  For every line of up to
    127 printable characters, the codes that the keyboard sends for its keys,
    shift keys included, and for Enter go through [kbdgetc] and [consoleintr]
    to the process that reads: [consoleread] returns exactly the line, and the
    keyboard and the console are as before. *)
Theorem typed_line_is_read uart kend w n s : holds kend s (Editor [] [] false) -> Forall (fun c => 32 <= c < 127) w ->
  Z.of_nat (length w) < 128 -> Z.of_nat (length w) < n ->
  exists cs s1 s2, kbd_chars (concat (keystroke <$> w ++ [10])) 0 = (cs, 0) /\ consoleintr uart kend [] cs s = Ret tt s1 /\
    read_input false n n [] s1 = Ret (RDone (n - Z.of_nat (length w) - 1) (w ++ [10])) s2 /\ holds kend s2 (Editor [] [] false).
Proof.
  intros H Hw Hl Hn. destruct (typed_chars (w ++ [10])) as (cs & E & Ef & Hcs).
  { apply Forall_app. split; [|by constructor; [right|constructor]]. eapply Forall_impl; [exact Hw|]. intros c Hc. by left. }
  destruct (wp_nopanic_run _ _ _ (consoleintr_spec uart kend [] cs s _ H Hcs)) as ([] & s1 & E1 & H1 & _).
  rewrite edit_nonzero, Ef, foldl_app, edit_plain in H1 by done. cbn [app foldl] in H1. assert (Ed : edit (Editor [] w false) 10 = Editor (w ++ [10]) [] false).
  { unfold edit. rewrite (proj2 (Z.ltb_lt _ INPUT_BUF)) by (change INPUT_BUF with 128; cbn [app]; lia). done. }
  rewrite Ed in H1. destruct (wp_nopanic_run _ _ _ (read_input_spec kend false n n [] _ _ _ _ H1)) as (r & s2 & E2 & -> & H2 & _).
  rewrite take_plain in E2, H2 by done. exists cs, s1, s2. done.
Qed.

(** ** A console at boot, with one free page; the indices are about to wrap *)

Definition demo_page : Z := 2 ^ 31 + 2 ^ 20.
Definition demo_console : console :=
  Console (replicate 128 0) (2 ^ 32 - 2) (2 ^ 32 - 2) (2 ^ 32 - 2) ∅ 0 [] (attr 0 15) 0 false 0 1 (Kmem true demo_page {[demo_page := replicate 4096 0]}) 0.

Lemma demo_holds : holds demo_page demo_console (Editor [] [] false).
Proof.
  split; [|done|cbn; lia|].
  - split; cbn; try done; lia || constructor.
  - exists [demo_page]. split; [|done]. split; [|split; [by repeat constructor; apply not_elem_of_nil|constructor; [|constructor]]].
    + cbn [pages freelist c_mem demo_console]. econstructor; [done|by apply lookup_singleton_eq|]. rewrite get32_replicate. constructor.
    + by vm_compute.
Qed.

(** [ab^Hc], Enter, and a read of 10 bytes. *)
Lemma console_refines_editor_witness : exists s1 s2, consoleintr true demo_page [] [97; 98; 8; 99; 13] demo_console = Ret tt s1 /\
  read_input false 10 10 [] s1 = Ret (RDone 7 [97; 99; 10]) s2 /\ holds demo_page s2 (Editor [] [] false).
Proof.
  destruct (console_refines_editor true demo_page demo_console _ demo_holds) as (H1 & _).
  destruct (H1 [] [97; 98; 8; 99; 13]) as (s1 & E1 & Hs1 & _); [by repeat constructor|]. exists s1.
  destruct (console_refines_editor true demo_page s1 _ Hs1) as (_ & H2 & _). destruct (H2 false 10 10 []) as (s2 & E2 & Hs2). exists s2. split; [exact E1|]. split; [exact E2|exact Hs2].
Defined.

(** A reader sleeps, a line comes, and the reader is awake. *)
Lemma console_no_lost_wakeup_witness : exists y, rtc (cstep true demo_page) (CSys demo_console ∅) y /\ y_readers y = {[5 := Reader 10 10 [] false false]} /\
  exists ed, holds demo_page (y_cons y) ed /\ (forall pid rd, y_readers y !! pid = Some rd -> rd_asleep rd = true -> ed_ready ed = [] /\ rd_killed rd = false).
Proof.
  destruct (wp_nopanic_run _ _ _ (consoleintr_spec true demo_page [] [97; 13] demo_console _ demo_holds ltac:(by repeat constructor))) as ([] & s1 & E1 & _).
  assert (Hs : rtc (cstep true demo_page) (CSys demo_console ∅)
    (CSys s1 (if decide (c_woken s1 = c_woken demo_console) then {[5 := Reader 10 10 [] true false]} else awake <$> {[5 := Reader 10 10 [] true false]}))).
  { eapply rtc_l; [by apply (cs_read _ _ _ 5 false 10 (RSleep 10 []) demo_console)|]. apply rtc_once. apply (cs_intr _ _ (CSys demo_console _) (c_mem demo_console) [] [97; 13]); [apply demo_holds|by repeat constructor|exact E1]. }
  assert (Ew : c_woken s1 <> c_woken demo_console).
  { assert (Ew : match consoleintr true demo_page [] [97; 13] demo_console with Ret _ s => c_woken s | _ => 0%nat end = 1%nat) by (vm_compute; reflexivity). rewrite E1 in Ew. by rewrite Ew. }
  rewrite decide_False in Hs by exact Ew. eexists. split; [exact Hs|]. split; [by rewrite map_fmap_singleton|].
  destruct (console_no_lost_wakeup true demo_page (CSys demo_console ∅) _ (conj eq_refl demo_holds) Hs) as (ed & H & Ha & _). exists ed. split; [exact H|exact Ha].
Defined.

(** [Hi!] *)
Lemma typed_line_is_read_witness : exists cs s1 s2, kbd_chars (concat (keystroke <$> [72; 105; 33] ++ [10])) 0 = (cs, 0) /\ consoleintr true demo_page [] cs demo_console = Ret tt s1 /\
  read_input false 100 100 [] s1 = Ret (RDone 96 [72; 105; 33; 10]) s2 /\ holds demo_page s2 (Editor [] [] false).
Proof. apply (typed_line_is_read true demo_page [72; 105; 33] 100 demo_console demo_holds); [repeat constructor; lia|cbn; lia|cbn; lia]. Defined.
